(* ===== verification/_CoqProject ===== *)
-Q . S2P
Prelude.v
Source.v
Sink.v
Websock.v
Base64.v
Display.v
Decoder.v
Decoders.v
Hextile.v
HextileCorrect.v
Utf8.v
Webutil.v
Messages.v
Lifecycle.v
Des.v
Bigint.v
DesCorrect.v
Md5.v
Md5Correct.v
Inflator.v
InflatorCorrect.v
Pixels.v
Zrle.v
ZrleCorrect.v
Tight.v
TightCorrect.v
TightDraws.v
Jpeg.v
JpegCorrect.v
Aes.v
AesCorrect.v
Rsa.v
Keytables.v
Rfb.v
Handshake.v
Session.v
Pointer.v
GestureHandler.v
Keyboard.v
Asock.v
Steps.v
Ra2.v
Ra2Correct.v
Ra2Run.v
HandshakeCorrect.v
SessionCorrect.v
InputCorrect.v
GestureCorrect.v
KeyboardCorrect.v
Ui.v
UiFacts.v
UiCorrect.v
UiTyping.v
UiBehaviour.v
UiRun.v
Deflator.v
Metrics.v
MetricsCorrect.v
Cursor.v
CursorCorrect.v
Theme.v
ThemeCorrect.v
Localization.v
EventTarget.v
LegacyCrypto.v
Browser.v
