(* ===== verification/Prelude.v ===== *)
(** * noVNC in the browser console of mipmi: a verification library

    The repository serves a web console for server management controllers.
    Its JavaScript is the noVNC client, src/internal/ui/static/novnc/ (called
    core/ and app/ below): a VNC viewer that opens a WebSocket, speaks the RFB
    protocol (RFC 6143 with extensions), decodes screen updates to a canvas and
    sends keys, pointer and clipboard back.  This library models that client
    and proves that it does what it means to do.

    ** How the program is put together, and the files here

    Bytes arrive as WebSocket messages in the receive queue of core/websock.js.
    The client object of core/rfb.js reads them through [rQ...] methods, a few
    at a time; when the bytes of a message are not all there yet, a handler
    returns false and is called again later.  Rectangles of pixels are read by
    the decoders of core/decoders, drawn on the display of core/display.js.
    Input travels the other way: keyboard (core/input), pointer and gestures
    turn browser events into calls of the client, which writes messages to the
    send queue.

    - Prelude: JavaScript integers (module [JS]: 32-bit operators written out),
      lists indexed by [Z], byte lists, views on buffers, the state and error
      monad [M] in which all stateful code is written ([Ret], [Throw] for a
      JavaScript exception, [Stuck] for what the model excludes), lemmas and
      tactics.  A method of an object becomes a term of [M] over the record of
      the object's fields; an [if] with [return] becomes an [if].
    - Source, Sink: the classes [ByteSource] and [ByteSink], what the protocol
      code uses of a socket, with an abstract instance (a list of bytes) and
      the laws [ByteSourceOk] and [ByteSinkOk].  Client code is written once
      for every instance, proved on the abstract one, and carried to the real
      queue by simulation ([Sim]).
    - Websock: core/websock.js, both queues; [unread] and [wire] are their
      contents as lists; it discharges the laws of Source and Sink.
    - Display: core/display.js: canvas operations, render queue, viewport,
      damage, scaling.  The canvas is the browser's (class [Canvas]).
    - Decoder: what the decoders share: a world of decoder, socket and recorded
      draws; [Res], [feed] and [feed_concat_ok], the theorem that a resumable
      decoder does not see how the data was cut.
    - Decoders (raw.js, copyrect.js, rre.js), Hextile, Zrle, Tight (tight.js,
      tightpng.js) and Jpeg: core/decoders.  Pixels: their pixel buffers.
      Inflator: core/inflator.js over a decompressor that is a parameter.
      Theorems: HextileCorrect, ZrleCorrect, TightCorrect, TightDraws,
      JpegCorrect, InflatorCorrect.
    - Base64 (core/base64.js), Utf8 (core/util/strings.js), Des, Bigint, Md5
      (core/crypto): codecs and ciphers.  DesCorrect and Md5Correct compare
      them with FIPS 46-3 and RFC 1321 as printed.
    - Messages: the client messages of core/rfb.js ([RFB.messages]) and the
      server's reader.
    - Lifecycle: the connection states of core/rfb.js.  Rfb: the client object
      with its fields and shared operations.  Handshake: the opening of a
      connection ([_initMsg]).  Session: the messages of a connected server
      ([_normalMsg], framebuffer updates, clipboard, fences, desktop size,
      cursors) and the page's requests.  Asock and Steps: the surroundings on
      which they are run in proofs.  Theorems: HandshakeCorrect,
      SessionCorrect.
    - Pointer (mouse, wheel, gestures in core/rfb.js), GestureHandler and
      Keyboard (core/input), Keytables (the key tables of core/input).
      Theorems: InputCorrect, GestureCorrect, KeyboardCorrect.
    - Aes, Rsa (core/crypto): AES-EAX and RSA over the ciphers of the browser;
      LegacyCrypto: the one interface to them (core/crypto/crypto.js).  Ra2:
      RSA-AES security of core/ra2.js, an asynchronous method cut at its
      suspension points; a step resumes it, settles a question to the page or
      ends the connection.  Theorems: AesCorrect, Ra2Correct, Ra2Run.
    - Cursor: pointer capture and the cursor the page draws (core/util/events.js,
      core/util/cursor.js).  Theorems: CursorCorrect.  EventTarget, Browser:
      core/util/eventtarget.js, browser.js and logging.js.
      Deflator: core/deflator.js over a compressor that is a parameter.
    - Webutil (app/webutil.js), Localization (app/localization.js), and Ui, the
      page of app/ui.js: its elements, timers, settings and on-screen keyboard
      as one record, each listener an operation on it, the client it drives an
      interface ([Ui.Client], a class whose calls are recorded as orders).
      Theorems: UiFacts (each operation), UiCorrect (every history), UiTyping,
      UiBehaviour, UiRun.  The last resort for errors (app/error-handler.js) is
      in Browser, with the choice of a level for the log.
    - Metrics (js/metrics.js), Theme (js/theme.js), and in Browser the module
      Console (js/console.js): the other pages of the console.  Theorems:
      MetricsCorrect, ThemeCorrect.

    The page creates the client and hears its events; the client draws on
    Display, writes messages to Websock and asks Cursor to show itself; the
    settings of the page are kept by Webutil.

    ** What the theorems show

    - Queues: receiving appends, whatever compaction and growth of the buffer;
      what is sent reaches the wire in order, whatever its size, but for
      clipboard texts longer than the send queue; two defects of bulk writes
      are stated exactly.
    - Decoders: what an encoded rectangle draws, pixel by pixel, and that
      exactly its bytes are consumed; that the cut of the stream into messages
      changes neither draws nor errors nor state; for Raw, CopyRect and RRE,
      that all this holds on the real queue, whatever messages fill it.
    - Display: queued and immediate drawing have the effect of the requests in
      order, with the start of its buffer for a blit that has to wait; the
      queue drains; no request raises an error; a flip shows what
      was damaged; the viewport stays inside the framebuffer.
    - Codecs and ciphers: round trips, the exact condition of decoding errors,
      equivalence with the published standards.
    - Client: connect and disconnect events in step with the state; nobody gets
      in unapproved, in any interleaving of messages and asynchronous parts; a
      whole handshake completes; methods wait for credentials; fences are
      answered; a viewer sends nothing.
    - Input: gestures are well formed as long as no finger moves while a tap
      waits for its release, and what else can happen when one does; the
      recogniser never throws and is idle without fingers; buttons and keys told
      to the server are those that an account of the events says are down;
      keysyms fit their width.
    - RSA-AES: credentials leave only for an approved and authenticated server,
      in any order of events, and until then what is sent does not depend on
      them; the channel carries messages in order; a whole exchange with a
      server that follows the protocol completes under every schedule in which
      its random number comes in one piece.
    - Page: over every history of user, timers and client, panels, status and
      state of the client fit together; after a disconnect nothing connects
      again by itself; what is typed on screen reaches the server, text
      after text; a setting
      survives a reload.
    - Other pages: picker, filter and chart stay in step; a choice of sensors is
      read back from an address; tabs agree on the theme once they are settled,
      which they need not ever be ([tabs_never_settle]); capture ends with the
      button and the hot spot stays under the mouse; the language chosen is the
      first of the user's that is served; listeners are called once each.

    ** Bounds and fuel

    Numbers that hold integers are [Z]; the 32-bit operators wrap as in the
    language, other arithmetic is exact below 2^53, which the values of the
    code do not reach.  Uint8Array elements are reduced modulo 256.  Positions
    and times of the pointer are rationals.  Loops are structural or run over
    the range that the source gives.  Fuel appears where the source has an
    unbounded loop: the run length of ZRLE ([fuel]; 17 bytes are enough for a
    tile, and the theorems ask for no more), the bulk write of the send queue
    ([sQpushBytes_loop], where the theorem is that no fuel is enough), the
    rounds of [modPow] (the bits of the exponent, with a proof that they are
    enough), the segments of a JPEG image (the bytes that have arrived), the
    passes of the compressor ([deflated_whole]: enough for the bound on its
    output), the rounds of an exchange ([exchange_completes]: sixteen), the
    walk over listeners ([event_dispatched], for those that leave the set of
    their type alone).
    Asynchronous code is cut at its suspension points; each continuation is a
    step of its own, and theorems quantify over interleavings.

    ** Third-party and browser code

    The decompressor ([Inflator.Zlib]; what is assumed of it is
    [InflatorCorrect.ZlibOk], and [stored] is an instance), the compressor, the
    canvas ([Display.Canvas]), WebCrypto and random bytes, [Math.hypot],
    [Math.atan2], clocks and timers are parameters.

    ** Not modelled

    - of core/util/events.js the choice between an event and its first touch.
    - the few lines of core/rfb.js that create elements, set their styles and
      register listeners.
    - vendor/: the compressor, the charts and the terminal, third-party code,
      parameters here; htmx, which these scripts do not call.
    - utils/convert.js, utils/genkeysymdef.js, karma.conf.js: tools of
      developers.
    - the server in Go under cmd/, internal/ and scripts/, templates, styles,
      translations, build files: other languages than the client's. *)

From Stdlib Require Import ZArith List Lia Bool String Morphisms Btauto.
Import ListNotations.
Open Scope Z_scope.

(** * JavaScript integers

    The modelled code uses JavaScript numbers that hold integers; they are
    modelled as [Z].  The bit operators of the language convert their operands
    to 32-bit integers first; that conversion is written out here.  The other
    arithmetic operators are exact on the values the code computes, which stay
    below 2^53. *)
Module JS.

(** ToUint32 *)
Definition wrap32 (z : Z) : Z := z mod 4294967296.

(** ToInt32 *)
Definition toInt32 (z : Z) : Z :=
  let w := wrap32 z in if w <? 2147483648 then w else w - 4294967296.

(** [a << n], [a >> n], [a >>> n] *)
Definition shl (a n : Z) : Z := toInt32 (Z.shiftl (toInt32 a) (n mod 32)).
Definition sar (a n : Z) : Z := Z.shiftr (toInt32 a) (n mod 32).
Definition shr (a n : Z) : Z := Z.shiftr (wrap32 a) (n mod 32).

(** [a & b], [a | b], [a ^ b], [~a] *)
Definition band (a b : Z) : Z := Z.land (toInt32 a) (toInt32 b).
Definition bor (a b : Z) : Z := Z.lor (toInt32 a) (toInt32 b).
Definition bxor (a b : Z) : Z := Z.lxor (toInt32 a) (toInt32 b).
Definition bnot (a : Z) : Z := Z.lnot (toInt32 a).

(** The value stored by an assignment to an element of a [Uint8Array]. *)
Definition toUint8 (z : Z) : Z := z mod 256.

(** [if (e)] on a number *)
Definition truthy (z : Z) : bool := negb (z =? 0).

End JS.

Declare Scope js_scope.
Delimit Scope js_scope with js.
Notation "a '<<' n" := (JS.shl a n) (at level 40, left associativity) : js_scope.
Notation "a '>>' n" := (JS.sar a n) (at level 40, left associativity) : js_scope.
Notation "a '>>>' n" := (JS.shr a n) (at level 40, left associativity) : js_scope.
Notation "a '&' b" := (JS.band a b) (at level 43, left associativity) : js_scope.
Notation "a '.|' b" := (JS.bor a b) (at level 45, left associativity) : js_scope.
Notation "a '.^' b" := (JS.bxor a b) (at level 44, left associativity) : js_scope.

(** A list of byte values, as a [Uint8Array] holds them. *)
Definition is_byte (z : Z) : Prop := 0 <= z < 256.
Definition bytes (l : list Z) : Prop := Forall is_byte l.

Definition byteb (z : Z) : bool := (0 <=? z) && (z <? 256).
Definition bytesb (l : list Z) : bool := forallb byteb l.

(** * Lists indexed by [Z] *)

Definition zlen {A} (l : list A) : Z := Z.of_nat (List.length l).
Definition ztake {A} (n : Z) (l : list A) : list A := firstn (Z.to_nat n) l.
Definition zdrop {A} (n : Z) (l : list A) : list A := skipn (Z.to_nat n) l.
Definition zrep {A} (n : Z) (x : A) : list A := repeat x (Z.to_nat n).

(** Element read: [undefined] (None) outside the array. *)
Definition zget {A} (l : list A) (i : Z) : option A :=
  if i <? 0 then None else nth_error l (Z.to_nat i).
Definition zgetd (l : list Z) (i : Z) : Z :=
  match zget l i with Some v => v | None => 0 end.

(** Element write: ignored outside a typed array. *)
Definition zset {A} (l : list A) (i : Z) (v : A) : list A :=
  if (i <? 0) || (zlen l <=? i) then l
  else ztake i l ++ v :: zdrop (i + 1) l.

(** [arr.slice(a, b)] and [arr.subarray(a, b)] for [0 <= a]: both clamp. *)
Definition zslice {A} (l : list A) (a b : Z) : list A := ztake (b - a) (zdrop a l).

(** [dst.set(src, off)] when it does not throw. *)
Definition zblit {A} (dst : list A) (off : Z) (src : list A) : list A :=
  ztake off dst ++ src ++ zdrop (off + zlen src) dst.

(** * Tactics and databases *)

Create HintDb bytes discriminated.
Create HintDb jsdb discriminated.
Create Rewrite HintDb zlist.
Create Rewrite HintDb jsbits.

(** Case analysis on the first boolean test in sight, turned into arithmetic. *)
Ltac bool_prop :=
  repeat match goal with
  | H : _ && _ = true |- _ => apply andb_prop in H; destruct H
  | H : _ || _ = false |- _ => apply orb_false_elim in H; destruct H
  | H : (_ <? _) = true |- _ => apply Z.ltb_lt in H
  | H : (_ <? _) = false |- _ => apply Z.ltb_ge in H
  | H : (_ <=? _) = true |- _ => apply Z.leb_le in H
  | H : (_ <=? _) = false |- _ => apply Z.leb_gt in H
  | H : (_ >? _) = true |- _ => rewrite Z.gtb_ltb in H; apply Z.ltb_lt in H
  | H : (_ >? _) = false |- _ => rewrite Z.gtb_ltb in H; apply Z.ltb_ge in H
  | H : (_ >=? _) = true |- _ => rewrite Z.geb_leb in H; apply Z.leb_le in H
  | H : (_ >=? _) = false |- _ => rewrite Z.geb_leb in H; apply Z.leb_gt in H
  | H : (_ =? _) = true |- _ => apply Z.eqb_eq in H
  | H : (_ =? _) = false |- _ => apply Z.eqb_neq in H
  | H : negb _ = true |- _ => apply negb_true_iff in H
  | H : negb _ = false |- _ => apply negb_false_iff in H
  end.

Ltac case_if :=
  match goal with
  | |- context [if ?b then _ else _] =>
      let E := fresh "E" in destruct b eqn:E
  end.
Ltac case_if_in H :=
  match type of H with
  | context [if ?b then _ else _] =>
      let E := fresh "E" in destruct b eqn:E
  end.

(** Linear arithmetic after the boolean tests in the context are reflected. *)
Ltac blia := bool_prop; lia.

(** Division and remainder by constants. *)
Ltac euclid := Z.to_euclidean_division_equations; lia.

(** Equality of structures up to arithmetic. *)
Ltac eqs := first [reflexivity | euclid | f_equal; eqs].

(** * Facts on lists indexed by [Z] *)

Section ZList.
  Context {A : Type}.
  Implicit Types l : list A.

Lemma zlen_nonneg l : 0 <= zlen l.
  Proof. unfold zlen; lia. Qed.

Lemma zlen_nil : zlen (@nil A) = 0.
  Proof. reflexivity. Qed.

Lemma zlen_cons x l : zlen (x :: l) = 1 + zlen l.
  Proof. unfold zlen; simpl List.length; lia. Qed.

Lemma zlen_app l1 l2 : zlen (l1 ++ l2) = zlen l1 + zlen l2.
  Proof. unfold zlen; rewrite length_app; lia. Qed.

Lemma zlen_ztake n l : zlen (ztake n l) = Z.min (Z.max 0 n) (zlen l).
  Proof. unfold zlen, ztake; rewrite length_firstn; lia. Qed.

Lemma zlen_zdrop n l : zlen (zdrop n l) = Z.max 0 (zlen l - Z.max 0 n).
  Proof. unfold zlen, zdrop; rewrite length_skipn; lia. Qed.

Lemma zlen_zrep n (x : A) : zlen (zrep n x) = Z.max 0 n.
  Proof. unfold zlen, zrep; rewrite repeat_length; lia. Qed.

Lemma zlen_0_nil l : zlen l = 0 -> l = [].
  Proof. destruct l; [easy|]. rewrite zlen_cons. pose proof (zlen_nonneg l). lia. Qed.

Lemma zlen_four l : zlen l = 4 -> exists a b c d, l = [a; b; c; d].
Proof.
  unfold zlen. intros Hl. destruct l as [|a [|b [|c [|d [|e l]]]]]; cbn in Hl; try lia. eauto.
Qed.

Lemma ztake_all n l : zlen l <= n -> ztake n l = l.
  Proof. intros; unfold zlen, ztake in *; apply firstn_all2; lia. Qed.

Lemma ztake_nonpos n l : n <= 0 -> ztake n l = [].
  Proof. intros; unfold ztake; replace (Z.to_nat n) with 0%nat by lia; reflexivity. Qed.

Lemma zdrop_all n l : zlen l <= n -> zdrop n l = [].
  Proof. intros; unfold zlen, zdrop in *; apply skipn_all2; lia. Qed.

Lemma zdrop_nonpos n l : n <= 0 -> zdrop n l = l.
  Proof. intros; unfold zdrop; replace (Z.to_nat n) with 0%nat by lia; reflexivity. Qed.

Lemma ztake_zdrop n l : ztake n l ++ zdrop n l = l.
  Proof. apply firstn_skipn. Qed.

Lemma ztake_app n l1 l2 : ztake n (l1 ++ l2) = ztake n l1 ++ ztake (n - zlen l1) l2.
  Proof.
    unfold ztake, zlen. rewrite firstn_app. f_equal. f_equal. lia.
  Qed.

Lemma zdrop_app n l1 l2 : zdrop n (l1 ++ l2) = zdrop n l1 ++ zdrop (n - zlen l1) l2.
  Proof.
    unfold zdrop, zlen. rewrite skipn_app. f_equal. f_equal. lia.
  Qed.

Lemma ztake_app_l n l1 l2 : n <= zlen l1 -> ztake n (l1 ++ l2) = ztake n l1.
  Proof. intros. rewrite ztake_app, (ztake_nonpos (n - _)), app_nil_r; [easy|lia]. Qed.

Lemma ztake_app_exact l1 l2 : ztake (zlen l1) (l1 ++ l2) = l1.
  Proof. rewrite ztake_app_l, ztake_all; lia || reflexivity. Qed.

Lemma zdrop_app_exact l1 l2 : zdrop (zlen l1) (l1 ++ l2) = l2.
  Proof. rewrite zdrop_app, zdrop_all, zdrop_nonpos; [reflexivity|lia|lia]. Qed.

Lemma zdrop_app_l n l1 l2 : n <= zlen l1 -> zdrop n (l1 ++ l2) = zdrop n l1 ++ l2.
  Proof. intros. rewrite zdrop_app, (zdrop_nonpos (n - _)); [easy|lia]. Qed.

Lemma zdrop_zdrop n m l : 0 <= n -> 0 <= m -> zdrop n (zdrop m l) = zdrop (n + m) l.
  Proof. intros; unfold zdrop; rewrite skipn_skipn; f_equal; lia. Qed.

Lemma cons_inj (x y : A) l1 l2 : x :: l1 = y :: l2 -> x = y /\ l1 = l2.
Proof. now intros [= -> ->]. Qed.

(** Two ways to cut the same list. *)
Lemma app_prefix l r l1 l2 : l ++ r = l1 ++ l2 -> zlen l <= zlen l1 -> exists r1, l1 = l ++ r1 /\ r = r1 ++ l2.
Proof.
  intros E Hl. destruct (app_eq_app _ _ _ _ E) as [x [[-> ->]|[-> ->]]].
  - rewrite zlen_app in Hl. pose proof (zlen_nonneg x). rewrite (zlen_0_nil x) by lia. exists []. now rewrite !app_nil_r.
  - exists x. auto.
Qed.

Lemma ztake_ztake n m l : ztake n (ztake m l) = ztake (Z.min n m) l.
  Proof. unfold ztake; rewrite firstn_firstn; f_equal; lia. Qed.

Lemma zdrop_ztake n m l : 0 <= n -> zdrop n (ztake m l) = ztake (m - n) (zdrop n l).
  Proof. intros; unfold ztake, zdrop; rewrite skipn_firstn_comm; f_equal; lia. Qed.

Lemma zget_ge l i : zlen l <= i -> zget l i = None.
  Proof.
    intros. unfold zget. case_if; [easy|]. apply nth_error_None. unfold zlen in *. blia.
  Qed.

Lemma zget_some l i : 0 <= i < zlen l -> exists x, zget l i = Some x.
  Proof.
    intros. unfold zget. case_if; [blia|].
    destruct (nth_error l (Z.to_nat i)) eqn:E'; eauto.
    apply nth_error_None in E'. unfold zlen in *. blia.
  Qed.

Lemma zget_app_l l1 l2 i : i < zlen l1 -> zget (l1 ++ l2) i = zget l1 i.
  Proof.
    intros. unfold zget, zlen in *. case_if; [easy|].
    apply nth_error_app1. blia.
  Qed.

Lemma zget_app_r l1 l2 i : zlen l1 <= i -> zget (l1 ++ l2) i = zget l2 (i - zlen l1).
  Proof.
    intros. unfold zget, zlen in *. repeat case_if; try blia.
    rewrite nth_error_app2 by blia. f_equal. blia.
  Qed.

Lemma zget_ztake l n i : i < n -> zget (ztake n l) i = zget l i.
  Proof.
    intros. unfold zget, ztake. case_if; [easy|].
    rewrite nth_error_firstn. destruct (Nat.ltb_spec (Z.to_nat i) (Z.to_nat n)); [easy|blia].
  Qed.

Lemma zget_zdrop l n i : 0 <= n -> 0 <= i -> zget (zdrop n l) i = zget l (n + i).
  Proof.
    intros. unfold zget, zdrop. repeat case_if; try blia.
    rewrite nth_error_skipn. f_equal. lia.
  Qed.

Lemma zget_cons x l i : 0 <= i -> zget (x :: l) i = if i =? 0 then Some x else zget l (i - 1).
  Proof.
    intros. change (x :: l) with ([x] ++ l). case_if; bool_prop.
    - subst. reflexivity.
    - rewrite zget_app_r; [reflexivity|]. cbn. lia.
  Qed.

Lemma zdrop_cons_get l i x : zget l i = Some x -> zdrop i l = x :: zdrop (i + 1) l.
  Proof.
    unfold zget. case_if; [easy|]. intros H. bool_prop.
    unfold zdrop. replace (Z.to_nat (i + 1)) with (S (Z.to_nat i)) by lia.
    revert l H. induction (Z.to_nat i); intros [|y l] H; cbn in *; try easy.
    - congruence.
    - now apply IHn.
  Qed.

Lemma zget_ext l1 l2 :
    zlen l1 = zlen l2 -> (forall i, 0 <= i < zlen l1 -> zget l1 i = zget l2 i) -> l1 = l2.
  Proof.
    revert l2. induction l1 as [|x l1 IH]; intros l2 HL HG.
    - symmetry; apply zlen_0_nil. now rewrite <- HL.
    - destruct l2 as [|y l2]; [rewrite zlen_cons, zlen_nil in HL; pose proof (zlen_nonneg l1); lia|].
      rewrite !zlen_cons in *. pose proof (zlen_nonneg l1).
      assert (x = y) as ->. { specialize (HG 0). rewrite !zget_cons in HG by lia.
        assert (Some x = Some y) by (apply HG; lia). congruence. }
      f_equal. apply IH; [lia|]. intros i Hi. specialize (HG (i + 1)).
      rewrite !zget_cons in HG by lia. destruct (Z.eqb_spec (i + 1) 0); [lia|].
      replace (i + 1 - 1) with i in HG by lia. apply HG. lia.
  Qed.

Lemma zlen_zset l i (x : A) : zlen (zset l i x) = zlen l.
  Proof.
    unfold zset. case_if; [easy|]. bool_prop.
    rewrite zlen_app, zlen_cons, zlen_ztake, zlen_zdrop. lia.
  Qed.

Lemma zget_zset_eq l i (x : A) : 0 <= i < zlen l -> zget (zset l i x) i = Some x.
  Proof.
    intros. unfold zset. case_if; [apply orb_prop in E; destruct E; blia|].
    rewrite zget_app_r; rewrite zlen_ztake; [|lia].
    replace (i - _) with 0 by lia. reflexivity.
  Qed.

Lemma zget_zset_ne l i j (x : A) : i <> j -> zget (zset l i x) j = zget l j.
  Proof.
    intros Hne. unfold zset. case_if; [easy|]. bool_prop.
    destruct (Z.ltb_spec j 0); [unfold zget; destruct (Z.ltb_spec j 0); [easy|lia]|].
    destruct (Z.lt_total j i) as [Hj|[Hj|Hj]]; [|lia|].
    - rewrite zget_app_l by (rewrite zlen_ztake; lia). now rewrite zget_ztake.
    - rewrite zget_app_r by (rewrite zlen_ztake; lia). rewrite zlen_ztake.
      rewrite zget_cons by lia. destruct (Z.eqb_spec (j - Z.min (Z.max 0 i) (zlen l)) 0); [lia|].
      rewrite zget_zdrop by lia. f_equal. lia.
  Qed.

Lemma zlen_zblit l off src :
    0 <= off -> off + zlen src <= zlen l -> zlen (zblit l off src) = zlen l.
  Proof.
    intros. unfold zblit. pose proof (zlen_nonneg src).
    rewrite !zlen_app, zlen_ztake, zlen_zdrop. lia.
  Qed.

Lemma zlen_zslice l a b : 0 <= a <= b -> b <= zlen l -> zlen (zslice l a b) = b - a.
  Proof. intros. unfold zslice. rewrite zlen_ztake, zlen_zdrop. lia. Qed.
End ZList.

#[export] Hint Rewrite @zlen_nil @zlen_cons @zlen_app @zlen_ztake @zlen_zdrop @zlen_zrep @zlen_zset : zlist.

(** Length side conditions: normalise the lengths, then arithmetic. *)
Ltac zlens :=
  repeat match goal with
  | |- context [zlen ?l] => lazymatch goal with H : 0 <= zlen l |- _ => fail | _ => pose proof (zlen_nonneg l) end
  | _ : context [zlen ?l] |- _ => lazymatch goal with H : 0 <= zlen l |- _ => fail | _ => pose proof (zlen_nonneg l) end
  end.
Ltac zlia := autorewrite with zlist in *; zlens; bool_prop; lia.

(** * The integers below [n], in order: the loops [for (let i = 0; i < n; i++)] *)
Definition upto (n : Z) : list Z := map Z.of_nat (seq 0 (Z.to_nat n)).

Lemma in_upto n k : In k (upto n) <-> 0 <= k < n.
Proof.
  unfold upto. rewrite in_map_iff. split.
  - intros (i & <- & Hi). apply in_seq in Hi. lia.
  - intros Hk. exists (Z.to_nat k). rewrite in_seq. lia.
Qed.

Lemma upto_succ n : 0 <= n -> upto (n + 1) = upto n ++ [n].
Proof.
  intros Hn. unfold upto. replace (Z.to_nat (n + 1)) with (S (Z.to_nat n)) by lia. rewrite seq_S, map_app. cbn [map].
  f_equal. f_equal. lia.
Qed.

Lemma upto_cons n : 0 <= n -> upto (1 + n) = 0 :: map (Z.add 1) (upto n).
Proof.
  intros Hn. unfold upto. replace (Z.to_nat (1 + n)) with (S (Z.to_nat n)) by lia. cbn [seq map]. f_equal.
  rewrite <- seq_shift, !map_map. apply map_ext. intros i. lia.
Qed.

Lemma zlen_map_upto {A} (f : Z -> A) n : 0 <= n -> zlen (map f (upto n)) = n.
Proof. intros. unfold zlen, upto. rewrite !length_map, length_seq. lia. Qed.

Lemma zget_map_upto {A} (f : Z -> A) n i : 0 <= i < n -> zget (map f (upto n)) i = Some (f i).
Proof.
  intros. unfold zget, upto. destruct (Z.ltb_spec i 0); [lia|].
  rewrite !nth_error_map, nth_error_seq. destruct (Nat.ltb_spec (Z.to_nat i) (Z.to_nat n)); [|lia].
  cbn. do 2 f_equal. lia.
Qed.

Lemma map_upto_ext {A} (f g : Z -> A) n : (forall i, 0 <= i < n -> f i = g i) -> map f (upto n) = map g (upto n).
Proof. intros H. apply map_ext_in. intros i Hi. now apply H, in_upto. Qed.

(** A decidable statement on all integers below [n] is checked by evaluation. *)
Lemma forall_upto (p : Z -> bool) n : forallb p (upto n) = true -> forall i, 0 <= i < n -> p i = true.
Proof. intros H i Hi. rewrite forallb_forall in H. now apply H, in_upto. Qed.

(** One goal for each integer below [n]. *)
Ltac each_in n :=
  let i := fresh "i" in let Hi := fresh "Hi" in
  intros i Hi; apply in_upto in Hi; revert i Hi; apply Forall_forall;
  let r := eval vm_compute in (upto n) in change (upto n) with r; repeat (apply Forall_cons || apply Forall_nil).

Lemma upto_zgetd l n : zlen l = n -> l = map (zgetd l) (upto n).
Proof.
  intros <-. apply zget_ext; [now rewrite zlen_map_upto by apply zlen_nonneg|]. intros i Hi.
  rewrite zget_map_upto by exact Hi. unfold zgetd. now destruct (zget_some l i Hi) as [x ->].
Qed.

Lemma zslice_end {A} (p x : list A) n : zlen x = n -> zslice (p ++ x) (zlen p) (zlen p + n) = x.
Proof. intros Hx. unfold zslice. rewrite zdrop_app_exact. apply ztake_all. lia. Qed.

Lemma zrep_add {A} a b (x : A) : 0 <= a -> 0 <= b -> zrep (a + b) x = zrep a x ++ zrep b x.
Proof. intros Ha Hb. unfold zrep. rewrite Z2Nat.inj_add by lia. apply repeat_app. Qed.

Lemma zset_mid {A} (a b : list A) x v i : i = zlen a -> zset (a ++ x :: b) i v = a ++ v :: b.
Proof.
  intros ->. assert (Ha := zlen_nonneg a). assert (Hb := zlen_nonneg b). unfold zset. rewrite zlen_app, zlen_cons.
  destruct (Z.ltb_spec (zlen a) 0); [lia|]. destruct (Z.leb_spec (zlen a + (1 + zlen b)) (zlen a)); [lia|]. cbn [orb].
  rewrite ztake_app_exact, zdrop_app, zdrop_all by lia. replace (zlen a + 1 - zlen a) with 1 by lia. reflexivity.
Qed.

Lemma zset_front {A} (a b : list A) i v : 0 <= i < zlen a -> zset (a ++ b) i v = zset a i v ++ b.
Proof.
  intros Hi. assert (Hb := zlen_nonneg b). unfold zset. rewrite zlen_app.
  destruct (Z.ltb_spec i 0); [lia|]. destruct (Z.leb_spec (zlen a + zlen b) i), (Z.leb_spec (zlen a) i); try lia. cbn [orb].
  rewrite ztake_app_l, zdrop_app_l by lia. now rewrite <- app_assoc.
Qed.

Lemma zblit_app {A} (a m z src : list A) k : k = zlen a -> zlen m = zlen src -> zblit (a ++ m ++ z) k src = a ++ src ++ z.
Proof.
  intros -> Hm. unfold zblit. rewrite ztake_app_exact. rewrite (zdrop_app (zlen a + zlen src)), zdrop_all by (assert (H := zlen_nonneg src); lia).
  replace (zlen a + zlen src - zlen a) with (zlen m) by lia. now rewrite zdrop_app_exact.
Qed.

Lemma zgetd_map f (l : list Z) j : 0 <= j < zlen l -> zgetd (map f l) j = f (zgetd l j).
Proof.
  intros Hj. unfold zgetd, zget. destruct (Z.ltb_spec j 0); [lia|]. rewrite nth_error_map.
  destruct (nth_error l (Z.to_nat j)) eqn:E; [reflexivity|]. apply nth_error_None in E. unfold zlen in Hj. lia.
Qed.

Lemma fold_ext {A} (f g : A -> Z -> A) l : (forall a k, In k l -> f a k = g a k) -> forall a, fold_left f l a = fold_left g l a.
Proof.
  induction l as [|k l IH]; intros Hf a; [reflexivity|]. cbn [fold_left]. rewrite Hf by now left.
  apply IH. intros. apply Hf. now right.
Qed.

Lemma fold_map {A} (f : A -> Z -> A) (g : Z -> Z) l : forall a, fold_left f (map g l) a = fold_left (fun a k => f a (g k)) l a.
Proof. induction l as [|k l IH]; intros a; [reflexivity|]. apply IH. Qed.

Lemma flat_map_ext_in (f g : Z -> list Z) l : (forall k, In k l -> f k = g k) -> flat_map f l = flat_map g l.
Proof.
  induction l as [|k l IH]; intros Hf; [reflexivity|]. cbn [flat_map]. rewrite Hf, IH; auto; [|now left].
  intros. apply Hf. now right.
Qed.

Lemma flat_map_map (f : Z -> list Z) (g : Z -> Z) l : flat_map f (map g l) = flat_map (fun k => f (g k)) l.
Proof. induction l as [|k l IH]; [reflexivity|]. cbn [map flat_map]. now rewrite IH. Qed.

(** * Facts on JavaScript integers *)
Module JSFacts.
Import JS.

Lemma wrap32_range z : 0 <= wrap32 z < 4294967296.
Proof. unfold wrap32. apply Z.mod_pos_bound. lia. Qed.

Lemma wrap32_small z : 0 <= z < 4294967296 -> wrap32 z = z.
Proof. intros. unfold wrap32. now apply Z.mod_small. Qed.

Lemma toInt32_range z : -2147483648 <= toInt32 z < 2147483648.
Proof. unfold toInt32. pose proof (wrap32_range z). case_if; blia. Qed.

Lemma toInt32_small z : -2147483648 <= z < 2147483648 -> toInt32 z = z.
Proof.
  intros. unfold toInt32, wrap32.
  destruct (Z_lt_le_dec z 0).
  - replace (z mod 4294967296) with (z + 4294967296).
    + case_if; blia.
    + rewrite <- (Z.mod_small (z + 4294967296) 4294967296) by lia.
      rewrite <- (Z_mod_plus_full z 1 4294967296). f_equal.
  - rewrite Z.mod_small by lia. case_if; blia.
Qed.

Lemma toInt32_cong z : exists k, toInt32 z = z + k * 4294967296.
Proof.
  unfold toInt32, wrap32. rewrite (Z.mod_eq z 4294967296) by lia.
  case_if; [exists (- (z / 4294967296)) | exists (- (z / 4294967296) - 1)]; lia.
Qed.

Lemma wrap32_toInt32 z : wrap32 (toInt32 z) = wrap32 z.
Proof.
  destruct (toInt32_cong z) as [k ->]. unfold wrap32. apply Z_mod_plus_full.
Qed.

Lemma toInt32_wrap32 z : toInt32 (wrap32 z) = toInt32 z.
Proof. unfold toInt32, wrap32. now rewrite Zmod_mod. Qed.

Lemma toInt32_idem z : toInt32 (toInt32 z) = toInt32 z.
Proof. apply toInt32_small, toInt32_range. Qed.

Lemma testbit_wrap32 z i : Z.testbit (wrap32 z) i = (i <? 32) && Z.testbit z i.
Proof.
  unfold wrap32. change 4294967296 with (2 ^ 32).
  destruct (Z.ltb_spec i 32); cbn [andb].
  - destruct (Z_lt_le_dec i 0); [now rewrite !Z.testbit_neg_r|].
    apply Z.mod_pow2_bits_low. lia.
  - apply Z.mod_pow2_bits_high. lia.
Qed.

Lemma toInt32_bits z : toInt32 z = Z.lor (wrap32 z) (if Z.testbit z 31 then Z.shiftl (-1) 32 else 0).
Proof.
  unfold toInt32. pose proof (wrap32_range z).
  assert (Hb : Z.testbit z 31 = (2147483648 <=? wrap32 z)).
  { replace (Z.testbit z 31) with (Z.testbit (wrap32 z) 31) by now rewrite testbit_wrap32.
    destruct (Z.leb_spec 2147483648 (wrap32 z)).
    - rewrite Z.testbit_true by lia. change (2 ^ 31) with 2147483648.
      replace (wrap32 z / 2147483648) with 1; [reflexivity|].
      apply (Z.div_unique _ _ _ (wrap32 z - 2147483648)); lia.
    - rewrite Z.testbit_false by lia. change (2 ^ 31) with 2147483648.
      now rewrite Z.div_small by lia. }
  rewrite Hb. destruct (Z.ltb_spec (wrap32 z) 2147483648), (Z.leb_spec 2147483648 (wrap32 z)); try lia.
  - now rewrite Z.lor_0_r.
  - rewrite <- Z.lxor_lor, <- Z.add_nocarry_lxor; [cbn; lia| |]; apply Z.bits_inj'; intros n Hn;
      rewrite Z.land_spec, testbit_wrap32, Z.shiftl_spec, Z.bits_0 by lia;
      destruct (Z.ltb_spec n 32); cbn; rewrite ?(Z.testbit_neg_r (-1)) by lia; now rewrite ?andb_false_r.
Qed.

Lemma testbit_toInt32 z i : 0 <= i -> Z.testbit (toInt32 z) i = Z.testbit z (Z.min i 31).
Proof.
  intros. rewrite toInt32_bits, Z.lor_spec, testbit_wrap32.
  destruct (Z.ltb_spec i 32); cbn [andb orb].
  - replace (Z.testbit (if Z.testbit z 31 then Z.shiftl (-1) 32 else 0) i) with false.
    + rewrite orb_false_r. destruct (Z.eq_dec i 31) as [->|]; [easy|]. now rewrite Z.min_l by lia.
    + case_if; [rewrite Z.shiftl_spec, Z.testbit_neg_r by lia|rewrite Z.bits_0]; reflexivity.
  - rewrite Z.min_r by lia. destruct (Z.testbit z 31) eqn:E.
    + rewrite Z.shiftl_spec by lia. apply Z.bits_m1. lia.
    + apply Z.bits_0.
Qed.

Lemma toInt32_lor a b : toInt32 (Z.lor a b) = Z.lor (toInt32 a) (toInt32 b).
Proof. apply Z.bits_inj'; intros. now rewrite !Z.lor_spec, !testbit_toInt32, Z.lor_spec. Qed.
Lemma toInt32_land a b : toInt32 (Z.land a b) = Z.land (toInt32 a) (toInt32 b).
Proof. apply Z.bits_inj'; intros. now rewrite !Z.land_spec, !testbit_toInt32, Z.land_spec. Qed.
Lemma toInt32_lxor a b : toInt32 (Z.lxor a b) = Z.lxor (toInt32 a) (toInt32 b).
Proof. apply Z.bits_inj'; intros. now rewrite !Z.lxor_spec, !testbit_toInt32, Z.lxor_spec. Qed.

Lemma testbit_band a b i : 0 <= i < 32 -> Z.testbit (band a b) i = Z.testbit a i && Z.testbit b i.
Proof. intros. unfold band. now rewrite Z.land_spec, !testbit_toInt32, Z.min_l by lia. Qed.
Lemma testbit_bor a b i : 0 <= i < 32 -> Z.testbit (bor a b) i = Z.testbit a i || Z.testbit b i.
Proof. intros. unfold bor. now rewrite Z.lor_spec, !testbit_toInt32, Z.min_l by lia. Qed.
Lemma testbit_bxor a b i : 0 <= i < 32 -> Z.testbit (bxor a b) i = xorb (Z.testbit a i) (Z.testbit b i).
Proof. intros. unfold bxor. now rewrite Z.lxor_spec, !testbit_toInt32, Z.min_l by lia. Qed.
Lemma testbit_bnot a i : 0 <= i < 32 -> Z.testbit (bnot a) i = negb (Z.testbit a i).
Proof. intros. unfold bnot. now rewrite Z.lnot_spec, testbit_toInt32, Z.min_l by lia. Qed.
Lemma testbit_shl a n i : 0 <= n < 32 -> 0 <= i < 32 -> Z.testbit (shl a n) i = (n <=? i) && Z.testbit a (i - n).
Proof.
  intros. unfold shl. rewrite testbit_toInt32, Z.min_l, Z.mod_small, Z.shiftl_spec by lia.
  destruct (Z.leb_spec n i); cbn [andb].
  - rewrite testbit_toInt32, Z.min_l by lia. reflexivity.
  - apply Z.testbit_neg_r. lia.
Qed.
Lemma testbit_shr a n i : 0 <= n < 32 -> 0 <= i -> Z.testbit (shr a n) i = (i + n <? 32) && Z.testbit a (i + n).
Proof. intros. unfold shr. now rewrite Z.mod_small, Z.shiftr_spec, testbit_wrap32 by lia. Qed.

Lemma band_small a b :
  -2147483648 <= a < 2147483648 -> -2147483648 <= b < 2147483648 -> band a b = Z.land a b.
Proof. intros. unfold band. now rewrite !toInt32_small. Qed.

Lemma bor_small a b :
  -2147483648 <= a < 2147483648 -> -2147483648 <= b < 2147483648 -> bor a b = Z.lor a b.
Proof. intros. unfold bor. now rewrite !toInt32_small. Qed.

(** Masking with [2^k - 1] takes the remainder, whatever the sign. *)
Lemma band_ones a k : 0 <= k <= 31 -> band a (2 ^ k - 1) = a mod 2 ^ k.
Proof.
  intros. pose proof (Z.pow_le_mono_r 2 k 31 ltac:(lia) ltac:(lia)).
  pose proof (Z.pow_pos_nonneg 2 k ltac:(lia) ltac:(lia)).
  change (2 ^ 31) with 2147483648 in *.
  unfold band. rewrite (toInt32_small (2 ^ k - 1)) by lia.
  replace (2 ^ k - 1) with (Z.ones k) by (rewrite Z.ones_equiv; lia).
  rewrite Z.land_ones by lia. destruct (toInt32_cong a) as [j ->].
  replace (j * 4294967296) with (j * 2 ^ (32 - k) * 2 ^ k).
  - apply Z_mod_plus_full.
  - rewrite <- Z.mul_assoc, <- Z.pow_add_r by lia. now replace (32 - k + k) with 32 by lia.
Qed.

(** Testing one bit. *)
Lemma band_bit a k : 0 <= k <= 31 -> (band a (shl 1 k) =? 0) = negb (Z.testbit a k).
Proof.
  intros Hk.
  assert (Hb : forall i, 0 <= i -> Z.testbit (band a (shl 1 k)) i = Z.testbit a (Z.min i 31) && (Z.min i 31 =? k)).
  { intros i Hi. unfold band, shl. rewrite Z.land_spec, toInt32_idem, !testbit_toInt32, Z.mod_small by lia. f_equal.
    rewrite (toInt32_small 1), Z.shiftl_1_l by lia. destruct (Z.eqb_spec (Z.min i 31) k) as [<-|E].
    - apply Z.pow2_bits_true. lia.
    - apply Z.pow2_bits_false. lia. }
  destruct (Z.testbit a k) eqn:E; cbn [negb].
  - apply Z.eqb_neq. intros E0. specialize (Hb k (proj1 Hk)). rewrite E0, Z.bits_0, Z.min_l, E, Z.eqb_refl in Hb by lia.
    discriminate.
  - apply Z.eqb_eq, Z.bits_inj'. intros i Hi. rewrite Hb, Z.bits_0 by lia.
    destruct (Z.eqb_spec (Z.min i 31) k) as [->|_]; [now rewrite E|apply andb_false_r].
Qed.

Lemma band_255 a : band a 255 = a mod 256.
Proof. apply (band_ones a 8). lia. Qed.

Lemma sar_small a n : -2147483648 <= a < 2147483648 -> 0 <= n < 32 -> sar a n = a / 2 ^ n.
Proof. intros. unfold sar. rewrite toInt32_small, Z.mod_small, Z.shiftr_div_pow2; lia || easy. Qed.

Lemma shr_small a n : 0 <= a < 4294967296 -> 0 <= n < 32 -> shr a n = a / 2 ^ n.
Proof. intros. unfold shr. rewrite wrap32_small, Z.mod_small, Z.shiftr_div_pow2; lia || easy. Qed.

Lemma shr_0 a : shr a 0 = wrap32 a.
Proof. unfold shr. apply Z.shiftr_0_r. Qed.

Lemma wrap32_shl a n : 0 <= n < 32 -> wrap32 (shl a n) = wrap32 (a * 2 ^ n).
Proof.
  intros. unfold shl. rewrite wrap32_toInt32, Z.mod_small, Z.shiftl_mul_pow2 by lia.
  destruct (toInt32_cong a) as [k ->]. unfold wrap32.
  rewrite Z.mul_add_distr_r.
  replace (k * 4294967296 * 2 ^ n) with (k * 2 ^ n * 4294967296) by lia.
  apply Z_mod_plus_full.
Qed.

Lemma shl_small a n : 0 <= n < 32 -> 0 <= a -> a * 2 ^ n < 2147483648 -> shl a n = a * 2 ^ n.
Proof.
  intros. pose proof (Z.pow_pos_nonneg 2 n ltac:(lia) ltac:(lia)).
  unfold shl. rewrite (toInt32_small a) by nia.
  rewrite Z.mod_small, Z.shiftl_mul_pow2 by lia. apply toInt32_small. nia.
Qed.

Lemma wrap32_add_l a b : wrap32 (wrap32 a + b) = wrap32 (a + b).
Proof. unfold wrap32. apply Zplus_mod_idemp_l. Qed.
Lemma wrap32_add_r a b : wrap32 (a + wrap32 b) = wrap32 (a + b).
Proof. unfold wrap32. apply Zplus_mod_idemp_r. Qed.

Lemma land_range a b : 0 <= a -> 0 <= b -> 0 <= Z.land a b <= Z.min a b.
Proof.
  intros. split; [apply Z.land_nonneg; lia|].
  assert (forall x y, 0 <= x -> 0 <= y -> Z.land x y <= x) as Hle.
  { intros x y Hx Hy. pose proof (Z.add_lor_land (Z.land x y) (Z.ldiff x y)) as HH.
    replace (Z.lor (Z.land x y) (Z.ldiff x y)) with x in HH.
    2:{ apply Z.bits_inj'; intros. rewrite Z.lor_spec, Z.land_spec, Z.ldiff_spec. btauto. }
    replace (Z.land (Z.land x y) (Z.ldiff x y)) with 0 in HH.
    2:{ apply Z.bits_inj'; intros. rewrite !Z.land_spec, Z.ldiff_spec, Z.bits_0. btauto. }
    assert (0 <= Z.ldiff x y) by (apply Z.ldiff_nonneg; lia). lia. }
  apply Z.min_glb; [auto|]. rewrite Z.land_comm. auto.
Qed.

Lemma land_shift_small x c k : 0 <= k -> 0 <= c < 2 ^ k -> Z.land (x * 2 ^ k) c = 0.
Proof.
  intros Hk Hc. rewrite <- Z.shiftl_mul_pow2 by lia. apply Z.bits_inj'; intros n Hn.
  rewrite Z.land_spec, Z.bits_0, Z.shiftl_spec by lia.
  destruct (Z_lt_le_dec n k); [now rewrite (Z.testbit_neg_r x) by lia|].
  replace (Z.testbit c n) with false; [apply andb_false_r|].
  symmetry. rewrite Z.testbit_false, (Z.div_small c); [reflexivity| |lia].
  pose proof (Z.pow_le_mono_r 2 k n ltac:(lia) ltac:(lia)). lia.
Qed.

Lemma lor_add x c k : 0 <= k -> 0 <= c < 2 ^ k -> Z.lor (x * 2 ^ k) c = x * 2 ^ k + c.
Proof.
  intros Hk Hc. pose proof (land_shift_small x c k Hk Hc) as H.
  rewrite <- Z.lxor_lor, <- Z.add_nocarry_lxor by exact H. reflexivity.
Qed.

(** [(x << k) | c] for a [c] of [k] bits *)
Lemma shl_bor x c k :
  0 <= k < 32 -> 0 <= c < 2 ^ k -> 0 <= x -> x * 2 ^ k + c < 2147483648 ->
  bor (shl x k) c = x * 2 ^ k + c.
Proof.
  intros. pose proof (Z.pow_pos_nonneg 2 k ltac:(lia) ltac:(lia)).
  rewrite shl_small, bor_small by nia. apply lor_add; lia.
Qed.

Lemma toUint8_byte z : is_byte (toUint8 z).
Proof. unfold toUint8, is_byte. apply Z.mod_pos_bound. lia. Qed.
Lemma toUint8_small z : is_byte z -> toUint8 z = z.
Proof. intros. unfold toUint8. now apply Z.mod_small. Qed.

Lemma mask_high mask k j : 0 <= k -> 0 <= mask < 2 ^ k -> Z.testbit mask j = true -> j < k.
Proof.
  intros Hk Hm Hj. destruct (Z_lt_le_dec j k) as [|Hkj]; [easy|]. exfalso.
  destruct (Z.eq_dec mask 0) as [->|]; [now rewrite Z.bits_0 in Hj|].
  rewrite (Z.bits_above_log2 mask j) in Hj; [easy|lia|]. enough (Z.log2 mask < k) by lia.
  apply Z.log2_lt_pow2; lia.
Qed.

Lemma testbit_byte b i : is_byte b -> 8 <= i -> Z.testbit b i = false.
Proof.
  intros Hb Hi. destruct (Z.testbit b i) eqn:E; [|reflexivity].
  apply (mask_high b 8) in E; [lia|lia|exact Hb].
Qed.

Lemma lxor_byte x c : is_byte x -> is_byte c -> is_byte (Z.lxor x c).
Proof.
  intros Hx Hc. assert (E : Z.lxor x c mod 2 ^ 8 = Z.lxor x c).
  { apply Z.bits_inj'. intros i Hi. destruct (Z_lt_le_dec i 8) as [H8|H8]; [apply Z.mod_pow2_bits_low; lia|].
    rewrite Z.mod_pow2_bits_high by lia. now rewrite Z.lxor_spec, (testbit_byte x), (testbit_byte c). }
  unfold is_byte. rewrite <- E. apply Z.mod_pos_bound. lia.
Qed.

(** The bits of an expression of shifts and masks, at a position that is a number. *)
Ltac ground e := let v := eval vm_compute in e in change e with v.
Ltac bits_of_js :=
  repeat match goal with
  | |- context[?a <=? ?i] => ground (a <=? i); cbn [andb]
  | |- context[?a <? ?i] => ground (a <? i); cbn [andb]
  | |- context[Z.testbit (bor _ _) ?i] => rewrite testbit_bor by lia
  | |- context[Z.testbit (shl _ _) ?i] => rewrite testbit_shl by lia
  | |- context[Z.testbit (shr _ _) ?i] => rewrite testbit_shr by lia
  | |- context[Z.testbit (band _ _) ?i] => rewrite testbit_band by lia
  | |- context[Z.testbit (Zpos ?a) ?i] => ground (Z.testbit (Zpos a) i)
  | |- context[Z.testbit _ (?a - ?b)] => ground (a - b)
  | |- context[Z.testbit _ (?a + ?b)] => ground (a + b)
  end;
  rewrite ?andb_true_r, ?andb_false_r, ?andb_true_l, ?orb_false_r, ?orb_false_l.

End JSFacts.

(** * Bytes and big-endian integers *)

(** The value of a list of bytes, most significant first. *)
Definition be (l : list Z) : Z := fold_left (fun acc b => acc * 256 + b) l 0.

Lemma is_byte_reflect z : is_byte z <-> byteb z = true.
Proof.
  unfold is_byte, byteb. rewrite andb_true_iff, Z.leb_le, Z.ltb_lt. reflexivity.
Qed.

Lemma bytes_reflect l : bytes l <-> bytesb l = true.
Proof.
  unfold bytes, bytesb. rewrite forallb_forall, Forall_forall.
  split; intros H x Hx; apply is_byte_reflect; auto.
Qed.

Lemma bytes_app l1 l2 : bytes (l1 ++ l2) <-> bytes l1 /\ bytes l2.
Proof. apply Forall_app. Qed.

Lemma bytes_ztake n l : bytes l -> bytes (ztake n l).
Proof. intros H. rewrite <- (ztake_zdrop n l) in H. now apply bytes_app in H. Qed.

Lemma bytes_zdrop n l : bytes l -> bytes (zdrop n l).
Proof. intros H. rewrite <- (ztake_zdrop n l) in H. now apply bytes_app in H. Qed.

Lemma bytes_zslice l a b : bytes l -> bytes (zslice l a b).
Proof. intros. unfold zslice. auto using bytes_ztake, bytes_zdrop. Qed.

Lemma bytes_zrep n z : is_byte z -> bytes (zrep n z).
Proof. intros. apply Forall_forall. intros x Hx. apply repeat_spec in Hx. now subst. Qed.

Lemma bytes_zblit l off src : bytes l -> bytes src -> bytes (zblit l off src).
Proof.
  intros. unfold zblit. rewrite !bytes_app. auto using bytes_ztake, bytes_zdrop.
Qed.

Lemma bytes_concat chunks : Forall bytes chunks -> bytes (List.concat chunks).
Proof. intros Hc. induction Hc; cbn [List.concat]; [constructor|now apply bytes_app]. Qed.

Lemma bytes_zset l i v : bytes l -> is_byte v -> bytes (zset l i v).
Proof.
  intros. unfold zset. case_if; [easy|]. apply bytes_app. split; [now apply bytes_ztake|].
  constructor; [easy|]. now apply bytes_zdrop.
Qed.

Lemma bytes_zget l i v : bytes l -> zget l i = Some v -> is_byte v.
Proof.
  unfold bytes, zget. intros H. case_if; [easy|]. intros H1.
  apply nth_error_In in H1. rewrite Forall_forall in H. auto.
Qed.

Lemma bytes_zgetd l i : bytes l -> is_byte (zgetd l i).
Proof.
  intros. unfold zgetd. destruct (zget l i) eqn:E; [eauto using bytes_zget|]. unfold is_byte; lia.
Qed.

#[export] Hint Resolve bytes_ztake bytes_zdrop bytes_zslice bytes_zblit bytes_zset bytes_zgetd : bytes.
#[export] Hint Resolve JSFacts.toUint8_byte : bytes.

Lemma be_app_acc l acc :
  fold_left (fun a b => a * 256 + b) l acc = acc * 256 ^ zlen l + be l.
Proof.
  unfold be. revert acc. induction l as [|b l IH]; intros acc.
  - cbn. lia.
  - cbn [fold_left]. rewrite IH. rewrite (IH (0 * 256 + b)). rewrite zlen_cons.
    rewrite Z.pow_add_r by (zlens; lia). lia.
Qed.

Lemma be_app l1 l2 : be (l1 ++ l2) = be l1 * 256 ^ zlen l2 + be l2.
Proof. unfold be at 1. rewrite fold_left_app. apply be_app_acc. Qed.

Lemma be_cons b l : be (b :: l) = b * 256 ^ zlen l + be l.
Proof. change (b :: l) with ([b] ++ l). rewrite be_app. cbn. lia. Qed.

Lemma be_range l : bytes l -> 0 <= be l < 256 ^ zlen l.
Proof.
  induction 1 as [|b l Hb Hl IH]; [cbn; lia|].
  rewrite be_cons, zlen_cons, Z.pow_add_r by (zlens; lia).
  unfold is_byte in *. nia.
Qed.

Lemma be_inj l1 l2 : bytes l1 -> bytes l2 -> zlen l1 = zlen l2 -> be l1 = be l2 -> l1 = l2.
Proof.
  intros H1. revert l2. induction H1 as [|b l1 Hb Hl IH]; intros l2 H2 HL HB.
  - symmetry. now apply zlen_0_nil.
  - destruct H2 as [|c l2 Hc Hl2]; [rewrite zlen_cons, zlen_nil in HL; zlens; lia|].
    rewrite !be_cons, !zlen_cons in *. assert (zlen l1 = zlen l2) as Heq by lia.
    pose proof (be_range l1 Hl). pose proof (be_range l2 Hl2). rewrite Heq in *.
    unfold is_byte in *. assert (b = c) by nia. subst. f_equal. apply IH; auto. lia.
Qed.

(** * Views of array buffers

    A typed array is a window on an [ArrayBuffer]; two typed arrays may share
    their buffer.  [v_buffer] is the content of the whole buffer. *)
Record view := View { v_buffer : list Z; v_offset : Z; v_length : Z }.

Definition view_bytes (v : view) : list Z := zslice (v_buffer v) (v_offset v) (v_offset v + v_length v).

(** [new Uint8Array(l)]: a fresh buffer. *)
Definition fresh_view (l : list Z) : view := View l 0 (zlen l).

Lemma view_bytes_fresh l : view_bytes (fresh_view l) = l.
Proof.
  unfold view_bytes, fresh_view, zslice; cbn [v_buffer v_offset v_length].
  rewrite zdrop_nonpos by lia. apply ztake_all. lia.
Qed.

(** * Stateful code that may throw

    A method is a state transformer.  JavaScript keeps the assignments made
    before a [throw], so the final state is returned in every case.  [Stuck]
    has no JavaScript counterpart: it marks a run the model does not follow
    (a loop that used up its fuel, a read of more bytes than the abstract
    source holds), and the theorems show where it cannot occur. *)
Inductive outcome (A : Type) : Type :=
| Ret (a : A)
| Throw (e : string)
| Stuck.
Arguments Ret {A} a.
Arguments Throw {A} e.
Arguments Stuck {A}.

Definition M (S A : Type) : Type := S -> outcome A * S.

Section Monad.
  Context {S : Type}.

Definition ret {A} (a : A) : M S A := fun s => (Ret a, s).
Definition throw {A} (e : string) : M S A := fun s => (Throw e, s).
Definition stuck {A} : M S A := fun s => (Stuck, s).
Definition bind {A B} (m : M S A) (k : A -> M S B) : M S B := fun s =>
    match m s with
    | (Ret a, s') => k a s'
    | (Throw e, s') => (Throw e, s')
    | (Stuck, s') => (Stuck, s')
    end.
Definition get : M S S := fun s => (Ret s, s).
Definition gets {A} (f : S -> A) : M S A := fun s => (Ret (f s), s).
Definition modify (f : S -> S) : M S unit := fun s => (Ret tt, f s).
End Monad.

Declare Scope code_scope.
Delimit Scope code_scope with code.
Notation "x <- m ;; k" := (bind m (fun x => k))
  (at level 100, m at next level, right associativity) : code_scope.
Notation "' p <- m ;; k" := (bind m (fun p => k))
  (at level 100, p pattern, m at next level, right associativity) : code_scope.
Notation "m ;; k" := (bind m (fun _ => k)) (at level 100, right associativity) : code_scope.
Notation "'when' b 'then_' m" := (if b then m else ret tt) (at level 99, m at level 98) : code_scope.

(** Run a method of a component held in a larger state. *)
Definition lift {S T A} (prj : T -> S) (upd : S -> T -> T) (m : M S A) : M T A := fun t =>
  let '(o, s) := m (prj t) in (o, upd s t).

(** Pointwise equality of methods, with its congruence rules. *)
Definition meq {S A} (m1 m2 : M S A) : Prop := forall s, m1 s = m2 s.

#[export] Instance meq_equiv {S A} : Equivalence (@meq S A).
Proof. split; red; unfold meq; congruence || (intros; etransitivity; eauto). Qed.

#[export] Instance bind_proper {S A B} :
  Proper (meq ==> pointwise_relation A meq ==> meq) (@bind S A B).
Proof.
  intros m1 m2 Hm k1 k2 Hk s. unfold bind. rewrite Hm.
  destruct (m2 s) as [[a|e|] s']; try easy. apply Hk.
Qed.

Lemma bind_ret_l {S A B} (a : A) (k : A -> M S B) : meq (bind (ret a) k) (k a).
Proof. intros s. reflexivity. Qed.

Lemma bind_assoc {S A B C} (m : M S A) (k : A -> M S B) (h : B -> M S C) :
  meq (bind (bind m k) h) (bind m (fun a => bind (k a) h)).
Proof. intros s. unfold bind. now destruct (m s) as [[a|e|] s']. Qed.

Lemma bind_assoc_run {S A B C} (m : M S A) (k : A -> M S B) (h : B -> M S C) s :
  bind (bind m k) h s = bind m (fun a => bind (k a) h) s.
Proof. apply bind_assoc. Qed.

Lemma bind_run {S A B} (m : M S A) (k : A -> M S B) s a s' :
  m s = (Ret a, s') -> bind m k s = k a s'.
Proof. unfold bind. now intros ->. Qed.

Lemma after_modify {S A} (f : S -> S) (k : unit -> M S A) s : bind (modify f) k s = k tt (f s).
Proof. reflexivity. Qed.

(** Unfold the monad so that a method reduces on its state. *)
Ltac unM := cbv beta delta [bind get gets modify ret throw stuck] in *; cbn beta iota zeta in *.
