(* ===== verification/Source.v ===== *)
(** The interface between the receive queue and its clients.

    The decoders and the protocol handlers read the socket through a few
    methods of core/websock.js.  [ByteSource] names those methods, so the
    client code is written once for any source.  [asrc] is the abstract source:
    a list of bytes still to read, with the bytes just consumed so that
    [rQwait] can step back.  [ByteSourceOk] is what the queue promises to its
    clients: every method behaves as on the abstract source, as long as the
    client does not read bytes it has not waited for. *)

From Stdlib Require Import ZArith List Lia Bool String.
From S2P Require Import Prelude.
Import ListNotations JS JSFacts.
Open Scope Z_scope.
Open Scope code_scope.

Class ByteSource (S : Type) := {
  rQwait : Z -> Z -> M S bool;
  rQpeek8 : M S Z;
  rQskipBytes : Z -> M S unit;
  rQshift8 : M S Z;
  rQshift16 : M S Z;
  rQshift32 : M S Z;
  rQshiftBytes : Z -> M S (list Z);
  rQshiftView : Z -> (list Z -> list Z) -> M S view;
  rQshiftStr : Z -> M S (list Z);
  rQshiftTo : list Z -> Z -> M S (list Z);
  rQpeekBytes : Z -> M S (list Z)
}.

(** * Simulation between two runs of the same code *)

Definition Sim {S1 S2 A} (R : S1 -> S2 -> Prop) (RA : A -> A -> Prop) (m1 : M S1 A) (m2 : M S2 A) : Prop :=
  forall s1 s2, R s1 s2 ->
  match m2 s2 with
  | (Ret a2, s2') => exists a1 s1', m1 s1 = (Ret a1, s1') /\ RA a1 a2 /\ R s1' s2'
  | (Throw e, s2') => exists s1', m1 s1 = (Throw e, s1') /\ R s1' s2'
  | (Stuck, _) => True
  end.

Create HintDb sim discriminated.

Section SimRules.
  Context {S1 S2 : Type} {R : S1 -> S2 -> Prop}.

Lemma sim_ret {A} (RA : A -> A -> Prop) a1 a2 : RA a1 a2 -> Sim R RA (ret a1) (ret a2).
  Proof. intros H s1 s2 HR. cbn. exists a1, s1. auto. Qed.

Lemma sim_ret_eq {A} (a : A) : Sim R eq (ret a) (ret a).
  Proof. apply sim_ret. reflexivity. Qed.

Lemma sim_throw {A} (RA : A -> A -> Prop) e : Sim R RA (throw e) (throw e).
  Proof. intros s1 s2 HR. cbn. exists s1. auto. Qed.

Lemma sim_stuck {A} (RA : A -> A -> Prop) m : Sim R RA m stuck.
  Proof. intros s1 s2 HR. exact I. Qed.

Lemma sim_bind {A B} (RA : A -> A -> Prop) (RB : B -> B -> Prop) m1 m2 k1 k2 :
    Sim R RA m1 m2 -> (forall a1 a2, RA a1 a2 -> Sim R RB (k1 a1) (k2 a2)) ->
    Sim R RB (bind m1 k1) (bind m2 k2).
  Proof.
    intros Hm Hk s1 s2 HR. specialize (Hm s1 s2 HR). unfold bind.
    destruct (m2 s2) as [[a2|e|] s2'].
    - destruct Hm as (a1 & s1' & -> & Ha & HR'). apply (Hk a1 a2 Ha s1' s2' HR').
    - destruct Hm as (s1' & -> & HR'). eauto.
    - exact I.
  Qed.

Lemma sim_bind_eq {A B} (RB : B -> B -> Prop) (m1 : M S1 A) m2 k1 k2 :
    Sim R eq m1 m2 -> (forall a, Sim R RB (k1 a) (k2 a)) -> Sim R RB (bind m1 k1) (bind m2 k2).
  Proof. intros H1 H2. eapply sim_bind; [exact H1|]. intros a1 a2 ->. apply H2. Qed.
End SimRules.

(** * The abstract source *)

Record asrc := ASrc { past : list Z; rest : list Z }.

Definition astep (n : Z) (f : list Z -> list Z) (s : asrc) : asrc :=
  ASrc (past s ++ f (ztake n (rest s))) (zdrop n (rest s)).

(** Consume [n] bytes, handing them to [k]; reading more than there is is
    outside the contract. *)
Definition atake {A} (n : Z) (f : list Z -> list Z) (k : list Z -> A) : M asrc A := fun s =>
  if (0 <=? n) && (n <=? zlen (rest s)) then (Ret (k (f (ztake n (rest s)))), astep n f s)
  else (Stuck, s).

Definition same {A} (x : A) : A := x.

#[export] Instance asrc_source : ByteSource asrc := {
  rQwait num goback := fun s =>
    if zlen (rest s) <? num then
      if truthy goback then
        if (goback <? 0) || (zlen (past s) <? goback) then (Stuck, s)
        else (Ret true, ASrc (ztake (zlen (past s) - goback) (past s))
                             (zdrop (zlen (past s) - goback) (past s) ++ rest s))
      else (Ret true, s)
    else (Ret false, s);
  rQpeek8 := fun s => match rest s with b :: _ => (Ret b, s) | [] => (Stuck, s) end;
  rQskipBytes n := atake n same (fun _ => tt);
  rQshift8 := atake 1 same be;
  rQshift16 := atake 2 same be;
  rQshift32 := atake 4 same be;
  rQshiftBytes n := atake n same same;
  rQshiftView n f := fun s =>
    if zlen (f (ztake n (rest s))) =? n then atake n f fresh_view s else (Stuck, s);
  rQshiftStr n := atake n same same;
  rQshiftTo target n :=
    if zlen target <? n then stuck else atake n same (fun l => zblit target 0 l);
  rQpeekBytes n := fun s =>
    if (0 <=? n) && (n <=? zlen (rest s)) then (Ret (ztake n (rest s)), s) else (Stuck, s)
}.

(** * What a source promises *)

(** A view that lies in its buffer. *)
Definition view_ok (v : view) : Prop :=
  0 <= v_offset v /\ 0 <= v_length v /\ v_offset v + v_length v <= zlen (v_buffer v).

(** Two views of [n] bytes, with the same bytes. *)
Definition view_eq (n : Z) (v1 v2 : view) : Prop :=
  view_ok v1 /\ view_ok v2 /\ v_length v1 = n /\ v_length v2 = n /\ view_bytes v1 = view_bytes v2.

(** Reading inside two such views gives the same. *)
Lemma view_eq_slice n v1 v2 o m :
  view_eq n v1 v2 -> 0 <= o -> o + m <= n ->
  zslice (v_buffer v1) (v_offset v1 + o) (v_offset v1 + o + m) =
  zslice (v_buffer v2) (v_offset v2 + o) (v_offset v2 + o + m).
Proof.
  intros (Hv1 & Hv2 & Hn1 & Hn2 & Hb) Ho Hm.
  assert (Hs : forall v, view_ok v -> v_length v = n ->
    zslice (v_buffer v) (v_offset v + o) (v_offset v + o + m) = zslice (view_bytes v) o (o + m)).
  { intros v (? & ? & ?) Hv. unfold view_bytes, zslice. rewrite zdrop_ztake, zdrop_zdrop, ztake_ztake by lia.
    f_equal; [lia|f_equal; lia]. }
  rewrite !Hs by assumption. now rewrite Hb.
Qed.

Class ByteSourceOk (S : Type) `{ByteSource S} := {
  (** [src_rel s a]: the source [s] offers exactly the bytes [rest a], after
      having delivered at least [past a]. *)
  src_rel : S -> asrc -> Prop;
  sim_wait n g : Sim src_rel eq (rQwait n g) (rQwait n g);
  sim_peek8 : Sim src_rel eq rQpeek8 rQpeek8;
  sim_skip n : Sim src_rel eq (rQskipBytes n) (rQskipBytes n);
  sim_shift8 : Sim src_rel eq rQshift8 rQshift8;
  sim_shift16 : Sim src_rel eq rQshift16 rQshift16;
  sim_shift32 : Sim src_rel eq rQshift32 rQshift32;
  sim_shiftBytes n : Sim src_rel eq (rQshiftBytes n) (rQshiftBytes n);
  sim_shiftView n f : (forall l, bytes l -> bytes (f l)) ->
    Sim src_rel (view_eq n) (rQshiftView n f) (rQshiftView n f);
  sim_shiftStr n : Sim src_rel eq (rQshiftStr n) (rQshiftStr n);
  sim_shiftTo t n : Sim src_rel eq (rQshiftTo t n) (rQshiftTo t n);
  sim_peekBytes n : Sim src_rel eq (rQpeekBytes n) (rQpeekBytes n);
  (** Forgetting the delivered bytes keeps the relation. *)
  src_forget s a : src_rel s a -> src_rel s (ASrc [] (rest a))
}.

#[export] Hint Resolve sim_ret_eq sim_throw sim_stuck sim_wait sim_peek8 sim_skip sim_shift8 sim_shift16
  sim_shift32 sim_shiftBytes sim_shiftStr sim_shiftTo sim_peekBytes : sim.

(** * Facts on the abstract source *)

Lemma asrc_wait_enough n g s : n <= zlen (rest s) -> rQwait n g s = (Ret false, s).
Proof. intros. cbn. destruct (Z.ltb_spec (zlen (rest s)) n); [lia|reflexivity]. Qed.

Lemma asrc_wait_short n s : zlen (rest s) < n -> rQwait n 0 s = (Ret true, s).
Proof. intros. cbn. destruct (Z.ltb_spec (zlen (rest s)) n); [reflexivity|lia]. Qed.

Lemma atake_ok {A} n f (k : list Z -> A) s :
  0 <= n <= zlen (rest s) -> atake n f k s = (Ret (k (f (ztake n (rest s)))), astep n f s).
Proof. intros. unfold atake. case_if; [easy|]. apply andb_false_iff in E. destruct E; blia. Qed.

(** The abstract source keeps its own promise, whatever it delivered before:
    what a client does with it depends on the bytes to come. *)
Definition asrc_rel (s a : asrc) : Prop := rest s = rest a /\ exists pre, past s = pre ++ past a.

Lemma asrc_atake {A} n f (k : list Z -> A) : Sim asrc_rel eq (atake n f k) (atake n f k).
Proof.
  intros [p1 r] [p2 r2] [E [pre E2]]. cbn [rest past] in *. subst r2 p1. unfold atake. cbn [rest].
  destruct ((0 <=? n) && (n <=? zlen r)); [|exact I]. eexists _, _. split; [reflexivity|]. split; [reflexivity|].
  split; [reflexivity|]. exists pre. cbn [past astep]. now rewrite app_assoc.
Qed.

Lemma asrc_wait n g : Sim asrc_rel eq (rQwait n g) (rQwait n g).
Proof.
  intros [p1 r] [p2 r2] [E [pre E2]]. cbn [rest past] in *. subst r2 p1. cbn [rQwait asrc_source rest past].
  assert (Hs : asrc_rel (ASrc (pre ++ p2) r) (ASrc p2 r)) by (split; [reflexivity|now exists pre]).
  destruct (zlen r <? n); [|eauto 6]. destruct (truthy g); [|eauto 6].
  destruct (Z.ltb_spec g 0); [exact I|]. destruct (Z.ltb_spec (zlen p2) g); [exact I|]. cbn [orb].
  rewrite zlen_app. assert (Hp := zlen_nonneg pre). destruct (Z.ltb_spec (zlen pre + zlen p2) g); [lia|].
  eexists _, _. split; [reflexivity|]. split; [reflexivity|]. unfold asrc_rel. cbn [rest past].
  rewrite zdrop_app, ztake_app, (zdrop_all (_ - _) pre), (ztake_all (_ - _) pre) by lia.
  replace (zlen pre + zlen p2 - g - zlen pre) with (zlen p2 - g) by lia. split; [reflexivity|now exists pre].
Qed.

Lemma asrc_view n f : Sim asrc_rel (view_eq n) (rQshiftView n f) (rQshiftView n f).
Proof.
  intros s a Hr. pose proof Hr as [E _]. pose proof (asrc_atake n f fresh_view s a Hr) as H. cbn [rQshiftView asrc_source]. rewrite E.
  destruct (Z.eqb_spec (zlen (f (ztake n (rest a)))) n) as [El|]; [|exact I].
  revert H. unfold atake. rewrite E. destruct ((0 <=? n) && (n <=? zlen (rest a))); [|trivial].
  intros (v & s' & Ev & -> & Hr'). exists (fresh_view (f (ztake n (rest a)))), s'. split; [exact Ev|]. split; [|exact Hr'].
  unfold view_eq, view_ok. cbn [fresh_view v_offset v_length v_buffer]. assert (Hz := zlen_nonneg (f (ztake n (rest a)))). repeat split; lia.
Qed.

#[export] Instance asrc_source_ok : ByteSourceOk asrc.
Proof.
  refine {| src_rel := asrc_rel; sim_wait := asrc_wait; sim_skip n := asrc_atake n same (fun _ => tt);
    sim_shift8 := asrc_atake 1 same be; sim_shift16 := asrc_atake 2 same be; sim_shift32 := asrc_atake 4 same be;
    sim_shiftBytes n := asrc_atake n same same; sim_shiftStr n := asrc_atake n same same;
    sim_shiftView n f _ := asrc_view n f |}.
  - intros [p1 r] [p2 r2] [E [pre E2]]. cbn [rest past] in *. subst r2 p1. cbn. destruct r as [|b r]; [exact I|].
    eexists _, _. split; [reflexivity|]. split; [reflexivity|]. split; [reflexivity|now exists pre].
  - intros t n. cbn [rQshiftTo asrc_source]. destruct (zlen t <? n); [apply sim_stuck|apply asrc_atake].
  - intros n [p1 r] [p2 r2] [E [pre E2]]. cbn [rest past] in *. subst r2 p1. cbn.
    destruct ((0 <=? n) && (n <=? zlen r)); [|exact I]. eexists _, _. split; [reflexivity|]. split; [reflexivity|]. split; [reflexivity|now exists pre].
  - intros [p1 r] [p2 r2] [E [pre E2]]. split; [exact E|exists p1]. cbn. now rewrite app_nil_r.
Defined.
