(* ===== verification/Sink.v ===== *)
(** The interface between the send queue and its clients.

    The message encoders of core/rfb.js write to the socket through the
    [sQpush*] methods and [flush] of core/websock.js.  [ByteSink] names those
    methods.  [asink] is the abstract sink: the bytes written so far in order,
    with the number of those still queued and the queue's capacity, which
    decide whether a bulk write fits.  [ByteSinkOk] is the promise of the queue
    on an open channel. *)

From Stdlib Require Import ZArith List Lia Bool String.
From S2P Require Import Prelude Source.
Import ListNotations JS JSFacts.
Open Scope Z_scope.
Open Scope code_scope.

Class ByteSink (S : Type) := {
  sQpush8 : Z -> M S unit;
  sQpush16 : Z -> M S unit;
  sQpush32 : Z -> M S unit;
  sQpushBytes : list Z -> M S unit;
  sQpushString : list Z -> M S unit;
  flush : M S unit
}.

(** [n mod 256^k] on [k] bytes, most significant first. *)
Fixpoint be_bytes (k : nat) (n : Z) : list Z :=
  match k with
  | O => []
  | S k => (n / 256 ^ Z.of_nat k) mod 256 :: be_bytes k n
  end.

Record asink := ASink { out : list Z; pend : Z; cap : Z }.

Definition ensure (n : Z) (s : asink) : asink :=
  if cap s - pend s <? n then ASink (out s) 0 (cap s) else s.

Definition aput (l : list Z) (s : asink) : asink :=
  ASink (out s ++ l) (pend s + zlen l) (cap s).

Definition apush (l : list Z) : M asink unit := modify (fun s => aput l (ensure (zlen l) s)).

(** A bulk write that does not fit in the queue is outside the contract. *)
Definition apushBytes (l : list Z) : M asink unit := fun s =>
  if zlen l =? 0 then (Ret tt, s)
  else let s := ensure 1 s in
       if zlen l <=? cap s - pend s then (Ret tt, aput l s) else (Stuck, s).

#[export] Instance asink_sink : ByteSink asink := {
  sQpush8 n := apush (be_bytes 1 n);
  sQpush16 n := apush (be_bytes 2 n);
  sQpush32 n := apush (be_bytes 4 n);
  sQpushBytes := apushBytes;
  sQpushString str := apushBytes (map toUint8 str);
  flush := modify (fun s => ASink (out s) 0 (cap s))
}.

Class ByteSinkOk (S : Type) `{ByteSink S} := {
  snk_rel : S -> asink -> Prop;
  sim_push8 n : Sim snk_rel eq (sQpush8 n) (sQpush8 n);
  sim_push16 n : Sim snk_rel eq (sQpush16 n) (sQpush16 n);
  sim_push32 n : Sim snk_rel eq (sQpush32 n) (sQpush32 n);
  sim_pushBytes l : Sim snk_rel eq (sQpushBytes l) (sQpushBytes l);
  sim_pushString l : Sim snk_rel eq (sQpushString l) (sQpushString l);
  sim_flush : Sim snk_rel eq flush flush
}.

#[export] Hint Resolve sim_push8 sim_push16 sim_push32 sim_pushBytes sim_pushString sim_flush : sim.

(** * Facts on big-endian encodings *)

Lemma zlen_be_bytes k n : zlen (be_bytes k n) = Z.of_nat k.
Proof. induction k; cbn [be_bytes]; [reflexivity|]. rewrite zlen_cons. lia. Qed.

Lemma be_bytes_bytes k n : bytes (be_bytes k n).
Proof.
  induction k; cbn [be_bytes]; constructor; auto. unfold is_byte. apply Z.mod_pos_bound. lia.
Qed.

Lemma be_be_bytes k n : be (be_bytes k n) = n mod 256 ^ Z.of_nat k.
Proof.
  induction k as [|k IH]; cbn [be_bytes].
  - change (256 ^ Z.of_nat 0) with 1. now rewrite Z.mod_1_r.
  - rewrite be_cons, zlen_be_bytes, IH.
    pose proof (Z.pow_pos_nonneg 256 (Z.of_nat k) ltac:(lia) ltac:(lia)).
    replace (256 ^ Z.of_nat (S k)) with (256 ^ Z.of_nat k * 256)
      by (rewrite Nat2Z.inj_succ, Z.pow_succ_r by lia; lia).
    rewrite Z.rem_mul_r by lia. lia.
Qed.

Lemma be_bytes_small k n : 0 <= n < 256 ^ Z.of_nat k -> be (be_bytes k n) = n.
Proof. intros. rewrite be_be_bytes. now apply Z.mod_small. Qed.

#[export] Hint Resolve be_bytes_bytes : bytes.
#[export] Hint Rewrite zlen_be_bytes : zlist.
