(* ===== verification/Websock.v ===== *)
(** The buffered WebSocket wrapper, core/websock.js.

    [websock] is the state of a [Websock] object: the receive queue ([_rQ] with
    its read and write indices), the send queue and the raw channel.  The
    browser's channel is seen through its [readyState] and the messages handed
    to [send].  The abstract contents of the receive queue is [unread]; the
    theorems relate every operation to that list, and the send queue to the
    stream of bytes [wire]. *)

From Stdlib Require Import ZArith List Lia Bool String.
From S2P Require Import Prelude Source Sink.
Import ListNotations JS JSFacts.
Open Scope Z_scope.
Open Scope code_scope.

Module Websock.

Definition MAX_RQ_GROW_SIZE : Z := 40 * 1024 * 1024.

(** The value of a raw channel's [readyState]: a number for a WebSocket, a
    string for an RTCDataChannel. *)
Inductive raw_state := RsNum (n : Z) | RsStr (s : string).

Definition raw_state_eqb (a b : raw_state) : bool :=
  match a, b with
  | RsNum n, RsNum m => n =? m
  | RsStr s, RsStr t => String.eqb s t
  | _, _ => false
  end.

Module ReadyStates.
Definition CONNECTING := [RsNum 0; RsStr "connecting"].
Definition OPEN := [RsNum 1; RsStr "open"].
Definition CLOSING := [RsNum 2; RsStr "closing"].
Definition CLOSED := [RsNum 3; RsStr "closed"].
End ReadyStates.

Definition includes (l : list raw_state) (s : raw_state) : bool := existsb (raw_state_eqb s) l.

(** The raw channel: the names of its properties, its state, the payloads it
    was given to send (first to last), whether it was told to close and
    whether its [onmessage] is still bound to [_recvMessage]. *)
Record rawChannel := RawChannel {
  rc_props : list string;
  rc_readyState : raw_state;
  rc_sent : list (list Z);
  rc_closed : bool;
  rc_onmessage : bool
}.

Definition rawChannelProps : list string :=
  ["send"; "close"; "binaryType"; "onerror"; "onmessage"; "onopen"; "protocol"; "readyState"]%string.

Inductive event := EvMessage | EvOpen | EvClose | EvError.

Definition event_eqb (a b : event) : bool :=
  match a, b with
  | EvMessage, EvMessage | EvOpen, EvOpen | EvClose, EvClose | EvError, EvError => true
  | _, _ => false
  end.

(** [_eventHandlers]: whether a handler is installed for the event (the
    default handler does nothing). *)
Definition handlers := event -> bool.

Record websock := mkWebsock {
  _websocket : option rawChannel;
  _rQi : Z;
  _rQlen : Z;
  _rQbufferSize : Z;
  _rQ : list Z;
  _sQbufferSize : Z;
  _sQlen : Z;
  _sQ : list Z;
  _eventHandlers : handlers
}.

(** The constructor.  [_rQ] and [_sQ] are null until [init]; the empty array
    stands for null, and nothing uses the queues before [attach]. *)
Definition constructor : websock :=
  mkWebsock None 0 0 (1024 * 1024 * 4) [] (1024 * 10) 0 [] (fun _ => false).

Definition set_websocket c w := mkWebsock c (_rQi w) (_rQlen w) (_rQbufferSize w) (_rQ w) (_sQbufferSize w) (_sQlen w) (_sQ w) (_eventHandlers w).
Definition set_rQi i w := mkWebsock (_websocket w) i (_rQlen w) (_rQbufferSize w) (_rQ w) (_sQbufferSize w) (_sQlen w) (_sQ w) (_eventHandlers w).
Definition set_rQlen n w := mkWebsock (_websocket w) (_rQi w) n (_rQbufferSize w) (_rQ w) (_sQbufferSize w) (_sQlen w) (_sQ w) (_eventHandlers w).
Definition set_rQbufferSize n w := mkWebsock (_websocket w) (_rQi w) (_rQlen w) n (_rQ w) (_sQbufferSize w) (_sQlen w) (_sQ w) (_eventHandlers w).
Definition set_rQ q w := mkWebsock (_websocket w) (_rQi w) (_rQlen w) (_rQbufferSize w) q (_sQbufferSize w) (_sQlen w) (_sQ w) (_eventHandlers w).
Definition set_sQlen n w := mkWebsock (_websocket w) (_rQi w) (_rQlen w) (_rQbufferSize w) (_rQ w) (_sQbufferSize w) n (_sQ w) (_eventHandlers w).
Definition set_sQ q w := mkWebsock (_websocket w) (_rQi w) (_rQlen w) (_rQbufferSize w) (_rQ w) (_sQbufferSize w) (_sQlen w) q (_eventHandlers w).
Definition set_eventHandlers h w := mkWebsock (_websocket w) (_rQi w) (_rQlen w) (_rQbufferSize w) (_rQ w) (_sQbufferSize w) (_sQlen w) (_sQ w) h.

Definition readyState (w : websock) : string :=
  match _websocket w with
  | None => "unused"
  | Some c =>
      let subState := rc_readyState c in
      if includes ReadyStates.CONNECTING subState then "connecting"
      else if includes ReadyStates.OPEN subState then "open"
      else if includes ReadyStates.CLOSING subState then "closing"
      else if includes ReadyStates.CLOSED subState then "closed"
      else "unknown"
  end%string.

(** ** Receive queue *)

(** [rQpeek8] yields [undefined] past the end of the buffer; the model stops there. *)
Definition rQpeek8 : M websock Z :=
  w <- get ;;
  match zget (_rQ w) (_rQi w) with Some b => ret b | None => stuck end.

Definition rQskipBytes (n : Z) : M websock unit := modify (fun w => set_rQi (_rQi w + n) w).

(** The loop of [_rQshift]: [byte] counts down from [bytes - 1] to 0.  An
    [undefined] element behaves as 0 under [<<]. *)
Fixpoint _rQshift_loop (n : nat) (res : Z) : M websock Z :=
  match n with
  | O => ret res
  | S byte =>
      w <- get ;;
      modify (set_rQi (_rQi w + 1)) ;;
      _rQshift_loop byte (res + (zgetd (_rQ w) (_rQi w) << (Z.of_nat byte * 8))%js)
  end.

Definition _rQshift (n : nat) : M websock Z :=
  res <- _rQshift_loop n 0 ;; ret (res >>> 0)%js.

Definition rQshift8 : M websock Z := _rQshift 1.
Definition rQshift16 : M websock Z := _rQshift 2.
Definition rQshift32 : M websock Z := _rQshift 4.

(** [rQshiftBytes(len, true)]: a copy. *)
Definition rQshiftBytes (len : Z) : M websock (list Z) :=
  modify (fun w => set_rQi (_rQi w + len) w) ;;
  gets (fun w => zslice (_rQ w) (_rQi w - len) (_rQi w)).

(** [rQshiftBytes(len, false)] followed by a store [f] through the returned
    subarray, which shares the buffer of the queue: the bytes of the window
    are replaced in the queue's own buffer. *)
Definition rQshiftView (len : Z) (f : list Z -> list Z) : M websock view :=
  modify (fun w => set_rQi (_rQi w + len) w) ;;
  modify (fun w => set_rQ (zblit (_rQ w) (_rQi w - len) (f (zslice (_rQ w) (_rQi w - len) (_rQi w)))) w) ;;
  gets (fun w => View (_rQ w) (_rQi w - len) (zlen (zslice (_rQ w) (_rQi w - len) (_rQi w)))).

(** The string is modelled by its character codes. *)
Fixpoint rQshiftStr_loop (fuel : nat) (i len : Z) (str : list Z) : M websock (list Z) :=
  if i <? len then
    match fuel with
    | O => stuck
    | S fuel =>
        part <- rQshiftBytes (Z.min 4096 (len - i)) ;;
        rQshiftStr_loop fuel (i + 4096) len (str ++ part)
    end
  else ret str.

Definition rQshiftStr (len : Z) : M websock (list Z) :=
  rQshiftStr_loop (Z.to_nat (len / 4096 + 1)) 0 len [].

(** [target.set(new Uint8Array(rQ.buffer, rQi, len))]: both may throw. *)
Definition rQshiftTo (target : list Z) (len : Z) : M websock (list Z) :=
  w <- get ;;
  if (zlen (_rQ w) <? _rQi w + len) || (zlen target <? len) then throw "RangeError"
  else
    modify (set_rQi (_rQi w + len)) ;;
    ret (zblit target 0 (zslice (_rQ w) (_rQi w) (_rQi w + len))).

Definition rQpeekBytes (len : Z) : M websock (list Z) :=
  gets (fun w => zslice (_rQ w) (_rQi w) (_rQi w + len)).

(** [goback] is 0 when the argument is omitted. *)
Definition rQwait (num goback : Z) : M websock bool :=
  w <- get ;;
  if _rQlen w - _rQi w <? num then
    if truthy goback then
      if _rQi w <? goback then throw "rQwait cannot backup"
      else modify (set_rQi (_rQi w - goback)) ;; ret true
    else ret true
  else ret false.

(** ** Send queue *)

Definition raw_send (payload : list Z) : M websock unit :=
  w <- get ;;
  match _websocket w with
  | None => throw "TypeError"
  | Some c =>
      modify (set_websocket (Some (RawChannel (rc_props c) (rc_readyState c)
                (rc_sent c ++ [payload]) (rc_closed c) (rc_onmessage c))))
  end.

(** [new Uint8Array(sQ.buffer, 0, sQlen)] throws when [sQlen] is beyond the buffer. *)
Definition flush : M websock unit :=
  w <- get ;;
  if (0 <? _sQlen w) && String.eqb (readyState w) "open" then
    if zlen (_sQ w) <? _sQlen w then throw "RangeError"
    else raw_send (ztake (_sQlen w) (_sQ w)) ;; modify (set_sQlen 0)
  else ret tt.

Definition _sQensureSpace (n : Z) : M websock unit :=
  w <- get ;;
  if _sQbufferSize w - _sQlen w <? n then flush else ret tt.

(** [this._sQ[this._sQlen++] = num] *)
Definition sQput (num : Z) : M websock unit :=
  w <- get ;;
  modify (set_sQ (zset (_sQ w) (_sQlen w) (toUint8 num))) ;;
  modify (set_sQlen (_sQlen w + 1)).

Definition sQpush8 (num : Z) : M websock unit :=
  _sQensureSpace 1 ;;
  sQput num.

Definition sQpush16 (num : Z) : M websock unit :=
  _sQensureSpace 2 ;;
  sQput ((num >> 8) & 255)%js ;;
  sQput ((num >> 0) & 255)%js.

Definition sQpush32 (num : Z) : M websock unit :=
  _sQensureSpace 4 ;;
  sQput ((num >> 24) & 255)%js ;;
  sQput ((num >> 16) & 255)%js ;;
  sQput ((num >> 8) & 255)%js ;;
  sQput ((num >> 0) & 255)%js.

(** One turn of the loop of [sQpushBytes] per unit of fuel.  The second
    argument of [subarray] is an end index. *)
Fixpoint sQpushBytes_loop (fuel : nat) (data : list Z) (offset : Z) : M websock unit :=
  if offset <? zlen data then
    match fuel with
    | O => stuck
    | S fuel =>
        _sQensureSpace 1 ;;
        w <- get ;;
        let chunkSize := _sQbufferSize w - _sQlen w in
        let chunkSize := if zlen data - offset <? chunkSize then zlen data - offset else chunkSize in
        let chunk := zslice data offset chunkSize in
        if zlen (_sQ w) <? _sQlen w + zlen chunk then throw "RangeError"
        else
          modify (set_sQ (zblit (_sQ w) (_sQlen w) chunk)) ;;
          modify (set_sQlen (_sQlen w + chunkSize)) ;;
          sQpushBytes_loop fuel data (offset + chunkSize)
    end
  else ret tt.

Definition sQpushBytes (data : list Z) : M websock unit :=
  sQpushBytes_loop (List.length data) data 0.

(** The string is given by its character codes. *)
Definition sQpushString (str : list Z) : M websock unit :=
  sQpushBytes (map toUint8 str).

(** ** Event handlers and life cycle *)

Definition off (evt : event) : M websock unit :=
  modify (fun w => set_eventHandlers (fun e => if event_eqb e evt then false else _eventHandlers w e) w).

Definition on (evt : event) : M websock unit :=
  modify (fun w => set_eventHandlers (fun e => if event_eqb e evt then true else _eventHandlers w e) w).

Definition _allocateBuffers : M websock unit :=
  modify (fun w => set_rQ (zrep (_rQbufferSize w) 0) w) ;;
  modify (fun w => set_sQ (zrep (_sQbufferSize w) 0) w).

Definition init : M websock unit :=
  _allocateBuffers ;;
  modify (set_rQi 0) ;;
  modify (set_websocket None).

Definition attach (rawChannel : rawChannel) : M websock unit :=
  init ;;
  match find (fun p => negb (existsb (String.eqb p) (rc_props rawChannel))) rawChannelProps with
  | Some prop => throw ("Raw channel missing property: " ++ prop)%string
  | None =>
      modify (set_websocket (Some (RawChannel (rc_props rawChannel) (rc_readyState rawChannel)
                (rc_sent rawChannel) (rc_closed rawChannel) true)))
  end.

Definition close : M websock unit :=
  w <- get ;;
  match _websocket w with
  | None => ret tt
  | Some c =>
      let closing := String.eqb (readyState w) "connecting" || String.eqb (readyState w) "open" in
      modify (set_websocket (Some (RawChannel (rc_props c) (rc_readyState c) (rc_sent c)
                (closing || rc_closed c) false)))
  end.

(** ** Receiving *)

Definition _expandCompactRQ (minFit : Z) : M websock unit :=
  w <- get ;;
  let requiredBufferSize := (_rQlen w - _rQi w + minFit) * 8 in
  let resizeNeeded := _rQbufferSize w <? requiredBufferSize in
  (if resizeNeeded
   then modify (set_rQbufferSize (Z.max (_rQbufferSize w * 2) requiredBufferSize))
   else ret tt) ;;
  w <- get ;;
  (if MAX_RQ_GROW_SIZE <? _rQbufferSize w then
     modify (set_rQbufferSize MAX_RQ_GROW_SIZE) ;;
     if MAX_RQ_GROW_SIZE - (_rQlen w - _rQi w) <? minFit
     then throw "Receive Queue buffer exceeded"
     else ret tt
   else ret tt) ;;
  w <- get ;;
  (if resizeNeeded
   then modify (set_rQ (zblit (zrep (_rQbufferSize w) 0) 0 (zslice (_rQ w) (_rQi w) (_rQlen w))))
   else modify (set_rQ (zblit (_rQ w) 0 (zslice (_rQ w) (_rQi w) (_rQlen w))))) ;;
  modify (set_rQlen (_rQlen w - _rQi w)) ;;
  modify (set_rQi 0).

(** The result tells whether the message handler is called. *)
Definition _recvMessage (u8 : list Z) : M websock bool :=
  w <- get ;;
  (if _rQlen w =? _rQi w then modify (set_rQlen 0) ;; modify (set_rQi 0) else ret tt) ;;
  w <- get ;;
  (if _rQbufferSize w - _rQlen w <? zlen u8 then _expandCompactRQ (zlen u8) else ret tt) ;;
  w <- get ;;
  (if zlen (_rQ w) <? _rQlen w + zlen u8 then throw "RangeError"
   else modify (set_rQ (zblit (_rQ w) (_rQlen w) u8))) ;;
  modify (set_rQlen (_rQlen w + zlen u8)) ;;
  w <- get ;;
  ret (0 <? _rQlen w - _rQi w).

(** * The receive queue refines a queue of bytes *)

(** The bytes received and not yet consumed. *)
Definition unread (w : websock) : list Z := zslice (_rQ w) (_rQi w) (_rQlen w).

(** The indices lie in the buffer, whose size is the recorded one and stays
    below the limit. *)
Record rq_wf (w : websock) : Prop := {
  rq_order : 0 <= _rQi w <= _rQlen w;
  rq_fits : _rQlen w <= _rQbufferSize w;
  rq_size : zlen (_rQ w) = _rQbufferSize w;
  rq_max : _rQbufferSize w <= MAX_RQ_GROW_SIZE;
  rq_bytes : bytes (_rQ w)
}.

(** The receive side of two states is the same. *)
Definition same_rq (w1 w2 : websock) : Prop :=
  _rQi w1 = _rQi w2 /\ _rQlen w1 = _rQlen w2 /\ _rQbufferSize w1 = _rQbufferSize w2 /\ _rQ w1 = _rQ w2.

Ltac wsimpl := cbn [_websocket _rQi _rQlen _rQbufferSize _rQ _sQbufferSize _sQlen _sQ _eventHandlers
  set_websocket set_rQi set_rQlen set_rQbufferSize set_rQ set_sQlen set_sQ set_eventHandlers] in *.
Ltac wrun := unM; wsimpl.

Lemma zlen_unread w : rq_wf w -> zlen (unread w) = _rQlen w - _rQi w.
Proof. intros [? ? ? ? ?]. unfold unread. apply zlen_zslice; lia. Qed.

Lemma unread_bytes w : rq_wf w -> bytes (unread w).
Proof. intros [? ? ? ? ?]. unfold unread. auto with bytes. Qed.

(** Advancing the read index within the unread bytes drops them. *)
Lemma unread_advance w n :
  rq_wf w -> 0 <= n <= zlen (unread w) ->
  unread (set_rQi (_rQi w + n) w) = zdrop n (unread w) /\ rq_wf (set_rQi (_rQi w + n) w).
Proof.
  intros Hwf Hn. rewrite zlen_unread in Hn by easy. destruct Hwf. split.
  - unfold unread, zslice; wsimpl. rewrite zdrop_ztake, zdrop_zdrop by lia. f_equal; [lia|f_equal; lia].
  - constructor; wsimpl; auto; lia.
Qed.

Lemma slice_unread w n :
  rq_wf w -> 0 <= n <= zlen (unread w) -> zslice (_rQ w) (_rQi w) (_rQi w + n) = ztake n (unread w).
Proof.
  intros Hwf Hn. rewrite zlen_unread in Hn by easy. unfold unread, zslice.
  rewrite ztake_ztake. f_equal. lia.
Qed.

Lemma get_unread w i :
  rq_wf w -> 0 <= i < zlen (unread w) -> zget (_rQ w) (_rQi w + i) = zget (unread w) i.
Proof.
  intros Hwf Hn. rewrite zlen_unread in Hn by easy. unfold unread, zslice. destruct Hwf.
  rewrite zget_ztake, zget_zdrop by lia. reflexivity.
Qed.

Lemma _rQshift_loop_spec n : forall w res,
  rq_wf w -> Z.of_nat n <= 4 -> Z.of_nat n <= zlen (unread w) ->
  exists res',
    _rQshift_loop n res w = (Ret res', set_rQi (_rQi w + Z.of_nat n) w) /\
    wrap32 res' = wrap32 (res + be (ztake (Z.of_nat n) (unread w))).
Proof.
  induction n as [|n IH]; intros w res Hwf Hn Hlen.
  - exists res. cbn [_rQshift_loop]. split.
    + unfold ret. f_equal. destruct w; unfold set_rQi; wsimpl. f_equal. lia.
    + rewrite ztake_nonpos by lia. cbn. f_equal. lia.
  - cbn [_rQshift_loop]. wrun.
    destruct (zget_some (unread w) 0 ltac:(lia)) as [b Hb].
    assert (Hbyte : is_byte b) by (eapply bytes_zget; [apply unread_bytes|]; eauto).
    assert (Hq : zgetd (_rQ w) (_rQi w) = b).
    { unfold zgetd. replace (_rQi w) with (_rQi w + 0) by lia. rewrite get_unread by (auto; lia).
      now rewrite Hb. }
    destruct (unread_advance w 1 Hwf ltac:(lia)) as [Hu Hwf'].
    specialize (IH (set_rQi (_rQi w + 1) w) (res + shl (zgetd (_rQ w) (_rQi w)) (Z.of_nat n * 8)) Hwf').
    destruct IH as (res' & Hrun & Hres); [lia|rewrite Hu; zlia|].
    exists res'. split.
    + rewrite Hrun. unfold set_rQi; wsimpl. do 2 f_equal. lia.
    + rewrite Hres, Hu, Hq.
      assert (Hsplit : ztake (Z.of_nat (S n)) (unread w) = b :: ztake (Z.of_nat n) (zdrop 1 (unread w))).
      { pose proof (zdrop_cons_get _ _ _ Hb) as Hd. rewrite zdrop_nonpos in Hd by lia. rewrite Hd at 1.
        change (0 + 1) with 1. unfold ztake. now rewrite !Nat2Z.id. }
      rewrite Hsplit, be_cons.
      rewrite (Z.add_comm res), <- Z.add_assoc, <- wrap32_add_l, wrap32_shl, wrap32_add_l by lia. f_equal.
      assert (zlen (ztake (Z.of_nat n) (zdrop 1 (unread w))) = Z.of_nat n) as -> by zlia.
      replace (2 ^ (Z.of_nat n * 8)) with (256 ^ Z.of_nat n); [lia|].
      rewrite Z.mul_comm, Z.pow_mul_r by lia. reflexivity.
Qed.

Lemma rQshift_spec n w :
  rq_wf w -> Z.of_nat n <= 4 -> Z.of_nat n <= zlen (unread w) ->
  _rQshift n w = (Ret (be (ztake (Z.of_nat n) (unread w))), set_rQi (_rQi w + Z.of_nat n) w).
Proof.
  intros Hwf Hn Hlen. destruct (_rQshift_loop_spec n w 0 Hwf Hn Hlen) as (res & Hrun & Hres).
  unfold _rQshift. rewrite (bind_run _ _ _ _ _ Hrun). unfold ret. rewrite shr_0, Hres.
  pose proof (be_range (ztake (Z.of_nat n) (unread w)) ltac:(auto using bytes_ztake, unread_bytes)) as Hr.
  replace (zlen (ztake (Z.of_nat n) (unread w))) with (Z.of_nat n) in Hr by zlia.
  pose proof (Z.pow_le_mono_r 256 (Z.of_nat n) 4 ltac:(lia) ltac:(lia)).
  rewrite wrap32_small; [reflexivity|]. change (256 ^ 4) with 4294967296 in *. lia.
Qed.

(** The queue [w] offers the bytes [rest a]; [past a] is what it delivered last. *)
Definition rq_rel (w : websock) (a : asrc) : Prop :=
  rq_wf w /\ unread w = rest a /\ exists pre, ztake (_rQi w) (_rQ w) = pre ++ past a.

Lemma rq_rel_step w a n f :
  rq_rel w a -> 0 <= n <= zlen (rest a) ->
  (forall l, bytes l -> bytes (f l)) -> zlen (f (ztake n (rest a))) = n ->
  rq_rel (set_rQ (zblit (_rQ w) (_rQi w) (f (ztake n (rest a)))) (set_rQi (_rQi w + n) w)) (astep n f a).
Proof.
  intros (Hwf & Hu & pre & Hp) Hn Hf Hlen.
  assert (Hb : bytes (f (ztake n (rest a)))).
  { apply Hf, bytes_ztake. rewrite <- Hu. now apply unread_bytes. }
  pose proof (zlen_unread w Hwf) as HL. rewrite Hu in HL. destruct Hwf.
  assert (Htail : zdrop (_rQi w + n) (zblit (_rQ w) (_rQi w) (f (ztake n (rest a)))) = zdrop (_rQi w + n) (_rQ w)).
  { unfold zblit. rewrite app_assoc. rewrite Hlen.
    rewrite zdrop_app. rewrite (zdrop_all _ (_ ++ _)) by zlia.
    rewrite zdrop_nonpos by zlia. reflexivity. }
  split; [|split].
  - constructor; wsimpl; auto; try lia.
    + rewrite zlen_zblit; lia.
    + auto with bytes.
  - unfold unread, zslice; wsimpl. rewrite Htail. cbn [rest astep]. rewrite <- Hu.
    unfold unread, zslice. rewrite zdrop_ztake, zdrop_zdrop by lia. f_equal; [lia|f_equal; lia].
  - exists pre. wsimpl. cbn [past astep]. rewrite app_assoc, <- Hp. unfold zblit.
    rewrite app_assoc, ztake_app_l, ztake_all by zlia. reflexivity.
Qed.

Lemma zblit_self {A} (l : list A) i n :
  0 <= i -> 0 <= n -> i + n <= zlen l -> zblit l i (zslice l i (i + n)) = l.
Proof.
  intros. unfold zblit. rewrite zlen_zslice by lia.
  replace (i + (i + n - i)) with (n + i) by lia. rewrite <- zdrop_zdrop by lia.
  unfold zslice. replace (i + n - i) with n by lia. rewrite ztake_zdrop. apply ztake_zdrop.
Qed.

Lemma rq_rel_advance w a n :
  rq_rel w a -> 0 <= n <= zlen (rest a) -> rq_rel (set_rQi (_rQi w + n) w) (astep n same a).
Proof.
  intros Hr Hn. pose proof Hr as (Hwf & Hu & _). pose proof (zlen_unread w Hwf) as HL.
  rewrite Hu in HL. pose proof Hwf as [].
  pose proof (rq_rel_step w a n same Hr Hn (fun _ H => H)) as H. unfold same in H at 1 2.
  rewrite <- Hu, <- slice_unread, zblit_self in H by (rewrite ?Hu; auto; lia). apply H.
  rewrite zlen_zslice; lia.
Qed.

(** A read of [n] bytes that moves the index by [n] is simulated by [atake]. *)
Lemma sim_atake {A} n (k : list Z -> A) (m : M websock A) :
  (forall w, rq_wf w -> 0 <= n <= zlen (unread w) ->
     m w = (Ret (k (ztake n (unread w))), set_rQi (_rQi w + n) w)) ->
  Sim rq_rel eq m (atake n same k).
Proof.
  intros Hm w a Hr. unfold atake. case_if; [|exact I]. bool_prop.
  pose proof Hr as (Hwf & Hu & _). eexists _, _. split; [apply Hm; rewrite ?Hu; auto; lia|].
  split; [now rewrite Hu|]. apply rq_rel_advance; auto.
Qed.

Lemma rQshiftBytes_spec n w : rq_wf w -> 0 <= n <= zlen (unread w) ->
  rQshiftBytes n w = (Ret (ztake n (unread w)), set_rQi (_rQi w + n) w).
Proof.
  intros. unfold rQshiftBytes. wrun. rewrite <- slice_unread by auto.
  do 2 f_equal. f_equal; lia.
Qed.

Lemma rQshiftStr_loop_spec fuel : forall i len str w,
  rq_wf w -> 0 <= i -> len - i <= zlen (unread w) -> len <= i + 4096 * Z.of_nat fuel ->
  rQshiftStr_loop fuel i len str w =
    (Ret (str ++ ztake (len - i) (unread w)), set_rQi (_rQi w + Z.max 0 (len - i)) w).
Proof.
  induction fuel as [|fuel IH]; intros i len str w Hwf Hi Hlen Hf; cbn [rQshiftStr_loop];
    destruct (Z.ltb_spec i len); try lia.
  1,3: rewrite ztake_nonpos, app_nil_r by lia; unfold ret, set_rQi; destruct w; wsimpl; do 2 f_equal; lia.
  set (n := Z.min 4096 (len - i)).
  rewrite (bind_run _ _ _ _ _ (rQshiftBytes_spec n w Hwf ltac:(lia))).
  destruct (unread_advance w n Hwf ltac:(lia)) as [Hu Hwf'].
  rewrite IH; rewrite ?Hu; auto; try zlia.
  f_equal; [f_equal|unfold set_rQi; wsimpl; f_equal; lia].
  rewrite <- app_assoc. f_equal. subst n. destruct (Z_le_gt_dec (len - i) 4096).
  - rewrite (ztake_nonpos (len - (i + 4096))), app_nil_r by lia. f_equal. lia.
  - rewrite Z.min_l by lia. replace (len - i) with (4096 + (len - (i + 4096))) at 2 by lia.
    rewrite <- (ztake_zdrop 4096 (unread w)) at 3. rewrite ztake_app, (ztake_all _ (ztake _ _)) by zlia.
    do 2 f_equal. zlia.
Qed.

#[export] Instance websock_source : ByteSource websock := {
  Source.rQwait := rQwait;
  Source.rQpeek8 := rQpeek8;
  Source.rQskipBytes := rQskipBytes;
  Source.rQshift8 := rQshift8;
  Source.rQshift16 := rQshift16;
  Source.rQshift32 := rQshift32;
  Source.rQshiftBytes := rQshiftBytes;
  Source.rQshiftView := rQshiftView;
  Source.rQshiftStr := rQshiftStr;
  Source.rQshiftTo := rQshiftTo;
  Source.rQpeekBytes := rQpeekBytes
}.

(** Stepping back puts the last bytes delivered in front again. *)
Lemma rq_rel_back w a g :
  rq_rel w a -> 0 <= g <= zlen (past a) ->
  rq_rel (set_rQi (_rQi w - g) w)
         (ASrc (ztake (zlen (past a) - g) (past a)) (zdrop (zlen (past a) - g) (past a) ++ rest a)).
Proof.
  intros (Hwf & Hu & pre & Hp) Hg. pose proof (f_equal zlen Hp) as HL. destruct Hwf.
  rewrite zlen_app, zlen_ztake in HL. zlens.
  assert (Hcut : ztake (_rQi w - g) (_rQ w) = pre ++ ztake (zlen (past a) - g) (past a)).
  { replace (_rQi w - g) with (Z.min (_rQi w - g) (_rQi w)) by lia.
    rewrite <- ztake_ztake, Hp, ztake_app, (ztake_all _ pre) by lia. do 2 f_equal. lia. }
  split; [|split].
  - constructor; wsimpl; auto; lia.
  - unfold unread, zslice; wsimpl. cbn [rest]. rewrite <- Hu. unfold unread, zslice.
    assert (Hq : _rQ w = pre ++ past a ++ zdrop (_rQi w) (_rQ w)) by
      (rewrite app_assoc, <- Hp; symmetry; apply ztake_zdrop).
    rewrite Hq at 1. rewrite zdrop_app, (zdrop_all _ pre), app_nil_l by lia.
    replace (_rQi w - g - zlen pre) with (zlen (past a) - g) by lia.
    rewrite zdrop_app_l, ztake_app, (ztake_all _ (zdrop _ (past a))) by zlia.
    do 2 f_equal. zlia.
  - exists pre. wsimpl. cbn [past]. exact Hcut.
Qed.

Lemma rQwait_sim n g : Sim rq_rel eq (rQwait n g) (Source.rQwait n g).
Proof.
  intros w a Hr. pose proof Hr as (Hwf & Hu & pre & Hp). cbn [Source.rQwait asrc_source].
  rewrite <- Hu, zlen_unread by easy. unfold rQwait. wrun.
  case_if; [|eauto 6]. destruct (truthy g) eqn:Eg; [|eauto 6].
  destruct ((g <? 0) || (zlen (past a) <? g)) eqn:Eb; [exact I|]. bool_prop.
  pose proof (f_equal zlen Hp) as HL. rewrite zlen_app, zlen_ztake in HL. destruct Hwf. zlens.
  destruct (Z.ltb_spec (_rQi w) g); [lia|].
  eexists _, _. split; [reflexivity|]. split; [reflexivity|].
  rewrite Hu. now apply rq_rel_back.
Qed.

Lemma rQshiftView_sim n f :
  (forall l, bytes l -> bytes (f l)) ->
  Sim rq_rel (view_eq n) (rQshiftView n f) (Source.rQshiftView n f).
Proof.
  intros Hf w a Hr. cbn [Source.rQshiftView asrc_source]. case_if; [|exact I]. bool_prop.
  unfold atake. case_if; [|exact I]. bool_prop.
  pose proof Hr as (Hwf & Hu & pre & Hp). pose proof (zlen_unread w Hwf) as HL. rewrite Hu in HL.
  unfold rQshiftView. wrun. pose proof Hwf as [].
  assert (Hback : _rQi w + n - n = _rQi w) by lia. rewrite !Hback.
  rewrite slice_unread, Hu by (rewrite ?Hu; auto; lia).
  set (q := zblit (_rQ w) (_rQi w) (f (ztake n (rest a)))).
  assert (Hq : zslice q (_rQi w) (_rQi w + n) = f (ztake n (rest a))).
  { subst q. unfold zslice, zblit. rewrite zdrop_app, zdrop_all, zdrop_nonpos by zlia.
    rewrite app_nil_l, ztake_app_l, ztake_all by lia. reflexivity. }
  eexists _, _. split; [reflexivity|]. split.
  - assert (zlen q = zlen (_rQ w)) by (subst q; apply zlen_zblit; lia).
    unfold view_eq, view_ok. rewrite view_bytes_fresh. unfold view_bytes. cbn [v_buffer v_offset v_length fresh_view].
    rewrite Hq, E. zlens. repeat split; lia || exact Hq.
  - apply (rq_rel_step w a n f); auto.
Qed.

Lemma rQshiftTo_sim t n : Sim rq_rel eq (rQshiftTo t n) (Source.rQshiftTo t n).
Proof.
  cbn [Source.rQshiftTo asrc_source]. case_if; [apply sim_stuck|]. apply sim_atake.
  intros w Hwf Hn. pose proof (zlen_unread w Hwf). pose proof Hwf as [].
  unfold rQshiftTo. wrun. destruct (Z.ltb_spec (zlen (_rQ w)) (_rQi w + n)); [lia|].
  rewrite E. cbn [orb]. now rewrite slice_unread.
Qed.

Lemma rQpeek8_sim : Sim rq_rel eq rQpeek8 Source.rQpeek8.
Proof.
  intros w a Hr. pose proof Hr as (Hwf & Hu & _). cbn [Source.rQpeek8 asrc_source].
  destruct (rest a) as [|b l] eqn:Ea; [exact I|].
  unfold rQpeek8. wrun. replace (_rQi w) with (_rQi w + 0) by lia.
  rewrite get_unread, Hu by (rewrite ?Hu; zlia || auto). cbn. eauto 6.
Qed.

Lemma rQpeekBytes_sim n : Sim rq_rel eq (rQpeekBytes n) (Source.rQpeekBytes n).
Proof.
  intros w a Hr. pose proof Hr as (Hwf & Hu & _). cbn [Source.rQpeekBytes asrc_source].
  case_if; [|exact I]. bool_prop. unfold rQpeekBytes. wrun.
  eexists _, _. split; [reflexivity|]. split; [|easy]. rewrite <- Hu. apply slice_unread; rewrite ?Hu; auto.
Qed.

Lemma rQskipBytes_sim n : Sim rq_rel eq (rQskipBytes n) (Source.rQskipBytes n).
Proof. apply sim_atake. reflexivity. Qed.

Lemma rQshift8_sim : Sim rq_rel eq rQshift8 Source.rQshift8.
Proof. apply sim_atake. intros w ? ?. apply (rQshift_spec 1); auto; lia. Qed.

Lemma rQshift16_sim : Sim rq_rel eq rQshift16 Source.rQshift16.
Proof. apply sim_atake. intros w ? ?. apply (rQshift_spec 2); auto; lia. Qed.

Lemma rQshift32_sim : Sim rq_rel eq rQshift32 Source.rQshift32.
Proof. apply sim_atake. intros w ? ?. apply (rQshift_spec 4); auto; lia. Qed.

Lemma rQshiftBytes_sim n : Sim rq_rel eq (rQshiftBytes n) (Source.rQshiftBytes n).
Proof. apply sim_atake. intros w ? ?. now apply rQshiftBytes_spec. Qed.

Lemma rQshiftStr_sim n : Sim rq_rel eq (rQshiftStr n) (Source.rQshiftStr n).
Proof.
  apply sim_atake. intros w ? ?. unfold rQshiftStr.
  rewrite rQshiftStr_loop_spec; auto; try lia.
  - cbn [app]. unfold same. rewrite Z.sub_0_r, Z.max_r by lia. reflexivity.
  - pose proof (Z.mul_succ_div_gt n 4096). lia.
Qed.

Lemma rq_rel_forget w a : rq_rel w a -> rq_rel w (ASrc [] (rest a)).
Proof.
  intros (Hwf & Hu & pre & Hp). split; [easy|]. split; [easy|].
  exists (ztake (_rQi w) (_rQ w)). cbn. now rewrite app_nil_r.
Qed.

(** The receive queue keeps the promise of [ByteSource]. *)
#[export] Instance websock_source_ok : ByteSourceOk websock := {|
  src_rel := rq_rel;
  sim_wait := rQwait_sim;
  sim_peek8 := rQpeek8_sim;
  sim_skip := rQskipBytes_sim;
  sim_shift8 := rQshift8_sim;
  sim_shift16 := rQshift16_sim;
  sim_shift32 := rQshift32_sim;
  sim_shiftBytes := rQshiftBytes_sim;
  sim_shiftView := rQshiftView_sim;
  sim_shiftStr := rQshiftStr_sim;
  sim_shiftTo := rQshiftTo_sim;
  sim_peekBytes := rQpeekBytes_sim;
  src_forget := rq_rel_forget
|}.

(** ** Receiving *)

(** The send side and the channel of two states are the same. *)
Definition same_sq (w1 w2 : websock) : Prop :=
  _websocket w1 = _websocket w2 /\ _sQbufferSize w1 = _sQbufferSize w2 /\ _sQlen w1 = _sQlen w2 /\
  _sQ w1 = _sQ w2 /\ _eventHandlers w1 = _eventHandlers w2.

Lemma zslice_zblit_0 (l d : list Z) : zlen d <= zlen l -> zslice (zblit l 0 d) 0 (zlen d) = d.
Proof.
  intros. unfold zslice, zblit. rewrite (ztake_nonpos 0), (zdrop_nonpos 0), app_nil_l, Z.sub_0_r by lia.
  apply ztake_app_exact.
Qed.

Lemma compact_wf w B q :
  rq_wf w -> bytes q -> zlen q = B -> zlen (unread w) <= B -> B <= MAX_RQ_GROW_SIZE ->
  let w' := mkWebsock (_websocket w) 0 (_rQlen w - _rQi w) B (zblit q 0 (unread w))
              (_sQbufferSize w) (_sQlen w) (_sQ w) (_eventHandlers w) in
  rq_wf w' /\ unread w' = unread w.
Proof.
  intros Hwf Hb Hq HB Hm w'. pose proof (zlen_unread w Hwf) as HL. split.
  - destruct Hwf. constructor; subst w'; wsimpl; auto; try lia.
    + rewrite zlen_zblit; lia.
    + apply bytes_zblit; auto. now apply unread_bytes.
  - unfold unread at 1; subst w'; wsimpl. rewrite <- HL. apply zslice_zblit_0. lia.
Qed.

Lemma bytes_zeros n : bytes (zrep n 0).
Proof. apply bytes_zrep. unfold is_byte; lia. Qed.

Lemma _expandCompactRQ_spec w n :
  rq_wf w -> 0 <= n -> zlen (unread w) + n <= MAX_RQ_GROW_SIZE ->
  exists w', _expandCompactRQ n w = (Ret tt, w') /\ unread w' = unread w /\ rq_wf w' /\
    _rQlen w' + n <= _rQbufferSize w' /\ same_sq w w'.
Proof.
  intros Hwf Hn Hmax. pose proof (zlen_unread w Hwf) as HL. pose proof Hwf as [].
  assert (Hgrow : forall B q, bytes q -> zlen q = B -> zlen (unread w) + n <= B -> B <= MAX_RQ_GROW_SIZE ->
    let w' := mkWebsock (_websocket w) 0 (_rQlen w - _rQi w) B (zblit q 0 (unread w))
                (_sQbufferSize w) (_sQlen w) (_sQ w) (_eventHandlers w) in
    unread w' = unread w /\ rq_wf w' /\ _rQlen w' + n <= _rQbufferSize w' /\ same_sq w w').
  { intros B q Hb Hq HB HM w'. destruct (compact_wf w B q Hwf Hb Hq ltac:(lia) HM) as [Hw Hun].
    split; [exact Hun|]. split; [exact Hw|]. split; [subst w'; wsimpl; lia|easy]. }
  unfold _expandCompactRQ. wrun. fold (unread w).
  set (req := (_rQlen w - _rQi w + n) * 8).
  destruct (Z.ltb_spec (_rQbufferSize w) req); wsimpl.
  - destruct (Z.ltb_spec MAX_RQ_GROW_SIZE (Z.max (_rQbufferSize w * 2) req)); wsimpl.
    + destruct (Z.ltb_spec (MAX_RQ_GROW_SIZE - (_rQlen w - _rQi w)) n); [lia|]. wsimpl.
      eexists. split; [reflexivity|]. apply Hgrow; wsimpl; [apply bytes_zeros|rewrite zlen_zrep; lia|lia|lia].
    + eexists. split; [reflexivity|]. apply Hgrow; wsimpl; [apply bytes_zeros|rewrite zlen_zrep; lia|lia|lia].
  - destruct (Z.ltb_spec MAX_RQ_GROW_SIZE (_rQbufferSize w)); [lia|]. wsimpl.
    eexists. split; [reflexivity|]. apply Hgrow; wsimpl; [assumption|assumption|lia|lia].
Qed.

Lemma _expandCompactRQ_throws w n :
  rq_wf w -> 0 <= n -> MAX_RQ_GROW_SIZE < zlen (unread w) + n ->
  exists w', _expandCompactRQ n w = (Throw "Receive Queue buffer exceeded", w').
Proof.
  intros Hwf Hn Hmax. pose proof (zlen_unread w Hwf) as HL. destruct Hwf.
  unfold _expandCompactRQ. wrun.
  destruct (Z.ltb_spec (_rQbufferSize w) ((_rQlen w - _rQi w + n) * 8)); wsimpl; [|lia].
  destruct (Z.ltb_spec MAX_RQ_GROW_SIZE (Z.max (_rQbufferSize w * 2) ((_rQlen w - _rQi w + n) * 8))); [|lia].
  wsimpl. destruct (Z.ltb_spec (MAX_RQ_GROW_SIZE - (_rQlen w - _rQi w)) n); [|lia]. eauto.
Qed.

(** Appending at the write index extends the unread bytes. *)
Lemma append_spec w u8 :
  rq_wf w -> bytes u8 -> _rQlen w + zlen u8 <= _rQbufferSize w ->
  let w' := set_rQlen (_rQlen w + zlen u8) (set_rQ (zblit (_rQ w) (_rQlen w) u8) w) in
  rq_wf w' /\ unread w' = unread w ++ u8.
Proof.
  intros Hwf Hb Hfit w'. zlens. pose proof Hwf as []. split.
  - constructor; subst w'; wsimpl; auto; try lia.
    + rewrite zlen_zblit; lia.
    + auto with bytes.
  - unfold unread, zslice; subst w'; wsimpl. unfold zblit.
    rewrite zdrop_app_l, zdrop_ztake by zlia.
    rewrite ztake_app, ztake_ztake, Z.min_r by lia. f_equal.
    rewrite ztake_app_l, ztake_all by zlia. reflexivity.
Qed.

(** When everything has been consumed the indices restart at 0. *)
Lemma reset_spec w :
  rq_wf w ->
  exists w1, (if _rQlen w =? _rQi w then modify (set_rQlen 0) ;; modify (set_rQi 0) else ret tt) w = (Ret tt, w1) /\
    rq_wf w1 /\ unread w1 = unread w /\ same_sq w w1.
Proof.
  intros Hwf. pose proof (zlen_unread w Hwf) as HL. destruct (Z.eqb_spec (_rQlen w) (_rQi w)).
  - eexists. split; [reflexivity|]. pose proof Hwf as []. repeat split; wsimpl; auto; try lia.
    rewrite (zlen_0_nil (unread w)) by lia. reflexivity.
  - exists w. repeat split; auto; apply Hwf.
Qed.

Lemma recvMessage_spec (w : websock) (u8 : list Z) :
  rq_wf w -> bytes u8 ->
  if zlen (unread w) + zlen u8 <=? MAX_RQ_GROW_SIZE then
    exists w', _recvMessage u8 w = (Ret (0 <? zlen (unread w ++ u8)), w') /\
      unread w' = unread w ++ u8 /\ rq_wf w' /\ same_sq w w'
  else exists w', _recvMessage u8 w = (Throw "Receive Queue buffer exceeded", w').
Proof.
  intros Hwf Hb. destruct (reset_spec w Hwf) as (w1 & Hr & Hwf1 & Hu1 & Hs1).
  unfold _recvMessage. rewrite (bind_run get _ w w w eq_refl), (bind_run _ _ _ _ _ Hr), <- Hu1.
  rewrite (bind_run get _ w1 w1 w1 eq_refl). zlens.
  pose proof (zlen_unread w1 Hwf1) as HL.
  assert (Happ : forall w2, rq_wf w2 -> unread w2 = unread w1 -> same_sq w w2 ->
    _rQlen w2 + zlen u8 <= _rQbufferSize w2 ->
    exists w', (w <- get ;; (if zlen (_rQ w) <? _rQlen w + zlen u8 then throw "RangeError"
        else modify (set_rQ (zblit (_rQ w) (_rQlen w) u8))) ;;
      modify (set_rQlen (_rQlen w + zlen u8)) ;; w <- get ;; ret (0 <? _rQlen w - _rQi w)) w2
      = (Ret (0 <? zlen (unread w1 ++ u8)), w') /\ unread w' = unread w1 ++ u8 /\ rq_wf w' /\ same_sq w w').
  { intros w2 Hwf2 Hu2 Hs2 Hfit. destruct (append_spec w2 u8 Hwf2 Hb Hfit) as [Hw3 Hu3].
    pose proof (zlen_unread _ Hw3) as HL3. rewrite Hu3, Hu2 in *. wrun.
    destruct (Z.ltb_spec (zlen (_rQ w2)) (_rQlen w2 + zlen u8)); [destruct Hwf2; lia|]. wsimpl.
    eexists. split; [rewrite HL3; reflexivity|]. easy. }
  destruct (Z.ltb_spec (_rQbufferSize w1 - _rQlen w1) (zlen u8)).
  - destruct (Z.leb_spec (zlen (unread w1) + zlen u8) MAX_RQ_GROW_SIZE).
    + destruct (_expandCompactRQ_spec w1 (zlen u8) Hwf1 ltac:(lia) ltac:(lia)) as (w2 & He & Hu2 & Hwf2 & Hf & Hs2).
      rewrite (bind_run _ _ _ _ _ He). apply Happ; auto. unfold same_sq in *. intuition congruence.
    + destruct (_expandCompactRQ_throws w1 (zlen u8) Hwf1 ltac:(lia) ltac:(lia)) as [w2 He].
      exists w2. unfold bind at 1. now rewrite He.
  - destruct (Z.leb_spec (zlen (unread w1) + zlen u8) MAX_RQ_GROW_SIZE); [|destruct Hwf1; lia].
    apply Happ; auto. lia.
Qed.

(** C1.  Receiving a message appends it to the unread bytes, keeps the queue
    well formed and leaves the send side alone, whatever compaction or growth
    of the buffer it needs; the message handler is called exactly when some
    byte is unread.  The only failure is the documented one: the unread bytes
    and the message together exceed the 40 MiB limit. *)
Theorem recvMessage_appends (w : websock) (u8 : list Z) :
  rq_wf w -> bytes u8 ->
  if zlen (unread w) + zlen u8 <=? MAX_RQ_GROW_SIZE then
    exists w', _recvMessage u8 w = (Ret (0 <? zlen (unread w ++ u8)), w') /\
      unread w' = unread w ++ u8 /\ rq_wf w' /\ same_sq w w'
  else exists w', _recvMessage u8 w = (Throw "Receive Queue buffer exceeded", w').
Proof. apply recvMessage_spec. Qed.

(** A small queue holding the bytes 10 to 13, of which one has been read. *)
Definition demo_channel : rawChannel := RawChannel rawChannelProps (RsNum 1) [] false true.
Definition demo : websock :=
  mkWebsock (Some demo_channel) 1 4 6 [10; 11; 12; 13; 0; 0] 8 0 [0; 0; 0; 0; 0; 0; 0; 0] (fun _ => false).

Lemma demo_wf : rq_wf demo.
Proof. constructor; cbn; try lia; repeat constructor; cbn; lia. Defined.

Lemma recvMessage_appends_witness :
  exists w', _recvMessage [7; 8; 9] demo = (Ret true, w') /\ unread w' = [11; 12; 13; 7; 8; 9].
Proof.
  pose proof (recvMessage_appends demo [7; 8; 9] demo_wf ltac:(repeat constructor; cbn; lia)) as H.
  cbn in H. destruct H as (w' & H1 & H2 & _). exists w'. split; [exact H1|exact H2].
Defined.

(** * The receive queue is well typed *)

(** What a client does with the queue: receive a message, wait, peek, skip and
    read numbers, bytes and strings. *)
Inductive access :=
| AReceive (l : list Z)
| AWait (n : Z)
| APeek8
| ASkip (n : Z)
| A8
| A16
| A32
| ABytes (n : Z)
| AStr (n : Z)
| APeek (n : Z).

(** The values read, a truth value as 0 or 1. *)
Definition perform (a : access) : M websock (list Z) :=
  match a with
  | AReceive l => _recvMessage l ;; ret []
  | AWait n => b <- rQwait n 0 ;; ret [Z.b2z b]
  | APeek8 => v <- rQpeek8 ;; ret [v]
  | ASkip n => rQskipBytes n ;; ret []
  | A8 => v <- rQshift8 ;; ret [v]
  | A16 => v <- rQshift16 ;; ret [v]
  | A32 => v <- rQshift32 ;; ret [v]
  | ABytes n => rQshiftBytes n
  | AStr n => rQshiftStr n
  | APeek n => rQpeekBytes n
  end.

Fixpoint perform_all (l : list access) : M websock (list (list Z)) :=
  match l with
  | [] => ret []
  | a :: l => v <- perform a ;; vs <- perform_all l ;; ret (v :: vs)
  end.

(** What it stands for on the unread bytes. *)
Definition meant (a : access) (u : list Z) : list Z * list Z :=
  match a with
  | AReceive l => ([], u ++ l)
  | AWait n => ([Z.b2z (zlen u <? n)], u)
  | APeek8 => (ztake 1 u, u)
  | ASkip n => ([], zdrop n u)
  | A8 => ([be (ztake 1 u)], zdrop 1 u)
  | A16 => ([be (ztake 2 u)], zdrop 2 u)
  | A32 => ([be (ztake 4 u)], zdrop 4 u)
  | ABytes n | AStr n => (ztake n u, zdrop n u)
  | APeek n => (ztake n u, u)
  end.

(** Reads stay within what has arrived, and what arrives is bytes, within the
    limit of the buffer. *)
Definition allowed (a : access) (u : list Z) : Prop :=
  match a with
  | AReceive l => bytes l /\ zlen u + zlen l <= MAX_RQ_GROW_SIZE
  | AWait _ => True
  | APeek8 | A8 => 1 <= zlen u
  | A16 => 2 <= zlen u
  | A32 => 4 <= zlen u
  | ASkip n | ABytes n | AStr n | APeek n => 0 <= n <= zlen u
  end.

Fixpoint meant_all (l : list access) (u : list Z) : list (list Z) * list Z :=
  match l with
  | [] => ([], u)
  | a :: l => let '(v, u) := meant a u in let '(vs, u) := meant_all l u in (v :: vs, u)
  end.

Fixpoint allowed_all (l : list access) (u : list Z) : Prop :=
  match l with
  | [] => True
  | a :: l => allowed a u /\ allowed_all l (snd (meant a u))
  end.

(** The type of the values. *)
Definition typed (a : access) (v : list Z) : Prop :=
  match a with
  | AReceive _ | ASkip _ => v = []
  | AWait _ => v = [0] \/ v = [1]
  | APeek8 | A8 => zlen v = 1 /\ bytes v
  | A16 => zlen v = 1 /\ Forall (fun x => 0 <= x < 65536) v
  | A32 => zlen v = 1 /\ Forall (fun x => 0 <= x < 4294967296) v
  | ABytes n | AStr n | APeek n => zlen v = n /\ bytes v
  end.

Lemma through {A} (m1 : M websock A) (m2 : M asrc A) (k : A -> list Z) w a a' (v : A) :
  Sim rq_rel eq m1 m2 -> rq_rel w a -> m2 a = (Ret v, a') ->
  exists w', (x <- m1 ;; ret (k x)) w = (Ret (k v), w') /\ rq_wf w' /\ unread w' = rest a'.
Proof.
  intros Hs Hr E. specialize (Hs w a Hr). rewrite E in Hs. destruct Hs as (v1 & w' & E1 & -> & Hr').
  exists w'. rewrite (bind_run _ _ _ _ _ E1). destruct Hr' as (Hw & Hu & _). auto.
Qed.

Lemma bind_ret_self {S A} (m : M S A) s : (x <- m ;; ret x) s = m s.
Proof. unfold bind. now destruct (m s) as [[a|e|] s']. Qed.

Lemma perform_meant a w : rq_wf w -> allowed a (unread w) ->
  exists w', perform a w = (Ret (fst (meant a (unread w))), w') /\ rq_wf w' /\ unread w' = snd (meant a (unread w)).
Proof.
  intros Hw Ha. assert (Hr : rq_rel w (ASrc [] (unread w))).
  { split; [exact Hw|]. split; [reflexivity|]. exists (ztake (_rQi w) (_rQ w)). cbn. now rewrite app_nil_r. }
  assert (Hl := zlen_nonneg (unread w)). destruct a as [l|n| |n| | | |n|n|n]; cbn [perform meant allowed fst snd] in *.
  - destruct Ha as [Hb Hm]. assert (H := recvMessage_spec w l Hw Hb). destruct (Z.leb_spec (zlen (unread w) + zlen l) MAX_RQ_GROW_SIZE); [|lia].
    destruct H as (w' & E & Hu & Hw' & _). exists w'. now rewrite (bind_run _ _ _ _ _ E).
  - refine (through _ _ (fun b => [Z.b2z b]) w _ (ASrc [] (unread w)) _ (rQwait_sim n 0) Hr _). cbn. now destruct (zlen (unread w) <? n).
  - destruct (unread w) as [|b r] eqn:Eu; [change (zlen (@nil Z)) with 0 in Ha; lia|].
    exact (through _ _ (fun v => [v]) w _ _ b rQpeek8_sim Hr eq_refl).
  - exact (through _ _ (fun _ => []) w _ _ _ (rQskipBytes_sim n) Hr (atake_ok n same (fun _ => tt) (ASrc [] (unread w)) Ha)).
  - exact (through _ _ (fun v => [v]) w _ _ _ rQshift8_sim Hr (atake_ok 1 same be (ASrc [] (unread w)) ltac:(cbn [rest]; lia))).
  - exact (through _ _ (fun v => [v]) w _ _ _ rQshift16_sim Hr (atake_ok 2 same be (ASrc [] (unread w)) ltac:(cbn [rest]; lia))).
  - exact (through _ _ (fun v => [v]) w _ _ _ rQshift32_sim Hr (atake_ok 4 same be (ASrc [] (unread w)) ltac:(cbn [rest]; lia))).
  - rewrite <- bind_ret_self. exact (through _ _ (fun v => v) w _ _ _ (rQshiftBytes_sim n) Hr (atake_ok n same same (ASrc [] (unread w)) Ha)).
  - rewrite <- bind_ret_self. exact (through _ _ (fun v => v) w _ _ _ (rQshiftStr_sim n) Hr (atake_ok n same same (ASrc [] (unread w)) Ha)).
  - rewrite <- bind_ret_self. refine (through _ _ (fun v => v) w _ (ASrc [] (unread w)) _ (rQpeekBytes_sim n) Hr _).
    cbn. destruct (Z.leb_spec 0 n), (Z.leb_spec n (zlen (unread w))); try lia. reflexivity.
Qed.

Lemma meant_typed a u : bytes u -> allowed a u -> typed a (fst (meant a u)).
Proof.
  intros Hb Ha. assert (Hl := zlen_nonneg u).
  assert (Hbe : forall n, 0 <= n <= zlen u -> 0 <= be (ztake n u) < 256 ^ n).
  { intros n Hn. assert (H := be_range (ztake n u) (bytes_ztake n u Hb)). rewrite zlen_ztake in H.
    replace (Z.min (Z.max 0 n) (zlen u)) with n in H by lia. exact H. }
  destruct a as [l|n| |n| | | |n|n|n]; cbn [meant allowed fst typed] in *; try reflexivity.
  - destruct (zlen u <? n); auto.
  - split; [rewrite zlen_ztake; lia|now apply bytes_ztake].
  - split; [reflexivity|]. constructor; [exact (Hbe 1 ltac:(lia))|constructor].
  - split; [reflexivity|]. constructor; [exact (Hbe 2 ltac:(lia))|constructor].
  - split; [reflexivity|]. constructor; [exact (Hbe 4 ltac:(lia))|constructor].
  - split; [rewrite zlen_ztake; lia|now apply bytes_ztake].
  - split; [rewrite zlen_ztake; lia|now apply bytes_ztake].
  - split; [rewrite zlen_ztake; lia|now apply bytes_ztake].
Qed.

(** C2.  The receive queue is well typed: over any sequence of messages and of
    reads that stay within what has arrived, no operation throws, the indices
    stay in order inside a buffer of bytes of the recorded size, every value
    read has its type (a byte, 16 or 32 bits, so many bytes), and the values
    are those of the plain stream of bytes received. *)
Theorem queue_well_typed l : forall w, rq_wf w -> allowed_all l (unread w) ->
  exists vs w', perform_all l w = (Ret vs, w') /\ rq_wf w' /\ Forall2 typed l vs /\ (vs, unread w') = meant_all l (unread w).
Proof.
  induction l as [|a l IH]; intros w Hw Ha; cbn [perform_all meant_all allowed_all] in *; [exists [], w; auto|].
  destruct Ha as [Ha Hl]. destruct (perform_meant a w Hw Ha) as (w1 & E1 & Hw1 & Hu1). rewrite <- Hu1 in Hl.
  destruct (IH w1 Hw1 Hl) as (vs & w' & E2 & Hw' & Ht & Hu). exists (fst (meant a (unread w)) :: vs), w'.
  rewrite (bind_run _ _ _ _ _ E1), (bind_run _ _ _ _ _ E2). split; [reflexivity|]. split; [exact Hw'|].
  split; [constructor; [apply meant_typed; auto using unread_bytes|exact Ht]|].
  destruct (meant a (unread w)) as [v u] eqn:Em. cbn [fst snd] in *. rewrite Hu1 in Hu. now rewrite <- Hu.
Qed.

Lemma queue_well_typed_witness :
  exists w', perform_all [A8; AReceive [1; 2; 3]; A16; AWait 9; ABytes 3] demo = (Ret [[11]; []; [12 * 256 + 13]; [1]; [1; 2; 3]], w') /\ rq_wf w'.
Proof.
  destruct (queue_well_typed [A8; AReceive [1; 2; 3]; A16; AWait 9; ABytes 3] demo demo_wf) as (vs & w' & E & Hw & _ & Hm).
  - repeat split; vm_compute; try congruence. repeat constructor; discriminate.
  - vm_compute in Hm. injection Hm as -> _. exists w'. split; [exact E|exact Hw].
Defined.

(** * The send queue refines a stream of bytes *)

(** What the peer has been sent, followed by what is queued for it. *)
Definition wire (w : websock) : list Z :=
  match _websocket w with Some c => List.concat (rc_sent c) | None => [] end ++ ztake (_sQlen w) (_sQ w).

Record sq_wf (w : websock) : Prop := {
  sq_order : 0 <= _sQlen w <= _sQbufferSize w;
  sq_size : zlen (_sQ w) = _sQbufferSize w;
  sq_room : 4 <= _sQbufferSize w;
  sq_open : readyState w = "open"%string
}.

Definition sq_rel (w : websock) (a : asink) : Prop :=
  sq_wf w /\ wire w = out a /\ _sQlen w = pend a /\ _sQbufferSize w = cap a.

Lemma open_channel w : readyState w = "open"%string -> exists c, _websocket w = Some c.
Proof. unfold readyState. destruct (_websocket w); [eauto|discriminate]. Qed.

Lemma flush_spec w :
  sq_wf w ->
  exists w', flush w = (Ret tt, w') /\ sq_wf w' /\ wire w' = wire w /\ _sQlen w' = 0 /\
    _sQbufferSize w' = _sQbufferSize w /\ same_rq w w' /\ _sQ w' = _sQ w.
Proof.
  intros [Ho Hs Hr Hop]. destruct (open_channel w Hop) as [c Hc].
  unfold flush. wrun. rewrite Hop. cbn [String.eqb]. rewrite andb_true_r.
  destruct (Z.ltb_spec 0 (_sQlen w)).
  - destruct (Z.ltb_spec (zlen (_sQ w)) (_sQlen w)); [lia|].
    unfold raw_send. wrun. rewrite Hc. wsimpl.
    eexists. split; [reflexivity|]. split; [|split].
    + constructor; wsimpl; auto; try lia. revert Hop. unfold readyState. wsimpl. now rewrite Hc.
    + unfold wire. wsimpl. rewrite Hc. cbn [rc_sent]. rewrite concat_app, (ztake_nonpos 0) by lia.
      cbn [List.concat]. now rewrite !app_nil_r.
    + now wsimpl.
  - eexists. split; [reflexivity|]. repeat split; auto; lia.
Qed.

Lemma _sQensureSpace_spec w a n :
  sq_rel w a -> 0 < n <= 4 ->
  exists w', _sQensureSpace n w = (Ret tt, w') /\ sq_rel w' (ensure n a) /\
    _sQlen w' + n <= _sQbufferSize w' /\ same_rq w w' /\ _sQ w' = _sQ w.
Proof.
  intros (Hwf & Hw & Hl & Hc) Hn. pose proof Hwf as []. unfold _sQensureSpace, ensure. wrun.
  rewrite <- Hl, <- Hc. destruct (Z.ltb_spec (_sQbufferSize w - _sQlen w) n).
  - destruct (flush_spec w Hwf) as (w' & -> & Hwf' & Hw' & Hl' & Hb' & Hq & Hs).
    exists w'. split; [reflexivity|]. split; [|split; [lia|easy]].
    unfold sq_rel. cbn [out pend cap]. rewrite Hw', Hl', Hb'. auto.
  - exists w. split; [reflexivity|]. split; [repeat split; auto; lia|]. split; [lia|easy].
Qed.

(** Storing bytes behind the queued ones extends the stream. *)
Lemma sq_rel_store w a l :
  sq_rel w a -> _sQlen w + zlen l <= _sQbufferSize w ->
  sq_rel (set_sQlen (_sQlen w + zlen l) (set_sQ (zblit (_sQ w) (_sQlen w) l) w)) (aput l a).
Proof.
  intros (Hwf & Hw & Hl & Hc) Hfit. zlens. destruct Hwf. unfold sq_rel, aput. cbn [out pend cap].
  wsimpl. split; [|split; [|split; [lia|auto]]].
  - constructor; wsimpl; auto; try lia. rewrite zlen_zblit; lia.
  - rewrite <- Hw. unfold wire. wsimpl. rewrite <- app_assoc. f_equal. unfold zblit.
    rewrite app_assoc, ztake_app_l, ztake_all by zlia. reflexivity.
Qed.

Lemma zset_zblit (l : list Z) i v : 0 <= i < zlen l -> zset l i v = zblit l i [v].
Proof.
  intros. unfold zset, zblit. case_if; [apply orb_prop in E; destruct E; blia|]. reflexivity.
Qed.

Lemma sQput_sim w a v :
  sq_rel w a -> _sQlen w < _sQbufferSize w ->
  exists w', sQput v w = (Ret tt, w') /\ sq_rel w' (aput [v mod 256] a) /\
    _sQlen w' = _sQlen w + 1 /\ _sQbufferSize w' = _sQbufferSize w.
Proof.
  intros Hr Hfit. pose proof Hr as ([] & _). unfold sQput. wrun.
  eexists. split; [reflexivity|]. split; [|easy].
  rewrite zset_zblit by lia. apply (sq_rel_store w a [toUint8 v] Hr). cbn. lia.
Qed.

Fixpoint sQputs (l : list Z) : M websock unit :=
  match l with [] => ret tt | v :: l => sQput v ;; sQputs l end.

Lemma sQputs_sim l : forall w a,
  sq_rel w a -> _sQlen w + zlen l <= _sQbufferSize w ->
  exists w', sQputs l w = (Ret tt, w') /\ sq_rel w' (aput (map (fun v => v mod 256) l) a).
Proof.
  induction l as [|v l IH]; intros w a Hr Hfit; cbn [sQputs map].
  - exists w. split; [reflexivity|]. unfold aput. rewrite app_nil_r, zlen_nil, Z.add_0_r. now destruct a.
  - rewrite zlen_cons in Hfit. zlens. destruct (sQput_sim w a v Hr ltac:(lia)) as (w1 & H1 & Hr1 & Hl1 & Hb1).
    rewrite (bind_run _ _ _ _ _ H1). destruct (IH w1 _ Hr1 ltac:(lia)) as (w2 & H2 & Hr2).
    exists w2. split; [exact H2|]. revert Hr2. unfold aput. cbn [out pend cap].
    rewrite <- app_assoc, zlen_cons, zlen_cons, zlen_nil, <- Z.add_assoc. easy.
Qed.

(** The bytes stored by the three pushes, as the list of stored values. *)
Lemma push_sim l k n (m : M websock unit) :
  (k <= 4)%nat -> (0 < k)%nat -> zlen l = Z.of_nat k -> map (fun v => v mod 256) l = be_bytes k n ->
  meq m (_sQensureSpace (Z.of_nat k) ;; sQputs l) -> Sim sq_rel eq m (apush (be_bytes k n)).
Proof.
  intros Hk Hk0 Hlen Hl Hm w a Hr. rewrite Hm. cbn. rewrite zlen_be_bytes.
  destruct (_sQensureSpace_spec w a (Z.of_nat k) Hr ltac:(lia)) as (w1 & H1 & Hr1 & Hf & _).
  rewrite (bind_run _ _ _ _ _ H1). destruct (sQputs_sim l w1 _ Hr1 ltac:(lia)) as (w2 & H2 & Hr2).
  rewrite Hl in Hr2. exists tt, w2. auto.
Qed.

Lemma byte_of n k : 0 <= k < 32 -> JS.band (JS.sar n k) 255 mod 256 = (JS.toInt32 n / 2 ^ k) mod 256.
Proof.
  intros. rewrite band_255, Zmod_mod. unfold sar. now rewrite (Z.mod_small k), Z.shiftr_div_pow2 by lia.
Qed.

Lemma toInt32_byte n k : 0 <= k <= 3 -> (JS.toInt32 n / 256 ^ k) mod 256 = (n / 256 ^ k) mod 256.
Proof.
  intros. destruct (toInt32_cong n) as [j ->].
  replace (j * 4294967296) with (j * 256 ^ (3 - k) * 256 * 256 ^ k).
  - rewrite Z.div_add by (apply Z.pow_nonzero; lia). apply Z_mod_plus_full.
  - replace 4294967296 with (256 ^ (3 - k) * 256 ^ k * 256); [ring|].
    rewrite <- Z.pow_add_r by lia. now replace (3 - k + k) with 3 by lia.
Qed.

Lemma push_byte n k s : 0 <= k <= 3 -> s = k * 8 -> JS.band (JS.sar n s) 255 mod 256 = (n / 256 ^ k) mod 256.
Proof.
  intros ? ->. rewrite byte_of by lia. rewrite <- toInt32_byte by lia. do 2 f_equal.
  rewrite Z.mul_comm, Z.pow_mul_r by lia. reflexivity.
Qed.

Lemma bind_tt_r {S} (m : M S unit) : meq (bind m (fun _ => ret tt)) m.
Proof. intros s. unfold bind. now destruct (m s) as [[[]| |] ?]. Qed.

Lemma sQpush8_sim n : Sim sq_rel eq (sQpush8 n) (Sink.sQpush8 n).
Proof.
  apply (push_sim [n] 1); auto; try lia.
  - cbn. now rewrite Z.div_1_r.
  - unfold sQpush8, sQputs. now setoid_rewrite bind_tt_r.
Qed.

Lemma sQpush16_sim n : Sim sq_rel eq (sQpush16 n) (Sink.sQpush16 n).
Proof.
  apply (push_sim [JS.band (JS.sar n 8) 255; JS.band (JS.sar n 0) 255] 2); auto; try lia.
  - cbn [map be_bytes]. now rewrite (push_byte n 1 8), (push_byte n 0 0) by lia.
  - unfold sQpush16, sQputs. now setoid_rewrite bind_tt_r.
Qed.

Lemma sQpush32_sim n : Sim sq_rel eq (sQpush32 n) (Sink.sQpush32 n).
Proof.
  apply (push_sim [JS.band (JS.sar n 24) 255; JS.band (JS.sar n 16) 255;
                   JS.band (JS.sar n 8) 255; JS.band (JS.sar n 0) 255] 4); auto; try lia.
  - cbn [map be_bytes]. now rewrite (push_byte n 3 24), (push_byte n 2 16), (push_byte n 1 8), (push_byte n 0 0) by lia.
  - unfold sQpush32, sQputs. now setoid_rewrite bind_tt_r.
Qed.

(** One turn of the loop, from a state where the queue has room. *)
Lemma sQpushBytes_turn fuel data offset w a c :
  sq_rel w a -> 0 <= offset < zlen data -> c = Z.min (cap (ensure 1 a) - pend (ensure 1 a)) (zlen data - offset) ->
  zlen (zslice data offset c) <= c ->
  exists w1, sq_rel w1 (ensure 1 a) /\ 0 < c /\ _sQ w1 = _sQ w /\
    sQpushBytes_loop (S fuel) data offset w =
    sQpushBytes_loop fuel data (offset + c)
      (set_sQlen (_sQlen w1 + c) (set_sQ (zblit (_sQ w1) (_sQlen w1) (zslice data offset c)) w1)).
Proof.
  intros Hr Ho Hc Hz. destruct (_sQensureSpace_spec w a 1 Hr ltac:(lia)) as (w1 & H1 & Hr1 & Hf & _ & Hs).
  pose proof Hr1 as ([] & _ & Hp & Hcap). rewrite <- Hp, <- Hcap in Hc.
  exists w1. split; [easy|]. split; [lia|]. split; [easy|]. cbn [sQpushBytes_loop].
  destruct (Z.ltb_spec offset (zlen data)); [|lia].
  rewrite (bind_run _ _ _ _ _ H1). wrun.
  replace (if zlen data - offset <? _sQbufferSize w1 - _sQlen w1 then zlen data - offset
           else _sQbufferSize w1 - _sQlen w1) with c
    by (destruct (Z.ltb_spec (zlen data - offset) (_sQbufferSize w1 - _sQlen w1)); lia).
  destruct (Z.ltb_spec (zlen (_sQ w1)) (_sQlen w1 + zlen (zslice data offset c))); [lia|].
  reflexivity.
Qed.

Lemma sQpushBytes_loop_done fuel data offset w :
  zlen data <= offset -> sQpushBytes_loop fuel data offset w = (Ret tt, w).
Proof.
  intros. destruct fuel; cbn [sQpushBytes_loop]; destruct (Z.ltb_spec offset (zlen data)); easy || lia.
Qed.

(** A bulk write that fits in one chunk. *)
Lemma sQpushBytes_sim l : Sim sq_rel eq (sQpushBytes l) (Sink.sQpushBytes l).
Proof.
  intros w a Hr. cbn [Sink.sQpushBytes asink_sink]. unfold apushBytes, sQpushBytes.
  destruct (Z.eqb_spec (zlen l) 0) as [E|E].
  - rewrite sQpushBytes_loop_done by lia. eauto 6.
  - destruct (Z.leb_spec (zlen l) (cap (ensure 1 a) - pend (ensure 1 a))) as [Hfit|]; [|exact I].
    zlens. assert (Hsl : zslice l 0 (zlen l) = l).
    { unfold zslice. rewrite zdrop_nonpos, ztake_all; lia || reflexivity. }
    destruct l as [|b l']; [now rewrite zlen_nil in E|]. remember (b :: l') as l.
    destruct (sQpushBytes_turn (List.length l') l 0 w a (zlen l) Hr ltac:(lia) ltac:(lia)) as (w1 & Hr1 & _ & _ & Heq);
      [rewrite Hsl; lia|].
    pose proof Hr1 as (_ & _ & Hp & Hcap).
    replace (List.length l) with (S (List.length l')) by now subst.
    rewrite Heq, sQpushBytes_loop_done, Hsl by lia.
    eexists _, _. split; [reflexivity|]. split; [reflexivity|].
    apply sq_rel_store; auto. lia.
Qed.

Lemma flush_sim : Sim sq_rel eq flush Sink.flush.
Proof.
  intros w a (Hwf & Hw & Hl & Hc). cbn [Sink.flush asink_sink]. unfold modify.
  destruct (flush_spec w Hwf) as (w' & -> & Hwf' & Hw' & Hl' & Hb' & _).
  exists tt, w'. split; [reflexivity|]. split; [reflexivity|].
  unfold sq_rel; cbn [out pend cap]. rewrite Hw', Hl', Hb'. auto.
Qed.

#[export] Instance websock_sink : ByteSink websock := {
  Sink.sQpush8 := sQpush8;
  Sink.sQpush16 := sQpush16;
  Sink.sQpush32 := sQpush32;
  Sink.sQpushBytes := sQpushBytes;
  Sink.sQpushString := sQpushString;
  Sink.flush := flush
}.

(** The send queue on an open channel keeps the promise of [ByteSink]. *)
#[export] Instance websock_sink_ok : ByteSinkOk websock := {|
  snk_rel := sq_rel;
  sim_push8 := sQpush8_sim;
  sim_push16 := sQpush16_sim;
  sim_push32 := sQpush32_sim;
  sim_pushBytes := sQpushBytes_sim;
  sim_pushString l := sQpushBytes_sim (map toUint8 l);
  sim_flush := flush_sim
|}.

Lemma zslice_0_take (l : list Z) c : zslice l 0 c = ztake c l.
Proof. unfold zslice. now rewrite zdrop_nonpos, Z.sub_0_r by lia. Qed.

Lemma zblit_0_nil (l : list Z) : zblit l 0 [] = l.
Proof. reflexivity. Qed.

(** A bulk write larger than the queue (and at most twice as large) on an
    empty queue does not put the data on the wire: [subarray] takes an end
    index, so after the first chunk nothing is copied, and the queue sends the
    start of the first chunk again in place of the rest. *)
Theorem sQpushBytes_repeats_first_chunk (w : websock) (l : list Z) :
  sq_wf w -> _sQlen w = 0 -> _sQbufferSize w < zlen l <= 2 * _sQbufferSize w ->
  let B := _sQbufferSize w in
  exists w', sQpushBytes l w = (Ret tt, w') /\
    wire w' = wire w ++ ztake B l ++ ztake (zlen l - B) l.
Proof.
  intros Hwf Hl0 HB B. pose proof Hwf as []. subst B. set (B := _sQbufferSize w) in *.
  assert (Hr : sq_rel w (ASink (wire w) 0 B)) by (repeat split; auto; lia).
  assert (He : ensure 1 (ASink (wire w) 0 B) = ASink (wire w) 0 B).
  { unfold ensure; cbn [cap pend out]. destruct (Z.ltb_spec (B - 0) 1); [lia|easy]. }
  assert (HL : exists f, List.length l = S (S f)).
  { destruct l as [|x [|y l']]; [unfold zlen in *; cbn in *; lia..|]. now exists (List.length l'). }
  destruct HL as [f HL]. unfold sQpushBytes. rewrite HL.
  destruct (sQpushBytes_turn (S f) l 0 w _ B Hr ltac:(lia)) as (w1 & Hr1 & _ & Hs1 & ->).
  { rewrite He; cbn [cap pend]. lia. }
  { rewrite zslice_0_take. zlia. }
  rewrite He, zslice_0_take in *. pose proof Hr1 as ([] & _ & Hp1 & Hc1). cbn [pend cap] in *.
  assert (HB1 : zlen (ztake B l) = B) by zlia.
  pose proof (sq_rel_store w1 _ (ztake B l) Hr1 ltac:(lia)) as Hr2. rewrite HB1 in Hr2.
  set (w2 := set_sQlen _ _) in *.
  destruct (sQpushBytes_turn f l (0 + B) w2 _ (zlen l - B) Hr2 ltac:(lia)) as (w3 & Hr3 & _ & Hs3 & ->).
  { unfold ensure, aput; cbn [cap pend out]. destruct (Z.ltb_spec (B - (0 + zlen (ztake B l))) 1); cbn [cap pend]; lia. }
  { unfold zslice. rewrite ztake_nonpos by lia. rewrite zlen_nil. lia. }
  rewrite sQpushBytes_loop_done by lia. eexists. split; [reflexivity|].
  destruct Hr3 as ([] & Hw3 & Hp3 & Hc3). unfold ensure, aput in Hw3, Hp3, Hc3; cbn [cap pend out] in *.
  destruct (Z.ltb_spec (B - (0 + zlen (ztake B l))) 1); [|lia]; cbn [cap pend out] in *.
  unfold zslice, wire at 1. wsimpl. rewrite (ztake_nonpos (zlen l - B - (0 + B))), Hp3 by lia.
  revert Hw3. unfold wire at 1. rewrite Hp3, (ztake_nonpos 0), app_nil_r by lia. intros ->.
  rewrite <- app_assoc. do 2 f_equal. rewrite zblit_0_nil, Hs3. subst w2. wsimpl. rewrite Hp1. unfold zblit. rewrite (ztake_nonpos 0), app_nil_l by lia.
  rewrite ztake_app_l, ztake_ztake by lia. f_equal. lia.
Qed.

Lemma demo_sq_wf : sq_wf demo.
Proof. constructor; cbn; try lia; reflexivity. Defined.

Lemma sQpushBytes_repeats_first_chunk_witness :
  exists w', sQpushBytes [1; 2; 3; 4; 5; 6; 7; 8; 9; 10] demo = (Ret tt, w') /\
    wire w' = [1; 2; 3; 4; 5; 6; 7; 8; 1; 2].
Proof.
  apply (sQpushBytes_repeats_first_chunk demo [1; 2; 3; 4; 5; 6; 7; 8; 9; 10] demo_sq_wf); cbn; lia.
Defined.

(** On a channel that is not open, once the queue is full a bulk write
    never ends: whatever the number of turns allowed to the loop, it asks for
    one more. *)
Theorem sQpushBytes_spins (w : websock) (l : list Z) (fuel : nat) :
  readyState w <> "open"%string -> _sQlen w = _sQbufferSize w -> zlen (_sQ w) = _sQbufferSize w -> 0 < zlen l ->
  exists w', sQpushBytes_loop fuel l 0 w = (Stuck, w').
Proof.
  intros Hop Hfull Hsz Hl. revert w Hop Hfull Hsz.
  induction fuel as [|fuel IH]; intros w Hop Hfull Hsz; cbn [sQpushBytes_loop];
    (destruct (Z.ltb_spec 0 (zlen l)); [|lia]); [now exists w|].
  unfold _sQensureSpace, flush. wrun.
  destruct (Z.ltb_spec (_sQbufferSize w - _sQlen w) 1); [|lia].
  rewrite (proj2 (String.eqb_neq _ _) Hop), andb_false_r. wsimpl.
  destruct (Z.ltb_spec (zlen l - 0) (_sQbufferSize w - _sQlen w)); [lia|].
  rewrite zslice_0_take, ztake_nonpos, zlen_nil by lia.
  destruct (Z.ltb_spec (zlen (_sQ w)) (_sQlen w + 0)); [lia|].
  rewrite Z.add_0_l, Hfull, Z.sub_diag. apply IH; wsimpl; auto; [lia|].
  rewrite zlen_zblit; rewrite ?zlen_nil; zlens; lia.
Qed.

Lemma sQpushBytes_spins_witness :
  exists w', sQpushBytes_loop 100 [1; 2] 0 (set_sQlen 8 (set_websocket None demo)) = (Stuck, w').
Proof.
  destruct (sQpushBytes_spins (set_sQlen 8 (set_websocket None demo)) [1; 2] 100) as [w' H];
    [discriminate|reflexivity|reflexivity|cbn; lia|].
  now exists w'.
Defined.

(** [rQwait] with a step back: when the bytes are not there the queue is
    restored to where it was [goback] bytes earlier, with those bytes unread
    again, so the caller can run again from the start when more data arrives. *)
Theorem rQwait_goback (w : websock) (hdr : list Z) (num : Z) :
  rq_wf w -> ztake (zlen hdr) (unread w) = hdr -> 0 < zlen hdr -> zlen (unread w) - zlen hdr < num ->
  (rQskipBytes (zlen hdr) ;; rQwait num (zlen hdr)) w = (Ret true, w).
Proof.
  intros Hwf Hh H0 Hn. pose proof (f_equal zlen Hh) as HL. rewrite zlen_ztake in HL.
  pose proof (zlen_unread w Hwf) as Hu. zlens. unfold rQskipBytes, rQwait. wrun. destruct Hwf.
  destruct (Z.ltb_spec (_rQlen w - (_rQi w + zlen hdr)) num); [|lia].
  unfold truthy. destruct (Z.eqb_spec (zlen hdr) 0); [lia|]. cbn [negb].
  destruct (Z.ltb_spec (_rQi w + zlen hdr) (zlen hdr)); [lia|].
  destruct w; unfold set_rQi; wsimpl. do 2 f_equal. lia.
Qed.

Lemma rQwait_goback_witness : (rQskipBytes 2 ;; rQwait 2 2) demo = (Ret true, demo).
Proof.
  apply (rQwait_goback demo [11; 12] 2 demo_wf); cbn; lia || reflexivity.
Defined.

End Websock.
