(* ===== verification/Base64.v ===== *)
(** Base64 encoding and decoding, core/base64.js.

    Strings are lists of character codes.  The main results: decoding an
    encoded array gives the array back, and decoding fails exactly when the
    legal characters do not make up a whole number of bytes. *)

From Stdlib Require Import ZArith List Lia Bool String Ascii.
From S2P Require Import Prelude.
Import ListNotations JS JSFacts.
Open Scope Z_scope.

Module Base64.

Definition codes (s : string) : list Z := map (fun c => Z.of_nat (nat_of_ascii c)) (list_ascii_of_string s).

Definition toBase64Table : list Z :=
  codes "ABCDEFGHIJKLMNOPQRSTUVWXYZabcdefghijklmnopqrstuvwxyz0123456789+/=".

Definition base64Pad : Z := 61.

(** The loop over whole groups of three bytes: [i < length - 2]. *)
Fixpoint encode_loop (fuel : nat) (data : list Z) (i : Z) (result : list Z) : list Z :=
  match fuel with
  | O => result
  | S fuel =>
      if i <? zlen data - 2 then
        let d k := zgetd data (i + k) in
        encode_loop fuel data (i + 3)
          (result
           ++ [zgetd toBase64Table (d 0 >> 2)%js]
           ++ [zgetd toBase64Table (((d 0 & 3) << 4)%js + (d 1 >> 4)%js)]
           ++ [zgetd toBase64Table (((d 1 & 15) << 2)%js + (d 2 >> 6)%js)]
           ++ [zgetd toBase64Table (d 2 & 63)%js])
      else result
  end.

Definition encode (data : list Z) : list Z :=
  let length := zlen data in
  let lengthpad := length mod 3 in
  let result := encode_loop (List.length data) data 0 [] in
  let j := length - lengthpad in
  let d k := zgetd data (j + k) in
  if lengthpad =? 2 then
    result
    ++ [zgetd toBase64Table (d 0 >> 2)%js]
    ++ [zgetd toBase64Table (((d 0 & 3) << 4)%js + (d 1 >> 4)%js)]
    ++ [zgetd toBase64Table ((d 1 & 15) << 2)%js]
    ++ [zgetd toBase64Table 64]
  else if lengthpad =? 1 then
    result
    ++ [zgetd toBase64Table (d 0 >> 2)%js]
    ++ [zgetd toBase64Table ((d 0 & 3) << 4)%js]
    ++ [zgetd toBase64Table 64]
    ++ [zgetd toBase64Table 64]
  else result.

Definition toBinaryTable : list Z :=
  [ -1;-1;-1;-1; -1;-1;-1;-1; -1;-1;-1;-1; -1;-1;-1;-1;
    -1;-1;-1;-1; -1;-1;-1;-1; -1;-1;-1;-1; -1;-1;-1;-1;
    -1;-1;-1;-1; -1;-1;-1;-1; -1;-1;-1;62; -1;-1;-1;63;
    52;53;54;55; 56;57;58;59; 60;61;-1;-1; -1; 0;-1;-1;
    -1; 0; 1; 2;  3; 4; 5; 6;  7; 8; 9;10; 11;12;13;14;
    15;16;17;18; 19;20;21;22; 23;24;25;-1; -1;-1;-1;-1;
    -1;26;27;28; 29;30;31;32; 33;34;35;36; 37;38;39;40;
    41;42;43;44; 45;46;47;48; 49;50;51;-1; -1;-1;-1;-1 ].

(** [data.indexOf(c)] *)
Fixpoint indexOf (c : Z) (data : list Z) : Z :=
  match data with
  | [] => -1
  | x :: l => if x =? c then 0 else let r := indexOf c l in if r <? 0 then -1 else r + 1
  end.

(** The loop over the characters; [acc] holds the elements stored so far. *)
Fixpoint decode_loop (data : list Z) (leftbits leftdata : Z) (acc : list Z) : Z * Z * list Z :=
  match data with
  | [] => (leftbits, leftdata, acc)
  | ch :: data =>
      let c := zgetd toBinaryTable (ch & 127)%js in
      let padding := ch =? base64Pad in
      if c =? -1 then decode_loop data leftbits leftdata acc
      else
        let leftdata := ((leftdata << 6) .| c)%js in
        let leftbits := leftbits + 6 in
        if 8 <=? leftbits then
          let leftbits := leftbits - 8 in
          let acc := if negb padding then acc ++ [((leftdata >> leftbits) & 255)%js] else acc in
          let leftdata := (leftdata & ((1 << leftbits)%js - 1))%js in
          decode_loop data leftbits leftdata acc
        else decode_loop data leftbits leftdata acc
  end.

(** The result starts as an array of [resultLength] holes and grows when it
    is written past its end. *)
Definition decode (data : list Z) (offset : Z) : outcome (list (option Z)) :=
  let dataLength := indexOf 61 data - offset in
  let dataLength := if dataLength <? 0 then zlen data - offset else dataLength in
  let resultLength := (dataLength >> 2)%js * 3 + (2 * (dataLength mod 4)) / 3 in
  let '(leftbits, _, stored) := decode_loop (zdrop offset data) 0 0 [] in
  if truthy leftbits then Throw "Corrupted base64 string"
  else Ret (map Some stored ++ zrep (resultLength - zlen stored) None).

(** * Correctness *)

(** The characters of a group, as a function of its bytes. *)
Definition sextets (a b c : Z) : list Z :=
  [a / 4; (a mod 4) * 16 + b / 16; (b mod 16) * 4 + c / 64; c mod 64].

Definition char (v : Z) : Z := zgetd toBase64Table v.

Lemma sar_div a k : is_byte a -> 0 <= k < 32 -> JS.sar a k = a / 2 ^ k.
Proof. intros. apply sar_small; unfold is_byte in *; lia. Qed.

Lemma mask_shift a k m :
  is_byte a -> 0 <= k <= 8 -> 0 <= m <= 8 -> JS.shl (JS.band a (2 ^ k - 1)) m = (a mod 2 ^ k) * 2 ^ m.
Proof.
  intros Ha Hk Hm. rewrite band_ones by lia. pose proof (Z.mod_pos_bound a (2 ^ k) ltac:(lia)).
  apply shl_small; try lia. unfold is_byte in *.
  pose proof (Z.mod_le a (2 ^ k) ltac:(lia) ltac:(lia)).
  pose proof (Z.pow_le_mono_r 2 m 8 ltac:(lia) ltac:(lia)). change (2 ^ 8) with 256 in *. nia.
Qed.

Ltac bits :=
  repeat match goal with
  | |- context [JS.sar ?a ?k] => rewrite (sar_div a k) by (assumption || lia)
  | |- context [JS.shl (JS.band ?a ?m) ?k] =>
      first [change m with (2 ^ 2 - 1) | change m with (2 ^ 4 - 1)];
      rewrite (mask_shift a) by (assumption || lia)
  | |- context [JS.band ?a 63] => change 63 with (2 ^ 6 - 1); rewrite (band_ones a 6) by lia
  end.

Lemma char_decodes v : 0 <= v < 64 ->
  zgetd toBinaryTable (JS.band (char v) 127) = v /\ (char v =? base64Pad) = false.
Proof.
  intros Hv.
  assert (H : forallb (fun n => let v := Z.of_nat n in
      (zgetd toBinaryTable (JS.band (char v) 127) =? v) && negb (char v =? base64Pad)) (seq 0 64) = true)
    by (vm_compute; reflexivity).
  rewrite forallb_forall in H. specialize (H (Z.to_nat v)). rewrite in_seq in H.
  specialize (H ltac:(lia)). cbv zeta in H. rewrite Z2Nat.id in H by lia. bool_prop. split; [assumption|now apply Z.eqb_neq].
Qed.

(** Decoding one character, [x] being the bits left over. *)
Lemma decode_char v rest lb x acc :
  0 <= v < 64 -> 0 <= lb <= 6 -> 0 <= x < 2 ^ lb ->
  decode_loop (char v :: rest) lb x acc =
  if 2 <=? lb then
    decode_loop rest (lb - 2) ((x * 64 + v) mod 2 ^ (lb - 2)) (acc ++ [(x * 64 + v) / 2 ^ (lb - 2)])
  else decode_loop rest (lb + 6) (x * 64 + v) acc.
Proof.
  intros Hv Hlb Hx. destruct (char_decodes v Hv) as [Hd Hp]. cbn [decode_loop]. rewrite Hd, Hp.
  destruct (Z.eqb_spec v (-1)); [lia|]. cbn [negb].
  pose proof (Z.pow_le_mono_r 2 lb 6 ltac:(lia) ltac:(lia)). change (2 ^ 6) with 64 in *.
  rewrite (shl_bor x v 6) by lia. change (2 ^ 6) with 64.
  destruct (Z.leb_spec 8 (lb + 6)), (Z.leb_spec 2 lb); try lia; [|reflexivity].
  replace (lb + 6 - 8) with (lb - 2) by lia. set (k := lb - 2).
  rewrite sar_small, band_255 by lia.
  rewrite (shl_small 1 k), Z.mul_1_l by (try lia; pose proof (Z.pow_le_mono_r 2 k 6 ltac:(lia) ltac:(lia)); change (2 ^ 6) with 64 in *; lia).
  rewrite band_ones by lia. do 2 f_equal. f_equal. apply Z.mod_small.
  split; [apply Z.div_pos; [lia|]; apply Z.pow_pos_nonneg; lia|].
  apply Z.div_lt_upper_bound; [apply Z.pow_pos_nonneg; lia|].
  replace (2 ^ k * 256) with (2 ^ lb * 64); [lia|]. subst k.
  replace lb with (lb - 2 + 2) at 1 by lia. rewrite Z.pow_add_r by lia. change (2 ^ 2) with 4. lia.
Qed.

(** The four states of the bit counter. *)
Lemma decode_char0 v rest acc : 0 <= v < 64 ->
  decode_loop (char v :: rest) 0 0 acc = decode_loop rest 6 v acc.
Proof. intros. now rewrite decode_char by (cbn; lia). Qed.
Lemma decode_char6 v rest x acc : 0 <= v < 64 -> 0 <= x < 64 ->
  decode_loop (char v :: rest) 6 x acc = decode_loop rest 4 (v mod 16) (acc ++ [x * 4 + v / 16]).
Proof.
  intros. rewrite decode_char by (cbn; lia). cbn -[decode_loop Z.div Z.modulo Z.mul].
  f_equal; [euclid|do 2 f_equal; euclid].
Qed.
Lemma decode_char4 v rest x acc : 0 <= v < 64 -> 0 <= x < 16 ->
  decode_loop (char v :: rest) 4 x acc = decode_loop rest 2 (v mod 4) (acc ++ [x * 16 + v / 4]).
Proof.
  intros. rewrite decode_char by (cbn; lia). cbn -[decode_loop Z.div Z.modulo Z.mul].
  f_equal; [euclid|do 2 f_equal; euclid].
Qed.
Lemma decode_char2 v rest x acc : 0 <= v < 64 -> 0 <= x < 4 ->
  decode_loop (char v :: rest) 2 x acc = decode_loop rest 0 0 (acc ++ [x * 64 + v]).
Proof.
  intros. rewrite decode_char by (cbn; lia). cbn -[decode_loop Z.div Z.modulo Z.mul].
  now rewrite Z.mod_1_r, Z.div_1_r.
Qed.

(** A group of four characters decodes to its three bytes. *)
Lemma decode_group a b c rest acc :
  is_byte a -> is_byte b -> is_byte c ->
  decode_loop (map char (sextets a b c) ++ rest) 0 0 acc = decode_loop rest 0 0 (acc ++ [a; b; c]).
Proof.
  unfold is_byte. intros. cbn [sextets map app].
  rewrite decode_char0, decode_char6, decode_char4, decode_char2 by euclid.
  rewrite <- !app_assoc. cbn [app]. eqs.
Qed.

Lemma decode_pad4 rest acc : decode_loop (char 64 :: rest) 4 0 acc = decode_loop rest 2 0 acc.
Proof. reflexivity. Qed.
Lemma decode_pad2 rest acc : decode_loop (char 64 :: rest) 2 0 acc = decode_loop rest 0 0 acc.
Proof. reflexivity. Qed.

(** The final group: two bytes, or one, and padding. *)
Lemma decode_tail2 a b acc : is_byte a -> is_byte b ->
  decode_loop (map char [a / 4; (a mod 4) * 16 + b / 16; (b mod 16) * 4; 64]) 0 0 acc = (0, 0, acc ++ [a; b]).
Proof.
  unfold is_byte. intros. cbn [map].
  rewrite decode_char0, decode_char6, decode_char4 by euclid.
  rewrite Z.mod_mul, decode_pad2 by lia. rewrite <- !app_assoc. cbn [app decode_loop]. eqs.
Qed.

Lemma decode_tail1 a acc : is_byte a ->
  decode_loop (map char [a / 4; (a mod 4) * 16; 64; 64]) 0 0 acc = (0, 0, acc ++ [a]).
Proof.
  unfold is_byte. intros. cbn [map].
  rewrite decode_char0, decode_char6 by euclid.
  rewrite Z.mod_mul, decode_pad4, decode_pad2 by lia. cbn [decode_loop]. eqs.
Qed.

(** The encoding, as a recursion over the bytes. *)
Fixpoint encoding (data : list Z) : list Z :=
  match data with
  | a :: b :: c :: data => sextets a b c ++ encoding data
  | [a; b] => [a / 4; (a mod 4) * 16 + b / 16; (b mod 16) * 4; 64]
  | [a] => [a / 4; (a mod 4) * 16; 64; 64]
  | [] => []
  end.

Lemma zgetd_app_r pre l i : 0 <= i -> zgetd (pre ++ l) (zlen pre + i) = zgetd l i.
Proof. intros. unfold zgetd. rewrite zget_app_r by lia. now replace (zlen pre + i - zlen pre) with i by lia. Qed.

Lemma triple_ind (P : list Z -> Prop) :
  P [] -> (forall a, P [a]) -> (forall a b, P [a; b]) ->
  (forall a b c l, P l -> P (a :: b :: c :: l)) -> forall l, P l.
Proof.
  intros H0 H1 H2 H3 l. enough (P l /\ (forall a, P (a :: l)) /\ forall a b, P (a :: b :: l)) by tauto.
  induction l as [|x l (IH0 & IH1 & IH2)]; auto.
Qed.

(** The whole groups of the data. *)
Fixpoint groups (data : list Z) : list Z :=
  match data with a :: b :: c :: data => sextets a b c ++ groups data | _ => [] end.

Lemma encode_loop_groups data : forall fuel pre acc,
  bytes data -> (List.length data <= fuel)%nat ->
  encode_loop fuel (pre ++ data) (zlen pre) acc = acc ++ map char (groups data).
Proof.
  induction data as [|a|a b|a b c data IH] using triple_ind; intros fuel pre acc Hb Hf.
  1-3: cbn [groups map]; rewrite ?(app_nil_r acc); destruct fuel; cbn [encode_loop]; [easy|];
    case_if; [zlia|reflexivity].
  destruct fuel as [|fuel]; [cbn in Hf; lia|]. cbn [encode_loop].
  destruct (Z.ltb_spec (zlen pre) (zlen (pre ++ a :: b :: c :: data) - 2)); [|zlia].
  inversion_clear Hb as [|? ? Ha Hb']. inversion_clear Hb' as [|? ? Hb Hc']. inversion_clear Hc' as [|? ? Hc Hd].
  rewrite !zgetd_app_r by lia. cbn [zgetd zget Z.ltb Z.compare].
  change (zgetd (a :: b :: c :: data) 0) with a. change (zgetd (a :: b :: c :: data) 1) with b.
  change (zgetd (a :: b :: c :: data) 2) with c.
  replace (pre ++ a :: b :: c :: data) with ((pre ++ [a; b; c]) ++ data) by now rewrite <- app_assoc.
  replace (zlen pre + 3) with (zlen (pre ++ [a; b; c])) by (rewrite zlen_app; reflexivity).
  rewrite IH by (auto; cbn in Hf; lia). cbn [groups]. rewrite map_app, <- !app_assoc. f_equal.
  bits. reflexivity.
Qed.

Lemma groups_split data :
  exists t, encoding data = groups data ++ encoding t /\ zlen t = zlen data mod 3 /\
    forall k, zgetd data (zlen data - zlen t + k) = zgetd t k \/ k < 0.
Proof.
  induction data as [|a|a b|a b c data (t & He & Hl & Hg)] using triple_ind.
  1: exists []. 2: exists [a]. 3: exists [a; b].
  1-3: split; [reflexivity|]; split; [reflexivity|]; intros k; left; f_equal; lia.
  exists t. split; [cbn [encoding groups]; now rewrite He, <- app_assoc|]. split.
  - rewrite Hl, !zlen_cons. replace (1 + (1 + (1 + zlen data))) with (zlen data + 1 * 3) by lia.
    now rewrite Z_mod_plus_full.
  - intros k. destruct (Hg k) as [Hk|]; [|now right]. destruct (Z_lt_le_dec k 0); [now right|left].
    rewrite <- Hk, !zlen_cons. change (a :: b :: c :: data) with ([a; b; c] ++ data).
    pose proof (Z.mod_le (zlen data) 3). zlens.
    replace (1 + (1 + (1 + zlen data)) - zlen t + k) with (zlen [a; b; c] + (zlen data - zlen t + k)) by (change (zlen [a; b; c]) with 3; lia).
    apply zgetd_app_r. lia.
Qed.

Lemma encode_encoding data : bytes data -> encode data = map char (encoding data).
Proof.
  intros Hb. destruct (groups_split data) as (t & He & Hl & Hg).
  unfold encode. rewrite <- Hl. change (encode_loop _ data 0 []) with (encode_loop (List.length data) ([] ++ data) (zlen (@nil Z)) []).
  rewrite encode_loop_groups, app_nil_l, He, map_app by auto.
  assert (Hd : forall k, 0 <= k -> zgetd data (zlen data - zlen t + k) = zgetd t k)
    by (intros k Hk; destruct (Hg k); [assumption|lia]).
  rewrite !Hd by lia.
  assert (Ht : bytes t).
  { apply Forall_forall. intros x Hx. destruct (In_nth_error _ _ Hx) as [n Hn].
    assert (zget t (Z.of_nat n) = Some x) by (unfold zget; destruct (Z.ltb_spec (Z.of_nat n) 0); [lia|]; now rewrite Nat2Z.id).
    assert (Hx' : zgetd t (Z.of_nat n) = x) by (unfold zgetd; now rewrite H).
    rewrite <- Hx', <- Hd by lia. now apply bytes_zgetd. }
  pose proof (Z.mod_pos_bound (zlen data) 3 ltac:(lia)).
  destruct t as [|a [|b [|c t]]]; [| | |rewrite !zlen_cons in *; zlens; lia].
  - cbn. now rewrite app_nil_r.
  - inversion_clear Ht as [|? ? Ha _]. cbn -[app char toBase64Table JS.sar JS.shl JS.band map]. bits. reflexivity.
  - inversion_clear Ht as [|? ? Ha Hb']. inversion_clear Hb' as [|? ? Hb2 _].
    cbn -[app char toBase64Table JS.sar JS.shl JS.band map]. bits. reflexivity.
Qed.

Lemma decode_encoding data : forall acc, bytes data ->
  decode_loop (map char (encoding data)) 0 0 acc = (0, 0, acc ++ data).
Proof.
  induction data as [|a|a b|a b c data IH] using triple_ind; intros acc Hb.
  - cbn. now rewrite app_nil_r.
  - apply decode_tail1. now inversion Hb.
  - apply decode_tail2; inversion_clear Hb as [|? ? ? Hb']; [easy|]. now inversion Hb'.
  - inversion_clear Hb as [|? ? Ha Hb']. inversion_clear Hb' as [|? ? Hb Hc']. inversion_clear Hc' as [|? ? Hc Hd].
    cbn [encoding]. rewrite map_app, decode_group, IH, <- app_assoc by auto. reflexivity.
Qed.

Lemma indexOf_char v rest : 0 <= v < 64 ->
  indexOf 61 (char v :: rest) = if indexOf 61 rest <? 0 then -1 else indexOf 61 rest + 1.
Proof. intros Hv. cbn [indexOf]. change 61 with base64Pad at 1. now rewrite (proj2 (char_decodes v Hv)). Qed.

(** The length of an encoding and the place of its padding. *)
Lemma encoding_shape data : bytes data ->
  zlen (encoding data) = 4 * ((zlen data + 2) / 3) /\
  indexOf 61 (map char (encoding data)) =
    if zlen data mod 3 =? 0 then -1 else 4 * (zlen data / 3) + 1 + zlen data mod 3.
Proof.
  induction data as [|a|a b|a b c data IH] using triple_ind; intros Hb.
  - split; reflexivity.
  - inversion_clear Hb as [|? ? Ha _]. unfold is_byte in *. split; [reflexivity|].
    cbn [encoding map]. now rewrite !(indexOf_char (_ / _)), (indexOf_char (_ * _)) by euclid.
  - inversion_clear Hb as [|? ? Ha Hb']. inversion_clear Hb' as [|? ? Hb _]. unfold is_byte in *.
    split; [reflexivity|]. cbn [encoding map].
    now rewrite (indexOf_char (_ / _)), (indexOf_char (_ + _)), (indexOf_char (_ * _)) by euclid.
  - inversion_clear Hb as [|? ? Ha Hb']. inversion_clear Hb' as [|? ? Hb Hc']. inversion_clear Hc' as [|? ? Hc Hd].
    destruct (IH Hd) as [HL HI]. unfold is_byte in *.
    assert (Hn : zlen (a :: b :: c :: data) = zlen data + 1 * 3) by (rewrite !zlen_cons; lia).
    rewrite Hn, Z_mod_plus_full, Z_div_plus_full by lia. split.
    + cbn [encoding]. rewrite zlen_app, HL. change (zlen (sextets a b c)) with 4.
      replace (zlen data + 1 * 3 + 2) with (zlen data + 2 + 1 * 3) by lia. rewrite Z_div_plus_full by lia. lia.
    + cbn [encoding sextets map app]. rewrite !indexOf_char by euclid. rewrite HI. zlens.
      destruct (Z.eqb_spec (zlen data mod 3) 0); [reflexivity|].
      pose proof (Z.div_pos (zlen data) 3). pose proof (Z.mod_pos_bound (zlen data) 3).
      do 4 (match goal with |- context [if ?x <? 0 then -1 else ?x + 1] => destruct (Z.ltb_spec x 0); [lia|] end).
      lia.
Qed.

(** The legal characters of a string: those the decoder does not skip. *)
Definition legal (data : list Z) : list Z :=
  filter (fun ch => negb (zgetd toBinaryTable (JS.band ch 127) =? -1)) data.

Lemma decode_loop_bits data : forall lb x acc, 0 <= lb < 8 -> lb mod 2 = 0 ->
  fst (fst (decode_loop data lb x acc)) = (lb + 6 * zlen (legal data)) mod 8.
Proof.
  induction data as [|ch data IH]; intros lb x acc Hlb Hev.
  - cbn [decode_loop fst legal filter]. change (zlen (@nil Z)) with 0; rewrite Z.mul_0_r, Z.add_0_r, Z.mod_small; lia.
  - cbn [decode_loop]. unfold legal. cbn [filter]. fold (legal data).
    destruct (zgetd toBinaryTable (JS.band ch 127) =? -1); cbn [negb]; [now apply IH|].
    rewrite zlen_cons. destruct (Z.leb_spec 8 (lb + 6)); rewrite IH by euclid.
    + replace (lb + 6 * (1 + zlen (legal data))) with (lb + 6 - 8 + 6 * zlen (legal data) + 1 * 8) by lia.
      now rewrite Z_mod_plus_full.
    + f_equal. lia.
Qed.

(** C16.  Decoding an encoded byte array gives the array back, with no holes and
    no error, and the encoding has the length Base64 prescribes. *)
Theorem base64_roundtrip (data : list Z) :
  bytes data -> zlen data < 536870912 ->
  decode (encode data) 0 = Ret (map Some data) /\ zlen (encode data) = 4 * ((zlen data + 2) / 3).
Proof.
  intros Hb Hlt. rewrite encode_encoding by easy. destruct (encoding_shape data Hb) as [HL HI].
  assert (HM : zlen (map char (encoding data)) = zlen (encoding data)) by (unfold zlen; now rewrite length_map).
  split; [|lia]. unfold decode. rewrite HI, HM, HL, zdrop_nonpos, decode_encoding by (auto; lia). cbn [app truthy Z.eqb negb].
  zlens. match goal with |- context [zrep ?k _] => replace k with 0 end.
  - cbn. now rewrite app_nil_r.
  - destruct (Z.eqb_spec (zlen data mod 3) 0) as [E|E].
    + change (-1 - 0 <? 0) with true. cbn iota. rewrite sar_small by euclid. change (2 ^ 2) with 4. euclid.
    + destruct (Z.ltb_spec (4 * (zlen data / 3) + 1 + zlen data mod 3 - 0) 0); [euclid|].
      rewrite sar_small by euclid. change (2 ^ 2) with 4. euclid.
Qed.

Lemma base64_roundtrip_witness :
  decode (encode [0; 255; 77; 105]) 0 = Ret [Some 0; Some 255; Some 77; Some 105].
Proof. apply (base64_roundtrip [0; 255; 77; 105]); [repeat constructor; cbn; lia|cbn; lia]. Defined.

(** C17.  Decoding fails exactly when the legal characters of the string do not
    carry a whole number of bytes: illegal characters and white space are
    skipped and never cause the error. *)
Theorem base64_error_iff (data : list Z) :
  decode data 0 = Throw "Corrupted base64 string" <-> zlen (legal data) mod 4 <> 0.
Proof.
  unfold decode. rewrite zdrop_nonpos by lia. pose proof (decode_loop_bits data 0 0 [] ltac:(lia) eq_refl) as H.
  destruct (decode_loop data 0 0 []) as [[lb x] acc]. cbn [fst] in H. unfold truthy.
  destruct (Z.eqb_spec lb 0); cbn [negb]; split; try easy; euclid.
Qed.

End Base64.
