(* ===== verification/Display.v ===== *)
(** The display: rendering queue, damage tracking and viewport, core/display.js.

    [display] is the state of a [Display] object with the canvases it draws on.
    The canvas itself is the browser's: [Canvas] lists the drawing operations
    the code calls, and nothing is assumed of them, so the results hold for any
    canvas.  Images load asynchronously: [images] records the [Image] objects
    created so far, [image_complete] and [_resumeRenderQ] are the browser's side.

    The draw requests and the life of the rendering queue are related to the
    plain sequence of draw operations by [replay]; the viewport and the damage
    area have their own invariants. *)

From Stdlib Require Import ZArith QArith Qround List Lia Bool String.
From S2P Require Import Prelude Base64.
Import ListNotations JS JSFacts.
Open Scope Z_scope.
Open Scope code_scope.

(** A fill style: the red, green and blue elements of the colour array. *)
Definition style : Type := list (option Z).

(** An image source: MIME type and Base64 data. *)
Definition imgsrc : Type := (string * list Z)%type.

(** What the code uses of a canvas and its 2d context. *)
Class Canvas (C : Type) := {
  cv_width : C -> Z;
  cv_height : C -> Z;
  cv_setWidth : Z -> C -> C;
  cv_setHeight : Z -> C -> C;
  cv_fillRect : style -> Z -> Z -> Z -> Z -> C -> C;
  cv_putImageData : list Z -> Z -> Z -> Z -> Z -> C -> C;
  cv_getImageData : C -> Z -> Z -> Z -> Z -> list Z;
  (** [drawImage(canvas, sx, sy, w, h, dx, dy, w, h)] *)
  cv_drawCanvas : C -> Z -> Z -> Z -> Z -> Z -> Z -> C -> C;
  (** [drawImage(img, x, y)] *)
  cv_drawImage : imgsrc -> Z -> Z -> C -> C;
  (** the dimensions the browser finds in an image *)
  img_width : imgsrc -> Z;
  img_height : imgsrc -> Z
}.

(** The operations the decoders call. *)
Class Renderer (D : Type) := {
  fillRect : Z -> Z -> Z -> Z -> option (list Z) -> M D unit;
  copyImage : Z -> Z -> Z -> Z -> Z -> Z -> M D unit;
  imageRect : Z -> Z -> Z -> Z -> string -> list Z -> M D unit;
  blitImage : Z -> Z -> Z -> Z -> view -> Z -> M D unit
}.

Module Display.

(** The entries of the rendering queue; an image is known by its index. *)
Inductive action :=
| Flip
| Copy (oldX oldY x y width height : Z)
| Fill (x y width height : Z) (color : option (list Z))
| Blit (x y width height : Z) (data : list Z)
| Img (img : nat) (x y width height : Z).

(** An [Image] object: its source, whether it is loaded and whether the
    display listens to its load event. *)
Record image := mkImage { i_src : imgsrc; i_complete : bool; i_listening : bool }.

Record loc := Loc { l_x : Z; l_y : Z; l_w : Z; l_h : Z }.
Record bounds := Bounds { left : Z; top : Z; right : Z; bottom : Z }.

Section Display.
Context {C : Type} `{Canvas C}.

Record display := mkDisplay {
  _renderQ : list action;
  _flushPromise : bool;
  flushResolved : Z;
  _fbWidth : Z;
  _fbHeight : Z;
  _prevDrawStyle : option style;
  fillStyle : style;
  _backbuffer : C;
  _target : C;
  targetStyle : option (Q * Q);
  _viewportLoc : loc;
  _damageBounds : bounds;
  _scale : Q;
  _clipViewport : bool;
  images : list image
}.

Definition set_renderQ v d := mkDisplay v (_flushPromise d) (flushResolved d) (_fbWidth d) (_fbHeight d) (_prevDrawStyle d) (fillStyle d) (_backbuffer d) (_target d) (targetStyle d) (_viewportLoc d) (_damageBounds d) (_scale d) (_clipViewport d) (images d).
Definition set_flushPromise v d := mkDisplay (_renderQ d) v (flushResolved d) (_fbWidth d) (_fbHeight d) (_prevDrawStyle d) (fillStyle d) (_backbuffer d) (_target d) (targetStyle d) (_viewportLoc d) (_damageBounds d) (_scale d) (_clipViewport d) (images d).
Definition set_flushResolved v d := mkDisplay (_renderQ d) (_flushPromise d) v (_fbWidth d) (_fbHeight d) (_prevDrawStyle d) (fillStyle d) (_backbuffer d) (_target d) (targetStyle d) (_viewportLoc d) (_damageBounds d) (_scale d) (_clipViewport d) (images d).
Definition set_fbWidth v d := mkDisplay (_renderQ d) (_flushPromise d) (flushResolved d) v (_fbHeight d) (_prevDrawStyle d) (fillStyle d) (_backbuffer d) (_target d) (targetStyle d) (_viewportLoc d) (_damageBounds d) (_scale d) (_clipViewport d) (images d).
Definition set_fbHeight v d := mkDisplay (_renderQ d) (_flushPromise d) (flushResolved d) (_fbWidth d) v (_prevDrawStyle d) (fillStyle d) (_backbuffer d) (_target d) (targetStyle d) (_viewportLoc d) (_damageBounds d) (_scale d) (_clipViewport d) (images d).
Definition set_prevDrawStyle v d := mkDisplay (_renderQ d) (_flushPromise d) (flushResolved d) (_fbWidth d) (_fbHeight d) v (fillStyle d) (_backbuffer d) (_target d) (targetStyle d) (_viewportLoc d) (_damageBounds d) (_scale d) (_clipViewport d) (images d).
Definition set_fillStyle v d := mkDisplay (_renderQ d) (_flushPromise d) (flushResolved d) (_fbWidth d) (_fbHeight d) (_prevDrawStyle d) v (_backbuffer d) (_target d) (targetStyle d) (_viewportLoc d) (_damageBounds d) (_scale d) (_clipViewport d) (images d).
Definition set_backbuffer v d := mkDisplay (_renderQ d) (_flushPromise d) (flushResolved d) (_fbWidth d) (_fbHeight d) (_prevDrawStyle d) (fillStyle d) v (_target d) (targetStyle d) (_viewportLoc d) (_damageBounds d) (_scale d) (_clipViewport d) (images d).
Definition set_target v d := mkDisplay (_renderQ d) (_flushPromise d) (flushResolved d) (_fbWidth d) (_fbHeight d) (_prevDrawStyle d) (fillStyle d) (_backbuffer d) v (targetStyle d) (_viewportLoc d) (_damageBounds d) (_scale d) (_clipViewport d) (images d).
Definition set_targetStyle v d := mkDisplay (_renderQ d) (_flushPromise d) (flushResolved d) (_fbWidth d) (_fbHeight d) (_prevDrawStyle d) (fillStyle d) (_backbuffer d) (_target d) v (_viewportLoc d) (_damageBounds d) (_scale d) (_clipViewport d) (images d).
Definition set_viewportLoc v d := mkDisplay (_renderQ d) (_flushPromise d) (flushResolved d) (_fbWidth d) (_fbHeight d) (_prevDrawStyle d) (fillStyle d) (_backbuffer d) (_target d) (targetStyle d) v (_damageBounds d) (_scale d) (_clipViewport d) (images d).
Definition set_damageBounds v d := mkDisplay (_renderQ d) (_flushPromise d) (flushResolved d) (_fbWidth d) (_fbHeight d) (_prevDrawStyle d) (fillStyle d) (_backbuffer d) (_target d) (targetStyle d) (_viewportLoc d) v (_scale d) (_clipViewport d) (images d).
Definition set_scale v d := mkDisplay (_renderQ d) (_flushPromise d) (flushResolved d) (_fbWidth d) (_fbHeight d) (_prevDrawStyle d) (fillStyle d) (_backbuffer d) (_target d) (targetStyle d) (_viewportLoc d) (_damageBounds d) v (_clipViewport d) (images d).
Definition set_clipViewport v d := mkDisplay (_renderQ d) (_flushPromise d) (flushResolved d) (_fbWidth d) (_fbHeight d) (_prevDrawStyle d) (fillStyle d) (_backbuffer d) (_target d) (targetStyle d) (_viewportLoc d) (_damageBounds d) (_scale d) v (images d).
Definition set_images v d := mkDisplay (_renderQ d) (_flushPromise d) (flushResolved d) (_fbWidth d) (_fbHeight d) (_prevDrawStyle d) (fillStyle d) (_backbuffer d) (_target d) (targetStyle d) (_viewportLoc d) (_damageBounds d) (_scale d) (_clipViewport d) v.

(** The constructor, given the two canvases. *)
Definition constructor (target backbuffer : C) : display :=
  mkDisplay [] false 0 0 0 None [] backbuffer target None
    (Loc 0 0 (cv_width target) (cv_height target))
    (Bounds 0 0 (cv_width backbuffer) (cv_height backbuffer))
    1%Q false [].

(** [toConvert | 0] of util/int.js, on a number that need not be whole. *)
Definition toSigned32bit (q : Q) : Z :=
  toInt32 (if Qle_bool 0 q then Qfloor q else Qceiling q).

Definition toUnsigned32bit (z : Z) : Z := shr z 0.

(** ** Damage and flip *)

Definition _damage (x y w h : Z) : M display unit :=
  modify (fun d => let b := _damageBounds d in
    set_damageBounds (Bounds
      (if x <? left b then x else left b)
      (if y <? top b then y else top b)
      (if right b <? x + w then x + w else right b)
      (if bottom b <? y + h then y + h else bottom b)) d).

(** The rectangle a flip copies: source [x, y], size and destination. *)
Definition flip_rect (b : bounds) (vp : loc) : Z * Z * Z * Z * Z * Z :=
  let x := left b in
  let y := top b in
  let w := right b - x in
  let h := bottom b - y in
  let vx := x - l_x vp in
  let vy := y - l_y vp in
  let '(w, x, vx) := if vx <? 0 then (w + vx, x - vx, 0) else (w, x, vx) in
  let '(h, y, vy) := if vy <? 0 then (h + vy, y - vy, 0) else (h, y, vy) in
  let w := if l_w vp <? vx + w then l_w vp - vx else w in
  let h := if l_h vp <? vy + h then l_h vp - vy else h in
  (x, y, w, h, vx, vy).

(** [flip(true)], or [flip()] with nothing queued. *)
Definition flip_now : M display unit :=
  d <- get ;;
  let '(x, y, w, h, vx, vy) := flip_rect (_damageBounds d) (_viewportLoc d) in
  (if (0 <? w) && (0 <? h)
   then modify (set_target (cv_drawCanvas (_backbuffer d) x y w h vx vy (_target d)))
   else ret tt) ;;
  modify (set_damageBounds (Bounds 65535 65535 0 0)).

(** ** Drawing at once *)

Definition style_eqb (a b : style) : bool :=
  if list_eq_dec (fun x y : option Z => ltac:(decide equality; apply Z.eq_dec) : {x = y} + {x <> y}) a b
  then true else false.

(** Reading an element of [undefined] throws. *)
Definition _setFillColor (color : option (list Z)) : M display unit :=
  match color with
  | None => throw "TypeError"
  | Some color =>
      let newStyle := [zget color 0; zget color 1; zget color 2] in
      d <- get ;;
      if negb (match _prevDrawStyle d with Some s => style_eqb newStyle s | None => false end) then
        modify (set_fillStyle newStyle) ;;
        modify (set_prevDrawStyle (Some newStyle))
      else ret tt
  end.

Definition fillRect_now (x y width height : Z) (color : option (list Z)) : M display unit :=
  _setFillColor color ;;
  modify (fun d => set_backbuffer (cv_fillRect (fillStyle d) x y width height (_backbuffer d)) d) ;;
  _damage x y width height.

Definition copyImage_now (oldX oldY newX newY w h : Z) : M display unit :=
  modify (fun d => set_backbuffer (cv_drawCanvas (_backbuffer d) oldX oldY w h newX newY (_backbuffer d)) d) ;;
  _damage newX newY w h.

(** [new Uint8ClampedArray(buffer, byteOffset + offset, n)] must lie in the
    buffer, and [ImageData] refuses an empty image. *)
Definition blitImage_now (x y width height : Z) (arr : view) (offset : Z) : M display unit :=
  let n := width * height * 4 in
  let from := v_offset arr + offset in
  if (from <? 0) || (zlen (v_buffer arr) <? from + n) then throw "RangeError"
  else if (width <=? 0) || (height <=? 0) then throw "InvalidStateError"
  else
    modify (fun d => set_backbuffer
      (cv_putImageData (zslice (v_buffer arr) from (from + n)) width height x y (_backbuffer d)) d) ;;
    _damage x y width height.

Definition drawImage (src : imgsrc) (x y : Z) : M display unit :=
  modify (fun d => set_backbuffer (cv_drawImage src x y (_backbuffer d)) d) ;;
  _damage x y (img_width src) (img_height src).

(** ** The rendering queue *)

Definition get_image (i : nat) (d : display) : image :=
  nth i (images d) (mkImage (EmptyString, []) false false).

Definition set_image (i : nat) (im : image) (d : display) : display :=
  set_images (firstn i (images d) ++ im :: skipn (S i) (images d)) d.

(** Where one turn of the scan ends. *)
Inductive turn := Continue | Wait | Return.

(** The [switch] of [_scanRenderQ]. *)
Definition scan_action (a : action) : M display turn :=
  match a with
  | Flip => flip_now ;; ret Continue
  | Copy oldX oldY x y width height => copyImage_now oldX oldY x y width height ;; ret Continue
  | Fill x y width height color => fillRect_now x y width height color ;; ret Continue
  | Blit x y width height data => blitImage_now x y width height (fresh_view data) 0 ;; ret Continue
  | Img i x y width height =>
      d <- get ;;
      let im := get_image i d in
      if i_complete im then
        if negb (img_width (i_src im) =? width) || negb (img_height (i_src im) =? height)
        then ret Return
        else drawImage (i_src im) x y ;; ret Continue
      else
        modify (set_image i (mkImage (i_src im) (i_complete im) true)) ;;
        ret Wait
  end.

Definition shift_renderQ (d : display) : display := set_renderQ (tl (_renderQ d)) d.

(** The [while] loop; the result tells whether the method goes on after it. *)
Fixpoint scan_loop (fuel : nat) : M display bool :=
  d <- get ;;
  match _renderQ d with
  | [] => ret true
  | a :: _ =>
      match fuel with
      | O => stuck
      | S fuel =>
          t <- scan_action a ;;
          match t with
          | Return => ret false
          | Wait => ret true
          | Continue => modify shift_renderQ ;; scan_loop fuel
          end
      end
  end.

Definition _scanRenderQ : M display unit :=
  d <- get ;;
  goes_on <- scan_loop (List.length (_renderQ d)) ;;
  if goes_on then
    d <- get ;;
    match _renderQ d with
    | [] => if _flushPromise d
            then modify (set_flushResolved (flushResolved d + 1)) ;; modify (set_flushPromise false)
            else ret tt
    | _ => ret tt
    end
  else ret tt.

Definition _renderQPush (a : action) : M display unit :=
  modify (fun d => set_renderQ (_renderQ d ++ [a]) d) ;;
  d <- get ;;
  if Nat.eqb (List.length (_renderQ d)) 1 then _scanRenderQ else ret tt.

(** The browser finishes image [i]: its [complete] becomes true. *)
Definition image_complete (i : nat) : M display unit :=
  modify (fun d => let im := get_image i d in set_image i (mkImage (i_src im) true (i_listening im)) d).

(** The load event of image [i]: the listener, if it is installed, removes
    itself and goes on with the queue. *)
Definition _resumeRenderQ (i : nat) : M display unit :=
  d <- get ;;
  let im := get_image i d in
  if i_listening im then
    modify (set_image i (mkImage (i_src im) (i_complete im) false)) ;;
    _scanRenderQ
  else ret tt.

Definition queued (d : display) : bool := negb (Nat.eqb (List.length (_renderQ d)) 0).

(** ** The public drawing methods (with [fromQueue] absent) *)

Definition flip : M display unit :=
  d <- get ;;
  if queued d then _renderQPush Flip else flip_now.

Definition pending (d : display) : bool := queued d.

(** The result tells whether the returned promise is already resolved. *)
Definition flush : M display bool :=
  d <- get ;;
  if queued d then modify (set_flushPromise true) ;; ret false else ret true.

Definition fillRect (x y width height : Z) (color : option (list Z)) : M display unit :=
  d <- get ;;
  if queued d then _renderQPush (Fill x y width height color)
  else fillRect_now x y width height color.

Definition copyImage (oldX oldY newX newY w h : Z) : M display unit :=
  d <- get ;;
  if queued d then _renderQPush (Copy oldX oldY newX newY w h)
  else copyImage_now oldX oldY newX newY w h.

Definition imageRect (x y width height : Z) (mime : string) (arr : list Z) : M display unit :=
  if (width =? 0) || (height =? 0) then ret tt
  else
    d <- get ;;
    let i := List.length (images d) in
    modify (set_images (images d ++ [mkImage (mime, Base64.encode arr) false false])) ;;
    _renderQPush (Img i x y width height).

(** The queued copy takes the bytes from the start of the array's buffer. *)
Definition blitImage (x y width height : Z) (arr : view) (offset : Z) : M display unit :=
  d <- get ;;
  if queued d then
    let n := width * height * 4 in
    if (n <? 0) || (zlen (v_buffer arr) <? n) then throw "RangeError"
    else _renderQPush (Blit x y width height (zslice (v_buffer arr) 0 n))
  else blitImage_now x y width height arr offset.

(** ** Viewport and size *)

(** [factor * vp.w + 'px']: the style is kept as the number. *)
Definition _rescale (factor : Q) : M display unit :=
  modify (set_scale factor) ;;
  d <- get ;;
  let width := (factor * inject_Z (l_w (_viewportLoc d)))%Q in
  let height := (factor * inject_Z (l_h (_viewportLoc d)))%Q in
  if match targetStyle d with
     | Some (sw, sh) => negb (Qeq_bool sw width) || negb (Qeq_bool sh height)
     | None => true
     end
  then modify (set_targetStyle (Some (width, height)))
  else ret tt.

Definition viewportChangePos (deltaX deltaY : Q) : M display unit :=
  d <- get ;;
  let vp := _viewportLoc d in
  let deltaX := Qfloor deltaX in
  let deltaY := Qfloor deltaY in
  let '(deltaX, deltaY) :=
    if negb (_clipViewport d) then (- l_w vp, - l_h vp) else (deltaX, deltaY) in
  let vx2 := l_x vp + l_w vp - 1 in
  let vy2 := l_y vp + l_h vp - 1 in
  let deltaX := if (deltaX <? 0) && (l_x vp + deltaX <? 0) then - l_x vp else deltaX in
  let deltaX := if _fbWidth d <=? vx2 + deltaX then deltaX - (vx2 + deltaX - _fbWidth d + 1) else deltaX in
  let deltaY := if l_y vp + deltaY <? 0 then - l_y vp else deltaY in
  let deltaY := if _fbHeight d <=? vy2 + deltaY then deltaY - (vy2 + deltaY - _fbHeight d + 1) else deltaY in
  if (deltaX =? 0) && (deltaY =? 0) then ret tt
  else
    modify (set_viewportLoc (Loc (l_x vp + deltaX) (l_y vp + deltaY) (l_w vp) (l_h vp))) ;;
    _damage (l_x vp + deltaX) (l_y vp + deltaY) (l_w vp) (l_h vp) ;;
    flip.

(** An absent argument is [None]. *)
Definition viewportChangeSize (width height : option Q) : M display unit :=
  d <- get ;;
  let '(width, height) :=
    match width, height with
    | Some w, Some h => if negb (_clipViewport d) then (_fbWidth d, _fbHeight d) else (Qfloor w, Qfloor h)
    | _, _ => (_fbWidth d, _fbHeight d)
    end in
  let width := if _fbWidth d <? width then _fbWidth d else width in
  let height := if _fbHeight d <? height then _fbHeight d else height in
  let vp := _viewportLoc d in
  if negb (l_w vp =? width) || negb (l_h vp =? height) then
    modify (set_viewportLoc (Loc (l_x vp) (l_y vp) width height)) ;;
    modify (fun d => set_target (cv_setHeight height (cv_setWidth width (_target d))) d) ;;
    viewportChangePos 0 0 ;;
    d <- get ;;
    let vp := _viewportLoc d in
    _damage (l_x vp) (l_y vp) (l_w vp) (l_h vp) ;;
    flip ;;
    d <- get ;;
    _rescale (_scale d)
  else ret tt.

Definition changeSizeZ (w h : Z) : M display unit :=
  viewportChangeSize (Some (inject_Z w)) (Some (inject_Z h)).

Definition set_clipViewport_prop (viewport : bool) : M display unit :=
  modify (set_clipViewport viewport) ;;
  d <- get ;;
  changeSizeZ (l_w (_viewportLoc d)) (l_h (_viewportLoc d)) ;;
  viewportChangePos 0 0.

Definition absX (d : display) (x : Q) : Z :=
  if Qeq_bool (_scale d) 0 then 0
  else toSigned32bit (x / _scale d + inject_Z (l_x (_viewportLoc d))).

Definition absY (d : display) (y : Q) : Z :=
  if Qeq_bool (_scale d) 0 then 0
  else toSigned32bit (y / _scale d + inject_Z (l_y (_viewportLoc d))).

(** Setting the size of a canvas clears it and resets its context. *)
Definition resize (width height : Z) : M display unit :=
  modify (set_prevDrawStyle None) ;;
  modify (set_fbWidth width) ;;
  modify (set_fbHeight height) ;;
  d <- get ;;
  let canvas := _backbuffer d in
  let cw := cv_width canvas in
  let ch := cv_height canvas in
  (if negb (cw =? width) || negb (ch =? height) then
     let saveImg := if (0 <? cw) && (0 <? ch) then Some (cv_getImageData canvas 0 0 cw ch) else None in
     (if negb (cw =? width)
      then modify (fun d => set_fillStyle [] (set_backbuffer (cv_setWidth width (_backbuffer d)) d)) else ret tt) ;;
     (if negb (ch =? height)
      then modify (fun d => set_fillStyle [] (set_backbuffer (cv_setHeight height (_backbuffer d)) d)) else ret tt) ;;
     match saveImg with
     | Some img => modify (fun d => set_backbuffer (cv_putImageData img cw ch 0 0 (_backbuffer d)) d)
     | None => ret tt
     end
   else ret tt) ;;
  d <- get ;;
  changeSizeZ (l_w (_viewportLoc d)) (l_h (_viewportLoc d)) ;;
  viewportChangePos 0 0.

Definition getImageData (d : display) : list Z :=
  cv_getImageData (_backbuffer d) 0 0 (_fbWidth d) (_fbHeight d).

(** Division by a zero viewport size is outside the model. *)
Definition autoscale (containerWidth containerHeight : Q) : M display unit :=
  d <- get ;;
  let vp := _viewportLoc d in
  let scaleRatio :=
    if Qeq_bool containerWidth 0 || Qeq_bool containerHeight 0 then 0%Q
    else
      let targetAspectRatio := (containerWidth / containerHeight)%Q in
      let fbAspectRatio := (inject_Z (l_w vp) / inject_Z (l_h vp))%Q in
      if Qle_bool targetAspectRatio fbAspectRatio
      then (containerWidth / inject_Z (l_w vp))%Q
      else (containerHeight / inject_Z (l_h vp))%Q in
  _rescale scaleRatio.

(** * Drawing happens in the order of the requests *)

Ltac dsimpl := cbn [_renderQ _flushPromise flushResolved _fbWidth _fbHeight _prevDrawStyle fillStyle _backbuffer _target targetStyle _viewportLoc _damageBounds _scale _clipViewport images
  set_renderQ set_flushPromise set_flushResolved set_fbWidth set_fbHeight set_prevDrawStyle set_fillStyle set_backbuffer set_target set_targetStyle set_viewportLoc set_damageBounds set_scale set_clipViewport set_images shift_renderQ set_image] in *.
Ltac drun := unM; dsimpl.

(** The part of the state a drawing operation changes. *)
Definition core : Type := (C * C * bounds)%type.
Definition core_of (d : display) : core := (_backbuffer d, _target d, _damageBounds d).

Definition grow (b : bounds) (x y w h : Z) : bounds :=
  Bounds (Z.min (left b) x) (Z.min (top b) y) (Z.max (right b) (x + w)) (Z.max (bottom b) (y + h)).

(** The source of image [i]. *)
Definition src_at (srcs : list imgsrc) (i : nat) : imgsrc := nth i srcs (EmptyString, []).

(** What an action draws, with no queue and no style cache. *)
Definition exec (srcs : list imgsrc) (vp : loc) (c : core) (a : action) : core :=
  let '(back, target, b) := c in
  match a with
  | Flip =>
      let '(x, y, w, h, vx, vy) := flip_rect b vp in
      (back, if (0 <? w) && (0 <? h) then cv_drawCanvas back x y w h vx vy target else target,
       Bounds 65535 65535 0 0)
  | Copy ox oy x y w h => (cv_drawCanvas back ox oy w h x y back, target, grow b x y w h)
  | Fill x y w h color =>
      let color := match color with Some l => l | None => [] end in
      (cv_fillRect [zget color 0; zget color 1; zget color 2] x y w h back, target, grow b x y w h)
  | Blit x y w h data => (cv_putImageData data w h x y back, target, grow b x y w h)
  | Img i x y _ _ =>
      let src := src_at srcs i in
      (cv_drawImage src x y back, target, grow b x y (img_width src) (img_height src))
  end.

Definition replay srcs vp (l : list action) (c : core) : core := fold_left (exec srcs vp) l c.

Definition srcs_of (d : display) : list imgsrc := map i_src (images d).

(** The fill style cache tells the truth. *)
Definition style_ok (d : display) : Prop :=
  match _prevDrawStyle d with Some s => fillStyle d = s | None => True end.

(** An action that can be drawn without an error. *)
Definition action_ok (n : nat) (a : action) : Prop :=
  match a with
  | Fill _ _ _ _ color => color <> None
  | Blit _ _ w h data => 0 < w /\ 0 < h /\ zlen data = w * h * 4
  | Img i _ _ _ _ => (i < n)%nat
  | _ => True
  end.

(** The state outside the drawing part is the same. *)
Definition same_rest (d d' : display) : Prop :=
  _renderQ d' = _renderQ d /\ _flushPromise d' = _flushPromise d /\ flushResolved d' = flushResolved d /\
  _viewportLoc d' = _viewportLoc d /\ images d' = images d /\
  _fbWidth d' = _fbWidth d /\ _fbHeight d' = _fbHeight d /\ _clipViewport d' = _clipViewport d /\
  _scale d' = _scale d.

Lemma damage_grow (b : bounds) x y w h :
  Bounds (if x <? left b then x else left b) (if y <? top b then y else top b)
    (if right b <? x + w then x + w else right b) (if bottom b <? y + h then y + h else bottom b)
  = grow b x y w h.
Proof.
  unfold grow. destruct (Z.ltb_spec x (left b)), (Z.ltb_spec y (top b)),
    (Z.ltb_spec (right b) (x + w)), (Z.ltb_spec (bottom b) (y + h)); f_equal; lia.
Qed.

Lemma style_eqb_eq a b : style_eqb a b = true -> a = b.
Proof. unfold style_eqb. now destruct list_eq_dec. Qed.

Lemma setFillColor_spec color d : style_ok d ->
  exists d', _setFillColor (Some color) d = (Ret tt, d') /\ style_ok d' /\ same_rest d d' /\
    core_of d' = core_of d /\ fillStyle d' = [zget color 0; zget color 1; zget color 2].
Proof.
  intros Hs. unfold _setFillColor. drun. unfold style_ok in *.
  destruct (_prevDrawStyle d) as [st|] eqn:Ep.
  - destruct (style_eqb _ st) eqn:E; cbn [negb].
    + apply style_eqb_eq in E. exists d. rewrite Ep. repeat split; congruence.
    + eexists. split; [reflexivity|]. dsimpl. repeat split.
  - cbn [negb]. eexists. split; [reflexivity|]. dsimpl. repeat split.
Qed.

Ltac finish_exec := dsimpl; repeat split; unfold core_of, exec; dsimpl; rewrite ?damage_grow; auto.

Lemma src_of_get d i : src_at (srcs_of d) i = i_src (get_image i d).
Proof. exact (map_nth i_src (images d) (mkImage (EmptyString, []) false false) i). Qed.

(** Drawing an action at once does what [exec] says. *)
Lemma scan_action_exec d a :
  style_ok d -> action_ok (List.length (images d)) a ->
  (forall i x y w h, a = Img i x y w h ->
     i_complete (get_image i d) = true /\ img_width (src_at (srcs_of d) i) = w /\ img_height (src_at (srcs_of d) i) = h) ->
  exists d', scan_action a d = (Ret Continue, d') /\ style_ok d' /\ same_rest d d' /\
    core_of d' = exec (srcs_of d) (_viewportLoc d) (core_of d) a.
Proof.
  intros Hs Hok Himg. destruct a as [|ox oy x y w h|x y w h color|x y w h data|i x y w h]; cbn [scan_action].
  - unfold flip_now. drun. destruct (flip_rect _ _) as [[[[[x y] w] h] vx] vy] eqn:E.
    destruct ((0 <? w) && (0 <? h)) eqn:Ew; eexists; (split; [reflexivity|]);
      (split; [exact Hs|]); (split; [easy|]); unfold core_of, exec; dsimpl; now rewrite E, Ew.
  - unfold copyImage_now, _damage. drun. eexists. split; [reflexivity|]. finish_exec.
  - destruct color as [color|]; [|easy]. unfold fillRect_now.
    destruct (setFillColor_spec color d Hs) as (d1 & H1 & Hs1 & Hr1 & Hc1 & Hf1).
    unfold bind at 1 2. rewrite H1. unfold _damage. drun. eexists. split; [reflexivity|].
    split; [exact Hs1|]. split; [exact Hr1|]. rewrite <- Hc1. unfold core_of, exec. dsimpl.
    now rewrite damage_grow, Hf1.
  - destruct Hok as (Hw & Hh & Hl). unfold blitImage_now, _damage. drun. cbn [v_buffer v_offset fresh_view].
    change (0 + 0) with 0. destruct (Z.ltb_spec (zlen data) (0 + w * h * 4)); [lia|].
    destruct (Z.leb_spec w 0), (Z.leb_spec h 0); try lia. cbn [orb Z.ltb Z.compare].
    eexists. split; [reflexivity|]. split; [exact Hs|]. split; [easy|].
    unfold core_of, exec. dsimpl. rewrite damage_grow. unfold zslice.
    now rewrite (zdrop_nonpos 0), ztake_all by lia.
  - destruct (Himg i x y w h eq_refl) as (Hc & Hw & Hh). unfold drawImage, _damage. drun.
    rewrite src_of_get in *. rewrite Hc, Hw, Hh, !Z.eqb_refl. cbn [negb orb].
    eexists. split; [reflexivity|]. split; [exact Hs|]. split; [easy|].
    unfold core_of, exec. dsimpl. rewrite damage_grow, src_of_get. now rewrite Hw, Hh.
Qed.

(** The queue stops only at an image that is not there yet, and whose load
    event it then waits for, or that has the wrong size. *)
Definition head_blocked (d : display) : Prop :=
  match _renderQ d with
  | [] => True
  | Img i _ _ w h :: _ =>
      let im := get_image i d in
      i_listening im = true \/
      i_complete im = true /\ ~ (img_width (i_src im) = w /\ img_height (i_src im) = h)
  | _ => False
  end.

(** The invariant of the queue between two events, [c] being what the whole
    queue leads to. *)
Record queue_inv (d : display) (c : core) : Prop := {
  qi_style : style_ok d;
  qi_ok : Forall (action_ok (List.length (images d))) (_renderQ d);
  qi_replay : replay (srcs_of d) (_viewportLoc d) (_renderQ d) (core_of d) = c
}.

(** What scanning and image events leave alone. *)
Definition same_frame (d d' : display) : Prop :=
  srcs_of d' = srcs_of d /\ _viewportLoc d' = _viewportLoc d.

Lemma set_image_srcs d i im :
  (i < List.length (images d))%nat -> i_src im = i_src (get_image i d) ->
  srcs_of (set_image i im d) = srcs_of d.
Proof.
  intros Hi Hs. unfold srcs_of, set_image, get_image in *. dsimpl.
  rewrite map_app, map_cons, Hs. rewrite <- (firstn_skipn i (images d)) at 4.
  rewrite map_app. f_equal.
  destruct (skipn i (images d)) as [|x t] eqn:E.
  - apply (f_equal (@List.length _)) in E. rewrite length_skipn in E. cbn in E. lia.
  - rewrite <- (firstn_skipn i (images d)) at 1. rewrite app_nth2; rewrite length_firstn; [|lia].
    replace (i - _)%nat with 0%nat by lia. rewrite E. cbn [nth map]. f_equal.
    replace (S i) with (1 + i)%nat by lia. rewrite <- skipn_skipn, E. reflexivity.
Qed.

Lemma get_set_image d i im :
  (i < List.length (images d))%nat -> get_image i (set_image i im d) = im.
Proof.
  intros Hi. unfold get_image, set_image. dsimpl. rewrite app_nth2; rewrite length_firstn; [|lia].
  now replace (i - _)%nat with 0%nat by lia.
Qed.

Lemma images_length d : List.length (images d) = List.length (srcs_of d).
Proof. unfold srcs_of. now rewrite length_map. Qed.

Lemma set_image_inv d c i im :
  queue_inv d c -> (i < List.length (images d))%nat -> i_src im = i_src (get_image i d) ->
  queue_inv (set_image i im d) c /\ same_frame d (set_image i im d).
Proof.
  intros [] Hi Hs. pose proof (set_image_srcs d i im Hi Hs) as HS.
  split; [|split; [exact HS|reflexivity]]. constructor.
  - exact qi_style0.
  - rewrite images_length, HS, <- images_length. exact qi_ok0.
  - rewrite HS. exact qi_replay0.
Qed.

Lemma scan_loop_spec fuel : forall d c,
  (List.length (_renderQ d) <= fuel)%nat -> queue_inv d c ->
  exists b d', scan_loop fuel d = (Ret b, d') /\ queue_inv d' c /\ same_frame d d' /\ head_blocked d'.
Proof.
  assert (Hdone : forall d c, _renderQ d = [] -> queue_inv d c ->
    exists b d', (Ret true, d) = (Ret b, d') /\ queue_inv d' c /\ same_frame d d' /\ head_blocked d').
  { intros d c Hq Hi. exists true, d. split; [easy|]. split; [easy|]. split; [easy|]. unfold head_blocked. now rewrite Hq. }
  induction fuel as [|fuel IH]; intros d c Hlen Hinv; cbn [scan_loop]; unfold bind at 1, get;
    (destruct (_renderQ d) as [|a q] eqn:Eq; [now apply Hdone|]); [cbn in Hlen; lia|].
  pose proof Hinv as [Hs Hok Hr]. rewrite Eq in Hok, Hr. inversion_clear Hok as [|? ? Ha Hok'].
  assert (Hdraw : (forall i x y w h, a = Img i x y w h -> i_complete (get_image i d) = true /\
       img_width (src_at (srcs_of d) i) = w /\ img_height (src_at (srcs_of d) i) = h) ->
    exists b d', (t <- scan_action a ;;
       match t with Return => ret false | Wait => ret true
       | Continue => modify shift_renderQ ;; scan_loop fuel end) d = (Ret b, d') /\
       queue_inv d' c /\ same_frame d d' /\ head_blocked d').
  { intros Himg. destruct (scan_action_exec d a Hs Ha Himg) as (d1 & H1 & Hs1 & Hsame & Hc1).
    destruct Hsame as (Hq1 & _ & _ & Hv1 & Hi1 & _).
    assert (Hsrc : srcs_of d1 = srcs_of d) by (unfold srcs_of; now rewrite Hi1).
    destruct (IH (shift_renderQ d1) c) as (b & d' & H2 & Hinv' & Hf & Hb).
    - unfold shift_renderQ. dsimpl. rewrite Hq1, Eq. cbn in *. lia.
    - unfold shift_renderQ. constructor; dsimpl; [exact Hs1|rewrite Hi1, Hq1, Eq; exact Hok'|].
      rewrite Hq1, Eq. cbn [tl]. unfold srcs_of. dsimpl. fold (srcs_of d1). rewrite Hsrc, Hv1. unfold core_of. dsimpl.
      fold (core_of d1). rewrite Hc1. exact Hr.
    - exists b, d'. split; [unfold bind; rewrite H1; exact H2|]. split; [exact Hinv'|]. split; [|exact Hb].
      destruct Hf as [Hf1 Hf2]. split; [rewrite Hf1|rewrite Hf2]; assumption. }
  destruct a as [| | | |i x y w h]; try (apply Hdraw; intros; discriminate).
  destruct (i_complete (get_image i d)) eqn:Ec.
  - destruct (negb (img_width (i_src (get_image i d)) =? w) || negb (img_height (i_src (get_image i d)) =? h)) eqn:Ed.
    + exists false, d. cbn [scan_action]. drun. rewrite Ec, Ed. split; [reflexivity|].
      split; [exact Hinv|]. split; [easy|]. unfold head_blocked. rewrite Eq. right. split; [exact Ec|].
      intros [? ?]. apply orb_prop in Ed. destruct Ed; blia.
    + bool_prop. apply Hdraw. intros i' x' y' w' h' Hi. injection Hi as <- <- <- <- <-. rewrite src_of_get. auto.
  - cbn [scan_action]. drun. rewrite Ec. set (im := mkImage _ false true).
    destruct (set_image_inv d c i im Hinv Ha eq_refl) as [Hi' Hf'].
    eexists true, _. split; [reflexivity|]. split; [exact Hi'|]. split; [exact Hf'|].
    unfold head_blocked. dsimpl. rewrite Eq. left. fold (set_image i im d). now rewrite get_set_image.
Qed.

Lemma scan_spec d c :
  queue_inv d c ->
  exists d', _scanRenderQ d = (Ret tt, d') /\ queue_inv d' c /\ same_frame d d' /\ head_blocked d'.
Proof.
  intros Hi. unfold _scanRenderQ. rewrite (bind_run get _ d d d eq_refl).
  destruct (scan_loop_spec (List.length (_renderQ d)) d c (le_n _) Hi) as (b & d1 & H1 & Hi1 & Hf1 & Hb1).
  rewrite (bind_run _ _ _ _ _ H1). destruct b; [|now exists d1]. drun.
  destruct (_renderQ d1) eqn:Eq; [|now exists d1].
  destruct (_flushPromise d1); [|now exists d1].
  eexists. split; [reflexivity|]. split; [|split; [exact Hf1|]].
  - destruct Hi1. constructor; dsimpl; assumption.
  - unfold head_blocked. dsimpl. now rewrite Eq.
Qed.

(** Pushing onto the queue. *)
Lemma push_spec d c a :
  queue_inv d c -> (_renderQ d <> [] -> head_blocked d) -> action_ok (List.length (images d)) a ->
  exists d', _renderQPush a d = (Ret tt, d') /\ queue_inv d' (exec (srcs_of d) (_viewportLoc d) c a) /\
    same_frame d d' /\ head_blocked d'.
Proof.
  intros Hi Hb Ha. unfold _renderQPush. drun.
  assert (Hi' : queue_inv (set_renderQ (_renderQ d ++ [a]) d) (exec (srcs_of d) (_viewportLoc d) c a)).
  { destruct Hi as [Hs Hok Hr]. constructor; dsimpl; [exact Hs| |].
    - apply Forall_app. auto.
    - rewrite <- Hr. unfold replay. rewrite fold_left_app. reflexivity. }
  destruct (_renderQ d) as [|a0 q] eqn:Eq.
  - cbn [app List.length Nat.eqb]. exact (scan_spec _ _ Hi').
  - replace (Nat.eqb (List.length ((a0 :: q) ++ [a])) 1) with false
      by (rewrite length_app; cbn; now rewrite Nat.add_1_r).
    eexists. split; [reflexivity|]. split; [exact Hi'|]. split; [easy|].
    specialize (Hb ltac:(discriminate)). unfold head_blocked in *. dsimpl. rewrite Eq in Hb. exact Hb.
Qed.

(** What can happen to the display: a request of a decoder, or an event of the
    browser concerning an image. *)
Inductive ev :=
| EFlip
| EFill (x y w h : Z) (color : option (list Z))
| ECopy (ox oy x y w h : Z)
| EBlit (x y w h : Z) (arr : view) (offset : Z)
| EImage (x y w h : Z) (mime : string) (arr : list Z)
| EComplete (i : nat)
| ELoad (i : nat).

Definition handle (e : ev) : M display unit :=
  match e with
  | EFlip => flip
  | EFill x y w h color => fillRect x y w h color
  | ECopy ox oy x y w h => copyImage ox oy x y w h
  | EBlit x y w h arr offset => blitImage x y w h arr offset
  | EImage x y w h mime arr => imageRect x y w h mime arr
  | EComplete i => image_complete i
  | ELoad i => _resumeRenderQ i
  end.

(** The bytes a blit is asked to draw. *)
Definition blit_data (w h : Z) (arr : view) (offset : Z) : list Z :=
  zslice (v_buffer arr) (v_offset arr + offset) (v_offset arr + offset + w * h * 4).

(** The drawing an event asks for. *)
Definition request (d : display) (e : ev) : list action :=
  match e with
  | EFlip => [Flip]
  | EFill x y w h color => [Fill x y w h color]
  | ECopy ox oy x y w h => [Copy ox oy x y w h]
  | EBlit x y w h arr offset => [Blit x y w h (blit_data w h arr offset)]
  | EImage x y w h mime arr =>
      if (w =? 0) || (h =? 0) then [] else [Img (List.length (images d)) x y w h]
  | EComplete _ | ELoad _ => []
  end.

(** The drawing the display takes an event for: what is asked, but a blit that
    has to wait is taken with the bytes at the start of its buffer. *)
Definition taken (d : display) (e : ev) : list action :=
  match e with
  | EBlit x y w h arr offset =>
      if queued d then [Blit x y w h (ztake (w * h * 4) (v_buffer arr))] else request d e
  | _ => request d e
  end.

(** Requests that make sense: a colour is given, a blit has its data. *)
Definition ev_ok (d : display) (e : ev) : Prop :=
  match e with
  | EFill _ _ _ _ color => color <> None
  | EBlit _ _ w h arr offset =>
      0 < w /\ 0 < h /\ 0 <= v_offset arr + offset /\
      v_offset arr + offset + w * h * 4 <= zlen (v_buffer arr)
  | EComplete i | ELoad i => (i < List.length (images d))%nat
  | _ => True
  end.

(** A request that is taken as it was asked: any but a blit that has to wait
    and whose bytes are not the first of their buffer. *)
Definition in_place (d : display) (e : ev) : Prop :=
  match e with
  | EBlit _ _ _ _ arr offset => queued d = true -> v_offset arr + offset = 0
  | _ => True
  end.

Lemma taken_in_place d e : in_place d e -> taken d e = request d e.
Proof.
  destruct e; try reflexivity. cbn [in_place taken request]. destruct (queued d); [|reflexivity]. intros Ho.
  unfold blit_data, zslice. rewrite Ho, (zdrop_nonpos 0) by auto || lia. do 3 f_equal. lia.
Qed.

(** [run d0 d hist]: from [d0] some events led to [d], taken for [hist]. *)
Inductive run (d0 : display) : display -> list action -> Prop :=
| run_start : run d0 d0 []
| run_event d hist e d' :
    run d0 d hist -> ev_ok d e -> handle e d = (Ret tt, d') -> run d0 d' (hist ++ taken d e).

(** A display with nothing queued. *)
Definition idle (d : display) : Prop := _renderQ d = [] /\ style_ok d.

Lemma exec_app srcs t vp c a :
  action_ok (List.length srcs) a -> exec (srcs ++ t) vp c a = exec srcs vp c a.
Proof.
  intros Ha. destruct c as [[back target] b], a; try reflexivity. cbn [exec action_ok] in *.
  unfold src_at. now rewrite app_nth1.
Qed.

Lemma replay_app srcs t vp l : forall c,
  Forall (action_ok (List.length srcs)) l -> replay (srcs ++ t) vp l c = replay srcs vp l c.
Proof.
  induction l as [|a l IH]; intros c Hl; [reflexivity|]. inversion_clear Hl. unfold replay in *. cbn [fold_left].
  rewrite exec_app by assumption. now apply IH.
Qed.

Lemma action_ok_mono n m a : (n <= m)%nat -> action_ok n a -> action_ok m a.
Proof. destruct a; cbn; auto. lia. Qed.

Lemma actions_ok_mono n m l : (n <= m)%nat -> Forall (action_ok n) l -> Forall (action_ok m) l.
Proof. intros Hn. apply Forall_impl. intros a. now apply action_ok_mono. Qed.

Lemma get_set_image_ne d i j im :
  (i < List.length (images d))%nat -> i <> j -> get_image j (set_image i im d) = get_image j d.
Proof.
  intros Hi Hne. unfold get_image, set_image. dsimpl. destruct (Nat.lt_ge_cases j i).
  - rewrite app_nth1 by (rewrite length_firstn; lia).
    rewrite <- (firstn_skipn i (images d)) at 2. now rewrite app_nth1 by (rewrite length_firstn; lia).
  - rewrite app_nth2; rewrite length_firstn; [|lia].
    replace (Nat.min i (List.length (images d))) with i by lia.
    destruct (j - i)%nat as [|k] eqn:E; [lia|]. cbn [nth].
    rewrite nth_skipn. f_equal. lia.
Qed.

(** The result of handling an event, in terms of what the queue leads to. *)
Definition handled (d : display) (c : core) (e : ev) (d' : display) : Prop :=
  head_blocked d' /\ _viewportLoc d' = _viewportLoc d /\ (exists t, srcs_of d' = srcs_of d ++ t) /\
  queue_inv d' (replay (srcs_of d') (_viewportLoc d) (taken d e) c) /\
  Forall (action_ok (List.length (images d'))) (taken d e).

(** A request made while the queue is empty is drawn at once. *)
Lemma now_spec d c a (m : M display unit) :
  queue_inv d c -> _renderQ d = [] -> action_ok (List.length (images d)) a ->
  (forall i x y w h, a <> Img i x y w h) ->
  meq (scan_action a) (m ;; ret Continue) ->
  exists d', m d = (Ret tt, d') /\ head_blocked d' /\ same_frame d d' /\ images d' = images d /\
    queue_inv d' (exec (srcs_of d) (_viewportLoc d) c a).
Proof.
  intros [Hs Hok Hr] Hq Ha Hni Hm. rewrite Hq in Hr. cbn in Hr. subst c.
  destruct (scan_action_exec d a Hs Ha) as (d' & H1 & Hs' & Hsame & Hc').
  { intros i x y w h ->. now destruct (Hni i x y w h). }
  rewrite Hm in H1. unfold bind in H1. destruct (m d) as [[[]|e|] d1]; try discriminate. cbn in H1.
  injection H1 as ->. destruct Hsame as (Hq' & _ & _ & Hv' & Hi' & _).
  exists d'. split; [reflexivity|]. split; [unfold head_blocked; now rewrite Hq', Hq|].
  split; [split; [unfold srcs_of; now rewrite Hi'|exact Hv']|]. split; [exact Hi'|].
  constructor; [exact Hs'|rewrite Hq', Hq; constructor|].
  rewrite Hq', Hq, <- Hc'. reflexivity.
Qed.

(** A request other than an image: at once, or through the queue. *)
Lemma request_spec d c e a (m : M display unit) :
  queue_inv d c -> head_blocked d -> taken d e = [a] -> action_ok (List.length (images d)) a ->
  (forall i x y w h, a <> Img i x y w h) ->
  meq (scan_action a) (m ;; ret Continue) ->
  exists d', (if queued d then _renderQPush a else m) d = (Ret tt, d') /\ handled d c e d'.
Proof.
  intros Hi Hb He Ha Hni Hm. unfold handled. rewrite He. unfold queued.
  destruct (_renderQ d) as [|a0 q] eqn:Eq; cbn [List.length Nat.eqb negb].
  - destruct (now_spec d c a m Hi Eq Ha Hni Hm) as (d' & H1 & Hb' & [Hs' Hv'] & Himg & Hi').
    exists d'. split; [exact H1|]. split; [exact Hb'|]. split; [exact Hv'|].
    split; [exists []; now rewrite app_nil_r|]. rewrite Himg, Hs'. split; [exact Hi'|auto].
  - destruct (push_spec d c a Hi (fun _ => Hb) Ha) as (d' & H1 & Hi' & [Hs' Hv'] & Hb').
    exists d'. split; [exact H1|]. split; [exact Hb'|]. split; [exact Hv'|].
    split; [exists []; now rewrite app_nil_r|]. rewrite Hs', images_length, Hs', <- images_length.
    split; [exact Hi'|auto].
Qed.

Lemma blit_now_fresh x y w h arr offset :
  0 < w -> 0 < h -> 0 <= v_offset arr + offset ->
  v_offset arr + offset + w * h * 4 <= zlen (v_buffer arr) ->
  meq (blitImage_now x y w h (fresh_view (blit_data w h arr offset)) 0) (blitImage_now x y w h arr offset).
Proof.
  intros Hw Hh Ho Hl d. unfold blitImage_now. cbn [fresh_view v_buffer v_offset].
  assert (Hz : zlen (blit_data w h arr offset) = w * h * 4) by (unfold blit_data; rewrite zlen_zslice; nia).
  change (0 + 0) with 0. rewrite Hz, !Z.add_0_l, !Z.ltb_irrefl. cbn [orb Z.ltb Z.compare].
  destruct (Z.ltb_spec (v_offset arr + offset) 0); [lia|].
  destruct (Z.ltb_spec (zlen (v_buffer arr)) (v_offset arr + offset + w * h * 4)); [lia|]. cbn [orb].
  destruct ((w <=? 0) || (h <=? 0)); [reflexivity|].
  replace (zslice (blit_data w h arr offset) 0 (w * h * 4)) with (blit_data w h arr offset); [reflexivity|].
  unfold zslice. rewrite zdrop_nonpos, ztake_all; [reflexivity|lia|lia].
Qed.

(** A blit: with its own bytes at once, or in its turn with those at the start
    of its buffer. *)
Lemma blit_spec d c x y w h arr offset :
  queue_inv d c -> head_blocked d -> ev_ok d (EBlit x y w h arr offset) ->
  exists d', blitImage x y w h arr offset d = (Ret tt, d') /\ handled d c (EBlit x y w h arr offset) d'.
Proof.
  intros Hi Hb (Hw & Hh & Ho & Hl). unfold blitImage. rewrite (bind_run get _ d d d eq_refl). destruct (queued d) eqn:Eq.
  - replace ((w * h * 4 <? 0) || (zlen (v_buffer arr) <? w * h * 4)) with false by (symmetry; apply orb_false_intro; apply Z.ltb_ge; nia).
    replace (zslice (v_buffer arr) 0 (w * h * 4)) with (ztake (w * h * 4) (v_buffer arr)) by (unfold zslice; rewrite zdrop_nonpos by lia; f_equal; lia).
    set (a := Blit x y w h (ztake (w * h * 4) (v_buffer arr))).
    destruct (request_spec d c (EBlit x y w h arr offset) a (blitImage_now x y w h (fresh_view (ztake (w * h * 4) (v_buffer arr))) 0)) as (d' & H1 & H2);
      [easy|easy|now cbn [taken]; rewrite Eq| |easy|reflexivity|rewrite Eq in H1; eauto].
    cbn [action_ok a]. rewrite zlen_ztake. nia.
  - set (a := Blit x y w h (blit_data w h arr offset)).
    destruct (request_spec d c (EBlit x y w h arr offset) a (blitImage_now x y w h arr offset)) as (d' & H1 & H2);
      [easy|easy|now cbn [taken]; rewrite Eq| |easy| |rewrite Eq in H1; eauto].
    + cbn [action_ok a]. unfold blit_data. rewrite zlen_zslice; nia.
    + intros d1. cbn [scan_action a]. unfold bind. now rewrite blit_now_fresh.
Qed.

Lemma same_frame_handled d c e d' :
  taken d e = [] -> same_frame d d' -> queue_inv d' c -> head_blocked d' -> handled d c e d'.
Proof.
  intros He [Hs Hv] Hi Hb. unfold handled. rewrite He. split; [exact Hb|]. split; [exact Hv|].
  split; [exists []; now rewrite app_nil_r|]. split; [exact Hi|constructor].
Qed.

Lemma imageRect_spec d c x y w h mime arr :
  queue_inv d c -> head_blocked d ->
  exists d', imageRect x y w h mime arr d = (Ret tt, d') /\ handled d c (EImage x y w h mime arr) d'.
Proof.
  intros Hi Hb. unfold imageRect, handled. cbn [taken request].
  destruct ((w =? 0) || (h =? 0)) eqn:E.
  - exists d. split; [reflexivity|]. split; [exact Hb|]. split; [reflexivity|].
    split; [exists []; now rewrite app_nil_r|]. split; [exact Hi|constructor].
  - rewrite (bind_run get _ d d d eq_refl). cbv zeta. set (im := mkImage _ false false).
    set (d1 := set_images (images d ++ [im]) d).
    rewrite (bind_run (modify (set_images (images d ++ [im]))) _ d tt d1 eq_refl).
    assert (Hs1 : srcs_of d1 = srcs_of d ++ [i_src im]) by (unfold srcs_of, d1; dsimpl; now rewrite map_app).
    assert (Hlen : List.length (images d1) = S (List.length (images d)))
      by (subst d1; dsimpl; rewrite length_app; cbn; lia).
    assert (Hi1 : queue_inv d1 c).
    { destruct Hi as [Hs Hok Hr]. constructor; [exact Hs| |].
      - rewrite Hlen. revert Hok. apply actions_ok_mono. lia.
      - rewrite Hs1. subst d1; dsimpl. rewrite images_length in Hok. now rewrite replay_app. }
    destruct (push_spec d1 c (Img (List.length (images d)) x y w h) Hi1) as (d' & H1 & Hi' & [Hs' Hv'] & Hb').
    { intros _. revert Hb. unfold head_blocked. subst d1. dsimpl.
      destruct (_renderQ d) as [|[| | | |i ? ? ? ?] q] eqn:Eq; auto.
      destruct Hi as [_ Hok _]. rewrite Eq in Hok. inversion_clear Hok. cbn in H0.
      unfold get_image. dsimpl. now rewrite app_nth1. }
    { cbn [action_ok]. rewrite Hlen. lia. }
    exists d'. split; [exact H1|]. split; [exact Hb'|]. split; [exact Hv'|].
    split; [exists [i_src im]; now rewrite Hs'|]. rewrite (images_length d'), Hs', <- (images_length d1), Hlen.
    split; [exact Hi'|]. repeat constructor.
Qed.

Lemma head_blocked_complete d i :
  (i < List.length (images d))%nat -> head_blocked d ->
  head_blocked (set_image i (mkImage (i_src (get_image i d)) true (i_listening (get_image i d))) d).
Proof.
  intros Hi. unfold head_blocked. dsimpl. destruct (_renderQ d) as [|[| | | |j ? ? ? ?] q]; auto.
  match goal with |- context [get_image j ?x] => change x with (set_image i (mkImage (i_src (get_image i d)) true (i_listening (get_image i d))) d) end.
  destruct (Nat.eq_dec i j) as [<-|Hne].
  - rewrite get_set_image by assumption. cbn. intuition.
  - now rewrite get_set_image_ne.
Qed.

(** Every event is handled without an error and keeps the invariant. *)
Lemma handle_spec d c e :
  queue_inv d c -> head_blocked d -> ev_ok d e -> exists d', handle e d = (Ret tt, d') /\ handled d c e d'.
Proof.
  intros Hi Hb He. destruct e as [|x y w h color|ox oy x y w h|x y w h arr offset|x y w h mime arr|i|i]; cbn [handle ev_ok] in *.
  - apply (request_spec d c EFlip Flip flip_now); easy.
  - apply (request_spec d c (EFill x y w h color) (Fill x y w h color) (fillRect_now x y w h color)); easy.
  - apply (request_spec d c (ECopy ox oy x y w h) (Copy ox oy x y w h) (copyImage_now ox oy x y w h)); easy.
  - now apply blit_spec.
  - now apply imageRect_spec.
  - unfold image_complete. drun. eexists. split; [reflexivity|].
    destruct (set_image_inv d c i (mkImage (i_src (get_image i d)) true (i_listening (get_image i d))) Hi He eq_refl) as [Hi' Hf'].
    apply same_frame_handled; auto. now apply head_blocked_complete.
  - unfold _resumeRenderQ. drun. destruct (i_listening (get_image i d)) eqn:El.
    + destruct (set_image_inv d c i (mkImage (i_src (get_image i d)) (i_complete (get_image i d)) false) Hi He eq_refl) as [Hi1 Hf1].
      destruct (scan_spec _ c Hi1) as (d' & H1 & Hi' & Hf' & Hb'). exists d'. split; [exact H1|].
      destruct Hf1, Hf'. apply same_frame_handled; auto. split; congruence.
    + exists d. split; [reflexivity|]. now apply same_frame_handled.
Qed.

Lemma run_spec d0 d hist :
  idle d0 -> run d0 d hist ->
  _viewportLoc d = _viewportLoc d0 /\ head_blocked d /\ Forall (action_ok (List.length (images d))) hist /\
  queue_inv d (replay (srcs_of d) (_viewportLoc d0) hist (core_of d0)).
Proof.
  intros [Hq Hs]. induction 1 as [|d hist e d' Hrun (Hv & Hb & Hok & Hi) He H1].
  - split; [reflexivity|]. split; [unfold head_blocked; now rewrite Hq|]. split; [constructor|].
    constructor; [exact Hs|rewrite Hq; constructor|]. now rewrite Hq.
  - destruct (handle_spec d _ e Hi Hb He) as (d1 & H1' & Hb' & Hv' & (t & Ht) & Hi' & Hok').
    rewrite H1 in H1'. injection H1' as <-. split; [congruence|]. split; [exact Hb'|]. split.
    + apply Forall_app. split; [|exact Hok']. revert Hok. apply actions_ok_mono.
      rewrite !images_length, Ht, length_app. lia.
    + replace (replay (srcs_of d') (_viewportLoc d0) (hist ++ taken d e) (core_of d0))
        with (replay (srcs_of d') (_viewportLoc d) (taken d e) (replay (srcs_of d) (_viewportLoc d0) hist (core_of d0)));
        [exact Hi'|].
      unfold replay at 3. rewrite fold_left_app. rewrite Hv. unfold replay at 1. f_equal.
      rewrite Ht. symmetry. apply replay_app. now rewrite <- images_length.
Qed.

(** C3.  Whatever the order in which images load, what the display has drawn
    followed by what it has queued is the sequence of the requests, in order:
    nothing is drawn early, twice or never.  In particular, once the queue is
    empty the canvases and the damaged area are those of drawing every request
    at once.  Every request is taken as it was asked, but a blit that has to
    wait: that one is taken with the bytes at the start of its buffer. *)
Theorem draws_in_order (d0 d : display) (hist : list action) :
  idle d0 -> run d0 d hist ->
  let vp := _viewportLoc d0 in
  replay (srcs_of d) vp (_renderQ d) (core_of d) = replay (srcs_of d) vp hist (core_of d0) /\
  (pending d = false -> core_of d = replay (srcs_of d) vp hist (core_of d0)) /\
  (forall e, ev_ok d e -> exists d', handle e d = (Ret tt, d') /\ run d0 d' (hist ++ taken d e) /\
     (in_place d e -> taken d e = request d e)).
Proof.
  intros Hd Hrun vp. destruct (run_spec d0 d hist Hd Hrun) as (Hv & Hb & Hok & Hi). pose proof Hi as [Hs Hq Hr].
  rewrite Hv in Hr. subst vp. split; [exact Hr|]. split.
  - intros Hp. rewrite <- Hr. unfold pending, queued in Hp. destruct (_renderQ d); [reflexivity|discriminate].
  - intros e He. destruct (handle_spec d _ e Hi Hb He) as (d' & H1 & _). exists d'. split; [exact H1|].
    split; [econstructor; eauto|apply taken_in_place].
Qed.

(** C14.  The queue does not block: when the load event of every image has been
    handled, so that no image is listened to, and the queued images have the
    announced size, the queue is empty. *)
Theorem queue_drains (d0 d : display) (hist : list action) :
  idle d0 -> run d0 d hist ->
  (forall i, i_listening (get_image i d) = false) ->
  (forall i x y w h, In (Img i x y w h) (_renderQ d) ->
     img_width (src_at (srcs_of d) i) = w /\ img_height (src_at (srcs_of d) i) = h) ->
  pending d = false.
Proof.
  intros Hd Hrun Hl Hsz. destruct (run_spec d0 d hist Hd Hrun) as (_ & Hb & _ & _).
  unfold pending, queued, head_blocked in *.
  destruct (_renderQ d) as [|[| | | |i x y w h] q] eqn:Eq; try easy.
  destruct Hb as [Hb|[_ Hb]]; [rewrite Hl in Hb; discriminate|].
  specialize (Hsz i x y w h (or_introl eq_refl)). rewrite src_of_get in Hsz. easy.
Qed.

(** * Flipping shows the damaged part of the viewport *)

Definition in_bounds (b : bounds) (px py : Z) : Prop := left b <= px < right b /\ top b <= py < bottom b.
Definition in_loc (vp : loc) (px py : Z) : Prop :=
  l_x vp <= px < l_x vp + l_w vp /\ l_y vp <= py < l_y vp + l_h vp.

(** The rectangle a flip copies to the visible canvas is exactly the
    intersection of the damaged area and the viewport, and it lands where the
    viewport shows it; nothing is copied when the two do not meet. *)
Lemma flip_rect_spec (b : bounds) (vp : loc) (px py : Z) :
  let '(x, y, w, h, vx, vy) := flip_rect b vp in
  (in_bounds b px py /\ in_loc vp px py <->
   ((0 <? w) && (0 <? h) = true /\ x <= px < x + w /\ y <= py < y + h)) /\
  vx = x - l_x vp /\ vy = y - l_y vp.
Proof.
  unfold flip_rect, in_bounds, in_loc.
  destruct (Z.ltb_spec (left b - l_x vp) 0), (Z.ltb_spec (top b - l_y vp) 0); cbv beta iota zeta;
    rewrite andb_true_iff, !Z.ltb_lt;
    repeat match goal with |- context [if ?a <? ?c then _ else _] => destruct (Z.ltb_spec a c) end; lia.
Qed.

Lemma damage_spec d x y w h :
  _damage x y w h d = (Ret tt, set_damageBounds (grow (_damageBounds d) x y w h) d).
Proof. unfold _damage. drun. now rewrite damage_grow. Qed.

(** The damage reported by a sequence of draws. *)
Fixpoint damage_all (rects : list loc) : M display unit :=
  match rects with
  | [] => ret tt
  | r :: rects => _damage (l_x r) (l_y r) (l_w r) (l_h r) ;; damage_all rects
  end.

Definition drawn (b0 : bounds) (rects : list loc) (px py : Z) : Prop :=
  in_bounds b0 px py \/ exists r, In r rects /\ in_loc r px py.

Lemma damage_all_spec rects : forall d, exists b,
  damage_all rects d = (Ret tt, set_damageBounds b d) /\
  forall px py, drawn (_damageBounds d) rects px py -> 0 <= px <= 65535 -> 0 <= py <= 65535 -> in_bounds b px py.
Proof.
  induction rects as [|r rects IH]; intros d; cbn [damage_all].
  - exists (_damageBounds d). split; [now destruct d|]. intros px py [Hb|(r & [] & _)]; auto.
  - rewrite (bind_run _ _ _ _ _ (damage_spec d _ _ _ _)).
    destruct (IH (set_damageBounds (grow (_damageBounds d) (l_x r) (l_y r) (l_w r) (l_h r)) d)) as (b & H1 & Hd).
    exists b. split; [exact H1|]. intros px py Hp Hx Hy. dsimpl. apply Hd; auto.
    destruct Hp as [Hp|(r' & [<-|Hin] & Hp)]; [left|left|right; eauto];
      unfold in_bounds, in_loc, grow in *; cbn [left top right bottom]; lia.
Qed.

(** No update is lost: after any number of draws since the last flip, the
    next flip copies a rectangle of the hidden canvas that contains every
    point drawn that the viewport shows, to the place where the viewport shows
    it, and clears the damage. *)
Theorem flip_shows_all (d : display) (rects : list loc) (r : loc) (px py : Z) :
  In r rects -> in_loc r px py -> 0 <= px <= 65535 -> 0 <= py <= 65535 ->
  in_loc (_viewportLoc d) px py ->
  exists d' x y w h vx vy,
    (damage_all rects ;; flip_now) d = (Ret tt, d') /\
    _target d' = cv_drawCanvas (_backbuffer d) x y w h vx vy (_target d) /\
    x <= px < x + w /\ y <= py < y + h /\ vx = x - l_x (_viewportLoc d) /\
    vy = y - l_y (_viewportLoc d) /\ _damageBounds d' = Bounds 65535 65535 0 0.
Proof.
  intros Hin Hr Hx Hy Hv. destruct (damage_all_spec rects d) as (b & H1 & Hb).
  specialize (Hb px py (or_intror (ex_intro _ r (conj Hin Hr))) Hx Hy).
  rewrite (bind_run _ _ _ _ _ H1). unfold flip_now. drun.
  pose proof (flip_rect_spec b (_viewportLoc d) px py) as HI.
  destruct (flip_rect b (_viewportLoc d)) as [[[[[x y] w] h] vx] vy].
  destruct HI as ((HI & _) & -> & ->). destruct (HI (conj Hb Hv)) as (-> & Hpx & Hpy).
  eexists _, x, y, w, h, _, _. split; [reflexivity|]. dsimpl. repeat split; easy.
Qed.

(** * The viewport stays inside the framebuffer *)

Record vp_ok (d : display) : Prop := {
  vp_x : 0 <= l_x (_viewportLoc d);
  vp_y : 0 <= l_y (_viewportLoc d);
  vp_w : 0 <= l_w (_viewportLoc d);
  vp_h : 0 <= l_h (_viewportLoc d);
  vp_right : l_x (_viewportLoc d) + l_w (_viewportLoc d) <= _fbWidth d;
  vp_bottom : l_y (_viewportLoc d) + l_h (_viewportLoc d) <= _fbHeight d;
  vp_whole : _clipViewport d = false ->
    _viewportLoc d = Loc 0 0 (_fbWidth d) (_fbHeight d)
}.

(** The geometry of two states is the same. *)
Definition same_geometry (d d' : display) : Prop :=
  _viewportLoc d' = _viewportLoc d /\ _fbWidth d' = _fbWidth d /\ _fbHeight d' = _fbHeight d /\
  _clipViewport d' = _clipViewport d.

Lemma flip_geometry d : exists d', flip d = (Ret tt, d') /\ same_geometry d d'.
Proof.
  unfold flip, queued. drun. destruct (_renderQ d) as [|a q] eqn:Eq; cbn [List.length Nat.eqb negb].
  - unfold flip_now. drun. destruct (flip_rect _ _) as [[[[[x y] w] h] vx] vy].
    destruct ((0 <? w) && (0 <? h)); eexists; (split; [reflexivity|]); easy.
  - unfold _renderQPush. drun. rewrite Eq. cbn [app List.length].
    replace (Nat.eqb (S (List.length (q ++ [Flip]))) 1) with false
      by (rewrite length_app; cbn; now rewrite Nat.add_1_r).
    eexists. split; [reflexivity|]. easy.
Qed.

(** The size fits, whatever the position. *)
Record vp_sized (d : display) : Prop := {
  vs_x : 0 <= l_x (_viewportLoc d);
  vs_y : 0 <= l_y (_viewportLoc d);
  vs_w : 0 <= l_w (_viewportLoc d) <= _fbWidth d;
  vs_h : 0 <= l_h (_viewportLoc d) <= _fbHeight d;
  vs_whole : _clipViewport d = false ->
    l_w (_viewportLoc d) = _fbWidth d /\ l_h (_viewportLoc d) = _fbHeight d
}.

Lemma vp_ok_sized d : vp_ok d -> vp_sized d.
Proof. intros []. constructor; try lia. intros E. rewrite (vp_whole0 E). easy. Qed.

Lemma changePos_spec d dx dy :
  vp_sized d ->
  exists d', viewportChangePos dx dy d = (Ret tt, d') /\ vp_ok d' /\
    _fbWidth d' = _fbWidth d /\ _fbHeight d' = _fbHeight d /\ _clipViewport d' = _clipViewport d.
Proof.
  intros []. unfold viewportChangePos. rewrite (bind_run get _ d d d eq_refl). cbv zeta.
  set (dxy := if negb (_clipViewport d) then _ else _).
  assert (Hd : _clipViewport d = false -> dxy = (- l_w (_viewportLoc d), - l_h (_viewportLoc d))).
  { intros E. unfold dxy. now rewrite E. }
  destruct dxy as [zx zy]. destruct (_viewportLoc d) as [x y w h] eqn:Ev. cbn [l_x l_y l_w l_h] in *.
  set (x1 := if (zx <? 0) && (x + zx <? 0) then - x else zx).
  set (x2 := if _fbWidth d <=? x + w - 1 + x1 then _ else x1).
  set (y1 := if y + zy <? 0 then - y else zy).
  set (y2 := if _fbHeight d <=? y + h - 1 + y1 then _ else y1).
  assert (Hx : 0 <= x + x2 /\ x + x2 + w <= _fbWidth d /\ (_clipViewport d = false -> x + x2 = 0)).
  { subst x2 x1. destruct (Z.ltb_spec zx 0), (Z.ltb_spec (x + zx) 0); cbn [andb];
      (destruct (Z.leb_spec (_fbWidth d) (x + w - 1 + zx)) || idtac);
      repeat match goal with |- context [?a <=? ?c] => destruct (Z.leb_spec a c) end;
      (split; [lia|split; [lia|intros E; specialize (Hd E); injection Hd as -> ->; specialize (vs_whole0 E); lia]]). }
  assert (Hy : 0 <= y + y2 /\ y + y2 + h <= _fbHeight d /\ (_clipViewport d = false -> y + y2 = 0)).
  { subst y2 y1. destruct (Z.ltb_spec (y + zy) 0);
      repeat match goal with |- context [?a <=? ?c] => destruct (Z.leb_spec a c) end;
      (split; [lia|split; [lia|intros E; specialize (Hd E); injection Hd as -> ->; specialize (vs_whole0 E); lia]]). }
  assert (Hok : vp_ok (set_viewportLoc (Loc (x + x2) (y + y2) w h) d)).
  { constructor; dsimpl; cbn [l_x l_y l_w l_h]; try lia. intros E. specialize (vs_whole0 E). f_equal; try lia. }
  destruct ((x2 =? 0) && (y2 =? 0)) eqn:Ez.
  - bool_prop. exists d. split; [reflexivity|]. split; [|easy]. rewrite H0, H1, !Z.add_0_r, <- Ev in Hok.
    now destruct d.
  - unfold bind at 1, modify at 1. rewrite (bind_run _ _ _ _ _ (damage_spec _ _ _ _ _)).
    destruct (flip_geometry (set_damageBounds (grow (_damageBounds (set_viewportLoc (Loc (x + x2) (y + y2) w h) d))
      (x + x2) (y + y2) w h) (set_viewportLoc (Loc (x + x2) (y + y2) w h) d))) as (d' & H1 & Hv & Hw & Hh & Hc).
    dsimpl. exists d'. split; [exact H1|]. split; [|easy].
    destruct Hok. constructor; rewrite ?Hv, ?Hw, ?Hh, ?Hc; assumption.
Qed.

Lemma rescale_geometry d f : exists d', _rescale f d = (Ret tt, d') /\ same_geometry d d'.
Proof.
  unfold _rescale. drun. destruct (targetStyle d) as [[sw sh]|]; [case_if|];
    eexists; (split; [reflexivity|]); easy.
Qed.

Lemma vp_ok_geometry d d' : same_geometry d d' -> vp_ok d -> vp_ok d'.
Proof. intros (Hv & Hw & Hh & Hc) []. constructor; rewrite ?Hv, ?Hw, ?Hh, ?Hc; assumption. Qed.

(** The position may be anything; the size is set, then both fit. *)
Lemma changeSize_spec d w h :
  0 <= l_x (_viewportLoc d) -> 0 <= l_y (_viewportLoc d) -> 0 <= _fbWidth d -> 0 <= _fbHeight d ->
  (forall q, w = Some q \/ h = Some q -> 0 <= Qfloor q) ->
  exists d', viewportChangeSize w h d = (Ret tt, d') /\ vp_sized d' /\ (vp_ok d -> vp_ok d') /\
    _fbWidth d' = _fbWidth d /\ _fbHeight d' = _fbHeight d /\ _clipViewport d' = _clipViewport d.
Proof.
  intros Hx Hy Hfw Hfh Hq. unfold viewportChangeSize. rewrite (bind_run get _ d d d eq_refl). cbv zeta.
  set (wh := match w with Some _ => _ | None => _ end).
  assert (Hwh : 0 <= fst wh /\ 0 <= snd wh /\ (_clipViewport d = false -> wh = (_fbWidth d, _fbHeight d))).
  { subst wh. destruct w as [w|], h as [h|]; cbn [fst snd]; auto.
    destruct (_clipViewport d); cbn [negb fst snd]; [|auto].
    repeat split; try (apply Hq; auto). discriminate. }
  destruct wh as [w1 h1]. cbn [fst snd] in Hwh. destruct Hwh as (Hw1 & Hh1 & Hc1).
  set (w2 := if _fbWidth d <? w1 then _ else w1). set (h2 := if _fbHeight d <? h1 then _ else h1).
  assert (Hw2 : 0 <= w2 <= _fbWidth d) by (subst w2; case_if; blia).
  assert (Hh2 : 0 <= h2 <= _fbHeight d) by (subst h2; case_if; blia).
  assert (Hc2 : _clipViewport d = false -> w2 = _fbWidth d /\ h2 = _fbHeight d).
  { intros E. specialize (Hc1 E). injection Hc1 as -> ->. subst w2 h2. rewrite !Z.ltb_irrefl. auto. }
  destruct (negb (l_w (_viewportLoc d) =? w2) || negb (l_h (_viewportLoc d) =? h2)) eqn:E.
  - unfold bind at 1 2, modify at 1 2.
    set (d1 := set_target _ _).
    assert (Hs1 : vp_sized d1) by (subst d1; constructor; dsimpl; cbn [l_x l_y l_w l_h]; assumption).
    destruct (changePos_spec d1 0 0 Hs1) as (d2 & H2 & Hok2 & Hfw2 & Hfh2 & Hcl2).
    rewrite (bind_run _ _ _ _ _ H2), (bind_run get _ d2 d2 d2 eq_refl).
    rewrite (bind_run _ _ _ _ _ (damage_spec _ _ _ _ _)).
    match goal with |- context [bind flip _ ?x] => destruct (flip_geometry x) as (d3 & H3 & Hg3) end.
    rewrite (bind_run _ _ _ _ _ H3), (bind_run get _ d3 d3 d3 eq_refl).
    destruct (rescale_geometry d3 (_scale d3)) as (d4 & H4 & Hg4).
    exists d4. split; [exact H4|].
    assert (Hok4 : vp_ok d4) by (eapply vp_ok_geometry; [exact Hg4|]; eapply vp_ok_geometry; [exact Hg3|];
      eapply vp_ok_geometry; [|exact Hok2]; easy).
    destruct Hg3 as (_ & ? & ? & ?), Hg4 as (_ & ? & ? & ?). subst d1. dsimpl.
    split; [now apply vp_ok_sized|]. split; [auto|]. split; [congruence|split; congruence].
  - bool_prop. exists d. split; [reflexivity|]. split; [|easy].
    constructor; try lia. intros Ec. specialize (Hc2 Ec). lia.
Qed.

Lemma Qfloor_inject z : Qfloor (inject_Z z) = z.
Proof. apply Qfloor_Z. Qed.

(** Setting the size to itself, then moving by nothing: what the setters do
    last. *)
Lemma readjust_spec d :
  0 <= l_x (_viewportLoc d) -> 0 <= l_y (_viewportLoc d) -> 0 <= l_w (_viewportLoc d) ->
  0 <= l_h (_viewportLoc d) -> 0 <= _fbWidth d -> 0 <= _fbHeight d ->
  exists d', (changeSizeZ (l_w (_viewportLoc d)) (l_h (_viewportLoc d)) ;; viewportChangePos 0 0) d = (Ret tt, d') /\
    vp_ok d' /\ _fbWidth d' = _fbWidth d /\ _fbHeight d' = _fbHeight d /\ _clipViewport d' = _clipViewport d.
Proof.
  intros Hx Hy Hw Hh Hfw Hfh.
  destruct (changeSize_spec d (Some (inject_Z (l_w (_viewportLoc d)))) (Some (inject_Z (l_h (_viewportLoc d)))))
    as (d1 & H1 & Hs1 & _ & Hfw1 & Hfh1 & Hc1); auto.
  { intros q [Hq|Hq]; injection Hq as <-; now rewrite Qfloor_inject. }
  unfold changeSizeZ. rewrite (bind_run _ _ _ _ _ H1).
  destruct (changePos_spec d1 0 0 Hs1) as (d2 & H2 & Hok2 & Hfw2 & Hfh2 & Hc2).
  exists d2. split; [exact H2|]. split; [exact Hok2|]. split; [congruence|split; congruence].
Qed.

Lemma resize_spec d width height :
  0 <= l_x (_viewportLoc d) -> 0 <= l_y (_viewportLoc d) -> 0 <= l_w (_viewportLoc d) ->
  0 <= l_h (_viewportLoc d) -> 0 <= width -> 0 <= height ->
  exists d', resize width height d = (Ret tt, d') /\ vp_ok d' /\ _fbWidth d' = width /\ _fbHeight d' = height.
Proof.
  intros Hx Hy Hw Hh Hfw Hfh. unfold resize. unfold bind at 1 2 3 4, modify at 1 2 3, get at 1. dsimpl. cbv zeta.
  match goal with |- context [bind ?m _ ?d1] =>
    assert (Hm : exists d2, m d1 = (Ret tt, d2) /\ _viewportLoc d2 = _viewportLoc d /\
      _fbWidth d2 = width /\ _fbHeight d2 = height) end.
  { destruct (negb (cv_width (_backbuffer d) =? width)), (negb (cv_height (_backbuffer d) =? height)),
      ((0 <? cv_width (_backbuffer d)) && (0 <? cv_height (_backbuffer d)));
      eexists; (split; [reflexivity|]); easy. }
  destruct Hm as (d2 & H2 & Hv2 & Hw2 & Hh2). rewrite (bind_run _ _ _ _ _ H2), (bind_run get _ d2 d2 d2 eq_refl).
  destruct (readjust_spec d2) as (d3 & H3 & Hok3 & Hw3 & Hh3 & _); rewrite ?Hv2, ?Hw2, ?Hh2; auto.
  exists d3. split; [rewrite <- Hv2; exact H3|]. split; [exact Hok3|]. split; congruence.
Qed.

(** The operations on the geometry. *)
Inductive vpop :=
| VPos (dx dy : Q)
| VSize (w h : option Q)
| VClip (clip : bool)
| VResize (w h : Z).

Definition vp_run (op : vpop) : M display unit :=
  match op with
  | VPos dx dy => viewportChangePos dx dy
  | VSize w h => viewportChangeSize w h
  | VClip clip => set_clipViewport_prop clip
  | VResize w h => resize w h
  end.

Definition vpop_ok (op : vpop) : Prop :=
  match op with
  | VSize w h => forall q, w = Some q \/ h = Some q -> (0 <= q)%Q
  | VResize w h => 0 <= w /\ 0 <= h
  | _ => True
  end.

(** C15.  The viewport stays inside the framebuffer, and is the whole of it when
    clipping is off, whatever the moves, size changes, clipping changes and
    framebuffer resizes; none of them fails. *)
Theorem viewport_inside (d : display) (op : vpop) :
  vp_ok d -> vpop_ok op -> exists d', vp_run op d = (Ret tt, d') /\ vp_ok d'.
Proof.
  intros Hok Hop. pose proof Hok as []. destruct op as [dx dy|w h|clip|w h]; cbn [vp_run vpop_ok] in *.
  - destruct (changePos_spec d dx dy (vp_ok_sized d Hok)) as (d' & H1 & Hok' & _). eauto.
  - destruct (changeSize_spec d w h) as (d' & H1 & _ & Hok' & _); auto; try lia; [|eauto].
    intros q Hq. apply Hop in Hq. apply Qfloor_resp_le in Hq. exact Hq.
  - unfold set_clipViewport_prop. unfold bind at 1 2, modify at 1, get at 1.
    destruct (readjust_spec (set_clipViewport clip d)) as (d' & H1 & Hok' & _); dsimpl; auto; try lia. eauto.
  - destruct (resize_spec d w h) as (d' & H1 & Hok' & _); auto; try lia. eauto.
Qed.

(** A resize puts the viewport inside the new framebuffer from any
    position, in particular from that of a new display. *)
Theorem resize_fits (d : display) (width height : Z) :
  0 <= l_x (_viewportLoc d) -> 0 <= l_y (_viewportLoc d) ->
  0 <= l_w (_viewportLoc d) -> 0 <= l_h (_viewportLoc d) -> 0 <= width -> 0 <= height ->
  exists d', resize width height d = (Ret tt, d') /\ vp_ok d' /\ _fbWidth d' = width /\ _fbHeight d' = height.
Proof. apply resize_spec. Qed.

(** * Scaling *)

Lemma Qcross a b c e : (0 < b -> 0 < e -> a / b <= c / e -> a * e <= c * b)%Q.
Proof.
  intros Hb He Hle. apply (Qmult_le_compat_r _ _ (b * e)) in Hle.
  - setoid_replace (a / b * (b * e))%Q with (a * e)%Q in Hle by (field; intros E; rewrite E in Hb; now apply Qlt_irrefl in Hb).
    setoid_replace (c / e * (b * e))%Q with (c * b)%Q in Hle by (field; intros E; rewrite E in He; now apply Qlt_irrefl in He).
    exact Hle.
  - apply Qlt_le_weak, Qmult_lt_0_compat; assumption.
Qed.

Lemma Qfit a b w h : (0 < w -> a * h <= b * w -> a / w * h <= b)%Q.
Proof.
  intros Hw Hle. apply (Qmult_lt_0_le_reg_r _ _ w Hw).
  setoid_replace (a / w * h * w)%Q with (a * h)%Q by (field; intros E; rewrite E in Hw; now apply Qlt_irrefl in Hw).
  exact Hle.
Qed.

Lemma rescale_scale d f : exists d', _rescale f d = (Ret tt, d') /\ _scale d' = f.
Proof.
  unfold _rescale. drun. destruct (targetStyle d) as [[sw sh]|]; [case_if|];
    eexists; (split; [reflexivity|]); easy.
Qed.

(** Autoscaling picks the largest scale at which the viewport fits in the
    container: both sides fit, and one of them exactly. *)
Theorem autoscale_fits (d : display) (cw ch : Q) :
  let w := inject_Z (l_w (_viewportLoc d)) in
  let h := inject_Z (l_h (_viewportLoc d)) in
  (0 < cw)%Q -> (0 < ch)%Q -> 0 < l_w (_viewportLoc d) -> 0 < l_h (_viewportLoc d) ->
  exists d', autoscale cw ch d = (Ret tt, d') /\
    (_scale d' * w <= cw)%Q /\ (_scale d' * h <= ch)%Q /\
    (_scale d' * w == cw \/ _scale d' * h == ch)%Q.
Proof.
  intros w h Hcw Hch Hw0 Hh0.
  assert (Hw : (0 < w)%Q) by (unfold w, Qlt; cbn; lia).
  assert (Hh : (0 < h)%Q) by (unfold h, Qlt; cbn; lia).
  assert (Hz : forall q, (0 < q)%Q -> Qeq_bool q 0 = false).
  { intros q Hq. apply not_true_iff_false. rewrite Qeq_bool_iff. intros E. rewrite E in Hq. now apply Qlt_irrefl in Hq. }
  assert (Hex : forall a q, (0 < q)%Q -> (a / q * q == a)%Q).
  { intros a q Hq. field. intros E. rewrite E in Hq. now apply Qlt_irrefl in Hq. }
  unfold autoscale. rewrite (bind_run get _ d d d eq_refl). cbv zeta. fold w h. rewrite !Hz by assumption. cbn [orb].
  destruct (Qle_bool (cw / ch) (w / h)) eqn:E.
  - apply Qle_bool_iff, Qcross in E; [|assumption..].
    destruct (rescale_scale d (cw / w)%Q) as (d' & H1 & Hs). exists d'. split; [exact H1|]. rewrite Hs.
    split; [rewrite Hex by assumption; apply Qle_refl|]. split; [|left; now apply Hex].
    apply Qfit; [assumption|]. rewrite (Qmult_comm ch). exact E.
  - assert (E' : (w / h <= cw / ch)%Q).
    { apply Qlt_le_weak, Qnot_le_lt. intros E'. apply Qle_bool_iff in E'. congruence. }
    apply Qcross in E'; [|assumption..].
    destruct (rescale_scale d (ch / h)%Q) as (d' & H1 & Hs). exists d'. split; [exact H1|]. rewrite Hs.
    split; [|split; [rewrite Hex by assumption; apply Qle_refl|right; now apply Hex]].
    apply Qfit; [assumption|]. rewrite (Qmult_comm ch). exact E'.
Qed.

(** * A blit through the queue *)

(** With the queue in use, a blit from a view that does not start its
    buffer queues other bytes than the view's: those at the start of the
    buffer. *)
Theorem queued_blit_reads_buffer_start (d : display) (x y w h : Z) (arr : view) (offset : Z) :
  _renderQ d <> [] -> 0 <= w * h -> w * h * 4 <= zlen (v_buffer arr) ->
  exists d', blitImage x y w h arr offset d = (Ret tt, d') /\
    _renderQ d' = _renderQ d ++ [Blit x y w h (ztake (w * h * 4) (v_buffer arr))].
Proof.
  intros Hq Hwh Hn. unfold blitImage, queued. drun.
  destruct (_renderQ d) as [|a q] eqn:Eq; [easy|]. cbn [List.length Nat.eqb negb].
  destruct (Z.ltb_spec (w * h * 4) 0), (Z.ltb_spec (zlen (v_buffer arr)) (w * h * 4)); try lia. cbn [orb].
  unfold _renderQPush. drun. rewrite Eq. cbn [app List.length].
  replace (Nat.eqb _ 1) with false by (rewrite length_app; cbn; now rewrite Nat.add_1_r).
  eexists. split; [reflexivity|]. dsimpl. unfold zslice. now rewrite zdrop_nonpos, Z.sub_0_r by lia.
Qed.

#[export] Instance display_renderer : Renderer display := {
  Display.fillRect := fillRect;
  Display.copyImage := copyImage;
  Display.imageRect := imageRect;
  Display.blitImage := blitImage
}.

End Display.

(** * A canvas that records what is drawn on it, and runs on it *)

Inductive mark :=
| MFill (st : style) (x y w h : Z)
| MPut (data : list Z) (w h x y : Z)
| MCanvas (marks : nat) (sx sy w h dx dy : Z)
| MImage (src : imgsrc) (x y : Z).

Record paper := Paper { p_w : Z; p_h : Z; p_marks : list mark }.

Definition mark_on (m : mark) (p : paper) : paper := Paper (p_w p) (p_h p) (p_marks p ++ [m]).

#[export] Instance paper_canvas : Canvas paper := {
  cv_width := p_w;
  cv_height := p_h;
  cv_setWidth w p := Paper w (p_h p) [];
  cv_setHeight h p := Paper (p_w p) h [];
  cv_fillRect st x y w h := mark_on (MFill st x y w h);
  cv_putImageData data w h x y := mark_on (MPut data w h x y);
  cv_getImageData p x y w h := zrep (w * h * 4) 0;
  cv_drawCanvas src sx sy w h dx dy := mark_on (MCanvas (List.length (p_marks src)) sx sy w h dx dy);
  cv_drawImage src x y := mark_on (MImage src x y);
  img_width _ := 8;
  img_height _ := 8
}.

Definition blank : display := constructor (Paper 10 10 []) (Paper 10 10 []).

(** An image, then a fill and a flip that wait for it, then its load. *)
Definition demo_events : list ev :=
  [EImage 0 0 8 8 "image/jpeg"%string [1; 2; 3]; EFill 1 1 2 2 (Some [9; 8; 7; 255]); EFlip; EComplete 0; ELoad 0].

Fixpoint handle_all (es : list ev) (d : display) : display :=
  match es with [] => d | e :: es => handle_all es (snd (handle e d)) end.

Definition demo_hist : list action :=
  [Img 0 0 0 8 8; Fill 1 1 2 2 (Some [9; 8; 7; 255]); Flip].

Fixpoint hist_of (es : list ev) (d : display) : list action :=
  match es with [] => [] | e :: es => taken d e ++ hist_of es (snd (handle e d)) end.

Fixpoint all_ok (es : list ev) (d : display) : Prop :=
  match es with
  | [] => True
  | e :: es => ev_ok d e /\ fst (handle e d) = Ret tt /\ all_ok es (snd (handle e d))
  end.

Lemma run_all d0 es : forall d hist,
  run d0 d hist -> all_ok es d -> run d0 (handle_all es d) (hist ++ hist_of es d).
Proof.
  induction es as [|e es IH]; intros d hist Hr Hok; cbn [handle_all hist_of all_ok] in *.
  - now rewrite app_nil_r.
  - destruct Hok as (He & H1 & Hok). rewrite app_assoc. apply IH; [|exact Hok].
    apply (run_event d0 d hist e); auto. destruct (handle e d) as [o d']. cbn in *. now subst.
Qed.

Lemma demo_run : run blank (handle_all demo_events blank) demo_hist.
Proof.
  apply (run_all blank demo_events blank [] (run_start blank)). vm_compute.
  repeat split; try discriminate; repeat constructor.
Defined.

Lemma demo_run1 : run blank (handle_all (firstn 1 demo_events) blank) [Img 0 0 0 8 8].
Proof.
  apply (run_all blank (firstn 1 demo_events) blank [] (run_start blank)). vm_compute. repeat split.
Defined.

Lemma blank_idle : idle blank.
Proof. split; [reflexivity|exact I]. Defined.

Lemma draws_in_order_witness : exists d,
  run blank d demo_hist /\ pending d = false /\
  core_of d = replay (srcs_of d) (_viewportLoc blank) demo_hist (core_of blank) /\
  List.length (p_marks (_backbuffer d)) = 2%nat.
Proof.
  pose proof demo_run as H.
  exists (handle_all demo_events blank). split; [exact H|]. split; [vm_compute; reflexivity|].
  split; [|vm_compute; reflexivity].
  apply (proj1 (proj2 (draws_in_order blank _ _ blank_idle H))). vm_compute. reflexivity.
Defined.

Lemma queue_drains_witness : exists d, run blank d demo_hist /\ pending d = false.
Proof.
  pose proof demo_run as H.
  eexists. split; [exact H|]. apply (queue_drains blank _ _ blank_idle H).
  - intros [|[|i]]; vm_compute; reflexivity.
  - intros i x y w h Hin. vm_compute in Hin. destruct Hin.
Defined.

Definition demo_loc : loc := Loc 2 3 4 5.

Lemma flip_shows_all_witness : exists d' x y w h vx vy,
  (damage_all [demo_loc; Loc 0 0 1 1] ;; flip_now) blank = (Ret tt, d') /\
  _target d' = cv_drawCanvas (_backbuffer blank) x y w h vx vy (_target blank) /\
  x <= 5 < x + w /\ y <= 7 < y + h.
Proof.
  destruct (flip_shows_all blank [demo_loc; Loc 0 0 1 1] demo_loc 5 7) as (d' & x & y & w & h & vx & vy & H);
    [now left|unfold in_loc; cbn; lia|lia|lia|unfold in_loc; cbn; lia|].
  exists d', x, y, w, h, vx, vy. tauto.
Defined.

Lemma resize_fits_witness : exists d', resize 640 480 blank = (Ret tt, d') /\ vp_ok d'.
Proof.
  destruct (resize_fits blank 640 480) as (d' & H1 & H2 & _); [cbn; lia..|]. eauto.
Defined.

Definition sized : display := snd (resize 640 480 blank).

Lemma sized_ok : vp_ok sized.
Proof. constructor; vm_compute; try reflexivity; try discriminate. Defined.

Lemma viewport_inside_witness : exists d', vp_run (VPos 30 (-7)) sized = (Ret tt, d') /\ vp_ok d'.
Proof. apply (viewport_inside sized (VPos 30 (-7)) sized_ok I). Defined.

Lemma autoscale_fits_witness : exists d', autoscale 320 480 sized = (Ret tt, d') /\
  (_scale d' * 480 <= 480)%Q.
Proof.
  destruct (autoscale_fits sized 320 480) as (d' & H1 & _ & H2 & _);
    [reflexivity|reflexivity|vm_compute; reflexivity|vm_compute; reflexivity|].
  exists d'. split; [exact H1|exact H2].
Defined.

Lemma queued_blit_witness :
  let d := handle_all (firstn 1 demo_events) blank in
  exists d', blitImage 0 0 1 1 (View [1; 2; 3; 4; 5; 6; 7; 8] 4 4) 0 d = (Ret tt, d') /\
    _renderQ d' = _renderQ d ++ [Blit 0 0 1 1 [1; 2; 3; 4]].
Proof.
  apply (queued_blit_reads_buffer_start (handle_all (firstn 1 demo_events) blank)); vm_compute; discriminate || (intros; discriminate).
Defined.

End Display.
