(* ===== verification/Decoder.v ===== *)
(** Shared ground of the rectangle decoders of core/decoders.

    A decoder is an object with its own state that reads the socket and draws
    on the display; [world] puts the three together.  Its [decodeRect] returns
    true when the rectangle is complete and false when it must be called again
    after more data has arrived.

    Two things are set up once for all decoders: running on the abstract byte
    source and on a display that records the draws ([trace]), and the theorem
    that a decoder which can be resumed does not see how the data was cut into
    messages ([feed_concat]). *)

From Stdlib Require Import ZArith List Lia Bool String.
From S2P Require Import Prelude Source Display.
Import ListNotations JS JSFacts.
Open Scope Z_scope.
Open Scope code_scope.

Record world (St S D : Type) := World { dec : St; sock : S; disp : D }.
Arguments World {St S D} dec sock disp.
Arguments dec {St S D} w.
Arguments sock {St S D} w.
Arguments disp {St S D} w.

Section World.
  Context {St S D : Type}.

Definition onDec {A} (m : M St A) : M (world St S D) A :=
    lift dec (fun st w => World st (sock w) (disp w)) m.
Definition onSock {A} (m : M S A) : M (world St S D) A :=
    lift sock (fun s w => World (dec w) s (disp w)) m.
Definition onDisp {A} (m : M D A) : M (world St S D) A :=
    lift disp (fun d w => World (dec w) (sock w) d) m.
End World.

(** * The recording display *)

Inductive draw :=
| DFill (x y w h : Z) (color : list Z)
| DCopy (ox oy x y w h : Z)
| DImage (x y w h : Z) (mime : string) (data : list Z)
| DBlit (x y w h : Z) (data : list Z).

Definition trace : Type := list draw.

Definition record (a : draw) : M trace unit := modify (fun t => t ++ [a]).

(** The same errors as [Display]: an undefined colour, a blit outside its
    buffer, an empty blit. *)
#[export] Instance trace_renderer : Renderer trace := {
  fillRect x y w h color :=
    match color with Some c => record (DFill x y w h c) | None => throw "TypeError" end;
  copyImage ox oy x y w h := record (DCopy ox oy x y w h);
  imageRect x y w h mime data := record (DImage x y w h mime data);
  blitImage x y w h arr offset :=
    if (v_offset arr + offset <? 0) || (zlen (v_buffer arr) <? v_offset arr + offset + w * h * 4)
    then throw "RangeError"
    else if (w <=? 0) || (h <=? 0) then throw "InvalidStateError"
    else record (DBlit x y w h (zslice (v_buffer arr) (v_offset arr + offset) (v_offset arr + offset + w * h * 4)))
}.

(** * Resuming *)

Section Resume.
  Context {St : Type}.
  Abbreviation W := (world St asrc trace).

  (** More bytes arrive. *)
Definition ext (l : list Z) (w : W) : W :=
    World (dec w) (ASrc (past (sock w)) (rest (sock w) ++ l)) (disp w).

  (** [Res Inv top m w]: running [m] in [w] reads no byte it has not waited for,
      and would do the same with more bytes behind; if it returns false, then
      it leaves a world that satisfies [Inv], and with the missing bytes [m] would
      have gone on as [top] does from there. *)
Definition Res (Inv : W -> Prop) (top m : M W bool) (w : W) : Prop :=
    match m w with
    | (Ret true, w') => forall l, m (ext l w) = (Ret true, ext l w')
    | (Ret false, w') => Inv w' /\ forall l, m (ext l w) = top (ext l w')
    | (Throw e, w') => forall l, m (ext l w) = (Throw e, ext l w')
    | (Stuck, _) => False
    end.

Lemma ext_ext l1 l2 w : ext l2 (ext l1 w) = ext (l1 ++ l2) w.
  Proof. unfold ext. cbn [dec sock disp past rest]. now rewrite app_assoc. Qed.

Lemma ext_nil w : ext [] w = w.
  Proof. unfold ext. rewrite app_nil_r. now destruct w as [? [] ?]. Qed.

  (** A step that does the same with more bytes behind. *)
Definition stable {A} (m : M W A) (w : W) (a : A) (w' : W) : Prop :=
    m w = (Ret a, w') /\ forall l, m (ext l w) = (Ret a, ext l w').

Lemma res_step {A} Inv top (m : M W A) k w a w' :
    stable m w a w' -> Res Inv top (k a) w' -> Res Inv top (bind m k) w.
  Proof.
    intros [H1 H2] Hk. unfold Res. rewrite (bind_run _ _ _ _ _ H1).
    unfold Res in Hk. destruct (k a w') as [[[]|e|] w2]; try easy; [|destruct Hk as [HI Hk]; split; [exact HI|]|];
      intros l; rewrite (bind_run _ _ _ _ _ (H2 l)); apply Hk.
  Qed.

Lemma stable_bind {A B} (m : M W A) (k : A -> M W B) w a w' b w'' :
    stable m w a w' -> stable (k a) w' b w'' -> stable (bind m k) w b w''.
  Proof.
    intros [H1 H2] [H3 H4]. split; [now rewrite (bind_run _ _ _ _ _ H1)|].
    intros l. now rewrite (bind_run _ _ _ _ _ (H2 l)).
  Qed.

Lemma stable_ret {A} (a : A) w : stable (ret a) w a w.
  Proof. split; reflexivity. Qed.

Lemma stable_dec {A} (m : M St A) w a st' :
    m (dec w) = (Ret a, st') -> stable (onDec m) w a (World st' (sock w) (disp w)).
  Proof. intros H. unfold stable, onDec, lift. cbn [dec ext]. rewrite H. split; reflexivity. Qed.

Lemma stable_take {A} n f (k : list Z -> A) w :
    0 <= n <= zlen (rest (sock w)) ->
    stable (onSock (atake n f k)) w (k (f (ztake n (rest (sock w))))) (World (dec w) (astep n f (sock w)) (disp w)).
  Proof.
    intros Hn. unfold stable, onSock, lift. rewrite atake_ok by exact Hn. split; [reflexivity|].
    intros l. unfold ext. cbn [dec sock disp]. zlens. rewrite atake_ok by (cbn [rest]; zlia).
    unfold astep. cbn [past rest]. rewrite ztake_app_l, zdrop_app_l by lia. reflexivity.
  Qed.

Lemma stable_view n f w :
    0 <= n <= zlen (rest (sock w)) -> zlen (f (ztake n (rest (sock w)))) = n ->
    stable (onSock (rQshiftView n f)) w (fresh_view (f (ztake n (rest (sock w)))))
      (World (dec w) (astep n f (sock w)) (disp w)).
  Proof.
    intros Hn Hf. destruct (stable_take n f fresh_view w Hn) as [H1 H2].
    unfold stable, onSock, lift in *. cbn [rQshiftView asrc_source]. split.
    - rewrite Hf, Z.eqb_refl. exact H1.
    - intros l. rewrite <- H2. cbn [ext sock rest]. rewrite ztake_app_l, Hf, Z.eqb_refl by lia. reflexivity.
  Qed.

Lemma res_assoc {A B} Inv top (m : M W A) (k : A -> M W B) (h : B -> M W bool) w :
    Res Inv top (bind m (fun a => bind (k a) h)) w -> Res Inv top (bind (bind m k) h) w.
  Proof.
    unfold Res. rewrite (bind_assoc m k h w).
    destruct (bind m (fun a => bind (k a) h) w) as [[[]|e|] w']; try easy;
      [|intros [HI Hr]; split; [exact HI|revert Hr]|]; intros Hr l; rewrite (bind_assoc m k h (ext l w)); apply Hr.
  Qed.

  (** Equal programs, and a program that returns false where it started. *)
Lemma res_same Inv top (m m' : M W bool) w :
    (forall l, m (ext l w) = m' (ext l w)) -> Res Inv top m' w -> Res Inv top m w.
  Proof.
    intros Hm Hr. unfold Res in *. assert (E := Hm []). rewrite !ext_nil in E. rewrite E.
    destruct (m' w) as [[[]|e|] w']; try easy; [|destruct Hr as [HI Hr]; split; [exact HI|]|];
      intros l; rewrite Hm; apply Hr.
  Qed.

Lemma res_stay Inv top m w :
    m w = (Ret false, w) -> Inv w -> (forall l, m (ext l w) = top (ext l w)) -> Res Inv top m w.
  Proof. intros E HI Hl. unfold Res. rewrite E. auto. Qed.

Lemma res_ret_l {A} Inv top (a : A) (k : A -> M W bool) w : Res Inv top (k a) w -> Res Inv top (bind (ret a) k) w.
  Proof. intros Hr. exact Hr. Qed.

Lemma res_true Inv top w : Res Inv top (ret true) w.
  Proof. intros l. reflexivity. Qed.

Lemma res_throw Inv top e w : Res Inv top (throw e) w.
  Proof. intros l. reflexivity. Qed.

Lemma res_bind_throw {A} Inv top (m : M W A) k w e w' :
    (forall l, m (ext l w) = (Throw e, ext l w')) -> Res Inv top (bind m k) w.
  Proof.
    intros H. unfold Res, bind. pose proof (H []) as H0. rewrite !ext_nil in H0. rewrite H0.
    intros l. now rewrite H.
  Qed.

  (** Waiting: when the bytes are missing, [top] must come back here. *)
Lemma res_wait Inv top n (k : bool -> M W bool) w :
    (forall w', k true w' = (Ret false, w')) ->
    (zlen (rest (sock w)) < n -> Inv w) ->
    (zlen (rest (sock w)) < n -> forall l, top (ext l w) = bind (onSock (rQwait n 0)) k (ext l w)) ->
    (n <= zlen (rest (sock w)) -> Res Inv top (k false) w) ->
    Res Inv top (bind (onSock (rQwait n 0)) k) w.
  Proof.
    intros Hk Hinv Htop Hgo. destruct (Z_lt_le_dec (zlen (rest (sock w))) n) as [Hs|Hs].
    - unfold Res. unfold bind at 1, onSock at 1, lift. rewrite asrc_wait_short, Hk by exact Hs.
      destruct w. split; [now apply Hinv|]. intros l. symmetry. now apply Htop.
    - apply (res_step Inv top _ _ w false w); [|now apply Hgo]. unfold stable, onSock, lift.
      rewrite asrc_wait_enough by exact Hs. split; [now destruct w|].
      intros l. rewrite asrc_wait_enough by (cbn [ext sock rest]; zlia). reflexivity.
  Qed.

  (** Drawing. *)
Lemma res_disp {A} Inv top (m : M trace A) k w :
    fst (m (disp w)) <> Stuck ->
    (forall a t, m (disp w) = (Ret a, t) -> Res Inv top (k a) (World (dec w) (sock w) t)) ->
    Res Inv top (bind (onDisp m) k) w.
  Proof.
    intros Hns Hk. destruct (m (disp w)) as [[a|e|] t] eqn:E; [| |easy].
    - eapply res_step; [|exact (Hk a t eq_refl)]. unfold stable, onDisp, lift. cbn [ext disp]. rewrite E. split; reflexivity.
    - apply (res_bind_throw Inv top _ _ w e (World (dec w) (sock w) t)). intros l.
      unfold onDisp, lift. cbn [ext disp]. now rewrite E.
  Qed.

  (** * Reading what is known to be there *)

  (** [Eats n m w]: [m] reads exactly [n] bytes, or throws, and does the same
      with more bytes behind. *)
Definition Eats {A} (n : Z) (m : M W A) (w : W) : Prop :=
    match m w with
    | (Ret a, w') => rest (sock w') = zdrop n (rest (sock w)) /\ forall l, m (ext l w) = (Ret a, ext l w')
    | (Throw e, w') => forall l, m (ext l w) = (Throw e, ext l w')
    | (Stuck, _) => False
    end.

Lemma eats_bind {A B} n1 n2 n (m : M W A) (k : A -> M W B) w : n = n1 + n2 -> 0 <= n1 -> 0 <= n2 ->
    Eats n1 m w -> (forall a w', m w = (Ret a, w') -> rest (sock w') = zdrop n1 (rest (sock w)) -> Eats n2 (k a) w') ->
    Eats n (bind m k) w.
  Proof.
    intros -> H1 H2 Hm Hk. unfold Eats in Hm. destruct (m w) as [[a|e|] w'] eqn:E; [| |easy].
    - destruct Hm as [Hr Hl]. specialize (Hk a w' eq_refl Hr). unfold Eats in *. rewrite (bind_run _ _ _ _ _ E).
      destruct (k a w') as [[b|e|] w2]; [|intros l; now rewrite (bind_run _ _ _ _ _ (Hl l))|easy].
      destruct Hk as [Hr2 Hl2]. split; [rewrite Hr2, Hr, zdrop_zdrop by lia; f_equal; lia|].
      intros l. now rewrite (bind_run _ _ _ _ _ (Hl l)).
    - unfold Eats, bind. rewrite E. intros l. now rewrite Hm.
  Qed.

Lemma eats_ret {A} (a : A) w : Eats 0 (ret a) w.
  Proof. split; [now rewrite zdrop_nonpos by lia|reflexivity]. Qed.

Lemma eats_throw {A} n e w : Eats n (throw e : M W A) w.
  Proof. intros l. reflexivity. Qed.

Lemma eats_dec {A} (m : M St A) w : fst (m (dec w)) <> Stuck -> Eats 0 (onDec m) w.
  Proof.
    intros Hns. unfold Eats, onDec, lift. destruct (m (dec w)) as [[a|e|] st'] eqn:E; [| |easy].
    - split; [now rewrite zdrop_nonpos by lia|]. intros l. cbn [ext dec]. rewrite E. reflexivity.
    - intros l. cbn [ext dec]. rewrite E. reflexivity.
  Qed.

Lemma eats_disp {A} (m : M trace A) w : fst (m (disp w)) <> Stuck -> Eats 0 (onDisp m) w.
  Proof.
    intros Hns. unfold Eats, onDisp, lift. destruct (m (disp w)) as [[a|e|] t'] eqn:E; [| |easy].
    - split; [now rewrite zdrop_nonpos by lia|]. intros l. cbn [ext disp]. rewrite E. reflexivity.
    - intros l. cbn [ext disp]. rewrite E. reflexivity.
  Qed.

Lemma eats_stable {A} n (m : M W A) w a w' : stable m w a w' -> rest (sock w') = zdrop n (rest (sock w)) -> Eats n m w.
  Proof. intros [E Hl] Hr. unfold Eats. rewrite E. auto. Qed.

Lemma eats_take {A} n f (k : list Z -> A) w : 0 <= n <= zlen (rest (sock w)) -> Eats n (onSock (atake n f k)) w.
  Proof. intros Hn. eapply eats_stable; [now apply stable_take|reflexivity]. Qed.

Lemma eats_view n f w : 0 <= n <= zlen (rest (sock w)) -> zlen (f (ztake n (rest (sock w)))) = n ->
    Eats n (onSock (rQshiftView n f)) w.
  Proof. intros Hn Hf. eapply eats_stable; [now apply stable_view|reflexivity]. Qed.

Lemma res_eats {A} Inv top n (m : M W A) k w :
    Eats n m w -> (forall a w', m w = (Ret a, w') -> rest (sock w') = zdrop n (rest (sock w)) -> Res Inv top (k a) w') ->
    Res Inv top (bind m k) w.
  Proof.
    intros Hm Hk. unfold Eats in Hm. destruct (m w) as [[a|e|] w'] eqn:E; [| |easy].
    - destruct Hm as [Hr Hl]. apply (res_step Inv top m k w a w'); [now split|now apply Hk].
    - now apply (res_bind_throw Inv top m k w e w').
  Qed.

  (** * Messages cut anywhere *)

  (** The decoder is called when data arrives, again and again until it no
      longer returns false; what arrives after that is left for its successor. *)
Fixpoint feed (m : M W bool) (w : W) (chunks : list (list Z)) : outcome bool * W :=
    match chunks with
    | [] => m w
    | c :: cs =>
        match m w with
        | (Ret false, w') => feed m (ext c w') cs
        | (o, w') => (o, ext (List.concat chunks) w')
        end
    end.

Lemma feed_concat_ok (P : list Z -> Prop) Inv m :
    (forall w c, Inv w -> P c -> Inv (ext c w)) ->
    (forall w, Inv w -> Res Inv m m w) ->
    forall chunks w, Forall P chunks -> Inv w ->
    feed m w chunks = m (ext (List.concat chunks) w) /\ fst (m w) <> Stuck.
  Proof.
    intros Hext Hres. induction chunks as [|c cs IH]; intros w Hc Hw; cbn [feed List.concat];
      pose proof (Hres w Hw) as H; unfold Res in H.
    - rewrite ext_nil. split; [reflexivity|]. now destruct (m w) as [[[]|e|] w'].
    - inversion_clear Hc as [|? ? Hc1 Hcs]. destruct (m w) as [[[]|e|] w'] eqn:E; try easy.
      destruct H as [HI H]. split; [|easy].
      rewrite (proj1 (IH (ext c w') Hcs (Hext _ _ HI Hc1))), ext_ext, H. reflexivity.
  Qed.

  (** The same with an invariant of the decoder's state alone. *)
Lemma feed_concat (Inv : St -> Prop) m :
    (forall w, Inv (dec w) -> Res (fun w => Inv (dec w)) m m w) ->
    forall chunks w, Inv (dec w) -> feed m w chunks = m (ext (List.concat chunks) w) /\ fst (m w) <> Stuck.
  Proof.
    intros Hres chunks w Hw. apply (feed_concat_ok (fun _ => True) (fun w => Inv (dec w))); auto.
    apply Forall_forall. auto.
  Qed.
End Resume.

(** Reduce the projections of worlds. *)
Ltac wcbn := cbn [ext dec sock disp past rest astep] in *.

(** The renderer never leaves the model. *)
Lemma trace_fill_ns x y w h c t : fst (fillRect x y w h c t : outcome unit * trace) <> Stuck.
Proof. cbn. now destruct c. Qed.
Lemma trace_blit_ns x y w h v o t : fst (blitImage x y w h v o t : outcome unit * trace) <> Stuck.
Proof. cbn. now repeat case_if. Qed.
Lemma trace_copy_ns ox oy x y w h t : fst (copyImage ox oy x y w h t : outcome unit * trace) <> Stuck.
Proof. easy. Qed.
Lemma trace_image_ns x y w h mime a t : fst (imageRect x y w h mime a t : outcome unit * trace) <> Stuck.
Proof. easy. Qed.
#[export] Hint Resolve trace_fill_ns trace_blit_ns trace_copy_ns trace_image_ns : sim.

(** * Running on given bytes *)

Lemma run_ret {S A B} (a : A) (k : A -> M S B) s : bind (ret a) k s = k a s.
Proof. reflexivity. Qed.

Lemma run_peek {St B} (k : Z -> M (world St asrc trace) B) st p b r t :
  bind (onSock rQpeek8) k (World st (ASrc p (b :: r)) t) = k b (World st (ASrc p (b :: r)) t).
Proof. reflexivity. Qed.


Section Running.
  Context {St : Type}.
  Abbreviation W := (world St asrc trace).
  Implicit Types (st : St) (p l r : list Z) (t : trace).

Lemma run_dec {A B} (m : M St A) (k : A -> M W B) st s t a st' :
    m st = (Ret a, st') -> bind (onDec m) k (World st s t) = k a (World st' s t).
  Proof. intros E. unfold bind, onDec, lift. wcbn. now rewrite E. Qed.

Lemma run_get {B} (k : St -> M W B) st s t : bind (onDec get) k (World st s t) = k st (World st s t).
  Proof. reflexivity. Qed.

Lemma run_modify {B} f (k : unit -> M W B) st s t :
    bind (onDec (modify f)) k (World st s t) = k tt (World (f st) s t).
  Proof. reflexivity. Qed.

Lemma run_wait {B} (k : bool -> M W B) n g st p l t :
    n <= zlen l -> bind (onSock (rQwait n g)) k (World st (ASrc p l) t) = k false (World st (ASrc p l) t).
  Proof. intros Hn. unfold bind, onSock, lift. wcbn. now rewrite asrc_wait_enough. Qed.

Lemma atake_run {A} n f (k : list Z -> A) p l r :
    zlen l = n -> atake n f k (ASrc p (l ++ r)) = (Ret (k (f l)), ASrc (p ++ f l) r).
  Proof.
    intros <-. zlens. rewrite atake_ok by (wcbn; zlia). unfold astep. wcbn.
    now rewrite ztake_app_exact, zdrop_app_exact.
  Qed.

Lemma run_take {A B} n f (k : list Z -> A) (h : A -> M W B) st p l r t :
    zlen l = n ->
    bind (onSock (atake n f k)) h (World st (ASrc p (l ++ r)) t) = h (k (f l)) (World st (ASrc (p ++ f l) r) t).
  Proof. intros Hl. unfold bind, onSock, lift. wcbn. now rewrite atake_run. Qed.

Lemma run_view {B} n f (h : view -> M W B) st p l r t :
    zlen l = n -> zlen (f l) = n ->
    bind (onSock (rQshiftView n f)) h (World st (ASrc p (l ++ r)) t) =
    h (fresh_view (f l)) (World st (ASrc (p ++ f l) r) t).
  Proof.
    intros Hl Hf. unfold bind, onSock, lift. cbn [rQshiftView asrc_source]. wcbn.
    assert (E : ztake n (l ++ r) = l) by (rewrite <- Hl; apply ztake_app_exact).
    rewrite E, Hf, Z.eqb_refl. now rewrite atake_run.
  Qed.

Lemma blit_fresh x y w h data t :
    0 < w -> 0 < h -> zlen data = w * h * 4 ->
    (blitImage x y w h (fresh_view data) 0 : M trace unit) t = (Ret tt, t ++ [DBlit x y w h data]).
  Proof.
    intros Hw Hh Hl. cbn [blitImage trace_renderer fresh_view v_offset v_buffer]. rewrite Hl.
    change (0 + 0) with 0. rewrite !Z.add_0_l, !Z.ltb_irrefl. cbn [orb].
    destruct (Z.leb_spec w 0), (Z.leb_spec h 0); try lia. cbn [orb].
    replace (zslice data 0 (w * h * 4)) with data; [reflexivity|].
    unfold zslice. now rewrite zdrop_nonpos, ztake_all by lia.
  Qed.

Lemma run_disp {A B} (m : M trace A) (k : A -> M W B) st s t a t' :
    m t = (Ret a, t') -> bind (onDisp m) k (World st s t) = k a (World st s t').
  Proof. intros E. unfold bind, onDisp, lift. wcbn. now rewrite E. Qed.

Lemma run_fill {B} x y w h c (k : unit -> M W B) st s t :
    bind (onDisp (fillRect x y w h (Some c))) k (World st s t) = k tt (World st s (t ++ [DFill x y w h c])).
  Proof. reflexivity. Qed.
End Running.

(** * The same decoder on the real queue *)

Section Simulation.
  Context {St S : Type} `{ByteSourceOk S}.

Definition wrel (w1 : world St S trace) (w2 : world St asrc trace) : Prop :=
    dec w1 = dec w2 /\ disp w1 = disp w2 /\ src_rel (sock w1) (sock w2).

Lemma sim_onDec {A} (m : M St A) : Sim wrel eq (onDec m) (onDec m).
  Proof.
    intros [st1 s1 d1] [st2 s2 d2] (E1 & E2 & Hr). cbn [dec sock disp] in *. subst.
    unfold onDec, lift. cbn [dec sock disp]. destruct (m st2) as [[a|e|] st']; [|eauto|exact I].
    - eexists _, _. split; [reflexivity|]. now repeat split.
    - eexists. split; [reflexivity|]. now repeat split.
  Qed.

Lemma sim_onDisp {A} (m1 m2 : M trace A) : meq m1 m2 -> Sim wrel eq (onDisp m1) (onDisp m2).
  Proof.
    intros Hm [st1 s1 d1] [st2 s2 d2] (E1 & E2 & Hr). cbn [dec sock disp] in *. subst.
    unfold onDisp, lift. cbn [dec sock disp]. rewrite Hm. destruct (m2 d2) as [[a|e|] st']; [|eauto|exact I].
    - eexists _, _. split; [reflexivity|]. now repeat split.
    - eexists. split; [reflexivity|]. now repeat split.
  Qed.

Lemma sim_onSock {A} RA (m1 : M S A) (m2 : M asrc A) :
    Sim src_rel RA m1 m2 -> Sim wrel RA (onSock m1) (onSock m2).
  Proof.
    intros Hm [st1 s1 d1] [st2 s2 d2] (E1 & E2 & Hr). cbn [dec sock disp] in *. subst.
    specialize (Hm s1 s2 Hr). unfold onSock, lift. cbn [dec sock disp].
    destruct (m2 s2) as [[a|e|] s2']; [| |exact I].
    - destruct Hm as (a1 & s1' & -> & Ha & Hr'). eexists _, _. split; [reflexivity|]. now repeat split.
    - destruct Hm as (s1' & -> & Hr'). eexists. split; [reflexivity|]. now repeat split.
  Qed.

  (** Blits of equal views are equal. *)
Lemma blit_view_eq n v1 v2 x y w h o :
    view_eq n v1 v2 -> 0 <= o -> o + w * h * 4 <= n ->
    meq (blitImage x y w h v1 o : M trace unit) (blitImage x y w h v2 o).
  Proof.
    intros Hv Ho Hn t. cbn. pose proof (view_eq_slice n v1 v2 o (w * h * 4) Hv Ho Hn) as Hs.
    destruct Hv as ((? & ? & ?) & (? & ? & ?) & ? & ? & _).
    destruct (Z.ltb_spec (v_offset v1 + o) 0), (Z.ltb_spec (v_offset v2 + o) 0),
      (Z.ltb_spec (zlen (v_buffer v1)) (v_offset v1 + o + w * h * 4)),
      (Z.ltb_spec (zlen (v_buffer v2)) (v_offset v2 + o + w * h * 4)); try lia. cbn [orb].
    now rewrite Hs.
  Qed.
End Simulation.

#[export] Hint Resolve sim_onDec sim_onSock : sim.

(** Walk through a decoder that reads two related sources. *)
Ltac sim_walk :=
  repeat first
    [ apply sim_ret_eq | apply sim_throw | apply sim_stuck
    | apply sim_bind_eq; [solve [eauto with sim nocore | apply sim_onSock; eauto with sim | apply sim_onDisp; reflexivity]|intros]
    | case_if
    | match goal with |- Sim _ _ (match ?x with _ => _ end) _ => destruct x end ].
