(* ===== verification/Decoders.v ===== *)
(** The Raw, CopyRect and RRE decoders: core/decoders/raw.js, copyrect.js and
    rre.js.

    Each decoder is written once for any byte source and any renderer.  The
    theorems: a rectangle encoded as RFC 6143 prescribes is drawn as it
    should be and the bytes behind it are left alone; the result does not
    depend on how the data is cut into messages; and the decoder on the real
    receive queue does what it does on the list of bytes. *)

From Stdlib Require Import ZArith List Lia Bool String.
From S2P Require Import Prelude Source Sink Websock Display Decoder.
Import ListNotations JS JSFacts.
Open Scope Z_scope.
Open Scope code_scope.

(** The integers below [n], in order: the values of a counting loop. *)

(** [for (let i = 0; i < n; i++) data[i * 4 + 3] = 255] *)
Definition set_opaque (n : Z) (data : list Z) : list Z :=
  fold_left (fun data i => zset data (i * 4 + 3) 255) (upto n) data.

Lemma set_opaque_length n data : zlen (set_opaque n data) = zlen data.
Proof.
  unfold set_opaque. revert data. induction (upto n) as [|i l IH]; intros data; [reflexivity|].
  cbn [fold_left]. now rewrite IH, zlen_zset.
Qed.

Lemma set_opaque_bytes n data : bytes data -> bytes (set_opaque n data).
Proof.
  unfold set_opaque. revert data. induction (upto n) as [|i l IH]; intros data Hb; [exact Hb|].
  cbn [fold_left]. apply IH. apply bytes_zset; [exact Hb|unfold is_byte; lia].
Qed.

(** What making pixels opaque means: every fourth byte becomes 255. *)
Fixpoint opaque (data : list Z) : list Z :=
  match data with
  | r :: g :: b :: _ :: data => r :: g :: b :: 255 :: opaque data
  | _ => data
  end.

Lemma zset_at {A} (pre : list A) l i j v :
  i = zlen pre + j -> 0 <= j -> zset (pre ++ l) i v = pre ++ zset l j v.
Proof.
  intros -> Hj. unfold zset. rewrite zlen_app. zlens.
  replace ((zlen pre + j <? 0) || (zlen pre + zlen l <=? zlen pre + j)) with ((j <? 0) || (zlen l <=? j)).
  - case_if; [reflexivity|]. rewrite ztake_app, zdrop_app, (ztake_all _ pre), (zdrop_all _ pre) by lia.
    rewrite <- app_assoc. cbn [app]. do 4 f_equal; lia.
  - destruct (Z.ltb_spec j 0), (Z.ltb_spec (zlen pre + j) 0), (Z.leb_spec (zlen l) j), (Z.leb_spec (zlen pre + zlen l) (zlen pre + j)); lia || reflexivity.
Qed.

Lemma set_opaque_from n : forall k pre data,
  zlen pre = 4 * Z.of_nat k -> zlen data = 4 * Z.of_nat n ->
  fold_left (fun data i => zset data (i * 4 + 3) 255) (map Z.of_nat (seq k n)) (pre ++ data) = pre ++ opaque data.
Proof.
  induction n as [|n IH]; intros k pre data Hp Hd.
  - rewrite (zlen_0_nil data) by lia. reflexivity.
  - destruct data as [|r [|g [|b [|a data]]]]; try (rewrite ?zlen_cons, ?zlen_nil in Hd; lia).
    rewrite !zlen_cons in Hd. cbn [seq map fold_left].
    rewrite (zset_at pre _ _ 3) by lia. change (zset (r :: g :: b :: a :: data) 3 255) with (zset ([r; g; b] ++ a :: data) 3 255).
    rewrite (zset_at [r; g; b] (a :: data) 3 0) by (cbn; lia).
    replace (zset (a :: data) 0 255) with (255 :: data).
    + replace (pre ++ [r; g; b] ++ 255 :: data) with ((pre ++ [r; g; b; 255]) ++ data) by now rewrite <- app_assoc.
      rewrite IH; [|rewrite zlen_app; cbn; lia|lia]. rewrite <- app_assoc. reflexivity.
    + unfold zset. rewrite zlen_cons. zlens. destruct (Z.leb_spec (1 + zlen data) 0); [lia|]. reflexivity.
Qed.

Lemma set_opaque_spec n data : 0 <= n -> zlen data = 4 * n -> set_opaque n data = opaque data.
Proof. intros Hn Hd. apply (set_opaque_from (Z.to_nat n) 0 []); [reflexivity|lia]. Qed.

Module RawDecoder.

Record raw := mkRaw { _lines : Z }.
Definition constructor : raw := mkRaw 0.

Section Raw.
Context {S D : Type} `{ByteSource S} `{Renderer D}.
Abbreviation W := (world raw S D).

(** The conversion of 8-bit pixels; [x * 255 / 3] is exact. *)
Definition newdata (width : Z) (data : list Z) : list Z :=
  flat_map (fun i => [ ((zgetd data i >> 0) & 3)%js * 255 / 3;
                       ((zgetd data i >> 2) & 3)%js * 255 / 3;
                       ((zgetd data i >> 4) & 3)%js * 255 / 3;
                       255 ]) (upto width).

Fixpoint lines_loop (fuel : nat) (x y width height depth : Z) : M W bool :=
  st <- onDec get ;;
  if 0 <? _lines st then
    match fuel with
    | O => stuck
    | Datatypes.S fuel =>
        let pixelSize := if depth =? 8 then 1 else 4 in
        let bytesPerLine := width * pixelSize in
        wait <- onSock (rQwait bytesPerLine 0) ;;
        if wait then ret false
        else
          let curY := y + (height - _lines st) in
          (if depth =? 8 then
             data <- onSock (rQshiftView bytesPerLine same) ;;
             onDisp (blitImage x curY width 1
                       (fresh_view (set_opaque width (newdata width (view_bytes data)))) 0)
           else
             data <- onSock (rQshiftView bytesPerLine (set_opaque width)) ;;
             onDisp (blitImage x curY width 1 data 0)) ;;
          onDec (modify (fun st => mkRaw (_lines st - 1))) ;;
          lines_loop fuel x y width height depth
    end
  else ret true.

Definition decodeRect (x y width height depth : Z) : M W bool :=
  if (width =? 0) || (height =? 0) then ret true
  else
    st <- onDec get ;;
    (if _lines st =? 0 then onDec (modify (fun _ => mkRaw height)) else ret tt) ;;
    st <- onDec get ;;
    lines_loop (Z.to_nat (_lines st)) x y width height depth.
End Raw.

(** ** Resuming *)

Section RawFacts.
Variables x y width height depth : Z.
Hypothesis width_pos : 0 <= width.

Abbreviation top := (decodeRect x y width height depth : M (world raw asrc trace) bool).

Definition inv (st : raw) : Prop := 0 <= _lines st.

Lemma raw_top_loop w : width <> 0 -> height <> 0 -> 0 < _lines (dec w) ->
  top w = lines_loop (Z.to_nat (_lines (dec w))) x y width height depth w.
Proof.
  intros Hw Hh Hl. unfold decodeRect. destruct (Z.eqb_spec width 0), (Z.eqb_spec height 0); try easy. cbn [orb].
  destruct w as [st s t]. cbn [dec] in *. unfold onDec, lift, bind. cbn. now destruct (Z.eqb_spec (_lines st) 0); [lia|].
Qed.

Lemma lines_loop_res fuel : forall w,
  width <> 0 -> height <> 0 -> 0 <= _lines (dec w) -> fuel = Z.to_nat (_lines (dec w)) ->
  Res (fun w => inv (dec w)) top (lines_loop fuel x y width height depth) w.
Proof.
  induction fuel as [|fuel IH]; intros [st s t] Hw Hh Hl Hf; cbn [lines_loop]; wcbn;
    (eapply res_step; [apply (stable_dec get _ _ _ eq_refl)|]); wcbn;
    destruct (Z.ltb_spec 0 (_lines st)); try (apply res_true); [lia|].
  set (n := width * (if depth =? 8 then 1 else 4)).
  assert (Hn : 0 <= n) by (subst n; case_if; lia).
  apply res_wait; [reflexivity|now intros _|intros _ l|intros Hs]; wcbn.
  - rewrite raw_top_loop by (wcbn; lia). wcbn. rewrite <- Hf. cbn [lines_loop].
    unfold bind at 1, onDec at 1, lift. cbn [get]. wcbn.
    destruct (Z.ltb_spec 0 (_lines st)); [reflexivity|lia].
  - assert (Hlast : forall s t, Res (fun w => inv (dec w)) top (onDec (modify (fun st => mkRaw (_lines st - 1))) ;;
      lines_loop fuel x y width height depth) (World st s t)).
    { intros s' t'. eapply res_step; [apply stable_dec; reflexivity|]. apply IH; wcbn; cbn [_lines]; lia. }
    case_if; apply res_assoc;
      (eapply res_step; [apply stable_view; wcbn; [lia|rewrite ?set_opaque_length; unfold same; zlia]|]);
      wcbn; (apply res_disp; [auto with sim|intros a t' _; apply Hlast]).
Qed.

Lemma raw_decodeRect_res w : inv (dec w) -> 0 <= height -> Res (fun w => inv (dec w)) top top w.
Proof.
  intros Hl Hh. destruct w as [st s t]; wcbn. unfold decodeRect at 2.
  destruct (Z.eqb_spec width 0); [apply res_true|]. destruct (Z.eqb_spec height 0); [apply res_true|]. cbn [orb].
  eapply res_step; [apply (stable_dec get _ _ _ eq_refl)|]; wcbn.
  destruct (Z.eqb_spec (_lines st) 0).
  - eapply res_step; [apply stable_dec; reflexivity|]; wcbn.
    eapply res_step; [apply (stable_dec get _ _ _ eq_refl)|]; wcbn. now apply lines_loop_res.
  - apply res_ret_l. eapply res_step; [apply (stable_dec get _ _ _ eq_refl)|]; wcbn. now apply lines_loop_res.
Qed.
End RawFacts.

(** ** What is drawn *)

(** An 8-bit pixel carries two bits of each colour. *)
Definition pixel8 (b : Z) : list Z :=
  [ (b mod 4) * 85; (b / 4 mod 4) * 85; (b / 16 mod 4) * 85; 255 ].

Definition row_pixels (depth : Z) (row : list Z) : list Z :=
  if depth =? 8 then flat_map pixel8 row else opaque row.

Definition row_blits (x width depth : Z) : Z -> list (list Z) -> list draw :=
  fix go y rows :=
    match rows with
    | [] => []
    | row :: rows => DBlit x y width 1 (row_pixels depth row) :: go (y + 1) rows
    end.

Lemma zlen_pixels8 row : zlen (flat_map pixel8 row) = 4 * zlen row.
Proof. induction row; [reflexivity|]. cbn [flat_map]. rewrite zlen_app, zlen_cons, IHrow. change (zlen (pixel8 a)) with 4. lia. Qed.

Lemma opaque_pixels8 row : opaque (flat_map pixel8 row) = flat_map pixel8 row.
Proof. induction row as [|b row IH]; [reflexivity|]. cbn [flat_map pixel8 app opaque]. now rewrite IH. Qed.

Lemma newdata_spec row : bytes row -> newdata (zlen row) row = flat_map pixel8 row.
Proof.
  intros Hb. unfold newdata. transitivity (flat_map pixel8 (map (zgetd row) (upto (zlen row)))); [|now rewrite <- upto_zgetd by reflexivity].
  induction (upto (zlen row)) as [|i l IH]; [reflexivity|]. cbn [flat_map map]. rewrite IH. f_equal.
  pose proof (bytes_zgetd row i Hb) as Hi. unfold is_byte in Hi. unfold pixel8.
  change 3 with (2 ^ 2 - 1). rewrite !band_ones, !sar_small by lia. change (2 ^ 0) with 1. change (2 ^ 2) with 4.
  change (4 - 1) with 3. change (2 ^ 4) with 16. rewrite Z.div_1_r.
  eqs.
Qed.

Lemma opaque_length data : zlen (opaque data) = zlen data.
Proof.
  revert data. fix IH 1. intros [|r [|g [|b [|a data]]]]; try reflexivity.
  cbn [opaque]. rewrite !zlen_cons, IH. reflexivity.
Qed.

Lemma row_pixels_length depth width row :
  zlen row = width * (if depth =? 8 then 1 else 4) -> zlen (row_pixels depth row) = width * 4.
Proof.
  unfold row_pixels. destruct (depth =? 8); intros Hl; rewrite ?zlen_pixels8, ?opaque_length; lia.
Qed.

(** A run of the loop on complete rows. *)
Lemma lines_loop_draws x width height depth tail : forall rows y p t,
  0 < width -> bytes (List.concat rows) ->
  Forall (fun row => zlen row = width * (if depth =? 8 then 1 else 4)) rows ->
  exists p', lines_loop (List.length rows) x y width height depth
    (World (mkRaw (zlen rows)) (ASrc p (List.concat rows ++ tail)) t) =
    (Ret true, World (mkRaw 0) (ASrc p' tail) (t ++ row_blits x width depth (y + height - zlen rows) rows)).
Proof.
  induction rows as [|row rows IH]; intros y p t Hw Hb Hf.
  - exists p. cbn. now rewrite app_nil_r.
  - inversion_clear Hf as [|? ? Hrow Hf']. cbn [List.concat] in Hb. apply bytes_app in Hb. destruct Hb as [Hb1 Hb2].
    pose proof (row_pixels_length depth width row Hrow) as HL.
    set (n := width * (if depth =? 8 then 1 else 4)) in *. zlens.
    cbn [List.length lines_loop]. rewrite run_get. cbn [_lines].
    destruct (Z.ltb_spec 0 (zlen (row :: rows))); [|rewrite zlen_cons in *; lia]. fold n.
    cbn [List.concat]. rewrite <- app_assoc. rewrite run_wait by zlia.
    destruct (IH y (p ++ (if depth =? 8 then row else opaque row))
      (t ++ [DBlit x (y + (height - zlen (row :: rows))) width 1 (row_pixels depth row)]) Hw Hb2 Hf') as [p' Hp'].
    exists p'. cbn [row_blits].
    replace (t ++ DBlit x (y + height - zlen (row :: rows)) width 1 (row_pixels depth row) ::
       row_blits x width depth (y + height - zlen (row :: rows) + 1) rows)
      with ((t ++ [DBlit x (y + (height - zlen (row :: rows))) width 1 (row_pixels depth row)]) ++
        row_blits x width depth (y + height - zlen rows) rows).
    2:{ rewrite <- app_assoc. cbn [app]. f_equal. f_equal; [f_equal; lia|f_equal; rewrite zlen_cons; lia]. }
    rewrite <- Hp'. subst n. unfold row_pixels in HL |- *. revert HL Hrow. destruct (depth =? 8); intros HL Hrow; rewrite bind_assoc_run.
    + rewrite run_view by (unfold same; lia). unfold same. rewrite view_bytes_fresh.
      assert (Hpx : set_opaque width (newdata width row) = flat_map pixel8 row).
      { replace width with (zlen row) by lia. rewrite newdata_spec, set_opaque_spec by (auto; lia || rewrite zlen_pixels8; lia).
        apply opaque_pixels8. }
      rewrite Hpx, (run_disp _ _ _ _ _ _ _ (blit_fresh x _ width 1 (flat_map pixel8 row) t Hw ltac:(lia) ltac:(lia))).
      rewrite run_modify. do 3 f_equal. cbn [_lines]. f_equal. rewrite zlen_cons. lia.
    + rewrite run_view by (rewrite ?set_opaque_length; lia). rewrite set_opaque_spec by lia.
      rewrite (run_disp _ _ _ _ _ _ _ (blit_fresh x _ width 1 (opaque row) t Hw ltac:(lia) ltac:(lia))).
      rewrite run_modify. do 3 f_equal. cbn [_lines]. f_equal. rewrite zlen_cons. lia.
Qed.

Lemma rows_drawn (x y width height depth : Z) (rows : list (list Z)) (p tail : list Z) (t : trace) :
  0 < width -> zlen rows = height -> 0 < height -> bytes (List.concat rows) ->
  Forall (fun row => zlen row = width * (if depth =? 8 then 1 else 4)) rows ->
  exists p',
    decodeRect x y width height depth (World constructor (ASrc p (List.concat rows ++ tail)) t) =
    (Ret true, World constructor (ASrc p' tail) (t ++ row_blits x width depth y rows)).
Proof.
  intros Hw Hh Hpos Hb Hf. unfold decodeRect.
  destruct (Z.eqb_spec width 0), (Z.eqb_spec height 0); try lia. cbn [orb].
  unfold constructor. rewrite run_get. cbn [_lines Z.eqb].
  rewrite run_modify, run_get. cbn [_lines].
  destruct (lines_loop_draws x width height depth tail rows y p t Hw Hb Hf) as [p' Hp'].
  exists p'. replace (Z.to_nat height) with (List.length rows) by (unfold zlen in Hh; lia).
  rewrite Hh in Hp'. etransitivity; [exact Hp'|]. do 4 f_equal. lia.
Qed.

(** C7.  Raw: given the rows of a rectangle and anything behind, the decoder
    reports completion, draws each row in its place with opaque pixels (8-bit
    pixels converted), consumes exactly the rows and is ready for the next
    rectangle. *)
Theorem raw_draws (x y width height depth : Z) (rows : list (list Z)) (p tail : list Z) (t : trace) :
  0 < width -> zlen rows = height -> 0 < height -> bytes (List.concat rows) ->
  Forall (fun row => zlen row = width * (if depth =? 8 then 1 else 4)) rows ->
  exists p',
    decodeRect x y width height depth (World constructor (ASrc p (List.concat rows ++ tail)) t) =
    (Ret true, World constructor (ASrc p' tail) (t ++ row_blits x width depth y rows)).
Proof. exact (rows_drawn x y width height depth rows p tail t). Qed.

Lemma raw_draws_witness : exists p',
  decodeRect 5 7 1 2 24 (World constructor (ASrc [] [1; 2; 3; 0; 4; 5; 6; 0; 99]) []) =
  (Ret true, World constructor (ASrc p' [99]) [DBlit 5 7 1 1 [1; 2; 3; 255]; DBlit 5 8 1 1 [4; 5; 6; 255]]).
Proof.
  destruct (raw_draws 5 7 1 2 24 [[1; 2; 3; 0]; [4; 5; 6; 0]] [] [99] []) as [p' H];
    [lia|reflexivity|lia|repeat constructor; cbn; lia|repeat constructor|].
  exists p'. exact H.
Defined.

(** Raw: however the data of a rectangle is cut into messages, the draws,
    the errors and the final state are those of the data arriving at once, and
    the decoder never reads a byte that has not arrived. *)
Theorem raw_resumes (x y width height depth : Z) (w : world raw asrc trace) (chunks : list (list Z)) :
  0 <= width -> 0 <= height -> 0 <= _lines (dec w) ->
  let m := decodeRect x y width height depth in
  feed m w chunks = m (ext (List.concat chunks) w) /\ fst (m w) <> Stuck.
Proof.
  intros Hw Hh Hl m. apply (feed_concat inv); [|exact Hl]. intros w' Hw'. now apply raw_decodeRect_res.
Qed.

Lemma raw_resumes_witness :
  let m := decodeRect 0 0 1 2 24 in
  let w := World constructor (ASrc [] [1; 2]) [] in
  feed m w [[3; 0; 4]; [5; 6]; [0]] = m (ext [3; 0; 4; 5; 6; 0] w) /\ fst (m w) <> Stuck.
Proof.
  apply (raw_resumes 0 0 1 2 24 (World constructor (ASrc [] [1; 2]) []) [[3; 0; 4]; [5; 6]; [0]]); cbn; lia.
Defined.

End RawDecoder.

Module CopyRectDecoder.
Section CopyRect.
Context {S D : Type} `{ByteSource S} `{Renderer D}.

Definition decodeRect (x y width height depth : Z) : M (world unit S D) bool :=
  wait <- onSock (rQwait 4 0) ;;
  if wait then ret false
  else
    deltaX <- onSock rQshift16 ;;
    deltaY <- onSock rQshift16 ;;
    if (width =? 0) || (height =? 0) then ret true
    else
      onDisp (copyImage deltaX deltaY x y width height) ;;
      ret true.
End CopyRect.

Lemma copyrect_decodeRect_res x y width height depth (w : world unit asrc trace) :
  Res (fun _ => True) (decodeRect x y width height depth) (decodeRect x y width height depth) w.
Proof.
  destruct w as [st s t]. unfold decodeRect at 2.
  apply res_wait; [reflexivity|easy|reflexivity|intros Hs]; wcbn.
  eapply res_step; [apply stable_take; wcbn; lia|]; wcbn.
  eapply res_step; [apply stable_take; wcbn; zlia|]; wcbn.
  case_if; [apply res_true|]. apply res_disp; [auto with sim|intros; apply res_true].
Qed.

(** CopyRect: however the four bytes arrive, the decoder ends as if they
    had come at once; the source position is read and one copy is asked for,
    none for an empty rectangle. *)
Theorem copyrect_draws (x y width height depth ox oy : Z) (p tail : list Z) (t : trace) (chunks : list (list Z)) :
  0 <= ox < 65536 -> 0 <= oy < 65536 -> List.concat chunks = be_bytes 2 ox ++ be_bytes 2 oy ++ tail ->
  exists p',
    feed (decodeRect x y width height depth) (World tt (ASrc p []) t) chunks =
    (Ret true, World tt (ASrc p' tail)
       (t ++ if (width =? 0) || (height =? 0) then [] else [DCopy ox oy x y width height])).
Proof.
  intros Hx Hy Hc. destruct (feed_concat (fun _ => True) _ (fun w _ => copyrect_decodeRect_res x y width height depth w)
    chunks (World tt (ASrc p []) t) I) as [-> _]. rewrite Hc. unfold ext, decodeRect. wcbn. cbn [app]. zlens.
  rewrite run_wait by zlia.
  rewrite (run_take 2 same be), (run_take 2 same be) by (rewrite zlen_be_bytes; lia).
  unfold same. rewrite !be_bytes_small by (cbn; lia).
  eexists. case_if; [rewrite app_nil_r|]; reflexivity.
Qed.

Lemma copyrect_draws_witness : exists p',
  feed (decodeRect 10 20 3 4 24) (World tt (ASrc [] []) []) [[1]; [2; 0]; []; [5; 77]] =
  (Ret true, World tt (ASrc p' [77]) [DCopy 258 5 10 20 3 4]).
Proof.
  destruct (copyrect_draws 10 20 3 4 24 258 5 [] [77] [] [[1]; [2; 0]; []; [5; 77]]) as [p' H]; [lia|lia|reflexivity|].
  exists p'. exact H.
Defined.
End CopyRectDecoder.

Module RREDecoder.

Record rre := mkRre { _subrects : Z }.
Definition constructor : rre := mkRre 0.

Section RRE.
Context {S D : Type} `{ByteSource S} `{Renderer D}.
Abbreviation W := (world rre S D).

Fixpoint subrects_loop (fuel : nat) (x y : Z) : M W bool :=
  st <- onDec get ;;
  if 0 <? _subrects st then
    match fuel with
    | O => stuck
    | Datatypes.S fuel =>
        wait <- onSock (rQwait (4 + 8) 0) ;;
        if wait then ret false
        else
          color <- onSock (rQshiftBytes 4) ;;
          sx <- onSock rQshift16 ;;
          sy <- onSock rQshift16 ;;
          swidth <- onSock rQshift16 ;;
          sheight <- onSock rQshift16 ;;
          onDisp (fillRect (x + sx) (y + sy) swidth sheight (Some color)) ;;
          onDec (modify (fun st => mkRre (_subrects st - 1))) ;;
          subrects_loop fuel x y
    end
  else ret true.

Definition decodeRect (x y width height depth : Z) : M W bool :=
  st <- onDec get ;;
  wait <- (if _subrects st =? 0 then
             wait <- onSock (rQwait (4 + 4) 0) ;;
             if wait then ret true
             else
               subrects <- onSock rQshift32 ;;
               onDec (modify (fun _ => mkRre subrects)) ;;
               color <- onSock (rQshiftBytes 4) ;;
               onDisp (fillRect x y width height (Some color)) ;;
               ret false
           else ret false) ;;
  if wait then ret false
  else
    st <- onDec get ;;
    subrects_loop (Z.to_nat (_subrects st)) x y.
End RRE.

(** ** Resuming *)

Section RREFacts.
Variables x y width height depth : Z.

Abbreviation top := (decodeRect x y width height depth : M (world rre asrc trace) bool).

Lemma rre_top_loop w : 0 < _subrects (dec w) ->
  top w = subrects_loop (Z.to_nat (_subrects (dec w))) x y w.
Proof.
  intros Hl. destruct w as [st s t]. wcbn. unfold decodeRect. rewrite run_get.
  destruct (Z.eqb_spec (_subrects st) 0); [lia|]. reflexivity.
Qed.

Lemma subrects_loop_res fuel : forall w,
  fuel = Z.to_nat (_subrects (dec w)) -> Res (fun _ => True) top (subrects_loop fuel x y) w.
Proof.
  induction fuel as [|fuel IH]; intros [st s t] Hf; cbn [subrects_loop]; wcbn;
    (eapply res_step; [apply (stable_dec get _ _ _ eq_refl)|]); wcbn;
    destruct (Z.ltb_spec 0 (_subrects st)); try (apply res_true); [lia|].
  apply res_wait; [reflexivity|now intros _|intros _ l|intros Hs]; wcbn.
  - rewrite rre_top_loop by (wcbn; lia). wcbn. rewrite <- Hf. cbn [subrects_loop]. unfold ext. rewrite run_get. wcbn.
    destruct (Z.ltb_spec 0 (_subrects st)); [reflexivity|lia].
  - eapply res_step; [apply stable_take; wcbn; lia|]; wcbn.
    do 4 (eapply res_step; [apply stable_take; wcbn; zlia|]; wcbn).
    apply res_disp; [auto with sim|intros a t' _].
    eapply res_step; [apply stable_dec; reflexivity|]. apply IH; wcbn; cbn [_subrects]; lia.
Qed.

Lemma rre_decodeRect_res w : Res (fun _ => True) top top w.
Proof.
  destruct w as [st s t]. unfold decodeRect at 2.
  eapply res_step; [apply (stable_dec get _ _ _ eq_refl)|]; wcbn.
  destruct (Z.eqb_spec (_subrects st) 0) as [E|E].
  - apply res_assoc. apply res_wait; [reflexivity|easy|intros _ l|intros Hs]; wcbn.
    + unfold decodeRect, ext. rewrite run_get. wcbn. rewrite E. cbn [Z.eqb]. rewrite bind_assoc_run. reflexivity.
    + apply res_assoc. eapply res_step; [apply stable_take; wcbn; lia|]; wcbn.
      apply res_assoc. eapply res_step; [apply stable_dec; reflexivity|]; wcbn.
      apply res_assoc. eapply res_step; [apply stable_take; wcbn; zlia|]; wcbn.
      apply res_assoc. apply res_disp; [auto with sim|intros a t' _]. apply res_ret_l.
      eapply res_step; [apply (stable_dec get _ _ _ eq_refl)|]; wcbn.
      now apply subrects_loop_res.
  - apply res_ret_l. eapply res_step; [apply (stable_dec get _ _ _ eq_refl)|]; wcbn.
    now apply subrects_loop_res.
Qed.
End RREFacts.

(** ** What is drawn *)

(** A subrectangle as the server sends it. *)
Record subrect := Subrect { s_color : list Z; s_x : Z; s_y : Z; s_w : Z; s_h : Z }.

Definition subrect_ok (r : subrect) : Prop :=
  zlen (s_color r) = 4 /\ 0 <= s_x r < 65536 /\ 0 <= s_y r < 65536 /\ 0 <= s_w r < 65536 /\ 0 <= s_h r < 65536.

Definition encode_subrect (r : subrect) : list Z :=
  s_color r ++ be_bytes 2 (s_x r) ++ be_bytes 2 (s_y r) ++ be_bytes 2 (s_w r) ++ be_bytes 2 (s_h r).

Definition draw_subrect (x y : Z) (r : subrect) : draw :=
  DFill (x + s_x r) (y + s_y r) (s_w r) (s_h r) (s_color r).

Lemma zlen_encode_subrect r : subrect_ok r -> zlen (encode_subrect r) = 12.
Proof. intros (Hc & _). unfold encode_subrect. rewrite !zlen_app, !zlen_be_bytes. lia. Qed.

Lemma subrects_loop_draws x y tail : forall rs p (t : trace), Forall subrect_ok rs ->
  exists p', subrects_loop (List.length rs) x y
    (World (mkRre (zlen rs)) (ASrc p (flat_map encode_subrect rs ++ tail)) t) =
    (Ret true, World (mkRre 0) (ASrc p' tail) (t ++ map (draw_subrect x y) rs)).
Proof.
  induction rs as [|r rs IH]; intros p t Hf.
  - exists p. cbn. now rewrite app_nil_r.
  - inversion_clear Hf as [|? ? Hr Hf']. pose proof (zlen_encode_subrect r Hr) as HL.
    destruct Hr as (Hc & Hx & Hy & Hw & Hh). zlens.
    cbn [List.length subrects_loop]. rewrite run_get. cbn [_subrects].
    destruct (Z.ltb_spec 0 (zlen (r :: rs))); [|rewrite zlen_cons in *; lia].
    cbn [flat_map]. rewrite <- app_assoc, run_wait by (rewrite zlen_app; zlens; lia).
    unfold encode_subrect at 1. rewrite <- !app_assoc.
    rewrite (run_take 4 same same) by assumption.
    do 4 (rewrite (run_take 2 same be) by (rewrite zlen_be_bytes; lia)).
    unfold same. rewrite !be_bytes_small by (cbn; lia).
    rewrite run_fill, run_modify. cbn [_subrects].
    replace (zlen (r :: rs) - 1) with (zlen rs) by (rewrite zlen_cons; lia).
    match goal with |- context [ASrc ?q _] => destruct (IH q (t ++ [draw_subrect x y r]) Hf') as [p' Hp'] end.
    exists p'. etransitivity; [exact Hp'|]. now rewrite <- app_assoc.
Qed.

(** RRE: from the count, the background and the subrectangles, the decoder
    fills the whole rectangle and then each subrectangle in its place and in
    order; it consumes exactly these bytes and is ready for the next
    rectangle. *)
Theorem rre_draws (x y width height depth : Z) (bg : list Z) (rs : list subrect) (p tail : list Z) (t : trace) :
  zlen bg = 4 -> zlen rs < 4294967296 -> Forall subrect_ok rs ->
  exists p',
    decodeRect x y width height depth
      (World constructor (ASrc p (be_bytes 4 (zlen rs) ++ bg ++ flat_map encode_subrect rs ++ tail)) t) =
    (Ret true, World constructor (ASrc p' tail)
       (t ++ DFill x y width height bg :: map (draw_subrect x y) rs)).
Proof.
  intros Hb Hn Hf. unfold decodeRect, constructor. rewrite run_get. cbn [_subrects Z.eqb]. zlens.
  rewrite bind_assoc_run, run_wait by zlia.
  rewrite bind_assoc_run, (run_take 4 same be) by (rewrite zlen_be_bytes; lia).
  unfold same at 1. rewrite be_bytes_small by (cbn; lia).
  rewrite bind_assoc_run, run_modify, bind_assoc_run, (run_take 4 same same) by assumption. unfold same at 1.
  rewrite bind_assoc_run, run_fill.
  match goal with |- context [ASrc ?q _] => destruct (subrects_loop_draws x y tail rs q (t ++ [DFill x y width height bg]) Hf) as [p' Hp'] end.
  exists p'. unfold bind at 1, ret. rewrite run_get. cbn [_subrects].
  unfold zlen at 1. rewrite Nat2Z.id. etransitivity; [exact Hp'|]. now rewrite <- app_assoc.
Qed.

Lemma rre_draws_witness : exists p',
  decodeRect 1 2 10 10 24 (World constructor
    (ASrc [] [0; 0; 0; 1; 9; 9; 9; 0; 5; 6; 7; 0; 0; 3; 0; 4; 0; 2; 0; 1; 42]) []) =
  (Ret true, World constructor (ASrc p' [42]) [DFill 1 2 10 10 [9; 9; 9; 0]; DFill 4 6 2 1 [5; 6; 7; 0]]).
Proof.
  destruct (rre_draws 1 2 10 10 24 [9; 9; 9; 0] [Subrect [5; 6; 7; 0] 3 4 2 1] [] [42] []) as [p' H];
    [reflexivity|reflexivity|repeat constructor; cbn; lia|].
  exists p'. exact H.
Defined.

(** RRE: however the data is cut into messages, the draws and the final
    state are those of the data arriving at once, and no byte is read before
    it has arrived. *)
Theorem rre_resumes (x y width height depth : Z) (w : world rre asrc trace) (chunks : list (list Z)) :
  let m := decodeRect x y width height depth in
  feed m w chunks = m (ext (List.concat chunks) w) /\ fst (m w) <> Stuck.
Proof.
  intros m. apply (feed_concat (fun _ => True)); [|exact I]. intros w' _. apply rre_decodeRect_res.
Qed.
End RREDecoder.

(** * The decoders on the receive queue *)

Section OnQueue.
Context {S : Type} `{ByteSourceOk S}.

Lemma raw_loop_sim x y width height depth fuel : 0 <= width ->
  Sim (wrel (St := RawDecoder.raw)) eq
    (RawDecoder.lines_loop (S := S) (D := trace) fuel x y width height depth)
    (RawDecoder.lines_loop (S := asrc) (D := trace) fuel x y width height depth).
Proof.
  intros Hw. induction fuel as [|fuel IH]; cbn [RawDecoder.lines_loop].
  - sim_walk.
  - apply sim_bind_eq; [apply sim_onDec|intros st]. case_if; [|apply sim_ret_eq].
    apply sim_bind_eq; [auto with sim|intros wait]. destruct wait; [apply sim_ret_eq|].
    apply sim_bind_eq; [|intros _; apply sim_bind_eq; [apply sim_onDec|intros _; exact IH]].
    destruct (Z.eqb_spec depth 8).
    + eapply sim_bind; [apply sim_onSock, sim_shiftView; auto|].
      intros v1 v2 Hv. apply sim_onDisp. destruct Hv as (_ & _ & _ & _ & ->). reflexivity.
    + eapply sim_bind; [apply sim_onSock, sim_shiftView; intros; now apply set_opaque_bytes|].
      intros v1 v2 Hv. apply sim_onDisp. apply (blit_view_eq _ _ _ _ _ _ _ _ Hv); lia.
Qed.

Lemma rre_loop_sim x y fuel :
  Sim (wrel (St := RREDecoder.rre)) eq
    (RREDecoder.subrects_loop (S := S) (D := trace) fuel x y)
    (RREDecoder.subrects_loop (S := asrc) (D := trace) fuel x y).
Proof.
  induction fuel as [|fuel IH]; cbn [RREDecoder.subrects_loop]; sim_walk. exact IH.
Qed.

Lemma raw_sim x y width height depth : 0 <= width ->
  Sim (wrel (S := S)) eq (RawDecoder.decodeRect x y width height depth) (RawDecoder.decodeRect x y width height depth).
Proof.
  intros Hw. unfold RawDecoder.decodeRect. case_if; [apply sim_ret_eq|].
  apply sim_bind_eq; [apply sim_onDec|intros st].
  apply sim_bind_eq; [case_if; [apply sim_onDec|apply sim_ret_eq]|intros _].
  apply sim_bind_eq; [apply sim_onDec|intros st']. now apply raw_loop_sim.
Qed.

Lemma copyrect_sim x y width height depth :
  Sim (wrel (S := S)) eq (CopyRectDecoder.decodeRect x y width height depth) (CopyRectDecoder.decodeRect x y width height depth).
Proof. unfold CopyRectDecoder.decodeRect. sim_walk. Qed.

Lemma rre_sim x y width height depth :
  Sim (wrel (S := S)) eq (RREDecoder.decodeRect x y width height depth) (RREDecoder.decodeRect x y width height depth).
Proof.
  unfold RREDecoder.decodeRect. apply sim_bind_eq; [apply sim_onDec|intros st].
  apply sim_bind_eq; [sim_walk|intros wait]. case_if; [apply sim_ret_eq|].
  apply sim_bind_eq; [apply sim_onDec|intros st']. apply rre_loop_sim.
Qed.
End OnQueue.

(** * Messages, the receive queue and a decoder together *)

Import Websock.Websock.

Section Served.
Context {St : Type}.
Abbreviation W := (world St websock trace).

Fixpoint receive_all (chunks : list (list Z)) : M W unit :=
  match chunks with [] => ret tt | c :: chunks => onSock (_recvMessage c) ;; receive_all chunks end.

(** A decoder that has returned false is called again when a message has come
    and the queue has called its handler. *)
Fixpoint serve_more (m : M W bool) (chunks : list (list Z)) : M W bool :=
  match chunks with
  | [] => ret false
  | c :: chunks =>
      called <- onSock (_recvMessage c) ;;
      if called then done <- m ;; if done then receive_all chunks ;; ret true else serve_more m chunks
      else serve_more m chunks
  end.
Definition serve (m : M W bool) (chunks : list (list Z)) : M W bool :=
  done <- m ;; if done then receive_all chunks ;; ret true else serve_more m chunks.

Variable m : M W bool.
Variable ma : M (world St asrc trace) bool.
Variable Inv : St -> Prop.
Hypothesis m_sim : Sim (wrel (S := websock)) eq m ma.
Hypothesis ma_sim : Sim (wrel (S := asrc)) eq ma ma.
Hypothesis ma_res : forall w, Inv (dec w) -> Res (fun w => Inv (dec w)) ma ma w.
Hypothesis ma_eats : forall w, zlen (rest (sock (snd (ma w)))) <= zlen (rest (sock w)).

Lemma run_recv {B} c (k : bool -> M W B) st s t : rq_wf s -> bytes c -> zlen (unread s) + zlen c <= MAX_RQ_GROW_SIZE ->
  exists s', bind (onSock (_recvMessage c)) k (World st s t) = k (0 <? zlen (unread s ++ c)) (World st s' t) /\
    rq_wf s' /\ unread s' = unread s ++ c.
Proof.
  intros Hwf Hb Hm. assert (H := recvMessage_spec s c Hwf Hb). destruct (Z.leb_spec (zlen (unread s) + zlen c) MAX_RQ_GROW_SIZE); [|lia].
  destruct H as (s' & E & Hu & Hwf' & _). exists s'. split; [|auto]. unfold bind, onSock, lift. cbn [dec sock disp]. now rewrite E.
Qed.

Lemma receive_all_run chunks : forall st s t, rq_wf s -> Forall bytes chunks -> zlen (unread s) + zlen (List.concat chunks) <= MAX_RQ_GROW_SIZE ->
  exists s', receive_all chunks (World st s t) = (Ret tt, World st s' t) /\ rq_wf s' /\ unread s' = unread s ++ List.concat chunks.
Proof.
  induction chunks as [|c chunks IH]; intros st s t Hwf Hb Hm; cbn [receive_all List.concat] in *.
  - exists s. rewrite app_nil_r. auto.
  - inversion_clear Hb. rewrite zlen_app in Hm. assert (Hz := zlen_nonneg (List.concat chunks)).
    destruct (run_recv c (fun _ => receive_all chunks) st s t Hwf H) as (s1 & -> & Hwf1 & Hu1); [lia|].
    destruct (IH st s1 t Hwf1 H0) as (s2 & E & Hwf2 & Hu2); [rewrite Hu1, zlen_app; lia|].
    exists s2. split; [exact E|]. split; [exact Hwf2|]. now rewrite Hu2, Hu1, app_assoc.
Qed.

(** What a decoder does does not depend on the bytes before those to come. *)
Lemma on_bytes st p r t b st' p' r' t' : Inv st -> ma (World st (ASrc p r) t) = (Ret b, World st' (ASrc p' r') t') ->
  exists q', ma (World st (ASrc [] r) t) = (Ret b, World st' (ASrc q' r') t').
Proof.
  intros Hi E. assert (Hr : wrel (S := asrc) (World st (ASrc p r) t) (World st (ASrc [] r) t)).
  { split; [reflexivity|]. split; [reflexivity|]. split; [reflexivity|]. exists p. now rewrite app_nil_r. }
  specialize (ma_sim _ _ Hr) as Hs. specialize (ma_res (World st (ASrc [] r) t) Hi) as Hs2. unfold Res in Hs2.
  rewrite E in Hs. destruct (ma (World st (ASrc [] r) t)) as [[b0|e|] [st2 [p2 r2] t2]]; [| |easy].
  - destruct Hs as (b1 & w & [= <- <-] & <- & H1 & H2 & H3 & _). cbn in *. subst. now exists p2.
  - destruct Hs as (w & [=] & _).
Qed.

(** All that comes makes the decoder end as it says. *)
Definition ends_with (chunks : list (list Z)) (st' : St) (tail : list Z) (t' : trace) (run : M W bool) (st : St) (s : websock) (t : trace) : Prop :=
  Inv st -> rq_wf s -> Forall bytes chunks -> zlen (unread s) + zlen (List.concat chunks) <= MAX_RQ_GROW_SIZE ->
  (exists p', ma (World st (ASrc [] (unread s ++ List.concat chunks)) t) = (Ret true, World st' (ASrc p' tail) t')) ->
  exists s', run (World st s t) = (Ret true, World st' s' t') /\ rq_wf s' /\ unread s' = tail.

(** The decoder waits: called again it does nothing. *)
Definition waits (st : St) (s : websock) (t : trace) : Prop :=
  exists p', ma (World st (ASrc [] (unread s)) t) = (Ret false, World st (ASrc p' (unread s)) t).

Lemma serve_from chunks st' tail t' :
  (forall st s t, waits st s t -> ends_with chunks st' tail t' (serve_more m chunks) st s t) ->
  forall st s t, ends_with chunks st' tail t' (serve m chunks) st s t.
Proof.
  intros Hmore st s t Hi Hwf Hb Hm (p' & E). set (w := World st (ASrc [] (unread s)) t).
  assert (Hr : wrel (S := websock) (World st s t) w).
  { split; [reflexivity|]. split; [reflexivity|]. split; [exact Hwf|]. split; [reflexivity|]. exists (ztake (_rQi s) (_rQ s)). now rewrite app_nil_r. }
  assert (Hs := m_sim _ _ Hr). assert (Hs2 := ma_res w Hi). assert (Hk := ma_eats w). unfold Res in Hs2.
  change (World st (ASrc [] (unread s ++ List.concat chunks)) t) with (ext (List.concat chunks) w) in E. unfold serve, bind.
  destruct (ma w) as [[b|e|] [st2 [p2 r2] t2]] eqn:Ew; [| |easy].
  - destruct Hs as (b1 & [std sd td] & -> & -> & H1 & H2 & Hwf2 & Hu2 & _). cbn [dec disp sock rest snd w] in *. subst std td.
    destruct b.
    + rewrite Hs2 in E. injection E as -> -> <- ->. destruct (receive_all_run chunks st' sd t' Hwf2 Hb) as (s3 & -> & Hwf3 & Hu3); [rewrite Hu2; lia|].
      exists s3. split; [reflexivity|]. split; [exact Hwf3|]. now rewrite Hu3, Hu2.
    + destruct Hs2 as [Hi2 Hs2]. apply Hmore; auto; [|rewrite Hu2; lia|].
      * specialize (Hs2 []). rewrite !ext_nil, Ew in Hs2. symmetry in Hs2. unfold waits. rewrite Hu2. now apply (on_bytes _ p2 _ _ _ _ p2 _ _ Hi2).
      * rewrite Hs2 in E. unfold ext in E. cbn [dec disp sock past rest] in E. rewrite Hu2. now apply (on_bytes _ _ _ _ _ _ _ _ _ Hi2 E).
  - rewrite Hs2 in E. discriminate E.
Qed.

Lemma more_served chunks st' tail t' : forall st s t, waits st s t -> ends_with chunks st' tail t' (serve_more m chunks) st s t.
Proof.
  induction chunks as [|c chunks IH]; intros st s t Hwait Hi Hwf Hb Hm (p' & E).
  - cbn [List.concat] in E. rewrite app_nil_r in E. destruct Hwait as [q Hq]. congruence.
  - inversion_clear Hb. cbn [List.concat serve_more] in *. rewrite zlen_app in Hm. assert (Hz := zlen_nonneg (List.concat chunks)).
    match goal with |- context [bind _ ?k] => destruct (run_recv c k st s t Hwf H) as (s1 & E1 & Hwf1 & Hu1); [lia|] end. rewrite E1.
    rewrite app_assoc, <- Hu1 in E. assert (Hm1 : zlen (unread s1) + zlen (List.concat chunks) <= MAX_RQ_GROW_SIZE) by (rewrite Hu1, zlen_app; lia).
    destruct (Z.ltb_spec 0 (zlen (unread s ++ c))) as [Hc|Hc].
    + apply (serve_from chunks st' tail t' IH); eauto.
    + apply IH; eauto. assert (E0 : unread s ++ c = []) by (apply zlen_0_nil; assert (H1 := zlen_nonneg (unread s ++ c)); lia).
      apply app_eq_nil in E0 as [E0 ->]. unfold waits in *. rewrite Hu1, app_nil_r. exact Hwait.
Qed.

Lemma served chunks st' tail t' st s t : ends_with chunks st' tail t' (serve m chunks) st s t.
Proof. apply serve_from. intros. now apply more_served. Qed.
End Served.

(** ** No decoder gives bytes back *)

Section Eaters.
Context {St : Type}.

Definition Eater {A} (m : M (world St asrc trace) A) : Prop := forall w, zlen (rest (sock (snd (m w)))) <= zlen (rest (sock w)).

Lemma eater_ret {A} (a : A) : Eater (ret a).
Proof. intros w. reflexivity. Qed.
Lemma eater_stuck {A} : Eater (stuck : M _ A).
Proof. intros w. reflexivity. Qed.
Lemma eater_bind {A B} (m : M _ A) (k : A -> M _ B) : Eater m -> (forall a, Eater (k a)) -> Eater (bind m k).
Proof.
  intros Hm Hk w. specialize (Hm w). unfold bind. destruct (m w) as [[a|e|] w']; cbn [snd] in *; [|exact Hm..].
  specialize (Hk a w'). lia.
Qed.
Lemma eater_onDec {A} (m : M St A) : Eater (onDec m).
Proof. intros [st s t]. unfold onDec, lift. cbn [dec]. destruct (m st) as [[a|e|] st']; reflexivity. Qed.
Lemma eater_onDisp {A} (m : M trace A) : Eater (onDisp m).
Proof. intros [st s t]. unfold onDisp, lift. cbn [disp]. destruct (m t) as [[a|e|] t']; reflexivity. Qed.
Lemma eater_atake {A} n f (k : list Z -> A) : Eater (onSock (atake n f k)).
Proof.
  intros [st [p r] t]. unfold onSock, lift, atake. cbn [sock rest]. destruct (Z.leb_spec 0 n), (Z.leb_spec n (zlen r)); cbn; rewrite ?zlen_zdrop; lia.
Qed.
Lemma eater_wait n : Eater (onSock (Source.rQwait n 0)).
Proof. intros [st [p r] t]. unfold onSock, lift. cbn. destruct (zlen r <? n); reflexivity. Qed.
Lemma eater_view n f : Eater (onSock (Source.rQshiftView n f)).
Proof.
  intros [st [p r] t]. unfold onSock, lift. cbn [sock rest Source.rQshiftView asrc_source].
  destruct (zlen (f (ztake n r)) =? n); [exact (eater_atake n f fresh_view (World st (ASrc p r) t))|reflexivity].
Qed.
End Eaters.

Create HintDb eater discriminated.
#[local] Hint Resolve eater_ret eater_stuck eater_onDec eater_onDisp eater_atake eater_wait eater_view : eater.
Ltac eater_walk :=
  repeat first [ solve [auto with eater | apply eater_atake] | apply eater_bind; [|intros] | case_if
    | match goal with |- Eater (match ?x with _ => _ end) => destruct x end ].

Lemma raw_loop_eats x y width height depth fuel : Eater (RawDecoder.lines_loop (S := asrc) (D := trace) fuel x y width height depth).
Proof. induction fuel as [|fuel IH]; cbn [RawDecoder.lines_loop]; eater_walk; exact IH. Qed.
Lemma raw_eats x y width height depth : Eater (RawDecoder.decodeRect (S := asrc) (D := trace) x y width height depth).
Proof. unfold RawDecoder.decodeRect. eater_walk. apply raw_loop_eats. Qed.
Lemma copyrect_eats x y width height depth : Eater (CopyRectDecoder.decodeRect (S := asrc) (D := trace) x y width height depth).
Proof. unfold CopyRectDecoder.decodeRect. eater_walk. Qed.
Lemma rre_loop_eats x y fuel : Eater (RREDecoder.subrects_loop (S := asrc) (D := trace) fuel x y).
Proof. induction fuel as [|fuel IH]; cbn [RREDecoder.subrects_loop]; eater_walk; exact IH. Qed.
Lemma rre_eats x y width height depth : Eater (RREDecoder.decodeRect (S := asrc) (D := trace) x y width height depth).
Proof. unfold RREDecoder.decodeRect. eater_walk. apply rre_loop_eats. Qed.

(** ** What comes over the channel is what is drawn *)

(** However the bytes of a rectangle and those behind it are spread over the
    queue and the messages to come, the decoder, called as the queue calls it,
    ends, has drawn [ds], is ready for the next rectangle and leaves in the
    queue what is behind. *)
Definition draws_from_queue {St} (m : M (world St websock trace) bool) (st : St) (encoded : list Z) (ds : list draw) : Prop :=
  forall s chunks tail t, rq_wf s -> Forall bytes chunks -> zlen (unread s) + zlen (List.concat chunks) <= MAX_RQ_GROW_SIZE ->
  unread s ++ List.concat chunks = encoded ++ tail ->
  exists s', serve m chunks (World st s t) = (Ret true, World st s' (t ++ ds)) /\ rq_wf s' /\ unread s' = tail.

(** C6.  On the real receive queue, whatever messages its bytes come in and
    whatever compaction and growth they cause, a Raw rectangle draws its rows
    in their places, a CopyRect rectangle one copy from its source (none when
    it is empty), an RRE rectangle its background and its subrectangles in
    order; each reads exactly its bytes. *)
Theorem decoders_on_queue (x y width height depth : Z) :
  (forall rows, 0 < width -> 0 < height -> zlen rows = height ->
     Forall (fun row => zlen row = width * (if depth =? 8 then 1 else 4)) rows -> bytes (List.concat rows) ->
     draws_from_queue (RawDecoder.decodeRect x y width height depth) RawDecoder.constructor
       (List.concat rows) (RawDecoder.row_blits x width depth y rows)) /\
  (forall ox oy, 0 <= ox < 65536 -> 0 <= oy < 65536 ->
     draws_from_queue (CopyRectDecoder.decodeRect x y width height depth) tt
       (be_bytes 2 ox ++ be_bytes 2 oy) (if (width =? 0) || (height =? 0) then [] else [DCopy ox oy x y width height])) /\
  (forall bg rs, zlen bg = 4 -> zlen rs < 4294967296 -> Forall RREDecoder.subrect_ok rs ->
     draws_from_queue (RREDecoder.decodeRect x y width height depth) RREDecoder.constructor
       (be_bytes 4 (zlen rs) ++ bg ++ flat_map RREDecoder.encode_subrect rs)
       (DFill x y width height bg :: map (RREDecoder.draw_subrect x y) rs)).
Proof.
  split; [|split].
  - intros rows Hw Hh Hl Hf Hb s chunks tail t Hwf Hc Hm E.
    apply (served _ (RawDecoder.decodeRect x y width height depth) RawDecoder.inv); auto; try (now apply raw_sim; lia).
    + intros w Hi. apply RawDecoder.raw_decodeRect_res; solve [exact Hi|lia].
    + apply raw_eats.
    + unfold RawDecoder.inv. cbn. lia.
    + rewrite E. now apply RawDecoder.rows_drawn.
  - intros ox oy Hx Hy s chunks tail t Hwf Hc Hm E.
    apply (served _ (CopyRectDecoder.decodeRect x y width height depth) (fun _ => True)); auto; try apply copyrect_sim.
    + intros w _. apply CopyRectDecoder.copyrect_decodeRect_res.
    + apply copyrect_eats.
    + rewrite E. destruct (CopyRectDecoder.copyrect_draws x y width height depth ox oy [] tail t [be_bytes 2 ox ++ be_bytes 2 oy ++ tail] Hx Hy) as (p' & Ec); [cbn; now rewrite app_nil_r|].
      rewrite (proj1 (feed_concat (fun _ => True) _ (fun w _ => CopyRectDecoder.copyrect_decodeRect_res x y width height depth w) _ (World tt (ASrc [] []) t) I)) in Ec.
      unfold ext in Ec. cbn [List.concat dec sock disp past rest app] in Ec. rewrite app_nil_r in Ec. rewrite <- app_assoc. now exists p'.
  - intros bg rs Hb Hn Hf s chunks tail t Hwf Hc Hm E.
    apply (served _ (RREDecoder.decodeRect x y width height depth) (fun _ => True)); auto; try apply rre_sim.
    + intros w _. apply RREDecoder.rre_decodeRect_res.
    + apply rre_eats.
    + rewrite E, <- !app_assoc. now apply RREDecoder.rre_draws.
Qed.

(** The queue of [demo] holds three bytes of a rectangle of two pixels; the
    others come in two messages, the second with a byte of what follows. *)
Lemma decoders_on_queue_witness : exists s',
  serve (RawDecoder.decodeRect 5 7 1 2 24) [[0; 4]; [5; 6; 0; 99]] (World RawDecoder.constructor demo []) =
    (Ret true, World RawDecoder.constructor s' [DBlit 5 7 1 1 [11; 12; 13; 255]; DBlit 5 8 1 1 [4; 5; 6; 255]]) /\
  rq_wf s' /\ unread s' = [99].
Proof.
  destruct (decoders_on_queue 5 7 1 2 24) as [H _].
  apply (H [[11; 12; 13; 0]; [4; 5; 6; 0]]) with (t := []) (tail := [99]); try reflexivity.
  - repeat constructor.
  - repeat constructor; cbn; lia.
  - exact demo_wf.
  - repeat constructor; cbn; lia.
  - vm_compute. discriminate.
Defined.
