(* ===== verification/Hextile.v ===== *)
(** The Hextile decoder, core/decoders/hextile.js. *)

From Stdlib Require Import ZArith List Lia Bool String.
From S2P Require Import Prelude Source Sink Websock Display Decoder Decoders.
Import ListNotations JS JSFacts.
Open Scope Z_scope.
Open Scope code_scope.

Module HextileDecoder.

(** Fields the constructor does not set are undefined at first: the colours
    are options, the numbers start at 0 and are set before they are read. *)
Record hextile := mkHextile {
  _tiles : Z;
  _lastsubencoding : Z;
  _tileBuffer : list Z;
  _tilesX : Z;
  _tilesY : Z;
  _totalTiles : Z;
  _background : option (list Z);
  _foreground : option (list Z);
  _tileX : Z;
  _tileY : Z;
  _tileW : Z;
  _tileH : Z
}.

Definition constructor : hextile := mkHextile 0 0 (zrep (16 * 16 * 4) 0) 0 0 0 None None 0 0 0 0.

Definition set_tiles v h := mkHextile v (_lastsubencoding h) (_tileBuffer h) (_tilesX h) (_tilesY h) (_totalTiles h) (_background h) (_foreground h) (_tileX h) (_tileY h) (_tileW h) (_tileH h).
Definition set_lastsubencoding v h := mkHextile (_tiles h) v (_tileBuffer h) (_tilesX h) (_tilesY h) (_totalTiles h) (_background h) (_foreground h) (_tileX h) (_tileY h) (_tileW h) (_tileH h).
Definition set_tileBuffer v h := mkHextile (_tiles h) (_lastsubencoding h) v (_tilesX h) (_tilesY h) (_totalTiles h) (_background h) (_foreground h) (_tileX h) (_tileY h) (_tileW h) (_tileH h).
Definition set_grid tx ty n h := mkHextile n (_lastsubencoding h) (_tileBuffer h) tx ty n (_background h) (_foreground h) (_tileX h) (_tileY h) (_tileW h) (_tileH h).
Definition set_background v h := mkHextile (_tiles h) (_lastsubencoding h) (_tileBuffer h) (_tilesX h) (_tilesY h) (_totalTiles h) (Some v) (_foreground h) (_tileX h) (_tileY h) (_tileW h) (_tileH h).
Definition set_foreground v h := mkHextile (_tiles h) (_lastsubencoding h) (_tileBuffer h) (_tilesX h) (_tilesY h) (_totalTiles h) (_background h) (Some v) (_tileX h) (_tileY h) (_tileW h) (_tileH h).
Definition set_tile x y w h s := mkHextile (_tiles s) (_lastsubencoding s) (_tileBuffer s) (_tilesX s) (_tilesY s) (_totalTiles s) (_background s) (_foreground s) x y w h.

(** [Math.ceil(n / 16)] *)
Definition ceil16 (n : Z) : Z := - (- n / 16).

(** [data[p] = red; ...; data[p + 3] = 255] *)
Definition put_pixel (p : Z) (color data : list Z) : list Z :=
  zset (zset (zset (zset data p (zgetd color 0)) (p + 1) (zgetd color 1)) (p + 2) (zgetd color 2)) (p + 3) 255.

(** The bits of the subencoding. *)
Definition bit (subencoding mask : Z) : bool := negb ((subencoding & mask)%js =? 0).

Section Hextile.
Context {S D : Type} `{ByteSource S} `{Renderer D}.
Abbreviation W := (world hextile S D).

Definition _startTile (x y width height : Z) (color : option (list Z)) : M W unit :=
  onDec (modify (set_tile x y width height)) ;;
  match color with
  | None => throw "TypeError"
  | Some color =>
      onDec (modify (fun h => set_tileBuffer
        (fold_left (fun data i => put_pixel (i * 4) color data) (upto (width * height)) (_tileBuffer h)) h))
  end.

(** The pixels of a subrectangle, row by row. *)
Definition sub_pixels (x y w h width : Z) : list Z :=
  flat_map (fun j => map (fun i => (x + i) + (y + j) * width) (upto w)) (upto h).

Definition _subTile (x y w h : Z) (color : option (list Z)) : M W unit :=
  match color with
  | None => throw "TypeError"
  | Some color =>
      onDec (modify (fun t => set_tileBuffer
        (fold_left (fun data i => put_pixel (i * 4) color data) (sub_pixels x y w h (_tileW t)) (_tileBuffer t)) t))
  end.

Definition _finishTile : M W unit :=
  t <- onDec get ;;
  onDisp (blitImage (_tileX t) (_tileY t) (_tileW t) (_tileH t) (fresh_view (_tileBuffer t)) 0).

(** [for (let s = 0; s < subrects; s++)] *)
Fixpoint subrects_loop (n : nat) (subencoding : Z) : M W unit :=
  match n with
  | O => ret tt
  | Datatypes.S n =>
      color <- (if bit subencoding 16 then
                  c <- onSock (rQshiftBytes 4) ;; ret (Some c)
                else
                  t <- onDec get ;; ret (_foreground t)) ;;
      xy <- onSock rQshift8 ;;
      wh <- onSock rQshift8 ;;
      _subTile (xy >> 4)%js (xy & 15)%js ((wh >> 4)%js + 1) ((wh & 15)%js + 1) color ;;
      subrects_loop n subencoding
  end.

(** The tile is all there. *)
Definition draw_tile (subencoding tx ty tw th : Z) : M W unit :=
  if subencoding =? 0 then
    t <- onDec get ;;
    if bit (_lastsubencoding t) 1 then ret tt
    else onDisp (fillRect tx ty tw th (_background t))
  else if bit subencoding 1 then
    let pixels := tw * th in
    data <- onSock (rQshiftView (pixels * 4) (set_opaque pixels)) ;;
    onDisp (blitImage tx ty tw th data 0)
  else
    (if bit subencoding 2 then
       c <- onSock (rQshiftBytes 4) ;; onDec (modify (set_background c))
     else ret tt) ;;
    (if bit subencoding 4 then
       c <- onSock (rQshiftBytes 4) ;; onDec (modify (set_foreground c))
     else ret tt) ;;
    t <- onDec get ;;
    _startTile tx ty tw th (_background t) ;;
    (if bit subencoding 8 then
       subrects <- onSock rQshift8 ;;
       subrects_loop (Z.to_nat subrects) subencoding
     else ret tt) ;;
    _finishTile.

(** How many bytes the tile takes; none when they are not known yet. *)
Definition tile_bytes (subencoding tw th : Z) : M W (option Z) :=
  if bit subencoding 1 then ret (Some (1 + tw * th * 4))
  else
    let bytes := 1 + (if bit subencoding 2 then 4 else 0) + (if bit subencoding 4 then 4 else 0) in
    if bit subencoding 8 then
      let bytes := bytes + 1 in
      wait <- onSock (rQwait bytes 0) ;;
      if wait then ret None
      else
        l <- onSock (rQpeekBytes bytes) ;;
        let subrects := List.last l 0 in
        ret (Some (bytes + (if bit subencoding 16 then subrects * (4 + 2) else subrects * 2)))
    else ret (Some bytes).

Fixpoint tiles_loop (fuel : nat) (x y width height : Z) : M W bool :=
  st <- onDec get ;;
  if 0 <? _tiles st then
    match fuel with
    | O => stuck
    | Datatypes.S fuel =>
        wait <- onSock (rQwait 1 0) ;;
        if wait then ret false
        else
          subencoding <- onSock rQpeek8 ;;
          if 30 <? subencoding then throw "Illegal hextile subencoding"
          else
            let currTile := _totalTiles st - _tiles st in
            let tileX := currTile mod _tilesX st in
            let tileY := currTile / _tilesX st in
            let tx := x + tileX * 16 in
            let ty := y + tileY * 16 in
            let tw := Z.min 16 (x + width - tx) in
            let th := Z.min 16 (y + height - ty) in
            bytes <- tile_bytes subencoding tw th ;;
            match bytes with
            | None => ret false
            | Some bytes =>
                wait <- onSock (rQwait bytes 0) ;;
                if wait then ret false
                else
                  _ <- onSock rQshift8 ;;
                  draw_tile subencoding tx ty tw th ;;
                  onDec (modify (fun st => set_tiles (_tiles st - 1) (set_lastsubencoding subencoding st))) ;;
                  tiles_loop fuel x y width height
            end
    end
  else ret true.

Definition decodeRect (x y width height depth : Z) : M W bool :=
  st <- onDec get ;;
  (if _tiles st =? 0 then
     onDec (modify (set_grid (ceil16 width) (ceil16 height) (ceil16 width * ceil16 height)))
   else ret tt) ;;
  st <- onDec get ;;
  tiles_loop (Z.to_nat (_tiles st)) x y width height.
End Hextile.
End HextileDecoder.
