(* ===== verification/HextileCorrect.v ===== *)
(** Theorems on the Hextile decoder: the cut of the data into messages does not
    matter, and the tiles drawn are those of RFC 6143. *)

From Stdlib Require Import ZArith List Lia Bool String.
From S2P Require Import Prelude Source Sink Websock Display Decoder Decoders Hextile.
Import ListNotations JS JSFacts HextileDecoder.
Open Scope Z_scope.
Open Scope code_scope.

(** * Sizes *)

(** The bytes of a tile before its subrectangles, and all of them; [r] is what
    can be read. *)
Definition head_size (subencoding : Z) : Z :=
  1 + (if bit subencoding 2 then 4 else 0) + (if bit subencoding 4 then 4 else 0).

Definition sub_size (subencoding : Z) : Z := if bit subencoding 16 then 6 else 2.

Definition tile_size (subencoding tw th : Z) (r : list Z) : Z :=
  if bit subencoding 1 then 1 + tw * th * 4
  else if bit subencoding 8 then head_size subencoding + 1 + zgetd r (head_size subencoding) * sub_size subencoding
  else head_size subencoding.

Lemma head_size_range s : 1 <= head_size s <= 9.
Proof. unfold head_size. destruct (bit s 2), (bit s 4); lia. Qed.

Lemma last_take (l : list Z) n : 0 <= n < zlen l -> List.last (ztake (n + 1) l) 0 = zgetd l n.
Proof.
  intros Hn. destruct (zget_some l n Hn) as [v Hv]. unfold zgetd. rewrite Hv.
  assert (E : ztake (n + 1) l = ztake n l ++ [v]).
  { rewrite <- (ztake_zdrop n l) at 1. rewrite (zdrop_cons_get _ _ _ Hv), ztake_app. zlens.
    rewrite zlen_ztake. replace (n + 1 - Z.min (Z.max 0 n) (zlen l)) with 1 by lia.
    rewrite (ztake_all (n + 1)) by (rewrite zlen_ztake; lia). reflexivity. }
  now rewrite E, last_last.
Qed.

Section Resuming.
Variables x y width height depth : Z.
Hypotheses (width_ok : 0 <= width) (height_ok : 0 <= height).
Abbreviation W := (world hextile asrc trace).
Abbreviation top := (decodeRect x y width height depth : M W bool).
Implicit Types (st : hextile) (w : W).

(** ** Reading one tile *)

Lemma subrects_eats subencoding n : forall w, Z.of_nat n * sub_size subencoding <= zlen (rest (sock w)) ->
  Eats (Z.of_nat n * sub_size subencoding) (subrects_loop n subencoding) w.
Proof.
  assert (Hc : sub_size subencoding = 6 \/ sub_size subencoding = 2) by (unfold sub_size; case_if; auto).
  induction n as [|n IH]; intros w Hn; cbn [subrects_loop]; [apply eats_ret|].
  assert (Hcol : sub_size subencoding - 2 = if bit subencoding 16 then 4 else 0) by (unfold sub_size; case_if; reflexivity).
  set (c := sub_size subencoding) in *. assert (Hm : 0 <= Z.of_nat n * c) by (destruct Hc; nia).
  rewrite Nat2Z.inj_succ, Z.mul_succ_l in *.
  apply (eats_bind (c - 2) (2 + Z.of_nat n * c)); [lia|lia|lia| |].
  - rewrite Hcol. case_if.
    + apply (eats_bind 4 0); [lia|lia|lia|apply eats_take; lia|intros a w1 _ _; apply eats_ret].
    + apply (eats_bind 0 0); [lia|lia|lia|now apply eats_dec|intros a w1 _ _; apply eats_ret].
  - intros color w1 _ Hr. assert (Hl : zlen (rest (sock w1)) = zlen (rest (sock w)) - (c - 2))
      by (rewrite Hr, zlen_zdrop; zlens; lia).
    apply (eats_bind 1 (1 + Z.of_nat n * c)); [lia|lia|lia|apply eats_take; lia|].
    intros xy w2 _ Hr2. assert (Hl2 : zlen (rest (sock w2)) = zlen (rest (sock w1)) - 1)
      by (rewrite Hr2, zlen_zdrop; zlens; lia).
    apply (eats_bind 1 (Z.of_nat n * c)); [lia|lia|lia|apply eats_take; lia|].
    intros wh w3 _ Hr3. assert (Hl3 : zlen (rest (sock w3)) = zlen (rest (sock w2)) - 1)
      by (rewrite Hr3, zlen_zdrop; zlens; lia).
    apply (eats_bind 0 (Z.of_nat n * c)); [lia|lia|lia| |].
    + unfold _subTile. destruct color; [now apply eats_dec|apply eats_throw].
    + intros u w4 _ Hr4. apply IH. rewrite Hr4, zdrop_nonpos by lia. lia.
Qed.

Lemma color_eats (b : bool) (f : list Z -> hextile -> hextile) w : (if b then 4 else 0) <= zlen (rest (sock w)) ->
  Eats (if b then 4 else 0) (if b then c <- onSock (rQshiftBytes 4) ;; onDec (modify (f c)) else ret tt) w.
Proof.
  intros Hn. destruct b; [|apply eats_ret]. apply (eats_bind 4 0); [lia|lia|lia|apply eats_take; lia|].
  intros c w1 _ _. now apply eats_dec.
Qed.

Lemma draw_eats subencoding tx ty tw th b r w : rest (sock w) = r -> 0 <= tw -> 0 <= th -> bytes r ->
  tile_size subencoding tw th (b :: r) <= zlen (b :: r) ->
  Eats (tile_size subencoding tw th (b :: r) - 1) (draw_tile subencoding tx ty tw th) w.
Proof.
  intros Er Hw Hh Hb Hn. rewrite zlen_cons in Hn. unfold draw_tile, tile_size in *.
  destruct (Z.eqb_spec subencoding 0) as [->|Hs].
  { match goal with |- Eats ?n _ _ => change n with 0 end. apply (eats_bind 0 0); [lia|lia|lia|now apply eats_dec|].
    intros t w1 _ _. case_if; [apply eats_ret|apply eats_disp; auto with sim]. }
  destruct (bit subencoding 1).
  { assert (Hp : 0 <= tw * th * 4) by nia.
    apply (eats_bind (tw * th * 4) 0); [lia|lia|lia| |].
    - apply eats_view; [rewrite Er; lia|]. rewrite set_opaque_length, Er, zlen_ztake. zlens. lia.
    - intros v w1 _ _. apply eats_disp. auto with sim. }
  pose proof (head_size_range subencoding) as HH. unfold head_size in *.
  set (bg := if bit subencoding 2 then 4 else 0) in *. set (fg := if bit subencoding 4 then 4 else 0) in *.
  assert (Hbg : 0 <= bg <= 4) by (subst bg; case_if; lia). assert (Hfg : 0 <= fg <= 4) by (subst fg; case_if; lia).
  set (more := if bit subencoding 8 then 1 + zgetd (b :: r) (1 + bg + fg) * sub_size subencoding else 0).
  assert (Hnb : 0 <= zgetd (b :: r) (1 + bg + fg)).
  { unfold zgetd. rewrite zget_cons by lia. destruct (Z.eqb_spec (1 + bg + fg) 0); [lia|].
    pose proof (bytes_zgetd r (1 + bg + fg - 1) Hb) as Hx. unfold is_byte, zgetd in Hx. lia. }
  assert (Hsz : 2 <= sub_size subencoding <= 6) by (unfold sub_size; case_if; lia).
  assert (Hm : 0 <= more) by (subst more; case_if; nia).
  assert (En : (if bit subencoding 8 then 1 + bg + fg + 1 + zgetd (b :: r) (1 + bg + fg) * sub_size subencoding
     else 1 + bg + fg) = 1 + bg + fg + more) by (subst more; case_if; lia).
  rewrite En in *. clear En.
  apply (eats_bind bg (fg + more)); try lia; [apply color_eats; fold bg; rewrite Er; lia|].
  intros _ w1 _ Hr1. rewrite Er in Hr1. assert (Hl1 : zlen (rest (sock w1)) = zlen r - bg) by (rewrite Hr1, zlen_zdrop; zlens; lia).
  apply (eats_bind fg more); try lia; [apply color_eats; fold fg; lia|].
  intros _ w2 _ Hr2. rewrite Hr1, zdrop_zdrop in Hr2 by lia.
  apply (eats_bind 0 more); try lia; [now apply eats_dec|]. intros t w3 _ Hr3. rewrite zdrop_nonpos in Hr3 by lia.
  apply (eats_bind 0 more); try lia.
  { unfold _startTile. apply (eats_bind 0 0); try lia; [now apply eats_dec|]. intros _ w4 _ _.
    destruct (_background t); [now apply eats_dec|apply eats_throw]. }
  intros _ w4 _ Hr4. rewrite zdrop_nonpos, Hr3, Hr2 in Hr4 by lia.
  apply (eats_bind more 0); try lia.
  - subst more. destruct (bit subencoding 8); [|apply eats_ret].
    assert (Hl4 : zlen (rest (sock w4)) = zlen r - (fg + bg)) by (rewrite Hr4, zlen_zdrop; zlens; lia).
    set (cnt := zgetd (b :: r) (1 + bg + fg)) in *.
    apply (eats_bind 1 (cnt * sub_size subencoding)); try nia; [apply eats_take; nia|].
    intros c w5 E5 Hr5. assert (Ec : c = cnt).
    { unfold onSock, lift in E5. cbn [rQshift8 asrc_source] in E5. rewrite atake_ok in E5 by nia. injection E5 as <- _.
      rewrite Hr4. unfold same, cnt, zgetd. rewrite zget_cons by lia. destruct (Z.eqb_spec (1 + bg + fg) 0); [lia|].
      replace (1 + bg + fg - 1) with (fg + bg) by lia.
      destruct (zget_some r (fg + bg)) as [v Hv]; [nia|]. rewrite Hv, (zdrop_cons_get _ _ _ Hv). cbn. reflexivity. }
    subst c. rewrite <- (Z2Nat.id cnt) at 1 by exact Hnb. apply subrects_eats.
    rewrite Z2Nat.id, Hr5, zlen_zdrop by exact Hnb. zlens. nia.
  - intros _ w5 _ _. unfold _finishTile. apply (eats_bind 0 0); try lia; [now apply eats_dec|].
    intros t5 w6 _ _. apply eats_disp. auto with sim.
Qed.

(** ** The loop *)

Lemma tile_bytes_run subencoding tw th w : 0 <= tw -> 0 <= th ->
  (bit subencoding 1 = false -> bit subencoding 8 = true -> head_size subencoding + 1 <= zlen (rest (sock w))) ->
  tile_bytes subencoding tw th w = (Ret (Some (tile_size subencoding tw th (rest (sock w)))), w).
Proof.
  intros Hw Hh Hn. unfold tile_bytes, tile_size. destruct (bit subencoding 1); [reflexivity|].
  fold (head_size subencoding). destruct (bit subencoding 8); [|reflexivity].
  specialize (Hn eq_refl eq_refl). pose proof (head_size_range subencoding) as HH. destruct w as [st [p r] t]. cbn [sock rest] in *.
  rewrite run_wait by lia. unfold bind, onSock, lift. cbn [sock rQpeekBytes asrc_source rest].
  destruct (Z.leb_spec 0 (head_size subencoding + 1)), (Z.leb_spec (head_size subencoding + 1) (zlen r)); try lia. cbn [andb].
  rewrite last_take by lia. unfold ret, sub_size. cbn [dec disp]. do 3 f_equal. case_if; lia.
Qed.

(** The grid fits the rectangle while tiles are missing. *)
Definition grid st : Prop :=
  _tilesX st = ceil16 width /\ _tilesY st = ceil16 height /\ _totalTiles st = ceil16 width * ceil16 height /\
  _tiles st <= _totalTiles st.

Definition inv w : Prop :=
  0 <= _tiles (dec w) /\ (0 < _tiles (dec w) -> grid (dec w)) /\ bytes (rest (sock w)).

Lemma ceil16_spec n : 16 * (ceil16 n - 1) < n <= 16 * ceil16 n.
Proof. unfold ceil16. pose proof (Z.div_mod (- n) 16 ltac:(lia)). pose proof (Z.mod_pos_bound (- n) 16 ltac:(lia)). lia. Qed.

Lemma tile_inside st : 0 < _tiles st -> grid st ->
  let cur := _totalTiles st - _tiles st in
  0 <= (cur mod _tilesX st) * 16 < width /\ 0 <= (cur / _tilesX st) * 16 < height.
Proof.
  intros Ht (E1 & E2 & E3 & Hle). cbv zeta. rewrite E1, E3.
  assert (Hx := ceil16_spec width). assert (Hy := ceil16_spec height).
  rewrite E3 in Hle. assert (H0 : 0 < ceil16 width) by nia.
  assert (Hm := Z.mod_pos_bound (ceil16 width * ceil16 height - _tiles st) (ceil16 width) H0).
  assert (Hd : (ceil16 width * ceil16 height - _tiles st) / ceil16 width < ceil16 height)
    by (apply Z.div_lt_upper_bound; lia).
  assert (Hp : 0 <= (ceil16 width * ceil16 height - _tiles st) / ceil16 width) by (apply Z.div_pos; lia). lia.
Qed.

Lemma hextile_top_loop w : 0 < _tiles (dec w) -> top w = tiles_loop (Z.to_nat (_tiles (dec w))) x y width height w.
Proof.
  intros Ht. destruct w as [st s t]. unfold decodeRect. rewrite run_get. cbn [dec] in *.
  destruct (Z.eqb_spec (_tiles st) 0); [lia|]. reflexivity.
Qed.

(** The loop from the tile's subencoding on. *)
Definition tile_x st := x + (_totalTiles st - _tiles st) mod _tilesX st * 16.
Definition tile_y st := y + (_totalTiles st - _tiles st) / _tilesX st * 16.
Definition tile_w st := Z.min 16 (x + width - tile_x st).
Definition tile_h st := Z.min 16 (y + height - tile_y st).

Definition tile_rest (fuel : nat) subencoding st (bytes : Z) : M W bool :=
  wait <- onSock (rQwait bytes 0) ;;
  if wait then ret false
  else
    _ <- onSock rQshift8 ;;
    draw_tile subencoding (tile_x st) (tile_y st) (tile_w st) (tile_h st) ;;
    onDec (modify (fun st => set_tiles (_tiles st - 1) (set_lastsubencoding subencoding st))) ;;
    tiles_loop fuel x y width height.

Definition tile_start (fuel : nat) subencoding st : M W bool :=
  bytes <- tile_bytes subencoding (tile_w st) (tile_h st) ;;
  match bytes with None => ret false | Some bytes => tile_rest fuel subencoding st bytes end.

Lemma loop_tile fuel st p b r (t : trace) : 0 < _tiles st -> b <= 30 ->
  tiles_loop (S fuel) x y width height (World st (ASrc p (b :: r)) t) =
  tile_start fuel b st (World st (ASrc p (b :: r)) t).
Proof.
  intros Ht Hb. cbn [tiles_loop]. rewrite run_get. destruct (Z.ltb_spec 0 (_tiles st)); [|lia].
  rewrite run_wait by (rewrite zlen_cons; zlens; lia). unfold bind at 1, onSock at 1, lift. cbn [sock rQpeek8 asrc_source rest].
  cbn [dec disp]. destruct (Z.ltb_spec 30 b); [lia|]. reflexivity.
Qed.

Lemma tile_size_pos b r : bytes r -> forall tw th, 0 <= tw -> 0 <= th -> 1 <= tile_size b tw th r.
Proof.
  intros Hb tw th Hw Hh. unfold tile_size. pose proof (head_size_range b). case_if; [nia|]. case_if; [|lia].
  pose proof (bytes_zgetd r (head_size b) Hb) as Hx. unfold is_byte in Hx. unfold sub_size. case_if; nia.
Qed.

Lemma tile_size_app b tw th r l : (bit b 1 = false -> bit b 8 = true -> head_size b + 1 <= zlen r) ->
  tile_size b tw th (r ++ l) = tile_size b tw th r.
Proof.
  intros Hhead. unfold tile_size. destruct (bit b 1); [reflexivity|]. destruct (bit b 8); [|reflexivity].
  specialize (Hhead eq_refl eq_refl). unfold zgetd. rewrite zget_app_l by lia. reflexivity.
Qed.

(** Drawing a tile leaves the grid alone. *)
Definition same_grid st st' : Prop :=
  _tiles st' = _tiles st /\ _tilesX st' = _tilesX st /\ _tilesY st' = _tilesY st /\ _totalTiles st' = _totalTiles st.

Definition Frames {A} (m : M W A) : Prop := forall w, same_grid (dec w) (dec (snd (m w))).

Lemma same_grid_refl st : same_grid st st.
Proof. repeat split. Qed.

Lemma frames_ret {A} (a : A) : Frames (ret a).
Proof. intros w. apply same_grid_refl. Qed.
Lemma frames_throw {A} e : Frames (throw e : M W A).
Proof. intros w. apply same_grid_refl. Qed.
Lemma frames_sock {A} (m : M asrc A) : Frames (onSock m).
Proof. intros [st s t]. unfold onSock, lift. cbn [sock]. destruct (m s) as [o s']. apply same_grid_refl. Qed.
Lemma frames_disp {A} (m : M trace A) : Frames (onDisp m).
Proof. intros [st s t]. unfold onDisp, lift. cbn [disp]. destruct (m t) as [o t']. apply same_grid_refl. Qed.
Lemma frames_get : Frames (onDec get).
Proof. intros [st s t]. apply same_grid_refl. Qed.
Lemma frames_modify f : (forall st, same_grid st (f st)) -> Frames (onDec (modify f)).
Proof. intros Hf [st s t]. apply Hf. Qed.
Lemma frames_bind {A B} (m : M W A) (k : A -> M W B) : Frames m -> (forall a, Frames (k a)) -> Frames (bind m k).
Proof.
  intros Hm Hk w. assert (H1 := Hm w). unfold bind. destruct (m w) as [[a|e|] w']; auto. cbn [snd] in *.
  assert (H2 := Hk a w'). unfold same_grid in *. intuition congruence.
Qed.

Ltac frames := repeat first
  [ apply frames_ret | apply frames_throw | apply frames_sock | apply frames_disp | apply frames_get
  | apply frames_modify; intros; repeat split | case_if
  | match goal with |- Frames (match ?o with Some _ => _ | None => _ end) => destruct o end
  | apply frames_bind; [|intros] ].

Lemma draw_frame s tx ty tw th : Frames (draw_tile s tx ty tw th).
Proof.
  assert (Hsub : forall n, Frames (subrects_loop n s : M W unit)).
  { induction n as [|n IH]; cbn [subrects_loop]; unfold _subTile; frames; exact IH. }
  unfold draw_tile, _startTile, _finishTile. frames; apply Hsub.
Qed.

Lemma tile_rest_res fuel st p b r (t : trace) :
  (forall w, inv w -> fuel = Z.to_nat (_tiles (dec w)) -> Res inv top (tiles_loop fuel x y width height) w) ->
  inv (World st (ASrc p (b :: r)) t) -> 0 < _tiles st -> S fuel = Z.to_nat (_tiles st) -> b <= 30 ->
  (bit b 1 = false -> bit b 8 = true -> head_size b + 1 <= zlen (b :: r)) ->
  Res inv top (tile_rest fuel b st (tile_size b (tile_w st) (tile_h st) (b :: r))) (World st (ASrc p (b :: r)) t).
Proof.
  intros IH Hinv Ht Hf Hb Hhead. pose proof Hinv as (_ & Hg & Hby). cbn [dec sock rest] in *.
  destruct (tile_inside st Ht (Hg Ht)) as [Hx Hy]. cbv zeta in Hx, Hy.
  assert (Hw : 0 <= tile_w st) by (unfold tile_w, tile_x; lia). assert (Hh : 0 <= tile_h st) by (unfold tile_h, tile_y; lia).
  unfold tile_rest. apply res_wait; [reflexivity|now intros _|intros Hs l|intros Hs].
  - unfold ext. cbn [dec sock disp past rest]. rewrite hextile_top_loop by (cbn [dec]; lia). cbn [dec app]. rewrite <- Hf, loop_tile by assumption.
    unfold tile_start. unfold bind at 1. rewrite tile_bytes_run by (auto; cbn [sock rest]; intros F1 F2; specialize (Hhead F1 F2); rewrite zlen_cons in Hhead; rewrite zlen_cons, zlen_app; zlens; lia).
    cbn [sock rest]. change (b :: r ++ l) with ((b :: r) ++ l). now rewrite tile_size_app.
  - cbn [sock rest] in Hs. assert (H1 : 1 <= zlen (b :: r)) by (rewrite zlen_cons; zlens; lia).
    eapply res_eats; [apply (eats_take 1); cbn [sock rest]; lia|]. intros a1 w1 E1 Hr1. cbn [sock rest] in Hr1.
    assert (Hr1' : rest (sock w1) = r) by (rewrite Hr1; reflexivity).
    assert (Hd1 : dec w1 = st) by (unfold onSock, lift in E1; cbn [rQshift8 asrc_source sock] in E1; rewrite atake_ok in E1 by (cbn [rest]; lia); injection E1 as _ <-; reflexivity).
    assert (Hbr : bytes r) by (now inversion Hby).
    assert (Hn0 : 1 <= tile_size b (tile_w st) (tile_h st) (b :: r)) by (apply tile_size_pos; auto).
    eapply res_eats; [apply (draw_eats b _ _ _ _ b r); auto|]. intros a2 w2 E2 Hr2.
    eapply res_eats; [now apply (eats_dec (modify _))|]. intros a3 w3 E3 Hr3. injection E3 as _ <-.
    assert (Hk := draw_frame b (tile_x st) (tile_y st) (tile_w st) (tile_h st) w1). rewrite E2 in Hk. cbn [snd] in Hk.
    destruct Hk as (K1 & K2 & K3 & K4). rewrite Hd1 in *. apply IH.
    + unfold inv. cbn [dec sock rest set_tiles set_lastsubencoding _tiles]. rewrite K1. split; [lia|]. split.
      * intros _. destruct (Hg Ht) as (G1 & G2 & G3 & G4). unfold grid. cbn. rewrite K2, K3, K4. repeat split; auto. lia.
      * cbn [sock] in Hr2. rewrite Hr2, Hr1'. now apply bytes_zdrop.
    + cbn [dec set_tiles set_lastsubencoding _tiles]. lia.
Qed.

Lemma tiles_loop_res fuel : forall w, inv w -> fuel = Z.to_nat (_tiles (dec w)) ->
  Res inv top (tiles_loop fuel x y width height) w.
Proof.
  induction fuel as [|fuel IH]; intros [st [p r] t] Hinv Hf; pose proof Hinv as (Hp & Hg & Hby); cbn [dec sock rest] in *.
  - cbn [tiles_loop]. eapply res_step; [apply (stable_dec get _ _ _ eq_refl)|]; wcbn.
    destruct (Z.ltb_spec 0 (_tiles st)); [lia|apply res_true].
  - assert (Ht : 0 < _tiles st) by lia. destruct r as [|b r].
    + cbn [tiles_loop]. eapply res_step; [apply (stable_dec get _ _ _ eq_refl)|]; wcbn.
      destruct (Z.ltb_spec 0 (_tiles st)); [|lia]. apply res_wait; [reflexivity|now intros _|intros _ l|intros Hs; cbn in Hs; lia].
      unfold ext. cbn [dec sock disp past rest]. rewrite hextile_top_loop by (cbn [dec]; lia). cbn [dec]. rewrite <- Hf.
      cbn [tiles_loop]. rewrite run_get. destruct (Z.ltb_spec 0 (_tiles st)); [reflexivity|lia].
    + destruct (Z_lt_le_dec 30 b) as [Hb|Hb].
      * unfold Res. assert (E : forall l, tiles_loop (S fuel) x y width height (World st (ASrc p (b :: r ++ l)) t) =
          (Throw "Illegal hextile subencoding", World st (ASrc p (b :: r ++ l)) t)).
        { intros l. cbn [tiles_loop]. rewrite run_get. destruct (Z.ltb_spec 0 (_tiles st)); [|lia].
          rewrite run_wait by (rewrite zlen_cons; zlens; lia). unfold bind, onSock, lift. cbn [sock rQpeek8 asrc_source rest].
          destruct (Z.ltb_spec 30 b); [reflexivity|lia]. }
        assert (E0 := E []). rewrite app_nil_r in E0. rewrite E0. intros l. apply E.
      * assert (Hl : forall l, tiles_loop (S fuel) x y width height (ext l (World st (ASrc p (b :: r)) t)) =
          tile_start fuel b st (ext l (World st (ASrc p (b :: r)) t))).
        { intros l. unfold ext. cbn [dec sock disp past rest]. now apply loop_tile. }
        assert (Htop : forall l, tiles_loop (S fuel) x y width height (ext l (World st (ASrc p (b :: r)) t)) =
          top (ext l (World st (ASrc p (b :: r)) t))).
        { intros l. unfold ext. cbn [dec sock disp past rest]. rewrite hextile_top_loop by (cbn [dec]; lia). cbn [dec]. now rewrite <- Hf. }
        destruct (tile_inside st Ht (Hg Ht)) as [Hx Hy]. cbv zeta in Hx, Hy.
        assert (Hw : 0 <= tile_w st) by (unfold tile_w, tile_x; lia). assert (Hh : 0 <= tile_h st) by (unfold tile_h, tile_y; lia).
        destruct (negb (bit b 1) && bit b 8 && (zlen (b :: r) <? head_size b + 1)) eqn:Eh.
        -- bool_prop. apply res_stay; [|exact Hinv|exact Htop].
           assert (E0 := Hl []). rewrite ext_nil in E0. rewrite E0. unfold tile_start, tile_bytes.
           destruct (bit b 1); [discriminate|]. destruct (bit b 8); [|discriminate]. fold (head_size b).
           unfold bind at 1. unfold bind at 1. unfold onSock at 1, lift. cbn [sock]. rewrite asrc_wait_short by (cbn [rest]; lia). reflexivity.
        -- assert (Hhead : bit b 1 = false -> bit b 8 = true -> head_size b + 1 <= zlen (b :: r)).
           { intros F1 F2. rewrite F1, F2 in Eh. cbn [negb andb] in Eh. blia. }
           apply (res_same inv top _ (tile_rest fuel b st (tile_size b (tile_w st) (tile_h st) (b :: r)))); [|now apply tile_rest_res].
           intros l. rewrite Hl. unfold tile_start, ext. cbn [dec sock disp past rest app]. unfold bind at 1.
           rewrite tile_bytes_run; [|exact Hw|exact Hh|].
           ++ cbn [sock rest]. change (b :: r ++ l) with ((b :: r) ++ l). now rewrite tile_size_app.
           ++ cbn [sock rest]. intros F1 F2. specialize (Hhead F1 F2). rewrite zlen_cons in Hhead. rewrite zlen_cons, zlen_app. zlens. lia.
Qed.

Lemma hextile_decodeRect_res w : inv w -> Res inv top top w.
Proof.
  intros Hinv. destruct (Z.eq_dec (_tiles (dec w)) 0) as [E|E].
  - set (w0 := World (set_grid (ceil16 width) (ceil16 height) (ceil16 width * ceil16 height) (dec w)) (sock w) (disp w)).
    apply (res_same inv top _ (fun w => tiles_loop (Z.to_nat (ceil16 width * ceil16 height)) x y width height
      (World (set_grid (ceil16 width) (ceil16 height) (ceil16 width * ceil16 height) (dec w)) (sock w) (disp w)))).
    { intros l. destruct w as [st s t]. cbn [dec] in E. unfold decodeRect, ext. cbn [dec sock disp]. rewrite run_get, E. reflexivity. }
    assert (Hp : 0 <= ceil16 width * ceil16 height) by (pose proof (ceil16_spec width); pose proof (ceil16_spec height); nia).
    assert (H0 : Res inv top (tiles_loop (Z.to_nat (ceil16 width * ceil16 height)) x y width height) w0).
    { apply tiles_loop_res; [|reflexivity]. destruct Hinv as (_ & _ & Hb). split; [exact Hp|]. split; [|exact Hb].
      intros _. repeat split. cbn. lia. }
    exact H0.
  - apply (res_same inv top _ (tiles_loop (Z.to_nat (_tiles (dec w))) x y width height)); [|now apply tiles_loop_res].
    intros l. destruct Hinv as (Hp & _). rewrite hextile_top_loop; [reflexivity|]. unfold ext. cbn [dec]. lia.
Qed.

(** C9.  Hextile: however the data is cut into messages, the draws, the errors and
    the final state are those of the data arriving at once, and no byte is read
    before it has arrived. *)
Theorem hextile_resumes w chunks : inv w -> Forall bytes chunks ->
  feed top w chunks = top (ext (List.concat chunks) w) /\ fst (top w) <> Stuck.
Proof.
  intros Hw Hc. apply (feed_concat_ok bytes inv); auto.
  - intros w' c (H1 & H2 & H3) Hb. split; [exact H1|]. split; [exact H2|]. cbn [ext sock rest]. now apply bytes_app.
  - apply hextile_decodeRect_res.
Qed.
End Resuming.

(** * What is drawn *)

Record sub := Sub { u_color : list Z; u_x : Z; u_y : Z; u_w : Z; u_h : Z }.

(** A tile as the server means it: nothing new, raw pixels, or a background and
    subrectangles; colours that stay are left out. *)
Inductive tile :=
| Blank
| RawTile (pixels : list Z)
| Drawn (bg fg : option (list Z)) (coloured : bool) (subs : option (list sub)).

Definition flag {A} (o : option A) (v : Z) : Z := match o with Some _ => v | None => 0 end.

Definition subencoding_of (t : tile) : Z :=
  match t with
  | Blank => 0
  | RawTile _ => 1
  | Drawn bg fg coloured subs => flag bg 2 + flag fg 4 + flag subs 8 + (if coloured then 16 else 0)
  end.

Definition encode_sub (coloured : bool) (s : sub) : list Z :=
  (if coloured then u_color s else []) ++ [u_x s * 16 + u_y s; (u_w s - 1) * 16 + (u_h s - 1)].

Definition opt_bytes (o : option (list Z)) : list Z := match o with Some l => l | None => [] end.

(** The bytes of a tile behind its subencoding. *)
Definition encode_body (t : tile) : list Z :=
  match t with
  | Blank => []
  | RawTile pixels => pixels
  | Drawn bg fg coloured subs =>
      opt_bytes bg ++ opt_bytes fg ++
      match subs with Some l => zlen l :: flat_map (encode_sub coloured) l | None => [] end
  end.

Definition encode_tile (t : tile) : list Z := subencoding_of t :: encode_body t.

(** What the next tile inherits: whether the last was raw, and the colours. *)
Record memory := Memory { m_raw : bool; m_bg : option (list Z); m_fg : option (list Z) }.

Definition remember (t : tile) (m : memory) : memory :=
  match t with
  | Blank => Memory false (m_bg m) (m_fg m)
  | RawTile _ => Memory true (m_bg m) (m_fg m)
  | Drawn bg fg _ _ =>
      Memory false (match bg with Some _ => bg | None => m_bg m end) (match fg with Some _ => fg | None => m_fg m end)
  end.

Definition inside (s : sub) (i j : Z) : bool :=
  (u_x s <=? i) && (i <? u_x s + u_w s) && (u_y s <=? j) && (j <? u_y s + u_h s).

(** The colour of a pixel: of the last subrectangle over it, or the background. *)
Definition color_at (bg fg : list Z) (coloured : bool) (subs : list sub) (i j : Z) : list Z :=
  fold_left (fun c s => if inside s i j then (if coloured then u_color s else fg) else c) subs bg.

Definition pixel (c : list Z) : list Z := [zgetd c 0; zgetd c 1; zgetd c 2; 255].

Definition opt_color (o : option (list Z)) : list Z := match o with Some l => l | None => [] end.

Definition tile_draws (m : memory) (t : tile) (tx ty tw th : Z) : list draw :=
  let m' := remember t m in
  match t with
  | Blank => if m_raw m then [] else [DFill tx ty tw th (opt_color (m_bg m))]
  | RawTile pixels => [DBlit tx ty tw th (opaque pixels)]
  | Drawn _ _ coloured subs =>
      [DBlit tx ty tw th (flat_map
         (fun k => pixel (color_at (opt_color (m_bg m')) (opt_color (m_fg m')) coloured
            (match subs with Some l => l | None => [] end) (k mod tw) (k / tw))) (upto (tw * th)))]
  end.

Definition sub_ok (tw th : Z) (coloured : bool) (s : sub) : Prop :=
  (coloured = true -> zlen (u_color s) = 4) /\
  0 <= u_x s /\ 1 <= u_w s /\ u_x s + u_w s <= tw /\ 0 <= u_y s /\ 1 <= u_h s /\ u_y s + u_h s <= th.

Definition color_ok (o : option (list Z)) : Prop := match o with Some l => zlen l = 4 | None => True end.

(** A tile the server may send: what it leaves out is known. *)
Definition tile_ok (m : memory) (tw th : Z) (t : tile) : Prop :=
  match t with
  | Blank => m_raw m = true \/ m_bg m <> None
  | RawTile pixels => zlen pixels = tw * th * 4
  | Drawn bg fg coloured subs =>
      subencoding_of t <> 0 /\ color_ok bg /\ color_ok fg /\ m_bg (remember t m) <> None /\
      (coloured = false -> match subs with Some (_ :: _) => m_fg (remember t m) <> None | _ => True end) /\
      match subs with Some l => zlen l < 256 /\ Forall (sub_ok tw th coloured) l | None => True end
  end.

(** ** The tile buffer *)

(** The first [n] pixels of the buffer have the colours [f]. *)
Definition shows (n : Z) (f : Z -> list Z) (buf : list Z) : Prop :=
  zlen buf = 1024 /\ forall i c, 0 <= i < n -> 0 <= c < 4 -> zget buf (i * 4 + c) = zget (pixel (f i)) c.

Lemma zlen_put p c buf : zlen (put_pixel p c buf) = zlen buf.
Proof. unfold put_pixel. now rewrite !zlen_zset. Qed.

Lemma put_get k c buf i j : 0 <= k -> k * 4 + 3 < zlen buf -> 0 <= i -> 0 <= j < 4 ->
  zget (put_pixel (k * 4) c buf) (i * 4 + j) = if i =? k then zget (pixel c) j else zget buf (i * 4 + j).
Proof.
  intros Hk Hl Hi Hj. unfold put_pixel. destruct (Z.eqb_spec i k) as [->|Hne].
  - assert (Hc : j = 0 \/ j = 1 \/ j = 2 \/ j = 3) by lia.
    destruct Hc as [E|[E|[E|E]]]; subst j; rewrite ?Z.add_0_r;
      repeat (rewrite zget_zset_ne by lia); rewrite zget_zset_eq by (rewrite ?zlen_zset; lia); reflexivity.
  - repeat rewrite zget_zset_ne by lia. reflexivity.
Qed.

Lemma put_shows n f buf k c : shows n f buf -> 0 <= k < n -> n <= 256 ->
  shows n (fun i => if i =? k then c else f i) (put_pixel (k * 4) c buf).
Proof.
  intros [Hl Hg] Hk Hn. split; [now rewrite zlen_put|]. intros i j Hi Hj. rewrite put_get by lia.
  destruct (i =? k); auto.
Qed.

Lemma puts_shows n c ks : forall f buf, shows n f buf -> Forall (fun k => 0 <= k < n) ks -> n <= 256 ->
  shows n (fun i => if existsb (Z.eqb i) ks then c else f i)
    (fold_left (fun data k => put_pixel (k * 4) c data) ks buf).
Proof.
  induction ks as [|k ks IH]; intros f buf Hs Hk Hn; cbn [fold_left existsb]; [exact Hs|].
  inversion_clear Hk as [|? ? Hk1 Hks]. destruct (IH _ _ (put_shows n f buf k c Hs Hk1 Hn) Hks Hn) as [Hl Hg].
  split; [exact Hl|]. intros i j Hi Hj. rewrite Hg by auto. destruct (Z.eqb_spec i k); cbn [orb]; [|reflexivity].
  destruct (existsb (Z.eqb i) ks); reflexivity.
Qed.

Lemma shows_ext n f g buf : (forall i, 0 <= i < n -> f i = g i) -> shows n f buf -> shows n g buf.
Proof. intros E [Hl Hg]. split; auto. intros i c Hi Hc. rewrite Hg, E by auto. reflexivity. Qed.

Lemma existsb_eqb i l : existsb (Z.eqb i) l = true <-> In i l.
Proof.
  rewrite existsb_exists. split; [intros (k & Hk & E); apply Z.eqb_eq in E; now subst|].
  intros Hi. exists i. rewrite Z.eqb_refl. auto.
Qed.

(** The whole buffer as a list of pixels. *)
Lemma zget_flat_map (f : Z -> list Z) n k c : (forall i, zlen (f i) = 4) -> 0 <= k < n -> 0 <= c < 4 ->
  zget (flat_map f (upto n)) (k * 4 + c) = zget (f k) c.
Proof.
  intros Hf Hk Hc. assert (H : forall m s, (Z.of_nat s <= k < Z.of_nat s + Z.of_nat m) ->
    zget (flat_map f (map Z.of_nat (seq s m))) ((k - Z.of_nat s) * 4 + c) = zget (f k) c).
  { induction m as [|m IH]; intros s Hs; [lia|]. cbn [seq map flat_map].
    destruct (Z.eq_dec k (Z.of_nat s)) as [->|Hne].
    - rewrite zget_app_l by (rewrite Hf; lia). f_equal. lia.
    - rewrite zget_app_r by (rewrite Hf; lia). rewrite Hf. rewrite <- (IH (S s)) by lia. f_equal. lia. }
  unfold upto. rewrite <- (H (Z.to_nat n) 0%nat) by lia. f_equal. lia.
Qed.

Lemma zlen_flat_map (f : Z -> list Z) n : (forall i, zlen (f i) = 4) -> 0 <= n -> zlen (flat_map f (upto n)) = n * 4.
Proof.
  intros Hf Hn. assert (H : forall l, zlen (flat_map f l) = zlen l * 4).
  { induction l as [|i l IH]; [reflexivity|]. cbn [flat_map]. rewrite zlen_app, Hf, IH, zlen_cons. lia. }
  rewrite H. unfold upto, zlen. rewrite length_map, length_seq. lia.
Qed.

Lemma shows_slice n f buf : 0 <= n <= 256 -> shows n f buf -> zslice buf 0 (n * 4) = flat_map (fun k => pixel (f k)) (upto n).
Proof.
  intros Hn [Hl Hg]. assert (Hf : forall i, zlen (pixel (f i)) = 4) by reflexivity.
  apply zget_ext; rewrite zlen_zslice, ?zlen_flat_map by (auto; lia); [lia|].
  intros i Hi. unfold zslice. rewrite zdrop_nonpos, zget_ztake by lia.
  replace i with (i / 4 * 4 + i mod 4) by (pose proof (Z.div_mod i 4); lia).
  assert (Hm := Z.mod_pos_bound i 4 ltac:(lia)). assert (Hd : 0 <= i / 4 < n) by (split; [apply Z.div_pos|apply Z.div_lt_upper_bound]; lia).
  rewrite Hg, zget_flat_map by (auto; lia). reflexivity.
Qed.

Lemma sub_pixels_in x y w h width k : 0 <= x -> 0 < w -> x + w <= width -> 0 <= y -> 0 <= h ->
  In k (sub_pixels x y w h width) <-> x <= k mod width < x + w /\ y <= k / width < y + h.
Proof.
  intros Hx Hw Hxw Hy Hh. unfold sub_pixels. rewrite in_flat_map. split.
  - intros (j & Hj & Hk). apply in_upto in Hj. apply in_map_iff in Hk. destruct Hk as (i & <- & Hi). apply in_upto in Hi.
    rewrite Z_mod_plus_full, Z_div_plus_full, Z.mod_small, Z.div_small by lia. lia.
  - intros [Hm Hd]. exists (k / width - y). split; [apply in_upto; lia|]. apply in_map_iff.
    exists (k mod width - x). split; [|apply in_upto; lia]. pose proof (Z.div_mod k width ltac:(lia)). lia.
Qed.

Lemma shows_grow n f buf c : shows n f buf -> 0 <= n < 256 ->
  shows (n + 1) (fun i => if i =? n then c else f i) (put_pixel (n * 4) c buf).
Proof.
  intros [Hl Hg] Hn. split; [now rewrite zlen_put|]. intros i j Hi Hj. rewrite put_get by lia.
  destruct (Z.eqb_spec i n); auto. apply Hg; lia.
Qed.

Lemma fill_shows n c buf : zlen buf = 1024 -> 0 <= n <= 256 ->
  shows n (fun _ => c) (fold_left (fun data k => put_pixel (k * 4) c data) (upto n) buf).
Proof.
  intros Hl Hn. rewrite <- (Z2Nat.id n) in * by lia. induction (Z.to_nat n) as [|m IH].
  - split; [exact Hl|]. intros i j Hi. lia.
  - rewrite Nat2Z.inj_succ in *. unfold Z.succ in *. rewrite upto_succ, fold_left_app by lia. cbn [fold_left].
    apply (shows_ext _ (fun i => if i =? Z.of_nat m then c else c)); [intros i _; now destruct (i =? Z.of_nat m)|].
    apply shows_grow; [apply IH|]; lia.
Qed.

Lemma nibbles a b : 0 <= a < 16 -> 0 <= b < 16 -> ((a * 16 + b) >> 4)%js = a /\ ((a * 16 + b) & 15)%js = b.
Proof.
  intros Ha Hb. rewrite sar_small by lia. change 15 with (2 ^ 4 - 1). rewrite band_ones by lia. change (2 ^ 4) with 16. split.
  - rewrite Z.div_add_l by lia. rewrite Z.div_small by lia. lia.
  - rewrite Z.add_comm, Z_mod_plus_full. now apply Z.mod_small.
Qed.

Section Drawing.
Variables x y width height depth : Z.
Abbreviation W := (world hextile asrc trace).
Implicit Types (st : hextile) (t : trace) (p tail : list Z).

Lemma same_buffer st : set_tileBuffer (_tileBuffer st) st = st.
Proof. now destruct st. Qed.

Lemma subs_run s coloured fg tw th tail t l : forall p st f,
  bit s 16 = coloured -> 1 <= tw <= 16 -> 1 <= th <= 16 -> Forall (sub_ok tw th coloured) l ->
  _tileW st = tw -> shows (tw * th) f (_tileBuffer st) ->
  (coloured = false -> l <> [] -> _foreground st = Some fg) ->
  exists p' buf, subrects_loop (List.length l) s (World st (ASrc p (flat_map (encode_sub coloured) l ++ tail)) t) =
    (Ret tt, World (set_tileBuffer buf st) (ASrc p' tail) t) /\
    shows (tw * th) (fun k => color_at (f k) fg coloured l (k mod tw) (k / tw)) buf.
Proof.
  induction l as [|u l IH]; intros p st f Hs Hw Hh Hl Ht Hsh Hfg; cbn [List.length subrects_loop].
  - exists p, (_tileBuffer st). rewrite same_buffer. auto.
  - inversion_clear Hl as [|? ? Hu Hl']. destruct Hu as (Hc & Hx & Hsw & Hxw & Hy & Hsh1 & Hyh).
    set (color := if coloured then u_color u else fg).
    destruct (nibbles (u_x u) (u_y u)) as [N1 N2]; [lia|lia|]. destruct (nibbles (u_w u - 1) (u_h u - 1)) as [N3 N4]; [lia|lia|].
    set (buf1 := fold_left (fun data k => put_pixel (k * 4) color data)
      (sub_pixels (u_x u) (u_y u) (u_w u) (u_h u) tw) (_tileBuffer st)).
    assert (Hsh2 : shows (tw * th) (fun k => if inside u (k mod tw) (k / tw) then color else f k) buf1).
    { assert (Hin : forall k, In k (sub_pixels (u_x u) (u_y u) (u_w u) (u_h u) tw) <->
        u_x u <= k mod tw < u_x u + u_w u /\ u_y u <= k / tw < u_y u + u_h u) by (intros k; apply sub_pixels_in; lia).
      apply (shows_ext _ (fun k => if existsb (Z.eqb k) (sub_pixels (u_x u) (u_y u) (u_w u) (u_h u) tw) then color else f k)).
      - intros k _. replace (existsb (Z.eqb k) (sub_pixels (u_x u) (u_y u) (u_w u) (u_h u) tw)) with (inside u (k mod tw) (k / tw)); [reflexivity|].
        apply eq_true_iff_eq. rewrite existsb_eqb, Hin. unfold inside. rewrite !andb_true_iff, !Z.leb_le, !Z.ltb_lt. lia.
      - apply puts_shows; [exact Hsh| |nia]. apply Forall_forall. intros k Hk. apply Hin in Hk.
        pose proof (Z.div_mod k tw ltac:(lia)). nia. }
    cbn [flat_map]. unfold encode_sub at 1. rewrite <- !app_assoc.
    destruct (IH (p ++ (if coloured then u_color u else []) ++ [u_x u * 16 + u_y u] ++ [(u_w u - 1) * 16 + (u_h u - 1)])
      (set_tileBuffer buf1 st) _ Hs Hw Hh Hl' Ht Hsh2) as (p' & buf & E & Hbuf).
    { intros Ec _. apply Hfg; [exact Ec|discriminate]. }
    exists p', buf. split; [|exact Hbuf]. etransitivity; [|exact E]. clear E.
    assert (Htail : forall st' p0, (color' <- (ret (Some color) : M W _) ;; xy <- onSock rQshift8 ;; wh <- onSock rQshift8 ;;
       _subTile (xy >> 4)%js (xy & 15)%js ((wh >> 4)%js + 1) ((wh & 15)%js + 1) color' ;; subrects_loop (List.length l) s)
       (World st' (ASrc p0 ([u_x u * 16 + u_y u; (u_w u - 1) * 16 + (u_h u - 1)] ++ flat_map (encode_sub coloured) l ++ tail)) t) =
       subrects_loop (List.length l) s (World (set_tileBuffer (fold_left (fun data k => put_pixel (k * 4) color data)
         (sub_pixels (u_x u) (u_y u) (u_w u) (u_h u) (_tileW st')) (_tileBuffer st')) st')
         (ASrc (p0 ++ [u_x u * 16 + u_y u] ++ [(u_w u - 1) * 16 + (u_h u - 1)]) (flat_map (encode_sub coloured) l ++ tail)) t)).
    { intros st' p0. unfold bind at 1, ret at 1.
      change ([u_x u * 16 + u_y u; (u_w u - 1) * 16 + (u_h u - 1)] ++ flat_map (encode_sub coloured) l ++ tail) with
        ([u_x u * 16 + u_y u] ++ [(u_w u - 1) * 16 + (u_h u - 1)] ++ flat_map (encode_sub coloured) l ++ tail).
      rewrite (run_take 1 same be), (run_take 1 same be) by reflexivity. unfold same.
      change (be [u_x u * 16 + u_y u]) with (u_x u * 16 + u_y u).
      change (be [(u_w u - 1) * 16 + (u_h u - 1)]) with ((u_w u - 1) * 16 + (u_h u - 1)).
      rewrite N1, N2, N3, N4, !Z.sub_add, <- app_assoc. unfold _subTile. now rewrite run_modify. }
    subst color. destruct coloured; rewrite Hs.
    + rewrite bind_assoc_run, (run_take 4 same same) by (now apply Hc). unfold same at 1.
      etransitivity; [exact (Htail _ _)|]. cbn [_tileW _tileBuffer]. rewrite Ht. unfold same. now rewrite <- !app_assoc.
    + rewrite bind_assoc_run, run_get. rewrite Hfg by (auto; discriminate).
      etransitivity; [exact (Htail _ _)|]. rewrite Ht. reflexivity.
Qed.

(** What the decoder keeps between tiles. *)
Definition keeps_memory st (m : memory) : Prop :=
  bit (_lastsubencoding st) 1 = m_raw m /\ _background st = m_bg m /\ _foreground st = m_fg m /\ zlen (_tileBuffer st) = 1024.

Lemma bits_of (tl : tile) : 0 <= subencoding_of tl <= 30 /\
  match tl with
  | Blank => True
  | RawTile _ => bit (subencoding_of tl) 1 = true
  | Drawn bg fg coloured subs =>
      bit (subencoding_of tl) 1 = false /\
      bit (subencoding_of tl) 2 = (match bg with Some _ => true | None => false end) /\
      bit (subencoding_of tl) 4 = (match fg with Some _ => true | None => false end) /\
      bit (subencoding_of tl) 8 = (match subs with Some _ => true | None => false end) /\
      bit (subencoding_of tl) 16 = coloured
  end.
Proof. destruct tl as [| |[] [] [] []]; cbn; repeat split; lia. Qed.

Lemma color_run (b : bool) o (f : list Z -> hextile -> hextile) st p r (t : trace) (k : unit -> M W unit) :
  b = (match o with Some _ => true | None => false end) -> color_ok o ->
  bind (if b then c <- onSock (rQshiftBytes 4) ;; onDec (modify (f c)) else ret tt) k
    (World st (ASrc p (opt_bytes o ++ r)) t) =
  k tt (World (match o with Some c => f c st | None => st end) (ASrc (p ++ opt_bytes o) r) t).
Proof.
  intros -> Ho. destruct o as [c|]; cbn [opt_bytes].
  - rewrite bind_assoc_run, (run_take 4 same same) by exact Ho. unfold same. reflexivity.
  - cbn [app]. now rewrite app_nil_r.
Qed.

Lemma draw_run m tl tx ty tw th st p tail t : 1 <= tw <= 16 -> 1 <= th <= 16 -> tile_ok m tw th tl -> keeps_memory st m ->
  exists p' st', draw_tile (subencoding_of tl) tx ty tw th (World st (ASrc p (encode_body tl ++ tail)) t) =
    (Ret tt, World st' (ASrc p' tail) (t ++ tile_draws m tl tx ty tw th)) /\
    _background st' = m_bg (remember tl m) /\ _foreground st' = m_fg (remember tl m) /\ zlen (_tileBuffer st') = 1024.
Proof.
  intros Hw Hh Hok (Hraw & Hbg & Hfg & Hbuf). destruct tl as [|pixels|bg fg coloured subs].
  - exists p, st. unfold draw_tile. cbn [subencoding_of Z.eqb encode_body app]. rewrite run_get, Hraw, Hbg.
    cbn [tile_ok tile_draws remember m_bg m_fg] in *. split; [|auto]. destruct (m_raw m); [now rewrite app_nil_r|].
    destruct Hok as [|Hok]; [discriminate|]. destruct (m_bg m); [reflexivity|congruence].
  - exists (p ++ set_opaque (tw * th) pixels), st. unfold draw_tile. cbn [subencoding_of Z.eqb encode_body tile_ok] in *.
    change (bit 1 1) with true. cbv iota zeta. rewrite run_view by (rewrite ?set_opaque_length; lia).
    rewrite set_opaque_spec by nia. split; [|auto].
    unfold onDisp, lift. cbn [disp].
    rewrite (blit_fresh tx ty tw th (opaque pixels) t) by (try lia; rewrite RawDecoder.opaque_length; lia). reflexivity.
  - destruct Hok as (Hs0 & Hobg & Hofg & Hkbg & Hkfg & Hsubs).
    destruct (bits_of (Drawn bg fg coloured subs)) as (_ & B1 & B2 & B4 & B8 & B16).
    unfold draw_tile. destruct (Z.eqb_spec (subencoding_of (Drawn bg fg coloured subs)) 0); [congruence|].
    set (s := subencoding_of _) in *. rewrite B1. cbv iota. cbn [encode_body]. rewrite <- !app_assoc.
    rewrite (color_run _ bg set_background _ _ _ _ _ B2 Hobg), (color_run _ fg set_foreground _ _ _ _ _ B4 Hofg), run_get.
    set (st1 := match fg with Some c => set_foreground c _ | None => _ end).
    assert (E1 : _background st1 = m_bg (remember (Drawn bg fg coloured subs) m)) by (unfold st1; destruct fg, bg; cbn; auto).
    assert (E2 : _foreground st1 = m_fg (remember (Drawn bg fg coloured subs) m)) by (unfold st1; destruct fg, bg; cbn; auto).
    assert (E3 : _tileBuffer st1 = _tileBuffer st) by (unfold st1; destruct fg, bg; reflexivity).
    rewrite E1. destruct (m_bg (remember (Drawn bg fg coloured subs) m)) as [c|] eqn:Ebg; [|congruence].
    unfold _startTile. rewrite bind_assoc_run, run_modify, run_modify.
    set (buf1 := fold_left _ _ _). set (st2 := set_tileBuffer buf1 _).
    assert (Hsh : shows (tw * th) (fun _ => c) buf1) by (apply fill_shows; [cbn; congruence|nia]).
    assert (Hfin : forall p0 buf, shows (tw * th) (fun k => color_at c (opt_color (m_fg (remember (Drawn bg fg coloured subs) m))) coloured
          (match subs with Some l => l | None => [] end) (k mod tw) (k / tw)) buf ->
        _finishTile (World (set_tileBuffer buf st2) (ASrc p0 tail) t) =
        (Ret tt, World (set_tileBuffer buf st2) (ASrc p0 tail) (t ++ tile_draws m (Drawn bg fg coloured subs) tx ty tw th))).
    { intros p0 buf Hb. unfold _finishTile. rewrite run_get. cbn [_tileX _tileY _tileW _tileH _tileBuffer st2 set_tileBuffer set_tile].
      unfold onDisp, lift. cbn [disp blitImage trace_renderer fresh_view v_offset v_buffer]. destruct Hb as [Hl Hg].
      rewrite Hl, !Z.add_0_l. destruct (Z.ltb_spec 1024 (tw * th * 4)); [nia|]. cbn [Z.ltb Z.compare orb].
      destruct (Z.leb_spec tw 0), (Z.leb_spec th 0); try lia. cbn [orb record modify dec sock].
      rewrite (shows_slice (tw * th) _ buf ltac:(nia) (conj Hl Hg)). cbn [tile_draws]. rewrite Ebg. reflexivity. }
    destruct subs as [l|]; rewrite B8.
    + destruct Hsubs as [Hlen Hsub]. rewrite bind_assoc_run. cbn [app]. zlens.
      change (zlen l :: flat_map (encode_sub coloured) l ++ tail) with ([zlen l] ++ flat_map (encode_sub coloured) l ++ tail).
      rewrite (run_take 1 same be) by reflexivity. unfold same. change (be [zlen l]) with (zlen l). unfold zlen at 1. rewrite Nat2Z.id.
      destruct (subs_run s coloured (opt_color (m_fg (remember (Drawn bg fg coloured (Some l)) m))) tw th tail t l
        ((p ++ opt_bytes bg) ++ opt_bytes fg ++ [zlen l]) st2 _ B16 Hw Hh Hsub eq_refl Hsh) as (p' & buf & E & Hb).
      { intros Ec Hne. change (_foreground st2) with (_foreground st1). rewrite E2. specialize (Hkfg Ec).
        destruct l; [congruence|]. destruct (m_fg _); [reflexivity|congruence]. }
      exists p', (set_tileBuffer buf st2). rewrite app_assoc in E. rewrite (bind_run _ _ _ _ _ E), Hfin by exact Hb.
      split; [reflexivity|]. destruct Hb as [Hb _]. auto.
    + exists ((p ++ opt_bytes bg) ++ opt_bytes fg), st2. unfold bind at 1, ret at 1. cbn [app].
      assert (E := Hfin ((p ++ opt_bytes bg) ++ opt_bytes fg) buf1 Hsh). split; [exact E|]. destruct Hsh as [Hb _]. auto.
Qed.

(** ** A whole rectangle *)

Lemma encode_subs_length tw th coloured l : Forall (sub_ok tw th coloured) l ->
  zlen (flat_map (encode_sub coloured) l) = zlen l * (if coloured then 6 else 2).
Proof.
  induction 1 as [|u l Hu Hl IH]; [reflexivity|]. cbn [flat_map]. rewrite zlen_app, IH, zlen_cons.
  unfold encode_sub. rewrite zlen_app. destruct Hu as [Hc _]. rewrite !zlen_cons, zlen_nil.
  destruct coloured; [rewrite Hc by reflexivity|rewrite zlen_nil]; lia.
Qed.

(** Where the count of the subrectangles is. *)
Lemma count_at bg fg coloured l r : color_ok bg -> color_ok fg ->
  let tl := Drawn bg fg coloured (Some l) in
  head_size (subencoding_of tl) + 1 <= zlen (encode_tile tl ++ r) /\
  zgetd (encode_tile tl ++ r) (head_size (subencoding_of tl)) = zlen l.
Proof.
  intros Hb Hf tl. subst tl. assert (Hz : 0 <= zlen (flat_map (encode_sub coloured) l ++ r)) by apply zlen_nonneg.
  destruct bg as [bg|]; [destruct (zlen_four bg Hb) as (b1 & b2 & b3 & b4 & ->)|];
    (destruct fg as [fg|]; [destruct (zlen_four fg Hf) as (f1 & f2 & f3 & f4 & ->)|]); destruct coloured;
    (split; [cbn [encode_tile encode_body opt_bytes app]; rewrite !zlen_cons;
       match goal with |- head_size ?s + 1 <= _ => let v := eval vm_compute in (head_size s) in change (head_size s) with v end; lia
     | reflexivity]).
Qed.

Lemma tile_size_encoded m tl tw th r : tile_ok m tw th tl ->
  tile_size (subencoding_of tl) tw th (encode_tile tl ++ r) = zlen (encode_tile tl).
Proof.
  intros Hok. destruct tl as [|pixels|bg fg coloured subs]; cbn [tile_ok] in *.
  - reflexivity.
  - unfold tile_size. change (bit (subencoding_of (RawTile pixels)) 1) with true. cbv iota.
    unfold encode_tile. rewrite zlen_cons. cbn [encode_body]. lia.
  - destruct Hok as (_ & Hbg & Hfg & _ & _ & Hsubs). destruct (bits_of (Drawn bg fg coloured subs)) as (_ & B1 & B2 & B4 & B8 & B16).
    unfold tile_size, sub_size. rewrite B1, B8, B16.
    assert (Lb : zlen (opt_bytes bg) = match bg with Some _ => 4 | None => 0 end) by (destruct bg; [exact Hbg|reflexivity]).
    assert (Lf : zlen (opt_bytes fg) = match fg with Some _ => 4 | None => 0 end) by (destruct fg; [exact Hfg|reflexivity]).
    destruct subs as [l|].
    + destruct Hsubs as [Hl Hs]. destruct (count_at bg fg coloured l r Hbg Hfg) as [_ Ec]. rewrite Ec.
      unfold head_size, encode_tile. rewrite B2, B4. cbn [encode_body].
      rewrite zlen_cons, !zlen_app, zlen_cons, (encode_subs_length tw th coloured l Hs), Lb, Lf. destruct bg, fg; lia.
    + unfold head_size, encode_tile. rewrite B2, B4. cbn [encode_body]. rewrite zlen_cons, !zlen_app. change (zlen (@nil Z)) with 0. rewrite Lb, Lf.
      destruct bg, fg; lia.
Qed.

Lemma head_there m tl tw th r : tile_ok m tw th tl -> bit (subencoding_of tl) 1 = false -> bit (subencoding_of tl) 8 = true ->
  head_size (subencoding_of tl) + 1 <= zlen (encode_tile tl ++ r).
Proof.
  intros Hok F1 F2. destruct tl as [|px|bg fg coloured subs]; [discriminate F2|discriminate F1|].
  destruct (bits_of (Drawn bg fg coloured subs)) as (_ & _ & _ & _ & B8 & _). rewrite B8 in F2. destruct subs as [l|]; [|discriminate].
  destruct Hok as (_ & Hbg & Hfg & _). now apply count_at.
Qed.

(** The place of the tile [k] of the rectangle. *)
Definition at_x (k : Z) : Z := x + k mod ceil16 width * 16.
Definition at_y (k : Z) : Z := y + k / ceil16 width * 16.
Definition at_w (k : Z) : Z := Z.min 16 (x + width - at_x k).
Definition at_h (k : Z) : Z := Z.min 16 (y + height - at_y k).

Fixpoint tiles_draws (m : memory) (k : Z) (tiles : list tile) : list draw :=
  match tiles with
  | [] => []
  | tl :: tiles => tile_draws m tl (at_x k) (at_y k) (at_w k) (at_h k) ++ tiles_draws (remember tl m) (k + 1) tiles
  end.

Fixpoint tiles_ok (m : memory) (k : Z) (tiles : list tile) : Prop :=
  match tiles with
  | [] => True
  | tl :: tiles => tile_ok m (at_w k) (at_h k) tl /\ tiles_ok (remember tl m) (k + 1) tiles
  end.

Lemma at_range k : 0 < width -> 0 < height -> 0 <= k < ceil16 width * ceil16 height ->
  1 <= at_w k <= 16 /\ 1 <= at_h k <= 16.
Proof.
  intros Hw Hh Hk. assert (Cw := ceil16_spec width). assert (Ch := ceil16_spec height).
  assert (H0 : 0 < ceil16 width) by lia. assert (Hm := Z.mod_pos_bound k (ceil16 width) H0).
  assert (Hd : k / ceil16 width < ceil16 height) by (apply Z.div_lt_upper_bound; lia).
  assert (Hp : 0 <= k / ceil16 width) by (apply Z.div_pos; lia).
  unfold at_w, at_h, at_x, at_y. lia.
Qed.

Lemma tiles_run tail : 0 < width -> 0 < height -> forall tiles m k st p t,
  0 <= k -> k + zlen tiles = ceil16 width * ceil16 height -> tiles_ok m k tiles ->
  _tiles st = zlen tiles -> grid width height st -> keeps_memory st m ->
  exists p' st', tiles_loop (List.length tiles) x y width height (World st (ASrc p (flat_map encode_tile tiles ++ tail)) t) =
    (Ret true, World st' (ASrc p' tail) (t ++ tiles_draws m k tiles)) /\
    _tiles st' = 0 /\ keeps_memory st' (fold_left (fun m tl => remember tl m) tiles m).
Proof.
  intros Hw Hh. induction tiles as [|tl tiles IH]; intros m k st p t Hk Hn Hok Ht Hg Hm.
  - exists p, st. cbn [List.length tiles_loop flat_map app fold_left tiles_draws]. rewrite run_get, Ht, app_nil_r. auto.
  - zlens. rewrite zlen_cons in *. cbn [tiles_ok] in Hok. destruct Hok as [Ho Hok].
    destruct (at_range k Hw Hh ltac:(lia)) as [Rw Rh]. destruct (bits_of tl) as [Hb _].
    cbn [List.length flat_map]. rewrite <- app_assoc.
    change (encode_tile tl ++ flat_map encode_tile tiles ++ tail) with
      (subencoding_of tl :: encode_body tl ++ flat_map encode_tile tiles ++ tail).
    assert (Hgr := Hg). destruct Hgr as (G1 & G2 & G3 & G4).
    assert (Ecur : _totalTiles st - _tiles st = k) by lia.
    rewrite loop_tile by lia. unfold tile_start.
    replace (tile_w x width st) with (at_w k) by (unfold tile_w, tile_x, at_w, at_x; now rewrite Ecur, G1).
    replace (tile_h y height st) with (at_h k) by (unfold tile_h, tile_y, at_h, at_y; now rewrite Ecur, G1).
    assert (Esz := tile_size_encoded m tl (at_w k) (at_h k) (flat_map encode_tile tiles ++ tail) Ho).
    change (encode_tile tl ++ flat_map encode_tile tiles ++ tail) with
      (subencoding_of tl :: encode_body tl ++ flat_map encode_tile tiles ++ tail) in Esz.
    assert (Elen : zlen (subencoding_of tl :: encode_body tl ++ flat_map encode_tile tiles ++ tail) =
      zlen (encode_tile tl) + zlen (flat_map encode_tile tiles ++ tail)).
    { unfold encode_tile. rewrite !zlen_cons, zlen_app. lia. }
    unfold bind at 1. rewrite tile_bytes_run; [|lia|lia|].
    2:{ cbn [sock rest]. intros F1 F2. exact (head_there m tl _ _ (flat_map encode_tile tiles ++ tail) Ho F1 F2). }
    cbn [sock rest]. rewrite Esz. unfold tile_rest. rewrite run_wait by (rewrite Elen; zlens; lia).
    change (subencoding_of tl :: encode_body tl ++ flat_map encode_tile tiles ++ tail) with
      ([subencoding_of tl] ++ encode_body tl ++ flat_map encode_tile tiles ++ tail).
    rewrite (run_take 1 same be) by reflexivity.
    replace (tile_x x st) with (at_x k) by (unfold tile_x, at_x; now rewrite Ecur, G1).
    replace (tile_y y st) with (at_y k) by (unfold tile_y, at_y; now rewrite Ecur, G1).
    replace (tile_w x width st) with (at_w k) by (unfold tile_w, tile_x, at_w, at_x; now rewrite Ecur, G1).
    replace (tile_h y height st) with (at_h k) by (unfold tile_h, tile_y, at_h, at_y; now rewrite Ecur, G1).
    match goal with |- context [World st (ASrc ?q _) t] =>
      destruct (draw_run m tl (at_x k) (at_y k) (at_w k) (at_h k) st q (flat_map encode_tile tiles ++ tail) t Rw Rh Ho Hm)
        as (p1 & st1 & E1 & Kb & Kf & Kl);
      assert (Hfr := draw_frame (subencoding_of tl) (at_x k) (at_y k) (at_w k) (at_h k)
        (World st (ASrc q (encode_body tl ++ flat_map encode_tile tiles ++ tail)) t))
    end.
    rewrite E1 in Hfr. cbn [snd dec] in Hfr. destruct Hfr as (F1 & F2 & F3 & F4).
    rewrite (bind_run _ _ _ _ _ E1), run_modify.
    set (st2 := set_tiles _ _).
    destruct (IH (remember tl m) (k + 1) st2 p1 (t ++ tile_draws m tl (at_x k) (at_y k) (at_w k) (at_h k)))
      as (p' & st' & E & R1 & R2); auto; try lia.
    + unfold st2. cbn. lia.
    + unfold st2, grid. cbn. rewrite F2, F3, F4. repeat split; auto. lia.
    + unfold st2, keeps_memory. cbn. rewrite Kb, Kf. repeat split; auto.
      destruct tl as [|px|bg fg coloured subs]; [reflexivity|reflexivity|].
      destruct (bits_of (Drawn bg fg coloured subs)) as (_ & B1 & _). exact B1.
    + exists p', st'. split; [|auto]. etransitivity; [exact E|]. cbn [tiles_draws]. now rewrite app_assoc.
Qed.

(** C8.  Hextile: from the tiles of a rectangle, row by row, the decoder draws each
    in its place: raw pixels as they are, otherwise the background with the
    subrectangles over it, each pixel in the colour of the last one that covers
    it; colours a tile leaves out are those of the tiles before, also of earlier
    rectangles; a tile without anything is the background again, or nothing after
    raw pixels.  Exactly the bytes of the tiles are read, and the decoder is
    ready for the next rectangle. *)
Theorem hextile_draws tiles m st p tail t : 0 < width -> 0 < height ->
  zlen tiles = ceil16 width * ceil16 height -> tiles_ok m 0 tiles ->
  _tiles st = 0 -> keeps_memory st m ->
  exists p' st', decodeRect x y width height depth (World st (ASrc p (flat_map encode_tile tiles ++ tail)) t) =
    (Ret true, World st' (ASrc p' tail) (t ++ tiles_draws m 0 tiles)) /\
    _tiles st' = 0 /\ keeps_memory st' (fold_left (fun m tl => remember tl m) tiles m).
Proof.
  intros Hw Hh Hn Hok Ht Hm. unfold decodeRect. rewrite run_get, Ht. cbn [Z.eqb]. rewrite run_modify, run_get.
  cbn [_tiles set_grid]. rewrite <- Hn. replace (Z.to_nat (zlen tiles)) with (List.length tiles) by (unfold zlen; lia).
  apply (tiles_run tail Hw Hh tiles m 0); auto; try lia.
  unfold grid. cbn. repeat split; auto. lia.
Qed.
End Drawing.

(** A rectangle of 17 by 2 pixels: a tile with a background and a subrectangle,
    and one column that repeats the background. *)
Lemma hextile_draws_witness : exists p' st',
  decodeRect 5 7 17 2 24 (World constructor (ASrc []
    [14; 1; 2; 3; 0; 9; 9; 9; 0; 1; 1 * 16 + 0; (2 - 1) * 16 + (1 - 1); 0; 77]) []) =
  (Ret true, World st' (ASrc p' [77])
    [DBlit 5 7 16 2 (flat_map (fun k => pixel (if (k =? 1) || (k =? 2) then [9; 9; 9; 0] else [1; 2; 3; 0])) (upto 32));
     DFill 21 7 1 2 [1; 2; 3; 0]]) /\ _tiles st' = 0.
Proof.
  destruct (hextile_draws 5 7 17 2 24 [Drawn (Some [1; 2; 3; 0]) (Some [9; 9; 9; 0]) false (Some [Sub [] 1 0 2 1]); Blank]
    (Memory false None None) constructor [] [77] []) as (p' & st' & E & Ht & _).
  - lia.
  - lia.
  - reflexivity.
  - split; [|split; [right; discriminate|exact I]]. split; [discriminate|]. split; [reflexivity|]. split; [reflexivity|].
    split; [discriminate|]. split; [discriminate|]. split; [reflexivity|]. repeat constructor; discriminate.
  - reflexivity.
  - repeat split.
  - exists p', st'. split; [exact E|exact Ht].
Defined.

Lemma hextile_resumes_witness :
  let m := decodeRect 5 7 17 2 24 in
  let w := World constructor (ASrc [] [14; 1; 2; 3]) [] in
  feed m w [[0; 9]; [9; 9; 0; 1; 16]; [16; 0]] = m (ext [0; 9; 9; 9; 0; 1; 16; 16; 0] w) /\ fst (m w) <> Stuck.
Proof.
  apply (hextile_resumes 5 7 17 2 24 ltac:(lia) ltac:(lia) (World constructor (ASrc [] [14; 1; 2; 3]) [])
    [[0; 9]; [9; 9; 0; 1; 16]; [16; 0]]).
  - split; [cbn; lia|]. split; [cbn; lia|]. repeat constructor; cbn; lia.
  - repeat constructor; lia.
Defined.
