(* ===== verification/Utf8.v ===== *)
(** UTF-8 conversion, core/util/strings.js, on JavaScript strings.

    A JavaScript string is a list of UTF-16 code units.  [encodeURIComponent]
    and [decodeURIComponent] fail on unpaired surrogates and on bytes that are
    not the shortest UTF-8 form of a scalar value; [escape] turns a character
    above 255 into something [decodeURIComponent] refuses. *)

From Stdlib Require Import ZArith List Lia Bool String.
From S2P Require Import Prelude.
Import ListNotations.
Open Scope Z_scope.

Module Utf8.

Definition is_high (u : Z) : bool := (55296 <=? u) && (u <=? 56319).
Definition is_low (u : Z) : bool := (56320 <=? u) && (u <=? 57343).

(** The bytes of a scalar value. *)
Definition utf8_char (c : Z) : list Z :=
  if c <? 128 then [c]
  else if c <? 2048 then [192 + c / 64; 128 + c mod 64]
  else if c <? 65536 then [224 + c / 4096; 128 + c / 64 mod 64; 128 + c mod 64]
  else [240 + c / 262144; 128 + c / 4096 mod 64; 128 + c / 64 mod 64; 128 + c mod 64].

(** The scalar value of a surrogate pair. *)
Definition from_pair (u v : Z) : Z := 65536 + (u - 55296) * 1024 + (v - 56320).

(** [unescape(encodeURIComponent(s))] *)
Fixpoint encode_units (s : list Z) : option (list Z) :=
  match s with
  | [] => Some []
  | u :: s' =>
      if is_high u then
        match s' with
        | v :: s'' =>
            if is_low v then
              option_map (app (utf8_char (from_pair u v))) (encode_units s'')
            else None
        | [] => None
        end
      else if is_low u then None
      else option_map (app (utf8_char u)) (encode_units s')
  end.

Definition encodeUTF8 (s : list Z) : outcome (list Z) :=
  match encode_units s with Some l => Ret l | None => Throw "URIError" end.

(** The code units of a scalar value. *)
Definition utf16 (c : Z) : list Z :=
  if c <? 65536 then [c] else [55296 + (c - 65536) / 1024; 56320 + (c - 65536) mod 1024].

Definition is_cont (b : Z) : bool := (128 <=? b) && (b <? 192).

(** One scalar value from the front of the bytes, in its shortest form. *)
Definition decode_char (l : list Z) : option (Z * list Z) :=
  match l with
  | [] => None
  | a :: l1 =>
      if (0 <=? a) && (a <? 128) then Some (a, l1)
      else if (192 <=? a) && (a <? 224) then
        match l1 with
        | b :: l2 =>
            let c := (a - 192) * 64 + (b - 128) in
            if is_cont b && (128 <=? c) then Some (c, l2) else None
        | _ => None
        end
      else if (224 <=? a) && (a <? 240) then
        match l1 with
        | b :: b' :: l2 =>
            let c := (a - 224) * 4096 + (b - 128) * 64 + (b' - 128) in
            if is_cont b && is_cont b' && (2048 <=? c) && negb (is_high c || is_low c)
            then Some (c, l2) else None
        | _ => None
        end
      else if (240 <=? a) && (a <? 248) then
        match l1 with
        | b :: b' :: b'' :: l2 =>
            let c := (a - 240) * 262144 + (b - 128) * 4096 + (b' - 128) * 64 + (b'' - 128) in
            if is_cont b && is_cont b' && is_cont b'' && (65536 <=? c) && (c <? 1114112)
            then Some (c, l2) else None
        | _ => None
        end
      else None
  end.

(** [decodeURIComponent(escape(s))]; every turn consumes a byte. *)
Fixpoint decode_units (fuel : nat) (l : list Z) : option (list Z) :=
  match l with
  | [] => Some []
  | _ =>
      match fuel with
      | O => None
      | S fuel =>
          match decode_char l with
          | Some (c, l') => option_map (app (utf16 c)) (decode_units fuel l')
          | None => None
          end
      end
  end.

Definition decodeUTF8 (utf8string : list Z) (allowLatin1 : bool) : outcome (list Z) :=
  match decode_units (List.length utf8string) utf8string with
  | Some s => Ret s
  | None => if allowLatin1 then Ret utf8string else Throw "URIError"
  end.

(** * Round trip *)

(** A string without unpaired surrogates. *)
Inductive well_formed : list Z -> Prop :=
| wf_nil : well_formed []
| wf_unit u s : 0 <= u < 65536 -> is_high u = false -> is_low u = false -> well_formed s -> well_formed (u :: s)
| wf_pair u v s : is_high u = true -> is_low v = true -> well_formed s -> well_formed (u :: v :: s).

(** Decide the range tests of [decode_char] one by one. *)
Ltac tests := repeat match goal with
  | |- context [?a <=? ?b] => (rewrite (proj2 (Z.leb_le a b)) by lia) || (rewrite (proj2 (Z.leb_gt a b)) by lia)
  | |- context [?a <? ?b] => (rewrite (proj2 (Z.ltb_lt a b)) by lia) || (rewrite (proj2 (Z.ltb_ge a b)) by lia)
  end.

Lemma decode_utf8_char c l :
  0 <= c < 1114112 -> is_high c = false -> is_low c = false -> decode_char (utf8_char c ++ l) = Some (c, l).
Proof.
  intros Hc Hh Hl. unfold utf8_char.
  destruct (Z.ltb_spec c 128).
  { cbn [app decode_char]. destruct (Z.leb_spec 0 c), (Z.ltb_spec c 128); lia || reflexivity. }
  assert (Hcont : forall z, is_cont (128 + z mod 64) = true).
  { intros z. unfold is_cont. pose proof (Z.mod_pos_bound z 64 ltac:(lia)).
    destruct (Z.leb_spec 128 (128 + z mod 64)), (Z.ltb_spec (128 + z mod 64) 192); lia || reflexivity. }
  destruct (Z.ltb_spec c 2048).
  { cbn [app decode_char]. rewrite Hcont. replace ((192 + c / 64 - 192) * 64 + (128 + c mod 64 - 128)) with c by euclid.
    assert (192 <= 192 + c / 64 < 224) by euclid. set (a := 192 + c / 64) in *. tests. reflexivity. }
  destruct (Z.ltb_spec c 65536).
  { cbn [app decode_char]. rewrite !Hcont.
    replace ((224 + c / 4096 - 224) * 4096 + (128 + c / 64 mod 64 - 128) * 64 + (128 + c mod 64 - 128)) with c by euclid.
    assert (224 <= 224 + c / 4096 < 240) by euclid. set (a := 224 + c / 4096) in *.
    rewrite Hh, Hl. tests. reflexivity. }
  cbn [app decode_char]. rewrite !Hcont.
  replace ((240 + c / 262144 - 240) * 262144 + (128 + c / 4096 mod 64 - 128) * 4096 +
    (128 + c / 64 mod 64 - 128) * 64 + (128 + c mod 64 - 128)) with c by euclid.
  assert (240 <= 240 + c / 262144 < 248) by euclid. set (a := 240 + c / 262144) in *. tests. reflexivity.
Qed.

Lemma utf8_char_cons c : exists b t, utf8_char c = b :: t.
Proof. unfold utf8_char. repeat case_if; eauto. Qed.

Lemma decode_units_step c l fuel s :
  0 <= c < 1114112 -> is_high c = false -> is_low c = false ->
  decode_units fuel l = Some s ->
  decode_units (S fuel) (utf8_char c ++ l) = Some (utf16 c ++ s).
Proof.
  intros Hc Hh Hl Hd. pose proof (decode_utf8_char c l Hc Hh Hl) as H.
  destruct (utf8_char_cons c) as (b & t & Ht). rewrite Ht in *. cbn [app decode_units] in *. now rewrite H, Hd.
Qed.

Lemma decode_units_mono l : forall fuel s, decode_units fuel l = Some s -> decode_units (S fuel) l = Some s.
Proof.
  intros fuel. revert l. induction fuel as [|fuel IH]; intros l s Hd.
  - destruct l; [exact Hd|discriminate].
  - destruct l as [|b l]; [exact Hd|]. cbn [decode_units] in Hd.
    remember (S fuel) as f. cbn [decode_units]. destruct (decode_char (b :: l)) as [[c l']|]; [|discriminate].
    destruct (decode_units fuel l') as [s'|] eqn:E; [|discriminate]. apply IH in E. subst f. now rewrite E.
Qed.

Lemma decode_units_le l fuel fuel' s :
  (fuel <= fuel')%nat -> decode_units fuel l = Some s -> decode_units fuel' l = Some s.
Proof. induction 1; auto using decode_units_mono. Qed.

Lemma encode_roundtrip s : well_formed s ->
  exists l, encode_units s = Some l /\ decode_units (List.length s) l = Some s.
Proof.
  induction 1 as [|u s Hu Hh Hl Hwf (l & He & Hd)|u v s Hh Hl Hwf (l & He & Hd)].
  - exists []. auto.
  - exists (utf8_char u ++ l). cbn [encode_units]. rewrite Hh, Hl, He. split; [reflexivity|].
    cbn [List.length]. rewrite (decode_units_step u l _ s) by (auto; lia). unfold utf16.
    destruct (Z.ltb_spec u 65536); [reflexivity|lia].
  - set (c := from_pair u v).
    exists (utf8_char c ++ l). cbn [encode_units]. rewrite Hh, Hl, He. split; [reflexivity|].
    unfold is_high, is_low in Hh, Hl. bool_prop.
    apply (decode_units_le _ (S (List.length s))); [cbn; lia|].
    rewrite (decode_units_step c l _ s); auto; subst c; unfold from_pair; try lia.
    + unfold utf16. destruct (Z.ltb_spec (65536 + (u - 55296) * 1024 + (v - 56320)) 65536); [lia|].
      cbn [app]. do 2 f_equal; [|f_equal]; euclid.
    + unfold is_high. apply andb_false_intro2, Z.leb_gt. lia.
    + unfold is_low. apply andb_false_intro2, Z.leb_gt. lia.
Qed.

Lemma utf8_char_bytes c : 0 <= c < 1114112 -> bytes (utf8_char c).
Proof. intros Hc. unfold utf8_char. repeat case_if; bool_prop; repeat constructor; euclid. Qed.

Lemma encode_units_bytes s : well_formed s -> forall l, encode_units s = Some l -> bytes l.
Proof.
  induction 1 as [|u s Hu Hh Hl Hwf IH|u v s Hh Hl Hwf IH]; intros l; cbn [encode_units].
  - intros [= <-]. constructor.
  - rewrite Hh, Hl. destruct (encode_units s) as [l'|]; [|discriminate]. intros [= <-].
    apply bytes_app. split; [apply utf8_char_bytes; lia|now apply IH].
  - rewrite Hh, Hl. destruct (encode_units s) as [l'|]; [|discriminate]. intros [= <-].
    apply bytes_app. unfold is_high, is_low in Hh, Hl. bool_prop. split; [apply utf8_char_bytes; unfold from_pair; lia|now apply IH].
Qed.

Lemma decode_char_shorter l c l' : decode_char l = Some (c, l') -> (List.length l' < List.length l)%nat.
Proof.
  unfold decode_char. destruct l as [|a [|b [|b' [|b'' l]]]]; try discriminate;
    repeat case_if; intros [= _ <-]; cbn; lia.
Qed.

(** The fuel of [decodeUTF8] is enough: more never changes the answer. *)
Lemma decode_units_enough l : forall fuel, (List.length l <= fuel)%nat ->
  decode_units fuel l = decode_units (List.length l) l.
Proof.
  induction l as [l IH] using (well_founded_induction (well_founded_ltof _ (@List.length Z))).
  intros fuel Hf. destruct l as [|a l]; [now destruct fuel|].
  destruct fuel as [|fuel]; [cbn in Hf; lia|]. cbn [List.length decode_units].
  destruct (decode_char (a :: l)) as [[c l']|] eqn:E; [|reflexivity].
  pose proof (decode_char_shorter _ _ _ E) as Hlt. cbn [List.length] in *.
  rewrite (IH l') by (unfold ltof; cbn [List.length]; lia). f_equal.
  symmetry. apply IH; [unfold ltof; cbn [List.length]; lia|lia].
Qed.

(** Text survives UTF-8: a string without unpaired surrogates encodes
    without an error, to bytes, and decodes to itself, whether or not Latin-1
    is allowed. *)
Theorem utf8_roundtrip (s : list Z) (allowLatin1 : bool) :
  well_formed s -> exists l, encodeUTF8 s = Ret l /\ bytes l /\ decodeUTF8 l allowLatin1 = Ret s.
Proof.
  intros Hwf. destruct (encode_roundtrip s Hwf) as (l & He & Hd).
  exists l. unfold encodeUTF8, decodeUTF8. rewrite He. split; [reflexivity|].
  split; [now apply (encode_units_bytes s)|].
  apply (decode_units_le _ _ (Nat.max (List.length s) (List.length l))) in Hd; [|lia].
  rewrite decode_units_enough in Hd by lia. now rewrite Hd.
Qed.

Lemma utf8_roundtrip_witness :
  exists l, encodeUTF8 [104; 233; 8364; 55357; 56832] = Ret l /\ bytes l /\
    decodeUTF8 l false = Ret [104; 233; 8364; 55357; 56832].
Proof.
  apply (utf8_roundtrip [104; 233; 8364; 55357; 56832] false).
  repeat (first [apply wf_nil | apply wf_unit; [lia|reflexivity|reflexivity|] | apply wf_pair; [reflexivity|reflexivity|]]).
Defined.

End Utf8.
