(* ===== verification/Webutil.v ===== *)
(** Variables of the page's address, cookies and settings, app/webutil.js.

    Strings are lists of UTF-16 code units.  The address, the cookie string and
    the stores of the browser are arguments or fields of the state.  The
    theorems: a variable that was escaped into an address is read back, a
    cookie is found among others, and a setting survives a reload of the page. *)

From Stdlib Require Import ZArith List Lia Bool String.
From S2P Require Import Prelude Utf8.
Import ListNotations JS JSFacts.
Open Scope Z_scope.
Open Scope code_scope.

Module WebUtil.

(** ** Values and strings *)

Inductive value :=
| Undefined
| Null
| Bool (b : bool)
| Num (n : Z)
| Str (s : list Z).

Definition units (s : string) : list Z := map (fun c => Z.of_nat (Ascii.nat_of_ascii c)) (list_ascii_of_string s).

Definition str_eqb (a b : list Z) : bool := if list_eq_dec Z.eq_dec a b then true else false.

(** [===] *)
Definition value_eqb (a b : value) : bool :=
  match a, b with
  | Undefined, Undefined | Null, Null => true
  | Bool x, Bool y => Bool.eqb x y
  | Num x, Num y => x =? y
  | Str x, Str y => str_eqb x y
  | _, _ => false
  end.

(** Decimal digits of a number that is not negative; [fuel] digits at most. *)
Fixpoint digits (fuel : nat) (n : Z) : list Z :=
  match fuel with
  | O => []
  | S fuel => if n <? 10 then [48 + n] else digits fuel (n / 10) ++ [48 + n mod 10]
  end.

Definition decimal (n : Z) : list Z :=
  if n <? 0 then 45 :: digits (S (Z.to_nat (Z.log2 (- n)))) (- n) else digits (S (Z.to_nat (Z.log2 n))) n.

(** [String(v)] *)
Definition toString (v : value) : list Z :=
  match v with
  | Undefined => units "undefined"
  | Null => units "null"
  | Bool true => units "true"
  | Bool false => units "false"
  | Num n => decimal n
  | Str s => s
  end.

(** The rest of [s] behind [p], when [s] starts with it. *)
Fixpoint after (p s : list Z) : option (list Z) :=
  match p, s with
  | [], _ => Some s
  | a :: p, b :: s => if a =? b then after p s else None
  | _ :: _, [] => None
  end.

Fixpoint until (stop : Z -> bool) (s : list Z) : list Z :=
  match s with
  | [] => []
  | c :: s => if stop c then [] else c :: until stop s
  end.

(** ** [decodeURIComponent] of the language *)

Definition hex_digit (c : Z) : option Z :=
  if (48 <=? c) && (c <=? 57) then Some (c - 48)
  else if (65 <=? c) && (c <=? 70) then Some (c - 55)
  else if (97 <=? c) && (c <=? 102) then Some (c - 87)
  else None.

(** A code unit, or a byte that was escaped. *)
Inductive token := TUnit (u : Z) | TByte (b : Z).

Fixpoint tokens (s : list Z) : option (list token) :=
  match s with
  | [] => Some []
  | c :: s =>
      if c =? 37 then
        match s with
        | a :: b :: s =>
            match hex_digit a, hex_digit b with
            | Some x, Some y => option_map (cons (TByte (16 * x + y))) (tokens s)
            | _, _ => None
            end
        | _ => None
        end
      else option_map (cons (TUnit c)) (tokens s)
  end.

(** The escaped bytes in front. *)
Fixpoint run_of (ts : list token) : list Z :=
  match ts with
  | TByte b :: ts => b :: run_of ts
  | _ => []
  end.

Fixpoint decode_tokens (fuel : nat) (ts : list token) : option (list Z) :=
  match fuel with
  | O => None
  | S fuel =>
      match ts with
      | [] => Some []
      | TUnit u :: ts => option_map (cons u) (decode_tokens fuel ts)
      | TByte _ :: _ =>
          match Utf8.decode_char (run_of ts) with
          | Some (c, rest) => option_map (app (Utf8.utf16 c)) (decode_tokens fuel (skipn (List.length (run_of ts) - List.length rest) ts))
          | None => None
          end
      end
  end.

Definition decodeURIComponent (s : list Z) : outcome (list Z) :=
  match tokens s with
  | Some ts => match decode_tokens (S (List.length ts)) ts with Some r => Ret r | None => Throw "URIError" end
  | None => Throw "URIError"
  end.

(** ** Variables of the address *)

(** What is behind the last place where a separator is followed by [key]: the
    [.*] in front of the pattern takes as much as it can. *)
Fixpoint last_match (sep : Z -> bool) (key s : list Z) : option (list Z) :=
  match s with
  | [] => None
  | c :: s =>
      match last_match sep key s with
      | Some r => Some r
      | None => if sep c then after key s else None
      end
  end.

Definition null_if_undefined (v : value) : value := match v with Undefined => Null | _ => v end.

Definition is_query (c : Z) : bool := (c =? 63) || (c =? 38).
Definition is_hash (c : Z) : bool := (c =? 38) || (c =? 35).
Definition is_amp (c : Z) : bool := c =? 38.

Definition decoded (s : list Z) : outcome value :=
  match decodeURIComponent s with Ret r => Ret (Str r) | Throw e => Throw e | Stuck => Stuck end.

Definition getQueryVar (href name : list Z) (defVal : value) : outcome value :=
  match last_match is_query (name ++ [61]) href with
  | Some r => decoded (until is_hash r)
  | None => Ret (null_if_undefined defVal)
  end.

Definition getHashVar (hash name : list Z) (defVal : value) : outcome value :=
  match last_match is_hash (name ++ [61]) hash with
  | Some r => decoded (until is_amp r)
  | None => Ret (null_if_undefined defVal)
  end.

Definition getConfigVar (href hash name : list Z) (defVal : value) : outcome value :=
  match getHashVar hash name Undefined with
  | Ret Null => getQueryVar href name defVal
  | r => r
  end.

(** ** Cookies *)

(** What is assigned to [document.cookie]; [gmt] is the date [days] from now,
    as [toGMTString] writes it. *)
Definition createCookie (protocol : list Z) (gmt : Z -> list Z) (name value : list Z) (days : Z) : list Z :=
  let expires := if truthy days then units "; expires=" ++ gmt days else [] in
  let secure := if str_eqb protocol (units "https:") then units "; secure" else [] in
  name ++ [61] ++ value ++ expires ++ units "; path=/" ++ secure.

(** [split(';')] *)
Fixpoint split (sep : Z) (s : list Z) : list (list Z) :=
  match s with
  | [] => [[]]
  | c :: s =>
      if c =? sep then [] :: split sep s
      else match split sep s with w :: ws => (c :: w) :: ws | [] => [[c]] end
  end.

Fixpoint strip_spaces (s : list Z) : list Z :=
  match s with
  | c :: s' => if c =? 32 then strip_spaces s' else s
  | [] => []
  end.

Fixpoint find_cookie (nameEQ : list Z) (ca : list (list Z)) : option (list Z) :=
  match ca with
  | [] => None
  | c :: ca => match after nameEQ (strip_spaces c) with Some v => Some v | None => find_cookie nameEQ ca end
  end.

Definition readCookie (cookie name : list Z) (defaultValue : value) : value :=
  match find_cookie (name ++ [61]) (split 59 cookie) with
  | Some v => Str v
  | None => null_if_undefined defaultValue
  end.

Definition eraseCookie (protocol : list Z) (gmt : Z -> list Z) (name : list Z) : list Z := createCookie protocol gmt name [] (-1).

(** ** Settings *)

Definition dict (A : Type) : Type := list Z -> option A.
Definition no_entry {A} : dict A := fun _ => None.
Definition put {A} (k : list Z) (v : option A) (d : dict A) : dict A := fun k' => if str_eqb k k' then v else d k'.

(** What an extension's store keeps when it is given the entries of [d]. *)
Definition merge {A} (d e : dict A) : dict A := fun k => match d k with Some v => Some v | None => e k end.

(** [settings] is the cache of the page; the names are not those an object of
    the language is born with.  A browser extension has a store of its own;
    otherwise it is the local storage, which holds strings and may be out of
    reach ([DOMException]). *)
Record store := mkStore {
  settings : dict value;
  chrome : bool;
  synced : dict value;
  localStorage : dict (list Z);
  refused : bool;
  loggedMsgs : list (list Z)
}.
Definition set_settings v s := mkStore v (chrome s) (synced s) (localStorage s) (refused s) (loggedMsgs s).
Definition set_synced v s := mkStore (settings s) (chrome s) v (localStorage s) (refused s) (loggedMsgs s).
Definition set_localStorage v s := mkStore (settings s) (chrome s) (synced s) v (refused s) (loggedMsgs s).
Definition set_loggedMsgs v s := mkStore (settings s) (chrome s) (synced s) (localStorage s) (refused s) v.

Definition initSettings : M store unit :=
  modify (fun s => if chrome s then set_settings (synced s) s else set_settings no_entry s).

Definition setSetting (name : list Z) (v : value) : M store unit := modify (fun s => set_settings (put name (Some v) (settings s)) s).

(** A message is logged the first time only; the log itself is the console's.
    The messages below leave out the text of the exception. *)
Definition logOnce (msg : list Z) : M store unit :=
  modify (fun s => if existsb (str_eqb msg) (loggedMsgs s) then s else set_loggedMsgs (loggedMsgs s ++ [msg]) s).

Definition cookiesMsg : list Z := units "Couldn't access noVNC settings, are cookies disabled?".
Definition refusal (call : list Z) : M store unit := logOnce cookiesMsg ;; logOnce (units "'localStorage." ++ call).

Definition localStorageGet (name : list Z) : M store value :=
  s <- get ;;
  if refused s then refusal (units "getItem(" ++ name ++ units ")' failed: ") ;; ret Undefined
  else ret (match localStorage s name with Some v => Str v | None => Null end).

Definition localStorageSet (name : list Z) (v : value) : M store unit :=
  s <- get ;;
  if refused s then refusal (units "setItem(" ++ name ++ [44] ++ toString v ++ units ")' failed: ")
  else modify (fun s => set_localStorage (put name (Some (toString v)) (localStorage s)) s).

Definition localStorageRemove (name : list Z) : M store unit :=
  s <- get ;;
  if refused s then refusal (units "removeItem(" ++ name ++ units ")' failed: ")
  else modify (fun s => set_localStorage (put name None (localStorage s)) s).

Definition cached (name : list Z) (s : store) : value := match settings s name with Some v => v | None => Undefined end.

Definition writeSetting (name : list Z) (v : value) : M store unit :=
  s <- get ;;
  if value_eqb (cached name s) v then ret tt
  else
    setSetting name v ;;
    s <- get ;;
    if chrome s then modify (fun s => set_synced (merge (settings s) (synced s)) s) else localStorageSet name v.

Definition readSetting (name : list Z) (defaultValue : value) : M store value :=
  s <- get ;;
  v <- (if (match settings s name with Some _ => true | None => false end) || chrome s then ret (cached name s)
        else v <- localStorageGet name ;; setSetting name v ;; ret v) ;;
  let v := null_if_undefined v in
  ret (match v, defaultValue with Null, Undefined => v | Null, _ => defaultValue | _, _ => v end).

Definition eraseSetting (name : list Z) : M store unit :=
  modify (fun s => set_settings (put name None (settings s)) s) ;;
  s <- get ;;
  if chrome s then modify (fun s => set_synced (put name None (synced s)) s) else localStorageRemove name.

(** * Variables are read back *)

(** Characters that [encodeURIComponent] of the language leaves alone. *)
Definition unreserved (c : Z) : bool :=
  ((48 <=? c) && (c <=? 57)) || ((65 <=? c) && (c <=? 90)) || ((97 <=? c) && (c <=? 122)) ||
  existsb (Z.eqb c) [33; 39; 40; 41; 42; 45; 46; 95; 126].

Definition to_hex (d : Z) : Z := if d <? 10 then 48 + d else 55 + d.
Definition escape_byte (b : Z) : list Z := [37; to_hex (b / 16); to_hex (b mod 16)].
Definition escape_char (c : Z) : list Z := if unreserved c then [c] else flat_map escape_byte (Utf8.utf8_char c).

(** On strings without unpaired surrogates. *)
Fixpoint encodeURIComponent (s : list Z) : list Z :=
  match s with
  | [] => []
  | u :: s' =>
      if Utf8.is_high u then
        match s' with v :: s'' => escape_char (Utf8.from_pair u v) ++ encodeURIComponent s'' | [] => [] end
      else escape_char u ++ encodeURIComponent s'
  end.

Definition token_char (c : Z) : list token := if unreserved c then [TUnit c] else map TByte (Utf8.utf8_char c).

Lemma hex_back d : 0 <= d < 16 -> hex_digit (to_hex d) = Some d.
Proof.
  intros Hd. unfold to_hex, hex_digit. destruct (Z.ltb_spec d 10).
  - destruct (Z.leb_spec 48 (48 + d)), (Z.leb_spec (48 + d) 57); try lia. cbn [andb]. f_equal. lia.
  - destruct (Z.leb_spec 48 (55 + d)), (Z.leb_spec (55 + d) 57); try lia.
    destruct (Z.leb_spec 65 (55 + d)), (Z.leb_spec (55 + d) 70); try lia. cbn [andb]. f_equal. lia.
Qed.

Lemma tokens_bytes bs s : bytes bs -> tokens (flat_map escape_byte bs ++ s) = option_map (app (map TByte bs)) (tokens s).
Proof.
  intros Hb. induction Hb as [|b bs Hb Hbs IH]; cbn [flat_map map app]; [now destruct (tokens s)|]. unfold is_byte in Hb.
  unfold escape_byte at 1. cbn [app tokens]. rewrite Z.eqb_refl, (hex_back (b / 16)), (hex_back (b mod 16)) by euclid. rewrite IH.
  replace (16 * (b / 16) + b mod 16) with b by euclid. now destruct (tokens s).
Qed.

Lemma unreserved_char c : unreserved c = true -> c <> 37 /\ c <> 38 /\ c <> 35 /\ c <> 63.
Proof. intros H. repeat split; intros ->; discriminate H. Qed.

Lemma tokens_char c s : 0 <= c < 1114112 -> tokens (escape_char c ++ s) = option_map (app (token_char c)) (tokens s).
Proof.
  intros Hc. unfold escape_char, token_char. destruct (unreserved c) eqn:Eu.
  - destruct (unreserved_char c Eu) as [Hn _]. cbn [app tokens]. destruct (Z.eqb_spec c 37); [lia|]. now destruct (tokens s).
  - apply tokens_bytes. now apply Utf8.utf8_char_bytes.
Qed.

Lemma run_of_app bs ts : run_of (map TByte bs ++ ts) = bs ++ run_of ts.
Proof. induction bs as [|b bs IH]; cbn [map app run_of]; [reflexivity|now rewrite IH]. Qed.

Lemma decode_char_token c ts fuel s : 0 <= c < 1114112 -> Utf8.is_high c = false -> Utf8.is_low c = false ->
  decode_tokens fuel ts = Some s -> decode_tokens (S fuel) (token_char c ++ ts) = Some (Utf8.utf16 c ++ s).
Proof.
  intros Hc Hh Hl Hd. unfold token_char. destruct (unreserved c) eqn:Eu.
  - cbn [app decode_tokens]. rewrite Hd. cbn [option_map]. unfold Utf8.utf16. destruct (Z.ltb_spec c 65536); [reflexivity|].
    exfalso. unfold unreserved in Eu. cbn [existsb] in Eu. rewrite !orb_true_iff, !andb_true_iff in Eu. bool_prop. lia.
  - assert (Hrun := run_of_app (Utf8.utf8_char c) ts). assert (Hdc := Utf8.decode_utf8_char c (run_of ts) Hc Hh Hl).
    destruct (Utf8.utf8_char_cons c) as (b & t & Et). rewrite Et in *. cbn [map app] in *. cbn [decode_tokens].
    rewrite Hrun, Hdc. replace (skipn _ _) with ts.
    + now rewrite Hd.
    + symmetry. change (TByte b :: map TByte t ++ ts) with (map TByte (b :: t) ++ ts).
      replace (List.length (b :: t ++ run_of ts) - List.length (run_of ts))%nat with (List.length (map TByte (b :: t))).
      * rewrite skipn_app, skipn_all, Nat.sub_diag. reflexivity.
      * rewrite length_map. cbn [List.length]. rewrite length_app. lia.
Qed.

Lemma pair_char u v : Utf8.is_high u = true -> Utf8.is_low v = true ->
  let c := Utf8.from_pair u v in
  0 <= c < 1114112 /\ Utf8.is_high c = false /\ Utf8.is_low c = false /\ Utf8.utf16 c = [u; v].
Proof.
  unfold Utf8.is_high, Utf8.is_low, Utf8.from_pair. intros Hh Hl. bool_prop.
  split; [lia|]. split; [apply andb_false_intro2, Z.ltb_ge || apply andb_false_intro2, Z.leb_gt; lia|].
  split; [apply andb_false_intro2, Z.ltb_ge || apply andb_false_intro2, Z.leb_gt; lia|].
  unfold Utf8.utf16. destruct (Z.ltb_spec (65536 + (u - 55296) * 1024 + (v - 56320)) 65536); [lia|]. f_equal; [euclid|f_equal; euclid].
Qed.

Lemma decode_tokens_mono fuel : forall ts s, decode_tokens fuel ts = Some s -> decode_tokens (S fuel) ts = Some s.
Proof.
  induction fuel as [|fuel IH]; intros ts s Hd; [discriminate|]. destruct ts as [|[u|b] ts]; [exact Hd| |]; cbn [decode_tokens] in Hd.
  - destruct (decode_tokens fuel ts) as [r|] eqn:E; [|discriminate]. apply IH in E. remember (S fuel) as f. cbn [decode_tokens]. now rewrite E.
  - remember (S fuel) as f. cbn [decode_tokens]. destruct (Utf8.decode_char _) as [[c r]|]; [|discriminate].
    destruct (decode_tokens fuel _) as [r'|] eqn:E; [|discriminate]. apply IH in E. now rewrite E.
Qed.

Lemma decode_tokens_le fuel fuel' ts s : (fuel <= fuel')%nat -> decode_tokens fuel ts = Some s -> decode_tokens fuel' ts = Some s.
Proof. induction 1; auto using decode_tokens_mono. Qed.

Lemma token_char_length c : (1 <= List.length (token_char c))%nat.
Proof. unfold token_char. destruct (unreserved c); [cbn; lia|]. destruct (Utf8.utf8_char_cons c) as (b & t & ->). cbn. lia. Qed.

Lemma decodeURIComponent_encode s : Utf8.well_formed s -> decodeURIComponent (encodeURIComponent s) = Ret s.
Proof.
  intros Hw. assert (H : exists ts, tokens (encodeURIComponent s) = Some ts /\ decode_tokens (S (List.length ts)) ts = Some s).
  { induction Hw as [|u s Hu Hh Hl Hw (ts & Et & Ed)|u v s Hh Hl Hw (ts & Et & Ed)].
    - exists []. auto.
    - exists (token_char u ++ ts). cbn [encodeURIComponent]. rewrite Hh, tokens_char, Et by lia. split; [reflexivity|].
      assert (Hlen := token_char_length u). apply (decode_tokens_le (S (S (List.length ts)))); [rewrite length_app; lia|].
      rewrite (decode_char_token u ts _ s) by (auto; lia). unfold Utf8.utf16. destruct (Z.ltb_spec u 65536); [reflexivity|lia].
    - destruct (pair_char u v Hh Hl) as (Hc & Hch & Hcl & E16). set (c := Utf8.from_pair u v) in *.
      exists (token_char c ++ ts). cbn [encodeURIComponent]. rewrite Hh. fold c. rewrite tokens_char, Et by lia. split; [reflexivity|].
      assert (Hlen := token_char_length c). apply (decode_tokens_le (S (S (List.length ts)))); [rewrite length_app; lia|].
      rewrite (decode_char_token c ts _ s) by (auto; lia). now rewrite E16. }
  destruct H as (ts & Et & Ed). unfold decodeURIComponent. now rewrite Et, Ed.
Qed.

(** The text of a value escaped holds no character that ends it. *)
Lemma escaped_plain s : Utf8.well_formed s -> Forall (fun c => c <> 38 /\ c <> 35 /\ c <> 63) (encodeURIComponent s).
Proof.
  assert (Hb : forall bs, bytes bs -> Forall (fun c => c <> 38 /\ c <> 35 /\ c <> 63) (flat_map escape_byte bs)).
  { intros bs Hbs. induction Hbs as [|b bs Hb Hbs IH]; cbn [flat_map]; [constructor|]. apply Forall_app. split; [|exact IH].
    assert (Hd : forall d, 0 <= d < 16 -> 48 <= to_hex d <= 57 \/ 65 <= to_hex d <= 70) by (intros d Hd; unfold to_hex; destruct (Z.ltb_spec d 10); lia).
    unfold is_byte in Hb. assert (H1 := Hd (b / 16) ltac:(euclid)). assert (H2 := Hd (b mod 16) ltac:(euclid)).
    repeat constructor; lia. }
  assert (Hc : forall c, 0 <= c < 1114112 -> Forall (fun c => c <> 38 /\ c <> 35 /\ c <> 63) (escape_char c)).
  { intros c Hc. unfold escape_char. destruct (unreserved c) eqn:Eu; [|apply Hb, Utf8.utf8_char_bytes; exact Hc].
    destruct (unreserved_char c Eu) as (_ & H). repeat constructor; tauto. }
  induction 1 as [|u s Hu Hh Hl Hw IH|u v s Hh Hl Hw IH]; cbn [encodeURIComponent]; [constructor| |]; rewrite Hh;
    apply Forall_app; split; try exact IH; apply Hc; [lia|now apply pair_char].
Qed.

Lemma after_app p s : after p (p ++ s) = Some s.
Proof. induction p as [|a p IH]; cbn [app after]; [reflexivity|]. now rewrite Z.eqb_refl. Qed.

Lemma last_match_skip sep key p s : Forall (fun c => sep c = false) p -> last_match sep key (p ++ s) = last_match sep key s.
Proof.
  induction 1 as [|c p Hc Hp IH]; cbn [app last_match]; [reflexivity|]. rewrite IH, Hc. now destruct (last_match sep key s).
Qed.

Lemma last_match_front sep key p c s : sep c = true -> last_match sep key (key ++ s) = None ->
  last_match sep key (p ++ c :: key ++ s) = Some s.
Proof.
  intros Hc Hn. induction p as [|d p IH]; cbn [app last_match]; [now rewrite Hn, Hc, after_app|]. now rewrite IH.
Qed.

Lemma until_app stop p s : Forall (fun c => stop c = false) p -> match s with [] => True | c :: _ => stop c = true end -> until stop (p ++ s) = p.
Proof.
  intros Hp Hs. induction Hp as [|c p Hc Hp IH]; cbn [app until]; [|now rewrite Hc, IH]. destruct s as [|c s]; [reflexivity|]. cbn [until]. now rewrite Hs.
Qed.

(** A variable in the query of the address, its value escaped, is read back
    whatever surrounds it, unless the same variable comes again. *)
Theorem query_var_read front c name v tail defVal :
  Utf8.well_formed v -> is_query c = true -> Forall (fun c => is_query c = false) name ->
  match tail with [] => True | c :: _ => is_hash c = true end -> last_match is_query (name ++ [61]) tail = None ->
  getQueryVar (front ++ c :: (name ++ [61]) ++ encodeURIComponent v ++ tail) name defVal = Ret (Str v).
Proof.
  intros Hv Hc Hn Ht Hl. unfold getQueryVar.
  assert (He : Forall (fun c => is_query c = false /\ is_hash c = false) (encodeURIComponent v)).
  { eapply Forall_impl; [|exact (escaped_plain v Hv)]. intros x (H1 & H2 & H3). unfold is_query, is_hash.
    destruct (Z.eqb_spec x 63), (Z.eqb_spec x 38), (Z.eqb_spec x 35); try lia; auto. }
  rewrite last_match_front; [|exact Hc|].
  - unfold decoded. rewrite until_app; [now rewrite decodeURIComponent_encode| |exact Ht]. eapply Forall_impl; [|exact He]. now intros x [_ H].
  - rewrite last_match_skip; [|apply Forall_app; split; [exact Hn|now repeat constructor]].
    rewrite last_match_skip; [exact Hl|]. eapply Forall_impl; [|exact He]. now intros x [H _].
Qed.

Lemma query_var_read_witness :
  getQueryVar (units "https://h/vnc.html?path=a&title=caf%C3%A9%20%26%20co&x=1#top") (units "title") Undefined =
  Ret (Str (units "caf" ++ [233] ++ units " & co")).
Proof.
  assert (E : units "https://h/vnc.html?path=a&title=caf%C3%A9%20%26%20co&x=1#top" =
    units "https://h/vnc.html?path=a" ++ 38 :: (units "title" ++ [61]) ++ encodeURIComponent (units "caf" ++ [233] ++ units " & co") ++ units "&x=1#top") by (vm_compute; reflexivity).
  rewrite E. apply query_var_read; try reflexivity; [|now repeat constructor].
  repeat (apply Utf8.wf_unit; [cbn; lia|reflexivity|reflexivity|]). constructor.
Defined.

(** * Cookies *)

(** The cookie string of the browser. *)
Fixpoint jar (cs : list (list Z * list Z)) : list Z :=
  match cs with
  | [] => []
  | [(n, v)] => n ++ [61] ++ v
  | (n, v) :: cs => n ++ [61] ++ v ++ [59; 32] ++ jar cs
  end.

Definition plain_name (n : list Z) : Prop := Forall (fun c => c <> 61 /\ c <> 59 /\ c <> 32) n.
Definition plain_value (v : list Z) : Prop := Forall (fun c => c <> 59) v.

Fixpoint lookup (name : list Z) (cs : list (list Z * list Z)) : option (list Z) :=
  match cs with
  | [] => None
  | (n, v) :: cs => if str_eqb n name then Some v else lookup name cs
  end.

Lemma str_eqb_spec a b : reflect (a = b) (str_eqb a b).
Proof. unfold str_eqb. destruct (list_eq_dec Z.eq_dec a b); now constructor. Qed.

Lemma after_name name n v : plain_name name -> plain_name n ->
  after (name ++ [61]) (n ++ [61] ++ v) = if str_eqb n name then Some v else None.
Proof.
  intros Hname. revert n. induction Hname as [|a name Ha Hname IH]; intros n Hn.
  - destruct Hn as [|b n Hb Hn]; cbn [app after]; [reflexivity|]. destruct (Z.eqb_spec 61 b); [lia|]. now destruct (str_eqb_spec (b :: n) []).
  - destruct Hn as [|b n Hb Hn]; cbn [app after].
    + destruct (Z.eqb_spec a 61); [lia|]. now destruct (str_eqb_spec [] (a :: name)).
    + rewrite IH by exact Hn. destruct (Z.eqb_spec a b) as [->|Hne].
      * destruct (str_eqb_spec n name), (str_eqb_spec (b :: n) (b :: name)); congruence.
      * destruct (str_eqb_spec (b :: n) (a :: name)); congruence.
Qed.

Lemma split_none sep s : Forall (fun c => c <> sep) s -> split sep s = [s].
Proof. induction 1 as [|c s Hc Hs IH]; cbn [split]; [reflexivity|]. destruct (Z.eqb_spec c sep); [lia|]. now rewrite IH. Qed.

Lemma split_at sep s t : Forall (fun c => c <> sep) s -> split sep (s ++ sep :: t) = s :: split sep t.
Proof.
  induction 1 as [|c s Hc Hs IH]; cbn [app split]; [now rewrite Z.eqb_refl|]. destruct (Z.eqb_spec c sep); [lia|]. now rewrite IH.
Qed.

Lemma strip_plain n v : plain_name n -> strip_spaces (n ++ [61] ++ v) = n ++ [61] ++ v.
Proof. intros Hn. destruct Hn as [|c n Hc Hn]; cbn [app strip_spaces]; [reflexivity|]. destruct (Z.eqb_spec c 32); [lia|reflexivity]. Qed.

Lemma no_semicolon n v : plain_name n -> plain_value v -> Forall (fun c => c <> 59) (n ++ [61] ++ v).
Proof.
  intros Hn Hv. apply Forall_app. split; [eapply Forall_impl; [|exact Hn]; cbv beta; intros; lia|]. constructor; [discriminate|exact Hv].
Qed.

Lemma find_in_jar name cs : plain_name name -> Forall (fun c => plain_name (fst c) /\ plain_value (snd c)) cs -> cs <> [] ->
  find_cookie (name ++ [61]) (split 59 (jar cs)) = lookup name cs /\
  find_cookie (name ++ [61]) (split 59 (32 :: jar cs)) = lookup name cs.
Proof.
  intros Hname Hcs Hne. induction Hcs as [|[n v] cs [Hn Hv] Hcs IH]; [now destruct Hne|]. cbn [fst snd] in *.
  assert (Hsemi := no_semicolon n v Hn Hv). assert (Hsemi' : Forall (fun c => c <> 59) (32 :: n ++ [61] ++ v)) by (constructor; [discriminate|exact Hsemi]).
  assert (Hend : find_cookie (name ++ [61]) [n ++ [61] ++ v] = (if str_eqb n name then Some v else None) /\
                 find_cookie (name ++ [61]) [32 :: n ++ [61] ++ v] = (if str_eqb n name then Some v else None)).
  { cbn [find_cookie strip_spaces]. change (32 =? 32) with true. cbv iota.
    rewrite strip_plain, after_name by assumption. now destruct (str_eqb n name). }
  destruct cs as [|d cs].
  - cbn [jar lookup]. rewrite !split_none by assumption. exact Hend.
  - destruct IH as [IH1 IH2]; [discriminate|].
    assert (E : jar ((n, v) :: d :: cs) = (n ++ [61] ++ v) ++ 59 :: 32 :: jar (d :: cs)) by (cbn [jar]; now rewrite <- !app_assoc).
    rewrite E. assert (E' : 32 :: (n ++ [61] ++ v) ++ 59 :: 32 :: jar (d :: cs) = (32 :: n ++ [61] ++ v) ++ 59 :: 32 :: jar (d :: cs)) by reflexivity.
    rewrite E', !split_at by assumption. cbn [find_cookie lookup strip_spaces]. change (32 =? 32) with true. cbv iota.
    rewrite strip_plain, after_name by assumption. destruct (str_eqb n name); [auto|]. auto.
Qed.

(** Among cookies with proper names and values the one with the name is read,
    the first if there are several, and the default if there is none. *)
Theorem cookie_read name cs defaultValue :
  plain_name name -> Forall (fun c => plain_name (fst c) /\ plain_value (snd c)) cs ->
  readCookie (jar cs) name defaultValue = match lookup name cs with Some v => Str v | None => null_if_undefined defaultValue end.
Proof.
  intros Hn Hcs. unfold readCookie. destruct cs as [|c cs].
  - cbn [jar split lookup find_cookie]. destruct (name ++ [61]) eqn:E; [now destruct name|reflexivity].
  - destruct (find_in_jar name (c :: cs) Hn Hcs ltac:(discriminate)) as [-> _]. reflexivity.
Qed.

(** * Settings *)

Lemma entry_same {A} k (v : option A) d : put k v d k = v.
Proof. unfold put. now destruct (str_eqb_spec k k). Qed.

Lemma entry_other {A} k k' (v : option A) d : k <> k' -> put k v d k' = d k'.
Proof. intros Hk. unfold put. now destruct (str_eqb_spec k k'). Qed.

Lemma read_cached name v def s : settings s name = Some v -> v <> Null -> v <> Undefined -> readSetting name def s = (Ret v, s).
Proof. intros Hs Hn Hu. unfold readSetting, cached. unM. rewrite Hs. cbn [orb]. destruct v; try contradiction; reflexivity. Qed.

Lemma logged_settings m s : exists l, logOnce m s = (Ret tt, set_loggedMsgs l s).
Proof. unfold logOnce, modify. destruct (existsb _ _); [exists (loggedMsgs s); now destruct s|]. eauto. Qed.

Lemma refusal_run c s : exists l, refusal c s = (Ret tt, set_loggedMsgs l s).
Proof.
  unfold refusal. destruct (logged_settings cookiesMsg s) as [l1 E1]. rewrite (bind_run _ _ _ _ _ E1).
  destruct (logged_settings (units "'localStorage." ++ c) (set_loggedMsgs l1 s)) as [l2 E2]. exists l2. rewrite E2. now destruct s.
Qed.

Lemma get_stored name s : fst (localStorageGet name s) =
  Ret (if refused s then Undefined else match localStorage s name with Some v => Str v | None => Null end).
Proof.
  unfold localStorageGet. rewrite (bind_run get _ s s s eq_refl). destruct (refused s); [|reflexivity].
  destruct (refusal_run (units "getItem(" ++ name ++ units ")' failed: ") s) as [l El]. now rewrite (bind_run _ _ _ _ _ El).
Qed.

Lemma read_stored name def s : settings s name = None -> chrome s = false ->
  fst (readSetting name def s) =
  Ret (if refused s then null_if_undefined def else match localStorage s name with Some v => Str v | None => null_if_undefined def end).
Proof.
  intros Hs Hc. unfold readSetting. rewrite (bind_run get _ s s s eq_refl), Hs, Hc. cbn [orb]. rewrite bind_assoc_run.
  assert (Hg := get_stored name s). destruct (localStorageGet name s) as [o s'] eqn:E. cbn [fst] in Hg. subst o.
  rewrite (bind_run _ _ _ _ _ E). destruct (refused s), (localStorage s name), def; reflexivity.
Qed.

Lemma set_stored name v s : exists l st, localStorageSet name v s = (Ret tt, set_loggedMsgs l (set_localStorage st s)) /\
  (forall other, other <> name -> st other = localStorage s other) /\ (refused s = false -> st name = Some (toString v)).
Proof.
  unfold localStorageSet. rewrite (bind_run get _ s s s eq_refl). destruct (refused s) eqn:Er.
  - destruct (refusal_run (units "setItem(" ++ name ++ [44] ++ toString v ++ units ")' failed: ") s) as [l El].
    exists l, (localStorage s). split; [rewrite El; now destruct s|]. split; [reflexivity|discriminate].
  - exists (loggedMsgs s), (put name (Some (toString v)) (localStorage s)). split; [now destruct s|].
    split; [intros o Ho; apply entry_other; congruence|intros _; apply entry_same].
Qed.

(** A setting that is changed is read back, other settings stay as they are,
    and after a reload of the page it comes from the store: as it was from the
    extension's, as text from the local storage, and as the default when the
    browser refuses storage; nothing throws. *)
Theorem setting_survives name v def s : v <> Null -> v <> Undefined -> value_eqb (cached name s) v = false ->
  exists s1, writeSetting name v s = (Ret tt, s1) /\ readSetting name def s1 = (Ret v, s1) /\
    (forall other, other <> name -> settings s1 other = settings s other /\ localStorage s1 other = localStorage s other) /\
    exists s2, initSettings s1 = (Ret tt, s2) /\
      fst (readSetting name def s2) = Ret (if chrome s then v else if refused s then null_if_undefined def else Str (toString v)).
Proof.
  intros Hn Hu Hc. unfold writeSetting. rewrite (bind_run get _ s s s eq_refl), Hc.
  set (s' := set_settings (put name (Some v) (settings s)) s). rewrite (bind_run (setSetting name v) _ s tt s' eq_refl).
  rewrite (bind_run get _ s' s' s' eq_refl). change (chrome s') with (chrome s).
  assert (Hother : forall other, other <> name -> put name (Some v) (settings s) other = settings s other) by (intros o Ho; apply entry_other; congruence).
  assert (Hsame : settings s' name = Some v) by apply entry_same. destruct (chrome s) eqn:Ech.
  - eexists. split; [reflexivity|]. split; [apply read_cached; auto|]. split; [intros o Ho; split; [now apply Hother|reflexivity]|].
    eexists. split; [reflexivity|]. change (chrome (set_synced (merge (settings s') (synced s')) s')) with (chrome s). rewrite Ech.
    rewrite (read_cached name v); auto. cbn [settings set_settings synced set_synced]. unfold merge. now rewrite Hsame.
  - destruct (set_stored name v s') as (l & st & El & Hst & Hname). eexists. split; [exact El|]. split; [apply read_cached; auto|].
    split; [intros o Ho; split; [now apply Hother|now apply Hst]|]. eexists. split; [reflexivity|].
    change (chrome (set_loggedMsgs l (set_localStorage st s'))) with (chrome s). rewrite Ech, read_stored by (auto; reflexivity).
    change (refused (set_settings no_entry (set_loggedMsgs l (set_localStorage st s')))) with (refused s).
    destruct (refused s) eqn:Er; [reflexivity|]. change (localStorage (set_settings no_entry (set_loggedMsgs l (set_localStorage st s'))) name) with (st name).
    now rewrite Hname.
Qed.

Definition empty_store : store := mkStore no_entry false no_entry no_entry false [].

Lemma setting_survives_witness : exists s1 s2,
  writeSetting (units "shared") (Bool false) empty_store = (Ret tt, s1) /\ initSettings s1 = (Ret tt, s2) /\
  fst (readSetting (units "shared") Undefined s2) = Ret (Str (units "false")).
Proof.
  destruct (setting_survives (units "shared") (Bool false) Undefined empty_store) as (s1 & E1 & _ & _ & s2 & E2 & E3);
    [discriminate|discriminate|reflexivity|]. exists s1, s2. auto.
Defined.

Lemma cookie_read_witness : readCookie (units "theme=dark; port=5900; host=a") (units "port") Undefined = Str (units "5900").
Proof.
  exact (cookie_read (units "port") [(units "theme", units "dark"); (units "port", units "5900"); (units "host", units "a")] Undefined
    ltac:(repeat constructor; cbn; discriminate) ltac:(repeat constructor; cbn; discriminate)).
Defined.
End WebUtil.
