(* ===== verification/Messages.v ===== *)
(** The messages the client sends, [RFB.messages] of core/rfb.js.

    Every encoder writes to a [ByteSink].  The abstract side is the protocol's:
    [cmsg] is a client-to-server message, [encode] its bytes and [parse] the
    server's reader.  The theorems show that each encoder writes the message it
    is meant to write, on the abstract sink and through the real send queue,
    and that the server reads it back. *)

From Stdlib Require Import ZArith List Lia Bool String.
From S2P Require Import Prelude Source Sink Websock Utf8.
Import ListNotations JS JSFacts.
Open Scope Z_scope.
Open Scope code_scope.

Module Messages.

Definition extendedClipboardFormatText : Z := 1.
Definition extendedClipboardFormatRtf : Z := (1 << 1)%js.
Definition extendedClipboardFormatHtml : Z := (1 << 2)%js.
Definition extendedClipboardFormatDib : Z := (1 << 3)%js.
Definition extendedClipboardFormatFiles : Z := (1 << 4)%js.

Definition extendedClipboardActionCaps : Z := (1 << 24)%js.
Definition extendedClipboardActionRequest : Z := (1 << 25)%js.
Definition extendedClipboardActionPeek : Z := (1 << 26)%js.
Definition extendedClipboardActionNotify : Z := (1 << 27)%js.
Definition extendedClipboardActionProvide : Z := (1 << 28)%js.

(** [toUnsigned32bit] of util/int.js *)
Definition toUnsigned32bit (toConvert : Z) : Z := (toConvert >>> 0)%js.

Section Encoders.
Context {S : Type} `{ByteSink S}.

Definition keyEvent (keysym down : Z) : M S unit :=
  sQpush8 4 ;;
  sQpush8 down ;;
  sQpush16 0 ;;
  sQpush32 keysym ;;
  flush.

Definition getRFBkeycode (keycode xtScanCode : Z) : Z :=
  let upperByte := (keycode >> 8)%js in
  let lowerByte := (keycode & 255)%js in
  if (upperByte =? 224) && (lowerByte <? 127) then (lowerByte .| 128)%js else xtScanCode.

Definition QEMUExtendedKeyEvent (keysym : Z) (down : bool) (keycode : Z) : M S unit :=
  sQpush8 255 ;;
  sQpush8 0 ;;
  sQpush16 (Z.b2z down) ;;
  sQpush32 keysym ;;
  let RFBkeycode := getRFBkeycode keycode keycode in
  sQpush32 RFBkeycode ;;
  flush.

Definition pointerEvent (x y mask : Z) : M S unit :=
  sQpush8 5 ;;
  sQpush8 mask ;;
  sQpush16 x ;;
  sQpush16 y ;;
  flush.

Definition _buildExtendedClipboardFlags (actions formats : list Z) : list Z :=
  let actionFlag := fold_left bor actions 0 in
  let formatFlag := fold_left bor formats 0 in
  [toUint8 (actionFlag >> 24)%js; 0; 0; toUint8 formatFlag].

Definition clientCutText (data : list Z) (extended : bool) : M S unit :=
  sQpush8 6 ;;
  sQpush8 0 ;;
  sQpush8 0 ;;
  sQpush8 0 ;;
  let length := if extended then toUnsigned32bit (- zlen data) else zlen data in
  sQpush32 length ;;
  sQpushBytes data ;;
  flush.

(** [replace(/\r\n|\r|\n/gm, "\r\n")] *)
Fixpoint crlf (s : list Z) : list Z :=
  match s with
  | 13 :: 10 :: s => 13 :: 10 :: crlf s
  | 13 :: s => 13 :: 10 :: crlf s
  | 10 :: s => 13 :: 10 :: crlf s
  | c :: s => c :: crlf s
  | [] => []
  end.

(** The data to deflate: each text with its length in front.  [formats] and
    [inData] have the same length at every call. *)
Fixpoint dataToDeflate (formats : list Z) (inData : list (list Z)) : outcome (list Z) :=
  match formats, inData with
  | f :: formats, d :: inData =>
      if negb (f =? extendedClipboardFormatText)
      then Throw "Unsupported extended clipboard format for Provide message."
      else
        match Utf8.encodeUTF8 (crlf d ++ [0]) with
        | Ret text =>
            match dataToDeflate formats inData with
            | Ret rest =>
                let n := zlen text in
                Ret ([((n >> 24) & 255)%js; ((n >> 16) & 255)%js; ((n >> 8) & 255)%js; (n & 255)%js] ++ text ++ rest)
            | e => e
            end
        | e => e
        end
  | f :: formats, [] => Throw "TypeError"
  | [], _ => Ret []
  end.

(** [deflate] is the Deflator, a third-party compressor. *)
Definition extendedClipboardProvide (deflate : list Z -> list Z) (formats : list Z) (inData : list (list Z)) : M S unit :=
  match dataToDeflate formats inData with
  | Ret d =>
      clientCutText (_buildExtendedClipboardFlags [extendedClipboardActionProvide] formats ++ deflate d) true
  | Throw e => throw e
  | Stuck => stuck
  end.

Definition extendedClipboardNotify (formats : list Z) : M S unit :=
  clientCutText (_buildExtendedClipboardFlags [extendedClipboardActionNotify] formats) true.

Definition extendedClipboardRequest (formats : list Z) : M S unit :=
  clientCutText (_buildExtendedClipboardFlags [extendedClipboardActionRequest] formats) true.

(** [formats] is an object: its keys in the order of [Object.keys] after the
    sort, each with the value of [1 << key] (1 when the key is not a number),
    and its sizes. *)
Definition extendedClipboardCaps (actions : list Z) (formats : list (Z * Z)) : M S unit :=
  let sizes := flat_map (fun f : Z * Z =>
    let size := snd f in
    [toUint8 (size >> 24)%js; toUint8 (size >> 16)%js; toUint8 (size >> 8)%js; toUint8 (size >> 0)%js]) formats in
  match _buildExtendedClipboardFlags actions [] with
  | [d0; d1; d2; d3] =>
      let d3 := fold_left (fun d (f : Z * Z) => toUint8 (d .| fst f)%js) formats d3 in
      clientCutText ([d0; d1; d2; d3] ++ sizes) true
  | _ => stuck
  end.

Definition setDesktopSize (width height id flags : Z) : M S unit :=
  sQpush8 251 ;;
  sQpush8 0 ;;
  sQpush16 width ;;
  sQpush16 height ;;
  sQpush8 1 ;;
  sQpush8 0 ;;
  sQpush32 id ;;
  sQpush16 0 ;;
  sQpush16 0 ;;
  sQpush16 width ;;
  sQpush16 height ;;
  sQpush32 flags ;;
  flush.

Definition clientFence (flags : Z) (payload : list Z) : M S unit :=
  sQpush8 248 ;;
  sQpush8 0 ;;
  sQpush8 0 ;;
  sQpush8 0 ;;
  sQpush32 flags ;;
  sQpush8 (zlen payload) ;;
  sQpushString payload ;;
  flush.

Definition enableContinuousUpdates (enable : bool) (x y width height : Z) : M S unit :=
  sQpush8 150 ;;
  sQpush8 (Z.b2z enable) ;;
  sQpush16 x ;;
  sQpush16 y ;;
  sQpush16 width ;;
  sQpush16 height ;;
  flush.

Definition pixelFormat (depth : Z) (trueColor : bool) : M S unit :=
  let bpp := if 16 <? depth then 32 else if 8 <? depth then 16 else 8 in
  let bits := depth / 3 in
  sQpush8 0 ;;
  sQpush8 0 ;;
  sQpush8 0 ;;
  sQpush8 0 ;;
  sQpush8 bpp ;;
  sQpush8 depth ;;
  sQpush8 0 ;;
  sQpush8 (if trueColor then 1 else 0) ;;
  sQpush16 ((1 << bits)%js - 1) ;;
  sQpush16 ((1 << bits)%js - 1) ;;
  sQpush16 ((1 << bits)%js - 1) ;;
  sQpush8 (bits * 0) ;;
  sQpush8 (bits * 1) ;;
  sQpush8 (bits * 2) ;;
  sQpush8 0 ;;
  sQpush8 0 ;;
  sQpush8 0 ;;
  flush.

Fixpoint pushEncodings (encodings : list Z) : M S unit :=
  match encodings with
  | [] => ret tt
  | e :: encodings => sQpush32 e ;; pushEncodings encodings
  end.

Definition clientEncodings (encodings : list Z) : M S unit :=
  sQpush8 2 ;;
  sQpush8 0 ;;
  sQpush16 (zlen encodings) ;;
  pushEncodings encodings ;;
  flush.

(** An absent coordinate is 0. *)
Definition fbUpdateRequest (incremental : bool) (x y : option Z) (w h : Z) : M S unit :=
  let x := match x with Some x => x | None => 0 end in
  let y := match y with Some y => y | None => 0 end in
  sQpush8 3 ;;
  sQpush8 (if incremental then 1 else 0) ;;
  sQpush16 x ;;
  sQpush16 y ;;
  sQpush16 w ;;
  sQpush16 h ;;
  flush.

Definition xvpOp (ver op : Z) : M S unit :=
  sQpush8 250 ;;
  sQpush8 0 ;;
  sQpush8 ver ;;
  sQpush8 op ;;
  flush.
End Encoders.

(** * The protocol's side *)

Inductive cmsg :=
| SetPixelFormat (bpp depth bigEndian trueColor redMax greenMax blueMax redShift greenShift blueShift : Z)
| SetEncodings (encodings : list Z)
| FramebufferUpdateRequest (incremental x y w h : Z)
| KeyEvent (down keysym : Z)
| PointerEvent (mask x y : Z)
| ClientCutText (text : list Z)
| ExtendedClipboard (data : list Z)
| EnableContinuousUpdates (enable x y w h : Z)
| Fence (flags : Z) (payload : list Z)
| Xvp (version code : Z)
| SetDesktopSize (w h id sx sy sw sh flags : Z)
| QEMUKeyEvent (down keysym keycode : Z).

Definition u8 := be_bytes 1.
Definition u16 := be_bytes 2.
Definition u32 := be_bytes 4.

(** The bytes of a message, field by field, after the protocol documents. *)
Definition encode (m : cmsg) : list Z :=
  match m with
  | SetPixelFormat bpp depth bigE trueC rm gm bm rs gs bs =>
      [0; 0; 0; 0] ++ u8 bpp ++ u8 depth ++ u8 bigE ++ u8 trueC ++ u16 rm ++ u16 gm ++ u16 bm ++
      u8 rs ++ u8 gs ++ u8 bs ++ [0; 0; 0]
  | SetEncodings es => [2; 0] ++ u16 (zlen es) ++ flat_map u32 es
  | FramebufferUpdateRequest i x y w h => [3] ++ u8 i ++ u16 x ++ u16 y ++ u16 w ++ u16 h
  | KeyEvent down keysym => [4] ++ u8 down ++ [0; 0] ++ u32 keysym
  | PointerEvent mask x y => [5] ++ u8 mask ++ u16 x ++ u16 y
  | ClientCutText text => [6; 0; 0; 0] ++ u32 (zlen text) ++ text
  | ExtendedClipboard data => [6; 0; 0; 0] ++ u32 (4294967296 - zlen data) ++ data
  | EnableContinuousUpdates e x y w h => [150] ++ u8 e ++ u16 x ++ u16 y ++ u16 w ++ u16 h
  | Fence flags payload => [248; 0; 0; 0] ++ u32 flags ++ u8 (zlen payload) ++ payload
  | Xvp version code => [250; 0] ++ u8 version ++ u8 code
  | SetDesktopSize w h id sx sy sw sh flags =>
      [251; 0] ++ u16 w ++ u16 h ++ [1; 0] ++ u32 id ++ u16 sx ++ u16 sy ++ u16 sw ++ u16 sh ++ u32 flags
  | QEMUKeyEvent down keysym keycode => [255; 0] ++ u16 down ++ u32 keysym ++ u32 keycode
  end.

(** The server's reader: fields are read by width, most significant byte
    first; an unknown type or a truncated message is refused. *)
Definition reader (A : Type) : Type := list Z -> option (A * list Z).

Definition rbind {A B} (m : reader A) (k : A -> reader B) : reader B := fun l =>
  match m l with Some (a, l) => k a l | None => None end.
Definition rret {A} (a : A) : reader A := fun l => Some (a, l).
Definition rd (k : nat) : reader Z := fun l =>
  if zlen l <? Z.of_nat k then None else Some (be (ztake (Z.of_nat k) l), zdrop (Z.of_nat k) l).
Definition raw (n : Z) : reader (list Z) := fun l =>
  if (n <? 0) || (zlen l <? n) then None else Some (ztake n l, zdrop n l).

Fixpoint rd_all (n : nat) (k : nat) : reader (list Z) :=
  match n with
  | O => rret []
  | S n => rbind (rd k) (fun x => rbind (rd_all n k) (fun xs => rret (x :: xs)))
  end.

Local Notation "x <~ m ; k" := (rbind m (fun x => k)) (at level 100, m at next level, right associativity).
Local Notation "'skip' n ; k" := (rbind (raw n) (fun _ => k)) (at level 100, n at next level, right associativity).

Definition parse : reader cmsg :=
  t <~ rd 1;
  if t =? 0 then
    skip 3; bpp <~ rd 1; depth <~ rd 1; bigE <~ rd 1; trueC <~ rd 1;
    rm <~ rd 2; gm <~ rd 2; bm <~ rd 2; rs <~ rd 1; gs <~ rd 1; bs <~ rd 1;
    skip 3; rret (SetPixelFormat bpp depth bigE trueC rm gm bm rs gs bs)
  else if t =? 2 then
    skip 1; n <~ rd 2; es <~ rd_all (Z.to_nat n) 4; rret (SetEncodings es)
  else if t =? 3 then
    i <~ rd 1; x <~ rd 2; y <~ rd 2; w <~ rd 2; h <~ rd 2; rret (FramebufferUpdateRequest i x y w h)
  else if t =? 4 then
    down <~ rd 1; skip 2; keysym <~ rd 4; rret (KeyEvent down keysym)
  else if t =? 5 then
    mask <~ rd 1; x <~ rd 2; y <~ rd 2; rret (PointerEvent mask x y)
  else if t =? 6 then
    skip 3; n <~ rd 4;
    if n <? 2147483648 then text <~ raw n; rret (ClientCutText text)
    else data <~ raw (4294967296 - n); rret (ExtendedClipboard data)
  else if t =? 150 then
    e <~ rd 1; x <~ rd 2; y <~ rd 2; w <~ rd 2; h <~ rd 2; rret (EnableContinuousUpdates e x y w h)
  else if t =? 248 then
    skip 3; flags <~ rd 4; n <~ rd 1; payload <~ raw n; rret (Fence flags payload)
  else if t =? 250 then
    skip 1; version <~ rd 1; code <~ rd 1; rret (Xvp version code)
  else if t =? 251 then
    skip 1; w <~ rd 2; h <~ rd 2; n <~ rd 1;
    if n =? 1 then
      skip 1; id <~ rd 4; sx <~ rd 2; sy <~ rd 2; sw <~ rd 2; sh <~ rd 2; flags <~ rd 4;
      rret (SetDesktopSize w h id sx sy sw sh flags)
    else fun _ => None
  else if t =? 255 then
    sub <~ rd 1;
    if sub =? 0 then
      down <~ rd 2; keysym <~ rd 4; keycode <~ rd 4; rret (QEMUKeyEvent down keysym keycode)
    else fun _ => None
  else fun _ => None.

Fixpoint parse_all (fuel : nat) (l : list Z) : option (list cmsg) :=
  match l with
  | [] => Some []
  | _ =>
      match fuel with
      | O => None
      | S fuel =>
          match parse l with
          | Some (m, l) => option_map (cons m) (parse_all fuel l)
          | None => None
          end
      end
  end.

(** Fields within their width. *)
Definition b8 (n : Z) : Prop := 0 <= n < 256.
Definition b16 (n : Z) : Prop := 0 <= n < 65536.
Definition b32 (n : Z) : Prop := 0 <= n < 4294967296.

Definition msg_ok (m : cmsg) : Prop :=
  match m with
  | SetPixelFormat bpp depth bigE trueC rm gm bm rs gs bs =>
      b8 bpp /\ b8 depth /\ b8 bigE /\ b8 trueC /\ b16 rm /\ b16 gm /\ b16 bm /\ b8 rs /\ b8 gs /\ b8 bs
  | SetEncodings es => b16 (zlen es) /\ Forall b32 es
  | FramebufferUpdateRequest i x y w h => b8 i /\ b16 x /\ b16 y /\ b16 w /\ b16 h
  | KeyEvent down keysym => b8 down /\ b32 keysym
  | PointerEvent mask x y => b8 mask /\ b16 x /\ b16 y
  | ClientCutText text => zlen text < 2147483648
  | ExtendedClipboard data => 0 < zlen data <= 2147483648
  | EnableContinuousUpdates e x y w h => b8 e /\ b16 x /\ b16 y /\ b16 w /\ b16 h
  | Fence flags payload => b32 flags /\ b8 (zlen payload)
  | Xvp version code => b8 version /\ b8 code
  | SetDesktopSize w h id sx sy sw sh flags =>
      b16 w /\ b16 h /\ b32 id /\ b16 sx /\ b16 sy /\ b16 sw /\ b16 sh /\ b32 flags
  | QEMUKeyEvent down keysym keycode => b16 down /\ b32 keysym /\ b32 keycode
  end.

(** ** The server reads back what is encoded *)

Lemma rd_be {A} k n (f : Z -> reader A) l :
  0 <= n < 256 ^ Z.of_nat k -> rbind (rd k) f (be_bytes k n ++ l) = f n l.
Proof.
  intros Hn. unfold rbind, rd. pose proof (zlen_be_bytes k n) as HL.
  destruct (Z.ltb_spec (zlen (be_bytes k n ++ l)) (Z.of_nat k)); [zlia|].
  rewrite <- HL, ztake_app_exact, zdrop_app_exact, be_bytes_small by exact Hn. reflexivity.
Qed.

Lemma raw_app {A} a n (f : list Z -> reader A) l : zlen a = n -> rbind (raw n) f (a ++ l) = f a l.
Proof.
  intros <-. unfold rbind, raw. destruct (Z.ltb_spec (zlen a) 0), (Z.ltb_spec (zlen (a ++ l)) (zlen a)); try zlia.
  cbn [orb]. now rewrite ztake_app_exact, zdrop_app_exact.
Qed.

Lemma raw_lit {A} n (f : list Z -> reader A) a l : zlen a = n -> rbind (raw n) f (a ++ l) = f a l.
Proof. apply raw_app. Qed.

Lemma rd_lit {A} n (f : Z -> reader A) l : 0 <= n < 256 -> rbind (rd 1) f (n :: l) = f n l.
Proof.
  intros Hn. rewrite <- (rd_be 1 n f l) by (cbn; lia). cbn [be_bytes app].
  now rewrite Z.pow_0_r, Z.div_1_r, Z.mod_small by lia.
Qed.

Lemma rd_all_run es k l :
  Forall (fun e => 0 <= e < 256 ^ Z.of_nat k) es ->
  rd_all (List.length es) k (flat_map (be_bytes k) es ++ l) = Some (es, l).
Proof.
  induction 1 as [|e es He Hf IH]; [reflexivity|].
  cbn [List.length rd_all flat_map]. rewrite <- app_assoc, rd_be by exact He.
  unfold rbind. now rewrite IH.
Qed.

Lemma rd_all_be {A} es k (f : list Z -> reader A) l :
  Forall (fun e => 0 <= e < 256 ^ Z.of_nat k) es ->
  rbind (rd_all (List.length es) k) f (flat_map (be_bytes k) es ++ l) = f es l.
Proof. intros Hf. unfold rbind. now rewrite rd_all_run. Qed.

Lemma raw3 {A} (f : list Z -> reader A) a b c l : rbind (raw 3) f (a :: b :: c :: l) = f [a; b; c] l.
Proof. exact (raw_app [a; b; c] 3 f l eq_refl). Qed.
Lemma raw2 {A} (f : list Z -> reader A) a b l : rbind (raw 2) f (a :: b :: l) = f [a; b] l.
Proof. exact (raw_app [a; b] 2 f l eq_refl). Qed.
Lemma raw1 {A} (f : list Z -> reader A) a l : rbind (raw 1) f (a :: l) = f [a] l.
Proof. exact (raw_app [a] 1 f l eq_refl). Qed.

Ltac read := repeat first
  [ rewrite rd_be by (cbn [Z.of_nat Pos.of_succ_nat Pos.succ]; lia)
  | rewrite raw3 | rewrite raw2 | rewrite raw1
  | rewrite rd_lit by lia ].

Lemma parse_encode m l : msg_ok m -> parse (encode m ++ l) = Some (m, l).
Proof.
  destruct m; cbn [msg_ok encode]; unfold b8, b16, b32, u8, u16, u32; intros Hok;
    unfold parse; rewrite <- ?app_assoc; cbn [app]; rewrite rd_lit by lia; cbn [Z.eqb Pos.eqb]; read;
    try reflexivity.
  - replace (Z.to_nat (zlen encodings)) with (List.length encodings) by (unfold zlen; lia).
    now rewrite rd_all_be.
  - zlens. read. destruct (Z.ltb_spec (zlen text) 2147483648); [|lia]. now rewrite raw_app.
  - destruct (Z.ltb_spec (4294967296 - zlen data) 2147483648); [lia|]. now rewrite raw_app by lia.
  - now rewrite raw_app.
  - cbn [Z.eqb Pos.eqb]. read. reflexivity.
  - cbn [Z.eqb]. read. reflexivity.
Qed.

(** ** What the encoders write *)

(** [m] writes [l] when it fits in the queue. *)
Definition Emits (m : M asink unit) (l : list Z) : Prop :=
  forall a, pend a + zlen l <= cap a -> m a = (Ret tt, aput l a).

Lemma aput_aput l1 l2 a : aput l2 (aput l1 a) = aput (l1 ++ l2) a.
Proof. unfold aput. cbn [out pend cap]. rewrite <- app_assoc, zlen_app. f_equal. lia. Qed.

Lemma emits_ret : Emits (ret tt) [].
Proof. intros [o p c] _. unfold ret, aput. cbn [out pend cap]. rewrite app_nil_r, zlen_nil. do 2 f_equal. lia. Qed.

Lemma emits_bind m1 m2 l1 l2 :
  Emits m1 l1 -> Emits m2 l2 -> Emits (m1 ;; m2) (l1 ++ l2).
Proof.
  intros H1 H2 a Hf. rewrite zlen_app in Hf. zlens. rewrite (bind_run _ _ _ _ _ (H1 a ltac:(lia))).
  rewrite H2 by (cbn [pend cap aput]; lia). now rewrite aput_aput.
Qed.

Lemma emits_push l : Emits (apush l) l.
Proof.
  intros a Hf. unfold apush, modify, ensure. destruct (Z.ltb_spec (cap a - pend a) (zlen l)); [lia|reflexivity].
Qed.

Lemma emits_push8 n : Emits (sQpush8 n) (u8 n).
Proof. apply emits_push. Qed.
Lemma emits_push16 n : Emits (sQpush16 n) (u16 n).
Proof. apply emits_push. Qed.
Lemma emits_push32 n : Emits (sQpush32 n) (u32 n).
Proof. apply emits_push. Qed.

Lemma emits_bytes l : Emits (sQpushBytes l) l.
Proof.
  intros a Hf. cbn [sQpushBytes asink_sink]. unfold apushBytes, ensure. zlens. destruct (Z.eqb_spec (zlen l) 0) as [E|E].
  - rewrite (zlen_0_nil _ E). unfold aput. rewrite app_nil_r, zlen_nil, Z.add_0_r. now destruct a.
  - destruct (Z.ltb_spec (cap a - pend a) 1); [lia|]. destruct (Z.leb_spec (zlen l) (cap a - pend a)); [reflexivity|lia].
Qed.

Lemma emits_string l : Emits (sQpushString l) (map toUint8 l).
Proof. apply emits_bytes. Qed.

Lemma emits_encodings es : Emits (pushEncodings es) (flat_map u32 es).
Proof.
  induction es as [|e es IH]; [apply emits_ret|]. cbn [pushEncodings flat_map].
  apply emits_bind; [apply emits_push32|exact IH].
Qed.

(** A message: writes, then a flush. *)
Definition Sends (m : M asink unit) (l : list Z) : Prop :=
  forall a, pend a = 0 -> zlen l <= cap a -> m a = (Ret tt, ASink (out a ++ l) 0 (cap a)).

Lemma sends_emits m l : Emits m l -> Sends (m ;; flush) l.
Proof.
  intros He a Hp Hf. rewrite (bind_run _ _ _ _ _ (He a ltac:(lia))). reflexivity.
Qed.

Lemma sends_assoc (m1 m2 m3 : M asink unit) l : Sends ((m1 ;; m2) ;; m3) l -> Sends (m1 ;; m2 ;; m3) l.
Proof. intros Hs a Hp Hf. rewrite <- (bind_assoc_run m1 (fun _ => m2) (fun _ => m3)). now apply Hs. Qed.

Lemma sends_eq m l l' : l' = l -> Sends m l -> Sends m l'.
Proof. now intros ->. Qed.

Create HintDb emits discriminated.
#[local] Hint Resolve emits_push8 emits_push16 emits_push32 emits_bytes emits_string emits_encodings : emits.

(** Collect the writes of a message up to its flush. *)
Ltac sends :=
  eapply sends_eq;
  [| repeat (apply sends_assoc); apply sends_emits; repeat apply emits_bind; auto with emits nocore].

(** A call of an encoder. *)
Inductive call :=
| CKey (keysym : Z) (down : bool)
| CQemuKey (keysym : Z) (down : bool) (keycode : Z)
| CPointer (x y mask : Z)
| CCutText (data : list Z)
| CExtended (data : list Z)
| CResize (w h id flags : Z)
| CFence (flags : Z) (payload : list Z)
| CContinuous (enable : bool) (x y w h : Z)
| CPixelFormat (depth : Z) (trueColor : bool)
| CEncodings (es : list Z)
| CUpdateRequest (incremental : bool) (x y w h : Z)
| CXvp (ver op : Z).

Definition run_call {S} `{ByteSink S} (c : call) : M S unit :=
  match c with
  | CKey keysym down => keyEvent keysym (Z.b2z down)
  | CQemuKey keysym down keycode => QEMUExtendedKeyEvent keysym down keycode
  | CPointer x y mask => pointerEvent x y mask
  | CCutText data => clientCutText data false
  | CExtended data => clientCutText data true
  | CResize w h id flags => setDesktopSize w h id flags
  | CFence flags payload => clientFence flags payload
  | CContinuous enable x y w h => enableContinuousUpdates enable x y w h
  | CPixelFormat depth trueColor => pixelFormat depth trueColor
  | CEncodings es => clientEncodings es
  | CUpdateRequest incremental x y w h => fbUpdateRequest incremental (Some x) (Some y) w h
  | CXvp ver op => xvpOp ver op
  end.

(** The protocol's extended key code: the set-1 scan code, with an E0 prefix
    turned into the high bit. *)
Definition rfb_keycode (k : Z) : Z :=
  if (k / 256 =? 224) && (k mod 256 <? 127) then k mod 128 + 128 else k.

(** The message a call is meant to send. *)
Definition msg_of (c : call) : cmsg :=
  match c with
  | CKey keysym down => KeyEvent (Z.b2z down) keysym
  | CQemuKey keysym down keycode => QEMUKeyEvent (Z.b2z down) keysym (rfb_keycode keycode)
  | CPointer x y mask => PointerEvent mask x y
  | CCutText data => ClientCutText data
  | CExtended data => ExtendedClipboard data
  | CResize w h id flags => SetDesktopSize w h id 0 0 w h flags
  | CFence flags payload => Fence flags payload
  | CContinuous enable x y w h => EnableContinuousUpdates (Z.b2z enable) x y w h
  | CPixelFormat depth trueColor =>
      let bits := depth / 3 in
      let max := 2 ^ bits - 1 in
      SetPixelFormat (if 16 <? depth then 32 else if 8 <? depth then 16 else 8) depth 0 (Z.b2z trueColor)
        max max max 0 bits (2 * bits)
  | CEncodings es => SetEncodings (map (fun e => e mod 4294967296) es)
  | CUpdateRequest incremental x y w h => FramebufferUpdateRequest (Z.b2z incremental) x y w h
  | CXvp ver op => Xvp ver op
  end.

(** Arguments within the fields of the message. *)
Definition call_ok (c : call) : Prop :=
  match c with
  | CPixelFormat depth _ => 0 < depth <= 32
  | CQemuKey keysym _ keycode => b32 keysym /\ 0 <= keycode < 65536
  | CFence _ payload => bytes payload /\ msg_ok (msg_of c)
  | _ => msg_ok (msg_of c)
  end.

Lemma b2z_b8 b : b8 (Z.b2z b).
Proof. destruct b; unfold b8; cbn; lia. Qed.

Lemma bits_max depth : 0 < depth <= 32 -> JS.shl 1 (depth / 3) - 1 = 2 ^ (depth / 3) - 1 /\ 2 ^ (depth / 3) <= 1024.
Proof.
  intros Hd. assert (Hb : 0 <= depth / 3 <= 10) by euclid.
  pose proof (Z.pow_le_mono_r 2 (depth / 3) 10 ltac:(lia) ltac:(lia)). change (2 ^ 10) with 1024 in *.
  rewrite shl_small by lia. lia.
Qed.

Lemma call_msg_ok c : call_ok c -> msg_ok (msg_of c).
Proof.
  destruct c; cbn [call_ok msg_of]; auto; try tauto.
  - intros [Hk Hc]. pose proof (b2z_b8 down). unfold msg_ok, b8, b16, b32, rfb_keycode in *.
    split; [lia|]. split; [lia|]. case_if; euclid.
  - intros Hd. pose proof (b2z_b8 trueColor). destruct (bits_max depth Hd) as [_ Hb].
    assert (0 <= depth / 3 <= 10) by euclid. pose proof (Z.pow_pos_nonneg 2 (depth / 3) ltac:(lia) ltac:(lia)).
    unfold msg_ok, b8, b16 in *. repeat split; try lia; repeat case_if; blia.
Qed.

Lemma be_bytes_mod k n : be_bytes k (n mod 256 ^ Z.of_nat k) = be_bytes k n.
Proof.
  apply be_inj; [apply be_bytes_bytes|apply be_bytes_bytes|now rewrite !zlen_be_bytes|].
  rewrite !be_be_bytes. now rewrite Zmod_mod.
Qed.

Lemma rfb_keycode_spec k : 0 <= k < 65536 -> getRFBkeycode k k = rfb_keycode k.
Proof.
  intros Hk. unfold getRFBkeycode, rfb_keycode.
  rewrite sar_small, band_255 by lia. change (2 ^ 8) with 256.
  destruct (Z.eqb_spec (k / 256) 224); [|reflexivity]. destruct (Z.ltb_spec (k mod 256) 127); [|reflexivity]. cbn [andb].
  unfold bor. rewrite !toInt32_small by euclid. rewrite Z.lor_comm. change 128 with (1 * 2 ^ 7).
  rewrite lor_add by euclid. change (1 * 2 ^ 7) with 128. euclid.
Qed.

Lemma flat_map_u32_mod es : flat_map u32 (map (fun e => e mod 4294967296) es) = flat_map u32 es.
Proof.
  induction es as [|e es IH]; [reflexivity|]. cbn [map flat_map]. rewrite IH. f_equal. apply (be_bytes_mod 4).
Qed.

Lemma map_toUint8 l : bytes l -> map toUint8 l = l.
Proof. induction 1; cbn [map]; [reflexivity|]. now rewrite IHForall, toUint8_small. Qed.

(** The encoder of each call writes the message it is meant to write. *)
Lemma call_sends c : call_ok c -> Sends (run_call c) (encode (msg_of c)).
Proof.
  intros Hok. destruct c; cbn [run_call msg_of call_ok] in *.
  - sends. reflexivity.
  - sends. cbn [encode]. rewrite rfb_keycode_spec by tauto. reflexivity.
  - sends. reflexivity.
  - sends. reflexivity.
  - unfold clientCutText. eapply sends_eq; [|repeat apply sends_assoc; apply sends_emits; repeat apply emits_bind; auto with emits nocore].
    cbn [encode]. unfold toUnsigned32bit. rewrite shr_0. cbn [msg_ok] in Hok.
    assert (Hw : wrap32 (- zlen data) = 4294967296 - zlen data).
    { unfold wrap32. symmetry. apply (Z.mod_unique _ _ (-1)); lia. }
    rewrite Hw. reflexivity.
  - sends. reflexivity.
  - destruct Hok as [Hb Hok]. sends. cbn [encode]. rewrite map_toUint8 by exact Hb. reflexivity.
  - sends. reflexivity.
  - destruct (bits_max depth Hok) as [Hm _]. unfold pixelFormat. sends. cbn [encode]. rewrite Hm, Z.mul_0_r, Z.mul_1_r.
    rewrite (Z.mul_comm (depth / 3) 2). destruct trueColor; reflexivity.
  - sends. cbn [encode]. rewrite flat_map_u32_mod. unfold zlen. rewrite length_map. reflexivity.
  - sends. cbn [encode]. destruct incremental; reflexivity.
  - sends. reflexivity.
Qed.

Fixpoint run_calls {S} `{ByteSink S} (cs : list call) : M S unit :=
  match cs with [] => ret tt | c :: cs => run_call c ;; run_calls cs end.

Section OnSink.
Context {S : Type} `{ByteSinkOk S}.

Lemma sim_pushEncodings es : Sim snk_rel eq (pushEncodings es) (pushEncodings es).
Proof. induction es; cbn [pushEncodings]; [apply sim_ret_eq|]. apply sim_bind_eq; auto with sim. Qed.

(** An encoder does on a sink that keeps its promise what it does on the
    abstract one. *)
Lemma call_sim c : Sim snk_rel eq (run_call c) (run_call c).
Proof.
  destruct c; cbn [run_call];
    repeat (apply sim_bind_eq; [solve [auto with sim | apply sim_pushEncodings]|intros _]); auto with sim.
Qed.

Lemma calls_sim cs : Sim snk_rel eq (run_calls cs) (run_calls cs).
Proof. induction cs; cbn [run_calls]; [apply sim_ret_eq|]. apply sim_bind_eq; [apply call_sim|auto]. Qed.
End OnSink.

Import Websock.Websock.

(** Writes of single numbers that may fill the queue and go on: what does not
    fit is sent before. *)
Definition Spills (m : M asink unit) (l : list Z) : Prop :=
  forall a, 4 <= cap a -> 0 <= pend a <= cap a -> exists p, 0 <= p <= cap a /\ m a = (Ret tt, ASink (out a ++ l) p (cap a)).

Lemma spills_push l : zlen l <= 4 -> Spills (apush l) l.
Proof.
  intros Hl [o p c] Hc Hp. cbn [out pend cap] in *. unfold apush, modify, ensure, aput. cbn [out pend cap]. zlens.
  destruct (Z.ltb_spec (c - p) (zlen l)); cbn [out pend cap]; eexists; (split; [|reflexivity]); lia.
Qed.

Lemma spills_num k n : (k <= 4)%nat -> Spills (apush (be_bytes k n)) (be_bytes k n).
Proof. intros Hk. apply spills_push. rewrite zlen_be_bytes. lia. Qed.

Lemma spills_bind m1 m2 l1 l2 : Spills m1 l1 -> Spills m2 l2 -> Spills (m1 ;; m2) (l1 ++ l2).
Proof.
  intros H1 H2 a Hc Hp. destruct (H1 a Hc Hp) as (p & Hp' & E1). rewrite (bind_run _ _ _ _ _ E1).
  destruct (H2 (ASink (out a ++ l1) p (cap a)) Hc Hp') as (p2 & Hp2 & ->). exists p2. cbn [out cap] in *. split; [exact Hp2|now rewrite app_assoc].
Qed.

Lemma spills_encodings es : Spills (pushEncodings es) (flat_map u32 es).
Proof.
  induction es as [|e es IH].
  - intros a Hc Hp. exists (pend a). split; [exact Hp|]. cbn [pushEncodings flat_map]. rewrite app_nil_r. now destruct a.
  - apply spills_bind; [apply (spills_num 4); lia|exact IH].
Qed.

(** A list of encodings of any length reaches the wire. *)
Lemma encodings_sent es a : pend a = 0 -> 4 <= cap a ->
  clientEncodings es a = (Ret tt, ASink (out a ++ encode (msg_of (CEncodings es))) 0 (cap a)).
Proof.
  intros Hp Hc. assert (H : Spills (apush (u8 2) ;; apush (u8 0) ;; apush (u16 (zlen es)) ;; pushEncodings es) (encode (msg_of (CEncodings es)))).
  { cbn [msg_of encode]. rewrite flat_map_u32_mod. replace (zlen (map (fun e => e mod 4294967296) es)) with (zlen es) by (unfold zlen; now rewrite length_map).
    change ([2; 0] ++ u16 (zlen es) ++ flat_map u32 es) with (u8 2 ++ u8 0 ++ u16 (zlen es) ++ flat_map u32 es).
    repeat (apply spills_bind; [apply spills_num; lia|]). apply spills_encodings. }
  destruct (H a Hc ltac:(lia)) as (p & _ & E). unfold clientEncodings.
  revert E. cbn [Sink.sQpush8 Sink.sQpush16 asink_sink]. unfold bind, apush, modify, u8, u16. intros E. now rewrite E.
Qed.

(** Only the text of a clipboard can be larger than the queue takes. *)
Definition fits (size : Z) (c : call) : Prop :=
  match c with CCutText data | CExtended data => 8 + zlen data <= size | _ => True end.

Lemma encode_size m : msg_ok m ->
  match m with
  | SetEncodings _ => True
  | ClientCutText data | ExtendedClipboard data => zlen (encode m) = 8 + zlen data
  | _ => zlen (encode m) <= 512
  end.
Proof.
  destruct m; cbn [msg_ok encode]; unfold b8, u8, u16, u32; intros Hok; trivial;
    repeat first [rewrite zlen_app | rewrite zlen_cons | rewrite zlen_nil | rewrite zlen_be_bytes]; lia.
Qed.

Lemma call_sent c a : call_ok c -> fits (cap a) c -> pend a = 0 -> 512 <= cap a ->
  run_call c a = (Ret tt, ASink (out a ++ encode (msg_of c)) 0 (cap a)).
Proof.
  intros Hok Hf Hp Hc. assert (Hs := encode_size _ (call_msg_ok c Hok)).
  destruct c; try (apply (call_sends _ Hok a Hp); cbn [msg_of fits] in *; lia).
  apply encodings_sent; [exact Hp|lia].
Qed.

Lemma calls_send cs : forall a,
  Forall call_ok cs -> Forall (fits (cap a)) cs -> pend a = 0 -> 512 <= cap a ->
  run_calls cs a = (Ret tt, ASink (out a ++ flat_map (fun c => encode (msg_of c)) cs) 0 (cap a)).
Proof.
  induction cs as [|c cs IH]; intros a Hok Hf Hp Hc; cbn [run_calls flat_map].
  - rewrite app_nil_r, <- Hp. now destruct a.
  - inversion_clear Hok. inversion_clear Hf. rewrite (bind_run _ _ _ _ _ (call_sent c a H H1 Hp Hc)).
    rewrite IH by auto. cbn [out cap]. now rewrite <- app_assoc.
Qed.

Lemma encode_nonempty m : exists b l, encode m = b :: l.
Proof. destruct m; cbn [encode app]; eauto. Qed.

Lemma parse_all_encode ms : forall fuel, Forall msg_ok ms -> (List.length ms <= fuel)%nat ->
  parse_all fuel (flat_map encode ms) = Some ms.
Proof.
  induction ms as [|m ms IH]; intros fuel Hok Hf; cbn [flat_map]; [now destruct fuel|].
  inversion_clear Hok. destruct fuel as [|fuel]; [cbn in Hf; lia|].
  pose proof (parse_encode m (flat_map encode ms) H) as HP. destruct (encode_nonempty m) as (b & l & Hm).
  rewrite Hm in *. cbn [app parse_all] in *. rewrite HP, IH by (auto; cbn in Hf; lia). reflexivity.
Qed.

Lemma encode_count ms : (List.length ms <= List.length (flat_map encode ms))%nat.
Proof.
  induction ms as [|m ms IH]; [reflexivity|]. cbn [flat_map List.length]. rewrite length_app.
  destruct (encode_nonempty m) as (b & l & ->). cbn [List.length]. lia.
Qed.

(** C5.  Whatever messages the client sends on an open channel, all of them
    reach the wire, nothing stays queued, and the server, reading the bytes by
    the protocol, gets exactly the messages meant, in order.  The text of a
    clipboard must fit in the send queue with its header; other messages are
    sent in parts when the queue is full. *)
Theorem messages_reach_server (w : Websock.websock) (cs : list call) :
  Websock.sq_wf w -> Websock._sQlen w = 0 -> 512 <= Websock._sQbufferSize w ->
  Forall call_ok cs -> Forall (fits (Websock._sQbufferSize w)) cs ->
  exists w' bs, run_calls cs w = (Ret tt, w') /\ Websock.wire w' = Websock.wire w ++ bs /\
    Websock._sQlen w' = 0 /\ Websock.sq_wf w' /\ parse_all (List.length bs) bs = Some (map msg_of cs).
Proof.
  intros Hwf Hl Hc Hok Hf. set (a := ASink (Websock.wire w) 0 (Websock._sQbufferSize w)).
  assert (Hr : Websock.sq_rel w a) by (repeat split; auto; apply Hwf).
  pose proof (calls_sim (S := Websock.websock) cs w a Hr) as Hsim. rewrite (calls_send cs a Hok Hf eq_refl Hc) in Hsim.
  destruct Hsim as ([] & w' & H1 & _ & Hwf' & Hw' & Hl' & _).
  exists w', (flat_map (fun c => encode (msg_of c)) cs). split; [exact H1|]. split; [exact Hw'|].
  split; [exact Hl'|]. split; [exact Hwf'|].
  assert (Hm : flat_map (fun c => encode (msg_of c)) cs = flat_map encode (map msg_of cs)).
  { clear. induction cs as [|c cs IH]; [reflexivity|]. cbn [flat_map map]. now rewrite IH. }
  rewrite Hm. apply parse_all_encode; [|apply encode_count].
  apply Forall_map. revert Hok. apply Forall_impl. apply call_msg_ok.
Qed.

Definition demo_calls : list call :=
  [CPixelFormat 24 true; CEncodings [1; -239]; CUpdateRequest true 0 0 640 480; CKey 65307 true;
   CExtended [8; 0; 0; 1]].

Definition big_demo : Websock.websock :=
  Websock.mkWebsock (Some Websock.demo_channel) 1 4 6 [10; 11; 12; 13; 0; 0] 600 0 (zrep 600 0) (fun _ => false).

Lemma messages_reach_server_witness :
  exists w' bs, run_calls demo_calls big_demo = (Ret tt, w') /\
    parse_all (List.length bs) bs =
      Some [SetPixelFormat 32 24 0 1 255 255 255 0 8 16; SetEncodings [1; 4294967057];
            FramebufferUpdateRequest 1 0 0 640 480; KeyEvent 1 65307; ExtendedClipboard [8; 0; 0; 1]].
Proof.
  destruct (messages_reach_server big_demo demo_calls) as (w' & bs & H1 & _ & _ & _ & H2).
  - constructor; cbn; try lia; reflexivity.
  - reflexivity.
  - discriminate.
  - repeat constructor; cbn; unfold b8, b16, b32; lia.
  - repeat constructor; vm_compute; discriminate.
  - exists w', bs. split; [exact H1|exact H2].
Defined.

(** A text one byte too large is read as another one. *)
Definition long_text : list Z := map (fun i => i mod 256) (upto 593).
Definition misread : option (list cmsg) :=
  let sent := Websock.wire (snd (run_call (CCutText long_text) big_demo)) in parse_all 600 (zdrop (zlen (Websock.wire big_demo)) sent).
Example large_text_misread : misread <> None /\ misread <> Some [ClientCutText long_text].
Proof. split; vm_compute; discriminate. Qed.

End Messages.
