(* ===== verification/Lifecycle.v ===== *)
(** The life of a connection: the state machine of core/rfb.js
    ([_updateConnectionState], [_fail], [_connect], [_disconnect], the socket
    handlers, [disconnect] and the disconnect timer).

    The fields involved form the record [lc], seen by the rest of the client
    through a [Lens].  The browser's page is kept as a flag (are the elements
    and listeners in the page), the dispatched events as a list.  [step] is the
    machine's transition relation, over everything that can reach it. *)

From Stdlib Require Import ZArith List Lia Bool String.
From S2P Require Import Prelude Source Sink Websock Display Decoder.
Import ListNotations JS JSFacts.
Open Scope Z_scope.
Open Scope code_scope.

(** A part [A] of a larger state [R]. *)
Class Lens (R A : Type) := {
  lget : R -> A;
  lset : A -> R -> R;
  lget_lset a r : lget (lset a r) = a;
  lset_lget r : lset (lget r) r = r;
  lset_lset a b r : lset a (lset b r) = lset a r
}.

#[export] Instance lens_id A : Lens A A := {
  lget a := a;
  lset a _ := a;
  lget_lset _ _ := eq_refl;
  lset_lget _ := eq_refl;
  lset_lset _ _ _ := eq_refl
}.

(** What the client uses of its socket. *)
Class Sock (S : Type) := {
  sock_source :: ByteSource S;
  sock_sink :: ByteSink S;
  sock_attach : M S unit;
  sock_readyState : S -> string;
  sock_close : M S unit;
  sock_off : Websock.event -> M S unit;
  sock_handles : S -> Websock.event -> bool
}.

Module Lifecycle.

(** [_rfbConnectionState]; [CNone] is the empty string. *)
Inductive conn := CNone | Connecting | Connected | Disconnecting | Disconnected.

Definition conn_eqb (a b : conn) : bool :=
  match a, b with
  | CNone, CNone | Connecting, Connecting | Connected, Connected
  | Disconnecting, Disconnecting | Disconnected, Disconnected => true
  | _, _ => false
  end.

(** [_rfbInitState]; [INone] is the empty string. *)
Inductive init :=
| INone | ProtocolVersion | Security | SecurityReason | Authentication | SecurityResult
| ClientInitialisation | ServerInitialisation.

Definition init_eqb (a b : init) : bool :=
  match a, b with
  | INone, INone | ProtocolVersion, ProtocolVersion | Security, Security | SecurityReason, SecurityReason
  | Authentication, Authentication | SecurityResult, SecurityResult
  | ClientInitialisation, ClientInitialisation | ServerInitialisation, ServerInitialisation => true
  | _, _ => false
  end.

(** The events dispatched to the page. *)
Inductive devent :=
| EvConnect
| EvDisconnect (clean : bool)
| EvCredentialsRequired (types : list string)
| EvSecurityFailure (status : Z) (reason : option (list Z))
| EvDesktopName (name : list Z)
| EvCapabilities (power : bool)
| EvClipboard (text : list Z)
| EvBell
| EvClippingViewport (on : bool)
| EvServerVerification.

Record lc := mkLc {
  _rfbConnectionState : conn;
  _rfbInitState : init;
  _rfbCleanDisconnect : bool;
  _disconnTimer : bool;
  events : list devent;
  in_page : bool;
  grabbed : bool;
  has_url : bool;
  _resizeTimeout : bool;
  _mouseMoveTimer : bool
}.

Definition constructor (url : bool) : lc := mkLc CNone INone true false [] false false url false false.

Definition set_conn v l := mkLc v (_rfbInitState l) (_rfbCleanDisconnect l) (_disconnTimer l) (events l) (in_page l) (grabbed l) (has_url l) (_resizeTimeout l) (_mouseMoveTimer l).
Definition set_init v l := mkLc (_rfbConnectionState l) v (_rfbCleanDisconnect l) (_disconnTimer l) (events l) (in_page l) (grabbed l) (has_url l) (_resizeTimeout l) (_mouseMoveTimer l).
Definition set_clean v l := mkLc (_rfbConnectionState l) (_rfbInitState l) v (_disconnTimer l) (events l) (in_page l) (grabbed l) (has_url l) (_resizeTimeout l) (_mouseMoveTimer l).
Definition set_timer v l := mkLc (_rfbConnectionState l) (_rfbInitState l) (_rfbCleanDisconnect l) v (events l) (in_page l) (grabbed l) (has_url l) (_resizeTimeout l) (_mouseMoveTimer l).
Definition add_event v l := mkLc (_rfbConnectionState l) (_rfbInitState l) (_rfbCleanDisconnect l) (_disconnTimer l) (events l ++ [v]) (in_page l) (grabbed l) (has_url l) (_resizeTimeout l) (_mouseMoveTimer l).
Definition set_in_page v l := mkLc (_rfbConnectionState l) (_rfbInitState l) (_rfbCleanDisconnect l) (_disconnTimer l) (events l) v (grabbed l) (has_url l) (_resizeTimeout l) (_mouseMoveTimer l).
Definition set_grabbed v l := mkLc (_rfbConnectionState l) (_rfbInitState l) (_rfbCleanDisconnect l) (_disconnTimer l) (events l) (in_page l) v (has_url l) (_resizeTimeout l) (_mouseMoveTimer l).

Definition set_resizeTimeout v l := mkLc (_rfbConnectionState l) (_rfbInitState l) (_rfbCleanDisconnect l) (_disconnTimer l) (events l) (in_page l) (grabbed l) (has_url l) v (_mouseMoveTimer l).
Definition set_mouseMoveTimer v l := mkLc (_rfbConnectionState l) (_rfbInitState l) (_rfbCleanDisconnect l) (_disconnTimer l) (events l) (in_page l) (grabbed l) (has_url l) (_resizeTimeout l) v.

Section Lifecycle.
Context {R S D : Type} `{Lens R lc} `{Sock S}.
Abbreviation W := (world R S D).

Definition onLc {A} (m : M lc A) : M W A := onDec (lift lget lset m).

Definition dispatchEvent (e : devent) : M W unit := onLc (modify (add_event e)).

(** Whether [_updateConnectionState] goes on to change the state. *)
Definition transition_ok (oldstate state : conn) : bool :=
  if conn_eqb state oldstate then false
  else if conn_eqb oldstate Disconnected then false
  else
    match state with
    | Connected => conn_eqb oldstate Connecting
    | Disconnected => conn_eqb oldstate Disconnecting
    | Connecting => conn_eqb oldstate CNone
    | Disconnecting => conn_eqb oldstate Connected || conn_eqb oldstate Connecting
    | CNone => false
    end.

(** Removing the listeners and the element, releasing the keyboard and closing
    the socket; a missing element is no error. *)
Definition _disconnect : M W unit :=
  onLc (modify (set_grabbed false)) ;;
  onSock sock_close ;;
  onLc (modify (set_in_page false)) ;;
  onLc (modify (set_resizeTimeout false)) ;;
  onLc (modify (set_mouseMoveTimer false)).

(** [_connect] is a parameter here: it calls back for a socket already open. *)
Definition updateConnectionState_gen (_connect : M W unit) (state : conn) : M W unit :=
  l <- onLc get ;;
  let oldstate := _rfbConnectionState l in
  if negb (transition_ok oldstate state) then ret tt
  else
    onLc (modify (set_conn state)) ;;
    (if _disconnTimer l && negb (conn_eqb state Disconnecting) then
       onLc (modify (set_timer false)) ;;
       onSock (sock_off Websock.EvClose)
     else ret tt) ;;
    match state with
    | Connecting => _connect
    | Connected => dispatchEvent EvConnect
    | Disconnecting => _disconnect ;; onLc (modify (set_timer true))
    | Disconnected =>
        l <- onLc get ;;
        dispatchEvent (EvDisconnect (_rfbCleanDisconnect l))
    | CNone => ret tt
    end.

(** [_fail] never asks for the connecting state, so it never connects. *)
Definition _fail : M W bool :=
  onLc (modify (set_clean false)) ;;
  updateConnectionState_gen stuck Disconnecting ;;
  updateConnectionState_gen stuck Disconnected ;;
  ret false.

Definition _socketOpen : M W unit :=
  l <- onLc get ;;
  if conn_eqb (_rfbConnectionState l) Connecting && init_eqb (_rfbInitState l) INone
  then onLc (modify (set_init ProtocolVersion))
  else _fail ;; ret tt.

Definition _connect : M W unit :=
  l <- onLc get ;;
  (if has_url l then onSock sock_attach
   else
     onSock sock_attach ;;
     state <- onSock (gets sock_readyState) ;;
     if String.eqb state "closed" then throw "Cannot use already closed WebSocket/RTCDataChannel"
     else if String.eqb state "open" then _socketOpen
     else ret tt) ;;
  onLc (modify (set_in_page true)).

Definition _updateConnectionState (state : conn) : M W unit :=
  updateConnectionState_gen _connect state.

Definition _socketClose : M W unit :=
  l <- onLc get ;;
  match _rfbConnectionState l with
  | Connecting => _fail ;; ret tt
  | Connected =>
      _updateConnectionState Disconnecting ;;
      _updateConnectionState Disconnected
  | Disconnecting => _updateConnectionState Disconnected
  | Disconnected => _fail ;; ret tt
  | CNone => _fail ;; ret tt
  end ;;
  onSock (sock_off Websock.EvClose).

Definition disconnect : M W unit :=
  _updateConnectionState Disconnecting ;;
  onSock (sock_off Websock.EvError) ;;
  onSock (sock_off Websock.EvMessage) ;;
  onSock (sock_off Websock.EvOpen).

(** The callback of the disconnect timer. *)
Definition timer_fires : M W unit := _updateConnectionState Disconnected.

(** ** Stepping *)

(** What reaches the machine: the channel's events, a failure or the end of the
    handshake while a message is handled, the page and the timer. *)
Inductive stimulus := SOpen | SClose | SFail | SReady | SUser | STimer | SInit (i : init).

Definition react (s : stimulus) : M W unit :=
  match s with
  | SOpen => _socketOpen
  | SClose => _socketClose
  | SFail => _fail ;; ret tt
  | SReady => _updateConnectionState Connected
  | SUser => disconnect
  | STimer => timer_fires
  | SInit i => onLc (modify (set_init i))
  end.

(** When a stimulus can come: a socket event needs its handler, the timer must
    be running, and the handshake moves on to a proper state. *)
Definition enabled (s : stimulus) (w : W) : Prop :=
  match s with
  | SOpen => sock_handles (sock w) Websock.EvOpen = true
  | SClose => sock_handles (sock w) Websock.EvClose = true
  | STimer => _disconnTimer (lget (dec w)) = true
  | SInit i => i <> INone
  | _ => True
  end.

Inductive reachable (w0 : W) : W -> Prop :=
| reach_start : reachable w0 w0
| reach_step w s w' : reachable w0 w -> enabled s w -> react s w = (Ret tt, w') -> reachable w0 w'.

(** * Correctness *)

(** Closing the socket and removing handlers do not fail. *)
Class SockOk := {
  close_total s : exists s', sock_close s = (Ret tt, s');
  off_total e s : exists s', sock_off e s = (Ret tt, s')
}.

Lemma onLc_get {A} (k : lc -> M W A) r s t : bind (onLc get) k (World r s t) = k (lget r) (World r s t).
Proof. unfold bind, onLc, onDec, lift, get. cbn [dec sock disp]. now rewrite lset_lget. Qed.

Lemma onLc_mod {A} f (k : unit -> M W A) r s t :
  bind (onLc (modify f)) k (World r s t) = k tt (World (lset (f (lget r)) r) s t).
Proof. reflexivity. Qed.

Lemma onLc_mod_end f r s t : onLc (modify f) (World r s t) = (Ret tt, World (lset (f (lget r)) r) s t).
Proof. reflexivity. Qed.

Context `{SockOk}.

(** [m] always ends normally and changes the fields as [f] does. *)
Definition Acts {A} (m : M W A) (f : lc -> lc) : Prop :=
  forall w, exists a w', m w = (Ret a, w') /\ lget (dec w') = f (lget (dec w)).

Lemma acts_ret {A} (a : A) : Acts (ret a) (fun l => l).
Proof. intros w. exists a, w. auto. Qed.

Lemma acts_bind {A B} (m : M W A) (k : A -> M W B) f g :
  Acts m f -> (forall a, Acts (k a) g) -> Acts (bind m k) (fun l => g (f l)).
Proof.
  intros Hm Hk w. destruct (Hm w) as (a & w1 & Hm1 & E1). destruct (Hk a w1) as (b & w2 & Hm2 & E2).
  exists b, w2. rewrite (bind_run _ _ _ _ _ Hm1), Hm2, E2, E1. auto.
Qed.

Lemma acts_mod f : Acts (onLc (modify f)) f.
Proof. intros [r s t]. rewrite onLc_mod_end. eexists _, _. split; [reflexivity|]. cbn [dec]. apply lget_lset. Qed.

Lemma acts_sock {A} (m : M S A) : (forall s, exists a s', m s = (Ret a, s')) -> Acts (onSock m) (fun l => l).
Proof.
  intros Hm [r s t]. destruct (Hm s) as (a & s' & E). exists a, (World r s' t).
  unfold onSock, lift. cbn [dec sock disp]. now rewrite E.
Qed.

Lemma acts_close : Acts (onSock sock_close) (fun l => l).
Proof. apply acts_sock. intros s. destruct (close_total s) as [s' E]. eauto. Qed.
Lemma acts_off e : Acts (onSock (sock_off e)) (fun l => l).
Proof. apply acts_sock. intros s. destruct (off_total e s) as [s' E]. eauto. Qed.

(** A method that first looks at the fields. *)
Lemma acts_get {A} (k : lc -> M W A) (f : lc -> lc) :
  (forall r s t, exists a w', k (lget r) (World r s t) = (Ret a, w') /\ lget (dec w') = f (lget r)) ->
  Acts (bind (onLc get) k) f.
Proof. intros Hk [r s t]. rewrite onLc_get. apply Hk. Qed.

Definition detach (l : lc) : lc :=
  set_mouseMoveTimer false (set_resizeTimeout false (set_in_page false (set_grabbed false l))).

Lemma acts_disconnect : Acts _disconnect detach.
Proof.
  unfold _disconnect. eapply (acts_bind _ _ (set_grabbed false)
    (fun l => set_mouseMoveTimer false (set_resizeTimeout false (set_in_page false l)))); [apply acts_mod|intros _].
  apply (acts_bind _ _ (fun l => l)); [apply acts_close|intros _].
  apply (acts_bind _ _ _ (fun l => set_mouseMoveTimer false (set_resizeTimeout false l)) (acts_mod _)); intros _.
  apply (acts_bind _ _ _ _ (acts_mod (set_resizeTimeout false))); intros _. apply acts_mod.
Qed.

(** What a change of state does to the fields. *)
Definition next (state : conn) (l : lc) : lc :=
  if transition_ok (_rfbConnectionState l) state then
    let l1 := set_conn state l in
    let l2 := if _disconnTimer l && negb (conn_eqb state Disconnecting) then set_timer false l1 else l1 in
    match state with
    | Connected => add_event EvConnect l2
    | Disconnecting => set_timer true (detach l2)
    | Disconnected => add_event (EvDisconnect (_rfbCleanDisconnect l2)) l2
    | _ => l2
    end
  else l.

Lemma acts_update c state : state <> Connecting -> Acts (updateConnectionState_gen c state) (next state).
Proof.
  intros Hs. unfold updateConnectionState_gen. apply acts_get. intros r s t. unfold next.
  destruct (transition_ok (_rfbConnectionState (lget r)) state); cbn [negb]; [|exists tt; eexists; split; reflexivity].
  rewrite onLc_mod. set (r1 := lset (set_conn state (lget r)) r).
  assert (E1 : lget r1 = set_conn state (lget r)) by apply lget_lset.
  set (b := _disconnTimer (lget r) && negb (conn_eqb state Disconnecting)).
  assert (Hb : exists w2, (when b then_ (onLc (modify (set_timer false)) ;; onSock (sock_off Websock.EvClose)))
      (World r1 s t) = (Ret tt, w2) /\ lget (dec w2) = if b then set_timer false (lget r1) else lget r1).
  { destruct b; [|eexists; split; reflexivity].
    destruct (acts_bind _ _ _ _ (acts_mod (set_timer false)) (fun _ => acts_off Websock.EvClose) (World r1 s t))
      as ([] & w2 & H1' & E2). exists w2. auto. }
  destruct Hb as (w2 & H2 & E2). rewrite (bind_run _ _ _ _ _ H2), <- E1.
  cbv zeta. rewrite <- E2. destruct state; try easy.
  - exists tt, w2. auto.
  - destruct (acts_mod (add_event EvConnect) w2) as ([] & w3 & H3 & E3). exists tt, w3. auto.
  - apply (acts_bind _ _ _ _ acts_disconnect (fun _ => acts_mod (set_timer true))).
  - destruct w2 as [r2 s2 t2]. rewrite onLc_get. apply (acts_mod (add_event _)).
Qed.

Definition failed (l : lc) : lc := next Disconnected (next Disconnecting (set_clean false l)).

Lemma acts_fail : Acts _fail failed.
Proof.
  unfold _fail. eapply (acts_bind _ _ (set_clean false) (fun l => next Disconnected (next Disconnecting l))); [apply acts_mod|intros _].
  eapply (acts_bind _ _ (next Disconnecting)); [now apply acts_update|intros _].
  eapply (acts_bind _ _ _ (fun l => l)); [now apply acts_update|intros _]. apply acts_ret.
Qed.

(** The machine on the fields alone. *)
Definition opened (l : lc) : lc :=
  if conn_eqb (_rfbConnectionState l) Connecting && init_eqb (_rfbInitState l) INone
  then set_init ProtocolVersion l else failed l.

Definition closed (l : lc) : lc :=
  match _rfbConnectionState l with
  | Connected => next Disconnected (next Disconnecting l)
  | Disconnecting => next Disconnected l
  | _ => failed l
  end.

Definition react_lc (s : stimulus) : lc -> lc :=
  match s with
  | SOpen => opened
  | SClose => closed
  | SFail => failed
  | SReady => next Connected
  | SUser => next Disconnecting
  | STimer => next Disconnected
  | SInit i => set_init i
  end.

Lemma acts_off_after {A} e (m : M W A) f : Acts m f -> Acts (m ;; onSock (sock_off e)) f.
Proof. intros Hm. apply (acts_bind _ _ f (fun l => l) Hm (fun _ => acts_off e)). Qed.

Lemma acts_opened : Acts _socketOpen opened.
Proof.
  apply acts_get. intros r s t. unfold opened. case_if; [apply (acts_mod (set_init ProtocolVersion))|].
  apply (acts_bind _ _ failed (fun l => l) acts_fail (fun _ => acts_ret tt)).
Qed.

Lemma acts_closed : Acts _socketClose closed.
Proof.
  apply (acts_get _ closed). intros r s t. unfold closed.
  assert (Hf : Acts (_fail ;; ret tt) failed)
    by apply (acts_bind _ _ failed (fun l => l) acts_fail (fun _ => acts_ret tt)).
  assert (Hd : Acts (_updateConnectionState Disconnected) (next Disconnected)) by now apply acts_update.
  assert (Hc : Acts (_updateConnectionState Disconnecting ;; _updateConnectionState Disconnected)
                 (fun l => next Disconnected (next Disconnecting l)))
    by (apply acts_bind; [now apply acts_update|intros _; exact Hd]).
  destruct (_rfbConnectionState (lget r)).
  - exact (acts_off_after _ _ _ Hf (World r s t)).
  - exact (acts_off_after _ _ _ Hf (World r s t)).
  - exact (acts_off_after _ _ _ Hc (World r s t)).
  - exact (acts_off_after _ _ _ Hd (World r s t)).
  - exact (acts_off_after _ _ _ Hf (World r s t)).
Qed.

Lemma acts_react s : Acts (react s) (react_lc s).
Proof.
  destruct s; cbn [react react_lc].
  - apply acts_opened.
  - apply acts_closed.
  - apply (acts_bind _ _ failed (fun l => l) acts_fail (fun _ => acts_ret tt)).
  - now apply acts_update.
  - apply (acts_bind _ _ (next Disconnecting) (fun l => l)); [now apply acts_update|intros _].
    apply (acts_bind _ _ (fun l => l) (fun l => l)); [apply acts_off|intros _]. apply acts_off_after, acts_off.
  - now apply acts_update.
  - apply acts_mod.
Qed.

(** The connect and disconnect events among all the events. *)
Definition is_life (e : devent) : bool :=
  match e with EvConnect | EvDisconnect _ => true | _ => false end.
Definition life (l : lc) : list devent := filter is_life (events l).

(** The state after the constructor: connecting, nothing told to the page. *)
Definition started (l : lc) : Prop :=
  _rfbConnectionState l = Connecting /\ _disconnTimer l = false /\ life l = [].

(** What the page has been told fits the state; the timer runs exactly while
    disconnecting; nothing is left in the page once disconnecting. *)
Definition told (l : lc) : Prop :=
  match _rfbConnectionState l with
  | CNone => False
  | Connecting => life l = []
  | Connected => life l = [EvConnect]
  | Disconnecting => life l = [] \/ life l = [EvConnect]
  | Disconnected => exists clean, life l = [EvDisconnect clean] \/ life l = [EvConnect; EvDisconnect clean]
  end.

Record lc_ok (l : lc) : Prop := {
  ok_told : told l;
  ok_timer : _disconnTimer l = true <-> _rfbConnectionState l = Disconnecting;
  ok_page : _rfbConnectionState l = Disconnecting \/ _rfbConnectionState l = Disconnected ->
    in_page l = false /\ grabbed l = false
}.

Lemma life_add e l : life (add_event e l) = life l ++ if is_life e then [e] else [].
Proof. unfold life. cbn [events add_event]. rewrite filter_app. cbn [filter]. now destruct (is_life e). Qed.

Lemma started_ok l : started l -> lc_ok l.
Proof.
  intros (Hc & Ht & Hl). constructor; unfold told; rewrite ?Hc, ?Ht; auto; try easy.
  intros [E|E]; discriminate.
Qed.

Lemma next_ok state l : lc_ok l -> lc_ok (next state l).
Proof.
  intros [Ht Hm Hp]. unfold next. destruct (transition_ok (_rfbConnectionState l) state) eqn:E; [|now constructor].
  destruct l as [c i cl tm ev pg gr url rt mt]. cbn [_rfbConnectionState _disconnTimer in_page grabbed] in *.
  unfold told, life in *. cbn [_rfbConnectionState events] in *.
  destruct c, state; try discriminate E; try (destruct Ht; fail); destruct tm;
    try (exfalso; destruct Hm as [Hm1 Hm2]; (discriminate (Hm1 eq_refl) || discriminate (Hm2 eq_refl)));
    constructor; unfold told, life, detach;
    cbn [set_conn set_timer set_in_page set_grabbed set_resizeTimeout set_mouseMoveTimer add_event _rfbConnectionState _disconnTimer negb conn_eqb andb
         _rfbCleanDisconnect _rfbInitState events in_page grabbed has_url] in *;
    rewrite ?filter_app; cbn [filter is_life]; try (intuition (discriminate || auto); fail).
  - rewrite Ht. reflexivity.
  - exists cl. destruct Ht as [-> | ->]; auto.
Qed.

Lemma set_clean_ok b l : lc_ok l -> lc_ok (set_clean b l).
Proof. intros []. now constructor. Qed.
Lemma set_init_ok i l : lc_ok l -> lc_ok (set_init i l).
Proof. intros []. now constructor. Qed.
Lemma failed_ok l : lc_ok l -> lc_ok (failed l).
Proof. intros H'. unfold failed. now apply next_ok, next_ok, set_clean_ok. Qed.

Lemma react_ok s l : lc_ok l -> lc_ok (react_lc s l).
Proof.
  intros Hl. destruct s; cbn [react_lc]; auto using next_ok, failed_ok, set_init_ok.
  - unfold opened. case_if; auto using failed_ok, set_init_ok.
  - unfold closed. destruct (_rfbConnectionState l); auto using next_ok, failed_ok.
Qed.

Lemma reachable_ok w0 w : started (lget (dec w0)) -> reachable w0 w -> lc_ok (lget (dec w)).
Proof.
  intros Hs. induction 1 as [|w s w' Hr IH He H1']; [now apply started_ok|].
  destruct (acts_react s w) as (a & w1 & E1 & E2). rewrite H1' in E1. injection E1 as _ <-.
  rewrite E2. now apply react_ok.
Qed.

(** C4.  Whatever happens to a connection and in whatever order, the page is
    told in step with the state: nothing while connecting, one connect event
    once connected, then exactly one disconnect event, last; the disconnect
    timer runs exactly while disconnecting, and from then on nothing of the
    client is left in the page and the keyboard is released. *)
Theorem connection_lifecycle (w0 w : W) :
  started (lget (dec w0)) -> reachable w0 w ->
  let l := lget (dec w) in
  told l /\ (_disconnTimer l = true <-> _rfbConnectionState l = Disconnecting) /\
  (_rfbConnectionState l = Disconnecting \/ _rfbConnectionState l = Disconnected ->
     in_page l = false /\ grabbed l = false).
Proof. intros Hs Hr. destruct (reachable_ok w0 w Hs Hr). auto. Qed.

Lemma next_disconnected l : _rfbConnectionState l = Disconnecting ->
  _rfbConnectionState (next Disconnected l) = Disconnected /\ _disconnTimer (next Disconnected l) = false.
Proof.
  intros E. unfold next. rewrite E. cbn [transition_ok conn_eqb negb andb]. destruct l as [c i cl tm ev pg gr url rt mt].
  destruct tm; split; reflexivity.
Qed.

(** A disconnection always completes: after the page asks for it, the
    connection is disconnecting with its timer running, and whichever comes
    first, the timer or the end of the socket, it is then disconnected, the
    timer is off and the page has been told once; a failure at any moment
    disconnects at once and is reported as not clean. *)
Theorem disconnect_completes (w0 w : W) :
  started (lget (dec w0)) -> reachable w0 w ->
  _rfbConnectionState (lget (dec w)) = Connecting \/ _rfbConnectionState (lget (dec w)) = Connected ->
  (exists w1, react SUser w = (Ret tt, w1) /\
     _rfbConnectionState (lget (dec w1)) = Disconnecting /\ _disconnTimer (lget (dec w1)) = true /\
     forall s, s = STimer \/ s = SClose -> exists w2, react s w1 = (Ret tt, w2) /\
       _rfbConnectionState (lget (dec w2)) = Disconnected /\ _disconnTimer (lget (dec w2)) = false /\
       told (lget (dec w2))) /\
  (exists w1, react SFail w = (Ret tt, w1) /\ _rfbConnectionState (lget (dec w1)) = Disconnected /\
     exists pre, life (lget (dec w1)) = pre ++ [EvDisconnect false]).
Proof.
  intros Hs Hr Hc. pose proof (reachable_ok w0 w Hs Hr) as Hok. split.
  - destruct (acts_react SUser w) as ([] & w1 & H1' & E1). cbn [react_lc] in E1. exists w1. split; [exact H1'|].
    assert (Hd : _rfbConnectionState (lget (dec w1)) = Disconnecting /\ _disconnTimer (lget (dec w1)) = true).
    { rewrite E1. unfold next. destruct Hc as [-> | ->]; cbn [transition_ok conn_eqb negb andb orb]; rewrite andb_false_r; split; reflexivity. }
    split; [apply Hd|]. split; [apply Hd|]. intros s Hst. destruct (acts_react s w1) as ([] & w2 & H2' & E2).
    exists w2. split; [exact H2'|]. destruct Hd as [Hd _].
    assert (E3 : lget (dec w2) = next Disconnected (lget (dec w1))).
    { rewrite E2. destruct Hst as [-> | ->]; cbn [react_lc]; [reflexivity|]. unfold closed. now rewrite Hd. }
    destruct (next_disconnected _ Hd) as [Hd1 Hd2]. rewrite E3, Hd1, Hd2. split; [reflexivity|]. split; [reflexivity|].
    rewrite E1. now apply ok_told, next_ok, next_ok.
  - destruct (acts_react SFail w) as ([] & w1 & H1' & E1). cbn [react_lc] in E1. exists w1. split; [exact H1'|].
    rewrite E1. unfold failed. set (l1 := next Disconnecting _).
    assert (Hd : _rfbConnectionState l1 = Disconnecting /\ _rfbCleanDisconnect l1 = false).
    { subst l1. unfold next. cbn [set_clean _rfbConnectionState]. destruct Hc as [-> | ->];
        cbn [transition_ok conn_eqb negb andb orb]; rewrite andb_false_r; split; reflexivity. }
    destruct Hd as [Hd Hcl]. split; [apply (next_disconnected l1 Hd)|].
    exists (life l1). unfold next. rewrite Hd. cbn [transition_ok conn_eqb negb andb].
    destruct (_disconnTimer l1); rewrite life_add; cbn [andb set_timer set_conn _rfbCleanDisconnect is_life]; now rewrite Hcl.
Qed.

End Lifecycle.

(** * On the WebSocket wrapper *)

Import Websock.Websock.

(** The socket of the client, attaching to the given raw channel. *)
#[export] Instance websock_sock (ch : rawChannel) : Sock websock := {
  sock_attach := attach ch;
  sock_readyState := readyState;
  sock_close := close;
  sock_off := off;
  sock_handles w e := _eventHandlers w e
}.

#[export] Instance websock_sock_ok ch : SockOk (H0 := websock_sock ch).
Proof.
  constructor.
  - intros w. cbn [sock_close websock_sock]. unfold close. wrun. destruct (_websocket w); eauto.
  - intros e w. cbn [sock_off websock_sock]. unfold off. wrun. eauto.
Qed.

Definition all_handlers : handlers := fun _ => true.

Abbreviation sk := (websock_sock demo_channel).

(** A client just created: the constructor asks for the connecting state. *)
Definition new_client : world lc websock unit :=
  snd (_updateConnectionState (H0 := sk) Connecting
    (World (Lifecycle.constructor true) (mkWebsock None 0 0 4 [] 8 0 [] all_handlers) tt)).

Lemma new_client_started : started (lget (dec new_client)).
Proof. repeat split. Defined.

Definition connected_client : world lc websock unit :=
  snd (react (H0 := sk) SReady (snd (react (H0 := sk) SOpen new_client))).

Lemma connected_reachable : reachable (H0 := sk) new_client connected_client.
Proof.
  apply (reach_step (H0 := sk) new_client (snd (react (H0 := sk) SOpen new_client)) SReady);
    [|exact I|reflexivity].
  apply (reach_step (H0 := sk) new_client new_client SOpen); [apply reach_start|reflexivity|reflexivity].
Defined.

Lemma connection_lifecycle_witness :
  let l := lget (dec connected_client) in
  _rfbConnectionState l = Connected /\ told l /\ events l = [EvConnect].
Proof.
  pose proof (connection_lifecycle (H0 := sk) new_client connected_client new_client_started connected_reachable) as [H _].
  split; [reflexivity|]. split; [exact H|reflexivity].
Defined.

Lemma disconnect_completes_witness : exists w1,
  react (H0 := sk) SUser connected_client = (Ret tt, w1) /\ _disconnTimer (lget (dec w1)) = true.
Proof.
  destruct (disconnect_completes (H0 := sk) new_client connected_client new_client_started connected_reachable) as [(w1 & H1 & _ & H2 & _) _];
    [right; reflexivity|]. exists w1. split; [exact H1|exact H2].
Defined.

End Lifecycle.
