(* ===== verification/Des.v ===== *)
(** DES as core/crypto/des.js implements it, for the password challenge
    ([RFB.genDES]) and MS-Logon II.

    The class keeps the key schedule as 32 words and runs the rounds on 32-bit
    integers with combined S-box and P tables.  What is shown here is on the
    lengths; DesCorrect.v compares the cipher with FIPS 46-3. *)

From Stdlib Require Import ZArith List Lia Bool String.
From S2P Require Import Prelude.
Import ListNotations JS JSFacts.
Open Scope Z_scope.

Module Des.
Open Scope js_scope.

(** * The code *)

Definition PC2 : list Z :=
  [13; 16; 10; 23; 0; 4; 2; 27; 14; 5; 20; 9; 22; 18; 11; 3;
   25; 7; 15; 6; 26; 19; 12; 1; 40; 51; 30; 36; 46; 54; 29; 39;
   50; 44; 32; 47; 43; 48; 38; 55; 33; 52; 45; 41; 49; 35; 28; 31].
Definition totrot : list Z := [1; 2; 4; 6; 8; 10; 12; 14; 15; 17; 19; 21; 23; 25; 27; 28].
Definition z : Z := 0.

Definition SP1 : list Z :=
  let a := 1 << 16 in let b := 1 << 24 in let c := a .| b in
  let d := 1 << 2 in let e := 1 << 10 in let f := d .| e in
  [c .| e; z .| z; a .| z; c .| f; c .| d; a .| f; z .| d; a .| z;
   z .| e; c .| e; c .| f; z .| e; b .| f; c .| d; b .| z; z .| d;
   z .| f; b .| e; b .| e; a .| e; a .| e; c .| z; c .| z; b .| f;
   a .| d; b .| d; b .| d; a .| d; z .| z; z .| f; a .| f; b .| z;
   a .| z; c .| f; z .| d; c .| z; c .| e; b .| z; b .| z; z .| e;
   c .| d; a .| z; a .| e; b .| d; z .| e; z .| d; b .| f; a .| f;
   c .| f; a .| d; c .| z; b .| f; b .| d; z .| f; a .| f; c .| e;
   z .| f; b .| e; b .| e; z .| z; a .| d; a .| e; z .| z; c .| d].

Definition SP2 : list Z :=
  let a := 1 << 20 in let b := 1 << 31 in let c := a .| b in
  let d := 1 << 5 in let e := 1 << 15 in let f := d .| e in
  [c .| f; b .| e; z .| e; a .| f; a .| z; z .| d; c .| d; b .| f;
   b .| d; c .| f; c .| e; b .| z; b .| e; a .| z; z .| d; c .| d;
   a .| e; a .| d; b .| f; z .| z; b .| z; z .| e; a .| f; c .| z;
   a .| d; b .| d; z .| z; a .| e; z .| f; c .| e; c .| z; z .| f;
   z .| z; a .| f; c .| d; a .| z; b .| f; c .| z; c .| e; z .| e;
   c .| z; b .| e; z .| d; c .| f; a .| f; z .| d; z .| e; b .| z;
   z .| f; c .| e; a .| z; b .| d; a .| d; b .| f; b .| d; a .| d;
   a .| e; z .| z; b .| e; z .| f; b .| z; c .| d; c .| f; a .| e].

Definition SP3 : list Z :=
  let a := 1 << 17 in let b := 1 << 27 in let c := a .| b in
  let d := 1 << 3 in let e := 1 << 9 in let f := d .| e in
  [z .| f; c .| e; z .| z; c .| d; b .| e; z .| z; a .| f; b .| e;
   a .| d; b .| d; b .| d; a .| z; c .| f; a .| d; c .| z; z .| f;
   b .| z; z .| d; c .| e; z .| e; a .| e; c .| z; c .| d; a .| f;
   b .| f; a .| e; a .| z; b .| f; z .| d; c .| f; z .| e; b .| z;
   c .| e; b .| z; a .| d; z .| f; a .| z; c .| e; b .| e; z .| z;
   z .| e; a .| d; c .| f; b .| e; b .| d; z .| e; z .| z; c .| d;
   b .| f; a .| z; b .| z; c .| f; z .| d; a .| f; a .| e; b .| d;
   c .| z; b .| f; z .| f; c .| z; a .| f; z .| d; c .| d; a .| e].

Definition SP4 : list Z :=
  let a := 1 << 13 in let b := 1 << 23 in let c := a .| b in
  let d := 1 << 0 in let e := 1 << 7 in let f := d .| e in
  [c .| d; a .| f; a .| f; z .| e; c .| e; b .| f; b .| d; a .| d;
   z .| z; c .| z; c .| z; c .| f; z .| f; z .| z; b .| e; b .| d;
   z .| d; a .| z; b .| z; c .| d; z .| e; b .| z; a .| d; a .| e;
   b .| f; z .| d; a .| e; b .| e; a .| z; c .| e; c .| f; z .| f;
   b .| e; b .| d; c .| z; c .| f; z .| f; z .| z; z .| z; c .| z;
   a .| e; b .| e; b .| f; z .| d; c .| d; a .| f; a .| f; z .| e;
   c .| f; z .| f; z .| d; a .| z; b .| d; a .| d; c .| e; b .| f;
   a .| d; a .| e; b .| z; c .| d; z .| e; b .| z; a .| z; c .| e].

Definition SP5 : list Z :=
  let a := 1 << 25 in let b := 1 << 30 in let c := a .| b in
  let d := 1 << 8 in let e := 1 << 19 in let f := d .| e in
  [z .| d; a .| f; a .| e; c .| d; z .| e; z .| d; b .| z; a .| e;
   b .| f; z .| e; a .| d; b .| f; c .| d; c .| e; z .| f; b .| z;
   a .| z; b .| e; b .| e; z .| z; b .| d; c .| f; c .| f; a .| d;
   c .| e; b .| d; z .| z; c .| z; a .| f; a .| z; c .| z; z .| f;
   z .| e; c .| d; z .| d; a .| z; b .| z; a .| e; c .| d; b .| f;
   a .| d; b .| z; c .| e; a .| f; b .| f; z .| d; a .| z; c .| e;
   c .| f; z .| f; c .| z; c .| f; a .| e; z .| z; b .| e; c .| z;
   z .| f; a .| d; b .| d; z .| e; z .| z; b .| e; a .| f; b .| d].

Definition SP6 : list Z :=
  let a := 1 << 22 in let b := 1 << 29 in let c := a .| b in
  let d := 1 << 4 in let e := 1 << 14 in let f := d .| e in
  [b .| d; c .| z; z .| e; c .| f; c .| z; z .| d; c .| f; a .| z;
   b .| e; a .| f; a .| z; b .| d; a .| d; b .| e; b .| z; z .| f;
   z .| z; a .| d; b .| f; z .| e; a .| e; b .| f; z .| d; c .| d;
   c .| d; z .| z; a .| f; c .| e; z .| f; a .| e; c .| e; b .| z;
   b .| e; z .| d; c .| d; a .| e; c .| f; a .| z; z .| f; b .| d;
   a .| z; b .| e; b .| z; z .| f; b .| d; c .| f; a .| e; c .| z;
   a .| f; c .| e; z .| z; c .| d; z .| d; z .| e; c .| z; a .| f;
   z .| e; a .| d; b .| f; z .| z; c .| e; b .| z; a .| d; b .| f].

Definition SP7 : list Z :=
  let a := 1 << 21 in let b := 1 << 26 in let c := a .| b in
  let d := 1 << 1 in let e := 1 << 11 in let f := d .| e in
  [a .| z; c .| d; b .| f; z .| z; z .| e; b .| f; a .| f; c .| e;
   c .| f; a .| z; z .| z; b .| d; z .| d; b .| z; c .| d; z .| f;
   b .| e; a .| f; a .| d; b .| e; b .| d; c .| z; c .| e; a .| d;
   c .| z; z .| e; z .| f; c .| f; a .| e; z .| d; b .| z; a .| e;
   b .| z; a .| e; a .| z; b .| f; b .| f; c .| d; c .| d; z .| d;
   a .| d; b .| z; b .| e; a .| z; c .| e; z .| f; a .| f; c .| e;
   z .| f; b .| d; c .| f; c .| z; a .| e; z .| z; z .| d; c .| f;
   z .| z; a .| f; c .| z; z .| e; b .| d; b .| e; z .| e; a .| d].

Definition SP8 : list Z :=
  let a := 1 << 18 in let b := 1 << 28 in let c := a .| b in
  let d := 1 << 6 in let e := 1 << 12 in let f := d .| e in
  [b .| f; z .| e; a .| z; c .| f; b .| z; b .| f; z .| d; b .| z;
   a .| d; c .| z; c .| f; a .| e; c .| e; a .| f; z .| e; z .| d;
   c .| z; b .| d; b .| e; z .| f; a .| e; a .| d; c .| d; c .| e;
   z .| f; z .| z; z .| z; c .| d; b .| d; b .| e; a .| f; a .| z;
   a .| f; a .| z; c .| e; z .| e; z .| d; c .| d; z .| e; a .| f;
   b .| e; z .| d; b .| d; c .| z; c .| d; b .| z; a .| z; b .| f;
   z .| z; c .| f; a .| d; b .| d; c .| z; b .| e; b .| f; z .| z;
   c .| f; a .| e; a .| e; z .| f; z .| f; a .| d; b .| z; c .| e].

Close Scope js_scope.

(** The first loop of the constructor: the key bits in the order of PC1.  A
    missing character counts as 0. *)
Fixpoint pc1_loop (n : nat) (l : Z) (password : list Z) : list Z :=
  match n with
  | O => []
  | S n =>
      let l := l + (if l <? -5 then 65 else if l <? -3 then 31 else if l <? -1 then 63
                    else if l =? 27 then 35 else 0) in
      let m := (l & 7)%js in
      (if negb ((zgetd password (l >>> 3)%js & (1 << m))%js =? 0) then 1 else 0)
        :: pc1_loop n (l - 8) password
  end.

Definition pc1m (password : list Z) : list Z := pc1_loop 56 56 password.

(** The two halves rotated for round [i]. *)
Definition pcr (pc1m : list Z) (i : Z) : list Z :=
  map (fun j =>
    let o := if j <? 28 then 28 else 56 in
    let l := j + zgetd totrot i in
    if l <? o then zgetd pc1m l else zgetd pc1m (l - 28)) (upto 56).

(** [kn[m]] and [kn[n]]: the 24 bits chosen by PC2 from index [from] on. *)
Definition kn (pcr : list Z) (from : Z) : Z :=
  fold_left (fun k j => if negb (zgetd pcr (zgetd PC2 (j + from)) =? 0) then (k .| (1 << (23 - j)))%js else k)
    (upto 24) 0.

(** The two words of a round, from its two halves. *)
Definition cookey (raw0 raw1 : Z) : list Z :=
  [ ((raw0 & 16515072) << 6 .| (raw0 & 4032) << 10 .| (raw1 & 16515072) >>> 10 .| (raw1 & 4032) >>> 6)%js;
    ((raw0 & 258048) << 12 .| (raw0 & 63) << 16 .| (raw1 & 258048) >>> 4 .| (raw1 & 63))%js ].

Definition round_keys (password : list Z) (i : Z) : list Z :=
  let r := pcr (pc1m password) i in cookey (kn r 0) (kn r 24).

(** [new DES(password)]: the array [keys]. *)
Definition DES (password : list Z) : list Z := flat_map (round_keys password) (upto 16).

(** The exchange of the masked bits of [a >>> n] and [b]. *)
Definition swap (n mask : Z) (ab : Z * Z) : Z * Z :=
  let '(a, b) := ab in
  let x := ((a >>> n .^ b) & mask)%js in
  ((a .^ x << n)%js, (b .^ x)%js).

Definition initial (l r : Z) : Z * Z :=
  let '(l, r) := swap 4 252645135 (l, r) in
  let '(l, r) := swap 16 65535 (l, r) in
  let '(r, l) := swap 2 858993459 (r, l) in
  let '(r, l) := swap 8 16711935 (r, l) in
  let r := (r << 1 .| r >>> 31 & 1)%js in
  let x := ((l .^ r) & 2863311530)%js in
  let l := (l .^ x)%js in
  let r := (r .^ x)%js in
  let l := (l << 1 .| l >>> 31 & 1)%js in
  (l, r).

(** One Feistel function: [fval], from one half and the round's two words. *)
Definition fval (r k0 k1 : Z) : Z :=
  let x := ((r << 28 .| r >>> 4) .^ k0)%js in
  let fval := zgetd SP7 (x & 63)%js in
  let fval := (fval .| zgetd SP5 (x >>> 8 & 63)%js)%js in
  let fval := (fval .| zgetd SP3 (x >>> 16 & 63)%js)%js in
  let fval := (fval .| zgetd SP1 (x >>> 24 & 63)%js)%js in
  let x := (r .^ k1)%js in
  let fval := (fval .| zgetd SP8 (x & 63)%js)%js in
  let fval := (fval .| zgetd SP6 (x >>> 8 & 63)%js)%js in
  let fval := (fval .| zgetd SP4 (x >>> 16 & 63)%js)%js in
  (fval .| zgetd SP2 (x >>> 24 & 63)%js)%js.

(** Eight turns of two rounds each. *)
Fixpoint rounds (n : nat) (keys : list Z) (keysi l r : Z) : Z * Z :=
  match n with
  | O => (l, r)
  | S n =>
      let l := (l .^ fval r (zgetd keys keysi) (zgetd keys (keysi + 1)))%js in
      let r := (r .^ fval l (zgetd keys (keysi + 2)) (zgetd keys (keysi + 3)))%js in
      rounds n keys (keysi + 4) l r
  end.

Definition final (l r : Z) : Z * Z :=
  let r := (r << 31 .| r >>> 1)%js in
  let x := ((l .^ r) & 2863311530)%js in
  let l := (l .^ x)%js in
  let r := (r .^ x)%js in
  let l := (l << 31 .| l >>> 1)%js in
  let '(l, r) := swap 8 16711935 (l, r) in
  let '(l, r) := swap 2 858993459 (l, r) in
  let '(r, l) := swap 16 65535 (r, l) in
  swap 4 252645135 (r, l).

Definition squash (b : list Z) (i : Z) : Z :=
  (zgetd b i << 24 .| zgetd b (i + 1) << 16 .| zgetd b (i + 2) << 8 .| zgetd b (i + 3))%js.

(** The eight bytes of the words [r], [l]. *)
Definition spread (x : list Z) : list Z :=
  map (fun i => (zgetd x (i >>> 2)%js >>> (8 * (3 - i mod 4)))%js mod 256) (upto 8).

Definition enc8 (keys text : list Z) : list Z :=
  let l := squash text 0 in
  let r := squash text 4 in
  let '(l, r) := initial l r in
  let '(l, r) := rounds 8 keys 0 l r in
  let '(r, l) := final l r in
  spread [r; l].

(** [DESECBCipher.encrypt]; None for null. *)
Definition ecb_encrypt (keys plaintext : list Z) : option (list Z) :=
  if negb (zlen plaintext mod 8 =? 0) then None
  else
    Some (fold_left (fun x i => zblit x (i * 8) (enc8 keys (zslice x (i * 8) (i * 8 + 8))))
            (upto (zlen plaintext / 8)) plaintext).

(** [DESCBCCipher.encrypt]; the chained block starts as the iv, which has the
    length of a block at every call. *)
Definition xor_block (y block : list Z) : list Z :=
  map (fun j => toUint8 (zgetd y j .^ zgetd block j)%js) (upto 8).

Definition cbc_encrypt (keys iv plaintext : list Z) : option (list Z) :=
  if negb (zlen plaintext mod 8 =? 0) then None
  else
    Some (fst (fold_left (fun (xy : list Z * list Z) i =>
            let '(x, y) := xy in
            let y := enc8 keys (xor_block y (zslice plaintext (i * 8) (i * 8 + 8))) in
            (zblit x (i * 8) y, y)) (upto (zlen plaintext / 8)) (plaintext, iv))).

(** [RFB.genDES]: the password's character codes are the key. *)
Definition genDES (password challenge : list Z) : option (list Z) :=
  ecb_encrypt (DES password) challenge.

(** ** Lengths *)

Lemma zlen_spread x : zlen (spread x) = 8.
Proof. reflexivity. Qed.

Lemma zlen_enc8 keys text : zlen (enc8 keys text) = 8.
Proof.
  unfold enc8. destruct (initial _ _) as [l r]. destruct (rounds _ _ _ l r) as [l1 r1].
  destruct (final l1 r1) as [r2 l2]. apply zlen_spread.
Qed.

Lemma ecb_encrypt_length keys l r : ecb_encrypt keys l = Some r -> zlen r = zlen l.
Proof.
  unfold ecb_encrypt. destruct (Z.eqb_spec (zlen l mod 8) 0) as [E|E]; cbn [negb]; [|easy]. intros [= <-].
  assert (Hk : forall ks x, zlen x = zlen l -> Forall (fun i => 0 <= i /\ i * 8 + 8 <= zlen l) ks ->
    zlen (fold_left (fun x i => zblit x (i * 8) (enc8 keys (zslice x (i * 8) (i * 8 + 8)))) ks x) = zlen l).
  { induction ks as [|i ks IH]; intros x Hx Hf; [exact Hx|]. inversion_clear Hf as [|? ? Hi Hf']. cbn [fold_left].
    apply IH; [|exact Hf']. rewrite zlen_zblit; rewrite ?zlen_enc8; lia. }
  apply Hk; [reflexivity|]. apply Forall_forall. intros i Hi. apply in_upto in Hi. zlens. euclid.
Qed.

Lemma genDES_answers password challenge : zlen challenge mod 8 = 0 ->
  exists r, genDES password challenge = Some r /\ zlen r = zlen challenge.
Proof.
  intros E. destruct (genDES password challenge) as [r|] eqn:G.
  - exists r. split; [reflexivity|]. exact (ecb_encrypt_length _ _ _ G).
  - unfold genDES, ecb_encrypt in G. rewrite E in G. discriminate.
Qed.

End Des.
