(* ===== verification/Bigint.v ===== *)
(** Modular exponentiation and Diffie-Hellman: core/crypto/bigint.js and
    dh.js.

    A BigInt is a [Z].  [bigIntToU8Array] goes through the hexadecimal digits,
    as the code does; the theorems show that it writes the number big-endian
    on the given width, that [modPow] is the power modulo [m], and that two
    parties that exchange their public keys derive the same secret. *)

From Stdlib Require Import ZArith List Lia Bool String.
From S2P Require Import Prelude Sink.
Import ListNotations.
Open Scope Z_scope.

Module Bigint.

(** * The code *)

(** The loop runs once per bit of [e]. *)
Fixpoint modPow_loop (fuel : nat) (r b e m : Z) : outcome Z :=
  if 0 <? e then
    match fuel with
    | O => Stuck
    | S fuel =>
        let r := if Z.land e 1 =? 1 then Z.rem (r * b) m else r in
        modPow_loop fuel r (Z.rem (b * b) m) (Z.shiftr e 1) m
    end
  else Ret r.

(** The remainder by zero throws. *)
Definition modPow (b e m : Z) : outcome Z :=
  if m =? 0 then Throw "RangeError"
  else modPow_loop (Z.to_nat (Z.log2 e + 1)) 1 (Z.rem b m) e m.

(** [bigint.toString(16)], as the values of the digits. *)
Fixpoint hex_loop (fuel : nat) (n : Z) : list Z :=
  match fuel with
  | O => []
  | S fuel => if n <? 16 then [n] else hex_loop fuel (n / 16) ++ [n mod 16]
  end.
Definition toString16 (n : Z) : list Z := hex_loop (Z.to_nat (Z.log2 n + 1)) n.

Definition padStart (l : list Z) (n : Z) : list Z := zrep (n - zlen l) 0 ++ l.

(** [parseInt(hex.slice(i * 2, i * 2 + 2), 16)] for each [i]; a length that is
    not whole is truncated, and so are its last digits. *)
Fixpoint pairs (hex : list Z) : list Z :=
  match hex with
  | a :: b :: hex => a * 16 + b :: pairs hex
  | _ => []
  end.

Definition bigIntToU8Array (bigint padLength : Z) : list Z :=
  let hex := toString16 bigint in
  let padLength := if padLength =? 0 then (zlen hex + 1) / 2 else padLength in
  pairs (padStart hex (padLength * 2)).

(** [BigInt('0x' + digits)]; no digit at all is a syntax error. *)
Definition u8ArrayToBigInt (arr : list Z) : outcome Z :=
  match arr with
  | [] => Throw "SyntaxError"
  | _ => Ret (fold_left (fun acc d => acc * 16 + d) (flat_map (fun b => [b / 16; b mod 16]) arr) 0)
  end.

Definition obind {A B} (o : outcome A) (k : A -> outcome B) : outcome B :=
  match o with Ret a => k a | Throw e => Throw e | Stuck => Stuck end.

(** [DHCipher]; [privateKey] comes from [getRandomValues]. *)
Record dh := Dh {
  _keyBytes : Z;
  _pBigInt : Z;
  _privateKeyBigInt : Z;
  _publicKey : list Z
}.

Definition generateKey (g p privateKey : list Z) : outcome dh :=
  let keyBytes := zlen p in
  obind (u8ArrayToBigInt g) (fun gBigInt =>
  obind (u8ArrayToBigInt p) (fun pBigInt =>
  obind (u8ArrayToBigInt privateKey) (fun priv =>
  obind (modPow gBigInt priv pBigInt) (fun pub =>
  Ret (Dh keyBytes pBigInt priv (bigIntToU8Array pub keyBytes)))))).

(** [length] counts bits. *)
Definition deriveBits (key : dh) (public : list Z) (length : Z) : outcome (list Z) :=
  let bytes := (length + 7) / 8 in
  let len := if _keyBytes key <? bytes then bytes else _keyBytes key in
  obind (u8ArrayToBigInt public) (fun pub =>
  obind (modPow pub (_privateKeyBigInt key) (_pBigInt key)) (fun secret =>
  Ret (ztake len (bigIntToU8Array secret len)))).

(** * Correctness *)

Lemma modPow_loop_spec fuel : forall r b e m,
  0 <= r < m -> 0 <= b -> 0 <= e -> e < 2 ^ Z.of_nat fuel ->
  modPow_loop fuel r b e m = Ret ((r * b ^ e) mod m).
Proof.
  assert (Hz : forall r b m, 0 <= r < m -> Ret r = Ret ((r * b ^ 0) mod m)).
  { intros r b m Hr. now rewrite Z.pow_0_r, Z.mul_1_r, Z.mod_small. }
  induction fuel as [|fuel IH]; intros r b e m Hr Hb He Hf; cbn [modPow_loop].
  - change (2 ^ Z.of_nat 0) with 1 in Hf. replace e with 0 by lia. now apply Hz.
  - destruct (Z.ltb_spec 0 e) as [Hpos|]; [|replace e with 0 by lia; now apply Hz].
    rewrite Nat2Z.inj_succ, Z.pow_succ_r in Hf by lia.
    rewrite !Z.rem_mod_nonneg by nia. change (Z.land e 1) with (Z.land e (Z.ones 1)).
    rewrite Z.land_ones, Z.shiftr_div_pow2 by lia. change (2 ^ 1) with 2.
    pose proof (Z.mod_pos_bound (b * b) m ltac:(lia)). pose proof (Z.mod_pos_bound (r * b) m ltac:(lia)).
    assert (0 <= e / 2) by (apply Z.div_pos; lia).
    rewrite IH; [|case_if; lia|lia|lia|apply Z.div_lt_upper_bound; lia]. f_equal.
    assert (Hsq : forall x, (x * ((b * b) mod m) ^ (e / 2)) mod m = (x * b ^ (2 * (e / 2))) mod m).
    { intros x. rewrite <- Zmult_mod_idemp_r, Z.mod_pow_l, Zmult_mod_idemp_r.
      replace (b * b) with (b ^ 2) by ring. now rewrite <- Z.pow_mul_r by lia. }
    rewrite Hsq.
    destruct (Z.eqb_spec (e mod 2) 1) as [E|E].
    + rewrite Zmult_mod_idemp_l. replace (b ^ e) with (b * b ^ (2 * (e / 2))); [f_equal; ring|].
      rewrite <- Z.pow_succ_r by lia. f_equal. euclid.
    + replace (2 * (e / 2)) with e by euclid. reflexivity.
Qed.

Lemma modPow_run b e m : 1 < m -> 0 <= b -> 0 <= e -> modPow b e m = Ret (b ^ e mod m).
Proof.
  intros Hm Hb He. unfold modPow. destruct (Z.eqb_spec m 0); [lia|].
  rewrite Z.rem_mod_nonneg by lia. pose proof (Z.mod_pos_bound b m ltac:(lia)).
  rewrite modPow_loop_spec; try lia.
  - f_equal. now rewrite Z.mul_1_l, Z.mod_pow_l.
  - pose proof (Z.log2_nonneg e). rewrite Z2Nat.id by lia. destruct (Z.eq_dec e 0) as [->|]; [reflexivity|].
    rewrite Z.add_1_r. apply Z.log2_spec. lia.
Qed.

(** ** Bytes and numbers *)

Definition hexval (l : list Z) : Z := fold_left (fun acc d => acc * 16 + d) l 0.
Definition hexdigits (l : list Z) : Prop := Forall (fun d => 0 <= d < 16) l.

Lemma hexval_acc l acc : fold_left (fun acc d => acc * 16 + d) l acc = acc * 16 ^ zlen l + hexval l.
Proof.
  unfold hexval. revert acc. induction l as [|d l IH]; intros acc; [cbn; lia|].
  cbn [fold_left]. rewrite IH, (IH (0 * 16 + d)), zlen_cons, Z.pow_add_r by (zlens; lia). lia.
Qed.

Lemma hexval_app l1 l2 : hexval (l1 ++ l2) = hexval l1 * 16 ^ zlen l2 + hexval l2.
Proof. unfold hexval at 1. rewrite fold_left_app. apply hexval_acc. Qed.

Lemma hexval_zeros n : hexval (zrep n 0) = 0.
Proof.
  unfold zrep. induction (Z.to_nat n) as [|k IH]; [reflexivity|].
  change (repeat 0 (S k)) with ([0] ++ repeat 0 k). now rewrite hexval_app, IH.
Qed.

Lemma hex_loop_spec fuel : forall n k, 0 <= n < 2 ^ Z.of_nat fuel -> (0 < fuel)%nat -> 0 < k -> n < 16 ^ k ->
  hexval (hex_loop fuel n) = n /\ hexdigits (hex_loop fuel n) /\ zlen (hex_loop fuel n) <= k.
Proof.
  induction fuel as [|fuel IH]; intros n k Hn Hf Hk Hnk; [lia|]. cbn [hex_loop].
  destruct (Z.ltb_spec n 16).
  - repeat split; [repeat constructor; lia|cbn; lia].
  - assert (Hk1 : 1 < k).
    { destruct (Z.eq_dec k 1) as [->|]; [change (16 ^ 1) with 16 in Hnk; lia|lia]. }
    destruct fuel as [|fuel']; [change (2 ^ Z.of_nat 1) with 2 in Hn; lia|].
    rewrite Nat2Z.inj_succ, Z.pow_succ_r in Hn by lia.
    destruct (IH (n / 16) (k - 1)) as (Hv & Hd & Hl); [euclid|lia|lia| |].
    { apply Z.div_lt_upper_bound; [lia|]. rewrite <- Z.pow_succ_r by lia. now replace (Z.succ (k - 1)) with k by lia. }
    rewrite hexval_app, Hv, zlen_app. change (zlen [n mod 16]) with 1. split; [|split].
    + change (hexval [n mod 16]) with (0 * 16 + n mod 16). change (16 ^ 1) with 16. euclid.
    + apply Forall_app. split; [exact Hd|]. repeat constructor; apply Z.mod_pos_bound; lia.
    + lia.
Qed.

Lemma toString16_spec n k : 0 <= n < 16 ^ k -> 0 < k ->
  hexval (toString16 n) = n /\ hexdigits (toString16 n) /\ zlen (toString16 n) <= k.
Proof.
  intros Hn Hk. unfold toString16. pose proof (Z.log2_nonneg n). apply hex_loop_spec; try lia.
  rewrite Z2Nat.id by lia. destruct (Z.eq_dec n 0) as [->|]; [cbn; lia|].
  split; [lia|]. rewrite Z.add_1_r. apply Z.log2_spec. lia.
Qed.

Lemma pairs_spec k : forall l, zlen l = 2 * Z.of_nat k -> hexdigits l ->
  be (pairs l) = hexval l /\ bytes (pairs l) /\ zlen (pairs l) = Z.of_nat k.
Proof.
  induction k as [|k IH]; intros l Hl Hd.
  - rewrite (zlen_0_nil l) by lia. repeat split. constructor.
  - destruct l as [|a [|b l]]; rewrite ?zlen_cons, ?zlen_nil in Hl; try lia.
    inversion_clear Hd as [|? ? Ha Hd']. inversion_clear Hd' as [|? ? Hb Hd].
    destruct (IH l ltac:(lia) Hd) as (H1 & H2 & H3). cbn [pairs]. split; [|split].
    + rewrite be_cons, H1, H3. change (a :: b :: l) with ([a; b] ++ l). rewrite hexval_app.
      change (hexval [a; b]) with ((0 * 16 + a) * 16 + b). replace (zlen l) with (2 * Z.of_nat k) by lia.
      rewrite (Z.pow_mul_r 16 2) by lia. change (16 ^ 2) with 256. ring.
    + constructor; [unfold is_byte; lia|exact H2].
    + rewrite zlen_cons, H3. lia.
Qed.

Lemma bigIntToU8Array_spec n k : (0 < k)%nat -> 0 <= n < 256 ^ Z.of_nat k ->
  bigIntToU8Array n (Z.of_nat k) = be_bytes k n.
Proof.
  intros Hk Hn. destruct (toString16_spec n (2 * Z.of_nat k)) as (Hv & Hd & Hl); [|lia|].
  { rewrite Z.pow_mul_r by lia. exact Hn. }
  unfold bigIntToU8Array. destruct (Z.eqb_spec (Z.of_nat k) 0); [lia|]. zlens.
  destruct (pairs_spec k (padStart (toString16 n) (Z.of_nat k * 2))) as (H1 & H2 & H3).
  { unfold padStart. rewrite zlen_app, zlen_zrep. lia. }
  { unfold padStart. apply Forall_app. split; [|exact Hd]. apply Forall_forall. intros x Hx.
    apply repeat_spec in Hx. lia. }
  apply be_inj; auto using be_bytes_bytes.
  - now rewrite H3, zlen_be_bytes.
  - rewrite H1, be_bytes_small by exact Hn. unfold padStart. rewrite hexval_app, hexval_zeros, Hv. lia.
Qed.

Lemma hexval_bytes l : bytes l -> hexval (flat_map (fun b => [b / 16; b mod 16]) l) = be l.
Proof.
  induction 1 as [|b l Hb Hl IH]; [reflexivity|]. cbn [flat_map]. rewrite hexval_app, be_cons, IH.
  unfold is_byte in Hb. change (hexval [b / 16; b mod 16]) with ((0 * 16 + b / 16) * 16 + b mod 16).
  replace (zlen (flat_map (fun b => [b / 16; b mod 16]) l)) with (2 * zlen l).
  - zlens. rewrite Z.pow_mul_r by lia. change (16 ^ 2) with 256. f_equal. f_equal. euclid.
  - clear. induction l; [reflexivity|]. cbn [flat_map]. rewrite zlen_app, <- IHl, zlen_cons. change (zlen [_; _]) with 2. lia.
Qed.

Lemma u8ArrayToBigInt_spec l : bytes l -> l <> [] -> u8ArrayToBigInt l = Ret (be l).
Proof. intros Hb Hl. destruct l; [easy|]. cbn [u8ArrayToBigInt]. f_equal. now apply (hexval_bytes (z :: l)). Qed.

(** Numbers and byte arrays: a number that fits on [k] bytes is written
    big-endian on exactly [k] bytes, and reading an array back gives the number
    it denotes, so the two conversions are inverse of each other. *)
Theorem bigint_roundtrip (n : Z) (k : nat) (l : list Z) :
  (0 < k)%nat -> 0 <= n < 256 ^ Z.of_nat k -> bytes l -> zlen l = Z.of_nat k ->
  u8ArrayToBigInt (bigIntToU8Array n (Z.of_nat k)) = Ret n /\
  bigIntToU8Array n (Z.of_nat k) = be_bytes k n /\
  exists v, u8ArrayToBigInt l = Ret v /\ bigIntToU8Array v (Z.of_nat k) = l.
Proof.
  intros Hk Hn Hb Hl. rewrite bigIntToU8Array_spec by assumption. split; [|split; [reflexivity|]].
  - rewrite u8ArrayToBigInt_spec; [now rewrite be_bytes_small|apply be_bytes_bytes|]. now destruct k.
  - exists (be l). pose proof (be_range l Hb) as Hr. rewrite Hl in Hr.
    split; [apply u8ArrayToBigInt_spec; [exact Hb|intros ->; rewrite zlen_nil in Hl; lia]|].
    rewrite bigIntToU8Array_spec by assumption. apply be_inj; auto using be_bytes_bytes.
    + now rewrite zlen_be_bytes.
    + now apply be_bytes_small.
Qed.

Lemma bigint_roundtrip_witness :
  u8ArrayToBigInt (bigIntToU8Array 4660 3) = Ret 4660 /\ bigIntToU8Array 4660 3 = [0; 18; 52].
Proof.
  destruct (bigint_roundtrip 4660 3 [1; 2; 3]) as (H1 & H2 & _); [lia|cbn; lia|repeat constructor; cbn; lia|reflexivity|].
  split; [exact H1|exact H2].
Defined.

(** The modular power is the power: on a modulus above one the loop ends
    and its result is [b ^ e mod m]; a zero modulus throws. *)
Theorem modPow_is_power (b e m : Z) :
  0 <= b -> 0 <= e ->
  (1 < m -> modPow b e m = Ret (b ^ e mod m)) /\ (m = 0 -> modPow b e m = Throw "RangeError").
Proof. intros Hb He. split; [intros Hm; now apply modPow_run|]. intros ->. reflexivity. Qed.

Lemma modPow_is_power_witness : modPow 7 560 561 = Ret (7 ^ 560 mod 561) /\ 7 ^ 560 mod 561 = 1.
Proof. split; [apply (modPow_is_power 7 560 561); lia|vm_compute; reflexivity]. Defined.

Lemma generateKey_run g p k : bytes g -> bytes p -> bytes k -> g <> [] -> k <> [] -> 1 < be p ->
  generateKey g p k = Ret (Dh (zlen p) (be p) (be k) (be_bytes (List.length p) (be g ^ be k mod be p))).
Proof.
  intros Hg Hp Hk Hg0 Hk0 H1. assert (Hp0 : p <> []) by (intros ->; cbn in H1; lia).
  unfold generateKey. rewrite !u8ArrayToBigInt_spec by assumption. cbn [obind].
  pose proof (be_range g Hg). pose proof (be_range k Hk). pose proof (be_range p Hp).
  rewrite modPow_run by lia. cbn [obind]. do 2 f_equal. unfold zlen. apply bigIntToU8Array_spec.
  - destruct p; [easy|cbn; lia].
  - pose proof (Z.mod_pos_bound (be g ^ be k) (be p) ltac:(lia)). unfold zlen in *. lia.
Qed.

Lemma deriveBits_run key pub len : bytes pub -> pub <> [] -> 1 < _pBigInt key -> 0 <= _privateKeyBigInt key ->
  0 < _keyBytes key -> _pBigInt key <= 256 ^ _keyBytes key -> (len + 7) / 8 <= _keyBytes key ->
  deriveBits key pub len =
    Ret (be_bytes (Z.to_nat (_keyBytes key)) (be pub ^ _privateKeyBigInt key mod _pBigInt key)).
Proof.
  intros Hp Hp0 H1 Hpr Hk Hle Hlen. unfold deriveBits. rewrite u8ArrayToBigInt_spec by assumption. cbn [obind].
  pose proof (be_range pub Hp). rewrite modPow_run by lia. cbn [obind]. f_equal.
  destruct (Z.ltb_spec (_keyBytes key) ((len + 7) / 8)); [lia|].
  pose proof (Z.mod_pos_bound (be pub ^ _privateKeyBigInt key) (_pBigInt key) ltac:(lia)).
  replace (bigIntToU8Array _ (_keyBytes key)) with
    (be_bytes (Z.to_nat (_keyBytes key)) (be pub ^ _privateKeyBigInt key mod _pBigInt key)).
  - apply ztake_all. rewrite zlen_be_bytes. lia.
  - rewrite <- bigIntToU8Array_spec by (try lia; rewrite Z2Nat.id by lia; lia). now rewrite Z2Nat.id by lia.
Qed.

(** C18.  Key agreement: two parties that share a generator and a modulus above
    one, and each raise the other's public key to their private key, obtain
    the same secret, of the length of the modulus. *)
Theorem dh_agreement (g p k1 k2 : list Z) (len : Z) :
  bytes g -> bytes p -> bytes k1 -> bytes k2 -> g <> [] -> zlen k1 = zlen p -> zlen k2 = zlen p ->
  1 < be p -> len <= 8 * zlen p ->
  exists c1 c2 secret, generateKey g p k1 = Ret c1 /\ generateKey g p k2 = Ret c2 /\
    deriveBits c1 (_publicKey c2) len = Ret secret /\ deriveBits c2 (_publicKey c1) len = Ret secret /\
    zlen secret = zlen p /\ be secret = be g ^ (be k1 * be k2) mod be p.
Proof.
  intros Hg Hp H1 H2 Hg0 L1 L2 Hp1 Hlen. zlens.
  assert (Hp0 : 0 < zlen p) by (destruct p; [cbn in Hp1; lia|rewrite zlen_cons in *; zlens; lia]).
  assert (N1 : k1 <> []) by (intros ->; rewrite zlen_nil in L1; lia).
  assert (N2 : k2 <> []) by (intros ->; rewrite zlen_nil in L2; lia).
  pose proof (be_range g Hg). pose proof (be_range k1 H1). pose proof (be_range k2 H2). pose proof (be_range p Hp).
  eexists _, _, _. rewrite !generateKey_run by assumption. split; [reflexivity|]. split; [reflexivity|].
  assert (Hne : forall n, be_bytes (List.length p) n <> []) by (intros n; destruct p; [cbn in Hp1; lia|easy]).
  assert (Hsm : forall a k, be (be_bytes (List.length p) (a ^ k mod be p)) = a ^ k mod be p).
  { intros a k. apply be_bytes_small. pose proof (Z.mod_pos_bound (a ^ k) (be p) ltac:(lia)). unfold zlen in *. lia. }
  assert (Hd : (len + 7) / 8 <= zlen p) by euclid.
  rewrite !deriveBits_run; cbn [_publicKey _pBigInt _keyBytes _privateKeyBigInt]; auto using be_bytes_bytes; try lia.
  rewrite (Hsm (be g) (be k1)), (Hsm (be g) (be k2)).
  rewrite (Z.mod_pow_l (be g ^ be k1) (be k2)), (Z.mod_pow_l (be g ^ be k2) (be k1)), <- !Z.pow_mul_r by lia.
  split; [reflexivity|].
  rewrite (Z.mul_comm (be k1) (be k2)). split; [reflexivity|].
  rewrite zlen_be_bytes, Z2Nat.id by lia. split; [reflexivity|].
  replace (Z.to_nat (zlen p)) with (List.length p) by (unfold zlen; lia). apply Hsm.
Qed.

Lemma dh_agreement_witness : exists c1 c2 secret,
  generateKey [5] [97] [13] = Ret c1 /\ generateKey [5] [97] [29] = Ret c2 /\
  deriveBits c1 (_publicKey c2) 8 = Ret secret /\ deriveBits c2 (_publicKey c1) 8 = Ret secret.
Proof.
  destruct (dh_agreement [5] [97] [13] [29] 8) as (c1 & c2 & s & H1 & H2 & H3 & H4 & _);
    try (repeat constructor; unfold is_byte; lia); try easy.
  exists c1, c2, s. auto.
Defined.

End Bigint.
