(* ===== verification/DesCorrect.v ===== *)
(** DES of core/crypto/des.js compared with the standard FIPS 46-3.

    The code keeps halves of blocks as 32-bit integers rotated by one position,
    joins the S-boxes with the permutation P into one table each, and moves bits
    with masked exchanges; the standard, module [Fips], is written on lists of
    bits with the tables as printed.  The stages of the code that only move bits
    are compared position by position ([bit2] and the [_at] functions), the
    S-boxes entry by entry.  VNC reads the key with the bits of each character
    in reverse order ([vnc_key]). *)

From Stdlib Require Import ZArith List Lia Bool Btauto.
From S2P Require Import Prelude Des.
Import ListNotations JS JSFacts Des.
Open Scope Z_scope.

(** * FIPS 46-3 *)
Module Fips.

Definition IP : list Z :=
  [58; 50; 42; 34; 26; 18; 10; 2; 60; 52; 44; 36; 28; 20; 12; 4;
   62; 54; 46; 38; 30; 22; 14; 6; 64; 56; 48; 40; 32; 24; 16; 8;
   57; 49; 41; 33; 25; 17; 9; 1; 59; 51; 43; 35; 27; 19; 11; 3;
   61; 53; 45; 37; 29; 21; 13; 5; 63; 55; 47; 39; 31; 23; 15; 7].

Definition FP : list Z :=
  [40; 8; 48; 16; 56; 24; 64; 32; 39; 7; 47; 15; 55; 23; 63; 31;
   38; 6; 46; 14; 54; 22; 62; 30; 37; 5; 45; 13; 53; 21; 61; 29;
   36; 4; 44; 12; 52; 20; 60; 28; 35; 3; 43; 11; 51; 19; 59; 27;
   34; 2; 42; 10; 50; 18; 58; 26; 33; 1; 41; 9; 49; 17; 57; 25].

Definition E : list Z :=
  [32; 1; 2; 3; 4; 5; 4; 5; 6; 7; 8; 9;
   8; 9; 10; 11; 12; 13; 12; 13; 14; 15; 16; 17;
   16; 17; 18; 19; 20; 21; 20; 21; 22; 23; 24; 25;
   24; 25; 26; 27; 28; 29; 28; 29; 30; 31; 32; 1].

Definition P : list Z :=
  [16; 7; 20; 21; 29; 12; 28; 17; 1; 15; 23; 26; 5; 18; 31; 10;
   2; 8; 24; 14; 32; 27; 3; 9; 19; 13; 30; 6; 22; 11; 4; 25].

Definition PC1 : list Z :=
  [57; 49; 41; 33; 25; 17; 9; 1; 58; 50; 42; 34; 26; 18;
   10; 2; 59; 51; 43; 35; 27; 19; 11; 3; 60; 52; 44; 36;
   63; 55; 47; 39; 31; 23; 15; 7; 62; 54; 46; 38; 30; 22;
   14; 6; 61; 53; 45; 37; 29; 21; 13; 5; 28; 20; 12; 4].

Definition PC2 : list Z :=
  [14; 17; 11; 24; 1; 5; 3; 28; 15; 6; 21; 10;
   23; 19; 12; 4; 26; 8; 16; 7; 27; 20; 13; 2;
   41; 52; 31; 37; 47; 55; 30; 40; 51; 45; 33; 48;
   44; 49; 39; 56; 34; 53; 46; 42; 50; 36; 29; 32].

Definition shifts : list Z := [1; 1; 2; 2; 2; 2; 2; 2; 1; 2; 2; 2; 2; 2; 2; 1].

Definition boxes : list (list Z) :=
  [[14; 4; 13; 1; 2; 15; 11; 8; 3; 10; 6; 12; 5; 9; 0; 7;
    0; 15; 7; 4; 14; 2; 13; 1; 10; 6; 12; 11; 9; 5; 3; 8;
    4; 1; 14; 8; 13; 6; 2; 11; 15; 12; 9; 7; 3; 10; 5; 0;
    15; 12; 8; 2; 4; 9; 1; 7; 5; 11; 3; 14; 10; 0; 6; 13];
   [15; 1; 8; 14; 6; 11; 3; 4; 9; 7; 2; 13; 12; 0; 5; 10;
    3; 13; 4; 7; 15; 2; 8; 14; 12; 0; 1; 10; 6; 9; 11; 5;
    0; 14; 7; 11; 10; 4; 13; 1; 5; 8; 12; 6; 9; 3; 2; 15;
    13; 8; 10; 1; 3; 15; 4; 2; 11; 6; 7; 12; 0; 5; 14; 9];
   [10; 0; 9; 14; 6; 3; 15; 5; 1; 13; 12; 7; 11; 4; 2; 8;
    13; 7; 0; 9; 3; 4; 6; 10; 2; 8; 5; 14; 12; 11; 15; 1;
    13; 6; 4; 9; 8; 15; 3; 0; 11; 1; 2; 12; 5; 10; 14; 7;
    1; 10; 13; 0; 6; 9; 8; 7; 4; 15; 14; 3; 11; 5; 2; 12];
   [7; 13; 14; 3; 0; 6; 9; 10; 1; 2; 8; 5; 11; 12; 4; 15;
    13; 8; 11; 5; 6; 15; 0; 3; 4; 7; 2; 12; 1; 10; 14; 9;
    10; 6; 9; 0; 12; 11; 7; 13; 15; 1; 3; 14; 5; 2; 8; 4;
    3; 15; 0; 6; 10; 1; 13; 8; 9; 4; 5; 11; 12; 7; 2; 14];
   [2; 12; 4; 1; 7; 10; 11; 6; 8; 5; 3; 15; 13; 0; 14; 9;
    14; 11; 2; 12; 4; 7; 13; 1; 5; 0; 15; 10; 3; 9; 8; 6;
    4; 2; 1; 11; 10; 13; 7; 8; 15; 9; 12; 5; 6; 3; 0; 14;
    11; 8; 12; 7; 1; 14; 2; 13; 6; 15; 0; 9; 10; 4; 5; 3];
   [12; 1; 10; 15; 9; 2; 6; 8; 0; 13; 3; 4; 14; 7; 5; 11;
    10; 15; 4; 2; 7; 12; 9; 5; 6; 1; 13; 14; 0; 11; 3; 8;
    9; 14; 15; 5; 2; 8; 12; 3; 7; 0; 4; 10; 1; 13; 11; 6;
    4; 3; 2; 12; 9; 5; 15; 10; 11; 14; 1; 7; 6; 0; 8; 13];
   [4; 11; 2; 14; 15; 0; 8; 13; 3; 12; 9; 7; 5; 10; 6; 1;
    13; 0; 11; 7; 4; 9; 1; 10; 14; 3; 5; 12; 2; 15; 8; 6;
    1; 4; 11; 13; 12; 3; 7; 14; 10; 15; 6; 8; 0; 5; 9; 2;
    6; 11; 13; 8; 1; 4; 10; 7; 9; 5; 0; 15; 14; 2; 3; 12];
   [13; 2; 8; 4; 6; 15; 11; 1; 10; 9; 3; 14; 5; 0; 12; 7;
    1; 15; 13; 8; 10; 3; 7; 4; 12; 5; 6; 11; 0; 14; 9; 2;
    7; 11; 4; 1; 9; 12; 14; 2; 0; 6; 10; 13; 15; 3; 5; 8;
    2; 1; 14; 7; 4; 10; 8; 13; 15; 12; 9; 0; 3; 5; 6; 11]].

(** Tables number positions from 1. *)
Definition permute {A} (t : list Z) (l : list A) : list A :=
  flat_map (fun i => match zget l (i - 1) with Some x => [x] | None => [] end) t.

Definition rotl {A} (n : Z) (l : list A) : list A := zdrop n l ++ ztake n l.

Definition xorl (a b : list bool) : list bool := map (fun p => xorb (fst p) (snd p)) (combine a b).

(** Row from the outer two bits, column from the inner four. *)
Definition entry (g : list bool) : Z :=
  match g with
  | [b1; b2; b3; b4; b5; b6] =>
      16 * (2 * Z.b2z b1 + Z.b2z b6) + (8 * Z.b2z b2 + 4 * Z.b2z b3 + 2 * Z.b2z b4 + Z.b2z b5)
  | _ => 0
  end.

Definition four (v : Z) : list bool := map (fun m => Z.testbit v (3 - m)) (upto 4).

Definition group (k : Z) (x : list bool) : list bool := zslice x (6 * k) (6 * k + 6).

Definition box (k : Z) : list Z := nth (Z.to_nat k) boxes [].

Definition substitute (x : list bool) : list bool :=
  flat_map (fun k => four (zgetd (box k) (entry (group k x)))) (upto 8).

Definition f (R K : list bool) : list bool := permute P (substitute (xorl (permute E R) K)).

Fixpoint schedule {A} (shifts : list Z) (C D : list A) : list (list A) :=
  match shifts with
  | [] => []
  | s :: ss => permute PC2 (rotl s C ++ rotl s D) :: schedule ss (rotl s C) (rotl s D)
  end.

Definition keys {A} (key : list A) : list (list A) :=
  let x := permute PC1 key in schedule shifts (ztake 28 x) (zdrop 28 x).

Fixpoint feistel (ks : list (list bool)) (L R : list bool) : list bool * list bool :=
  match ks with
  | [] => (L, R)
  | K :: ks => feistel ks R (xorl L (f R K))
  end.

Definition crypt (ks : list (list bool)) (block : list bool) : list bool :=
  let x := permute IP block in
  let '(L, R) := feistel ks (ztake 32 x) (zdrop 32 x) in
  permute FP (R ++ L).

Definition encrypt (key block : list bool) : list bool := crypt (keys key) block.
Definition decrypt (key block : list bool) : list bool := crypt (rev (keys key)) block.

End Fips.

(** The bits of a list of bytes, most significant first. *)
Definition bits (l : list Z) : list bool := flat_map (fun b => map (fun i => Z.testbit b (7 - i)) (upto 8)) l.

(** The key of a VNC password: eight characters, zeros for missing ones, each
    with its bits reversed. *)
Definition vnc_key (password : list Z) : list bool :=
  flat_map (fun b => map (Z.testbit b) (upto 8)) (ztake 8 (password ++ zrep 8 0)).

(** The usual test vector of the standard. *)
Example fips_vector : Fips.encrypt (bits [19; 52; 87; 121; 155; 188; 223; 241]) (bits [1; 35; 69; 103; 137; 171; 205; 239]) =
  bits [133; 232; 19; 84; 15; 10; 180; 5].
Proof. vm_compute. reflexivity. Qed.

(** * Lists indexed by [upto] *)

Lemma permute_map {A B} (f : A -> B) t l : Fips.permute t (map f l) = map f (Fips.permute t l).
Proof.
  unfold Fips.permute. induction t as [|i t IH]; [reflexivity|]. cbn [flat_map]. rewrite map_app, <- IH. f_equal.
  unfold zget. destruct (_ <? _); [reflexivity|]. rewrite nth_error_map. now destruct (nth_error l _).
Qed.

Lemma permute_range {A} (f : Z -> A) t n : forallb (fun i => (0 <? i) && (i <=? n)) t = true ->
  Fips.permute t (map f (upto n)) = map (fun i => f (i - 1)) t.
Proof.
  unfold Fips.permute. induction t as [|i t IH]; [reflexivity|]. cbn [forallb flat_map map].
  intros H. apply andb_prop in H as [Hi Ht]. rewrite zget_map_upto by (bool_prop; lia). now rewrite IH.
Qed.

(** * The stages that only move bits

    Bit positions of a pair of words: 0 to 31 in the first, 32 to 63 in the
    second, each from the least significant bit. *)

Definition bit2 (ab : Z * Z) (p : Z) : bool :=
  if p <? 32 then Z.testbit (fst ab) p else Z.testbit (snd ab) (p - 32).

Definition flip_at (p : Z) : Z := if p <? 32 then p + 32 else p - 32.

Definition swap_at (n mask p : Z) : Z :=
  if p <? 32 then if (n <=? p) && Z.testbit mask (p - n) then 32 + (p - n) else p
  else if Z.testbit mask (p - 32) then p - 32 + n else p.

(** Rotation of the first word by one position, either way. *)
Definition rol_at (p : Z) : Z := if p <? 32 then (p + 31) mod 32 else p.
Definition ror_at (p : Z) : Z := if p <? 32 then (p + 1) mod 32 else p.

Ltac posn := match goal with
  | |- context[if ?b then _ else _] => destruct b eqn:?
  | |- context[?a <? ?b] => destruct (Z.ltb_spec a b)
  | |- context[?a <=? ?b] => destruct (Z.leb_spec a b)
  end; bool_prop; try lia.

Lemma bit2_flip a b p : 0 <= p < 64 -> bit2 (b, a) p = bit2 (a, b) (flip_at p).
Proof. intros. unfold bit2, flip_at. cbn [fst snd]. repeat posn; f_equal; lia. Qed.

Lemma bit2_swap n mask a b p : 0 <= n < 32 -> 0 <= mask < 2 ^ (32 - n) -> 0 <= p < 64 ->
  bit2 (swap n mask (a, b)) p = bit2 (a, b) (swap_at n mask p).
Proof.
  intros Hn Hm Hp. unfold bit2, swap, swap_at. cbn [fst snd].
  destruct (Z.ltb_spec p 32) as [Hl|Hl].
  - rewrite testbit_bxor, testbit_shl by lia. destruct (Z.leb_spec n p) as [Hnp|Hnp]; cbn [andb];
      [|rewrite xorb_false_r; now rewrite (proj2 (Z.ltb_lt p 32)) by lia].
    rewrite testbit_band, testbit_bxor, testbit_shr by lia.
    destruct (Z.testbit mask (p - n)) eqn:E; [|now rewrite andb_false_r, xorb_false_r, (proj2 (Z.ltb_lt p 32)) by lia].
    destruct (Z.ltb_spec (32 + (p - n)) 32); [lia|].
    replace (32 + (p - n) - 32) with (p - n) by lia. replace (p - n + n) with p by lia.
    destruct (Z.ltb_spec p 32); [|lia]. cbn [andb]. rewrite andb_true_r.
    now destruct (Z.testbit a p), (Z.testbit b (p - n)).
  - rewrite testbit_bxor, testbit_band, testbit_bxor, testbit_shr by lia.
    destruct (Z.testbit mask (p - 32)) eqn:E.
    + apply (mask_high mask (32 - n)) in E; [|lia|exact Hm].
      destruct (Z.ltb_spec (p - 32 + n) 32); [|lia]. cbn [andb]. rewrite andb_true_r.
      now destruct (Z.testbit a _), (Z.testbit b _).
    + rewrite andb_false_r, xorb_false_r. destruct (Z.ltb_spec p 32); [lia|]. reflexivity.
Qed.

(** The masked exchange without a shift. *)
Lemma bit2_exchange a b mask p : 0 <= p < 64 ->
  let x := ((a .^ b) & mask)%js in
  bit2 ((a .^ x)%js, (b .^ x)%js) p = bit2 (a, b) (swap_at 0 mask p).
Proof.
  intros Hp x. subst x. unfold bit2, swap_at. cbn [fst snd].
  destruct (Z.ltb_spec p 32) as [Hl|Hl].
  - rewrite testbit_bxor, testbit_band, testbit_bxor, Z.sub_0_r by lia. destruct (Z.leb_spec 0 p); [cbn [andb]|lia].
    destruct (Z.testbit mask p); cbn [andb].
    + destruct (Z.ltb_spec (32 + p) 32); [lia|]. replace (32 + p - 32) with p by lia.
      now destruct (Z.testbit a p), (Z.testbit b p).
    + rewrite andb_false_r, xorb_false_r. now destruct (Z.ltb_spec p 32); [|lia].
  - rewrite testbit_bxor, testbit_band, testbit_bxor by lia. rewrite Z.add_0_r.
    destruct (Z.testbit mask (p - 32)); cbn [andb].
    + destruct (Z.ltb_spec (p - 32) 32); [|lia]. now destruct (Z.testbit a _), (Z.testbit b _).
    + rewrite andb_false_r, xorb_false_r. now destruct (Z.ltb_spec p 32); [lia|].
Qed.

Lemma testbit_rol1 r i : 0 <= i < 32 -> Z.testbit (r << 1 .| r >>> 31 & 1)%js i = Z.testbit r ((i + 31) mod 32).
Proof.
  intros Hi. rewrite testbit_bor, testbit_shl, testbit_band, testbit_shr by lia.
  destruct (Z.eq_dec i 0) as [->|Hn]; [cbn; now rewrite andb_true_r|].
  destruct (Z.leb_spec 1 i); [|lia]. destruct (Z.ltb_spec (i + 31) 32); [lia|]. cbn [andb]. rewrite orb_false_r.
  f_equal. euclid.
Qed.

Lemma testbit_ror1 r i : 0 <= i < 32 -> Z.testbit (r << 31 .| r >>> 1)%js i = Z.testbit r ((i + 1) mod 32).
Proof.
  intros Hi. rewrite testbit_bor, testbit_shl, testbit_shr by lia.
  destruct (Z.eq_dec i 31) as [->|Hn]; [cbn; now rewrite orb_false_r|].
  destruct (Z.leb_spec 31 i); [lia|]. destruct (Z.ltb_spec (i + 1) 32); [|lia]. cbn [andb orb].
  f_equal. euclid.
Qed.

Lemma bit2_rol a b p : 0 <= p < 64 -> bit2 ((a << 1 .| a >>> 31 & 1)%js, b) p = bit2 (a, b) (rol_at p).
Proof.
  intros. unfold bit2, rol_at. cbn [fst snd]. destruct (Z.ltb_spec p 32) as [Hl|Hl].
  - rewrite testbit_rol1 by lia. destruct (Z.ltb_spec ((p + 31) mod 32) 32) as [|Hg]; [easy|].
    pose proof (Z.mod_pos_bound (p + 31) 32). lia.
  - destruct (Z.ltb_spec p 32); [lia|easy].
Qed.

Lemma bit2_ror a b p : 0 <= p < 64 -> bit2 ((a << 31 .| a >>> 1)%js, b) p = bit2 (a, b) (ror_at p).
Proof.
  intros. unfold bit2, ror_at. cbn [fst snd]. destruct (Z.ltb_spec p 32) as [Hl|Hl].
  - rewrite testbit_ror1 by lia. destruct (Z.ltb_spec ((p + 1) mod 32) 32) as [|Hg]; [easy|].
    pose proof (Z.mod_pos_bound (p + 1) 32). lia.
  - destruct (Z.ltb_spec p 32); [lia|easy].
Qed.

(** [F] moves bit [at_ p] of its argument to place [p]. *)
Definition Moves (F : Z * Z -> Z * Z) (at_ : Z -> Z) : Prop :=
  forall ab p, 0 <= p < 64 -> 0 <= at_ p < 64 /\ bit2 (F ab) p = bit2 ab (at_ p).

Lemma moves_comp F f G g : Moves F f -> Moves G g -> Moves (fun ab => G (F ab)) (fun p => f (g p)).
Proof.
  intros HF HG ab p Hp. destruct (HG (F ab) p Hp) as [Hg Eg]. destruct (HF ab (g p) Hg) as [Hf Ef].
  split; [exact Hf|]. now rewrite Eg.
Qed.

Lemma moves_of F at_ : forallb (fun p => (0 <=? at_ p) && (at_ p <? 64)) (upto 64) = true ->
  (forall a b p, 0 <= p < 64 -> bit2 (F (a, b)) p = bit2 (a, b) (at_ p)) -> Moves F at_.
Proof.
  intros Hc H [a b] p Hp. split; [|now apply H].
  apply (forall_upto _ _ Hc) in Hp. bool_prop. lia.
Qed.

Definition flip (ab : Z * Z) : Z * Z := (snd ab, fst ab).
Definition rol1 (ab : Z * Z) : Z * Z := let '(a, b) := ab in ((a << 1 .| a >>> 31 & 1)%js, b).
Definition ror1 (ab : Z * Z) : Z * Z := let '(a, b) := ab in ((a << 31 .| a >>> 1)%js, b).
Definition exchange (mask : Z) (ab : Z * Z) : Z * Z :=
  let '(a, b) := ab in let x := ((a .^ b) & mask)%js in ((a .^ x)%js, (b .^ x)%js).

Lemma moves_flip : Moves flip flip_at.
Proof. apply moves_of; [reflexivity|]. intros a b p Hp. now apply bit2_flip. Qed.
Lemma moves_rol : Moves rol1 rol_at.
Proof. apply moves_of; [reflexivity|]. intros a b p Hp. now apply bit2_rol. Qed.
Lemma moves_ror : Moves ror1 ror_at.
Proof. apply moves_of; [reflexivity|]. intros a b p Hp. now apply bit2_ror. Qed.
Lemma moves_exchange : Moves (exchange 2863311530) (swap_at 0 2863311530).
Proof. apply moves_of; [reflexivity|]. intros a b p Hp. now apply bit2_exchange. Qed.
Lemma moves_swap4 : Moves (swap 4 252645135) (swap_at 4 252645135).
Proof. apply moves_of; [reflexivity|]. intros a b p Hp. apply bit2_swap; lia. Qed.
Lemma moves_swap16 : Moves (swap 16 65535) (swap_at 16 65535).
Proof. apply moves_of; [reflexivity|]. intros a b p Hp. apply bit2_swap; lia. Qed.
Lemma moves_swap2 : Moves (swap 2 858993459) (swap_at 2 858993459).
Proof. apply moves_of; [reflexivity|]. intros a b p Hp. apply bit2_swap; lia. Qed.
Lemma moves_swap8 : Moves (swap 8 16711935) (swap_at 8 16711935).
Proof. apply moves_of; [reflexivity|]. intros a b p Hp. apply bit2_swap; lia. Qed.

Definition initial_at (p : Z) : Z :=
  swap_at 4 252645135 (swap_at 16 65535 (flip_at (swap_at 2 858993459 (swap_at 8 16711935
    (rol_at (flip_at (swap_at 0 2863311530 (rol_at p)))))))).

Lemma moves_initial : Moves (fun lr => initial (fst lr) (snd lr)) initial_at.
Proof.
  assert (H : Moves (fun ab => rol1 (exchange 2863311530 (flip (rol1 (swap 8 16711935 (swap 2 858993459 (flip
    (swap 16 65535 (swap 4 252645135 ab))))))))) initial_at).
  { unfold initial_at.
    exact (moves_comp _ _ _ _ (moves_comp _ _ _ _ (moves_comp _ _ _ _ (moves_comp _ _ _ _ (moves_comp _ _ _ _
      (moves_comp _ _ _ _ (moves_comp _ _ _ _ (moves_comp _ _ _ _ moves_swap4 moves_swap16) moves_flip) moves_swap2)
      moves_swap8) moves_rol) moves_flip) moves_exchange) moves_rol). }
  intros [a b] p Hp. specialize (H (a, b) p Hp) as [Hr He]. split; [exact Hr|]. rewrite <- He. clear.
  cbn [fst snd]. unfold initial. destruct (swap 4 _ _) as [a1 b1]. destruct (swap 16 _ _) as [a2 b2]. cbn [flip fst snd].
  destruct (swap 2 _ _) as [a3 b3]. destruct (swap 8 _ _) as [a4 b4]. reflexivity.
Qed.

(** The result of [final] as [enc8] reads it: the words [r] and [l]. *)
Definition final_at (p : Z) : Z :=
  flip_at (ror_at (flip_at (swap_at 0 2863311530 (ror_at (swap_at 8 16711935 (swap_at 2 858993459
    (flip_at (swap_at 16 65535 (swap_at 4 252645135 p))))))))).

Lemma moves_final : Moves (fun lr => final (fst lr) (snd lr)) final_at.
Proof.
  assert (H : Moves (fun ab => swap 4 252645135 (swap 16 65535 (flip (swap 2 858993459 (swap 8 16711935
    (ror1 (exchange 2863311530 (flip (ror1 (flip ab)))))))))) final_at).
  { unfold final_at.
    exact (moves_comp _ _ _ _ (moves_comp _ _ _ _ (moves_comp _ _ _ _ (moves_comp _ _ _ _ (moves_comp _ _ _ _
      (moves_comp _ _ _ _ (moves_comp _ _ _ _ (moves_comp _ _ _ _ (moves_comp _ _ _ _ moves_flip moves_ror) moves_flip)
      moves_exchange) moves_ror) moves_swap8) moves_swap2) moves_flip) moves_swap16) moves_swap4). }
  intros [a b] p Hp. specialize (H (a, b) p Hp) as [Hr He]. split; [exact Hr|]. rewrite <- He. clear.
  cbn [fst snd flip]. unfold final. cbn [ror1 flip fst snd exchange].
  destruct (swap 8 _ _) as [a1 b1]. destruct (swap 2 _ _) as [a2 b2]. cbn [flip fst snd].
  destruct (swap 16 _ _) as [a3 b3]. reflexivity.
Qed.

(** The two words as the standard numbers bits, and the same for words rotated
    by one position, as the code keeps the halves between the permutations. *)
Definition word_at (i : Z) : Z := if i <? 32 then 31 - i else 95 - i.
Definition half_at (i : Z) : Z := if i <? 32 then (32 - i) mod 32 else 32 + (64 - i) mod 32.

Definition words (ab : Z * Z) : list bool := map (fun i => bit2 ab (word_at i)) (upto 64).
Definition halves (ab : Z * Z) : list bool := map (fun i => bit2 ab (half_at i)) (upto 64).
Definition half (w : Z) : list bool := map (fun i => Z.testbit w ((32 - i) mod 32)) (upto 32).

Lemma halves_split l r : halves (l, r) = half l ++ half r.
Proof. reflexivity. Qed.

(** A stage compared with a table of the standard. *)
Lemma moves_permute F at_ out_at in_at t : Moves F at_ ->
  forallb (fun i => (0 <=? out_at i) && (out_at i <? 64)) (upto 64) = true ->
  forallb (fun i => (0 <? i) && (i <=? 64)) t = true ->
  map (fun i => at_ (out_at i)) (upto 64) = map (fun i => in_at (i - 1)) t ->
  forall ab, map (fun i => bit2 (F ab) (out_at i)) (upto 64) =
    Fips.permute t (map (fun i => bit2 ab (in_at i)) (upto 64)).
Proof.
  intros HF Hr Ht He ab. rewrite permute_range by exact Ht.
  rewrite <- (map_map (fun i => in_at (i - 1)) (bit2 ab)), <- He, map_map. apply map_upto_ext. intros i Hi.
  apply (forall_upto _ _ Hr) in Hi. apply HF. bool_prop. lia.
Qed.

Lemma initial_is_IP l r : halves (initial l r) = Fips.permute Fips.IP (words (l, r)).
Proof. exact (moves_permute _ _ half_at word_at Fips.IP moves_initial eq_refl eq_refl eq_refl (l, r)). Qed.

Lemma final_is_FP l r : words (final l r) = Fips.permute Fips.FP (half r ++ half l).
Proof. exact (moves_permute _ _ word_at (fun i => flip_at (half_at i)) Fips.FP moves_final eq_refl eq_refl eq_refl (l, r)). Qed.

(** * The Feistel function *)

Definition SP (k : Z) : list Z := nth (Z.to_nat k) [SP1; SP2; SP3; SP4; SP5; SP6; SP7; SP8] [].

(** The index into the table of box [k]. *)
Definition index (r k0 k1 k : Z) : Z :=
  ((if Z.even k then (r << 28 .| r >>> 4) .^ k0 else r .^ k1) >>> (24 - 8 * (k / 2)) & 63)%js.

Definition six (v : Z) : list bool := map (fun g => Z.testbit v (5 - g)) (upto 6).

Definition source_at (i : Z) : Z := zgetd Fips.P i - 1.

(** Every entry of every table: the four bits of the box, each where P and the
    rotation put it, and zeros. *)
Lemma tables_agree k v i : 0 <= k < 8 -> 0 <= v < 64 -> 0 <= i < 32 ->
  Z.testbit (zgetd (SP k) v) ((32 - i) mod 32) =
  (source_at i / 4 =? k) && Z.testbit (zgetd (Fips.box k) (Fips.entry (six v))) (3 - source_at i mod 4).
Proof.
  intros Hk Hv Hi.
  assert (H : forallb (fun k => forallb (fun v => forallb (fun i =>
    Bool.eqb (Z.testbit (zgetd (SP k) v) ((32 - i) mod 32))
      ((source_at i / 4 =? k) && Z.testbit (zgetd (Fips.box k) (Fips.entry (six v))) (3 - source_at i mod 4)))
    (upto 32)) (upto 64)) (upto 8) = true) by (vm_compute; reflexivity).
  apply (forall_upto _ _ H) in Hk. apply (forall_upto _ _ Hk) in Hv. apply (forall_upto _ _ Hv) in Hi.
  now apply eqb_prop in Hi.
Qed.

Lemma band_shr_0 a m : (a >>> 0 & m)%js = (a & m)%js.
Proof. unfold band. now rewrite shr_0, toInt32_wrap32. Qed.

Lemma index_range r k0 k1 k : 0 <= index r k0 k1 k < 64.
Proof. unfold index. rewrite (band_ones _ 6) by lia. apply Z.mod_pos_bound. lia. Qed.

Lemma testbit_fval r k0 k1 i : 0 <= i < 32 ->
  Z.testbit (fval r k0 k1) i = existsb (fun k => Z.testbit (zgetd (SP k) (index r k0 k1 k)) i) (upto 8).
Proof.
  intros Hi. unfold fval. rewrite !testbit_bor by lia. unfold index.
  change (upto 8) with [0; 1; 2; 3; 4; 5; 6; 7]. cbn [existsb Z.even Z.div].
  change (24 - 8 * (0 / 2)) with 24. change (24 - 8 * (1 / 2)) with 24. change (24 - 8 * (2 / 2)) with 16.
  change (24 - 8 * (3 / 2)) with 16. change (24 - 8 * (4 / 2)) with 8. change (24 - 8 * (5 / 2)) with 8.
  change (24 - 8 * (6 / 2)) with 0. change (24 - 8 * (7 / 2)) with 0. rewrite !band_shr_0.
  change (SP 0) with SP1. change (SP 1) with SP2. change (SP 2) with SP3. change (SP 3) with SP4.
  change (SP 4) with SP5. change (SP 5) with SP6. change (SP 6) with SP7. change (SP 7) with SP8.
  btauto.
Qed.

(** The words of a round and the key of the standard. *)
Definition key_at (j : Z) : Z := 24 - 8 * (j / 12) + 5 - j mod 6.
Definition key_bits (k0 k1 : Z) : list bool :=
  map (fun j => Z.testbit (if Z.even (j / 6) then k0 else k1) (key_at j)) (upto 48).

Definition expanded_at (j : Z) : Z := (32 - (zgetd Fips.E j - 1)) mod 32.

Lemma expanded r k0 k1 : Fips.xorl (Fips.permute Fips.E (half r)) (key_bits k0 k1) =
  map (fun j => xorb (Z.testbit r (expanded_at j)) (Z.testbit (if Z.even (j / 6) then k0 else k1) (key_at j))) (upto 48).
Proof. unfold half. rewrite permute_range by reflexivity. reflexivity. Qed.

Lemma testbit_index r k0 k1 k b : 0 <= k < 8 -> 0 <= b < 6 ->
  let s := 24 - 8 * (k / 2) in
  Z.testbit (index r k0 k1 k) b =
  xorb (Z.testbit r ((s + b + (if Z.even k then 4 else 0)) mod 32)) (Z.testbit (if Z.even k then k0 else k1) (s + b)).
Proof.
  intros Hk Hb s. assert (Hs : 0 <= s <= 24) by (subst s; euclid).
  unfold index. fold s. rewrite testbit_band, testbit_shr by lia.
  change 63 with (Z.ones 6). rewrite (Z.ones_spec_low 6 b), andb_true_r by lia.
  destruct (Z.ltb_spec (b + s) 32); [cbn [andb]|lia]. rewrite (Z.add_comm b s).
  destruct (Z.even k); rewrite testbit_bxor by lia; f_equal; [|f_equal; rewrite Z.mod_small; lia].
  rewrite testbit_bor, testbit_shl, testbit_shr by lia.
  destruct (Z.leb_spec 28 (s + b)), (Z.ltb_spec (s + b + 4) 32); try lia; cbn [andb orb]; rewrite ?orb_false_r;
    f_equal; euclid.
Qed.

Lemma group_is_index r k0 k1 k : 0 <= k < 8 ->
  Fips.group k (Fips.xorl (Fips.permute Fips.E (half r)) (key_bits k0 k1)) = six (index r k0 k1 k).
Proof.
  intros Hk. rewrite expanded. unfold Fips.group, six.
  transitivity (map (fun g => let j := 6 * k + g in
    xorb (Z.testbit r (expanded_at j)) (Z.testbit (if Z.even (j / 6) then k0 else k1) (key_at j))) (upto 6)).
  - apply in_upto in Hk. revert Hk. change (upto 8) with [0; 1; 2; 3; 4; 5; 6; 7]. cbn [In].
    intros [<-|[<-|[<-|[<-|[<-|[<-|[<-|[<-|[]]]]]]]]]; reflexivity.
  - apply map_upto_ext. intros g Hg. cbn zeta. rewrite testbit_index by lia.
    assert (E : forallb (fun k => forallb (fun g =>
      (expanded_at (6 * k + g) =? (24 - 8 * (k / 2) + (5 - g) + (if Z.even k then 4 else 0)) mod 32) &&
      (key_at (6 * k + g) =? 24 - 8 * (k / 2) + (5 - g)) && ((6 * k + g) / 6 =? k)) (upto 6)) (upto 8) = true)
      by reflexivity.
    apply (forall_upto _ _ E) in Hk. apply (forall_upto _ _ Hk) in Hg.
    apply andb_prop in Hg as [Hg H3]. apply andb_prop in Hg as [H1 H2]. apply Z.eqb_eq in H1, H2, H3.
    now rewrite H1, H2, H3.
Qed.

Lemma existsb_one (p : Z -> bool) n q : 0 <= q < n -> existsb (fun k => (q =? k) && p k) (upto n) = p q.
Proof.
  intros Hq. destruct (p q) eqn:E.
  - apply existsb_exists. exists q. split; [now apply in_upto|]. now rewrite Z.eqb_refl, E.
  - apply not_true_is_false. intros H. apply existsb_exists in H as (k & _ & H).
    apply andb_prop in H as [H1 H2]. apply Z.eqb_eq in H1. congruence.
Qed.

Lemma source_range i : 0 <= i < 32 -> 0 <= source_at i < 32.
Proof.
  intros Hi. assert (H : forallb (fun i => (0 <=? source_at i) && (source_at i <? 32)) (upto 32) = true) by reflexivity.
  apply (forall_upto _ _ H) in Hi. bool_prop. lia.
Qed.

Lemma fval_is_f r k0 k1 : half (fval r k0 k1) = Fips.f (half r) (key_bits k0 k1).
Proof.
  unfold Fips.f, Fips.substitute. set (x := Fips.xorl _ _).
  transitivity (Fips.permute Fips.P (map (fun q =>
    Z.testbit (zgetd (Fips.box (q / 4)) (Fips.entry (Fips.group (q / 4) x))) (3 - q mod 4)) (upto 32))).
  2: reflexivity.
  rewrite permute_range by reflexivity. change Fips.P with (map (zgetd Fips.P) (upto 32)). rewrite map_map.
  apply map_upto_ext. intros i Hi. fold (source_at i). pose proof (source_range i Hi) as Hs.
  assert (Hk : 0 <= source_at i / 4 < 8) by euclid.
  subst x. rewrite group_is_index by exact Hk. rewrite testbit_fval by euclid.
  rewrite <- (existsb_one (fun k => Z.testbit (zgetd (Fips.box k) (Fips.entry (six (index r k0 k1 k)))) (3 - source_at i mod 4))
    8) by exact Hk.
  assert (E : forall l, (forall k, In k l -> 0 <= k < 8) ->
    existsb (fun k => Z.testbit (zgetd (SP k) (index r k0 k1 k)) ((32 - i) mod 32)) l =
    existsb (fun k => (source_at i / 4 =? k) && Z.testbit (zgetd (Fips.box k) (Fips.entry (six (index r k0 k1 k)))) (3 - source_at i mod 4)) l).
  { induction l as [|k l IH]; intros Hl; [reflexivity|]. cbn [existsb].
    rewrite tables_agree by (auto using index_range with datatypes). f_equal. apply IH. auto with datatypes. }
  apply E. intros k. apply in_upto.
Qed.

Lemma xorl_map (f g : Z -> bool) l : Fips.xorl (map f l) (map g l) = map (fun i => xorb (f i) (g i)) l.
Proof. unfold Fips.xorl. induction l as [|i l IH]; [reflexivity|]. cbn [map combine fst snd]. now rewrite IH. Qed.

Lemma half_bxor a b : half (a .^ b)%js = Fips.xorl (half a) (half b).
Proof.
  unfold half. rewrite xorl_map. apply map_upto_ext. intros i Hi. rewrite testbit_bxor by euclid. reflexivity.
Qed.

(** * The rounds *)

(** [n] double rounds are [2 n] rounds of the standard. *)
Lemma rounds_feistel n : forall keys keysi l r,
  let '(l', r') := rounds n keys keysi l r in
  Fips.feistel (map (fun i => key_bits (zgetd keys (keysi + 2 * i)) (zgetd keys (keysi + 2 * i + 1))) (upto (2 * Z.of_nat n)))
    (half l) (half r) = (half l', half r').
Proof.
  induction n as [|n IH]; intros keys keysi l r; [reflexivity|]. cbn [rounds].
  set (l1 := (l .^ _)%js). set (r1 := (r .^ _)%js). specialize (IH keys (keysi + 4) l1 r1).
  destruct (rounds n keys (keysi + 4) l1 r1) as [l' r']. rewrite <- IH. clear IH.
  replace (2 * Z.of_nat (S n)) with (2 + 2 * Z.of_nat n) by lia.
  unfold upto. rewrite Z2Nat.inj_add by lia. change (Z.to_nat 2) with 2%nat. cbn [Nat.add seq map Fips.feistel].
  rewrite <- !fval_is_f, <- !half_bxor.
  change (keysi + 2 * Z.of_nat 0) with (keysi + 0). rewrite Z.add_0_r.
  fold l1. change (Z.of_nat 1) with 1. replace (keysi + 2 * 1) with (keysi + 2) by lia.
  replace (keysi + 2 + 1) with (keysi + 3) by lia.
  rewrite <- fval_is_f, <- half_bxor. fold r1. f_equal.
  rewrite <- !seq_shift, !map_map. apply map_ext. intros i.
  f_equal; f_equal; lia.
Qed.

(** * The key schedule *)

(** Bit [i] of the key in the standard's order. *)
Definition kb (password : list Z) (i : Z) : bool := Z.testbit (zgetd password (i / 8)) (i mod 8).

(** The values of [l] in the first loop. *)
Fixpoint pc1_at (n : nat) (l : Z) : list Z :=
  match n with
  | O => []
  | S n =>
      let l := l + (if l <? -5 then 65 else if l <? -3 then 31 else if l <? -1 then 63
                    else if l =? 27 then 35 else 0) in
      l :: pc1_at n (l - 8)
  end.

Lemma pc1_loop_bits password n : forall l, forallb (fun l => (0 <=? l) && (l <? 64)) (pc1_at n l) = true ->
  pc1_loop n l password = map (fun i => Z.b2z (kb password i)) (pc1_at n l).
Proof.
  induction n as [|n IH]; intros l H; [reflexivity|]. cbn [pc1_loop pc1_at map forallb] in *. cbn zeta in *.
  set (m := l + _) in *. apply andb_prop in H as [Hm H]. rewrite (IH _ H). f_equal.
  assert (0 <= m < 64) by (bool_prop; lia). unfold kb.
  change 7 with (2 ^ 3 - 1) at 1. rewrite band_ones, band_bit, negb_involutive, shr_small by (try lia; euclid).
  reflexivity.
Qed.

Definition PC1_at : list Z := map (fun i => i - 1) Fips.PC1.

Lemma pc1m_bits password : pc1m password = map (fun i => Z.b2z (kb password i)) PC1_at.
Proof. exact (pc1_loop_bits password 56 56 eq_refl). Qed.

Lemma testbit_kn_fold (c : Z -> bool) b js : 0 <= b < 32 -> (forall j, In j js -> 0 <= j < 24) -> forall k,
  Z.testbit (fold_left (fun k j => if c j then (k .| (1 << (23 - j)))%js else k) js k) b =
  Z.testbit k b || existsb (fun j => (23 - b =? j) && c j) js.
Proof.
  intros Hb. induction js as [|j js IH]; intros Hjs k; cbn [fold_left existsb]; [now rewrite orb_false_r|].
  rewrite IH by auto with datatypes. pose proof (Hjs j (or_introl eq_refl)) as Hj.
  destruct (c j); [|rewrite andb_false_r; reflexivity].
  rewrite testbit_bor, testbit_shl, andb_true_r, <- orb_assoc by lia. f_equal. f_equal.
  destruct (Z.leb_spec (23 - j) b), (Z.eqb_spec (23 - b) j); cbn [andb]; try lia; try reflexivity.
  - replace (b - (23 - j)) with 0 by lia. reflexivity.
  - change 1 with (2 ^ 0). now rewrite Z.pow2_bits_false by lia.
Qed.

(** Where a bit of the rotated halves comes from. *)
Definition rot_at (i j : Z) : Z :=
  let l := j + zgetd totrot i in if l <? (if j <? 28 then 28 else 56) then l else l - 28.

Lemma zgetd_pcr l i j : 0 <= j < 56 -> zgetd (pcr l i) j = zgetd l (rot_at i j).
Proof.
  intros Hj. unfold zgetd at 1, pcr. rewrite zget_map_upto by exact Hj. unfold rot_at. cbn zeta.
  now destruct (_ + _ <? _).
Qed.

Lemma testbit_kn password i from b : 0 <= i < 16 -> 0 <= b < 24 -> from = 0 \/ from = 24 ->
  Z.testbit (kn (pcr (pc1m password) i) from) b = kb password (zgetd PC1_at (rot_at i (zgetd PC2 (23 - b + from)))).
Proof.
  intros Hi Hb Hf. unfold kn. rewrite testbit_kn_fold; [|lia|intros j; apply in_upto]. rewrite Z.bits_0, orb_false_l.
  rewrite existsb_one by lia.
  assert (Hp : 0 <= zgetd PC2 (23 - b + from) < 56).
  { assert (E : forallb (fun j => (0 <=? zgetd PC2 j) && (zgetd PC2 j <? 56)) (upto 48) = true) by reflexivity.
    assert (Hj : 0 <= 23 - b + from < 48) by lia. apply (forall_upto _ _ E) in Hj. bool_prop. lia. }
  revert Hp. generalize (zgetd PC2 (23 - b + from)). intros j Hj.
  assert (Hr : 0 <= rot_at i j < 56).
  { assert (E : forallb (fun i => forallb (fun j => (0 <=? rot_at i j) && (rot_at i j <? 56)) (upto 56)) (upto 16) = true)
      by reflexivity.
    apply (forall_upto _ _ E) in Hi. apply (forall_upto _ _ Hi) in Hj. bool_prop. lia. }
  rewrite zgetd_pcr by exact Hj.
  rewrite pc1m_bits, zgetd_map by exact Hr. now destruct (kb _ _).
Qed.

(** The bits of a round key as the code collects them in two words. *)
Definition raw_bits (raw0 raw1 : Z) : list bool :=
  map (fun j => if j <? 24 then Z.testbit raw0 (23 - j) else Z.testbit raw1 (47 - j)) (upto 48).

Lemma cookey_bits raw0 raw1 :
  key_bits (zgetd (cookey raw0 raw1) 0) (zgetd (cookey raw0 raw1) 1) = raw_bits raw0 raw1.
Proof.
  unfold key_bits, raw_bits, cookey. apply map_upto_ext.
  change (zgetd [?a; ?b] 0) with a. change (zgetd [?a; ?b] 1) with b.
  each_in 48; match goal with
    |- Z.testbit (if ?b then _ else _) ?k = (if ?c then _ else _) => ground b; ground k; ground c
  end; cbn iota; bits_of_js; reflexivity.
Qed.

(** The words of round [i] against the key of the standard. *)
Definition round_key_at (i j : Z) : Z := zgetd PC1_at (rot_at i (zgetd PC2 j)).

Lemma round_key_bits password i : 0 <= i < 16 ->
  key_bits (zgetd (round_keys password i) 0) (zgetd (round_keys password i) 1) =
  map (fun j => kb password (round_key_at i j)) (upto 48).
Proof.
  intros Hi. unfold round_keys. rewrite cookey_bits. unfold raw_bits. apply map_upto_ext. intros j Hj.
  destruct (Z.ltb_spec j 24); rewrite testbit_kn by lia; unfold round_key_at; do 4 f_equal; lia.
Qed.

Lemma DES_words password : forall i, 0 <= i < 16 ->
  zgetd (DES password) (2 * i) = zgetd (round_keys password i) 0 /\
  zgetd (DES password) (2 * i + 1) = zgetd (round_keys password i) 1.
Proof.
  assert (H : forall (a b : Z -> Z) i, 0 <= i < 16 -> let l := flat_map (fun i => [a i; b i]) (upto 16) in
    zgetd l (2 * i) = a i /\ zgetd l (2 * i + 1) = b i) by (intros a b; each_in 16; split; reflexivity).
  unfold DES. rewrite (flat_map_ext _ (fun i => [zgetd (round_keys password i) 0; zgetd (round_keys password i) 1])).
  - intros i Hi. now destruct (H (fun i => zgetd (round_keys password i) 0) (fun i => zgetd (round_keys password i) 1) i Hi).
  - intros i. unfold round_keys, cookey. change (zgetd [?a; ?b] 0) with a. now change (zgetd [?a; ?b] 1) with b.
Qed.

Lemma vnc_key_bits password : vnc_key password = map (kb password) (upto 64).
Proof.
  unfold vnc_key. rewrite (upto_zgetd (ztake 8 (password ++ zrep 8 0)) 8) by (pose proof (zlen_nonneg password); zlia).
  transitivity (map (fun p => Z.testbit (zgetd (ztake 8 (password ++ zrep 8 0)) (p / 8)) (p mod 8)) (upto 64)); [reflexivity|].
  apply map_upto_ext. intros i Hi. unfold kb. f_equal. unfold zgetd.
  rewrite zget_ztake by euclid. destruct (Z_lt_le_dec (i / 8) (zlen password)) as [Hs|Hs]; [now rewrite zget_app_l|].
  rewrite zget_app_r, (zget_ge password) by lia. unfold zget. destruct (_ <? 0); [reflexivity|].
  destruct (nth_error (zrep 8 0) _) eqn:E; [|reflexivity]. apply nth_error_In in E. now apply repeat_spec in E.
Qed.

Lemma rotl_map {A B} (f : A -> B) n l : Fips.rotl n (map f l) = map f (Fips.rotl n l).
Proof. unfold Fips.rotl, zdrop, ztake. now rewrite skipn_map, firstn_map, map_app. Qed.

Lemma schedule_map {A B} (f : A -> B) ss : forall C D,
  Fips.schedule ss (map f C) (map f D) = map (map f) (Fips.schedule ss C D).
Proof.
  induction ss as [|s ss IH]; intros C D; [reflexivity|]. cbn [Fips.schedule map].
  now rewrite !rotl_map, <- map_app, permute_map, IH.
Qed.

Lemma keys_map {A B} (f : A -> B) key : Fips.keys (map f key) = map (map f) (Fips.keys key).
Proof.
  unfold Fips.keys. rewrite permute_map. unfold ztake, zdrop. rewrite firstn_map, skipn_map. apply schedule_map.
Qed.

Lemma keys_agree password :
  map (fun i => key_bits (zgetd (DES password) (2 * i)) (zgetd (DES password) (2 * i + 1))) (upto 16) =
  Fips.keys (vnc_key password).
Proof.
  rewrite vnc_key_bits, keys_map.
  replace (Fips.keys (upto 64)) with (map (fun i => map (round_key_at i) (upto 48)) (upto 16)) by (vm_compute; reflexivity).
  rewrite map_map. apply map_upto_ext. intros i Hi. destruct (DES_words password i Hi) as [-> ->].
  now rewrite round_key_bits, map_map.
Qed.

(** * Bytes and words *)

Lemma squash_bits text : bytes text -> zlen text = 8 -> words (squash text 0, squash text 4) = bits text.
Proof.
  intros Hb Hl. rewrite (upto_zgetd text 8 Hl) at 3.
  transitivity (map (fun p => Z.testbit (zgetd text (p / 8)) (7 - p mod 8)) (upto 64)); [|reflexivity].
  assert (Hz : forall k i, 8 <= i -> Z.testbit (zgetd text k) i = false).
  { intros k i. apply testbit_byte, bytes_zgetd, Hb. }
  unfold words, bit2, squash. apply map_upto_ext. cbn [fst snd].
  each_in 64; match goal with
    |- (if ?c then Z.testbit _ ?i else Z.testbit _ ?j) = Z.testbit (zgetd _ ?k) ?m => ground c; ground i; ground j; ground k; ground m
  end; cbn iota; bits_of_js;
  repeat match goal with |- context[zgetd text (?a + ?b)] => ground (a + b) end;
  repeat match goal with |- context[Z.testbit (zgetd text ?k) ?i] => rewrite (Hz k i) by lia end;
  rewrite ?orb_false_r; reflexivity.
Qed.

Lemma spread_bits r l : bits (spread [r; l]) = words (r, l).
Proof.
  transitivity (map (fun p => let k := p / 8 in
    Z.testbit ((zgetd [r; l] (k >>> 2)%js >>> (8 * (3 - k mod 4)))%js mod 256) (7 - p mod 8)) (upto 64)); [reflexivity|].
  unfold words, bit2. apply map_upto_ext. cbn zeta. intros p Hp. change 256 with (2 ^ 8).
  rewrite Z.mod_pow2_bits_low, testbit_shr by euclid. cbn [fst snd]. unfold word_at.
  rewrite shr_small by euclid.
  destruct (Z.ltb_spec (7 - p mod 8 + 8 * (3 - (p / 8) mod 4)) 32) as [_|]; [|euclid]. cbn [andb].
  destruct (Z.ltb_spec p 32).
  - replace (p / 8 / 2 ^ 2) with 0 by euclid. destruct (Z.ltb_spec (31 - p) 32); [|lia].
    change (zgetd [r; l] 0) with r. f_equal. euclid.
  - replace (p / 8 / 2 ^ 2) with 1 by euclid. destruct (Z.ltb_spec (95 - p) 32); [lia|].
    change (zgetd [r; l] 1) with l. f_equal. euclid.
Qed.

(** * The cipher is the standard's *)

Lemma enc8_bits password text : bytes text -> zlen text = 8 ->
  bits (enc8 (DES password) text) = Fips.encrypt (vnc_key password) (bits text).
Proof.
  intros Hb Hl. unfold enc8, Fips.encrypt, Fips.crypt.
  rewrite <- (squash_bits text Hb Hl), <- initial_is_IP, <- keys_agree. cbn zeta.
  destruct (initial (squash text 0) (squash text 4)) as [l r]. rewrite halves_split.
  change (ztake 32 (half l ++ half r)) with (half l). change (zdrop 32 (half l ++ half r)) with (half r).
  pose proof (rounds_feistel 8 (DES password) 0 l r) as Hr.
  destruct (rounds 8 (DES password) 0 l r) as [l1 r1]. change (2 * Z.of_nat 8) with 16 in Hr.
  rewrite (map_upto_ext _ (fun i => key_bits (zgetd (DES password) (2 * i)) (zgetd (DES password) (2 * i + 1)))) in Hr by easy.
  rewrite Hr, <- final_is_FP. destruct (final l1 r1) as [r2 l2]. apply spread_bits.
Qed.

(** * Decryption undoes encryption *)

Lemma length_range {A} (l : list A) (d : A) n : zlen l = n -> l = map (fun i => nth (Z.to_nat i) l d) (upto n).
Proof.
  intros <-. apply zget_ext; [now rewrite zlen_map_upto by apply zlen_nonneg|]. intros i Hi.
  rewrite zget_map_upto by exact Hi. unfold zget. destruct (Z.ltb_spec i 0); [lia|].
  apply nth_error_nth'. unfold zlen in Hi. lia.
Qed.

Lemma zlen_f R K : zlen (Fips.f R K) = 32.
Proof.
  unfold Fips.f. rewrite (length_range (Fips.substitute _) false 32) by reflexivity.
  rewrite permute_range by reflexivity. reflexivity.
Qed.

Lemma zlen_xorl a b : zlen a <= zlen b -> zlen (Fips.xorl a b) = zlen a.
Proof. unfold Fips.xorl, zlen. rewrite length_map, length_combine. lia. Qed.

Lemma xorl_twice a : forall b, zlen a <= zlen b -> Fips.xorl (Fips.xorl a b) b = a.
Proof.
  induction a as [|x a IH]; intros [|y b] H; try reflexivity.
  - rewrite zlen_cons, (zlen_nil (A := bool)) in H. pose proof (zlen_nonneg a). lia.
  - unfold Fips.xorl in *. cbn [combine map fst snd]. rewrite IH by (rewrite !zlen_cons in H; lia). f_equal.
    now destruct x, y.
Qed.

Lemma feistel_app ks1 ks2 : forall L R,
  Fips.feistel (ks1 ++ ks2) L R = let '(L, R) := Fips.feistel ks1 L R in Fips.feistel ks2 L R.
Proof. induction ks1 as [|K ks IH]; intros L R; [reflexivity|]. cbn [app Fips.feistel]. apply IH. Qed.

Lemma feistel_length ks : forall L R, zlen L = 32 -> zlen R = 32 ->
  let '(L', R') := Fips.feistel ks L R in zlen L' = 32 /\ zlen R' = 32.
Proof.
  induction ks as [|K ks IH]; intros L R HL HR; [now split|]. cbn [Fips.feistel]. apply IH; [exact HR|].
  rewrite zlen_xorl; rewrite ?zlen_f; lia.
Qed.

Lemma feistel_back ks : forall L R, zlen L = 32 -> zlen R = 32 ->
  let '(L', R') := Fips.feistel ks L R in Fips.feistel (rev ks) R' L' = (R, L).
Proof.
  induction ks as [|K ks IH]; intros L R HL HR; [reflexivity|]. cbn [Fips.feistel rev].
  assert (HX : zlen (Fips.xorl L (Fips.f R K)) = 32) by (rewrite zlen_xorl; rewrite ?zlen_f; lia).
  specialize (IH R _ HR HX). destruct (Fips.feistel ks R _) as [L' R'].
  rewrite feistel_app, IH. cbn [Fips.feistel]. rewrite xorl_twice; [reflexivity|]. rewrite zlen_f. lia.
Qed.

Lemma permute_inverse (x : list bool) : zlen x = 64 ->
  Fips.permute Fips.IP (Fips.permute Fips.FP x) = x /\ Fips.permute Fips.FP (Fips.permute Fips.IP x) = x.
Proof.
  intros H. rewrite (length_range x false 64 H). set (g := fun i => _).
  split; rewrite !(permute_map g); f_equal; reflexivity.
Qed.

Lemma crypt_back ks block : zlen block = 64 -> Fips.crypt (rev ks) (Fips.crypt ks block) = block.
Proof.
  intros H. destruct (permute_inverse block H) as [_ Hblock]. unfold Fips.crypt.
  set (x := Fips.permute Fips.IP block) in *. assert (Hx : zlen x = 64).
  { subst x. rewrite (length_range block false 64 H), (permute_map (fun i => nth (Z.to_nat i) block false)). reflexivity. }
  clearbody x. cbn zeta.
  pose proof (feistel_length ks (ztake 32 x) (zdrop 32 x)) as Hl. pose proof (feistel_back ks (ztake 32 x) (zdrop 32 x)) as Hb.
  destruct (Fips.feistel ks (ztake 32 x) (zdrop 32 x)) as [L R].
  destruct Hl as [HL HR]; [zlia|zlia|]. specialize (Hb ltac:(zlia) ltac:(zlia)).
  destruct (permute_inverse (R ++ L)) as [-> _]; [zlia|].
  rewrite <- HR at 1. rewrite ztake_app_exact. rewrite <- HR at 1. rewrite zdrop_app_exact, Hb, ztake_zdrop.
  exact Hblock.
Qed.

(** * Whole messages *)

Definition block (i : Z) (l : list Z) : list Z := zslice l (i * 8) (i * 8 + 8).

Lemma block_blit_same i x y : 0 <= i -> i * 8 + 8 <= zlen x -> zlen y = 8 -> block i (zblit x (i * 8) y) = y.
Proof.
  intros Hi Hx Hy. unfold block, zslice, zblit. rewrite zdrop_app, (zdrop_all _ (ztake (i * 8) x)), zlen_ztake, app_nil_l by (rewrite zlen_ztake; lia).
  replace (i * 8 - Z.min (Z.max 0 (i * 8)) (zlen x)) with 0 by lia.
  rewrite zdrop_nonpos, ztake_app_l by zlia. apply ztake_all. lia.
Qed.

Lemma block_blit_other i j x y : 0 <= i -> 0 <= j -> i <> j -> i * 8 + 8 <= zlen x -> zlen y = 8 ->
  block j (zblit x (i * 8) y) = block j x.
Proof.
  intros Hi Hj Hij Hx Hy. unfold block, zslice, zblit. rewrite Hy.
  destruct (Z_lt_le_dec j i) as [Hl|Hl].
  - rewrite zdrop_app_l, ztake_app_l by zlia. rewrite zdrop_ztake, ztake_ztake by lia. f_equal. lia.
  - rewrite app_assoc, zdrop_app, (zdrop_all _ (_ ++ y)) by (rewrite zlen_app, zlen_ztake; lia). rewrite zlen_app, zlen_ztake, app_nil_l, Hy.
    rewrite zdrop_zdrop by lia. do 2 f_equal. lia.
Qed.

(** A pass over the blocks in order, each replaced by its image; [E] may depend
    on what was written before. *)
Lemma ecb_fold E n : (forall b, zlen (E b) = 8) -> forall a x, zlen x >= 8 * Z.of_nat (a + n) ->
  let r := fold_left (fun x i => zblit x (i * 8) (E (block i x))) (map Z.of_nat (seq a n)) x in
  zlen r = zlen x /\ forall i, 0 <= i -> block i r =
    if (Z.of_nat a <=? i) && (i <? Z.of_nat (a + n)) then E (block i x) else block i x.
Proof.
  intros HE. induction n as [|n IH]; intros a x Hx; cbn [seq map fold_left].
  - split; [reflexivity|]. intros i Hi. destruct (Z.leb_spec (Z.of_nat a) i); cbn [andb]; [|reflexivity].
    destruct (Z.ltb_spec i (Z.of_nat (a + 0))); [lia|reflexivity].
  - set (x1 := zblit x _ _). assert (H1 : zlen x1 = zlen x) by (apply zlen_zblit; rewrite ?HE; lia).
    destruct (IH (S a) x1) as [Hl Hb]; [lia|]. split; [congruence|]. intros i Hi. rewrite Hb by exact Hi.
    replace (S a + n)%nat with (a + S n)%nat by lia.
    destruct (Z.eq_dec i (Z.of_nat a)) as [->|Hn].
    + destruct (Z.leb_spec (Z.of_nat (S a)) (Z.of_nat a)); [lia|]. destruct (Z.leb_spec (Z.of_nat a) (Z.of_nat a)); [|lia].
      destruct (Z.ltb_spec (Z.of_nat a) (Z.of_nat (a + S n))); [|lia]. cbn [andb].
      apply block_blit_same; rewrite ?HE; lia.
    + replace (block i x1) with (block i x) by (symmetry; apply block_blit_other; rewrite ?HE; lia).
      destruct (Z.leb_spec (Z.of_nat (S a)) i), (Z.leb_spec (Z.of_nat a) i); try lia; reflexivity.
Qed.

Lemma zlen_block i l : 0 <= i -> i * 8 + 8 <= zlen l -> zlen (block i l) = 8.
Proof. intros. unfold block. rewrite zlen_zslice; lia. Qed.

Lemma bits_64 l : zlen l = 8 -> zlen (bits l) = 64.
Proof. intros H. rewrite (upto_zgetd l 8 H). reflexivity. Qed.

(** C19.  The answer to the challenge of VNC authentication is the challenge encrypted
    by FIPS 46-3, block by block, under the password with the bits of each
    character reversed, and decrypting gives the challenge back. *)
Theorem des_is_fips password challenge : bytes challenge -> zlen challenge mod 8 = 0 ->
  exists r, genDES password challenge = Some r /\ zlen r = zlen challenge /\
  forall i, 0 <= i < zlen challenge / 8 ->
    bits (block i r) = Fips.encrypt (vnc_key password) (bits (block i challenge)) /\
    Fips.decrypt (vnc_key password) (bits (block i r)) = bits (block i challenge).
Proof.
  intros Hb Hm. pose proof (zlen_nonneg challenge) as Hn. unfold genDES, ecb_encrypt. rewrite Hm. cbn [Z.eqb negb].
  set (r := fold_left _ _ _). exists r. split; [reflexivity|].
  destruct (ecb_fold (enc8 (DES password)) (Z.to_nat (zlen challenge / 8)) (zlen_enc8 _) 0 challenge) as [Hl Hr];
    [euclid|]. split; [exact Hl|]. intros i Hi.
  assert (E : block i r = enc8 (DES password) (block i challenge)).
  { refine (eq_trans (Hr i _) _); [lia|]. cbn [Nat.add]. destruct (Z.leb_spec (Z.of_nat 0) i); [|lia].
    destruct (Z.ltb_spec i (Z.of_nat (Z.to_nat (zlen challenge / 8)))); [reflexivity|lia]. }
  assert (Hi8 : zlen (block i challenge) = 8) by (apply zlen_block; euclid).
  rewrite E, enc8_bits; [|apply bytes_zslice, Hb|exact Hi8]. split; [reflexivity|].
  apply crypt_back, bits_64, Hi8.
Qed.

Lemma des_is_fips_witness : exists r, genDES [112; 119] (zrep 16 7) = Some r /\ zlen r = 16 /\
  bits (block 1 r) = Fips.encrypt (vnc_key [112; 119]) (bits (zrep 8 7)).
Proof.
  destruct (des_is_fips [112; 119] (zrep 16 7)) as (r & E & Hl & H).
  - apply bytes_zrep. split; reflexivity || discriminate.
  - reflexivity.
  - exists r. split; [exact E|]. split; [exact Hl|]. destruct (H 1) as [H1 _]; [split; [discriminate|reflexivity]|].
    exact H1.
Defined.
