(* ===== verification/Md5.v ===== *)
(** MD5, core/crypto/md5.js.

    The 64 steps of the code are one nested expression; here they are four
    lists of (index of the word, rotation, constant) in the order of
    evaluation.  Md5Correct.v compares them with RFC 1321. *)

From Stdlib Require Import ZArith List Lia Bool String Ascii.
From S2P Require Import Prelude.
Import ListNotations JS JSFacts.
Open Scope Z_scope.

Module Md5.

(** * The code *)

Definition add (d g : Z) : Z :=
  let m := (65535 & d)%js + (65535 & g)%js in
  (((d >> 16)%js + (g >> 16)%js + (m >> 16)%js) << 16 .| (65535 & m))%js.

Definition rol (d g : Z) : Z := (d << g .| d >>> (32 - g))%js.

Definition cmn (d g m f r i : Z) : Z := add (rol (add (add g d) (add f i)) r) m.

Definition ff (d g m f r i n : Z) : Z := cmn (g & m .| bnot g & f)%js d g r i n.
Definition gg (d g m f r i n : Z) : Z := cmn (g & f .| m & bnot f)%js d g r i n.
Definition hh (d g m f r i n : Z) : Z := cmn (g .^ m .^ f)%js d g r i n.
Definition ii (d g m f r i n : Z) : Z := cmn (m .^ (g .| bnot f))%js d g r i n.

Definition ff_steps : list (Z * Z * Z) :=
  [(0, 7, -680876936); (1, 12, -389564586); (2, 17, 606105819); (3, 22, -1044525330);
   (4, 7, -176418897); (5, 12, 1200080426); (6, 17, -1473231341); (7, 22, -45705983);
   (8, 7, 1770035416); (9, 12, -1958414417); (10, 17, -42063); (11, 22, -1990404162);
   (12, 7, 1804603682); (13, 12, -40341101); (14, 17, -1502002290); (15, 22, 1236535329)].
Definition gg_steps : list (Z * Z * Z) :=
  [(1, 5, -165796510); (6, 9, -1069501632); (11, 14, 643717713); (0, 20, -373897302);
   (5, 5, -701558691); (10, 9, 38016083); (15, 14, -660478335); (4, 20, -405537848);
   (9, 5, 568446438); (14, 9, -1019803690); (3, 14, -187363961); (8, 20, 1163531501);
   (13, 5, -1444681467); (2, 9, -51403784); (7, 14, 1735328473); (12, 20, -1926607734)].
Definition hh_steps : list (Z * Z * Z) :=
  [(5, 4, -378558); (8, 11, -2022574463); (11, 16, 1839030562); (14, 23, -35309556);
   (1, 4, -1530992060); (4, 11, 1272893353); (7, 16, -155497632); (10, 23, -1094730640);
   (13, 4, 681279174); (0, 11, -358537222); (3, 16, -722521979); (6, 23, 76029189);
   (9, 4, -640364487); (12, 11, -421815835); (15, 16, 530742520); (2, 23, -995338651)].
Definition ii_steps : list (Z * Z * Z) :=
  [(0, 6, -198630844); (7, 10, 1126891415); (14, 15, -1416354905); (5, 21, -57434055);
   (12, 6, 1700485571); (3, 10, -1894986606); (10, 15, -1051523); (1, 21, -2054922799);
   (8, 6, 1873313359); (15, 10, -30611744); (6, 15, -1560198380); (13, 21, 1309151649);
   (4, 6, -145523070); (11, 10, -1120210379); (2, 15, 718787259); (9, 21, -343485551)].

(** Steps on (m, f, r, i): each updates one variable, then they rotate. *)
Definition steps (fn : Z -> Z -> Z -> Z -> Z -> Z -> Z -> Z) (d : list Z) (n : Z) (l : list (Z * Z * Z))
    (v : Z * Z * Z * Z) : Z * Z * Z * Z :=
  fold_left (fun (v : Z * Z * Z * Z) (s : Z * Z * Z) =>
    let '(a, b, c, e) := v in
    let '(k, sh, t) := s in
    (e, fn a b c e (zgetd d (n + k)) sh t, b, c)) l v.

Definition block (d : list Z) (n : Z) (v : Z * Z * Z * Z) : Z * Z * Z * Z :=
  let '(h, t, g, e) := v in
  let '(m, f, r, i) :=
    steps ii d n ii_steps (steps hh d n hh_steps (steps gg d n gg_steps (steps ff d n ff_steps v))) in
  (add m h, add f t, add r g, add i e).

(** Assignment past the end extends the array. *)
Definition jset (l : list Z) (i v : Z) : list Z :=
  if zlen l <=? i then l ++ zrep (i - zlen l) 0 ++ [v] else zset l i v.

Definition blocks (d : list Z) (v : Z * Z * Z * Z) : Z * Z * Z * Z :=
  fold_left (fun v n => block d (16 * n) v) (upto ((zlen d + 15) / 16)) v.

Definition Y (d : list Z) (g : Z) : list Z :=
  let d := jset d (g >> 5)%js (zgetd d (g >> 5)%js .| 128 << (g mod 32))%js in
  let d := jset d (14 + ((g + 64) >>> 9 << 4)%js) g in
  let '(m, f, r, i) := blocks d (1732584193, -271733879, -1732584194, 271733878) in
  [m; f; r; i].

(** The characters packed into words, least significant byte first. *)
Definition X (d : list Z) : list Z :=
  fold_left (fun r j =>
    let m := 8 * j in
    jset r (m >> 5)%js (zgetd r (m >> 5)%js .| (255 & zgetd d j) << (m mod 32))%js)
    (upto (zlen d)) (zrep (zlen d >> 2)%js 0).

Definition V (d : list Z) : list Z :=
  map (fun j => let m := 8 * j in (zgetd d (m >> 5)%js >>> (m mod 32) & 255)%js)
    (upto (4 * zlen d)).

(** [M] turns the characters back into bytes. *)
Definition MD5 (d : list Z) : list Z := map toUint8 (V (Y (X d) (8 * zlen d))).

End Md5.
