(* ===== verification/Md5Correct.v ===== *)
(** MD5 of core/crypto/md5.js compared with RFC 1321.

    The code computes on signed 32-bit integers and on an array of words that
    it extends past its end; the RFC, module [Rfc1321], is written on lists of
    bytes and unsigned words.  Messages up to 2^28 bytes are covered: the code
    converts the length in bits to a signed 32-bit integer. *)

From Stdlib Require Import ZArith List Lia Bool Btauto.
From S2P Require Import Prelude Md5.
Import ListNotations JS JSFacts Md5.
Open Scope Z_scope.

(** * RFC 1321 *)
Module Rfc1321.

(** The integer parts of 4294967296 times |sin i|, for i from 1. *)
Definition T : list Z :=
  [3614090360; 3905402710; 606105819; 3250441966; 4118548399; 1200080426;
   2821735955; 4249261313; 1770035416; 2336552879; 4294925233; 2304563134;
   1804603682; 4254626195; 2792965006; 1236535329; 4129170786; 3225465664;
   643717713; 3921069994; 3593408605; 38016083; 3634488961; 3889429448;
   568446438; 3275163606; 4107603335; 1163531501; 2850285829; 4243563512;
   1735328473; 2368359562; 4294588738; 2272392833; 1839030562; 4259657740;
   2763975236; 1272893353; 4139469664; 3200236656; 681279174; 3936430074;
   3572445317; 76029189; 3654602809; 3873151461; 530742520; 3299628645;
   4096336452; 1126891415; 2878612391; 4237533241; 1700485571; 2399980690;
   4293915773; 2240044497; 1873313359; 4264355552; 2734768916; 1309151649;
   4149444226; 3174756917; 718787259; 3951481745].

Definition word (z : Z) : Z := z mod 4294967296.
Definition not (x : Z) : Z := Z.lxor x 4294967295.
Definition rotate (x s : Z) : Z := Z.lor (word (Z.shiftl x s)) (Z.shiftr x (32 - s)).

Definition F (x y z : Z) : Z := Z.lor (Z.land x y) (Z.land (not x) z).
Definition G (x y z : Z) : Z := Z.lor (Z.land x z) (Z.land y (not z)).
Definition H (x y z : Z) : Z := Z.lxor (Z.lxor x y) z.
Definition I (x y z : Z) : Z := Z.lxor y (Z.lor x (not z)).

(** The function, the word and the rotation of operation [i]. *)
Definition function (i : Z) : Z -> Z -> Z -> Z :=
  if i <? 16 then F else if i <? 32 then G else if i <? 48 then H else I.
Definition index (i : Z) : Z :=
  if i <? 16 then i else if i <? 32 then (5 * i + 1) mod 16
  else if i <? 48 then (3 * i + 5) mod 16 else 7 * i mod 16.
Definition shift (i : Z) : Z :=
  let t := if i <? 16 then [7; 12; 17; 22] else if i <? 32 then [5; 9; 14; 20]
           else if i <? 48 then [4; 11; 16; 23] else [6; 10; 15; 21] in
  zgetd t (i mod 4).

Definition state : Type := Z * Z * Z * Z.

(** [a = b + ((a + f(b,c,d) + X[k] + T[i]) <<< s)], and the registers move on. *)
Definition operation (X : list Z) (v : state) (i : Z) : state :=
  let '(a, b, c, d) := v in
  (d, word (b + rotate (word (a + function i b c d + zgetd X (index i) + zgetd T i)) (shift i)), b, c).

Definition process (v : state) (X : list Z) : state :=
  let '(a, b, c, d) := v in
  let '(a', b', c', d') := fold_left (operation X) (upto 64) v in
  (word (a + a'), word (b + b'), word (c + c'), word (d + d')).

(** The [n] low-order bytes, least significant first. *)
Definition little (n z : Z) : list Z := map (fun k => z / 256 ^ k mod 256) (upto n).
Definition unlittle (b : list Z) : Z :=
  zgetd b 0 + 256 * zgetd b 1 + 65536 * zgetd b 2 + 16777216 * zgetd b 3.

(** One bit and zeros up to 56 modulo 64 bytes, then the length in bits. *)
Definition pad (m : list Z) : list Z :=
  m ++ [128] ++ zrep ((55 - zlen m) mod 64) 0 ++ little 8 (8 * zlen m).

(** Word [j] of block [n]. *)
Definition block (p : list Z) (n : Z) : list Z :=
  map (fun j => let a := 64 * n + 4 * j in unlittle (zslice p a (a + 4))) (upto 16).

Definition digest (m : list Z) : list Z :=
  let p := pad m in
  let '(a, b, c, d) := fold_left process (map (block p) (upto (zlen p / 64)))
    (1732584193, 4023233417, 2562383102, 271733878) in
  little 4 a ++ little 4 b ++ little 4 c ++ little 4 d.

End Rfc1321.

(** The RFC's test suite, in part. *)
Example rfc_empty : Rfc1321.digest [] =
  [212; 29; 140; 217; 143; 0; 178; 4; 233; 128; 9; 152; 236; 248; 66; 126].
Proof. vm_compute. reflexivity. Qed.

(** "abc" *)
Example rfc_abc : Rfc1321.digest [97; 98; 99] =
  [144; 1; 80; 152; 60; 210; 79; 176; 214; 150; 63; 125; 40; 225; 127; 114].
Proof. vm_compute. reflexivity. Qed.

(** * The operations on words *)

Lemma wrap_bor a b : wrap32 (a .| b)%js = Z.lor (wrap32 a) (wrap32 b).
Proof.
  apply Z.bits_inj'. intros i Hi. rewrite Z.lor_spec, !testbit_wrap32. destruct (Z.ltb_spec i 32); [|reflexivity].
  now rewrite testbit_bor by lia.
Qed.

Lemma band_65535 a : (65535 & a)%js = a mod 65536.
Proof.
  unfold band. rewrite Z.land_comm. change (Z.land (toInt32 a) (toInt32 65535)) with (Z.land (toInt32 a) (Z.ones 16)).
  rewrite Z.land_ones by lia. change (2 ^ 16) with 65536. destruct (toInt32_cong a) as [k ->]. euclid.
Qed.

Lemma wrap_shl_bor q c k : 0 <= k < 32 -> 0 <= c < 2 ^ k -> wrap32 (q << k .| c)%js = wrap32 (q * 2 ^ k + c).
Proof.
  intros Hk Hc. rewrite wrap_bor, wrap32_shl by lia. rewrite <- lor_add by lia.
  apply Z.bits_inj'. intros i Hi. rewrite Z.lor_spec, !testbit_wrap32, Z.lor_spec. now destruct (i <? 32).
Qed.

Lemma wrap_add d g : wrap32 (add d g) = wrap32 (d + g).
Proof.
  unfold add. rewrite !band_65535. set (m := d mod 65536 + g mod 65536). rewrite wrap_shl_bor by (try lia; apply Z.mod_pos_bound; lia).
  rewrite (sar_small m) by (subst m; lia || euclid). unfold sar. rewrite !Z.shiftr_div_pow2 by easy.
  change (2 ^ (16 mod 32)) with 65536. change (2 ^ 16) with 65536. subst m.
  destruct (toInt32_cong d) as [k Hd], (toInt32_cong g) as [j Hg].
  unfold wrap32. rewrite <- (Z_mod_plus_full (d + g) (k + j) 4294967296).
  f_equal. replace (d + g + (k + j) * 4294967296) with (toInt32 d + toInt32 g) by lia.
  replace (d mod 65536) with (toInt32 d mod 65536) by euclid. replace (g mod 65536) with (toInt32 g mod 65536) by euclid.
  euclid.
Qed.

Lemma wrap_rol d s : 0 < s < 32 -> wrap32 (rol d s) = Rfc1321.rotate (wrap32 d) s.
Proof.
  intros Hs. unfold rol, Rfc1321.rotate. rewrite wrap_bor. apply Z.bits_inj'. intros i Hi.
  change Rfc1321.word with wrap32. rewrite !Z.lor_spec, !testbit_wrap32, Z.shiftl_spec, Z.shiftr_spec, testbit_wrap32 by lia.
  destruct (Z.ltb_spec i 32); cbn [andb].
  - rewrite testbit_shl, testbit_shr, testbit_wrap32 by lia.
    destruct (Z.leb_spec s i), (Z.ltb_spec (i - s) 32); try lia; cbn [andb]; [reflexivity|].
    now rewrite (Z.testbit_neg_r d (i - s)) by lia.
  - rewrite testbit_wrap32. destruct (Z.ltb_spec (i + (32 - s)) 32); [lia|reflexivity].
Qed.

Lemma testbit_not x i : 0 <= i < 32 -> Z.testbit (Rfc1321.not x) i = negb (Z.testbit x i).
Proof.
  intros Hi. unfold Rfc1321.not. rewrite Z.lxor_spec. change 4294967295 with (Z.ones 32).
  rewrite Z.ones_spec_low by lia. now destruct (Z.testbit x i).
Qed.

Lemma testbit_high x i : 0 <= x < 4294967296 -> 32 <= i -> Z.testbit x i = false.
Proof.
  intros Hx Hi. destruct (Z.testbit x i) eqn:E; [|reflexivity]. apply (mask_high x 32) in E; [lia|lia|exact Hx].
Qed.

(** A word is its 32 bits. *)
Lemma word_ext x y : 0 <= x < 4294967296 -> 0 <= y < 4294967296 ->
  (forall i, 0 <= i < 32 -> Z.testbit x i = Z.testbit y i) -> x = y.
Proof.
  intros Hx Hy H. apply Z.bits_inj'. intros i Hi. destruct (Z_lt_le_dec i 32); [now apply H|].
  now rewrite !testbit_high by lia.
Qed.

Lemma F_range x y z : 0 <= x < 4294967296 -> 0 <= y < 4294967296 -> 0 <= z < 4294967296 ->
  Forall (fun w => wrap32 w = w) [Rfc1321.F x y z; Rfc1321.G x y z; Rfc1321.H x y z; Rfc1321.I x y z].
Proof.
  intros Hx Hy Hz.
  assert (N : forall w i, 0 <= w < 4294967296 -> 32 <= i -> Z.testbit (Rfc1321.not w) i = false).
  { intros w i Hw Hi. unfold Rfc1321.not. rewrite Z.lxor_spec, !testbit_high by lia. reflexivity. }
  unfold Rfc1321.F, Rfc1321.G, Rfc1321.H, Rfc1321.I.
  repeat constructor; apply Z.bits_inj'; intros i Hi; rewrite testbit_wrap32; (destruct (Z.ltb_spec i 32); [reflexivity|]);
    rewrite ?Z.lor_spec, ?Z.land_spec, ?Z.lxor_spec, ?Z.lor_spec, ?N, ?testbit_high by lia; reflexivity.
Qed.

(** The functions of the code, on words. *)
Lemma wrap_functions b c e : let W := wrap32 in
  W (b & c .| bnot b & e)%js = Rfc1321.F (W b) (W c) (W e) /\ W (b & e .| c & bnot e)%js = Rfc1321.G (W b) (W c) (W e) /\
  W (b .^ c .^ e)%js = Rfc1321.H (W b) (W c) (W e) /\ W (c .^ (b .| bnot e))%js = Rfc1321.I (W b) (W c) (W e).
Proof.
  cbn zeta. pose proof (F_range _ _ _ (wrap32_range b) (wrap32_range c) (wrap32_range e)) as H.
  inversion_clear H as [|? ? EF H']. inversion_clear H' as [|? ? EG H]. inversion_clear H as [|? ? EH H'].
  inversion_clear H' as [|? ? EI _]. rewrite <- EF, <- EG, <- EH, <- EI.
  repeat split; apply word_ext; try apply wrap32_range; intros i Hi;
    unfold Rfc1321.F, Rfc1321.G, Rfc1321.H, Rfc1321.I;
    rewrite !testbit_wrap32, ?Z.lor_spec, ?Z.land_spec, ?Z.lxor_spec, ?Z.lor_spec, ?testbit_not, !testbit_wrap32 by lia;
    (destruct (Z.ltb_spec i 32); [cbn [andb]|lia]);
    rewrite ?testbit_bor, ?testbit_bxor, ?testbit_bor, ?testbit_band, ?testbit_bnot by lia; reflexivity.
Qed.

(** One operation: [cmn] against the RFC's assignment. *)
Lemma wrap_cmn f a b x s t : 0 < s < 32 ->
  wrap32 (cmn f a b x s t) =
  Rfc1321.word (wrap32 b + Rfc1321.rotate (Rfc1321.word (wrap32 a + wrap32 f + wrap32 x + wrap32 t)) s).
Proof.
  intros Hs. unfold cmn. change Rfc1321.word with wrap32.
  assert (E : wrap32 (add (add a f) (add x t)) = wrap32 (wrap32 a + wrap32 f + wrap32 x + wrap32 t)).
  { rewrite wrap_add, <- wrap32_add_l, <- wrap32_add_r, !wrap_add, wrap32_add_l, wrap32_add_r. unfold wrap32. euclid. }
  rewrite wrap_add, <- wrap32_add_l, <- wrap32_add_r, wrap_rol, E, wrap32_add_l, Z.add_comm by exact Hs.
  now rewrite wrap32_add_l.
Qed.

(** The registers of the code and of the RFC. *)
Definition words (v : Z * Z * Z * Z) : Rfc1321.state :=
  let '(a, b, c, d) := v in (wrap32 a, wrap32 b, wrap32 c, wrap32 d).

(** A step of the code with function [g] of the RFC. *)
Definition operates (fn : Z -> Z -> Z -> Z -> Z -> Z -> Z -> Z) (g : Z -> Z -> Z -> Z) : Prop :=
  forall a b c e x s t, 0 < s < 32 -> wrap32 (fn a b c e x s t) =
    Rfc1321.word (wrap32 b + Rfc1321.rotate (Rfc1321.word (wrap32 a + g (wrap32 b) (wrap32 c) (wrap32 e) + wrap32 x + wrap32 t)) s).

Lemma functions_operate :
  operates ff Rfc1321.F /\ operates gg Rfc1321.G /\ operates hh Rfc1321.H /\ operates ii Rfc1321.I.
Proof.
  repeat split; intros a b c e x s t Hs; destruct (wrap_functions b c e) as (EF & EG & EH & EI);
    [rewrite <- EF|rewrite <- EG|rewrite <- EH|rewrite <- EI]; now apply wrap_cmn.
Qed.

(** A list of steps is operations [js] of the RFC with function [g]. *)
Definition steps_are (g : Z -> Z -> Z -> Z) (l : list (Z * Z * Z)) (js : list Z) : Prop :=
  Forall2 (fun p i => let '(k, s, t) := p in
    Rfc1321.function i = g /\ Rfc1321.index i = k /\ Rfc1321.shift i = s /\ zgetd Rfc1321.T i = wrap32 t /\
    0 < s < 32 /\ 0 <= k < 16) l js.

Lemma steps_operations fn g d n X l js :
  operates fn g ->
  (forall k, 0 <= k < 16 -> zgetd X k = wrap32 (zgetd d (n + k))) ->
  steps_are g l js -> forall v, words (steps fn d n l v) = fold_left (Rfc1321.operation X) js (words v).
Proof.
  intros Hfn HX Hs. unfold steps. induction Hs as [|[[k s] t] i l js (Hf & Hk & Hsh & Ht & Hr & Hb) _ IH]; intros v; [reflexivity|].
  cbn [fold_left]. rewrite IH. f_equal. destruct v as [[[a b] c] e]. cbn [words Rfc1321.operation].
  now rewrite Hfn, Hf, Hk, Hsh, Ht, HX by assumption.
Qed.

Lemma all_steps :
  steps_are Rfc1321.F ff_steps (upto 16) /\ steps_are Rfc1321.G gg_steps (map (Z.add 16) (upto 16)) /\
  steps_are Rfc1321.H hh_steps (map (Z.add 32) (upto 16)) /\ steps_are Rfc1321.I ii_steps (map (Z.add 48) (upto 16)).
Proof.
  unfold steps_are. repeat split; repeat (apply Forall2_cons || apply Forall2_nil); repeat split; reflexivity || discriminate.
Qed.

Lemma block_process d n X v :
  (forall k, 0 <= k < 16 -> zgetd X k = wrap32 (zgetd d (n + k))) ->
  words (block d n v) = Rfc1321.process (words v) X.
Proof.
  intros HX. unfold block, Rfc1321.process.
  change (upto 64) with (upto 16 ++ map (Z.add 16) (upto 16) ++ map (Z.add 32) (upto 16) ++ map (Z.add 48) (upto 16)).
  destruct all_steps as (Hf & Hg & Hh & Hi), functions_operate as (Of & Og & Oh & Oi). rewrite !fold_left_app.
  rewrite <- (steps_operations _ _ d n X _ _ Of HX Hf), <- (steps_operations _ _ d n X _ _ Og HX Hg),
    <- (steps_operations _ _ d n X _ _ Oh HX Hh), <- (steps_operations _ _ d n X _ _ Oi HX Hi).
  destruct v as [[[h t] g] e]. cbn [words]. destruct (steps ii _ _ _ _) as [[[m f] r] i]. cbn [words].
  change Rfc1321.word with wrap32. rewrite !wrap_add, !wrap32_add_l, !wrap32_add_r.
  now rewrite (Z.add_comm m), (Z.add_comm f), (Z.add_comm r), (Z.add_comm i).
Qed.

(** * The message as words *)

Lemma zlen_jset l i v : 0 <= i -> zlen (jset l i v) = Z.max (zlen l) (i + 1).
Proof.
  intros Hi. unfold jset. destruct (Z.leb_spec (zlen l) i).
  - rewrite !zlen_app, zlen_zrep. change (zlen [v]) with 1. lia.
  - rewrite zlen_zset. lia.
Qed.

Lemma zgetd_zrep n i : zgetd (zrep n 0) i = 0.
Proof.
  unfold zgetd, zget. destruct (i <? 0); [reflexivity|]. destruct (nth_error (zrep n 0) _) eqn:E; [|reflexivity].
  apply nth_error_In in E. now apply repeat_spec in E.
Qed.

Lemma zgetd_app l1 l2 i : 0 <= i -> zgetd (l1 ++ l2) i = if i <? zlen l1 then zgetd l1 i else zgetd l2 (i - zlen l1).
Proof.
  intros Hi. unfold zgetd. destruct (Z.ltb_spec i (zlen l1)); [now rewrite zget_app_l|now rewrite zget_app_r].
Qed.

Lemma zgetd_ge l i : zlen l <= i -> zgetd l i = 0.
Proof. intros H. unfold zgetd. now rewrite zget_ge. Qed.

Lemma zgetd_jset l i v j : 0 <= i -> 0 <= j -> zgetd (jset l i v) j = if j =? i then v else zgetd l j.
Proof.
  intros Hi Hj. pose proof (zlen_nonneg l). unfold jset. destruct (Z.leb_spec (zlen l) i).
  - rewrite zgetd_app by lia. destruct (Z.ltb_spec j (zlen l)); [destruct (Z.eqb_spec j i); [lia|reflexivity]|].
    rewrite zgetd_app, zlen_zrep by lia. rewrite (zgetd_ge l j) by lia.
    destruct (Z.ltb_spec (j - zlen l) (Z.max 0 (i - zlen l))).
    + rewrite zgetd_zrep. destruct (Z.eqb_spec j i); [lia|reflexivity].
    + destruct (Z.eqb_spec j i) as [->|]; [|apply zgetd_ge; change (zlen [v]) with 1; lia].
      replace (i - zlen l - Z.max 0 (i - zlen l)) with 0 by lia. reflexivity.
  - unfold zgetd. destruct (Z.eqb_spec j i) as [->|]; [now rewrite zget_zset_eq by lia|now rewrite zget_zset_ne by lia].
Qed.

(** The words of [r] hold the bytes [byte], the least significant first. *)
Definition packs (r : list Z) (byte : Z -> Z) : Prop :=
  forall w b, 0 <= w -> 0 <= b < 32 -> Z.testbit (zgetd r w) b = Z.testbit (byte (4 * w + b / 8)) (b mod 8).

(** [r[m >> 5] |= v << m % 32] for byte number [j], which was 0. *)
Definition put_byte (r : list Z) (j v : Z) : list Z :=
  jset r (8 * j >> 5)%js (zgetd r (8 * j >> 5)%js .| v << ((8 * j) mod 32))%js.

Lemma put_byte_packs r byte j v : 0 <= j -> 8 * j < 2147483648 -> is_byte v -> byte j = 0 -> packs r byte ->
  packs (put_byte r j v) (fun q => if q =? j then v else byte q).
Proof.
  intros Hj Hl Hv H0 Hr w b Hw Hb. unfold put_byte. rewrite sar_small by lia. change (2 ^ 5) with 32.
  replace (8 * j / 32) with (j / 4) by euclid. replace ((8 * j) mod 32) with (8 * (j mod 4)) by euclid.
  rewrite zgetd_jset by (euclid || lia). destruct (Z.eqb_spec w (j / 4)) as [->|Hn].
  - assert (Hm : 0 <= 8 * (j mod 4) < 32) by euclid. rewrite testbit_bor, testbit_shl, Hr by lia.
    destruct (Z.eqb_spec (4 * (j / 4) + b / 8) j) as [E|E].
    + rewrite E, H0, Z.bits_0. cbn [orb]. destruct (Z.leb_spec (8 * (j mod 4)) b); [|euclid]. cbn [andb]. f_equal. euclid.
    + replace ((8 * (j mod 4) <=? b) && Z.testbit v (b - 8 * (j mod 4))) with false; [apply orb_false_r|].
      destruct (Z.leb_spec (8 * (j mod 4)) b); [|reflexivity]. cbn [andb]. symmetry. apply testbit_byte; [exact Hv|euclid].
  - rewrite Hr by lia. destruct (Z.eqb_spec (4 * w + b / 8) j); [euclid|reflexivity].
Qed.

Lemma zlen_put_byte r j v : 0 <= j -> 8 * j < 2147483648 -> zlen (put_byte r j v) = Z.max (zlen r) (j / 4 + 1).
Proof.
  intros Hj Hl. unfold put_byte. rewrite zlen_jset; rewrite sar_small by lia; change (2 ^ 5) with 32; [|euclid].
  f_equal. euclid.
Qed.

Lemma packs_ext r f g : (forall q, 0 <= q -> f q = g q) -> packs r f -> packs r g.
Proof. intros E H w b Hw Hb. rewrite <- E by euclid. now apply H. Qed.

Lemma X_packs d : bytes d -> 8 * zlen d < 2147483648 -> packs (X d) (zgetd d) /\ zlen (X d) <= zlen d / 4 + 1.
Proof.
  intros Hd Hl. pose proof (zlen_nonneg d). unfold X.
  assert (H1 : forall n, 0 <= n <= zlen d ->
    let r := fold_left (fun r j => let m := 8 * j in
      jset r (m >> 5)%js (zgetd r (m >> 5)%js .| (255 & zgetd d j) << (m mod 32))%js) (upto n) (zrep (zlen d >> 2)%js 0) in
    packs r (fun q => if q <? n then zgetd d q else 0) /\ zlen r <= zlen d / 4 + 1).
  { intros n Hn. rewrite <- (Z2Nat.id n) in * by lia. induction (Z.to_nat n) as [|k IH].
    - split.
      + intros w b Hw Hb. cbn [upto fold_left Z.to_nat Z.of_nat map seq]. rewrite zgetd_zrep, Z.bits_0.
        destruct (Z.ltb_spec (4 * w + b / 8) 0); [euclid|now rewrite Z.bits_0].
      + cbn [upto fold_left Z.to_nat Z.of_nat map seq]. rewrite zlen_zrep, sar_small by lia. change (2 ^ 2) with 4. euclid.
    - destruct IH as [IH Hz]; [lia|]. replace (Z.of_nat (S k)) with (Z.of_nat k + 1) in * by lia.
      rewrite upto_succ, fold_left_app by lia. cbn [fold_left]. cbn zeta. set (r := fold_left _ _ _) in *.
      assert (E : (255 & zgetd d (Z.of_nat k))%js = zgetd d (Z.of_nat k)).
      { pose proof (bytes_zgetd d (Z.of_nat k) Hd) as Hb. unfold is_byte in Hb. unfold band. rewrite Z.land_comm. fold (band (zgetd d (Z.of_nat k)) 255).
        rewrite band_255. apply Z.mod_small. lia. }
      rewrite E. fold (put_byte r (Z.of_nat k) (zgetd d (Z.of_nat k))). split.
      + refine (packs_ext _ _ _ _ (put_byte_packs r _ (Z.of_nat k) (zgetd d (Z.of_nat k)) _ _ _ _ IH)); try lia.
        * intros q Hq. cbn beta. destruct (Z.eqb_spec q (Z.of_nat k)) as [->|];
            [destruct (Z.ltb_spec (Z.of_nat k) (Z.of_nat k + 1)); [reflexivity|lia]|].
          destruct (Z.ltb_spec q (Z.of_nat k)), (Z.ltb_spec q (Z.of_nat k + 1)); lia || reflexivity.
        * apply bytes_zgetd, Hd.
        * cbn beta. destruct (Z.ltb_spec (Z.of_nat k) (Z.of_nat k)); [lia|reflexivity].
      + rewrite zlen_put_byte by lia. euclid. }
  destruct (H1 (zlen d)) as [Hp Hz]; [lia|]. split; [|exact Hz].
  refine (packs_ext _ _ _ _ Hp). intros q Hq. cbn beta. destruct (Z.ltb_spec q (zlen d)); [reflexivity|].
  symmetry. now apply zgetd_ge.
Qed.

(** The number of the last block. *)
Definition last_block (m : list Z) : Z := (zlen m + 8) / 64.

Lemma zlen_pad m : zlen (Rfc1321.pad m) = 64 * (last_block m + 1).
Proof.
  unfold Rfc1321.pad, last_block. rewrite !zlen_app, zlen_zrep. change (zlen [128]) with 1.
  unfold Rfc1321.little. rewrite zlen_map_upto by lia. pose proof (zlen_nonneg m). euclid.
Qed.

Lemma zgetd_pad m q : 0 <= q -> zgetd (Rfc1321.pad m) q =
  if q <? zlen m then zgetd m q else if q =? zlen m then 128
  else let k := q - (64 * last_block m + 56) in
    if (0 <=? k) && (k <? 8) then 8 * zlen m / 256 ^ k mod 256 else 0.
Proof.
  intros Hq. pose proof (zlen_nonneg m) as Hn. unfold Rfc1321.pad. rewrite zgetd_app by lia.
  destruct (Z.ltb_spec q (zlen m)); [reflexivity|]. cbn [app].
  destruct (Z.eqb_spec q (zlen m)) as [->|Hne]; [now rewrite Z.sub_diag|].
  change (128 :: ?l) with ([128] ++ l). rewrite zgetd_app by lia. change (zlen [128]) with 1.
  destruct (Z.ltb_spec (q - zlen m) 1); [lia|]. rewrite zgetd_app, zlen_zrep by lia.
  unfold last_block. cbn zeta. set (k := q - (64 * ((zlen m + 8) / 64) + 56)).
  assert (Hk : q - zlen m - 1 - Z.max 0 ((55 - zlen m) mod 64) = k) by (subst k; euclid).
  destruct (Z.ltb_spec (q - zlen m - 1) (Z.max 0 ((55 - zlen m) mod 64))).
  - rewrite zgetd_zrep. destruct (Z.leb_spec 0 k); [lia|reflexivity].
  - rewrite Hk. destruct (Z.leb_spec 0 k); [|lia]. cbn [andb]. unfold Rfc1321.little.
    destruct (Z.ltb_spec k 8); [unfold zgetd; now rewrite zget_map_upto by lia|].
    apply zgetd_ge. rewrite zlen_map_upto; lia.
Qed.

Lemma testbit_256 z k b : 0 <= k -> 0 <= b < 8 -> Z.testbit (z / 256 ^ k mod 256) b = Z.testbit z (8 * k + b).
Proof.
  intros Hk Hb. change 256 with (2 ^ 8) at 2. rewrite Z.mod_pow2_bits_low by lia.
  change 256 with (2 ^ 8). rewrite <- Z.pow_mul_r, Z.div_pow2_bits by lia. f_equal. lia.
Qed.

(** The array after the two assignments of [Y]. *)
Definition padded (m : list Z) : list Z :=
  jset (put_byte (X m) (zlen m) 128) (14 + ((8 * zlen m + 64) >>> 9 << 4)%js) (8 * zlen m).

Lemma length_index m : 8 * zlen m + 64 < 2147483648 -> 14 + ((8 * zlen m + 64) >>> 9 << 4)%js = 14 + 16 * last_block m.
Proof.
  intros Hl. pose proof (zlen_nonneg m). unfold last_block. rewrite shr_small by lia. change (2 ^ 9) with 512.
  rewrite shl_small by euclid. euclid.
Qed.

Lemma padded_packs m : bytes m -> 8 * zlen m + 64 < 2147483648 ->
  packs (padded m) (zgetd (Rfc1321.pad m)) /\ zlen (padded m) = 16 * last_block m + 15.
Proof.
  intros Hm Hl. pose proof (zlen_nonneg m) as Hn. destruct (X_packs m Hm) as [HX HXl]; [lia|].
  unfold padded. rewrite length_index by exact Hl.
  assert (HQ : 0 <= last_block m) by (unfold last_block; euclid). split.
  - assert (HP : packs (put_byte (X m) (zlen m) 128) (fun q => if q =? zlen m then 128 else zgetd m q)).
    { apply put_byte_packs; [lia|lia|easy| |exact HX]. apply zgetd_ge. lia. }
    intros w b Hw Hb. rewrite zgetd_jset by lia. rewrite zgetd_pad by euclid. cbn zeta.
    destruct (Z.eqb_spec w (14 + 16 * last_block m)) as [->|Hne].
    + replace (4 * (14 + 16 * last_block m) + b / 8) with (64 * last_block m + 56 + b / 8) by lia.
      destruct (Z.ltb_spec (64 * last_block m + 56 + b / 8) (zlen m)); [unfold last_block in *; euclid|].
      destruct (Z.eqb_spec (64 * last_block m + 56 + b / 8) (zlen m)); [unfold last_block in *; euclid|].
      replace (64 * last_block m + 56 + b / 8 - (64 * last_block m + 56)) with (b / 8) by lia.
      destruct (Z.leb_spec 0 (b / 8)); [|euclid]. destruct (Z.ltb_spec (b / 8) 8); [|euclid]. cbn [andb].
      rewrite testbit_256 by euclid. f_equal. euclid.
    + rewrite HP by lia. set (q := 4 * w + b / 8). destruct (Z.eqb_spec q (zlen m)) as [->|Hq].
      * destruct (Z.ltb_spec (zlen m) (zlen m)); [lia|reflexivity].
      * destruct (Z.ltb_spec q (zlen m)); [reflexivity|]. rewrite zgetd_ge by lia.
        destruct ((0 <=? _) && _) eqn:E; [|reflexivity]. bool_prop.
        rewrite testbit_256, Z.bits_0 by euclid. symmetry. apply testbit_high; [lia|]. subst q. euclid.
  - rewrite zlen_jset by lia. rewrite zlen_put_byte by lia. unfold last_block in *. euclid.
Qed.

Lemma unlittle_bits p a b : bytes p -> 0 <= a -> 0 <= b < 32 ->
  Z.testbit (Rfc1321.unlittle (zslice p a (a + 4))) b = Z.testbit (zgetd p (a + b / 8)) (b mod 8).
Proof.
  intros Hp Ha Hb. set (s := zslice p a (a + 4)).
  assert (Hs : forall k, 0 <= k < 4 -> zgetd s k = zgetd p (a + k)).
  { intros k Hk. subst s. unfold zgetd, zslice. rewrite zget_ztake, zget_zdrop by lia. reflexivity. }
  assert (Hby : forall k, 0 <= zgetd s k < 256) by (intros k; apply bytes_zgetd, bytes_zslice, Hp).
  rewrite <- Hs by euclid. unfold Rfc1321.unlittle.
  replace b with (8 * (b / 8) + b mod 8) at 1 by euclid.
  rewrite <- testbit_256 by euclid. f_equal.
  pose proof (Hby 0). pose proof (Hby 1). pose proof (Hby 2). pose proof (Hby 3).
  assert (E : b / 8 = 0 \/ b / 8 = 1 \/ b / 8 = 2 \/ b / 8 = 3) by euclid.
  destruct E as [->|[->|[->| ->]]]; change (256 ^ 0) with 1; change (256 ^ 1) with 256; change (256 ^ 2) with 65536; change (256 ^ 3) with 16777216; euclid.
Qed.

Lemma bytes_pad m : bytes m -> bytes (Rfc1321.pad m).
Proof.
  intros Hm. unfold Rfc1321.pad. rewrite !bytes_app. repeat split; auto.
  - constructor; [easy|constructor].
  - now apply bytes_zrep.
  - unfold Rfc1321.little. apply Forall_forall. intros x Hx. apply in_map_iff in Hx as (k & <- & _).
    apply Z.mod_pos_bound. lia.
Qed.

Lemma block_words m n k : bytes m -> 8 * zlen m + 64 < 2147483648 -> 0 <= n -> 0 <= k < 16 ->
  zgetd (Rfc1321.block (Rfc1321.pad m) n) k = wrap32 (zgetd (padded m) (16 * n + k)).
Proof.
  intros Hm Hl Hn Hk. destruct (padded_packs m Hm Hl) as [HP _]. pose proof (bytes_pad m Hm) as Hb.
  unfold Rfc1321.block. unfold zgetd at 1. rewrite zget_map_upto by exact Hk. cbn zeta.
  apply word_ext.
  - unfold Rfc1321.unlittle. set (s := zslice _ _ _). assert (Hs : bytes s) by (apply bytes_zslice, Hb).
    pose proof (bytes_zgetd s 0 Hs). pose proof (bytes_zgetd s 1 Hs). pose proof (bytes_zgetd s 2 Hs).
    pose proof (bytes_zgetd s 3 Hs). unfold is_byte in *. lia.
  - apply wrap32_range.
  - intros i Hi. rewrite unlittle_bits, testbit_wrap32, HP by (assumption || lia).
    destruct (Z.ltb_spec i 32); [cbn [andb]|lia]. do 2 f_equal. lia.
Qed.

(** * The digest *)

Lemma V_words a b c d : map toUint8 (V [a; b; c; d]) =
  Rfc1321.little 4 (wrap32 a) ++ Rfc1321.little 4 (wrap32 b) ++ Rfc1321.little 4 (wrap32 c) ++ Rfc1321.little 4 (wrap32 d).
Proof.
  assert (E : forall x k, 0 <= k < 4 -> toUint8 (x >>> (8 * k) & 255)%js = wrap32 x / 256 ^ k mod 256).
  { intros x k Hk. unfold toUint8. rewrite band_255, Z.mod_mod by lia. apply Z.bits_inj'. intros i Hi.
    destruct (Z_lt_le_dec i 8).
    - change 256 with (2 ^ 8) at 1. rewrite Z.mod_pow2_bits_low, testbit_256, testbit_shr, testbit_wrap32 by lia.
      do 2 f_equal; lia.
    - change 256 with (2 ^ 8) at 1 3. now rewrite !Z.mod_pow2_bits_high by lia. }
  unfold Rfc1321.little, V. rewrite map_map. change (zlen [a; b; c; d]) with 4.
  change (upto (4 * 4)) with [0; 1; 2; 3; 4; 5; 6; 7; 8; 9; 10; 11; 12; 13; 14; 15]. change (upto 4) with [0; 1; 2; 3].
  cbn [map app]. rewrite <- !E by lia. reflexivity.
Qed.

(** C20.  MD5 of the code is MD5 of RFC 1321, on messages of less than 2^28 - 16
    bytes: their length in bits stays below 2^31. *)
Theorem md5_is_rfc1321 m : bytes m -> zlen m < 268435440 -> MD5 m = Rfc1321.digest m.
Proof.
  intros Hm Hl. pose proof (zlen_nonneg m) as Hn. unfold MD5, Y. fold (put_byte (X m) (zlen m) 128). fold (padded m).
  destruct (padded_packs m Hm) as [_ HL]; [lia|]. unfold Rfc1321.digest. rewrite zlen_pad. cbn zeta.
  assert (HQ : 0 <= last_block m) by (unfold last_block; euclid).
  unfold blocks. rewrite HL. replace ((16 * last_block m + 15 + 15) / 16) with (last_block m + 1) by euclid.
  replace (64 * (last_block m + 1) / 64) with (last_block m + 1) by euclid.
  assert (E : forall ns v, (forall n, In n ns -> 0 <= n) ->
    words (fold_left (fun v n => block (padded m) (16 * n) v) ns v) =
    fold_left Rfc1321.process (map (Rfc1321.block (Rfc1321.pad m)) ns) (words v)).
  { induction ns as [|n ns IH]; intros v Hns; [reflexivity|]. cbn [fold_left map]. rewrite IH by auto with datatypes.
    f_equal. apply block_process. intros k Hk. apply block_words; auto with datatypes. lia. }
  specialize (E (upto (last_block m + 1)) (1732584193, -271733879, -1732584194, 271733878)).
  change (words (1732584193, -271733879, -1732584194, 271733878)) with (1732584193, 4023233417, 2562383102, 271733878) in E.
  rewrite <- E by (intros n Hin; apply in_upto in Hin; lia).
  destruct (fold_left _ _ _) as [[[a b] c] d]. cbn [words]. apply V_words.
Qed.

Lemma md5_is_rfc1321_witness : MD5 [97; 98; 99] =
  [144; 1; 80; 152; 60; 210; 79; 176; 214; 150; 63; 125; 40; 225; 127; 114].
Proof.
  rewrite (md5_is_rfc1321 [97; 98; 99]); [vm_compute; reflexivity|repeat constructor; discriminate|reflexivity].
Defined.
