(* ===== verification/Inflator.v ===== *)
(** The wrapper around the decompressor, core/inflator.js.

    The decompressor itself (pako) is third-party code: [Zlib] is its
    interface.  The output buffer is one array that every call of [inflate]
    writes again from its start, and the result is a view on it, so an earlier
    result changes when more is inflated; the buffers are kept in a store, and
    a result is a reference to one. *)

From Stdlib Require Import ZArith List Lia Bool String.
From S2P Require Import Prelude.
Import ListNotations.
Open Scope Z_scope.
Open Scope code_scope.

(** What the wrapper uses of the decompressor: from a state, the input still to
    read and the room in the output, [inflate] gives its return code, the
    bytes it wrote, the new state and the input it left. *)
Class Zlib := {
  zstream : Type;
  inflateInit : zstream;
  inflateReset : zstream -> zstream;
  zinflate : zstream -> list Z -> Z -> Z * list Z * zstream * list Z
}.

Module Inflator.

Section Inflator.
Context `{Zlib}.

(** [strm]: the state, the input from [next_in] on, and the output buffer as
    the index of the last one of the store. *)
Record inflator := mkInflator {
  state : zstream;
  input : list Z;
  buffers : list (list Z);
  chunkSize : Z
}.

Definition constructor : inflator :=
  mkInflator inflateInit [] [zrep (1024 * 10 * 10) 0] (1024 * 10 * 10).

(** None is null. *)
Definition setInput (data : option (list Z)) : M inflator unit :=
  modify (fun i => mkInflator (state i) (match data with Some d => d | None => [] end) (buffers i) (chunkSize i)).

(** A view of [n] bytes on a buffer, and what it shows now. *)
Record result := Result { buffer : nat; length : Z }.
Definition deref (r : result) (i : inflator) : list Z := ztake (length r) (nth (buffer r) (buffers i) []).

Fixpoint replace_nth (n : nat) (l : list (list Z)) (v : list Z) : list (list Z) :=
  match l, n with
  | [], _ => []
  | _ :: l, O => v :: l
  | x :: l, S n => x :: replace_nth n l v
  end.

Definition inflate (expected : Z) : M inflator result :=
  modify (fun i => if chunkSize i <? expected
                   then mkInflator (state i) (input i) (buffers i ++ [zrep expected 0]) expected else i) ;;
  i <- get ;;
  let '(ret_code, out, st, rest) := zinflate (state i) (input i) expected in
  let cur := (List.length (buffers i) - 1)%nat in
  modify (fun i => mkInflator st rest (replace_nth cur (buffers i) (zblit (nth cur (buffers i) []) 0 out)) (chunkSize i)) ;;
  if ret_code <? 0 then throw "zlib inflate failed"
  else if negb (zlen out =? expected) then throw "Incomplete zlib block"
  else ret (Result cur (zlen out)).

Definition reset : M inflator unit :=
  modify (fun i => mkInflator (inflateReset (state i)) (input i) (buffers i) (chunkSize i)).

(** [inflate] with its bytes read at once. *)
Definition inflate_now (expected : Z) : M inflator (list Z) :=
  r <- inflate expected ;; gets (deref r).
End Inflator.
End Inflator.
