(* ===== verification/InflatorCorrect.v ===== *)
(** Theorems on the wrapper around the decompressor, and what its users assume
    of the decompressor: a stream that yields some bytes yields them in the
    pieces that are asked for. *)

From Stdlib Require Import ZArith List Lia Bool String.
From S2P Require Import Prelude Inflator.
Import ListNotations Inflator.
Open Scope Z_scope.
Open Scope code_scope.

(** [yields st input out]: from state [st], [input] decompresses to [out]. *)
Class ZlibOk `{Zlib} := {
  yields : zstream -> list Z -> list Z -> Prop;
  zinflate_yields st input out n : yields st input out -> 0 < n <= zlen out ->
    exists code st' input', zinflate st input n = (code, ztake n out, st', input') /\ 0 <= code /\
      yields st' input' (zdrop n out)
}.

Section InflatorOk.
Context `{ZlibOk}.

Definition wf_inflator (i : inflator) : Prop :=
  0 <= chunkSize i /\ exists bs b, buffers i = bs ++ [b] /\ zlen b = chunkSize i.

Lemma wf_constructor : wf_inflator Inflator.constructor.
Proof. split; [discriminate|]. eexists [], _. split; [reflexivity|]. rewrite zlen_zrep. reflexivity. Qed.

Lemma replace_last bs b v : replace_nth (List.length bs) (bs ++ [b]) v = bs ++ [v].
Proof. induction bs as [|a bs IH]; [reflexivity|]. cbn [List.length app replace_nth]. now rewrite IH. Qed.

Lemma inflate_now_run i out n : wf_inflator i -> yields (state i) (input i) out -> 0 < n <= zlen out ->
  exists i', inflate_now n i = (Ret (ztake n out), i') /\ wf_inflator i' /\ yields (state i') (input i') (zdrop n out).
Proof.
  intros (Hc & bs & b & Eb & Hb) Hy Hn. destruct (zinflate_yields _ _ _ n Hy Hn) as (code & st & rest & Ez & Hcode & Hy').
  set (i1 := if chunkSize i <? n then mkInflator (state i) (input i) (buffers i ++ [zrep n 0]) n else i).
  assert (H1 : state i1 = state i /\ input i1 = input i /\ n <= chunkSize i1 /\
    exists bs b, buffers i1 = bs ++ [b] /\ zlen b = chunkSize i1).
  { subst i1. destruct (Z.ltb_spec (chunkSize i) n); cbn [state input buffers chunkSize].
    - repeat split; [lia|]. exists (buffers i), (zrep n 0). split; [reflexivity|]. rewrite zlen_zrep. lia.
    - repeat split; [lia|eauto]. }
  destruct H1 as (E1 & E2 & Hn1 & bs1 & b1 & Eb1 & Hb1).
  assert (Ht : zlen (ztake n out) = n) by (rewrite zlen_ztake; lia).
  exists (mkInflator st rest (bs1 ++ [zblit b1 0 (ztake n out)]) (chunkSize i1)). split; [|split].
  - unfold inflate_now, inflate, bind, modify, get, gets. fold i1. rewrite E1, E2, Ez.
    destruct (Z.ltb_spec code 0); [lia|]. rewrite Ht, Z.eqb_refl. cbn [negb ret].
    rewrite Eb1, length_app. cbn [List.length]. replace (List.length bs1 + 1 - 1)%nat with (List.length bs1) by lia.
    rewrite replace_last, nth_middle. unfold deref. cbn [buffer length buffers]. rewrite nth_middle.
    f_equal. f_equal. unfold zblit. rewrite (ztake_nonpos 0) by lia. cbn [app]. rewrite ztake_app_l, ztake_all by lia. reflexivity.
  - split; cbn [chunkSize buffers]; [lia|]. eexists bs1, _. split; [reflexivity|].
    rewrite zlen_zblit; rewrite ?Ht; lia.
  - exact Hy'.
Qed.
End InflatorOk.

(** The instance of a stream that is not compressed. *)
Definition stored : Zlib := {|
  zstream := unit; inflateInit := tt; inflateReset := fun s => s;
  zinflate := fun st input n => (0, ztake n input, st, zdrop n input)
|}.

Definition stored_ok : @ZlibOk stored.
Proof.
  refine {| yields := fun (_ : @zstream stored) input out => input = out |}.
  intros st input out n -> Hn. exists 0, st, (zdrop n out). split; [reflexivity|]. split; [discriminate|reflexivity].
Defined.
