(* ===== verification/Pixels.v ===== *)
(** Pixels of four bytes, written one after the other into the buffers that the
    ZRLE and Tight decoders draw from. *)

From Stdlib Require Import ZArith List Lia Bool.
From S2P Require Import Prelude.
Import ListNotations JS JSFacts.
Open Scope Z_scope.
Open Scope code_scope.

(** [data[p] = v[k]; ...; data[p + 3] = v[k + 3]] *)
Definition put4 (p : Z) (v : list Z) (data : list Z) : list Z :=
  zset (zset (zset (zset data p (zgetd v 0)) (p + 1) (zgetd v 1)) (p + 2) (zgetd v 2)) (p + 3) (zgetd v 3).

(** * Buffers filled from their start *)

Definition color : Type := Z * Z * Z.
Definition rgb (c : color) : list Z := let '(r, g, b) := c in [r; g; b].
Definition rgba (c : color) : list Z := let '(r, g, b) := c in [r; g; b; 255].

(** The first [n] pixels of a buffer. *)
Definition shown (n : Z) (buf : list Z) : list Z := ztake (n * 4) buf.

Lemma put4_zblit p v buf : zlen v = 4 -> 0 <= p -> p + 4 <= zlen buf -> put4 p v buf = zblit buf p v.
Proof.
  intros Hv Hp Hb. destruct (zlen_four v Hv) as (a & b & c & d & ->). unfold put4.
  change (zgetd [a; b; c; d] 0) with a. change (zgetd [a; b; c; d] 1) with b.
  change (zgetd [a; b; c; d] 2) with c. change (zgetd [a; b; c; d] 3) with d.
  apply zget_ext; [rewrite !zlen_zset, zlen_zblit; auto; change (zlen [a; b; c; d]) with 4; lia|].
  rewrite !zlen_zset. intros i Hi. unfold zblit. change (zlen [a; b; c; d]) with 4.
  destruct (Z_lt_le_dec i p) as [Hl|Hl].
  - rewrite !zget_zset_ne by lia. rewrite zget_app_l by (rewrite zlen_ztake; lia). now rewrite zget_ztake by lia.
  - rewrite zget_app_r, zlen_ztake by (rewrite zlen_ztake; lia). replace (i - Z.min (Z.max 0 p) (zlen buf)) with (i - p) by lia.
    destruct (Z_lt_le_dec i (p + 4)) as [Hl4|Hl4].
    + rewrite zget_app_l by (change (zlen [a; b; c; d]) with 4; lia).
      assert (E : i = p \/ i = p + 1 \/ i = p + 2 \/ i = p + 3) by lia.
      destruct E as [->|[->|[->| ->]]]; repeat (rewrite zget_zset_ne by lia); rewrite zget_zset_eq by (rewrite ?zlen_zset; lia);
        [rewrite Z.sub_diag|rewrite Z.add_simpl_l|rewrite Z.add_simpl_l|rewrite Z.add_simpl_l]; reflexivity.
    + rewrite !zget_zset_ne by lia. rewrite zget_app_r by (change (zlen [a; b; c; d]) with 4; lia).
      change (zlen [a; b; c; d]) with 4. rewrite zget_zdrop by lia. f_equal. lia.
Qed.

Lemma shown_put4 k v buf : zlen v = 4 -> 0 <= k -> k * 4 + 4 <= zlen buf ->
  shown (k + 1) (put4 (k * 4) v buf) = shown k buf ++ v /\ zlen (put4 (k * 4) v buf) = zlen buf.
Proof.
  intros Hv Hk Hb. rewrite put4_zblit by lia. split; [|apply zlen_zblit; lia].
  unfold shown, zblit. rewrite app_assoc, ztake_app_l by (rewrite zlen_app, zlen_ztake; lia).
  rewrite ztake_all by (rewrite zlen_app, zlen_ztake; lia). reflexivity.
Qed.

(** Pixels written in order from pixel [i] on. *)
Lemma shown_fold (f : Z -> list Z) i n buf : (forall j, zlen (f j) = 4) -> 0 <= i -> 0 <= n -> (i + n) * 4 <= zlen buf ->
  let buf' := fold_left (fun data j => put4 ((i + j) * 4) (f j) data) (upto n) buf in
  shown (i + n) buf' = shown i buf ++ flat_map f (upto n) /\ zlen buf' = zlen buf.
Proof.
  intros Hf Hi Hn. rewrite <- (Z2Nat.id n) by lia. induction (Z.to_nat n) as [|k IH]; intros Hb.
  - cbn. rewrite Z.add_0_r, app_nil_r. auto.
  - replace (Z.of_nat (S k)) with (Z.of_nat k + 1) in * by lia. rewrite upto_succ, fold_left_app, flat_map_app by lia.
    cbn [fold_left flat_map]. destruct IH as [IH1 IH2]; [lia|]. set (b := fold_left _ _ _) in *. cbn zeta.
    destruct (shown_put4 (i + Z.of_nat k) (f (Z.of_nat k)) b) as [H1 H2]; [apply Hf|lia|lia|].
    rewrite Z.add_assoc, H1, H2, IH1, app_nil_r. split; [now rewrite app_assoc|exact IH2].
Qed.
