(* ===== verification/Zrle.v ===== *)
(** The ZRLE decoder, core/decoders/zrle.js.

    The decompressor is a parameter ([Inflator.Zlib]).  A run length is read
    byte by byte until one that is not 255; [fuel] bounds how many bytes that
    takes.  The pixels of a tile are written one after the other to one of two
    buffers that the decoder keeps, so what a tile leaves unwritten are old
    pixels. *)

From Stdlib Require Import ZArith List Lia Bool String.
From S2P Require Import Prelude Source Sink Websock Display Decoder Decoders Inflator Pixels.
Import ListNotations JS JSFacts.
Open Scope Z_scope.
Open Scope code_scope.

Module ZRLEDecoder.
Import Inflator.

Definition ZRLE_TILE_WIDTH : Z := 64.
Definition ZRLE_TILE_HEIGHT : Z := 64.

(** The four bytes of entry [k] of a palette. *)
Definition entry (palette : list Z) (k : Z) : list Z :=
  [zgetd palette (k * 4); zgetd palette (k * 4 + 1); zgetd palette (k * 4 + 2); zgetd palette (k * 4 + 3)].

Section ZRLE.
Context `{Zlib} {S D : Type} `{ByteSource S} `{Renderer D}.
Variable fuel : nat.

Record zrle := mkZrle {
  _length : Z;
  _inflator : inflator;
  _pixelBuffer : list Z;
  _tileBuffer : list Z
}.

Definition constructor : zrle :=
  mkZrle 0 Inflator.constructor (zrep (ZRLE_TILE_WIDTH * ZRLE_TILE_HEIGHT * 4) 0)
    (zrep (ZRLE_TILE_WIDTH * ZRLE_TILE_HEIGHT * 4) 0).

Definition set_length v z := mkZrle v (_inflator z) (_pixelBuffer z) (_tileBuffer z).
Definition set_inflator v z := mkZrle (_length z) v (_pixelBuffer z) (_tileBuffer z).
Definition set_pixelBuffer v z := mkZrle (_length z) (_inflator z) v (_tileBuffer z).
Definition set_tileBuffer v z := mkZrle (_length z) (_inflator z) (_pixelBuffer z) v.

Definition onInflator {A} (m : M inflator A) : M zrle A := lift _inflator set_inflator m.

(** [this._inflator.inflate(1)[0]] *)
Definition next_byte : M zrle Z :=
  l <- onInflator (inflate_now 1) ;; ret (zgetd l 0).

Definition _getBitsPerPixelInPalette (paletteSize : Z) : option Z :=
  if paletteSize <=? 2 then Some 1
  else if paletteSize <=? 4 then Some 2
  else if paletteSize <=? 16 then Some 4
  else None.

(** The result is the pixel buffer itself; nothing writes to it before it is
    used. *)
Definition _readPixels (pixels : Z) : M zrle (list Z) :=
  buffer <- onInflator (inflate_now (3 * pixels)) ;;
  modify (fun z => set_pixelBuffer
    (fold_left (fun data i =>
       put4 (i * 4) [zgetd buffer (i * 3); zgetd buffer (i * 3 + 1); zgetd buffer (i * 3 + 2); 255] data)
       (upto pixels) (_pixelBuffer z)) z) ;;
  gets _pixelBuffer.

Definition put_tile (offset : Z) (v : list Z) : M zrle unit :=
  modify (fun z => set_tileBuffer (put4 offset v (_tileBuffer z)) z).

(** [for (let x = 0; x < tilew; x++)]: the shift, the byte and the offset after it. *)
Fixpoint palette_row (n : nat) (bitsPerPixel mask : Z) (palette : list Z) (shift encoded offset : Z) :
    M zrle (Z * Z * Z) :=
  match n with
  | O => ret (shift, encoded, offset)
  | Datatypes.S n =>
      p <- (if shift <? 0 then
              encoded <- next_byte ;; ret (8 - bitsPerPixel, encoded)
            else ret (shift, encoded)) ;;
      let '(shift, encoded) := p in
      let indexInPalette := ((encoded >> shift) & mask)%js in
      put_tile offset (entry palette indexInPalette) ;;
      palette_row n bitsPerPixel mask palette (shift - bitsPerPixel) encoded (offset + 4)
  end.

(** [for (let y = 0; y < tileh; y++)], with [n] rows left *)
Fixpoint palette_rows (n : nat) (tilew bitsPerPixel mask : Z) (palette : list Z) (encoded offset : Z) : M zrle unit :=
  match n with
  | O => ret tt
  | Datatypes.S n =>
      p <- palette_row (Z.to_nat tilew) bitsPerPixel mask palette (8 - bitsPerPixel) encoded offset ;;
      let '(shift, encoded, offset) := p in
      encoded <- (if (shift <? 8 - bitsPerPixel) && negb (Nat.eqb n 0) then next_byte else ret encoded) ;;
      palette_rows n tilew bitsPerPixel mask palette encoded offset
  end.

Definition _decodePaletteTile (paletteSize tileSize tilew tileh : Z) : M zrle (list Z) :=
  palette <- _readPixels paletteSize ;;
  match _getBitsPerPixelInPalette paletteSize with
  | None => stuck
  | Some bitsPerPixel =>
      let mask := (1 << bitsPerPixel)%js - 1 in
      encoded <- next_byte ;;
      palette_rows (Z.to_nat tileh) tilew bitsPerPixel mask palette encoded 0 ;;
      gets _tileBuffer
  end.

(** [do { ... } while (current === 255)] *)
Fixpoint length_loop (n : nat) (length : Z) : M zrle Z :=
  match n with
  | O => stuck
  | Datatypes.S n =>
      current <- next_byte ;;
      let length := length + current in
      if current =? 255 then length_loop n length else ret length
  end.

Definition _readRLELength : M zrle Z :=
  length <- length_loop fuel 0 ;; ret (length + 1).

(** [for (let j = 0; j < length; j++)] from pixel [i] on *)
Definition put_run (i length : Z) (v : list Z) : M zrle unit :=
  modify (fun z => set_tileBuffer
    (fold_left (fun data j => put4 ((i + j) * 4) v data) (upto length) (_tileBuffer z)) z).

(** Every turn advances, so [tileSize] turns are enough. *)
Fixpoint rle_loop (turns : nat) (i tileSize : Z) : M zrle unit :=
  if i <? tileSize then
    match turns with
    | O => stuck
    | Datatypes.S turns =>
        pixel <- _readPixels 1 ;;
        length <- _readRLELength ;;
        put_run i length (entry pixel 0) ;;
        rle_loop turns (i + length) tileSize
    end
  else ret tt.

Definition _decodeRLETile (tileSize : Z) : M zrle (list Z) :=
  rle_loop (Z.to_nat tileSize) 0 tileSize ;; gets _tileBuffer.

Fixpoint rle_palette_loop (turns : nat) (palette : list Z) (paletteSize offset tileSize : Z) : M zrle unit :=
  if offset <? tileSize then
    match turns with
    | O => stuck
    | Datatypes.S turns =>
        indexInPalette <- next_byte ;;
        p <- (if 128 <=? indexInPalette then
                length <- _readRLELength ;; ret (indexInPalette - 128, length)
              else ret (indexInPalette, 1)) ;;
        let '(indexInPalette, length) := p in
        if paletteSize <? indexInPalette then throw "Too big index in palette"
        else if tileSize <? offset + length then throw "Too big rle length in palette mode"
        else
          put_run offset length (entry palette indexInPalette) ;;
          rle_palette_loop turns palette paletteSize (offset + length) tileSize
    end
  else ret tt.

Definition _decodeRLEPaletteTile (paletteSize tileSize : Z) : M zrle (list Z) :=
  palette <- _readPixels paletteSize ;;
  rle_palette_loop (Z.to_nat tileSize) palette paletteSize 0 tileSize ;;
  gets _tileBuffer.

Abbreviation W := (world zrle S D).

Definition decode_tile (tx ty tw th : Z) : M W unit :=
  let tileSize := tw * th in
  let blit (m : M zrle (list Z)) : M W unit :=
    data <- onDec m ;; onDisp (blitImage tx ty tw th (fresh_view data) 0) in
  subencoding <- onDec next_byte ;;
  if subencoding =? 0 then blit (_readPixels tileSize)
  else if subencoding =? 1 then
    background <- onDec (_readPixels 1) ;;
    onDisp (fillRect tx ty tw th (Some [zgetd background 0; zgetd background 1; zgetd background 2]))
  else if (2 <=? subencoding) && (subencoding <=? 16) then blit (_decodePaletteTile subencoding tileSize tw th)
  else if subencoding =? 128 then blit (_decodeRLETile tileSize)
  else if (130 <=? subencoding) && (subencoding <=? 255) then
    blit (_decodeRLEPaletteTile (subencoding - 128) tileSize)
  else throw "Unknown subencoding".

(** [for (let tx = x; tx < x + width; tx += ZRLE_TILE_WIDTH)] *)
Fixpoint tx_loop (n : nat) (x width tx ty th : Z) : M W unit :=
  if tx <? x + width then
    match n with
    | O => stuck
    | Datatypes.S n =>
        let tw := Z.min ZRLE_TILE_WIDTH (x + width - tx) in
        decode_tile tx ty tw th ;;
        tx_loop n x width (tx + ZRLE_TILE_WIDTH) ty th
    end
  else ret tt.

(** [for (let ty = y; ty < y + height; ty += ZRLE_TILE_HEIGHT)] *)
Fixpoint ty_loop (n : nat) (x y width height ty : Z) : M W unit :=
  if ty <? y + height then
    match n with
    | O => stuck
    | Datatypes.S n =>
        let th := Z.min ZRLE_TILE_HEIGHT (y + height - ty) in
        tx_loop (Z.to_nat width) x width x ty th ;;
        ty_loop n x y width height (ty + ZRLE_TILE_HEIGHT)
    end
  else ret tt.

Definition decodeRect (x y width height depth : Z) : M W bool :=
  z <- onDec get ;;
  wait <- (if _length z =? 0 then
             wait <- onSock (rQwait 4 0) ;;
             if wait then ret true
             else
               length <- onSock rQshift32 ;;
               onDec (modify (set_length length)) ;;
               ret false
           else ret false) ;;
  if wait then ret false
  else
    z <- onDec get ;;
    wait <- onSock (rQwait (_length z) 0) ;;
    if wait then ret false
    else
      data <- onSock (rQshiftView (_length z) same) ;;
      onDec (onInflator (setInput (Some (view_bytes data)))) ;;
      ty_loop (Z.to_nat height) x y width height y ;;
      onDec (modify (set_length 0)) ;;
      ret true.
End ZRLE.
End ZRLEDecoder.
