(* ===== verification/ZrleCorrect.v ===== *)
(** Theorems on the ZRLE decoder: the tiles drawn are those of RFC 6143, in
    however many messages the compressed data arrives.

    [ZlibOk] is what is assumed of the decompressor: a stream that yields some
    bytes yields them in the pieces that are asked for. *)

From Stdlib Require Import ZArith List Lia Bool String.
From S2P Require Import Prelude Source Sink Websock Display Decoder Decoders Inflator InflatorCorrect Pixels Zrle.
Import ListNotations JS JSFacts Inflator ZRLEDecoder.
Open Scope Z_scope.
Open Scope code_scope.

(** * Reading the decompressed stream *)

Section Tiles.
Context `{ZlibOk}.
Variable fuel : nat.
Hypothesis fuel_ok : (17 <= fuel)%nat.
Implicit Types (z : zrle) (out : list Z).

(** The number of pixels of a whole tile. *)
Abbreviation full := 4096.

(** The decoder [z] goes on with the decompressed bytes [out]. *)
Definition reads z out : Prop :=
  wf_inflator (_inflator z) /\ yields (state (_inflator z)) (input (_inflator z)) out /\
  zlen (_pixelBuffer z) = full * 4 /\ zlen (_tileBuffer z) = full * 4.

Lemma inflate_run z l out : reads z (l ++ out) -> l <> [] ->
  exists i, onInflator (inflate_now (zlen l)) z = (Ret l, set_inflator i z) /\ reads (set_inflator i z) out.
Proof.
  intros (Hw & Hy & Hp & Ht) Hl. assert (Hpos : 0 < zlen l) by (destruct l; [easy|zlia]).
  destruct (inflate_now_run _ _ (zlen l) Hw Hy) as (i & E & Hw' & Hy'); [zlia|].
  rewrite ztake_app_exact in E. rewrite zdrop_app_exact in Hy'. exists i. unfold onInflator, lift. rewrite E.
  split; [reflexivity|]. exact (conj Hw' (conj Hy' (conj Hp Ht))).
Qed.

Lemma next_byte_run z b out : reads z (b :: out) ->
  exists i, next_byte z = (Ret b, set_inflator i z) /\ reads (set_inflator i z) out.
Proof.
  intros Hr. destruct (inflate_run z [b] out Hr) as (i & E & Hr'); [easy|]. exists i. split; [|exact Hr'].
  unfold next_byte. now rewrite (bind_run _ _ _ _ _ E).
Qed.

Lemma zlen_flat_rgb px : zlen (flat_map rgb px) = 3 * zlen px.
Proof. induction px as [|[[r g] b] px IH]; [reflexivity|]. cbn [flat_map]. rewrite zlen_app, IH, zlen_cons. change (zlen (rgb (r, g, b))) with 3. lia. Qed.

(** Byte [j] of pixel [i]. *)
Lemma zgetd_flat_rgb px : forall i j, 0 <= i < zlen px -> 0 <= j < 3 ->
  zgetd (flat_map rgb px) (i * 3 + j) = zgetd (rgb (nth (Z.to_nat i) px (0, 0, 0))) j.
Proof.
  induction px as [|c px IH]; intros i j Hi Hj; [change (zlen (@nil color)) with 0 in Hi; lia|]. cbn [flat_map].
  rewrite zlen_cons in Hi. assert (Hc : zlen (rgb c) = 3) by (destruct c as [[r g] b]; reflexivity).
  unfold zgetd at 1. destruct (Z.eq_dec i 0) as [->|Hn].
  - rewrite zget_app_l by lia. reflexivity.
  - rewrite zget_app_r, Hc by lia. replace (i * 3 + j - 3) with ((i - 1) * 3 + j) by lia.
    fold (zgetd (flat_map rgb px) ((i - 1) * 3 + j)). rewrite IH by lia.
    replace (Z.to_nat i) with (S (Z.to_nat (i - 1))) by lia. reflexivity.
Qed.

Lemma flat_map_nth (px : list color) (f : color -> list Z) :
  flat_map (fun i => f (nth (Z.to_nat i) px (0, 0, 0))) (upto (zlen px)) = flat_map f px.
Proof.
  unfold upto, zlen. rewrite Nat2Z.id, !flat_map_concat_map, map_map. f_equal.
  induction px as [|c px IH]; [reflexivity|]. cbn [List.length seq map nth Z.to_nat]. f_equal.
  rewrite <- seq_shift, map_map, <- IH. apply map_ext. intros i. now rewrite !Nat2Z.id.
Qed.

(** Reading pixels fills the pixel buffer from its start. *)
Lemma readPixels_run z px out : reads z (flat_map rgb px ++ out) -> 0 < zlen px <= full ->
  exists z', _readPixels (zlen px) z = (Ret (_pixelBuffer z'), z') /\ reads z' out /\
    shown (zlen px) (_pixelBuffer z') = flat_map rgba px /\ _tileBuffer z' = _tileBuffer z /\ _length z' = _length z.
Proof.
  intros Hr Hn. destruct (inflate_run z (flat_map rgb px) out Hr) as (i & E & Hr').
  { intros E. pose proof (zlen_flat_rgb px) as Hz. rewrite E in Hz. change (zlen (@nil Z)) with 0 in Hz. lia. }
  rewrite zlen_flat_rgb in E. unfold _readPixels. rewrite (bind_run _ _ _ _ _ E). unfold bind at 1, modify at 1, gets.
  eexists. split; [reflexivity|]. destruct Hr' as (Hw & Hy & Hp & Ht).
  cbn [_pixelBuffer set_pixelBuffer set_inflator _inflator _tileBuffer _length] in *.
  set (f := fun i => [zgetd (flat_map rgb px) (i * 3); zgetd (flat_map rgb px) (i * 3 + 1); zgetd (flat_map rgb px) (i * 3 + 2); 255]).
  destruct (shown_fold f 0 (zlen px) (_pixelBuffer z)) as [H1 H2]; [reflexivity|lia|lia|lia|].
  cbn [Z.add] in H1, H2. split; [|split; [|split; reflexivity]].
  - refine (conj Hw (conj Hy (conj _ Ht))). etransitivity; [exact H2|exact Hp].
  - etransitivity; [exact H1|]. unfold shown. rewrite (ztake_nonpos (0 * 4)) by lia. cbn [app].
    rewrite <- (flat_map_nth px rgba), !flat_map_concat_map. f_equal. apply map_ext_in. intros k Hk. apply in_upto in Hk. unfold f.
    rewrite <- (Z.add_0_r (k * 3)) at 1. rewrite !zgetd_flat_rgb by lia.
    destruct (nth (Z.to_nat k) px (0, 0, 0)) as [[r g] b]. reflexivity.
Qed.

(** Entry [k] of a palette that was read. *)
Lemma entry_rgba pal buf k : shown (zlen pal) buf = flat_map rgba pal -> 0 <= k < zlen pal -> zlen pal * 4 <= zlen buf ->
  entry buf k = rgba (nth (Z.to_nat k) pal (0, 0, 0)).
Proof.
  intros Hs Hk Hb.
  assert (Hg : forall j, 0 <= j < 4 -> zgetd buf (k * 4 + j) = zgetd (rgba (nth (Z.to_nat k) pal (0, 0, 0))) j).
  { intros j Hj. transitivity (zgetd (shown (zlen pal) buf) (k * 4 + j)).
    { unfold zgetd, shown. now rewrite zget_ztake by lia. }
    rewrite Hs. clear Hs Hb. revert k Hk. induction pal as [|c pal IH]; intros k Hk; [change (zlen (@nil color)) with 0 in Hk; lia|].
    rewrite zlen_cons in Hk. cbn [flat_map]. assert (Hc : zlen (rgba c) = 4) by (destruct c as [[r g] b]; reflexivity).
    unfold zgetd at 1. destruct (Z.eq_dec k 0) as [->|Hn]; [now rewrite zget_app_l by lia|].
    rewrite zget_app_r, Hc by lia. replace (k * 4 + j - 4) with ((k - 1) * 4 + j) by lia.
    fold (zgetd (flat_map rgba pal) ((k - 1) * 4 + j)). rewrite IH by lia.
    replace (Z.to_nat k) with (S (Z.to_nat (k - 1))) by lia. reflexivity. }
  unfold entry. rewrite <- (Z.add_0_r (k * 4)) at 1. rewrite !Hg by lia.
  destruct (nth (Z.to_nat k) pal (0, 0, 0)) as [[r g] b]. reflexivity.
Qed.

(** ** Packed palette tiles *)

Definition depth_of (n : Z) : Z := if n <=? 2 then 1 else if n <=? 4 then 2 else 4.

(** The index of pixel [x] in a row of packed indices. *)
Definition packed (bpp : Z) (row : list Z) (x : Z) : Z :=
  zgetd row (x * bpp / 8) / 2 ^ (8 - bpp - (x * bpp) mod 8) mod 2 ^ bpp.

Section Row.
Variables (bpp tw : Z) (row out : list Z).
Hypotheses (bpp_ok : bpp = 1 \/ bpp = 2 \/ bpp = 4) (row_ok : bytes row) (row_len : zlen row = (tw * bpp + 7) / 8).

(** At pixel [x] the byte with number [c - 1] was the last one read. *)
Definition row_at (x c : Z) : Prop := 1 <= c <= zlen row /\ x * bpp <= 8 * c /\ 8 * (c - 1) <= x * bpp.

(** The byte pixel [x] is in. *)
Lemma fetch_run z x c : 0 <= x < tw -> row_at x c -> reads z (zdrop c row ++ out) ->
  exists c1 i, (if 8 * c - bpp * (x + 1) <? 0 then encoded <- next_byte ;; ret (8 - bpp, encoded)
      else ret (8 * c - bpp * (x + 1), zgetd row (c - 1))) z =
    (Ret (8 * c1 - bpp * (x + 1), zgetd row (c1 - 1)), set_inflator i z) /\
    row_at x c1 /\ (x + 1) * bpp <= 8 * c1 /\ reads (set_inflator i z) (zdrop c1 row ++ out).
Proof.
  intros Hx (Hc & H1 & H2) Hr. unfold row_at. destruct (Z.ltb_spec (8 * c - bpp * (x + 1)) 0) as [Hneg|Hpos].
  - assert (Hal : x * bpp = 8 * c) by (destruct bpp_ok as [->|[->| ->]]; lia).
    assert (Hcl : c + 1 <= zlen row).
    { rewrite row_len. apply Z.div_le_lower_bound; [lia|]. destruct bpp_ok as [->|[->| ->]]; lia. }
    assert (Hz : zdrop c row = zgetd row c :: zdrop (c + 1) row).
    { unfold zgetd. destruct (zget_some row c) as [v Ev]; [lia|]. rewrite Ev. now apply zdrop_cons_get. }
    rewrite Hz in Hr. destruct (next_byte_run z _ _ Hr) as (i & E & Hr'). exists (c + 1), i.
    rewrite (bind_run _ _ _ _ _ E). replace (8 * (c + 1) - bpp * (x + 1)) with (8 - bpp) by lia.
    rewrite Z.add_simpl_r. split; [reflexivity|]. split; [|split; [|exact Hr']]; [repeat split; lia|].
    destruct bpp_ok as [->|[->| ->]]; lia.
  - exists c, (_inflator z). replace (set_inflator (_inflator z) z) with z by now destruct z.
    split; [reflexivity|]. split; [repeat split; lia|]. split; [lia|exact Hr].
Qed.

Lemma index_packed x c : row_at x c -> (x + 1) * bpp <= 8 * c ->
  ((zgetd row (c - 1) >> (8 * c - bpp * (x + 1))) & (2 ^ bpp - 1))%js = packed bpp row x.
Proof.
  intros (Hc & H1 & H2) H3. pose proof (bytes_zgetd row (c - 1) row_ok) as Hb. unfold is_byte in Hb.
  assert (Hbp : 0 <= bpp <= 31) by lia.
  rewrite sar_small, band_ones by lia. unfold packed.
  replace (x * bpp / 8) with (c - 1) by (apply (Z.div_unique _ _ _ (x * bpp - 8 * (c - 1))); lia).
  replace ((x * bpp) mod 8) with (x * bpp - 8 * (c - 1)) by (apply (Z.mod_unique _ _ (c - 1)); lia).
  do 3 f_equal. lia.
Qed.

Lemma put_tile_run z k v : reads z out -> zlen v = 4 -> 0 <= k < full ->
  exists z', put_tile (k * 4) v z = (Ret tt, z') /\ _inflator z' = _inflator z /\ _length z' = _length z /\
    _pixelBuffer z' = _pixelBuffer z /\ zlen (_tileBuffer z') = full * 4 /\
    shown (k + 1) (_tileBuffer z') = shown k (_tileBuffer z) ++ v.
Proof.
  intros (_ & _ & _ & Ht) Hv Hk. destruct (shown_put4 k v (_tileBuffer z)) as [H1 H2]; [exact Hv|lia|lia|].
  eexists. split; [reflexivity|]. cbn [_inflator _length _pixelBuffer _tileBuffer set_tileBuffer].
  repeat split; [congruence|exact H1].
Qed.
End Row.

Lemma palette_row_run pal bpp row tw out : bpp = 1 \/ bpp = 2 \/ bpp = 4 -> bytes row ->
  zlen row = (tw * bpp + 7) / 8 -> forall n x c k z,
  0 <= x -> x + Z.of_nat n = tw -> row_at bpp row x c -> 0 <= k -> k + Z.of_nat n <= full -> reads z (zdrop c row ++ out) ->
  exists c' z', palette_row n bpp (2 ^ bpp - 1) pal (8 * c - bpp * (x + 1)) (zgetd row (c - 1)) (k * 4) z =
    (Ret (8 * c' - bpp * (tw + 1), zgetd row (c' - 1), (k + Z.of_nat n) * 4), z') /\
    row_at bpp row tw c' /\ reads z' (zdrop c' row ++ out) /\ _length z' = _length z /\
    shown (k + Z.of_nat n) (_tileBuffer z') =
      shown k (_tileBuffer z) ++ flat_map (fun j => entry pal (packed bpp row (x + j))) (upto (Z.of_nat n)).
Proof.
  intros Hbpp Hrow Hlen. induction n as [|n IH]; intros x c k z Hx Hn Hc Hk Hfull Hr; cbn [palette_row].
  - exists c, z. replace tw with x by lia. rewrite Z.add_0_r. cbn [upto Z.of_nat Z.to_nat seq map flat_map].
    rewrite app_nil_r. auto.
  - destruct (fetch_run bpp tw row out Hbpp Hlen z x c) as (c1 & i & E & Hc1 & H3 & Hr1); [lia|exact Hc|exact Hr|].
    rewrite (bind_run _ _ _ _ _ E). clear E. cbv iota beta. rewrite (index_packed bpp row) by assumption.
    destruct (put_tile_run _ _ k (entry pal (packed bpp row x)) Hr1 eq_refl) as (z2 & E2 & Ei & El & Ep & Ht & Hs); [lia|].
    rewrite (bind_run _ _ _ _ _ E2). clear E2.
    replace (8 * c1 - bpp * (x + 1) - bpp) with (8 * c1 - bpp * (x + 1 + 1)) by lia. replace (k * 4 + 4) with ((k + 1) * 4) by lia.
    destruct (IH (x + 1) c1 (k + 1) z2) as (c' & z' & E & Hc' & Hr' & El' & Hs').
    + lia. + lia. + destruct Hc1 as (? & ? & ?). repeat split; lia. + lia. + lia.
    + destruct Hr1 as (Hw & Hy & Hp & _). unfold reads. now rewrite Ei, Ep.
    + exists c', z'. replace (k + Z.of_nat (S n)) with (k + 1 + Z.of_nat n) by lia.
      split; [exact E|]. split; [exact Hc'|]. split; [exact Hr'|]. split; [now rewrite El'|].
      rewrite Hs', Hs, <- app_assoc. f_equal. replace (Z.of_nat (S n)) with (1 + Z.of_nat n) by lia.
      rewrite upto_cons by lia. cbn [flat_map]. rewrite Z.add_0_r. f_equal.
      rewrite !flat_map_concat_map, map_map. f_equal. apply map_ext. intros j. do 2 f_equal. lia.
Qed.

Lemma row_end bpp tw row c : bpp = 1 \/ bpp = 2 \/ bpp = 4 -> zlen row = (tw * bpp + 7) / 8 -> row_at bpp row tw c ->
  zdrop c row = [] /\ 8 * c - bpp * (tw + 1) < 8 - bpp.
Proof.
  intros Hb Hl (Hc & H1 & H2). assert (E : c = zlen row) by (rewrite Hl in *; euclid).
  split; [apply zdrop_all; lia|]. rewrite E, Hl. euclid.
Qed.

Definition row_pixels (pal : list Z) (bpp tw : Z) (row : list Z) : list Z :=
  flat_map (fun x => entry pal (packed bpp row x)) (upto tw).

Lemma whole_row_run pal bpp tw row out k z : bpp = 1 \/ bpp = 2 \/ bpp = 4 -> 0 < tw -> bytes row ->
  zlen row = (tw * bpp + 7) / 8 -> 0 <= k -> k + tw <= full -> reads z (zdrop 1 row ++ out) ->
  exists shift encoded z1, palette_row (Z.to_nat tw) bpp (2 ^ bpp - 1) pal (8 - bpp) (zgetd row 0) (k * 4) z =
    (Ret (shift, encoded, (k + tw) * 4), z1) /\ shift < 8 - bpp /\ reads z1 out /\ _length z1 = _length z /\
    shown (k + tw) (_tileBuffer z1) = shown k (_tileBuffer z) ++ row_pixels pal bpp tw row.
Proof.
  intros Hbpp Htw Hb Hl Hk Hfull Hr.
  assert (Hstart : row_at bpp row 0 1).
  { unfold row_at. rewrite Hl. split; [split; [lia|]|lia]. apply Z.div_le_lower_bound; [lia|]. destruct Hbpp as [->|[->| ->]]; lia. }
  destruct (palette_row_run pal bpp row tw out Hbpp Hb Hl (Z.to_nat tw) 0 1 k z) as (c & z1 & E & Hc & Hr1 & El & Hs);
    [lia|lia|exact Hstart|exact Hk|lia|exact Hr|].
  replace (8 * 1 - bpp * (0 + 1)) with (8 - bpp) in E by lia. rewrite Z2Nat.id in * by lia.
  destruct (row_end bpp tw row c Hbpp Hl Hc) as [Hz Hsh]. rewrite Hz in Hr1. eauto 10.
Qed.

Lemma first_byte row : 0 < zlen row -> row = zgetd row 0 :: zdrop 1 row.
Proof. destruct row; [zlia|]. intros _. reflexivity. Qed.

Lemma palette_rows_run pal bpp tw out : bpp = 1 \/ bpp = 2 \/ bpp = 4 -> 0 < tw -> forall rows row k z,
  Forall (fun r => bytes r /\ zlen r = (tw * bpp + 7) / 8) (row :: rows) ->
  0 <= k -> k + tw * zlen (row :: rows) <= full -> reads z (zdrop 1 row ++ List.concat rows ++ out) ->
  exists z', palette_rows (List.length (row :: rows)) tw bpp (2 ^ bpp - 1) pal (zgetd row 0) (k * 4) z = (Ret tt, z') /\
    reads z' out /\ _length z' = _length z /\
    shown (k + tw * zlen (row :: rows)) (_tileBuffer z') =
      shown k (_tileBuffer z) ++ flat_map (row_pixels pal bpp tw) (row :: rows).
Proof.
  intros Hbpp Htw. induction rows as [|row2 rows IH]; intros row k z Hrows Hk Hfull Hr;
    inversion_clear Hrows as [|? ? [Hb Hl] Hrows']; cbn [List.length palette_rows].
  - change (zlen [row]) with 1 in *.
    destruct (whole_row_run pal bpp tw row out k z) as (sh & en & z1 & E & Hsh & Hr1 & El & Hs); auto; [lia|].
    rewrite (bind_run _ _ _ _ _ E). cbv iota beta. rewrite (proj2 (Z.ltb_lt _ _) Hsh). cbn [andb Nat.eqb negb].
    exists z1. cbn [flat_map]. rewrite Z.mul_1_r, app_nil_r. split; [reflexivity|]. auto.
  - inversion_clear Hrows' as [|? ? [Hb2 Hl2] Hrows2]. pose proof (zlen_nonneg rows). rewrite !zlen_cons in *.
    destruct (whole_row_run pal bpp tw row (List.concat (row2 :: rows) ++ out) k z) as (sh & en & z1 & E & Hsh & Hr1 & El & Hs);
      auto; [nia|]. rewrite (bind_run _ _ _ _ _ E). cbv iota beta. rewrite (proj2 (Z.ltb_lt _ _) Hsh).
    cbn [andb Nat.eqb negb List.concat] in *.
    assert (H2 : 1 <= zlen row2) by (rewrite Hl2; apply Z.div_le_lower_bound; [lia|destruct Hbpp as [->|[->| ->]]; lia]).
    rewrite <- app_assoc, (first_byte row2) in Hr1 by lia. cbn [app] in Hr1.
    destruct (next_byte_run _ _ _ Hr1) as (i & E2 & Hr2). rewrite (bind_run _ _ _ _ _ E2).
    destruct (IH row2 (k + tw) (set_inflator i z1)) as (z' & E' & Hr' & El' & Hs');
      [now constructor|lia|rewrite zlen_cons; nia|exact Hr2|].
    exists z'. split; [exact E'|]. split; [exact Hr'|]. split; [rewrite El'; exact El|].
    rewrite zlen_cons in Hs'. replace (k + tw * (1 + (1 + zlen rows))) with (k + tw + tw * (1 + zlen rows)) by lia.
    rewrite Hs'. cbn [_tileBuffer set_inflator]. rewrite Hs, <- app_assoc. reflexivity.
Qed.

(** ** Run-length encoded tiles *)

Lemma length_loop_run q : forall n acc r z out, 0 <= r < 255 -> (q < n)%nat -> reads z (repeat 255 q ++ r :: out) ->
  exists i, length_loop n acc z = (Ret (acc + 255 * Z.of_nat q + r), set_inflator i z) /\ reads (set_inflator i z) out.
Proof.
  induction q as [|q IH]; intros n acc r z out Hr Hn Hrd; destruct n as [|n]; try lia; cbn [length_loop repeat app] in *;
    destruct (next_byte_run _ _ _ Hrd) as (i & E & Hrd'); rewrite (bind_run _ _ _ _ _ E); cbv zeta.
  - destruct (Z.eqb_spec r 255); [lia|]. exists i. split; [|exact Hrd']. unfold ret. do 2 f_equal. lia.
  - cbn [Z.eqb Pos.eqb]. destruct (IH n (acc + 255) r (set_inflator i z) out) as (j & E' & Hrd2); [lia|lia|exact Hrd'|].
    exists j. rewrite E'. split; [|exact Hrd2]. do 2 f_equal. lia.
Qed.

(** The bytes of a run length. *)
Definition encode_length (n : Z) : list Z := zrep ((n - 1) / 255) 255 ++ [(n - 1) mod 255].

Lemma readRLELength_run z n out : 1 <= n <= full -> reads z (encode_length n ++ out) ->
  exists i, _readRLELength fuel z = (Ret n, set_inflator i z) /\ reads (set_inflator i z) out.
Proof.
  intros Hn Hr. unfold encode_length, zrep in Hr. rewrite <- app_assoc in Hr.
  assert (Hq : 0 <= (n - 1) / 255 <= 16) by euclid.
  destruct (length_loop_run (Z.to_nat ((n - 1) / 255)) fuel 0 ((n - 1) mod 255) z out (Z.mod_pos_bound (n - 1) 255 ltac:(lia)) ltac:(lia) Hr) as (i & E & Hr').
  exists i. split; [|exact Hr']. unfold _readRLELength. rewrite (bind_run _ _ _ _ _ E). unfold ret. do 2 f_equal.
  rewrite Z2Nat.id by lia. euclid.
Qed.

Definition run_of (v : list Z) (n : Z) : list Z := flat_map (fun _ => v) (upto n).

Lemma put_run_run z i n v out : reads z out -> zlen v = 4 -> 0 <= i -> 0 <= n -> i + n <= full ->
  exists z', put_run i n v z = (Ret tt, z') /\ reads z' out /\ _length z' = _length z /\ _pixelBuffer z' = _pixelBuffer z /\
    shown (i + n) (_tileBuffer z') = shown i (_tileBuffer z) ++ run_of v n.
Proof.
  intros (Hw & Hy & Hp & Ht) Hv Hi Hn Hf.
  destruct (shown_fold (fun _ => v) i n (_tileBuffer z)) as [H1 H2]; [auto|lia|lia|lia|].
  eexists. split; [reflexivity|]. unfold reads. cbn [_inflator _length _pixelBuffer _tileBuffer set_tileBuffer].
  refine (conj (conj Hw (conj Hy (conj Hp _))) (conj eq_refl (conj eq_refl _))); [now rewrite H2|exact H1].
Qed.

Definition rle_bytes (r : color * Z) : list Z := rgb (fst r) ++ encode_length (snd r).
Definition rle_pixels (r : color * Z) : list Z := run_of (rgba (fst r)) (snd r).
Definition total {A} (len : A -> Z) (l : list A) : Z := fold_right (fun a n => len a + n) 0 l.

Lemma total_nonneg {A} (len : A -> Z) l : Forall (fun a => 1 <= len a) l -> 0 <= total len l.
Proof. induction 1; cbn [total fold_right]; [lia|]. unfold total in IHForall. lia. Qed.

Lemma rle_loop_run out : forall runs turns i size z, Forall (fun r => 1 <= snd r) runs -> i + total snd runs = size ->
  0 <= i -> size <= full -> (Z.to_nat (size - i) <= turns)%nat -> reads z (flat_map rle_bytes runs ++ out) ->
  exists z', rle_loop fuel turns i size z = (Ret tt, z') /\ reads z' out /\ _length z' = _length z /\
    shown size (_tileBuffer z') = shown i (_tileBuffer z) ++ flat_map rle_pixels runs.
Proof.
  induction runs as [|[c n] runs IH]; intros turns i size z Hok Ht Hi Hsz Hturns Hr; cbn [total fold_right snd flat_map] in *.
  - exists z. assert (i = size) by lia. subst i. destruct turns; cbn [rle_loop]; rewrite Z.ltb_irrefl, app_nil_r; auto.
  - inversion_clear Hok as [|? ? Hn Hok']. cbn [snd] in Hn. pose proof (total_nonneg snd runs Hok') as Hp. unfold total in Hp.
    destruct turns as [|turns]; [lia|]. cbn [rle_loop]. destruct (Z.ltb_spec i size); [|lia].
    unfold rle_bytes in Hr at 1. cbn [fst snd] in Hr. rewrite <- !app_assoc in Hr.
    replace (rgb c) with (flat_map rgb [c]) in Hr by apply app_nil_r.
    destruct (readPixels_run z [c] _ Hr) as (z1 & E1 & Hr1 & Hs1 & Et1 & El1); [change (zlen [c]) with 1; lia|].
    change (zlen [c]) with 1 in *. rewrite (bind_run _ _ _ _ _ E1).
    destruct (readRLELength_run z1 n _ ltac:(lia) Hr1) as (j & E2 & Hr2). rewrite (bind_run _ _ _ _ _ E2).
    assert (Ee : entry (_pixelBuffer z1) 0 = rgba c).
    { refine (entry_rgba [c] _ 0 Hs1 _ _); [change (zlen [c]) with 1; lia|]. destruct Hr1 as (_ & _ & Hp1 & _). rewrite Hp1. discriminate. }
    rewrite Ee. assert (Hc4 : zlen (rgba c) = 4) by (destruct c as [[a b] d]; reflexivity).
    destruct (put_run_run _ i n (rgba c) _ Hr2 Hc4 Hi ltac:(lia) ltac:(lia)) as (z3 & E3 & Hr3 & El3 & _ & Hs3).
    rewrite (bind_run _ _ _ _ _ E3).
    destruct (IH turns (i + n) size z3 Hok') as (z' & E' & Hr' & El' & Hs'); [unfold total; lia|lia|lia|lia|exact Hr3|].
    exists z'. split; [exact E'|]. split; [exact Hr'|]. split; [rewrite El', El3; exact El1|].
    rewrite Hs', Hs3. cbn [_tileBuffer set_inflator]. rewrite Et1, <- app_assoc. reflexivity.
Qed.

(** A run of a palette entry: one pixel, or a length. *)
Inductive palette_run := Single (k : Z) | Run (k n : Z).
Definition prun_index (r : palette_run) : Z := match r with Single k | Run k _ => k end.
Definition prun_length (r : palette_run) : Z := match r with Single _ => 1 | Run _ n => n end.
Definition prun_bytes (r : palette_run) : list Z :=
  match r with Single k => [k] | Run k n => (128 + k) :: encode_length n end.
Definition color_of (pal : list color) (k : Z) : color := nth (Z.to_nat k) pal (0, 0, 0).
Definition prun_pixels (pal : list color) (r : palette_run) : list Z := run_of (rgba (color_of pal (prun_index r))) (prun_length r).

Lemma rle_palette_loop_run pal buf out : shown (zlen pal) buf = flat_map rgba pal -> zlen pal * 4 <= zlen buf -> zlen pal <= 127 ->
  forall runs turns i size z, Forall (fun r => 0 <= prun_index r < zlen pal /\ 1 <= prun_length r) runs ->
  i + total prun_length runs = size -> 0 <= i -> size <= full -> (Z.to_nat (size - i) <= turns)%nat ->
  reads z (flat_map prun_bytes runs ++ out) ->
  exists z', rle_palette_loop fuel turns buf (zlen pal) i size z = (Ret tt, z') /\ reads z' out /\ _length z' = _length z /\
    shown size (_tileBuffer z') = shown i (_tileBuffer z) ++ flat_map (prun_pixels pal) runs.
Proof.
  intros Hpal Hbuf H127. induction runs as [|r runs IH]; intros turns i size z Hok Ht Hi Hsz Hturns Hr; cbn [total fold_right flat_map] in *.
  - exists z. assert (i = size) by lia. subst i. destruct turns; cbn [rle_palette_loop]; rewrite Z.ltb_irrefl, app_nil_r; auto.
  - inversion_clear Hok as [|? ? [Hk Hn] Hok'].
    assert (Hp : 0 <= total prun_length runs) by (apply total_nonneg; revert Hok'; apply Forall_impl; tauto). unfold total in Hp.
    destruct turns as [|turns]; [lia|]. cbn [rle_palette_loop]. destruct (Z.ltb_spec i size); [|lia].
    (* index and length *)
    assert (Hhead : exists j, (indexInPalette <- next_byte ;;
        (if 128 <=? indexInPalette then length <- _readRLELength fuel ;; ret (indexInPalette - 128, length)
         else ret (indexInPalette, 1))) z = (Ret (prun_index r, prun_length r), set_inflator j z) /\
        reads (set_inflator j z) (flat_map prun_bytes runs ++ out)).
    { destruct r as [k|k n]; cbn [prun_index prun_length prun_bytes app] in *;
        destruct (next_byte_run _ _ _ Hr) as (j & E & Hr1); rewrite (bind_run _ _ _ _ _ E).
      - destruct (Z.leb_spec 128 k); [lia|]. exists j. now split.
      - destruct (Z.leb_spec 128 (128 + k)); [|lia]. rewrite <- app_assoc in Hr1.
        destruct (readRLELength_run _ n _ ltac:(lia) Hr1) as (j2 & E2 & Hr2). rewrite (bind_run _ _ _ _ _ E2).
        exists j2. replace (128 + k - 128) with k by lia. now split. }
    destruct Hhead as (j & E1 & Hr1). rewrite <- bind_assoc_run, (bind_run _ _ _ _ _ E1). cbv iota beta.
    destruct (Z.ltb_spec (zlen pal) (prun_index r)); [lia|]. destruct (Z.ltb_spec size (i + prun_length r)); [lia|].
    assert (Ee : entry buf (prun_index r) = rgba (color_of pal (prun_index r))) by (apply (entry_rgba pal); assumption).
    rewrite Ee. assert (Hc4 : zlen (rgba (color_of pal (prun_index r))) = 4) by (destruct (color_of _ _) as [[a b] d]; reflexivity).
    destruct (put_run_run _ i (prun_length r) _ _ Hr1 Hc4 Hi ltac:(lia) ltac:(lia)) as (z3 & E3 & Hr3 & El3 & _ & Hs3).
    rewrite (bind_run _ _ _ _ _ E3).
    destruct (IH turns (i + prun_length r) size z3 Hok') as (z' & E' & Hr' & El' & Hs'); [unfold total; lia|lia|lia|lia|exact Hr3|].
    exists z'. split; [exact E'|]. split; [exact Hr'|]. split; [rewrite El', El3; reflexivity|].
    rewrite Hs', Hs3. cbn [_tileBuffer set_inflator]. rewrite <- app_assoc. reflexivity.
Qed.

(** * Tiles *)

(** A tile as the server means it. *)
Inductive tile :=
| RawTile (pixels : list color)
| Solid (c : color)
| Packed (pal : list color) (rows : list (list Z))
| Rle (runs : list (color * Z))
| PaletteRle (pal : list color) (runs : list palette_run).

Definition encode_tile (t : tile) : list Z :=
  match t with
  | RawTile px => 0 :: flat_map rgb px
  | Solid c => 1 :: rgb c
  | Packed pal rows => zlen pal :: flat_map rgb pal ++ List.concat rows
  | Rle runs => 128 :: flat_map rle_bytes runs
  | PaletteRle pal runs => (128 + zlen pal) :: flat_map rgb pal ++ flat_map prun_bytes runs
  end.

Definition tile_ok (tw th : Z) (t : tile) : Prop :=
  match t with
  | RawTile px => zlen px = tw * th
  | Solid _ => True
  | Packed pal rows =>
      2 <= zlen pal <= 16 /\ zlen rows = th /\
      Forall (fun r => bytes r /\ zlen r = (tw * depth_of (zlen pal) + 7) / 8 /\
        forall x, 0 <= x < tw -> packed (depth_of (zlen pal)) r x < zlen pal) rows
  | Rle runs => Forall (fun r => 1 <= snd r) runs /\ total snd runs = tw * th
  | PaletteRle pal runs =>
      2 <= zlen pal <= 127 /\ Forall (fun r => 0 <= prun_index r < zlen pal /\ 1 <= prun_length r) runs /\
      total prun_length runs = tw * th
  end.

(** The pixels of a tile, row by row, opaque. *)
Definition tile_pixels (tw : Z) (t : tile) : list Z :=
  match t with
  | RawTile px => flat_map rgba px
  | Solid _ => []
  | Packed pal rows =>
      flat_map (fun r => flat_map (fun x => rgba (color_of pal (packed (depth_of (zlen pal)) r x))) (upto tw)) rows
  | Rle runs => flat_map rle_pixels runs
  | PaletteRle pal runs => flat_map (prun_pixels pal) runs
  end.

Definition tile_draw (tx ty tw th : Z) (t : tile) : draw :=
  match t with Solid c => DFill tx ty tw th (rgb c) | _ => DBlit tx ty tw th (tile_pixels tw t) end.

Section World.
Abbreviation W := (world zrle asrc trace).
Implicit Types (s : asrc) (t : trace).

Lemma blit_shown x y w h buf px t : 0 < w -> 0 < h -> w * h <= full -> zlen buf = full * 4 -> shown (w * h) buf = px ->
  (blitImage x y w h (fresh_view buf) 0 : M trace unit) t = (Ret tt, t ++ [DBlit x y w h px]).
Proof.
  intros Hw Hh Hf Hl Hs. cbn [blitImage trace_renderer fresh_view v_offset v_buffer]. rewrite Hl.
  change (0 + 0) with 0. rewrite !Z.add_0_l. destruct (Z.ltb_spec (full * 4) (w * h * 4)); [lia|]. cbn [Z.ltb Z.compare orb].
  destruct (Z.leb_spec w 0), (Z.leb_spec h 0); try lia. cbn [orb]. unfold zslice. rewrite zdrop_nonpos, Z.sub_0_r by lia.
  fold (shown (w * h) buf). now rewrite Hs.
Qed.

(** A decoder that fills a buffer, and the blit of it. *)
Lemma blit_run (m : M zrle (list Z)) tx ty tw th z z' buf px s t : 0 < tw -> 0 < th -> tw * th <= full ->
  m z = (Ret buf, z') -> zlen buf = full * 4 -> shown (tw * th) buf = px ->
  (data <- onDec m ;; onDisp (blitImage tx ty tw th (fresh_view data) 0)) (World z s t : W) =
  (Ret tt, World z' s (t ++ [DBlit tx ty tw th px])).
Proof.
  intros Hw Hh Hf Hm Hl Hs. rewrite (run_dec _ _ _ _ _ _ _ Hm). unfold onDisp, lift. cbn [disp].
  now rewrite (blit_shown tx ty tw th buf px t Hw Hh Hf Hl Hs).
Qed.

Lemma depth_cases n : depth_of n = 1 \/ depth_of n = 2 \/ depth_of n = 4.
Proof. unfold depth_of. repeat case_if; auto. Qed.

Lemma bits_per_pixel n : 2 <= n <= 16 -> _getBitsPerPixelInPalette n = Some (depth_of n).
Proof.
  intros Hn. unfold _getBitsPerPixelInPalette, depth_of. destruct (n <=? 2), (n <=? 4); try reflexivity.
  destruct (Z.leb_spec n 16); [reflexivity|lia].
Qed.

Lemma palette_tile_run pal rows tw th z out : tile_ok tw th (Packed pal rows) -> 0 < tw -> 0 < th -> tw * th <= full ->
  reads z (flat_map rgb pal ++ List.concat rows ++ out) ->
  exists z', _decodePaletteTile (zlen pal) (tw * th) tw th z = (Ret (_tileBuffer z'), z') /\ reads z' out /\
    _length z' = _length z /\ shown (tw * th) (_tileBuffer z') = tile_pixels tw (Packed pal rows).
Proof.
  intros (Hn & Hth & Hrows) Hw Hh Hf Hr. destruct (readPixels_run z pal _ Hr) as (z1 & E1 & Hr1 & Hs1 & Et1 & El1); [lia|].
  unfold _decodePaletteTile. rewrite (bind_run _ _ _ _ _ E1), (bits_per_pixel _ Hn). clear E1.
  pose proof (depth_cases (zlen pal)) as Hd. set (bpp := depth_of (zlen pal)) in *.
  replace ((1 << bpp)%js - 1) with (2 ^ bpp - 1) by (destruct Hd as [->|[->| ->]]; reflexivity).
  destruct rows as [|row rows]; [change (zlen (@nil (list Z))) with 0 in Hth; lia|].
  assert (Hrl : Forall (fun r => bytes r /\ zlen r = (tw * bpp + 7) / 8) (row :: rows)) by (revert Hrows; apply Forall_impl; tauto).
  assert (Hl1 : 1 <= zlen row).
  { inversion_clear Hrl as [|? ? [_ Hl] _]. rewrite Hl. apply Z.div_le_lower_bound; [lia|]. destruct Hd as [->|[->| ->]]; lia. }
  cbn [List.concat] in Hr1. rewrite (first_byte row) in Hr1 by lia. rewrite <- app_assoc in Hr1. cbn [app] in Hr1.
  destruct (next_byte_run _ _ _ Hr1) as (i & E2 & Hr2). rewrite (bind_run _ _ _ _ _ E2). clear E2.
  destruct (palette_rows_run (_pixelBuffer z1) bpp tw out Hd Hw rows row 0 (set_inflator i z1) Hrl) as (z' & E3 & Hr' & El' & Hs');
    [lia|rewrite Hth; lia|exact Hr2|].
  replace (Z.to_nat th) with (List.length (row :: rows)) by (unfold zlen in Hth; lia).
  change (0 * 4) with 0 in E3. rewrite (bind_run _ _ _ _ _ E3). exists z'. split; [reflexivity|]. split; [exact Hr'|].
  split; [rewrite El'; exact El1|]. rewrite Z.add_0_l, Hth in Hs'. rewrite Hs'. unfold shown at 1. rewrite (ztake_nonpos (0 * 4)) by lia.
  cbn [app tile_pixels]. fold bpp.
  assert (Hp1 : zlen (_pixelBuffer z1) = full * 4) by apply Hr1. rewrite !flat_map_concat_map. f_equal. apply map_ext_in.
  intros r Hin. rewrite Forall_forall in Hrows. destruct (Hrows r Hin) as (Hb & _ & Hpk). unfold row_pixels.
  rewrite !flat_map_concat_map. f_equal. apply map_ext_in. intros x Hx. apply in_upto in Hx.
  apply (entry_rgba pal); [exact Hs1| |lia]. split; [|now apply Hpk]. unfold packed. apply Z.mod_pos_bound.
  apply Z.pow_pos_nonneg; destruct Hd as [->|[->| ->]]; lia.
Qed.

(** One tile: what it says is drawn in its place. *)
Lemma decode_tile_run tl tx ty tw th z s t out : tile_ok tw th tl -> 0 < tw -> 0 < th -> tw * th <= full ->
  reads z (encode_tile tl ++ out) ->
  exists z', decode_tile fuel tx ty tw th (World z s t : W) = (Ret tt, World z' s (t ++ [tile_draw tx ty tw th tl])) /\
    reads z' out /\ _length z' = _length z.
Proof.
  intros Hok Hw Hh Hf Hr. assert (Htb : forall z1 o, reads z1 o -> zlen (_tileBuffer z1) = full * 4 /\ zlen (_pixelBuffer z1) = full * 4)
    by (intros z1 o (_ & _ & H1 & H2); auto).
  assert (Hsize : 0 < tw * th) by nia. unfold decode_tile.
  destruct tl as [px|c|pal rows|runs|pal runs]; cbn [encode_tile tile_ok tile_draw] in *;
    cbn [app] in Hr; rewrite <- ?app_assoc in Hr;
    destruct (next_byte_run _ _ _ Hr) as (i & E & Hr1); rewrite (run_dec _ _ _ _ _ _ _ E).
  - cbn [Z.eqb]. destruct (readPixels_run _ px _ Hr1) as (z' & E' & Hr' & Hs' & _ & El'); [lia|].
    rewrite Hok in E', Hs'. exists z'. split; [|auto]. apply (blit_run _ _ _ _ _ _ _ _ _ _ _ Hw Hh Hf E' ltac:(eapply Htb, Hr') Hs').
  - cbn [Z.eqb Pos.eqb]. replace (rgb c) with (flat_map rgb [c]) in Hr1 by apply app_nil_r.
    destruct (readPixels_run _ [c] _ Hr1) as (z' & E' & Hr' & Hs' & _ & El'); [change (zlen [c]) with 1; lia|].
    change (zlen [c]) with 1 in *. exists z'. rewrite (run_dec _ _ _ _ _ _ _ E'). split; [|auto].
    assert (Ee : entry (_pixelBuffer z') 0 = rgba c).
    { refine (entry_rgba [c] _ 0 Hs' _ _); [change (zlen [c]) with 1; lia|]. destruct (Htb _ _ Hr') as [_ ->]. discriminate. }
    unfold entry in Ee. change (0 * 4) with 0 in Ee. cbn [Z.add] in Ee. destruct c as [[r g] b]. injection Ee as -> -> -> _. reflexivity.
  - destruct Hok as (Hn & Hok). destruct (Z.eqb_spec (zlen pal) 0), (Z.eqb_spec (zlen pal) 1); try lia.
    destruct (Z.leb_spec 2 (zlen pal)), (Z.leb_spec (zlen pal) 16); try lia. cbn [andb].
    destruct (palette_tile_run pal rows tw th _ out (conj Hn Hok) Hw Hh Hf Hr1) as (z' & E' & Hr' & El' & Hs').
    exists z'. split; [|auto]. apply (blit_run _ _ _ _ _ _ _ _ _ _ _ Hw Hh Hf E' ltac:(eapply Htb, Hr') Hs').
  - cbn [Z.eqb Pos.eqb Z.leb Z.compare Pos.compare Pos.compare_cont andb].
    destruct Hok as [Hok Ht]. destruct (rle_loop_run out runs (Z.to_nat (tw * th)) 0 (tw * th) (set_inflator i z) Hok) as (z' & E' & Hr' & El' & Hs');
      [lia|lia|exact Hf|lia|exact Hr1|].
    exists z'. split; [|auto]. refine (blit_run _ _ _ _ _ _ _ _ _ _ _ Hw Hh Hf _ (proj1 (Htb _ _ Hr')) Hs').
    unfold _decodeRLETile. now rewrite (bind_run _ _ _ _ _ E').
  - destruct Hok as (Hn & Hok & Ht).
    destruct (Z.eqb_spec (128 + zlen pal) 0), (Z.eqb_spec (128 + zlen pal) 1), (Z.eqb_spec (128 + zlen pal) 128); try lia.
    destruct (Z.leb_spec (128 + zlen pal) 16); [lia|]. rewrite andb_false_r.
    destruct (Z.leb_spec 130 (128 + zlen pal)), (Z.leb_spec (128 + zlen pal) 255); try lia. cbn [andb].
    replace (128 + zlen pal - 128) with (zlen pal) by lia.
    destruct (readPixels_run _ pal _ Hr1) as (z1 & E1 & Hr2 & Hs1 & _ & El1); [lia|].
    destruct (rle_palette_loop_run pal (_pixelBuffer z1) out Hs1) with (runs := runs) (turns := Z.to_nat (tw * th)) (i := 0)
      (size := tw * th) (z := z1) as (z' & E' & Hr' & El' & Hs'); auto; try lia.
    { destruct (Htb _ _ Hr2) as [_ ->]. lia. }
    exists z'. split; [|split; [exact Hr'|rewrite El'; exact El1]]. refine (blit_run _ _ _ _ _ _ _ _ _ _ _ Hw Hh Hf _ (proj1 (Htb _ _ Hr')) Hs').
    unfold _decodeRLEPaletteTile. rewrite (bind_run _ _ _ _ _ E1). now rewrite (bind_run _ _ _ _ _ E').
Qed.

(** * A whole rectangle *)

Variables x y width height depth : Z.

(** The tiles of a row, from column [tx] on, and the rows from [ty] on. *)
Fixpoint row_ok (tx th : Z) (tiles : list tile) : Prop :=
  match tiles with
  | [] => x + width <= tx
  | tl :: tiles => tx < x + width /\ tile_ok (Z.min 64 (x + width - tx)) th tl /\ row_ok (tx + 64) th tiles
  end.

Fixpoint rows_ok (ty : Z) (rows : list (list tile)) : Prop :=
  match rows with
  | [] => y + height <= ty
  | row :: rows => ty < y + height /\ row_ok x (Z.min 64 (y + height - ty)) row /\ rows_ok (ty + 64) rows
  end.

Fixpoint row_draws (tx ty th : Z) (tiles : list tile) : list draw :=
  match tiles with
  | [] => []
  | tl :: tiles => tile_draw tx ty (Z.min 64 (x + width - tx)) th tl :: row_draws (tx + 64) ty th tiles
  end.

Fixpoint rect_draws (ty : Z) (rows : list (list tile)) : list draw :=
  match rows with
  | [] => []
  | row :: rows => row_draws x ty (Z.min 64 (y + height - ty)) row ++ rect_draws (ty + 64) rows
  end.

Lemma tx_loop_run ty th s out : 0 < th <= 64 -> forall tiles n tx z t, row_ok tx th tiles -> (Z.to_nat (x + width - tx) <= n)%nat ->
  reads z (flat_map encode_tile tiles ++ out) ->
  exists z', tx_loop fuel n x width tx ty th (World z s t : W) = (Ret tt, World z' s (t ++ row_draws tx ty th tiles)) /\
    reads z' out /\ _length z' = _length z.
Proof.
  intros Hth. induction tiles as [|tl tiles IH]; intros n tx z t Hok Hn Hr; cbn [row_ok row_draws flat_map] in *.
  - exists z. rewrite app_nil_r. destruct n; cbn [tx_loop]; (destruct (Z.ltb_spec tx (x + width)); [lia|]); auto.
  - destruct Hok as (Hlt & Htl & Hok). destruct n as [|n]; [lia|]. cbn [tx_loop]. destruct (Z.ltb_spec tx (x + width)); [|lia].
    unfold ZRLE_TILE_WIDTH. cbv zeta. rewrite <- app_assoc in Hr.
    destruct (decode_tile_run tl tx ty (Z.min 64 (x + width - tx)) th z s t _ Htl ltac:(lia) ltac:(lia) ltac:(nia) Hr) as (z1 & E & Hr1 & El).
    rewrite (bind_run _ _ _ _ _ E). destruct (IH n (tx + 64) z1 (t ++ [tile_draw tx ty (Z.min 64 (x + width - tx)) th tl]) Hok) as (z' & E' & Hr' & El');
      [lia|exact Hr1|]. exists z'. split; [etransitivity; [exact E'|now rewrite <- app_assoc]|]. split; [exact Hr'|now rewrite El'].
Qed.

Lemma ty_loop_run s out : forall rows n ty z t, rows_ok ty rows -> (Z.to_nat (y + height - ty) <= n)%nat ->
  reads z (flat_map (flat_map encode_tile) rows ++ out) ->
  exists z', ty_loop fuel n x y width height ty (World z s t : W) = (Ret tt, World z' s (t ++ rect_draws ty rows)) /\
    reads z' out /\ _length z' = _length z.
Proof.
  induction rows as [|row rows IH]; intros n ty z t Hok Hn Hr; cbn [rows_ok rect_draws flat_map] in *.
  - exists z. rewrite app_nil_r. destruct n; cbn [ty_loop]; (destruct (Z.ltb_spec ty (y + height)); [lia|]); auto.
  - destruct Hok as (Hlt & Hrow & Hok). destruct n as [|n]; [lia|]. cbn [ty_loop]. destruct (Z.ltb_spec ty (y + height)); [|lia].
    unfold ZRLE_TILE_HEIGHT. cbv zeta. rewrite <- app_assoc in Hr.
    destruct (tx_loop_run ty (Z.min 64 (y + height - ty)) s _ ltac:(lia) row (Z.to_nat width) x z t Hrow ltac:(lia) Hr) as (z1 & E & Hr1 & El).
    rewrite (bind_run _ _ _ _ _ E). destruct (IH n (ty + 64) z1 (t ++ row_draws x ty (Z.min 64 (y + height - ty)) row) Hok) as (z' & E' & Hr' & El');
      [lia|exact Hr1|]. exists z'. split; [etransitivity; [exact E'|now rewrite <- app_assoc]|]. split; [exact Hr'|now rewrite El'].
Qed.

(** A decoder between rectangles, and the compressed data it can take. *)
Definition ready z : Prop :=
  wf_inflator (_inflator z) /\ zlen (_pixelBuffer z) = full * 4 /\ zlen (_tileBuffer z) = full * 4.

Lemma data_run z p data tail t rows : ready z -> _length z = zlen data -> 0 < zlen data -> rows_ok y rows ->
  yields (state (_inflator z)) data (flat_map (flat_map encode_tile) rows) ->
  exists p' z', decodeRect fuel x y width height depth (World z (ASrc p (data ++ tail)) t : W) =
    (Ret true, World z' (ASrc p' tail) (t ++ rect_draws y rows)) /\ ready z' /\ _length z' = 0.
Proof.
  intros (Hw & Hp & Htb) Hl Hpos Hok Hy. unfold decodeRect. rewrite run_get. destruct (Z.eqb_spec (_length z) 0); [lia|].
  unfold bind at 1, ret at 1. rewrite run_get, run_wait by (rewrite zlen_app; pose proof (zlen_nonneg tail); lia).
  rewrite run_view by (unfold same; lia). unfold same. rewrite view_bytes_fresh.
  rewrite (run_dec _ _ _ _ _ tt (set_inflator (mkInflator (state (_inflator z)) data (buffers (_inflator z)) (chunkSize (_inflator z))) z)) by reflexivity.
  destruct (ty_loop_run (ASrc (p ++ data) tail) [] rows (Z.to_nat height) y
    (set_inflator (mkInflator (state (_inflator z)) data (buffers (_inflator z)) (chunkSize (_inflator z))) z) t Hok) as (z' & E & Hr & El).
  - lia.
  - rewrite app_nil_r. exact (conj Hw (conj Hy (conj Hp Htb))).
  - rewrite (bind_run _ _ _ _ _ E), run_modify. exists (p ++ data), (set_length 0 z'). split; [reflexivity|].
    destruct Hr as (H1 & _ & H2 & H3). split; [exact (conj H1 (conj H2 H3))|reflexivity].
Qed.

(** What a call does while bytes are missing. *)
Lemma data_waits z p r t : _length z <> 0 -> zlen r < _length z ->
  decodeRect fuel x y width height depth (World z (ASrc p r) t : W) = (Ret false, World z (ASrc p r) t).
Proof.
  intros Hl Hs. unfold decodeRect. rewrite run_get. destruct (Z.eqb_spec (_length z) 0); [easy|].
  unfold bind at 1, ret at 1. rewrite run_get. unfold bind at 1, onSock at 1, lift. wcbn. now rewrite asrc_wait_short.
Qed.

Lemma length_waits z p r t : _length z = 0 -> zlen r < 4 ->
  decodeRect fuel x y width height depth (World z (ASrc p r) t : W) = (Ret false, World z (ASrc p r) t).
Proof.
  intros Hl Hs. unfold decodeRect. rewrite run_get, Hl. cbn [Z.eqb]. rewrite bind_assoc_run.
  unfold bind at 1, onSock at 1, lift. wcbn. now rewrite asrc_wait_short.
Qed.

Lemma length_read z p l r t : _length z = 0 -> zlen l = 4 -> be l <> 0 ->
  decodeRect fuel x y width height depth (World z (ASrc p (l ++ r)) t : W) =
  decodeRect fuel x y width height depth (World (set_length (be l) z) (ASrc (p ++ l) r) t : W).
Proof.
  intros Hl Hl4 Hne. unfold decodeRect. rewrite !run_get, Hl. cbn [Z.eqb _length set_length].
  rewrite bind_assoc_run, run_wait by (rewrite zlen_app; pose proof (zlen_nonneg r); lia).
  rewrite bind_assoc_run, (run_take 4 same be) by exact Hl4. rewrite bind_assoc_run, run_modify. unfold same.
  destruct (Z.eqb_spec (be l) 0); [easy|]. reflexivity.
Qed.

Abbreviation m := (decodeRect fuel x y width height depth : M W bool).

Lemma feed_data data tail t rows : 0 < zlen data -> rows_ok y rows -> forall chunks z p r, ready z -> _length z = zlen data ->
  yields (state (_inflator z)) data (flat_map (flat_map encode_tile) rows) -> r ++ List.concat chunks = data ++ tail ->
  exists p' z', feed m (World z (ASrc p r) t) chunks =
    (Ret true, World z' (ASrc p' tail) (t ++ rect_draws y rows)) /\ ready z' /\ _length z' = 0.
Proof.
  intros Hpos Hok. induction chunks as [|c cs IH]; intros z p r Hz Hl Hy Hr; cbn [feed List.concat] in *.
  - rewrite app_nil_r in Hr. subst r. now apply data_run.
  - destruct (Z_lt_le_dec (zlen r) (zlen data)) as [Hs|Hs].
    + rewrite data_waits by lia. cbn [ext dec sock disp past rest]. apply IH; auto. now rewrite <- app_assoc.
    + destruct (app_prefix data tail r (c ++ List.concat cs)) as (r' & -> & ->); [now symmetry|exact Hs|].
      destruct (data_run z p data r' t rows Hz Hl Hpos Hok Hy) as (p' & z' & E & Hz' & Hl'). rewrite E.
      exists p', z'. split; [reflexivity|auto].
Qed.

Lemma feed_same w w' chunks : m w = m w' -> feed m w chunks = feed m w' chunks.
Proof. intros E. destruct chunks; cbn [feed]; now rewrite E. Qed.

(** C10.  ZRLE: given the length of the compressed data and the data, cut into
    messages anywhere, and anything behind, the decoder draws the tiles of the
    rectangle in order, each in its place: raw pixels, one colour, packed
    palette indices, runs of colours or runs of palette entries.  Exactly the
    length and the data are consumed, and the decoder is ready for the next
    rectangle. *)
Theorem zrle_draws chunks data tail t rows z p r :
  0 < zlen data < 4294967296 -> rows_ok y rows -> ready z -> _length z = 0 ->
  yields (state (_inflator z)) data (flat_map (flat_map encode_tile) rows) ->
  r ++ List.concat chunks = be_bytes 4 (zlen data) ++ data ++ tail ->
  exists p' z', feed m (World z (ASrc p r) t) chunks =
    (Ret true, World z' (ASrc p' tail) (t ++ rect_draws y rows)) /\ ready z' /\ _length z' = 0.
Proof.
  intros Hlen Hok. revert z p r. induction chunks as [|c cs IH]; intros z p r Hz Hl Hy Hr.
  all: destruct (Z_lt_le_dec (zlen r) 4) as [Hs|Hs].
  - rewrite app_nil_r in Hr. subst r. rewrite zlen_app, zlen_be_bytes in Hs. pose proof (zlen_nonneg (data ++ tail)). lia.
  - destruct (app_prefix (be_bytes 4 (zlen data)) (data ++ tail) r (List.concat [])) as (r' & -> & Er); [now symmetry|exact Hs|].
    assert (Hbe : be (be_bytes 4 (zlen data)) = zlen data) by (apply be_bytes_small; exact (conj (Z.lt_le_incl _ _ (proj1 Hlen)) (proj2 Hlen))).
    rewrite (feed_same _ _ [] (length_read z p (be_bytes 4 (zlen data)) r' t Hl eq_refl ltac:(lia))).
    apply (feed_data data tail t rows); auto; lia.
  - cbn [feed List.concat] in *. rewrite length_waits by lia. cbn [ext dec sock disp past rest]. apply IH; auto. now rewrite <- app_assoc.
  - destruct (app_prefix (be_bytes 4 (zlen data)) (data ++ tail) r (List.concat (c :: cs))) as (r' & -> & Er); [now symmetry|exact Hs|].
    assert (Hbe : be (be_bytes 4 (zlen data)) = zlen data) by (apply be_bytes_small; exact (conj (Z.lt_le_incl _ _ (proj1 Hlen)) (proj2 Hlen))).
    rewrite (feed_same _ _ (c :: cs) (length_read z p (be_bytes 4 (zlen data)) r' t Hl eq_refl ltac:(lia))).
    apply (feed_data data tail t rows); auto; lia.
Qed.
End World.
End Tiles.

(** A rectangle of 3 by 2 pixels, packed with a palette of two colours, in three
    messages. *)
Lemma zrle_draws_witness : exists p' z',
  feed (@decodeRect stored asrc trace _ _ 17 5 7 3 2 24)
    (World (@constructor stored) (ASrc [] []) [])
    [[0; 0]; [0; 9; 2; 1; 2; 3; 9; 9]; [9; 64; 160; 77]] =
  (Ret true, World z' (ASrc p' [77])
    [DBlit 5 7 3 2 [1; 2; 3; 255; 9; 9; 9; 255; 1; 2; 3; 255; 9; 9; 9; 255; 1; 2; 3; 255; 9; 9; 9; 255]]) /\ _length z' = 0.
Proof.
  destruct (@zrle_draws stored stored_ok 17 ltac:(lia) 5 7 3 2 24 [[0; 0]; [0; 9; 2; 1; 2; 3; 9; 9]; [9; 64; 160; 77]]
    [2; 1; 2; 3; 9; 9; 9; 64; 160] [77] [] [[Packed [(1, 2, 3); (9, 9, 9)] [[64]; [160]]]] (@constructor stored) [] [])
    as (p' & z' & E & _ & Hl).
  - split; reflexivity.
  - cbn [rows_ok row_ok]. repeat split; try (cbn; discriminate || reflexivity).
    repeat constructor; try (cbn; discriminate || reflexivity || (intros x Hx; assert (E : x = 0 \/ x = 1 \/ x = 2) by lia; destruct E as [->|[->| ->]]; reflexivity)).
  - split; [apply wf_constructor|]. split; (etransitivity; [apply zlen_zrep|reflexivity]).
  - reflexivity.
  - reflexivity.
  - reflexivity.
  - exists p', z'. split; [exact E|exact Hl].
Defined.
