(* ===== verification/Tight.v ===== *)
(** The Tight and TightPNG decoders, core/decoders/tight.js and tightpng.js.

    TightPNG is the Tight decoder with two methods replaced; the common part
    takes them as arguments.  The decompressor is a parameter
    ([Inflator.Zlib]). *)

From Stdlib Require Import ZArith List Lia Bool String.
From S2P Require Import Prelude Source Sink Websock Display Decoder Decoders Inflator Pixels.
Import ListNotations JS JSFacts.
Open Scope Z_scope.
Open Scope code_scope.

Module TightDecoder.
Import Inflator.

(** [rgbx[p] = r; rgbx[p + 1] = g; rgbx[p + 2] = b; rgbx[p + 3] = 255] *)
Definition put_rgb (p : Z) (r g b : Z) (rgbx : list Z) : list Z :=
  put4 p [r; g; b; 255] rgbx.

(** The loop of the copy filter: [rgbx] is a new array. *)
Definition copy_pixels (n : Z) (data : list Z) : list Z :=
  fold_left (fun rgbx k => put_rgb (k * 4) (zgetd data (k * 3)) (zgetd data (k * 3 + 1)) (zgetd data (k * 3 + 2)) rgbx)
    (upto n) (zrep (n * 4) 0).

(** One pixel of a two-coloured rectangle: bit [b] of byte [sb] of the data. *)
Definition mono_pixel (palette data : list Z) (dp sb b : Z) (dest : list Z) : list Z :=
  let sp := ((zgetd data sb >> b) & 1)%js * 3 in
  put_rgb dp (zgetd palette sp) (zgetd palette (sp + 1)) (zgetd palette (sp + 2)) dest.

(** The bits from 7 down to [8 - n]. *)
Definition high_bits (n : Z) : list Z := map (fun i => 7 - i) (upto n).

Definition mono_row (width : Z) (palette data : list Z) (y : Z) (dest : list Z) : list Z :=
  let w := (width + 7) / 8 in
  let w1 := width / 8 in
  let byte x n dest :=
    fold_left (fun dest b => mono_pixel palette data ((y * width + x * 8 + 7 - b) * 4) (y * w + x) b dest)
      (high_bits n) dest in
  let dest := fold_left (fun dest x => byte x 8 dest) (upto w1) dest in
  byte w1 (width mod 8) dest.

Definition mono_pixels (width height : Z) (palette data dest : list Z) : list Z :=
  fold_left (fun dest y => mono_row width palette data y dest) (upto height) dest.

(** Behind the end of the data [data[j]] is undefined, [sp] is not a number, and
    what is stored is zero. *)
Definition palette_pixels (n : Z) (palette data dest : list Z) : list Z :=
  fold_left (fun dest k =>
    let color i := match zget data k with Some v => zgetd palette (v * 3 + i) | None => 0 end in
    put_rgb (k * 4) (color 0) (color 1) (color 2) dest) (upto n) dest.

(** ** The gradient filter *)

(** What the two loops keep: the array written so far, in order, the index
    into the data, the pixel to the left, and the pixel above the left one. *)
Record gradient := Gradient { g_rgbx : list Z; g_data : Z; g_left : list Z; g_upperleft : list Z }.

(** One component of a pixel of the first row. *)
Definition first_component (data : list Z) (g : gradient) (c : Z) : gradient :=
  let prediction := zgetd (g_left g) c in
  let value := toUint8 (zgetd data (g_data g) + prediction) in
  Gradient (g_rgbx g ++ [value]) (g_data g + 1) (zset (g_left g) c value) (g_upperleft g).

Definition first_pixel (data : list Z) (g : gradient) : gradient :=
  let g := fold_left (first_component data) (upto 3) g in
  Gradient (g_rgbx g ++ [255]) (g_data g) (g_left g) (g_upperleft g).

(** One component of a pixel below; [upper] is the number of the pixel above. *)
Definition next_component (data : list Z) (upper : Z) (g : gradient) (c : Z) : gradient :=
  let above := zgetd (g_rgbx g) (upper * 4 + c) in
  let prediction := zgetd (g_left g) c + above - zgetd (g_upperleft g) c in
  let prediction := if prediction <? 0 then 0 else if 255 <? prediction then 255 else prediction in
  let value := toUint8 (zgetd data (g_data g) + prediction) in
  Gradient (g_rgbx g ++ [value]) (g_data g + 1) (zset (g_left g) c value) (zset (g_upperleft g) c above).

Definition next_pixel (data : list Z) (g : gradient) (upper : Z) : gradient :=
  let g := fold_left (next_component data upper) (upto 3) g in
  Gradient (g_rgbx g ++ [255]) (g_data g) (g_left g) (g_upperleft g).

Definition next_row (width : Z) (data : list Z) (g : gradient) (y : Z) : gradient :=
  fold_left (next_pixel data) (map (fun x => (y - 1) * width + x) (upto width))
    (Gradient (g_rgbx g) (g_data g) [0; 0; 0] [0; 0; 0]).

Definition gradient_pixels (width height : Z) (data : list Z) : list Z :=
  let g := fold_left (fun g _ => first_pixel data g) (upto width) (Gradient [] 0 [0; 0; 0] [0; 0; 0]) in
  g_rgbx (fold_left (next_row width data) (map (fun y => y + 1) (upto (height - 1))) g).

Section Tight.
Context `{Zlib} {S D : Type} `{ByteSource S} `{Renderer D}.

(** None is null, and for the scratch buffer undefined. *)
Record tight := mkTight {
  _ctl : option Z;
  _filter : option Z;
  _numColors : Z;
  _palette : list Z;
  _len : Z;
  _zlibs : list inflator;
  _scratchBuffer : option (list Z)
}.

Definition constructor : tight :=
  mkTight None None 0 (zrep 1024 0) 0 (repeat Inflator.constructor 4) None.

Definition set_ctl v t := mkTight v (_filter t) (_numColors t) (_palette t) (_len t) (_zlibs t) (_scratchBuffer t).
Definition set_filter v t := mkTight (_ctl t) v (_numColors t) (_palette t) (_len t) (_zlibs t) (_scratchBuffer t).
Definition set_numColors v t := mkTight (_ctl t) (_filter t) v (_palette t) (_len t) (_zlibs t) (_scratchBuffer t).
Definition set_palette v t := mkTight (_ctl t) (_filter t) (_numColors t) v (_len t) (_zlibs t) (_scratchBuffer t).
Definition set_len v t := mkTight (_ctl t) (_filter t) (_numColors t) (_palette t) v (_zlibs t) (_scratchBuffer t).
Definition set_zlibs v t := mkTight (_ctl t) (_filter t) (_numColors t) (_palette t) (_len t) v (_scratchBuffer t).
Definition set_scratch v t := mkTight (_ctl t) (_filter t) (_numColors t) (_palette t) (_len t) (_zlibs t) v.

Abbreviation W := (world tight S D).

(** [this._zlibs[i]] *)
Definition onZlib {A} (i : Z) (m : M inflator A) : M tight A := fun t =>
  match zget (_zlibs t) i with
  | None => (Throw "TypeError", t)
  | Some z => let '(o, z') := m z in (o, set_zlibs (zset (_zlibs t) i z') t)
  end.

(** The length of the data, one to three bytes. *)
Definition read_length : M W unit :=
  byte <- onSock rQshift8 ;;
  onDec (modify (set_len (byte & 127)%js)) ;;
  if negb ((byte & 128)%js =? 0) then
    byte <- onSock rQshift8 ;;
    onDec (modify (fun t => set_len (_len t .| (byte & 127) << 7)%js t)) ;;
    if negb ((byte & 128)%js =? 0) then
      byte <- onSock rQshift8 ;;
      onDec (modify (fun t => set_len (_len t .| byte << 14)%js t))
    else ret tt
  else ret tt.

(** Null when the data is not there yet. *)
Definition _readData : M W (option view) :=
  t <- onDec get ;;
  wait <- (if _len t =? 0 then
             wait <- onSock (rQwait 3 0) ;;
             if wait then ret true else read_length ;; ret false
           else ret false) ;;
  if wait then ret None
  else
    t <- onDec get ;;
    wait <- onSock (rQwait (_len t) 0) ;;
    if wait then ret None
    else
      data <- onSock (rQshiftView (_len t) same) ;;
      onDec (modify (set_len 0)) ;;
      ret (Some data).

Definition _getScratchBuffer (size : Z) : M W (list Z) :=
  t <- onDec get ;;
  match _scratchBuffer t with
  | Some b =>
      if zlen b <? size then onDec (modify (set_scratch (Some (zrep size 0)))) ;; ret (zrep size 0) else ret b
  | None => onDec (modify (set_scratch (Some (zrep size 0)))) ;; ret (zrep size 0)
  end.

(** The data of a filter: as it is when it is short, else compressed; null when
    it is not there yet. *)
Definition filter_data (streamId uncompressedSize : Z) : M W (option (list Z)) :=
  if uncompressedSize <? 12 then
    wait <- onSock (rQwait uncompressedSize 0) ;;
    if wait then ret None
    else data <- onSock (rQshiftBytes uncompressedSize) ;; ret (Some data)
  else
    data <- _readData ;;
    match data with
    | None => ret None
    | Some data =>
        onDec (onZlib streamId (setInput (Some (view_bytes data)))) ;;
        data <- onDec (onZlib streamId (inflate_now uncompressedSize)) ;;
        onDec (onZlib streamId (setInput None)) ;;
        ret (Some data)
    end.

Definition _fillRect (x y width height : Z) : M W bool :=
  wait <- onSock (rQwait 3 0) ;;
  if wait then ret false
  else
    pixel <- onSock (rQshiftBytes 3) ;;
    onDisp (fillRect x y width height (Some pixel)) ;;
    ret true.

Definition _jpegRect (x y width height : Z) : M W bool :=
  data <- _readData ;;
  match data with
  | None => ret false
  | Some data => onDisp (imageRect x y width height "image/jpeg" (view_bytes data)) ;; ret true
  end.

Definition _pngRect (x y width height : Z) : M W bool := throw "PNG received in standard Tight rect".

Definition _copyFilter (streamId x y width height : Z) : M W bool :=
  let uncompressedSize := width * height * 3 in
  if uncompressedSize =? 0 then ret true
  else
    data <- filter_data streamId uncompressedSize ;;
    match data with
    | None => ret false
    | Some data =>
        onDisp (blitImage x y width height (fresh_view (copy_pixels (width * height) data)) 0) ;;
        ret true
    end.

Definition _monoRect (x y width height : Z) (data palette : list Z) : M W unit :=
  dest <- _getScratchBuffer (width * height * 4) ;;
  let dest := mono_pixels width height palette data dest in
  onDec (modify (set_scratch (Some dest))) ;;
  onDisp (blitImage x y width height (fresh_view dest) 0).

Definition _paletteRect (x y width height : Z) (data palette : list Z) : M W unit :=
  dest <- _getScratchBuffer (width * height * 4) ;;
  let dest := palette_pixels (width * height) palette data dest in
  onDec (modify (set_scratch (Some dest))) ;;
  onDisp (blitImage x y width height (fresh_view dest) 0).

Definition _paletteFilter (streamId x y width height : Z) : M W bool :=
  t <- onDec get ;;
  wait <- (if _numColors t =? 0 then
             wait <- onSock (rQwait 1 0) ;;
             if wait then ret true
             else
               n <- onSock rQpeek8 ;;
               let numColors := n + 1 in
               let paletteSize := numColors * 3 in
               wait <- onSock (rQwait (1 + paletteSize) 0) ;;
               if wait then ret true
               else
                 onDec (modify (set_numColors numColors)) ;;
                 onSock (rQskipBytes 1) ;;
                 t <- onDec get ;;
                 palette <- onSock (rQshiftTo (_palette t) paletteSize) ;;
                 onDec (modify (set_palette palette)) ;;
                 ret false
           else ret false) ;;
  if wait then ret false
  else
    t <- onDec get ;;
    let bpp := if _numColors t <=? 2 then 1 else 8 in
    let rowSize := (width * bpp + 7) / 8 in
    let uncompressedSize := rowSize * height in
    if uncompressedSize =? 0 then ret true
    else
      data <- filter_data streamId uncompressedSize ;;
      match data with
      | None => ret false
      | Some data =>
          t <- onDec get ;;
          (if _numColors t =? 2 then _monoRect x y width height data (_palette t)
           else _paletteRect x y width height data (_palette t)) ;;
          onDec (modify (set_numColors 0)) ;;
          ret true
      end.

Definition _gradientFilter (streamId x y width height : Z) : M W bool :=
  let uncompressedSize := width * height * 3 in
  if uncompressedSize =? 0 then ret true
  else
    data <- filter_data streamId uncompressedSize ;;
    match data with
    | None => ret false
    | Some data =>
        onDisp (blitImage x y width height (fresh_view (gradient_pixels width height data)) 0) ;;
        ret true
    end.

Definition _basicRect (ctl x y width height : Z) : M W bool :=
  t <- onDec get ;;
  wait <- match _filter t with
          | None =>
              if negb ((ctl & 4)%js =? 0) then
                wait <- onSock (rQwait 1 0) ;;
                if wait then ret true
                else
                  filter <- onSock rQshift8 ;;
                  onDec (modify (set_filter (Some filter))) ;;
                  ret false
              else onDec (modify (set_filter (Some 0))) ;; ret false
          | Some _ => ret false
          end ;;
  if wait then ret false
  else
    let streamId := (ctl & 3)%js in
    t <- onDec get ;;
    done <- match _filter t with
            | Some 0 => _copyFilter streamId x y width height
            | Some 1 => _paletteFilter streamId x y width height
            | Some 2 => _gradientFilter streamId x y width height
            | _ => throw "Illegal tight filter received"
            end ;;
    (if done : bool then onDec (modify (set_filter None)) else ret tt) ;;
    ret done.

(** [for (let i = 0; i < 4; i++)] *)
Definition reset_streams (ctl : Z) : M tight unit :=
  let one i := if negb (((ctl >> i) & 1)%js =? 0) then onZlib i reset else ret tt in
  one 0 ;; one 1 ;; one 2 ;; one 3.

Definition decode_with (_pngRect : Z -> Z -> Z -> Z -> M W bool)
    (_basicRect : Z -> Z -> Z -> Z -> Z -> M W bool) (x y width height depth : Z) : M W bool :=
  t <- onDec get ;;
  wait <- match _ctl t with
          | None =>
              wait <- onSock (rQwait 1 0) ;;
              if wait then ret true
              else
                ctl <- onSock rQshift8 ;;
                onDec (modify (set_ctl (Some ctl))) ;;
                onDec (reset_streams ctl) ;;
                onDec (modify (set_ctl (Some (ctl >> 4)%js))) ;;
                ret false
          | Some _ => ret false
          end ;;
  if wait then ret false
  else
    t <- onDec get ;;
    done <- match _ctl t with
            | None => stuck
            | Some ctl =>
                if ctl =? 8 then _fillRect x y width height
                else if ctl =? 9 then _jpegRect x y width height
                else if ctl =? 10 then _pngRect x y width height
                else if (ctl & 8)%js =? 0 then _basicRect ctl x y width height
                else throw "Illegal tight compression received"
            end ;;
    (if done : bool then onDec (modify (set_ctl None)) else ret tt) ;;
    ret done.

Definition decodeRect : Z -> Z -> Z -> Z -> Z -> M W bool := decode_with _pngRect _basicRect.

(** TightPNGDecoder *)
Definition png_pngRect (x y width height : Z) : M W bool :=
  data <- _readData ;;
  match data with
  | None => ret false
  | Some data => onDisp (imageRect x y width height "image/png" (view_bytes data)) ;; ret true
  end.

Definition png_basicRect (ctl x y width height : Z) : M W bool :=
  throw "BasicCompression received in TightPNG rect".

Definition png_decodeRect : Z -> Z -> Z -> Z -> Z -> M W bool := decode_with png_pngRect png_basicRect.
End Tight.
End TightDecoder.
