(* ===== verification/TightCorrect.v ===== *)
(** Theorems on the Tight and TightPNG decoders. *)

From Stdlib Require Import ZArith List Lia Bool String.
From S2P Require Import Prelude Source Sink Websock Display Decoder Decoders Inflator Tight.
Import ListNotations JS JSFacts Inflator TightDecoder.
Open Scope Z_scope.
Open Scope code_scope.

(** * The cut of the data into messages *)

Section Resuming.
Context `{Zlib}.
Variables x y width height depth : Z.
Hypotheses (width_ok : 0 <= width) (height_ok : 0 <= height).
Abbreviation W := (world tight asrc trace).
Implicit Types (st : tight) (w : W).

Definition st_ok st : Prop := 0 <= _numColors st <= 256 /\ zlen (_palette st) = 1024 /\ 0 <= _len st.

Definition inv w : Prop := st_ok (dec w) /\ bytes (rest (sock w)).

Variable top : M W bool.

Lemma res_dec {A} (m : M tight A) (k : A -> M W bool) w : fst (m (dec w)) <> Stuck ->
  (forall a st', m (dec w) = (Ret a, st') -> Res inv top (k a) (World st' (sock w) (disp w))) ->
  Res inv top (bind (onDec m) k) w.
Proof.
  intros Hns Hk. destruct (m (dec w)) as [[a|e|] st'] eqn:E; [| |easy].
  - apply (res_step inv top _ _ w a (World st' (sock w) (disp w))); [now apply stable_dec|now apply Hk].
  - apply (res_bind_throw inv top _ _ w e (World st' (sock w) (disp w))). intros l.
    unfold onDec, lift. cbn [ext dec]. now rewrite E.
Qed.

Lemma res_modify f (k : unit -> M W bool) w :
  Res inv top (k tt) (World (f (dec w)) (sock w) (disp w)) -> Res inv top (bind (onDec (modify f)) k) w.
Proof. intros Hk. apply res_dec; [easy|]. intros a st' [= <- <-]. exact Hk. Qed.

Lemma res_get (k : tight -> M W bool) w : Res inv top (k (dec w)) w -> Res inv top (bind (onDec get) k) w.
Proof. intros Hk. apply res_dec; [easy|]. intros a st' [= <- <-]. now destruct w. Qed.

(** The length of compressed data: seven bits of each of two bytes, eight of the
    third; each byte but the last has its high bit set. *)
Definition length_of (b1 b2 b3 : Z) : Z * Z :=
  if b1 <? 128 then (b1, 1)
  else if b2 <? 128 then (b1 - 128 + b2 * 128, 2)
  else (b1 - 128 + (b2 - 128) * 128 + b3 * 16384, 3).

Lemma high_bit b : is_byte b -> negb ((b & 128)%js =? 0) = (128 <=? b).
Proof.
  intros Hb. unfold is_byte in Hb. change 128 with (1 << 7)%js at 1. rewrite band_bit, negb_involutive by lia.
  destruct (Z.leb_spec 128 b).
  - apply Z.testbit_true; [lia|]. change (2 ^ 7) with 128. euclid.
  - apply Z.testbit_false; [lia|]. change (2 ^ 7) with 128. euclid.
Qed.

Lemma low_bits b : is_byte b -> (b & 127)%js = b mod 128.
Proof. intros Hb. change 127 with (2 ^ 7 - 1). now rewrite band_ones by lia. Qed.

Lemma or_shift a b k : 0 <= k < 32 -> 0 <= a < 2 ^ k -> 0 <= b -> b * 2 ^ k + a < 2147483648 ->
  (a .| b << k)%js = a + b * 2 ^ k.
Proof.
  intros Hk Ha Hb Hm. unfold bor. rewrite Z.lor_comm. fold (bor (shl b k) a). rewrite shl_bor by lia. lia.
Qed.

Lemma read_length_run st p b1 b2 b3 r (t : trace) : is_byte b1 -> is_byte b2 -> is_byte b3 ->
  let '(v, n) := length_of b1 b2 b3 in
  read_length (World st (ASrc p ([b1] ++ [b2] ++ [b3] ++ r)) t) =
  (Ret tt, World (set_len v st) (ASrc (p ++ ztake n [b1; b2; b3]) (zdrop n [b1; b2; b3] ++ r)) t).
Proof.
  intros H1 H2 H3. unfold length_of, read_length. rewrite (run_take 1 same be) by reflexivity.
  change (be (same [b1])) with b1. rewrite run_modify, (high_bit b1 H1), (low_bits b1 H1). unfold is_byte in *.
  destruct (Z.ltb_spec b1 128) as [L1|L1], (Z.leb_spec 128 b1) as [G1|G1]; try lia; [rewrite Z.mod_small by lia; reflexivity|].
  rewrite (run_take 1 same be) by reflexivity. change (be (same [b2])) with b2.
  rewrite run_modify, (high_bit b2 H2), (low_bits b2 H2). cbn [_len set_len].
  assert (E1 : b1 mod 128 = b1 - 128) by euclid.
  destruct (Z.ltb_spec b2 128) as [L2|L2], (Z.leb_spec 128 b2) as [G2|G2]; try lia.
  - rewrite (Z.mod_small b2), E1, or_shift by lia. change (2 ^ 7) with 128. unfold same. rewrite <- app_assoc. reflexivity.
  - assert (E2 : b2 mod 128 = b2 - 128) by euclid. rewrite (run_take 1 same be) by reflexivity. change (be (same [b3])) with b3.
    rewrite E1, E2, (or_shift (b1 - 128)) by lia. unfold onDec, lift, modify. cbn [dec _len set_len sock disp].
    rewrite (or_shift _ b3) by lia. change (2 ^ 7) with 128. change (2 ^ 14) with 16384. unfold same. rewrite <- !app_assoc. reflexivity.
Qed.

Lemma read_length_stable w : 3 <= zlen (rest (sock w)) -> bytes (rest (sock w)) ->
  exists v s, stable read_length w tt (World (set_len v (dec w)) s (disp w)) /\ 0 <= v /\ bytes (rest s).
Proof.
  intros Hn Hb. destruct w as [st [p r] t]. cbn [sock rest] in *.
  destruct r as [|b1 [|b2 [|b3 r]]]; try zlia. inversion_clear Hb as [|? ? H1 Hb2]. inversion_clear Hb2 as [|? ? H2 Hb3].
  inversion_clear Hb3 as [|? ? H3 Hr]. unfold stable. cbn [ext dec sock past rest disp].
  assert (Hv : 0 <= fst (length_of b1 b2 b3)) by (unfold length_of, is_byte in *; repeat case_if; bool_prop; cbn [fst]; lia).
  exists (fst (length_of b1 b2 b3)), (ASrc (p ++ ztake (snd (length_of b1 b2 b3)) [b1; b2; b3]) (zdrop (snd (length_of b1 b2 b3)) [b1; b2; b3] ++ r)).
  split; [|split; [exact Hv|]].
  - split; [|intros l; cbn [app]]; rewrite <- ?app_assoc.
    + pose proof (read_length_run st p b1 b2 b3 r t H1 H2 H3) as E. destruct (length_of b1 b2 b3). exact E.
    + pose proof (read_length_run st p b1 b2 b3 (r ++ l) t H1 H2 H3) as E. destruct (length_of b1 b2 b3).
      etransitivity; [exact E|]. unfold ext. cbn [dec sock past rest disp fst snd]. now rewrite app_assoc.
  - cbn [rest]. apply bytes_app. split; [|exact Hr]. apply bytes_zdrop.
    repeat (apply Forall_cons; [assumption|]). apply Forall_nil.
Qed.

Lemma onZlib_ns {A} i (m : M inflator A) st : (forall z, fst (m z) <> Stuck) -> fst (onZlib i m st) <> Stuck.
Proof.
  intros Hm. unfold onZlib. destruct (zget _ i) as [z|]; [|easy]. specialize (Hm z). now destruct (m z) as [[a|e|] z'].
Qed.

Lemma onZlib_ret {A} i (m : M inflator A) st a st' : onZlib i m st = (Ret a, st') -> exists v, st' = set_zlibs v st.
Proof.
  unfold onZlib. destruct (zget _ i) as [z|]; [|easy]. destruct (m z) as [o z']. intros [= _ <-]. eauto.
Qed.

Lemma inflate_ns n (z : inflator) : fst (inflate_now n z) <> Stuck.
Proof.
  unfold inflate_now, inflate. unM. destruct (zinflate _ _ _) as [[[c out] st] r]. destruct (c <? 0); [easy|].
  now destruct (negb _).
Qed.

(** ** Leaves

    [L] says in which states the decoder is in a leaf: being called it comes
    back to the reading of its data. *)
Section Leaf.
Variable L : tight -> Prop.
Hypotheses (L_len : forall v st, L st -> L (set_len v st)) (L_zlibs : forall v st, L st -> L (set_zlibs v st)).

Section ReadData.
Variable k : option view -> M W bool.
Hypotheses
  (top_here : forall w, L (dec w) -> top w = bind _readData k w)
  (k_none : forall w, k None w = (Ret false, w))
  (k_some : forall v w, L (dec w) -> inv w -> Res inv top (k (Some v)) w).

(** The part of [_readData] behind the length. *)
Definition read_rest : M W (option view) :=
  t <- onDec get ;;
  wait <- onSock (rQwait (_len t) 0) ;;
  if wait then ret None
  else
    data <- onSock (rQshiftView (_len t) same) ;;
    onDec (modify (set_len 0)) ;;
    ret (Some data).

Lemma read_rest_res w : L (dec w) -> inv w -> Res inv top (bind read_rest k) w.
Proof.
  intros HL [(Hn & Hp & Hlen) Hb]. unfold read_rest. apply res_assoc, res_get, res_assoc.
  apply res_wait.
  - intros w'. apply k_none.
  - intros _. split; [now repeat split|exact Hb].
  - intros Hs l. rewrite top_here by exact HL. unfold _readData.
    destruct (Z.eq_dec (_len (dec w)) 0) as [E|E]; [rewrite E in Hs; pose proof (zlen_nonneg (rest (sock w))); lia|].
    destruct w as [st s t]. unfold ext. wcbn. rewrite bind_assoc_run, run_get. destruct (Z.eqb_spec (_len st) 0); [easy|].
    rewrite bind_assoc_run, run_ret, bind_assoc_run, run_get, bind_assoc_run. reflexivity.
  - intros Hs. apply res_assoc. eapply res_step; [apply stable_view; [lia|unfold same; rewrite zlen_ztake; lia]|].
    apply res_assoc, res_modify, res_ret_l, k_some; [now apply L_len|].
    split; [split; [exact Hn|split; [exact Hp|cbn; lia]]|]. cbn [sock astep rest]. now apply bytes_zdrop.
Qed.

Lemma readData_res w : L (dec w) -> inv w -> Res inv top (bind _readData k) w.
Proof.
  intros HL [Hst Hb]. assert (Hst' := Hst). destruct Hst' as (Hn & Hp & Hlen). unfold _readData. apply res_assoc, res_get.
  destruct (Z.eqb_spec (_len (dec w)) 0) as [E|E].
  2:{ apply res_assoc, res_ret_l. apply read_rest_res; [exact HL|now split]. }
  do 2 apply res_assoc. apply res_wait.
  - intros w'. apply k_none.
  - intros _. now split.
  - intros Hs l. rewrite top_here by exact HL. unfold _readData. destruct w as [st s t]. unfold ext. wcbn.
    rewrite bind_assoc_run, run_get, E. cbn [Z.eqb]. now rewrite !bind_assoc_run.
  - intros Hs. destruct (read_length_stable w Hs Hb) as (v & s & Hst2 & Hv & Hbs).
    apply res_assoc. eapply res_step; [exact Hst2|]. apply res_ret_l, read_rest_res; [now apply L_len|].
    split; [|exact Hbs]. now repeat split.
Qed.
End ReadData.

Section FilterData.
Variables (streamId size : Z) (k : option (list Z) -> M W bool).
Hypotheses
  (size_ok : 0 <= size)
  (top_here : forall w, L (dec w) -> top w = bind (filter_data streamId size) k w)
  (k_none : forall w, k None w = (Ret false, w))
  (k_some : forall v w, L (dec w) -> inv w -> Res inv top (k (Some v)) w).

Lemma zlib_res {A} (m : M inflator A) (h : A -> M W bool) w : (forall z, fst (m z) <> Stuck) -> L (dec w) -> inv w ->
  (forall a w, L (dec w) -> inv w -> Res inv top (h a) w) -> Res inv top (bind (onDec (onZlib streamId m)) h) w.
Proof.
  intros Hm HL [Hst Hb] Hh. apply res_dec; [now apply onZlib_ns|]. intros a st' E. destruct (onZlib_ret _ _ _ _ _ E) as [v ->].
  apply Hh; [now apply L_zlibs|]. split; [exact Hst|exact Hb].
Qed.

Lemma filter_data_res w : L (dec w) -> inv w -> Res inv top (bind (filter_data streamId size) k) w.
Proof.
  intros HL Hinv. assert (Hinv' := Hinv). destruct Hinv' as [Hst Hb]. unfold filter_data. destruct (Z.ltb_spec size 12) as [Hs|Hs].
  - apply res_assoc. apply res_wait.
    + intros w'. apply k_none.
    + intros _. exact Hinv.
    + intros _ l. rewrite top_here by exact HL. unfold filter_data. destruct (Z.ltb_spec size 12); [|lia]. now rewrite bind_assoc_run.
    + intros Hl. apply res_assoc. eapply res_step; [apply stable_take; lia|]. apply res_ret_l, k_some; [exact HL|].
      split; [exact Hst|]. cbn [sock astep rest]. now apply bytes_zdrop.
  - apply res_assoc. apply readData_res; [|intros w'; apply k_none| |exact HL|exact Hinv].
    + intros w' HL'. rewrite top_here by exact HL'. unfold filter_data. destruct (Z.ltb_spec size 12); [lia|]. now rewrite bind_assoc_run.
    + intros v w' HL' Hinv2. apply res_assoc. apply zlib_res; [easy|exact HL'|exact Hinv2|]. intros _ w2 HL2 Hinv3.
      apply res_assoc. apply zlib_res; [apply inflate_ns|exact HL2|exact Hinv3|]. intros d w3 HL3 Hinv4.
      apply res_assoc. apply zlib_res; [easy|exact HL3|exact Hinv4|]. intros _ w4 HL4 Hinv5.
      apply res_ret_l. now apply k_some.
Qed.
End FilterData.
End Leaf.

(** ** The whole decoder *)

(** What [decode_with] and [_basicRect] do with the result of a leaf. *)
Definition after_rect (done : bool) : M W bool :=
  (if done then onDec (modify (set_ctl None)) else ret tt) ;; ret done.
Definition after_filter (done : bool) : M W bool :=
  bind ((if done then onDec (modify (set_filter None)) else ret tt) ;; ret done) after_rect.

Lemma after_rect_done w : Res inv top (after_rect true) w.
Proof. unfold after_rect. apply res_modify, res_true. Qed.

Lemma after_filter_done w : Res inv top (after_filter true) w.
Proof. unfold after_filter. apply res_assoc, res_modify, res_ret_l, after_rect_done. Qed.

Definition in_ctl (c : Z) (st : tight) : Prop := _ctl st = Some c.
Definition in_filter (c f : Z) (st : tight) : Prop := _ctl st = Some c /\ _filter st = Some f.

Lemma image_res c mime w : (forall w, in_ctl c (dec w) -> top w = bind (data <- _readData ;;
    match data with None => ret false | Some data => onDisp (imageRect x y width height mime (view_bytes data)) ;; ret true end) after_rect w) ->
  in_ctl c (dec w) -> inv w -> Res inv top (bind (data <- _readData ;;
    match data with None => ret false | Some data => onDisp (imageRect x y width height mime (view_bytes data)) ;; ret true end) after_rect) w.
Proof.
  intros Htop Hc Hinv. apply res_assoc. apply (readData_res (in_ctl c)); auto.
  - intros w' Hw'. rewrite Htop by exact Hw'. now rewrite bind_assoc_run.
  - intros v w' _ _. apply res_assoc. apply res_disp; [auto with sim|]. intros _ t _. apply res_ret_l, after_rect_done.
Qed.

Lemma fill_res c w : (forall w, in_ctl c (dec w) -> top w = bind (_fillRect x y width height) after_rect w) ->
  in_ctl c (dec w) -> inv w -> Res inv top (bind (_fillRect x y width height) after_rect) w.
Proof.
  intros Htop Hc Hinv. unfold _fillRect. apply res_assoc. apply res_wait; [easy|now intros _| |].
  - intros _ l. rewrite Htop by exact Hc. unfold _fillRect. now rewrite bind_assoc_run.
  - intros Hs. apply res_assoc. eapply res_step; [apply stable_take; lia|]. apply res_assoc.
    apply res_disp; [auto with sim|]. intros _ t _. apply res_ret_l, after_rect_done.
Qed.

(** The filters that draw what they read: the copy and the gradient filter. *)
Lemma plain_filter_res c f streamId (pixels : list Z -> list Z) w :
  let m := (if width * height * 3 =? 0 then ret true
    else
      data <- filter_data streamId (width * height * 3) ;;
      match data with
      | None => ret false
      | Some data => onDisp (blitImage x y width height (fresh_view (pixels data)) 0) ;; ret true
      end) in
  (forall w, in_filter c f (dec w) -> top w = bind m after_filter w) ->
  in_filter c f (dec w) -> inv w -> Res inv top (bind m after_filter) w.
Proof.
  intros m Htop Hf Hinv. subst m. revert Htop. destruct (Z.eqb_spec (width * height * 3) 0) as [E|E]; intros Htop.
  - apply res_ret_l, after_filter_done.
  - apply res_assoc. apply (filter_data_res (in_filter c f)); auto; [nia| |].
    + intros w' Hw'. rewrite Htop by exact Hw'. now rewrite bind_assoc_run.
    + intros v w' _ _. apply res_assoc. apply res_disp; [auto with sim|]. intros _ t _. apply res_ret_l, after_filter_done.
Qed.

(** The part of the palette filter behind the palette. *)
Definition palette_rest (streamId : Z) : M W bool :=
  t <- onDec get ;;
  let bpp := if _numColors t <=? 2 then 1 else 8 in
  let rowSize := (width * bpp + 7) / 8 in
  let uncompressedSize := rowSize * height in
  if uncompressedSize =? 0 then ret true
  else
    data <- filter_data streamId uncompressedSize ;;
    match data with
    | None => ret false
    | Some data =>
        t <- onDec get ;;
        (if _numColors t =? 2 then _monoRect x y width height data (_palette t)
         else _paletteRect x y width height data (_palette t)) ;;
        onDec (modify (set_numColors 0)) ;;
        ret true
    end.

(** Both ways of expanding a palette: a scratch buffer is filled and drawn. *)
Lemma scratch_res size (pixels : list Z -> list Z) (k : unit -> M W bool) w :
  (forall w', Res inv top (k tt) w') ->
  Res inv top (bind (dest <- _getScratchBuffer size ;;
    (let dest := pixels dest in
     onDec (modify (set_scratch (Some dest))) ;; onDisp (blitImage x y width height (fresh_view dest) 0))) k) w.
Proof.
  intros Hk. apply res_assoc. unfold _getScratchBuffer. apply res_assoc, res_get.
  assert (Hend : forall dest w', Res inv top (bind (let dest := pixels dest in
     onDec (modify (set_scratch (Some dest))) ;; onDisp (blitImage x y width height (fresh_view dest) 0)) k) w').
  { intros dest w'. apply res_assoc, res_modify, res_disp; [auto with sim|]. intros [] t _. apply Hk. }
  destruct (_scratchBuffer (dec w)) as [b|]; [case_if|]; [apply res_assoc, res_modify, res_ret_l, Hend|apply res_ret_l, Hend|].
  apply res_assoc, res_modify, res_ret_l, Hend.
Qed.

Definition in_palette (c : Z) (st : tight) : Prop := in_filter c 1 st /\ _numColors st <> 0.

Lemma palette_filter_top c streamId w : (forall w, in_filter c 1 (dec w) -> top w = bind (_paletteFilter streamId x y width height) after_filter w) ->
  in_palette c (dec w) -> top w = bind (palette_rest streamId) after_filter w.
Proof.
  intros Htop [Hf Hn]. rewrite Htop by exact Hf. unfold _paletteFilter. destruct w as [st s t]. cbn [dec] in *.
  rewrite !bind_assoc_run, run_get. destruct (Z.eqb_spec (_numColors st) 0); [easy|]. now rewrite bind_assoc_run, run_ret.
Qed.

Lemma palette_rest_res c streamId w : (forall w, in_palette c (dec w) -> top w = bind (palette_rest streamId) after_filter w) ->
  in_palette c (dec w) -> inv w -> Res inv top (bind (palette_rest streamId) after_filter) w.
Proof.
  intros Htop Hc Hinv. unfold palette_rest. apply res_assoc, res_get.
  set (n := _numColors (dec w)). set (size := (width * (if n <=? 2 then 1 else 8) + 7) / 8 * height). cbv zeta. fold size.
  destruct (Z.eqb_spec size 0) as [E|E]; [apply res_ret_l, after_filter_done|].
  apply res_assoc. apply (filter_data_res (fun st => in_palette c st /\ _numColors st = n)).
  - intros v st [H1 H2]. split; [exact H1|exact H2].
  - intros v st [H1 H2]. split; [exact H1|exact H2].
  - subst size. apply Z.mul_nonneg_nonneg; [apply Z.div_pos; [case_if|]; lia|lia].
  - intros w' [Hc' Hn']. rewrite Htop by exact Hc'. unfold palette_rest. destruct w' as [st s t]. cbn [dec] in *.
    rewrite bind_assoc_run, run_get, Hn'. cbv zeta. fold size. destruct (Z.eqb_spec size 0); [easy|]. now rewrite bind_assoc_run.
  - easy.
  - intros v w' _ _. apply res_assoc, res_get.
    assert (Hk : forall w', Res inv top (bind (onDec (modify (set_numColors 0)) ;; ret true) after_filter) w')
      by (intros w2; apply res_assoc, res_modify, res_ret_l, after_filter_done).
    apply res_assoc. case_if; apply scratch_res; exact Hk.
  - now split.
  - exact Hinv.
Qed.

Lemma palette_filter_res c streamId w :
  (forall w, in_filter c 1 (dec w) -> top w = bind (_paletteFilter streamId x y width height) after_filter w) ->
  in_filter c 1 (dec w) -> inv w -> Res inv top (bind (_paletteFilter streamId x y width height) after_filter) w.
Proof.
  intros Htop Hf Hinv. assert (Hrest : forall w, in_palette c (dec w) -> inv w -> Res inv top (bind (palette_rest streamId) after_filter) w).
  { intros w' Hc' Hinv'. apply (palette_rest_res c); auto. intros w2 Hw2. now apply (palette_filter_top c). }
  assert (Hinv' := Hinv). destruct Hinv' as [(Hn & Hp & Hl) Hb]. unfold _paletteFilter. apply res_assoc, res_get.
  destruct (Z.eqb_spec (_numColors (dec w)) 0) as [E|E].
  2:{ apply res_assoc, res_ret_l. apply Hrest; [now split|exact Hinv]. }
  do 2 apply res_assoc. apply res_wait; [easy|now intros _| |].
  { intros _ l. rewrite Htop by exact Hf. unfold _paletteFilter. destruct w as [st s t]. unfold ext. wcbn.
    rewrite bind_assoc_run, run_get, E. cbn [Z.eqb]. now rewrite !bind_assoc_run. }
  intros H1. destruct w as [st [p r] t]. cbn [dec sock rest] in *. destruct r as [|b r]; [zlia|].
  apply res_assoc. apply (res_step inv top _ _ _ b (World st (ASrc p (b :: r)) t)); [now split|].
  set (n := (b + 1) * 3). apply res_assoc. apply res_wait; [easy|now intros _| |].
  { intros _ l. rewrite Htop by exact Hf. unfold _paletteFilter. unfold ext. wcbn. cbn [app].
    rewrite bind_assoc_run, run_get, E. cbn [Z.eqb]. rewrite !bind_assoc_run, run_wait by (rewrite zlen_cons; pose proof (zlen_nonneg (r ++ l)); lia).
    rewrite !bind_assoc_run, run_peek. fold n. now rewrite !bind_assoc_run. }
  cbn [sock rest]. intros H2. inversion_clear Hb as [|? ? Hb1 Hbr]. unfold is_byte in Hb1. rewrite zlen_cons in H2.
  apply res_assoc, res_modify. apply res_assoc. eapply res_step; [apply (stable_take 1 same (fun _ => tt)); cbn [sock rest]; rewrite zlen_cons; lia|].
  apply res_assoc, res_get. cbn [dec set_numColors _palette sock disp astep past rest].
  change (ztake 1 (b :: r)) with [b]. change (zdrop 1 (b :: r)) with r.
  apply res_assoc. cbn [rQshiftTo asrc_source]. destruct (Z.ltb_spec (zlen (_palette st)) n); [subst n; lia|].
  eapply res_step; [apply stable_take; change (0 <= n <= zlen r); subst n; lia|]. cbn [dec sock disp past rest].
  apply res_assoc, res_modify, res_ret_l, Hrest.
  - split; [exact Hf|]. cbn. lia.
  - split; [|cbn [sock astep rest]; now apply bytes_zdrop]. split; [cbn; lia|]. split; [|exact Hl].
    cbn [dec _palette set_palette set_numColors]. unfold same. rewrite zlen_zblit; rewrite ?zlen_ztake; subst n; lia.
Qed.

Lemma in_ctl_len c v st : in_ctl c st -> in_ctl c (set_len v st).
Proof. intros Hc. exact Hc. Qed.

Lemma basic_res c w : (forall w, in_ctl c (dec w) -> top w = bind (_basicRect c x y width height) after_rect w) ->
  in_ctl c (dec w) -> inv w -> Res inv top (bind (_basicRect c x y width height) after_rect) w.
Proof.
  intros Htop Hc Hinv.
  (* the decoder with the filter known *)
  set (body := fun f => match f with
            | Some 0 => _copyFilter (c & 3)%js x y width height
            | Some 1 => _paletteFilter (c & 3)%js x y width height
            | Some 2 => _gradientFilter (c & 3)%js x y width height
            | _ => throw "Illegal tight filter received"
            end : M W bool).
  assert (Htf : forall f w, in_filter c f (dec w) -> top w = bind (body (Some f)) after_filter w).
  { intros f w' [Hc' Hf']. rewrite Htop by exact Hc'. unfold _basicRect. destruct w' as [st s t]. cbn [dec] in *.
    rewrite bind_assoc_run, run_get, Hf'. cbv iota. rewrite bind_assoc_run, run_ret. cbv iota.
    rewrite bind_assoc_run, run_get, Hf', bind_assoc_run. reflexivity. }
  assert (Hfil : forall f w, in_filter c f (dec w) -> inv w -> Res inv top (bind (body (Some f)) after_filter) w).
  { intros f w' Hf' Hinv'. destruct (Z.eq_dec f 0) as [->|N0]; [|destruct (Z.eq_dec f 1) as [->|N1]; [|destruct (Z.eq_dec f 2) as [->|N2]]].
    - apply (plain_filter_res c 0 (c & 3)%js (copy_pixels (width * height))); auto. exact (Htf 0).
    - apply (palette_filter_res c); auto. exact (Htf 1).
    - apply (plain_filter_res c 2 (c & 3)%js (gradient_pixels width height)); auto. exact (Htf 2).
    - assert (Eb : body (Some f) = throw "Illegal tight filter received").
      { subst body. cbv beta iota. destruct f as [|[[]|[]|]|]; try reflexivity; congruence. }
      rewrite Eb. apply (res_bind_throw inv top _ _ _ "Illegal tight filter received" w'). reflexivity. }
  (* after the choice of the filter *)
  assert (Hgo : forall f w, in_filter c f (dec w) -> inv w ->
    Res inv top (bind (t <- onDec get ;; done <- body (_filter t) ;;
      (if done : bool then onDec (modify (set_filter None)) else ret tt) ;; ret done) after_rect) w).
  { intros f w' Hf' Hinv'. apply res_assoc, res_get. destruct Hf' as [Hc' Ef']. rewrite Ef'. apply res_assoc.
    apply Hfil; [now split|exact Hinv']. }
  assert (Hinv' := Hinv). destruct Hinv' as [Hst Hb]. unfold _basicRect. apply res_assoc, res_get. apply res_assoc.
  destruct (_filter (dec w)) as [f|] eqn:Ef.
  - apply res_ret_l. apply (Hgo f); [now split|exact Hinv].
  - case_if.
    + apply res_assoc. apply res_wait; [easy|now intros _| |].
      * intros _ l. rewrite Htop by exact Hc. unfold _basicRect. destruct w as [st s t]. unfold ext. wcbn.
        rewrite bind_assoc_run, run_get, Ef, E. now rewrite !bind_assoc_run.
      * intros Hs. apply res_assoc. apply res_step with (a := be (same (ztake 1 (rest (sock w))))) (w' := World (dec w) (astep 1 same (sock w)) (disp w));
          [apply stable_take; lia|]. apply res_assoc, res_modify, res_ret_l. cbn [dec sock disp].
        eapply Hgo; [split; [exact Hc|reflexivity]|]. split; [exact Hst|]. cbn [sock astep rest]. now apply bytes_zdrop.
    + apply res_assoc, res_modify, res_ret_l. apply (Hgo 0); [now split|]. split; [exact Hst|exact Hb].
Qed.
End Resuming.

Section Whole.
Context `{Zlib}.
Variables x y width height depth : Z.
Hypotheses (width_ok : 0 <= width) (height_ok : 0 <= height).
Abbreviation W := (world tight asrc trace).
Variables (png : Z -> Z -> Z -> Z -> M W bool) (basic : Z -> Z -> Z -> Z -> Z -> M W bool).

Abbreviation top := (decode_with png basic x y width height depth : M W bool).

(** The methods that a subclass replaces are leaves too. *)
Definition leaf (m : Z -> M W bool) : Prop := forall c w,
  (forall w, in_ctl c (dec w) -> top w = bind (m c) after_rect w) ->
  in_ctl c (dec w) -> inv w -> Res inv top (bind (m c) after_rect) w.

Hypotheses (png_leaf : leaf (fun _ => png x y width height)) (basic_leaf : leaf (fun c => basic c x y width height)).

Definition dispatch (c : Z) : M W bool :=
  if c =? 8 then _fillRect x y width height
  else if c =? 9 then _jpegRect x y width height
  else if c =? 10 then png x y width height
  else if (c & 8)%js =? 0 then basic c x y width height
  else throw "Illegal tight compression received".

Lemma top_dispatch c w : in_ctl c (dec w) -> top w = bind (dispatch c) after_rect w.
Proof.
  intros Hc. unfold in_ctl in Hc. unfold decode_with. destruct w as [st s t]. cbn [dec] in *.
  rewrite run_get, Hc. cbv iota. rewrite run_ret. cbv iota. rewrite run_get, Hc. reflexivity.
Qed.

Lemma dispatch_res c w : in_ctl c (dec w) -> inv w -> Res inv top (bind (dispatch c) after_rect) w.
Proof.
  intros Hc Hinv. assert (Htop := top_dispatch c). unfold dispatch in *. revert Htop.
  destruct (c =? 8); [|destruct (c =? 9); [|destruct (c =? 10); [|destruct ((c & 8)%js =? 0)]]]; intros Htop.
  - now apply (fill_res x y width height top c).
  - now apply (image_res x y width height top c "image/jpeg").
  - now apply (png_leaf c).
  - now apply (basic_leaf c).
  - apply (res_bind_throw inv top _ _ w "Illegal tight compression received" w). reflexivity.
Qed.

Lemma reset_streams_ns c st : fst (reset_streams c st) <> Stuck.
Proof.
  assert (Hone : forall (b : bool) i st, fst ((if b then onZlib i reset else ret tt) st) <> Stuck)
    by (intros [] i st'; [now apply onZlib_ns|easy]).
  assert (Hb : forall (m k : M tight unit) st, fst (m st) <> Stuck -> (forall st, fst (k st) <> Stuck) -> fst (bind m (fun _ => k) st) <> Stuck).
  { intros m k st' Hm Hk. unfold bind. destruct (m st') as [[a|e|] st2]; [apply Hk|easy|easy]. }
  unfold reset_streams. cbv zeta. apply Hb; [apply Hone|intros st1]. apply Hb; [apply Hone|intros st2].
  apply Hb; [apply Hone|intros st3]. apply Hone.
Qed.

Lemma reset_streams_ret c st a st' : reset_streams c st = (Ret a, st') -> exists v, st' = set_zlibs v st.
Proof.
  assert (Hone : forall (b : bool) i st a st', (if b then onZlib i reset else ret tt) st = (Ret a, st') -> exists v, st' = set_zlibs v st).
  { intros [] i s1 a1 s2 E; [now apply onZlib_ret in E|]. injection E as _ <-. exists (_zlibs s1). now destruct s1. }
  assert (Hb : forall (m k : M tight unit) st a st', (forall st a st', m st = (Ret a, st') -> exists v, st' = set_zlibs v st) ->
    (forall st a st', k st = (Ret a, st') -> exists v, st' = set_zlibs v st) ->
    bind m (fun _ => k) st = (Ret a, st') -> exists v, st' = set_zlibs v st).
  { intros m k s1 a1 s2 Hm Hk. unfold bind. destruct (m s1) as [[b|e|] s3] eqn:E; [|easy|easy]. intros E2.
    destruct (Hm _ _ _ E) as [v ->]. destruct (Hk _ _ _ E2) as [v' ->]. now exists v'. }
  unfold reset_streams. cbv zeta. apply Hb; [apply Hone|]. intros s1 a1 s1'. apply Hb; [apply Hone|]. intros s2 a2 s2'.
  apply Hb; apply Hone.
Qed.

Lemma decode_with_res w : inv w -> Res inv top top w.
Proof.
  intros Hinv. destruct (_ctl (dec w)) as [c|] eqn:Ec.
  - apply (res_same inv top top (bind (dispatch c) after_rect)); [|now apply dispatch_res].
    intros l. now apply top_dispatch.
  - assert (Hinv' := Hinv). destruct Hinv' as [Hst Hb]. unfold decode_with at 2. apply res_get. rewrite Ec.
    apply res_assoc. apply res_wait; [easy|now intros _| |].
    + intros _ l. unfold decode_with. destruct w as [st s t]. unfold ext. wcbn. rewrite run_get, Ec. now rewrite bind_assoc_run.
    + intros Hs. apply res_assoc. eapply res_step; [apply stable_take; lia|]. set (ctl := be _).
      apply res_assoc, res_modify. cbn [dec sock disp]. apply res_assoc. apply res_dec; [apply reset_streams_ns|].
      intros a st' E. cbn [dec] in E. destruct (reset_streams_ret _ _ _ _ E) as [v ->]. cbn [dec sock disp].
      apply res_assoc, res_modify, res_ret_l, res_get. cbn [dec sock disp _ctl set_ctl set_zlibs].
      apply dispatch_res; [reflexivity|]. split; [exact Hst|]. cbn [sock astep rest]. now apply bytes_zdrop.
Qed.

Lemma decode_with_resumes w chunks : inv w -> Forall bytes chunks ->
  feed top w chunks = top (ext (List.concat chunks) w) /\ fst (top w) <> Stuck.
Proof.
  intros Hinv Hc. apply (feed_concat_ok bytes inv); auto; [|exact decode_with_res].
  intros w' c [Hst Hb] Hcb. split; [exact Hst|]. cbn [ext sock rest]. now apply bytes_app.
Qed.
End Whole.

(** The methods of the two decoders. *)
Lemma decode_leaves `{Zlib} (x y width height depth : Z) : 0 <= width -> 0 <= height ->
  leaf x y width height depth _pngRect _basicRect (fun _ => _pngRect x y width height) /\
  leaf x y width height depth _pngRect _basicRect (fun c => _basicRect c x y width height).
Proof.
  intros Hw Hh. split; intros c w' Htop Hc' Hinv.
  - apply (res_bind_throw inv _ _ _ w' "PNG received in standard Tight rect" w'). reflexivity.
  - now apply basic_res.
Qed.

Lemma png_leaves `{Zlib} (x y width height depth : Z) :
  leaf x y width height depth png_pngRect png_basicRect (fun _ => png_pngRect x y width height) /\
  leaf x y width height depth png_pngRect png_basicRect (fun c => png_basicRect c x y width height).
Proof.
  split; intros c w' Htop Hc' Hinv.
  - now apply (image_res x y width height _ c "image/png").
  - apply (res_bind_throw inv _ _ _ w' "BasicCompression received in TightPNG rect" w'). reflexivity.
Qed.

(** C12.  Tight and TightPNG: however the data is cut into messages, the draws, the
    errors and the final state are those of the data arriving at once, and no
    byte is read before it has arrived. *)
Theorem tight_resumes `{Zlib} (x y width height depth : Z) (w : world tight asrc trace) chunks :
  0 <= width -> 0 <= height -> st_ok (dec w) -> bytes (rest (sock w)) -> Forall bytes chunks ->
  let m := decodeRect x y width height depth in
  let m' := png_decodeRect x y width height depth in
  (feed m w chunks = m (ext (List.concat chunks) w) /\ fst (m w) <> Stuck) /\
  (feed m' w chunks = m' (ext (List.concat chunks) w) /\ fst (m' w) <> Stuck).
Proof.
  intros Hw Hh Hst Hb Hc m m'.
  destruct (decode_leaves x y width height depth Hw Hh) as [L1 L2]. destruct (png_leaves x y width height depth) as [L3 L4].
  split; (apply decode_with_resumes; [assumption|assumption|now split|exact Hc]).
Qed.
