(* ===== verification/TightDraws.v ===== *)
(** What the Tight decoder draws: the picture that each compression type and
    filter encodes. *)

From Stdlib Require Import ZArith List Lia Bool String.
From S2P Require Import Prelude Source Sink Websock Display Decoder Decoders Inflator InflatorCorrect Pixels Tight TightCorrect.
Import ListNotations JS JSFacts Inflator TightDecoder.
Open Scope Z_scope.
Open Scope code_scope.

(** * Lists in groups of the same length *)

Lemma upto_add a b : 0 <= a -> 0 <= b -> upto (a + b) = upto a ++ map (Z.add a) (upto b).
Proof.
  intros Ha Hb. rewrite <- (Z2Nat.id b) by lia. induction (Z.to_nat b) as [|n IH].
  - now rewrite Z.add_0_r, app_nil_r.
  - replace (Z.of_nat (S n)) with (Z.of_nat n + 1) by lia. rewrite Z.add_assoc, !upto_succ by lia.
    now rewrite IH, map_app, app_assoc.
Qed.

Section Groups.
Variables (f : Z -> list Z) (s : Z).
Hypotheses (s_ok : 0 <= s) (f_len : forall k, zlen (f k) = s).

Lemma zlen_groups n : 0 <= n -> zlen (flat_map f (upto n)) = n * s.
Proof.
  intros Hn. rewrite <- (Z2Nat.id n) by lia. induction (Z.to_nat n) as [|k IH]; [reflexivity|].
  replace (Z.of_nat (S k)) with (Z.of_nat k + 1) by lia. rewrite upto_succ, flat_map_app by lia.
  cbn [flat_map]. rewrite app_nil_r, zlen_app, IH, f_len. lia.
Qed.

Lemma zgetd_groups n k i : 0 <= k < n -> 0 <= i < s -> zgetd (flat_map f (upto n)) (k * s + i) = zgetd (f k) i.
Proof.
  intros Hk Hi. replace n with (k + (1 + (n - k - 1))) by lia. rewrite upto_add by lia. rewrite flat_map_app.
  unfold zgetd. rewrite zget_app_r by (rewrite zlen_groups; nia). rewrite zlen_groups by lia.
  rewrite upto_cons by lia. cbn [map flat_map]. rewrite zget_app_l by (rewrite f_len; lia).
  rewrite Z.add_0_r. now replace (k * s + i - k * s) with i by lia.
Qed.
End Groups.

(** Writing group after group, [s] pixels each. *)
Lemma shown_groups (g : Z -> list Z -> list Z) (F : Z -> list Z) s i m buf : 0 <= s -> 0 <= i -> 0 <= m ->
  (forall j b, 0 <= j < m -> (i + (j + 1) * s) * 4 <= zlen b ->
    shown (i + (j + 1) * s) (g j b) = shown (i + j * s) b ++ F j /\ zlen (g j b) = zlen b) ->
  (i + m * s) * 4 <= zlen buf ->
  let buf' := fold_left (fun b j => g j b) (upto m) buf in
  shown (i + m * s) buf' = shown i buf ++ flat_map F (upto m) /\ zlen buf' = zlen buf.
Proof.
  intros Hs Hi Hm. rewrite <- (Z2Nat.id m) by lia. induction (Z.to_nat m) as [|k IH]; intros Hg Hb.
  - cbn. rewrite Z.add_0_r, app_nil_r. auto.
  - replace (Z.of_nat (S k)) with (Z.of_nat k + 1) in * by lia.
    destruct IH as [IH1 IH2]; [intros; apply Hg; lia|nia|].
    rewrite upto_succ, fold_left_app, flat_map_app by lia. cbn [fold_left flat_map].
    set (b := fold_left _ _ _) in *. destruct (Hg (Z.of_nat k) b) as [H1 H2]; [lia|lia|].
    rewrite app_nil_r. split; [|lia]. rewrite H1, IH1. now rewrite app_assoc.
Qed.

(** * Pictures *)

Section Picture.
Variable pic : Z -> color.

(** Pixels [a] to [a + n - 1], and the first [n]. *)
Definition span (a n : Z) : list Z := flat_map (fun k => rgba (pic (a + k))) (upto n).
Definition picture (n : Z) : list Z := flat_map (fun k => rgba (pic k)) (upto n).

Lemma picture_span n : picture n = span 0 n.
Proof. apply flat_map_ext_in. intros k _. now rewrite Z.add_0_l. Qed.

Lemma zlen_rgb c : zlen (rgb c) = 3.
Proof. now destruct c as [[r g] b]. Qed.
Lemma zlen_rgba c : zlen (rgba c) = 4.
Proof. now destruct c as [[r g] b]. Qed.

Lemma zlen_picture n : 0 <= n -> zlen (picture n) = n * 4.
Proof. intros Hn. apply zlen_groups; [intros; apply zlen_rgba|lia]. Qed.

Lemma span_add a n m : 0 <= n -> 0 <= m -> span a (n + m) = span a n ++ span (a + n) m.
Proof.
  intros Hn Hm. unfold span. rewrite upto_add, flat_map_app by lia. f_equal. rewrite flat_map_map.
  apply flat_map_ext_in. intros k _. now rewrite Z.add_assoc.
Qed.

Lemma span_groups a s m : 0 <= s -> 0 <= m -> flat_map (fun j => span (a + j * s) s) (upto m) = span a (m * s).
Proof.
  intros Hs Hm. rewrite <- (Z2Nat.id m) by lia. induction (Z.to_nat m) as [|k IH]; [reflexivity|].
  replace (Z.of_nat (S k)) with (Z.of_nat k + 1) by lia. rewrite upto_succ, flat_map_app, IH by lia.
  cbn [flat_map]. rewrite app_nil_r, Z.mul_add_distr_r, Z.mul_1_l. symmetry. apply span_add; nia.
Qed.

(** [n] pixels written from pixel [a] on. *)
Lemma shown_span (f : Z -> list Z) a n buf : 0 <= a -> 0 <= n -> (a + n) * 4 <= zlen buf ->
  (forall j, 0 <= j < n -> f j = rgba (pic (a + j))) ->
  let buf' := fold_left (fun b j => put4 ((a + j) * 4) (f j) b) (upto n) buf in
  shown (a + n) buf' = shown a buf ++ span a n /\ zlen buf' = zlen buf.
Proof.
  intros Ha Hn Hb Hf. rewrite (fold_ext _ (fun b j => put4 ((a + j) * 4) (rgba (pic (a + j))) b)).
  - now apply (shown_fold (fun j => rgba (pic (a + j))) a n buf (fun j => zlen_rgba _)).
  - intros b j Hj. rewrite in_upto in Hj. now rewrite Hf.
Qed.

Lemma shown_all n buf : zlen buf = n * 4 -> shown n buf = buf.
Proof. intros Hl. unfold shown. apply ztake_all. lia. Qed.

(** The same from the start of a buffer. *)
Lemma shown_picture (f : Z -> list Z) n buf : 0 <= n -> n * 4 <= zlen buf ->
  (forall j, 0 <= j < n -> f j = rgba (pic j)) ->
  let buf' := fold_left (fun b j => put4 (j * 4) (f j) b) (upto n) buf in
  shown n buf' = picture n /\ zlen buf' = zlen buf.
Proof. intros Hn Hb Hf. rewrite picture_span. now apply (shown_span f 0 n buf). Qed.

(** ** The copy filter *)

Lemma copy_pixels_ok n : 0 <= n -> copy_pixels n (flat_map (fun k => rgb (pic k)) (upto n)) = picture n.
Proof.
  intros Hn. unfold copy_pixels, put_rgb. set (data := flat_map _ _). set (buf := zrep (n * 4) 0).
  assert (Hb : zlen buf = n * 4) by (unfold buf; rewrite zlen_zrep; lia).
  destruct (shown_picture (fun k => [zgetd data (k * 3); zgetd data (k * 3 + 1); zgetd data (k * 3 + 2); 255]) n buf) as [H1 H2];
    [exact Hn|lia| |].
  - intros j Hj. rewrite <- (Z.add_0_r (j * 3)) at 1. unfold data.
    rewrite !(zgetd_groups (fun k => rgb (pic k)) 3) by (auto using zlen_rgb; lia). now destruct (pic j) as [[r g] b].
  - rewrite <- H1. symmetry. apply shown_all. lia.
Qed.

(** ** The palette filter *)

Definition color_of (palette : list Z) (v : Z) (c : color) : Prop :=
  rgb c = [zgetd palette (v * 3); zgetd palette (v * 3 + 1); zgetd palette (v * 3 + 2)].

Lemma color_rgba palette v c : color_of palette v c ->
  [zgetd palette (v * 3); zgetd palette (v * 3 + 1); zgetd palette (v * 3 + 2); 255] = rgba c.
Proof. unfold color_of. destruct c as [[r g] b]. cbn [rgb rgba]. now intros [= -> -> ->]. Qed.

Lemma palette_pixels_ok n palette data buf : 0 <= n -> n * 4 <= zlen buf ->
  (forall k, 0 <= k < n -> exists v, zget data k = Some v /\ color_of palette v (pic k)) ->
  let buf' := palette_pixels n palette data buf in
  shown n buf' = picture n /\ zlen buf' = zlen buf.
Proof.
  intros Hn Hb Hd.
  apply (shown_picture (fun k => let color i := match zget data k with Some v => zgetd palette (v * 3 + i) | None => 0 end in
    [color 0; color 1; color 2; 255]) n buf Hn Hb).
  intros j Hj. destruct (Hd j Hj) as (v & -> & Hv). cbv beta zeta. rewrite <- (color_rgba _ _ _ Hv). now rewrite Z.add_0_r.
Qed.

Lemma bit_of a b : is_byte a -> 0 <= b < 8 -> ((a >> b) & 1)%js = Z.b2z (Z.testbit a b).
Proof.
  unfold is_byte. intros Ha Hb. rewrite sar_small by lia. change 1 with (2 ^ 1 - 1) at 1.
  rewrite band_ones by lia. symmetry. apply Z.testbit_spec'. lia.
Qed.

(** Rows of bits, each row from a new byte on. *)
Definition mono_picture (width height : Z) (palette data : list Z) : Prop :=
  forall y x, 0 <= y < height -> 0 <= x < width ->
    color_of palette (Z.b2z (Z.testbit (zgetd data (y * ((width + 7) / 8) + x / 8)) (7 - x mod 8))) (pic (y * width + x)).

Lemma mono_byte_ok width height palette data y x n buf : bytes data -> mono_picture width height palette data ->
  0 <= y < height -> 0 <= x -> 0 <= n <= 8 -> x * 8 + n <= width -> (y * width + x * 8 + n) * 4 <= zlen buf ->
  let a := y * width + x * 8 in
  let buf' := fold_left (fun dest b => mono_pixel palette data ((y * width + x * 8 + 7 - b) * 4) (y * ((width + 7) / 8) + x) b dest)
      (high_bits n) buf in
  shown (a + n) buf' = shown a buf ++ span a n /\ zlen buf' = zlen buf.
Proof.
  intros Hd Hm Hy Hx Hn Hw Hb a buf'. set (sb := y * ((width + 7) / 8) + x) in *.
  set (f j := let sp := ((zgetd data sb >> (7 - j)) & 1)%js * 3 in
    [zgetd palette sp; zgetd palette (sp + 1); zgetd palette (sp + 2); 255]).
  assert (E : buf' = fold_left (fun b j => put4 ((a + j) * 4) (f j) b) (upto n) buf).
  { subst buf'. unfold high_bits. rewrite fold_map. apply fold_ext. intros b j _. unfold mono_pixel, put_rgb, f.
    f_equal. unfold a. lia. }
  rewrite E. apply shown_span; [unfold a; nia|lia|exact Hb|]. intros j Hj. unfold f. cbv zeta.
  rewrite bit_of by (try lia; now apply bytes_zgetd). apply color_rgba.
  specialize (Hm y (x * 8 + j) Hy ltac:(lia)). unfold a. rewrite <- Z.add_assoc.
  replace ((x * 8 + j) / 8) with x in Hm by euclid. replace ((x * 8 + j) mod 8) with j in Hm by euclid. exact Hm.
Qed.

Lemma mono_row_ok width height palette data y buf : bytes data -> mono_picture width height palette data ->
  0 <= y < height -> 0 <= width -> (y * width + width) * 4 <= zlen buf ->
  let a := y * width in
  let buf' := mono_row width palette data y buf in
  shown (a + width) buf' = shown a buf ++ span a width /\ zlen buf' = zlen buf.
Proof.
  intros Hd Hm Hy Hw Hb a. unfold mono_row. cbv zeta. assert (Hdm := Z.div_mod width 8 ltac:(lia)).
  assert (Hr := Z.mod_pos_bound width 8 ltac:(lia)).
  destruct (shown_groups (fun x b => fold_left (fun dest b => mono_pixel palette data ((y * width + x * 8 + 7 - b) * 4)
      (y * ((width + 7) / 8) + x) b dest) (high_bits 8) b) (fun j => span (a + j * 8) 8) 8 a (width / 8) buf)
    as [H1 H2]; try (unfold a; nia).
  - intros j b Hj Hl. assert (j * 8 + 8 <= width) by lia.
    destruct (mono_byte_ok width height palette data y j 8 b Hd Hm Hy) as [H1 H2]; try (unfold a in *; lia).
    replace (a + (j + 1) * 8) with (y * width + j * 8 + 8) by (unfold a; lia). split; [exact H1|exact H2].
  - rewrite span_groups in H1 by lia. set (b1 := fold_left _ (upto (width / 8)) buf) in *.
    destruct (mono_byte_ok width height palette data y (width / 8) (width mod 8) b1 Hd Hm Hy) as [H3 H4]; try lia.
    unfold a in *. replace (y * width + width / 8 * 8 + width mod 8) with (y * width + width) in H3 by lia. split; [|lia].
    rewrite H3, H1, <- app_assoc. f_equal. rewrite <- span_add by lia. f_equal. lia.
Qed.

Lemma mono_pixels_ok width height palette data buf : bytes data -> mono_picture width height palette data ->
  0 <= width -> 0 <= height -> width * height * 4 <= zlen buf ->
  let buf' := mono_pixels width height palette data buf in
  shown (width * height) buf' = picture (width * height) /\ zlen buf' = zlen buf.
Proof.
  intros Hd Hm Hw Hh Hb. unfold mono_pixels.
  destruct (shown_groups (fun y b => mono_row width palette data y b) (fun j => span (0 + j * width) width) width 0 height buf)
    as [H1 H2]; try lia.
  - intros j b Hj Hl. rewrite !Z.add_0_l in *.
    destruct (mono_row_ok width height palette data j b Hd Hm Hj Hw) as [H1 H2]; [lia|].
    rewrite Z.mul_add_distr_r, Z.mul_1_l. split; [exact H1|exact H2].
  - rewrite span_groups, Z.add_0_l, (Z.mul_comm height) in H1 by lia. rewrite picture_span. split; [exact H1|exact H2].
Qed.
(** ** The gradient filter

    Each component is sent as its difference from a prediction: the pixel to the
    left plus the pixel above minus the pixel above the left one, brought into
    the range of a byte; a pixel outside the rectangle counts as zero. *)

Definition component (k c : Z) : Z := zgetd (rgb (pic k)) c.
Definition clamp (v : Z) : Z := if v <? 0 then 0 else if 255 <? v then 255 else v.
Definition predicted (width k c : Z) : Z :=
  clamp ((if k mod width =? 0 then 0 else component (k - 1) c) +
         (if k <? width then 0 else component (k - width) c) -
         (if (k mod width =? 0) || (k <? width) then 0 else component (k - width - 1) c)).
Definition residues (width k : Z) : list Z :=
  map (fun c => (component k c - predicted width k c) mod 256) [0; 1; 2].
Definition gradient_data (width n : Z) : list Z := flat_map (residues width) (upto n).

Definition byte_color (c : color) : Prop := bytes (rgb c).

Lemma component_byte k c : byte_color (pic k) -> is_byte (component k c).
Proof. intros Hk. now apply bytes_zgetd. Qed.

Lemma residue_undone v p : is_byte v -> toUint8 ((v - p) mod 256 + p) = v.
Proof. intros Hv. unfold toUint8, is_byte in *. euclid. Qed.

Section Gradient.
Variables width n : Z.
Hypotheses (width_ok : 0 < width) (n_ok : 0 <= n) (pic_ok : forall k, byte_color (pic k)).
Abbreviation data := (gradient_data width n).

Lemma gradient_at k c : 0 <= k < n -> 0 <= c < 3 ->
  zgetd data (k * 3 + c) = (component k c - predicted width k c) mod 256.
Proof.
  intros Hk Hc. unfold gradient_data. rewrite (zgetd_groups (residues width) 3) by (auto; lia). unfold residues.
  assert (E : c = 0 \/ c = 1 \/ c = 2) by lia. destruct E as [->|[->| ->]]; reflexivity.
Qed.

Lemma picture_succ k : 0 <= k -> picture (k + 1) = (((picture k ++ [component k 0]) ++ [component k 1]) ++ [component k 2]) ++ [255].
Proof.
  intros Hk. unfold picture at 1. rewrite upto_succ, flat_map_app by lia. cbn [flat_map]. rewrite app_nil_r, <- !app_assoc.
  unfold component. now destruct (pic k) as [[r g] b].
Qed.

Definition left_of (x k : Z) : list Z := if x =? 0 then [0; 0; 0] else map (component (k - 1)) [0; 1; 2].

Lemma left_of_at x k c : 0 <= c < 3 -> zgetd (left_of x k) c = if x =? 0 then 0 else component (k - 1) c.
Proof.
  intros Hc. unfold left_of. assert (E : c = 0 \/ c = 1 \/ c = 2) by lia.
  destruct (x =? 0), E as [->|[->| ->]]; reflexivity.
Qed.

Lemma first_pixel_ok k ul : 0 <= k < n -> k < width ->
  first_pixel data (Gradient (picture k) (k * 3) (left_of k k) ul) =
  Gradient (picture (k + 1)) ((k + 1) * 3) (left_of (k + 1) (k + 1)) ul.
Proof.
  intros Hk Hw. rewrite picture_succ by lia.
  assert (Hv : forall c, 0 <= c < 3 -> toUint8 (zgetd data (k * 3 + c) + zgetd (left_of k k) c) = component k c).
  { intros c Hc. rewrite gradient_at, left_of_at by lia.
    replace (if k =? 0 then 0 else component (k - 1) c) with (predicted width k c); [now apply residue_undone, component_byte|].
    unfold predicted. rewrite Z.mod_small by lia. destruct (Z.ltb_spec k width); [|lia]. rewrite orb_true_r, Z.add_0_r, Z.sub_0_r.
    unfold clamp. destruct (k =? 0); [reflexivity|]. pose proof (component_byte (k - 1) c (pic_ok _)) as Hb. unfold is_byte in Hb.
    repeat case_if; blia. }
  unfold first_pixel. change (upto 3) with [0; 1; 2]. cbn [fold_left].
  unfold first_component. cbn [g_rgbx g_data g_left g_upperleft].
  assert (H0 := Hv 0 ltac:(lia)). assert (H1 := Hv 1 ltac:(lia)). assert (H2 := Hv 2 ltac:(lia)).
  rewrite Z.add_0_r in H0. rewrite <- Z.add_assoc. change (1 + 1) with 2.
  assert (El : exists a b c, left_of k k = [a; b; c]) by (unfold left_of; destruct (k =? 0); cbn; eauto).
  destruct El as (a & b & c & El). rewrite El in *. rewrite H0.
  change (zgetd (zset [a; b; c] 0 (component k 0)) 1) with (zgetd [a; b; c] 1). rewrite H1.
  change (zgetd (zset (zset [a; b; c] 0 (component k 0)) 1 (component k 1)) 2) with (zgetd [a; b; c] 2). rewrite H2.
  f_equal; [lia|]. unfold left_of. destruct (Z.eqb_spec (k + 1) 0); [lia|]. now rewrite Z.add_simpl_r.
Qed.

Lemma above_at k u l c : 0 <= u < k -> 0 <= c < 3 -> zgetd (picture k ++ l) (u * 4 + c) = component u c.
Proof.
  intros Hu Hc. transitivity (zgetd (picture k) (u * 4 + c)).
  - unfold zgetd. rewrite zget_app_l; [reflexivity|]. rewrite zlen_picture by lia. lia.
  - unfold picture. rewrite (zgetd_groups (fun k => rgba (pic k)) 4) by (auto using zlen_rgba; lia).
    unfold component. destruct (pic u) as [[r g] b]. assert (E : c = 0 \/ c = 1 \/ c = 2) by lia.
    destruct E as [->|[->| ->]]; reflexivity.
Qed.

Lemma next_pixel_ok k x : 0 <= k < n -> width <= k -> k mod width = x ->
  next_pixel data (Gradient (picture k) (k * 3) (left_of x k) (left_of x (k - width))) (k - width) =
  Gradient (picture (k + 1)) ((k + 1) * 3) (left_of (x + 1) (k + 1)) (left_of (x + 1) (k + 1 - width)).
Proof.
  intros Hk Hw Hx. assert (Hx0 := Z.mod_pos_bound k width width_ok). rewrite Hx in Hx0.
  set (pred c := let p := zgetd (left_of x k) c + component (k - width) c - zgetd (left_of x (k - width)) c in
    if p <? 0 then 0 else if 255 <? p then 255 else p).
  assert (Hv : forall c, 0 <= c < 3 -> toUint8 (zgetd data (k * 3 + c) + pred c) = component k c).
  { intros c Hc. rewrite gradient_at by lia. replace (pred c) with (predicted width k c);
      [now apply residue_undone, component_byte|]. unfold predicted, pred. rewrite Hx, !left_of_at by lia.
    destruct (Z.ltb_spec k width); [lia|]. rewrite orb_false_r. reflexivity. }
  assert (H0 := Hv 0 ltac:(lia)). assert (H1 := Hv 1 ltac:(lia)). assert (H2 := Hv 2 ltac:(lia)). rewrite Z.add_0_r in H0.
  clear Hv. unfold pred in *. clear pred. cbv zeta in *.
  assert (Hl : forall j, exists a b c, left_of x j = [a; b; c]) by (intros j; unfold left_of; destruct (x =? 0); cbn; eauto).
  destruct (Hl k) as (a & b & c & El), (Hl (k - width)) as (a' & b' & c' & Eu). rewrite El, Eu in *.
  rewrite picture_succ by lia. unfold next_pixel. change (upto 3) with [0; 1; 2]. cbn [fold_left].
  unfold next_component. cbn [g_rgbx g_data g_left g_upperleft]. rewrite <- Z.add_assoc. change (1 + 1) with 2.
  assert (A0 := above_at k (k - width) [] 0 ltac:(lia) ltac:(lia)). rewrite app_nil_r in A0. rewrite A0, H0.
  rewrite <- !app_assoc, (above_at k (k - width) _ 1), (above_at k (k - width) _ 2) by lia.
  change (zgetd (zset [a; b; c] 0 (component k 0)) 1) with (zgetd [a; b; c] 1).
  change (zgetd (zset [a'; b'; c'] 0 (component (k - width) 0)) 1) with (zgetd [a'; b'; c'] 1). rewrite H1.
  change (zgetd (zset (zset [a; b; c] 0 (component k 0)) 1 (component k 1)) 2) with (zgetd [a; b; c] 2).
  change (zgetd (zset (zset [a'; b'; c'] 0 (component (k - width) 0)) 1 (component (k - width) 1)) 2) with (zgetd [a'; b'; c'] 2).
  rewrite H2. f_equal; [lia| |]; unfold left_of; (destruct (Z.eqb_spec (x + 1) 0); [lia|]); [now rewrite Z.add_simpl_r|].
  now replace (k + 1 - width - 1) with (k - width) by lia.
Qed.

Lemma first_row_ok x : 0 <= x <= width -> x <= n ->
  exists ul, fold_left (fun g _ => first_pixel data g) (upto x) (Gradient [] 0 [0; 0; 0] [0; 0; 0]) =
  Gradient (picture x) (x * 3) (left_of x x) ul.
Proof.
  intros Hx. rewrite <- (Z2Nat.id x) in * by lia. induction (Z.to_nat x) as [|m IH]; intros Hn; [now exists [0; 0; 0]|].
  replace (Z.of_nat (S m)) with (Z.of_nat m + 1) in * by lia. rewrite upto_succ, fold_left_app by lia. cbn [fold_left].
  destruct IH as [ul ->]; [lia|lia|]. exists ul. apply first_pixel_ok; lia.
Qed.

Lemma next_row_ok y l ul : 1 <= y -> (y + 1) * width <= n ->
  exists l' ul', next_row width data (Gradient (picture (y * width)) (y * width * 3) l ul) y =
  Gradient (picture ((y + 1) * width)) ((y + 1) * width * 3) l' ul'.
Proof.
  intros Hy Hn'. unfold next_row. cbn [g_rgbx g_data]. rewrite fold_map.
  assert (H : forall x, 0 <= x <= width ->
    fold_left (fun g x => next_pixel data g ((y - 1) * width + x)) (upto x)
      (Gradient (picture (y * width)) (y * width * 3) [0; 0; 0] [0; 0; 0]) =
    Gradient (picture (y * width + x)) ((y * width + x) * 3) (left_of x (y * width + x)) (left_of x (y * width + x - width))).
  { intros x Hx. rewrite <- (Z2Nat.id x) in * by lia. induction (Z.to_nat x) as [|m IH].
    - cbn. now rewrite Z.add_0_r.
    - replace (Z.of_nat (S m)) with (Z.of_nat m + 1) in * by lia. rewrite upto_succ, fold_left_app by lia. cbn [fold_left].
      rewrite IH by lia. replace ((y - 1) * width + Z.of_nat m) with (y * width + Z.of_nat m - width) by lia.
      rewrite next_pixel_ok; [now rewrite Z.add_assoc|nia|nia|].
      rewrite Z.add_comm, Z.mod_add by lia. apply Z.mod_small. lia. }
  rewrite H by lia. replace ((y + 1) * width) with (y * width + width) by lia. eauto.
Qed.

(** Decoding undoes the prediction. *)
Lemma gradient_pixels_ok height : 0 < height -> n = width * height -> gradient_pixels width height data = picture n.
Proof.
  intros Hh En. unfold gradient_pixels. cbv zeta. destruct (first_row_ok width) as [ul ->]; [lia|nia|]. rewrite fold_map.
  assert (H : forall m, 0 <= m < height -> exists l ul',
    fold_left (fun g y => next_row width data g (y + 1)) (upto m)
      (Gradient (picture width) (width * 3) (left_of width width) ul) =
    Gradient (picture ((m + 1) * width)) ((m + 1) * width * 3) l ul').
  { intros m Hm. rewrite <- (Z2Nat.id m) in * by lia. induction (Z.to_nat m) as [|j IH].
    - cbn [upto]. rewrite Z.mul_1_l. eexists _, _. reflexivity.
    - replace (Z.of_nat (S j)) with (Z.of_nat j + 1) in * by lia. rewrite upto_succ, fold_left_app by lia. cbn [fold_left].
      destruct IH as (l & ul' & ->); [lia|]. apply next_row_ok; nia. }
  destruct (H (height - 1)) as (l & ul' & ->); [lia|]. cbn [g_rgbx]. f_equal. lia.
Qed.
End Gradient.
End Picture.

(** * The encoding of a rectangle *)

(** The length of data: seven bits in each of two bytes, eight in the third. *)
Definition length_bytes (n : Z) : list Z :=
  if n <? 128 then [n]
  else if n <? 16384 then [n mod 128 + 128; n / 128]
  else [n mod 128 + 128; n / 128 mod 128 + 128; n / 16384].

(** Data behind its length. *)
Definition counted (data block : list Z) : Prop :=
  bytes data /\ 2 <= zlen data < 4194304 /\ block = length_bytes (zlen data) ++ data.

Inductive tight_filter := TCopy (explicit : bool) | TPalette (colors : list color) | TGradient.

Inductive tight_rect :=
| TFill (c : color)
| TJpeg (data : list Z)
| TBasic (streamId : Z) (f : tight_filter) (pic : Z -> color).

Section Encoding.
Context `{ZlibOk}.
Variables x y width height : Z.

(** The data of a filter for a picture. *)
Definition filtered (f : tight_filter) (pic : Z -> color) (data : list Z) : Prop :=
  let n := width * height in
  match f with
  | TCopy _ => data = flat_map (fun k => rgb (pic k)) (upto n)
  | TPalette colors =>
      bytes data /\ 2 <= zlen colors <= 256 /\
      let index k i := zget colors i = Some (pic k) in
      if zlen colors =? 2 then
        zlen data = (width + 7) / 8 * height /\
        forall y x, 0 <= y < height -> 0 <= x < width ->
          index (y * width + x) (Z.b2z (Z.testbit (zgetd data (y * ((width + 7) / 8) + x / 8)) (7 - x mod 8)))
      else zlen data = n /\ forall k, 0 <= k < n -> index k (zgetd data k)
  | TGradient => (forall k, byte_color (pic k)) /\ data = gradient_data pic width n
  end.

(** The bytes between the control byte and the data. *)
Definition filter_header (f : tight_filter) : list Z :=
  match f with
  | TCopy explicit => if explicit then [0] else []
  | TPalette colors => [1; zlen colors - 1] ++ flat_map rgb colors
  | TGradient => [2]
  end.

(** Data of twelve bytes and more is compressed with one of four streams. *)
Definition packed (zs : list inflator) (streamId : Z) (data block : list Z) : Prop :=
  if zlen data <? 12 then block = data
  else exists z comp, zget zs streamId = Some z /\ yields (state z) comp data /\ counted comp block.

(** The low bits of the control byte say which streams start afresh. *)
Definition afresh (resets : Z) (zs : list inflator) : list inflator :=
  map (fun '(i, z) => if Z.testbit resets i then snd (reset z) else z) (combine (upto 4) zs).

Definition kind (rect : tight_rect) : Z :=
  match rect with
  | TFill _ => 8
  | TJpeg _ => 9
  | TBasic streamId (TCopy false) _ => streamId
  | TBasic streamId _ _ => streamId + 4
  end.

Definition encodes (zs : list inflator) (resets : Z) (rect : tight_rect) (bs : list Z) : Prop :=
  exists body, bs = (kind rect * 16 + resets) :: body /\
  match rect with
  | TFill c => body = rgb c
  | TJpeg data => counted data body
  | TBasic streamId f pic => 0 <= streamId < 4 /\ exists data block,
      filtered f pic data /\ packed (afresh resets zs) streamId data block /\ body = filter_header f ++ block
  end.

Definition drawn (rect : tight_rect) : draw :=
  match rect with
  | TFill c => DFill x y width height (rgb c)
  | TJpeg data => DImage x y width height "image/jpeg" data
  | TBasic _ _ pic => DBlit x y width height (picture pic (width * height))
  end.

(** Between rectangles; [idle] leaves out the control byte and the filter. *)
Definition idle (st : tight) : Prop :=
  _numColors st = 0 /\ _len st = 0 /\
  zlen (_palette st) = 1024 /\ zlen (_zlibs st) = 4 /\ Forall wf_inflator (_zlibs st).
Definition ready (st : tight) : Prop := _ctl st = None /\ _filter st = None /\ idle st.

Lemma ready_st_ok st : ready st -> st_ok st.
Proof. intros (_ & _ & En & El & Ep & _). unfold st_ok. rewrite En, El, Ep. lia. Qed.

Lemma idle_zlibs st zs : idle st -> zlen zs = zlen (_zlibs st) -> Forall wf_inflator zs -> idle (set_zlibs zs st).
Proof. intros (H1 & H2 & H3 & H4 & H5) Hz Hf. repeat split; cbn; congruence || assumption. Qed.
End Encoding.

(** * Runs on a whole rectangle *)

Section Runs.
Context `{ZlibOk}.
Variables x y width height depth : Z.
Hypotheses (width_ok : 0 < width) (height_ok : 0 < height).
Abbreviation W := (world tight asrc trace).
Implicit Types (st : tight) (p r : list Z) (t : trace) (zs : list inflator).

Lemma set_len_idle st : _len st = 0 -> set_len 0 st = st.
Proof. intros E. destruct st. cbn in E. now rewrite E. Qed.

Lemma length_split n data r : n = zlen data -> bytes data -> 2 <= n < 4194304 -> exists b1 b2 b3 r',
  length_bytes n ++ data ++ r = [b1] ++ [b2] ++ [b3] ++ r' /\ is_byte b1 /\ is_byte b2 /\ is_byte b3 /\
  fst (length_of b1 b2 b3) = n /\ zdrop (snd (length_of b1 b2 b3)) [b1; b2; b3] ++ r' = data ++ r.
Proof.
  intros En Hb Hn. unfold length_bytes. destruct data as [|c1 [|c2 data]]; try (cbn in En; lia).
  inversion_clear Hb as [|? ? H1 Hb2]. inversion_clear Hb2 as [|? ? H2 _].
  unfold length_of, is_byte in *. destruct (Z.ltb_spec n 128); [|destruct (Z.ltb_spec n 16384)].
  - exists n, c1, c2, (data ++ r). repeat split; try lia; destruct (Z.ltb_spec n 128); try lia; reflexivity.
  - exists (n mod 128 + 128), (n / 128), c1, (c2 :: data ++ r). repeat split; try euclid;
      destruct (Z.ltb_spec (n mod 128 + 128) 128), (Z.ltb_spec (n / 128) 128); solve [euclid | reflexivity | cbn [fst]; euclid].
  - exists (n mod 128 + 128), (n / 128 mod 128 + 128), (n / 16384), (c1 :: c2 :: data ++ r). repeat split; try euclid;
      destruct (Z.ltb_spec (n mod 128 + 128) 128), (Z.ltb_spec (n / 128 mod 128 + 128) 128); solve [euclid | reflexivity | cbn [fst]; euclid].
Qed.

Lemma readData_run st p r t data block : _len st = 0 -> counted data block ->
  exists p', _readData (World st (ASrc p (block ++ r)) t : W) = (Ret (Some (fresh_view data)), World st (ASrc p' r) t).
Proof.
  intros El (Hb & Hn & ->). rewrite <- app_assoc.
  destruct (length_split (zlen data) data r eq_refl Hb Hn) as (b1 & b2 & b3 & r' & Er & H1 & H2 & H3 & Ef & Es).
  rewrite Er. unfold _readData. rewrite run_get, El. cbn [Z.eqb].
  assert (Hr := zlen_nonneg r'). rewrite bind_assoc_run, run_wait by zlia. rewrite bind_assoc_run.
  pose proof (read_length_run st p b1 b2 b3 r' t H1 H2 H3) as E. destruct (length_of b1 b2 b3) as [v n]. cbn [fst snd] in *. subst v.
  rewrite (bind_run _ _ _ _ _ E), run_ret, run_get, Es. cbn [_len set_len].
  assert (Hr0 := zlen_nonneg r). rewrite run_wait by zlia. rewrite (run_view (zlen data) same) by reflexivity. rewrite run_modify.
  unfold same. change (set_len 0 (set_len (zlen data) st)) with (set_len 0 st). rewrite set_len_idle by exact El. eexists. reflexivity.
Qed.

Lemma onZlib_run {A} i (m : M inflator A) st z a z' : zget (_zlibs st) i = Some z -> m z = (Ret a, z') ->
  onZlib i m st = (Ret a, set_zlibs (zset (_zlibs st) i z') st).
Proof. intros Ez Em. unfold onZlib. now rewrite Ez, Em. Qed.

Lemma zget_range {A} (l : list A) i a : zget l i = Some a -> 0 <= i < zlen l.
Proof.
  intros E. destruct (Z_lt_le_dec i 0) as [Hi|Hi]; [unfold zget in E; destruct (Z.ltb_spec i 0); [easy|lia]|].
  destruct (Z_lt_le_dec i (zlen l)) as [Hl|Hl]; [lia|]. now rewrite zget_ge in E by exact Hl.
Qed.

Lemma Forall_zset {A} (P : A -> Prop) l i a : Forall P l -> P a -> Forall P (zset l i a).
Proof.
  intros Hl Ha. unfold zset. case_if; [exact Hl|]. apply Forall_app.
  assert (H1 := Hl). rewrite <- (ztake_zdrop i l), Forall_app in H1.
  assert (H2 := Hl). rewrite <- (ztake_zdrop (i + 1) l), Forall_app in H2.
  split; [apply H1|apply Forall_cons; [exact Ha|apply H2]].
Qed.

Lemma filter_data_run st p r t streamId data block : _len st = 0 -> Forall wf_inflator (_zlibs st) ->
  0 < zlen data -> packed (_zlibs st) streamId data block ->
  exists p' zs, filter_data streamId (zlen data) (World st (ASrc p (block ++ r)) t : W) =
    (Ret (Some data), World (set_zlibs zs st) (ASrc p' r) t) /\ zlen zs = zlen (_zlibs st) /\ Forall wf_inflator zs.
Proof.
  intros El Hwf Hd Hp. unfold packed in Hp. unfold filter_data. destruct (zlen data <? 12).
  - subst block. assert (Hr := zlen_nonneg r). rewrite run_wait by zlia.
    change rQshiftBytes with (fun n => atake n same same). cbn beta. rewrite (run_take (zlen data) same same) by reflexivity.
    exists (p ++ same data), (_zlibs st). split; [|now split]. unfold same. now destruct st.
  - destruct Hp as (z & comp & Ez & Hy & Hc). destruct (readData_run st p r t comp block El Hc) as [p' Er].
    rewrite (bind_run _ _ _ _ _ Er), view_bytes_fresh.
    assert (Hz : wf_inflator z).
    { rewrite Forall_forall in Hwf. apply Hwf. unfold zget in Ez. destruct (streamId <? 0); [easy|]. now apply nth_error_In in Ez. }
    assert (Hi := zget_range _ _ _ Ez). set (z1 := mkInflator (state z) comp (buffers z) (chunkSize z)).
    rewrite (run_dec _ _ _ _ _ _ _ (onZlib_run streamId (setInput (Some comp)) st z tt z1 Ez eq_refl)).
    destruct (inflate_now_run z1 data (zlen data) Hz Hy ltac:(lia)) as (z2 & E2 & Hz2 & _).
    rewrite ztake_all in E2 by lia.
    set (zs1 := zset (_zlibs st) streamId z1). assert (Hi1 : 0 <= streamId < zlen zs1) by (unfold zs1; now rewrite zlen_zset).
    rewrite (run_dec _ _ _ _ _ _ _ (onZlib_run streamId (inflate_now (zlen data)) (set_zlibs zs1 st) z1 data z2
      (zget_zset_eq _ _ z1 Hi) E2)).
    set (zs2 := zset zs1 streamId z2). set (z3 := mkInflator (state z2) [] (buffers z2) (chunkSize z2)).
    rewrite (run_dec _ _ _ _ _ _ _ (onZlib_run streamId (setInput None) (set_zlibs zs2 st) z2 tt z3 (zget_zset_eq _ _ z2 Hi1) eq_refl)).
    subst zs2 zs1. eexists _, _. split; [reflexivity|]. cbn [_zlibs set_zlibs]. rewrite !zlen_zset. split; [reflexivity|].
    repeat apply Forall_zset; [exact Hwf|exact Hz|exact Hz2|exact Hz2].
Qed.

Lemma blit_first data t : width * height * 4 <= zlen data ->
  (blitImage x y width height (fresh_view data) 0 : M trace unit) t =
  (Ret tt, t ++ [DBlit x y width height (shown (width * height) data)]).
Proof.
  intros Hl. cbn [blitImage trace_renderer fresh_view v_offset v_buffer]. change (0 + 0) with 0. rewrite !Z.add_0_l.
  destruct (Z.ltb_spec 0 0), (Z.ltb_spec (zlen data) (width * height * 4)), (Z.leb_spec width 0), (Z.leb_spec height 0); try lia.
  cbn [orb]. unfold zslice, shown. now rewrite Z.sub_0_r, zdrop_nonpos by lia.
Qed.

Abbreviation area := (width * height).

(** Given [body], and anything behind, [m] consumes exactly [body] and draws
    [d]; [P] holds of the state it ends in. *)
Definition Draws (P : tight -> Prop) (m : M W bool) (body : list Z) st (d : draw) : Prop := forall p r t,
  exists p' st', m (World st (ASrc p (body ++ r)) t) = (Ret true, World st' (ASrc p' r) (t ++ [d])) /\ P st'.

Definition unfiltered st : Prop := _filter st = None /\ idle st.

Lemma n_pos : 0 < area.
Proof. nia. Qed.

(** The copy and the gradient filter. *)
Lemma plain_draws st streamId pic (pixels : list Z -> list Z) data block : idle st -> zlen data = area * 3 ->
  pixels data = picture pic area -> packed (_zlibs st) streamId data block ->
  Draws idle (if area * 3 =? 0 then ret true
    else
      data <- filter_data streamId (area * 3) ;;
      match data with
      | None => ret false
      | Some data => onDisp (blitImage x y width height (fresh_view (pixels data)) 0) ;; ret true
      end) block st (DBlit x y width height (picture pic area)).
Proof.
  intros Hi Hd Hp Hk p r t. assert (Hn := n_pos). destruct (Z.eqb_spec (area * 3) 0); [lia|].
  destruct (filter_data_run st p r t streamId data block) as (p' & zs & E & Hz & Hf); [apply Hi|apply Hi|lia|exact Hk|].
  rewrite <- Hd, (bind_run _ _ _ _ _ E), Hp. assert (Hlp : zlen (picture pic area) = area * 4) by (apply zlen_picture; lia).
  erewrite run_disp by (apply blit_first; lia). rewrite shown_all by exact Hlp.
  eexists _, _. split; [reflexivity|]. now apply idle_zlibs.
Qed.

Lemma scratch_run {B} size (k : list Z -> M W B) st s t : exists b v, size <= zlen b /\
  bind (_getScratchBuffer size) k (World st s t) = k b (World (set_scratch v st) s t).
Proof.
  unfold _getScratchBuffer.
  assert (Hnew : size <= zlen (zrep size 0)) by (rewrite (zlen_zrep size 0); lia).
  destruct (_scratchBuffer st) as [b|] eqn:E.
  - destruct (Z.ltb_spec (zlen b) size) as [Hs|Hs].
    + exists (zrep size 0), (Some (zrep size 0)). split; [exact Hnew|].
      rewrite bind_assoc_run, run_get, E. destruct (Z.ltb_spec (zlen b) size); [|lia]. now rewrite bind_assoc_run, run_modify.
    + exists b, (_scratchBuffer st). split; [exact Hs|]. rewrite bind_assoc_run, run_get, E.
      destruct (Z.ltb_spec (zlen b) size); [lia|]. rewrite run_ret. destruct st; cbn in E; rewrite E; reflexivity.
  - exists (zrep size 0), (Some (zrep size 0)). split; [exact Hnew|].
    now rewrite bind_assoc_run, run_get, E, bind_assoc_run, run_modify.
Qed.

(** Both ways of expanding a palette. *)
Lemma expand_run {B} pic (pixels : list Z -> list Z) (k : unit -> M W B) st s t :
  (forall b, area * 4 <= zlen b -> shown area (pixels b) = picture pic area /\ zlen (pixels b) = zlen b) ->
  exists v, bind (dest <- _getScratchBuffer (area * 4) ;;
    (let dest := pixels dest in
     onDec (modify (set_scratch (Some dest))) ;; onDisp (blitImage x y width height (fresh_view dest) 0))) k (World st s t) =
  k tt (World (set_scratch v st) s (t ++ [DBlit x y width height (picture pic area)])).
Proof.
  intros Hp. destruct (scratch_run (area * 4) (fun dest => bind (onDec (modify (set_scratch (Some (pixels dest)))) ;;
    onDisp (blitImage x y width height (fresh_view (pixels dest)) 0)) k) st s t) as (b & v & Hb & E).
  destruct (Hp b Hb) as [H1 H2]. exists (Some (pixels b)). rewrite bind_assoc_run. etransitivity; [exact E|].
  rewrite bind_assoc_run, run_modify.
  rewrite (run_disp _ _ _ _ _ _ _ (blit_first (pixels b) t ltac:(lia))), H1. reflexivity.
Qed.

Lemma zgetd_colors colors v c i : zget colors v = Some c -> 0 <= i < 3 -> zgetd (flat_map rgb colors) (v * 3 + i) = zgetd (rgb c) i.
Proof.
  revert v. induction colors as [|c0 colors IH]; intros v Hv Hi; [apply zget_range in Hv; cbn in Hv; lia|].
  assert (Hr := zget_range _ _ _ Hv). cbn [flat_map]. rewrite zget_cons in Hv by lia. unfold zgetd.
  destruct (Z.eqb_spec v 0) as [E|Hn].
  - subst v. injection Hv as ->. rewrite zget_app_l by (rewrite zlen_rgb; lia). reflexivity.
  - rewrite zget_app_r by (rewrite zlen_rgb; lia). rewrite zlen_rgb. replace (v * 3 + i - 3) with ((v - 1) * 3 + i) by lia.
    now apply IH.
Qed.

Lemma zlen_colors colors : zlen (flat_map rgb colors) = zlen colors * 3.
Proof. induction colors as [|c l IH]; [reflexivity|]. cbn [flat_map]. rewrite zlen_app, zlen_cons, zlen_rgb, IH. lia. Qed.

Lemma color_of_read colors palette v c : zget colors v = Some c ->
  color_of (zblit palette 0 (flat_map rgb colors)) v c.
Proof.
  intros Hv. assert (Hr := zget_range _ _ _ Hv). unfold color_of.
  assert (E : forall i, 0 <= i < 3 -> zgetd (zblit palette 0 (flat_map rgb colors)) (v * 3 + i) = zgetd (rgb c) i).
  { intros i Hi. rewrite <- (zgetd_colors colors v c i Hv Hi). unfold zblit, zgetd. rewrite ztake_nonpos by lia.
    cbn [app]. rewrite zget_app_l; [reflexivity|]. rewrite zlen_colors. lia. }
  rewrite <- (Z.add_0_r (v * 3)) at 1. rewrite !E by lia. now destruct c as [[r g] b].
Qed.

Lemma palette_draws st streamId pic colors data block : idle st ->
  filtered width height (TPalette colors) pic data -> packed (_zlibs st) streamId data block ->
  Draws idle (_paletteFilter streamId x y width height) ((zlen colors - 1) :: flat_map rgb colors ++ block) st
    (DBlit x y width height (picture pic area)).
Proof.
  intros Hi (Hb & Hc & Hf) Hk p r t. assert (Hn := n_pos). set (m := zlen colors) in *. destruct Hi as (H1 & H2 & H3 & H4 & H5).
  assert (Hr := zlen_nonneg r). assert (Hbl := zlen_nonneg block). assert (Hlc := zlen_colors colors). fold m in Hlc.
  unfold _paletteFilter. rewrite run_get, H1. cbn [Z.eqb].
  rewrite bind_assoc_run, run_wait by zlia. cbn [app]. rewrite bind_assoc_run, run_peek, Z.sub_simpl_r. cbv zeta.
  rewrite bind_assoc_run, run_wait by zlia. rewrite bind_assoc_run, run_modify, bind_assoc_run.
  change (m - 1 :: (flat_map rgb colors ++ block) ++ r) with ([m - 1] ++ (flat_map rgb colors ++ block) ++ r).
  change (@rQskipBytes asrc _ 1) with (atake 1 same (fun _ => tt)). rewrite (run_take 1 same) by reflexivity.
  rewrite bind_assoc_run, run_get. cbn [_palette set_numColors]. rewrite <- !app_assoc, bind_assoc_run.
  cbn [rQshiftTo asrc_source]. destruct (Z.ltb_spec (zlen (_palette st)) (m * 3)); [lia|].
  rewrite (run_take (m * 3) same) by exact Hlc. rewrite bind_assoc_run, run_modify, run_ret, run_get. unfold same.
  set (palette := zblit (_palette st) 0 (flat_map rgb colors)). set (st1 := set_palette palette (set_numColors m st)).
  change (_numColors st1) with m. cbv zeta.
  assert (Hpal : forall v c, zget colors v = Some c -> color_of palette v c) by (intros; now apply color_of_read).
  assert (Hdl : (width * (if m <=? 2 then 1 else 8) + 7) / 8 * height = zlen data /\ 0 < zlen data).
  { destruct (Z.eqb_spec m 2) as [E|E]; destruct Hf as [-> _].
    - destruct (Z.leb_spec m 2); [|lia]. rewrite Z.mul_1_r. split; [reflexivity|]. assert (1 <= (width + 7) / 8) by euclid. nia.
    - destruct (Z.leb_spec m 2); [lia|]. replace ((width * 8 + 7) / 8) with width by euclid. split; [reflexivity|exact Hn]. }
  destruct Hdl as [-> Hd]. destruct (Z.eqb_spec (zlen data) 0); [lia|].
  destruct (filter_data_run st1 ((p ++ [m - 1]) ++ flat_map rgb colors) r t streamId data block) as (p' & zs & E & Hz & Hwf);
    [exact H2|exact H5|exact Hd|exact Hk|].
  rewrite (bind_run _ _ _ _ _ E), run_get. change (_numColors (set_zlibs zs st1)) with m.
  change (_palette (set_zlibs zs st1)) with palette.
  assert (Hend : forall v p', exists p2 st2, (onDec (modify (set_numColors 0)) ;; ret true)
      (World (set_scratch v (set_zlibs zs st1)) (ASrc p' r) (t ++ [DBlit x y width height (picture pic area)]) : W) =
      (Ret true, World st2 (ASrc p2 r) (t ++ [DBlit x y width height (picture pic area)])) /\ idle st2).
  { intros v p2. eexists _, _. split; [reflexivity|].
    split; [reflexivity|]. split; [exact H2|]. split; [|split; [etransitivity; [exact Hz|exact H4]|exact Hwf]].
    change (zlen palette = 1024). unfold palette. rewrite zlen_zblit; lia. }
  destruct (m =? 2).
  - destruct Hf as [_ Hf]. destruct (expand_run pic (fun b => mono_pixels width height palette data b) (fun _ => onDec (modify (set_numColors 0)) ;; ret true)
      (set_zlibs zs st1) (ASrc p' r) t) as [v Ev];
      [|destruct (Hend v p') as (p2 & st2 & E2 & Hi2); exists p2, st2; split; [exact (eq_trans Ev E2)|exact Hi2]].
    intros b Hbl2. apply mono_pixels_ok; [exact Hb| |lia|lia|lia]. intros y' x' Hy Hx. now apply Hpal, Hf.
  - destruct Hf as [Hl Hf]. destruct (expand_run pic (fun b => palette_pixels area palette data b) (fun _ => onDec (modify (set_numColors 0)) ;; ret true)
      (set_zlibs zs st1) (ASrc p' r) t) as [v Ev];
      [|destruct (Hend v p') as (p2 & st2 & E2 & Hi2); exists p2, st2; split; [exact (eq_trans Ev E2)|exact Hi2]].
    intros b Hbl2. apply palette_pixels_ok; [lia|exact Hbl2|]. intros k Hk2. exists (zgetd data k).
    split; [|now apply Hpal, Hf]. unfold zgetd. destruct (zget_some data k ltac:(lia)) as [v ->]. reflexivity.
Qed.

(** The number of the filter, and the bytes behind it. *)
Definition filter_number (f : tight_filter) : Z := match f with TCopy _ => 0 | TPalette _ => 1 | TGradient => 2 end.
Definition filter_colors (f : tight_filter) : list Z :=
  match f with TPalette colors => (zlen colors - 1) :: flat_map rgb colors | _ => [] end.
Definition explicit_filter (f : tight_filter) : bool := match f with TCopy explicit => explicit | _ => true end.

Lemma filter_draws st streamId f pic data block : idle st ->
  filtered width height f pic data -> packed (_zlibs st) streamId data block ->
  Draws idle (match filter_number f with
         | 0 => _copyFilter streamId x y width height
         | 1 => _paletteFilter streamId x y width height
         | _ => _gradientFilter streamId x y width height
         end) (filter_colors f ++ block) st (DBlit x y width height (picture pic area)).
Proof.
  intros Hi Hf Hk. assert (Hn := n_pos). destruct f as [e|colors|]; cbn [filter_number filter_colors app].
  - cbn [filtered] in Hf. apply (plain_draws st streamId pic (copy_pixels area) data block); auto; rewrite Hf.
    + apply (zlen_groups (fun k => rgb (pic k)) 3 (fun k => zlen_rgb _)). lia.
    + apply copy_pixels_ok. lia.
  - now apply (palette_draws st streamId pic colors data block).
  - cbn [filtered] in Hf. destruct Hf as [Hc ->].
    apply (plain_draws st streamId pic (gradient_pixels width height) (gradient_data pic width area) block); auto.
    + apply (zlen_groups (residues pic width) 3); [reflexivity|lia].
    + now apply gradient_pixels_ok; auto; lia.
Qed.

Lemma small_bits s e : 0 <= s < 4 -> let c := s + (if e : bool then 4 else 0) in
  ((c & 8)%js =? 0) = true /\ negb ((c & 4)%js =? 0) = e /\ (c & 3)%js = s.
Proof.
  intros Hs. assert (E : s = 0 \/ s = 1 \/ s = 2 \/ s = 3) by lia.
  destruct e, E as [->|[->|[->| ->]]]; repeat split; reflexivity.
Qed.

Lemma basic_draws st streamId f pic data block : 0 <= streamId < 4 -> _filter st = None -> idle st ->
  filtered width height f pic data -> packed (_zlibs st) streamId data block ->
  Draws unfiltered (_basicRect (streamId + (if explicit_filter f then 4 else 0)) x y width height) (filter_header f ++ block) st
    (DBlit x y width height (picture pic area)).
Proof.
  intros Hs Ef Hi Hf Hk p r t. destruct (small_bits streamId (explicit_filter f) Hs) as (_ & E4 & E3).
  set (c := streamId + _) in *. unfold _basicRect. rewrite run_get, Ef, E4.
  set (st1 := set_filter (Some (filter_number f)) st).
  assert (Hd := filter_draws st1 streamId f pic data block Hi Hf Hk).
  assert (Hgo : forall p, exists p' st', bind (ret false) (fun wait : bool => if wait then ret false
      else
        let streamId := (c & 3)%js in
        t <- onDec get ;;
        done <- match _filter t with
                | Some 0 => _copyFilter streamId x y width height
                | Some 1 => _paletteFilter streamId x y width height
                | Some 2 => _gradientFilter streamId x y width height
                | _ => throw "Illegal tight filter received"
                end ;;
        (if done : bool then onDec (modify (set_filter None)) else ret tt) ;;
        ret done) (World st1 (ASrc p ((filter_colors f ++ block) ++ r)) t : W) =
      (Ret true, World st' (ASrc p' r) (t ++ [DBlit x y width height (picture pic area)])) /\ unfiltered st').
  { intros p1. destruct (Hd p1 r t) as (p' & st' & E & Hi'). exists p', (set_filter None st').
    split; [|split; [reflexivity|exact Hi']]. rewrite run_ret. cbv zeta. rewrite E3, run_get.
    assert (Em : _filter st1 = Some (filter_number f)) by reflexivity. rewrite Em. clear Em.
    destruct f as [e|colors|]; cbn [filter_number] in *; rewrite (bind_run _ _ _ _ _ E), run_modify; reflexivity. }
  destruct (explicit_filter f) eqn:Ee.
  - assert (Eh : filter_header f = [filter_number f] ++ filter_colors f) by (destruct f as [[]|colors|]; easy). rewrite Eh.
    assert (Hr := zlen_nonneg r). assert (Hb := zlen_nonneg block). assert (Hc := zlen_nonneg (filter_colors f)).
    rewrite <- !app_assoc, bind_assoc_run, run_wait by zlia. cbv iota. rewrite bind_assoc_run.
    rewrite (run_take 1 same be) by reflexivity. rewrite bind_assoc_run, run_modify.
    destruct (Hgo (p ++ same [filter_number f])) as (p' & st' & E & Hi'). rewrite <- app_assoc in E. exists p', st'.
    split; [|exact Hi']. etransitivity; [|exact E]. reflexivity.
  - assert (Eh : filter_header f = filter_colors f) by (destruct f as [[]|colors|]; easy). rewrite Eh.
    destruct (Hgo p) as (p' & st' & E & Hi'). exists p', st'. split; [|exact Hi']. rewrite bind_assoc_run, run_modify.
    etransitivity; [|exact E]. destruct f as [[]|colors|]; easy || reflexivity.
Qed.

Lemma fill_draws st c : unfiltered st -> Draws unfiltered (_fillRect x y width height) (rgb c) st (DFill x y width height (rgb c)).
Proof.
  intros Hi p r t. assert (Hr := zlen_nonneg r). assert (Hc := zlen_rgb c). unfold _fillRect. rewrite run_wait by zlia.
  change (@rQshiftBytes asrc _ 3) with (atake 3 same same). rewrite (run_take 3 same same) by exact Hc. rewrite run_fill.
  unfold same. exists (p ++ rgb c), st. split; [reflexivity|exact Hi].
Qed.

Lemma jpeg_block_draws st data block : unfiltered st -> counted data block ->
  Draws unfiltered (_jpegRect x y width height) block st (DImage x y width height "image/jpeg" data).
Proof.
  intros Hi Hc p r t. unfold _jpegRect. destruct (readData_run st p r t data block) as [p' E]; [apply Hi|exact Hc|].
  rewrite (bind_run _ _ _ _ _ E), view_bytes_fresh. exists p', st. split; [reflexivity|exact Hi].
Qed.

Lemma reset_one ctl i st (k : unit -> M tight unit) z : is_byte ctl -> 0 <= i < 4 -> zget (_zlibs st) i = Some z ->
  bind (if negb (((ctl >> i) & 1)%js =? 0) then onZlib i reset else ret tt) k st =
  k tt (set_zlibs (zset (_zlibs st) i (if Z.testbit ctl i then snd (reset z) else z)) st).
Proof.
  intros Hc Hi Ez. rewrite bit_of by (auto; lia). destruct (Z.testbit ctl i).
  - cbn [Z.b2z Z.eqb negb]. apply bind_run. now apply (onZlib_run i reset st z tt).
  - cbn [Z.b2z Z.eqb negb]. rewrite run_ret. replace (zset (_zlibs st) i z) with (_zlibs st); [now destruct st|].
    assert (Hr := zget_range _ _ _ Ez). apply zget_ext; [now rewrite zlen_zset|]. intros j Hj.
    destruct (Z.eq_dec j i) as [->|Hn]; [rewrite zget_zset_eq by lia; exact Ez|now rewrite zget_zset_ne by lia].
Qed.

Lemma reset_run ctl st : is_byte ctl -> zlen (_zlibs st) = 4 ->
  reset_streams ctl st = (Ret tt, set_zlibs (afresh ctl (_zlibs st)) st).
Proof.
  intros Hc Hl. destruct (zlen_four _ Hl) as (a & b & c & d & E).
  assert (Hb : reset_streams ctl st = bind (reset_streams ctl) ret st).
  { unfold bind. destruct (reset_streams ctl st) as [[[]|e|] st']; reflexivity. }
  rewrite Hb. unfold reset_streams. cbv zeta. rewrite bind_assoc_run.
  rewrite (reset_one ctl 0 st _ a) by (auto; try lia; now rewrite E). rewrite bind_assoc_run, E.
  rewrite (reset_one ctl 1 _ _ b) by (auto; lia). rewrite bind_assoc_run.
  rewrite (reset_one ctl 2 _ _ c) by (auto; lia). rewrite (reset_one ctl 3 _ _ d) by (auto; lia). reflexivity.
Qed.

Lemma afresh_low k resets zs : 0 <= resets < 16 -> afresh (k * 16 + resets) zs = afresh resets zs.
Proof.
  intros Hr. unfold afresh. apply map_ext_in. intros [i z] Hin. apply in_combine_l in Hin. rewrite in_upto in Hin.
  replace (Z.testbit (k * 16 + resets) i) with (Z.testbit resets i); [reflexivity|].
  rewrite <- (Z.mod_pow2_bits_low (k * 16 + resets) 4 i) by lia. change (2 ^ 4) with 16.
  rewrite Z.add_comm, Z.mod_add by lia. now rewrite Z.mod_small by lia.
Qed.

Lemma afresh_ok resets zs : zlen zs = 4 -> Forall wf_inflator zs ->
  zlen (afresh resets zs) = 4 /\ Forall wf_inflator (afresh resets zs).
Proof.
  intros Hl Hw. destruct (zlen_four _ Hl) as (a & b & c & d & ->).
  assert (Hone : forall (e : bool) z, wf_inflator z -> wf_inflator (if e then snd (reset z) else z)) by (now intros []).
  rewrite !Forall_cons_iff in Hw. split; [reflexivity|]. cbn. repeat apply Forall_cons; try apply Hone; apply Hw.
Qed.

Lemma kind_range rect zs resets bs : encodes width height zs resets rect bs -> 0 <= kind rect < 10.
Proof.
  intros (body & _ & H1). destruct rect as [c|d|s f pic]; [easy|easy|]. destruct H1 as [Hs _].
  cbn [kind]. destruct f as [[]|colors|]; lia.
Qed.

(** One control byte, and the method that it selects. *)
Lemma rect_draws rect resets st bs : 0 <= resets < 16 -> ready st -> encodes width height (_zlibs st) resets rect bs ->
  Draws ready (decodeRect x y width height depth) bs st (drawn x y width height rect).
Proof.
  intros Hr (Hc & Hf & Hi) He p r t. assert (Hk := kind_range _ _ _ _ He). destruct He as (body & -> & He).
  set (ctl := kind rect * 16 + resets). assert (Hb : is_byte ctl) by (unfold ctl, is_byte; lia).
  destruct Hi as (Hn & Hl & Hp & Hz & Hw). destruct (afresh_ok resets (_zlibs st) Hz Hw) as [Hz' Hw'].
  assert (Hlr := zlen_nonneg (body ++ r)). unfold decodeRect, decode_with. rewrite run_get, Hc. cbn [app].
  rewrite bind_assoc_run, run_wait by zlia. cbv iota. change (ctl :: body ++ r) with ([ctl] ++ body ++ r).
  rewrite bind_assoc_run, (run_take 1 same be) by reflexivity. rewrite bind_assoc_run, run_modify, bind_assoc_run.
  rewrite (run_dec _ _ _ _ _ _ _ (reset_run (be (same [ctl])) (set_ctl (Some (be (same [ctl]))) st) Hb Hz)).
  change (be (same [ctl])) with ctl. cbn [_zlibs set_ctl]. rewrite bind_assoc_run, run_modify, run_ret.
  unfold ctl at 1 2. rewrite sar_small by (unfold ctl; lia). change (2 ^ 4) with 16.
  replace ((kind rect * 16 + resets) / 16) with (kind rect) by euclid. rewrite afresh_low by exact Hr.
  set (st1 := set_ctl _ _). assert (Hu : unfiltered st1) by (repeat split; assumption).
  cbv iota. rewrite run_get. change (_ctl st1) with (Some (kind rect)). cbv iota.
  assert (Hend : forall m, Draws unfiltered m body st1 (drawn x y width height rect) -> exists p' st',
    bind m (fun done => (if done then onDec (modify (set_ctl None)) else ret tt) ;; ret done)
      (World st1 (ASrc (p ++ same [ctl]) (body ++ r)) t) =
    (Ret true, World st' (ASrc p' r) (t ++ [drawn x y width height rect])) /\ ready st').
  { intros m Hm. destruct (Hm (p ++ same [ctl]) r t) as (p' & st' & E & Hf' & Hi'). rewrite (bind_run _ _ _ _ _ E), run_modify.
    exists p', (set_ctl None st'). split; [reflexivity|]. split; [reflexivity|]. split; [exact Hf'|exact Hi']. }
  destruct rect as [c|d|s f pic].
  - apply Hend. subst body. now apply fill_draws.
  - apply Hend. now apply jpeg_block_draws.
  - destruct He as (Hs & data & block & Hfd & Hpk & ->).
    assert (Ek : kind (TBasic s f pic) = s + (if explicit_filter f then 4 else 0)) by (destruct f as [[]|colors|]; cbn; lia).
    rewrite Ek. destruct (small_bits s (explicit_filter f) Hs) as (E8 & _). rewrite E8.
    destruct (Z.eqb_spec (s + (if explicit_filter f then 4 else 0)) 8), (Z.eqb_spec (s + (if explicit_filter f then 4 else 0)) 9),
      (Z.eqb_spec (s + (if explicit_filter f then 4 else 0)) 10); try (destruct (explicit_filter f); lia).
    apply Hend. apply (basic_draws st1 s f pic data block Hs); auto; apply Hu.
Qed.

(** C11.  Tight: a rectangle, cut into messages anywhere, with anything behind, is
    drawn as what it encodes: one colour, a JPEG image for the browser, or a
    picture in one of the three filters (copied pixels, a palette with one bit
    or one byte for each pixel, differences from the gradient prediction),
    compressed when it is twelve bytes or more.  Exactly the rectangle is
    consumed, and the decoder is ready for the next. *)
Theorem tight_draws rect resets st bs tail chunks p r t :
  0 <= resets < 16 -> ready st -> encodes width height (_zlibs st) resets rect bs ->
  bytes r -> Forall bytes chunks -> r ++ List.concat chunks = bs ++ tail ->
  exists p' st', feed (decodeRect x y width height depth) (World st (ASrc p r) t) chunks =
    (Ret true, World st' (ASrc p' tail) (t ++ [drawn x y width height rect])) /\ ready st'.
Proof.
  intros Hr Hst He Hb Hc Eb. destruct (rect_draws rect resets st bs Hr Hst He p tail t) as (p' & st' & E & Hst').
  exists p', st'. split; [|exact Hst']. rewrite <- E, <- Eb.
  destruct (decode_leaves x y width height depth ltac:(lia) ltac:(lia)) as [Hpng Hbasic].
  apply (decode_with_resumes x y width height depth _ _ Hpng Hbasic (World st (ASrc p r) t) chunks); [|exact Hc].
  split; [now apply ready_st_ok|exact Hb].
Qed.
End Runs.

(** A rectangle of 2 by 2 pixels with the gradient filter, in three messages. *)
Definition sample (k : Z) : color := (k mod 7, 200, 50 * k mod 256).

Lemma tight_draws_witness : exists p' st',
  feed (@decodeRect stored asrc trace _ _ 5 7 2 2 24)
    (World (@constructor stored) (ASrc [] []) [])
    [[82; 2]; [12; 0; 200; 0; 1; 0; 50; 2]; [0; 100; 0; 0; 0; 77]] =
  (Ret true, World st' (ASrc p' [77])
    [DBlit 5 7 2 2 [0; 200; 0; 255; 1; 200; 50; 255; 2; 200; 100; 255; 3; 200; 150; 255]]) /\ @ready stored st'.
Proof.
  destruct (@tight_draws stored stored_ok 5 7 2 2 24 ltac:(lia) ltac:(lia) (TBasic 1 TGradient sample) 2
    (@constructor stored) (82 :: [2] ++ [12] ++ gradient_data sample 2 4) [77]
    [[82; 2]; [12; 0; 200; 0; 1; 0; 50; 2]; [0; 100; 0; 0; 0; 77]] [] [] []) as (p' & st' & E & Hr).
  - lia.
  - repeat split; try reflexivity. repeat apply Forall_cons; try apply Forall_nil; exact (@wf_constructor stored).
  - eexists. split; [reflexivity|]. split; [lia|]. exists (gradient_data sample 2 4), ([12] ++ gradient_data sample 2 4).
    split; [split; [|reflexivity]|split; [|reflexivity]].
    + intros k. unfold byte_color, sample. cbn [rgb]. repeat apply Forall_cons; try apply Forall_nil; unfold is_byte; euclid.
    + exists (snd (@reset stored (@Inflator.constructor stored))), (gradient_data sample 2 4). repeat split;
        first [reflexivity | apply bytes_reflect; vm_compute; reflexivity | vm_compute; congruence].
  - apply Forall_nil.
  - apply Forall_forall. intros l Hl. apply bytes_reflect. revert l Hl. apply Forall_forall. repeat constructor.
  - reflexivity.
  - exists p', st'. split; [exact E|exact Hr].
Defined.

(** One colour, in three messages. *)
Lemma tight_resumes_witness :
  feed (@decodeRect stored asrc trace _ _ 5 7 2 2 24) (World (@constructor stored) (ASrc [] []) []) [[130]; [1; 2]; [3]] =
  (Ret true, World (@constructor stored) (ASrc [130; 1; 2; 3] []) [DFill 5 7 2 2 [1; 2; 3]]).
Proof.
  destruct (@tight_resumes stored 5 7 2 2 24 (World (@constructor stored) (ASrc [] []) []) [[130]; [1; 2]; [3]]) as [[E _] _].
  - lia.
  - lia.
  - repeat split; cbn; lia || reflexivity.
  - apply Forall_nil.
  - apply Forall_forall. intros l Hl. apply bytes_reflect. revert l Hl. apply Forall_forall. repeat constructor.
  - etransitivity; [exact E|]. reflexivity.
Defined.
