(* ===== verification/Jpeg.v ===== *)
(** The JPEG decoder, core/decoders/jpeg.js.

    A rectangle is a JPEG file, which is cut out of the stream segment by
    segment and handed to the browser.  Segments already read are kept when
    the data runs out; a segment that is not whole is read again from its
    marker.  [fuel] bounds the segments of a file and the steps of the search
    for the end of a scan. *)

From Stdlib Require Import ZArith List Lia Bool String.
From S2P Require Import Prelude Source Sink Websock Display Decoder Decoders.
Import ListNotations JS JSFacts.
Open Scope Z_scope.
Open Scope code_scope.

Module JPEGDecoder.

Record jpeg := mkJpeg {
  _cachedQuantTables : list (list Z);
  _cachedHuffmanTables : list (list Z);
  _segments : list (list Z)
}.

Definition constructor : jpeg := mkJpeg [] [] [].

Definition set_quant v j := mkJpeg v (_cachedHuffmanTables j) (_segments j).
Definition set_huffman v j := mkJpeg (_cachedQuantTables j) v (_segments j).
Definition set_segments v j := mkJpeg (_cachedQuantTables j) (_cachedHuffmanTables j) v.

(** [type >= 0xD0 && type <= 0xD9 || type == 0x01] *)
Definition no_length (type : Z) : bool := ((208 <=? type) && (type <=? 217)) || (type =? 1).

(** [arr.at(-k)]; None is undefined. *)
Definition at_end (k : Z) (l : list Z) : option Z := zget l (zlen l - k).
Definition is_at (k v : Z) (l : list Z) : bool := match at_end k l with Some b => b =? v | None => false end.

(** Do the last two bytes start a segment behind the scan? *)
Definition ends_scan (data : list Z) : bool :=
  is_at 2 255 data && negb (is_at 1 0 data) &&
  negb (match at_end 1 data with Some b => (208 <=? b) && (b <=? 215) | None => false end).

(** [findIndex]; None is -1. *)
Fixpoint findIndex (p : list Z -> bool) (l : list (list Z)) (i : Z) : option Z :=
  match l with
  | [] => None
  | s :: l => if p s then Some i else findIndex p l (i + 1)
  end.

(** [arr.splice(i, 0, ...items)] *)
Definition splice (i : Z) (items l : list (list Z)) : list (list Z) := ztake i l ++ items ++ zdrop i l.

Definition type_of (segment : list Z) : Z := zgetd segment 1.
Definition is_sof (segment : list Z) : bool := (type_of segment =? 192) || (type_of segment =? 194).
Definition tables (type : Z) (segments : list (list Z)) : list (list Z) :=
  filter (fun s => type_of s =? type) segments.

Section Jpeg.
Context {S D : Type} `{ByteSource S} `{Renderer D}.
Variable fuel : nat.
Abbreviation W := (world jpeg S D).

(** The search for the end of a scan: None when the data runs out. *)
Fixpoint scan_loop (fuel : nat) (length extra : Z) : M W (option Z) :=
  match fuel with
  | O => stuck
  | Datatypes.S fuel =>
      wait <- onSock (rQwait (length - 2 + extra) 4) ;;
      if wait then ret None
      else
        data <- onSock (rQpeekBytes (length - 2 + extra)) ;;
        if ends_scan data then ret (Some (extra - 2)) else scan_loop fuel length (extra + 1)
  end.

(** None is null. *)
Definition _readSegment : M W (option (list Z)) :=
  wait <- onSock (rQwait 2 0) ;;
  if wait then ret None
  else
    marker <- onSock rQshift8 ;;
    if negb (marker =? 255) then throw "Illegal JPEG marker received"
    else
      type <- onSock rQshift8 ;;
      if no_length type then ret (Some [marker; type])
      else
        wait <- onSock (rQwait 2 2) ;;
        if wait then ret None
        else
          length <- onSock rQshift16 ;;
          if length <? 2 then throw "Illegal JPEG length received"
          else
            wait <- onSock (rQwait (length - 2) 4) ;;
            if wait then ret None
            else
              extra <- (if type =? 218 then scan_loop fuel length 2 else ret (Some 0)) ;;
              match extra with
              | None => ret None
              | Some extra =>
                  let segment := zset (zset (zset (zset (zrep (2 + length + extra) 0)
                    0 marker) 1 type) 2 (toUint8 (length >> 8)%js) ) 3 (toUint8 length) in
                  data <- onSock (rQshiftBytes (length - 2 + extra)) ;;
                  ret (Some (zblit segment 4 data))
              end.

(** [while (true)]: false when the data runs out. *)
Fixpoint segments_loop (n : nat) : M W bool :=
  match n with
  | O => stuck
  | Datatypes.S n =>
      segment <- _readSegment ;;
      match segment with
      | None => ret false
      | Some segment =>
          onDec (modify (fun j => set_segments (_segments j ++ [segment]) j)) ;;
          if type_of segment =? 217 then ret true else segments_loop n
      end
  end.

(** What is done once the file is whole. *)
Definition finish (x y width height : Z) : M W bool :=
  j <- onDec get ;;
  let huffmanTables := tables 196 (_segments j) in
  let quantTables := tables 219 (_segments j) in
  match findIndex is_sof (_segments j) 0 with
  | None => throw "Illegal JPEG image without SOF"
  | Some sofIndex =>
      (if zlen quantTables =? 0
       then onDec (modify (fun j => set_segments (splice (sofIndex + 1) (_cachedQuantTables j) (_segments j)) j))
       else ret tt) ;;
      (if zlen huffmanTables =? 0
       then onDec (modify (fun j => set_segments (splice (sofIndex + 1) (_cachedHuffmanTables j) (_segments j)) j))
       else ret tt) ;;
      j <- onDec get ;;
      let data := List.concat (_segments j) in
      onDisp (imageRect x y width height "image/jpeg" data) ;;
      (if negb (zlen huffmanTables =? 0) then onDec (modify (set_huffman huffmanTables)) else ret tt) ;;
      (if negb (zlen quantTables =? 0) then onDec (modify (set_quant quantTables)) else ret tt) ;;
      onDec (modify (set_segments [])) ;;
      ret true
  end.

Definition decodeRect (x y width height depth : Z) : M W bool :=
  more <- segments_loop fuel ;;
  if negb more then ret false else finish x y width height.
End Jpeg.
End JPEGDecoder.
