(* ===== verification/JpegCorrect.v ===== *)
(** Theorems on the JPEG decoder: how it cuts the stream into segments, and
    that the file handed to the browser is the one that was sent, with the
    tables of an earlier file put in where it has none. *)

From Stdlib Require Import ZArith List Lia Bool String.
From S2P Require Import Prelude Source Sink Websock Display Decoder Decoders Jpeg.
Import ListNotations JS JSFacts JPEGDecoder.
Open Scope Z_scope.
Open Scope code_scope.

(** * The first segment of a stream *)

(** The byte behind 255 that ends a scan: not a stuffed zero, not a restart. *)
Definition stops (b : Z) : bool := negb (b =? 0) && negb ((208 <=? b) && (b <=? 215)).

Fixpoint scan_end (l : list Z) : option Z :=
  match l with
  | a :: (b :: _) as l' => if (a =? 255) && stops b then Some 0 else option_map (Z.add 1) (scan_end l')
  | _ => None
  end.

Lemma scan_end_cons a b l : scan_end (a :: b :: l) = if (a =? 255) && stops b then Some 0 else option_map (Z.add 1) (scan_end (b :: l)).
Proof. reflexivity. Qed.

Inductive found := More | Bad (e : string) (consumed : Z) | Segment (size : Z).

Definition next_segment (r : list Z) : found :=
  if zlen r <? 2 then More
  else if negb (zgetd r 0 =? 255) then Bad "Illegal JPEG marker received" 1
  else if no_length (zgetd r 1) then Segment 2
  else if zlen r <? 4 then More
  else
    let length := zgetd r 2 * 256 + zgetd r 3 in
    if length <? 2 then Bad "Illegal JPEG length received" 4
    else if zlen r <? length + 2 then More
    else if zgetd r 1 =? 218 then
      match scan_end (zdrop (length + 2) r) with None => More | Some n => Segment (length + 2 + n) end
    else Segment (length + 2).

Lemma scan_end_app l1 l2 n : scan_end l1 = Some n -> scan_end (l1 ++ l2) = Some n /\ 0 <= n <= zlen l1 - 2.
Proof.
  revert n. induction l1 as [|a l1 IH]; intros n; [easy|]. destruct l1 as [|b l1]; [easy|]. cbn [app]. rewrite !scan_end_cons.
  destruct ((a =? 255) && stops b); [intros [= <-]; split; [reflexivity|rewrite !zlen_cons; pose proof (zlen_nonneg l1); lia]|].
  destruct (scan_end (b :: l1)) as [m|]; [|easy]. unfold option_map. intros E. assert (E' : 1 + m = n) by congruence. clear E. destruct (IH m eq_refl) as [IH1 IH2].
  cbn [app] in IH1. rewrite IH1, E'. split; [reflexivity|]. rewrite zlen_cons. lia.
Qed.

Lemma next_more_bytes r l : next_segment r <> More -> next_segment (r ++ l) = next_segment r.
Proof.
  unfold next_segment. rewrite zlen_app. assert (Hl := zlen_nonneg l).
  assert (Hg : forall i, 0 <= i < zlen r -> zgetd (r ++ l) i = zgetd r i)
    by (intros i Hi; unfold zgetd; now rewrite zget_app_l by lia).
  destruct (Z.ltb_spec (zlen r) 2); [easy|]. destruct (Z.ltb_spec (zlen r + zlen l) 2); [lia|].
  rewrite !(Hg 0), !(Hg 1) by lia. destruct (negb (zgetd r 0 =? 255)); [easy|]. destruct (no_length (zgetd r 1)); [easy|].
  destruct (Z.ltb_spec (zlen r) 4); [easy|]. destruct (Z.ltb_spec (zlen r + zlen l) 4); [lia|].
  rewrite !(Hg 2), !(Hg 3) by lia. set (length := zgetd r 2 * 256 + zgetd r 3). cbv zeta. destruct (length <? 2); [easy|].
  destruct (Z.ltb_spec (zlen r) (length + 2)); [easy|]. destruct (Z.ltb_spec (zlen r + zlen l) (length + 2)); [lia|].
  destruct (zgetd r 1 =? 218); [|easy]. rewrite zdrop_app_l by lia.
  destruct (scan_end (zdrop (length + 2) r)) as [n|] eqn:E; [|easy]. intros _.
  now destruct (scan_end_app _ l n E) as [-> _].
Qed.

Lemma next_size r : match next_segment r with
  | More => True | Bad _ k => 1 <= k <= zlen r | Segment n => 2 <= n <= zlen r end.
Proof.
  unfold next_segment. destruct (Z.ltb_spec (zlen r) 2); [easy|]. destruct (negb _); [lia|].
  destruct (no_length _); [lia|]. destruct (Z.ltb_spec (zlen r) 4); [easy|].
  set (length := zgetd r 2 * 256 + zgetd r 3) in *. cbv zeta. destruct (Z.ltb_spec length 2); [lia|].
  destruct (Z.ltb_spec (zlen r) (length + 2)); [easy|]. destruct (zgetd r 1 =? 218); [|lia].
  destruct (scan_end (zdrop (length + 2) r)) as [n|] eqn:E; [|easy].
  destruct (scan_end_app _ [] n E) as [_ Hn]. rewrite zlen_zdrop in Hn. lia.
Qed.

(** * Reading a segment *)

Section Reading.
Variable fuel : nat.
Abbreviation W := (world jpeg asrc trace).
Implicit Types (st : jpeg) (p r h q : list Z) (t : trace).

(** A wait that steps back. *)
Lemma wait_back {B} (k : bool -> M W B) n h st p q t : 0 < zlen h -> zlen q < n ->
  bind (onSock (rQwait n (zlen h))) k (World st (ASrc (p ++ h) q) t) = k true (World st (ASrc p (h ++ q)) t).
Proof.
  intros Hh Hq. unfold bind, onSock, lift. wcbn. cbn [rQwait asrc_source past rest].
  destruct (Z.ltb_spec (zlen q) n); [|lia]. unfold truthy. destruct (Z.eqb_spec (zlen h) 0); [lia|]. cbn [negb].
  destruct (Z.ltb_spec (zlen h) 0); [lia|]. assert (Hp := zlen_nonneg p).
  destruct (Z.ltb_spec (zlen (p ++ h)) (zlen h)); [zlia|]. cbn [orb].
  replace (zlen (p ++ h) - zlen h) with (zlen p) by zlia. now rewrite ztake_app_exact, zdrop_app_exact.
Qed.

Lemma ends_scan_at l a b : ends_scan (l ++ [a; b]) = (a =? 255) && stops b.
Proof.
  unfold ends_scan, is_at, at_end, stops. rewrite !zlen_app. change (zlen [a; b]) with 2.
  rewrite !zget_app_r by lia. replace (zlen l + 2 - 2 - zlen l) with 0 by lia. replace (zlen l + 2 - 1 - zlen l) with 1 by lia.
  cbn [zget]. change (zget [a; b] 0) with (Some a). change (zget [a; b] 1) with (Some b). cbv iota. now rewrite andb_assoc.
Qed.

(** The search looks at two bytes after the other, behind those already seen. *)
Lemma scan_run length h st p t : zlen h = 4 -> forall n extra pre s, zlen s < Z.of_nat n ->
  zlen pre = length - 2 + extra - 2 ->
  scan_loop n length extra (World st (ASrc (p ++ h) (pre ++ s)) t : W) =
    match scan_end s with
    | None => (Ret None, World st (ASrc p (h ++ pre ++ s)) t)
    | Some k => (Ret (Some (extra - 2 + k)), World st (ASrc (p ++ h) (pre ++ s)) t)
    end.
Proof.
  intros Hh. induction n as [|n IH]; intros extra pre s Hn Hpre; [pose proof (zlen_nonneg s); lia|].
  cbn [scan_loop]. rewrite <- Hh at 1. destruct s as [|a [|b s]].
  - rewrite wait_back by zlia. reflexivity.
  - rewrite wait_back by zlia. reflexivity.
  - assert (Hs := zlen_nonneg s). rewrite !zlen_cons in Hn. rewrite run_wait by zlia. cbv iota.
    replace (length - 2 + extra) with (zlen (pre ++ [a; b])) by zlia.
    replace (pre ++ a :: b :: s) with ((pre ++ [a; b]) ++ s) by now rewrite <- app_assoc.
    unfold bind at 1, onSock at 1, lift. cbn [sock rQpeekBytes asrc_source rest].
    destruct (Z.leb_spec 0 (zlen (pre ++ [a; b]))); [|zlia]. destruct (Z.leb_spec (zlen (pre ++ [a; b])) (zlen ((pre ++ [a; b]) ++ s))); [|zlia].
    cbn [andb]. rewrite ztake_app_exact, ends_scan_at, scan_end_cons. cbn [dec disp].
    destruct ((a =? 255) && stops b); [now rewrite Z.add_0_r|].
    rewrite <- app_assoc. change (pre ++ [a; b] ++ s) with (pre ++ [a] ++ b :: s). rewrite app_assoc.
    rewrite IH by zlia. destruct (scan_end (b :: s)) as [k|]; cbn [option_map]; [|reflexivity].
    f_equal. f_equal. f_equal. lia.
Qed.

Lemma length_bytes_of b2 b3 : is_byte b2 -> is_byte b3 ->
  toUint8 ((b2 * 256 + b3) >> 8)%js = b2 /\ toUint8 (b2 * 256 + b3) = b3.
Proof.
  unfold is_byte, toUint8. intros H2 H3. rewrite sar_small by lia. change (2 ^ 8) with 256. split; euclid.
Qed.

(** The array that is filled is what was read. *)
Lemma segment_is b0 b1 b2 b3 n l : zlen l = n - 4 -> 4 <= n ->
  zblit (zset (zset (zset (zset (zrep n 0) 0 b0) 1 b1) 2 b2) 3 b3) 4 l = [b0; b1; b2; b3] ++ l.
Proof.
  intros Hl Hn. replace n with (4 + zlen l) by lia. unfold zblit.
  assert (E : zrep (4 + zlen l) 0 = [0; 0; 0; 0] ++ zrep (zlen l) 0).
  { unfold zrep. replace (Z.to_nat (4 + zlen l)) with (4 + Z.to_nat (zlen l))%nat by (pose proof (zlen_nonneg l); lia). reflexivity. }
  rewrite E. clear E. set (z := zrep (zlen l) 0).
  assert (Hz : zlen z = zlen l) by (unfold z; rewrite zlen_zrep; pose proof (zlen_nonneg l); lia).
  assert (E : zset (zset (zset (zset ([0; 0; 0; 0] ++ z) 0 b0) 1 b1) 2 b2) 3 b3 = [b0; b1; b2; b3] ++ z).
  { apply zget_ext; [rewrite !zlen_zset; now rewrite !zlen_app|]. rewrite !zlen_zset, zlen_app. intros i Hi.
    change (zlen [0; 0; 0; 0]) with 4 in Hi. destruct (Z_lt_le_dec i 4) as [H4|H4].
    - assert (Ei : i = 0 \/ i = 1 \/ i = 2 \/ i = 3) by lia. rewrite (zget_app_l [b0; b1; b2; b3]) by exact H4.
      assert (Hzz := zlen_nonneg z).
      destruct Ei as [->|[->|[->| ->]]]; repeat (rewrite zget_zset_ne by lia); rewrite zget_zset_eq; try reflexivity;
        rewrite ?zlen_zset, zlen_app; change (zlen [0; 0; 0; 0]) with 4; lia.
    - rewrite !zget_zset_ne by lia. now rewrite !zget_app_r by exact H4. }
  rewrite E. change 4 with (zlen [b0; b1; b2; b3]) at 1. rewrite ztake_app_exact. rewrite zdrop_all; [now rewrite app_nil_r|].
  rewrite zlen_app. change (zlen [b0; b1; b2; b3]) with 4. lia.
Qed.

(** [_readSegment] reads the first segment, or nothing. *)
Lemma read_segment_run st p r t : bytes r -> zlen r < Z.of_nat fuel ->
  _readSegment fuel (World st (ASrc p r) t : W) =
    match next_segment r with
    | More => (Ret None, World st (ASrc p r) t)
    | Bad e k => (Throw e, World st (ASrc (p ++ ztake k r) (zdrop k r)) t)
    | Segment n => (Ret (Some (ztake n r)), World st (ASrc (p ++ ztake n r) (zdrop n r)) t)
    end.
Proof.
  intros Hb Hf. unfold _readSegment, next_segment. destruct (Z.ltb_spec (zlen r) 2) as [H2|H2].
  { unfold bind at 1, onSock at 1, lift. wcbn. now rewrite asrc_wait_short. }
  destruct r as [|b0 [|b1 r]]; try zlia. rewrite run_wait by zlia. cbv iota.
  assert (Hr := zlen_nonneg r). inversion_clear Hb as [|? ? H0 Hb1]. inversion_clear Hb1 as [|? ? H1 Hbr].
  change (b0 :: b1 :: r) with ([b0] ++ [b1] ++ r) at 1. rewrite (run_take 1 same be) by reflexivity.
  change (be (same [b0])) with b0. change (zgetd (b0 :: b1 :: r) 0) with b0. change (zgetd (b0 :: b1 :: r) 1) with b1.
  destruct (Z.eqb_spec b0 255) as [->|Hne]; cbn [negb]; [|reflexivity].
  rewrite (run_take 1 same be) by reflexivity. change (be (same [b1])) with b1. unfold same at 1 2. rewrite <- app_assoc.
  destruct (no_length b1) eqn:En; [reflexivity|]. cbn [app].
  destruct (Z.ltb_spec (zlen (255 :: b1 :: r)) 4) as [H4|H4].
  { change 2 with (zlen [255; b1]) at 2. rewrite wait_back by zlia. reflexivity. }
  rewrite run_wait by zlia. cbv iota. destruct r as [|b2 [|b3 r]]; try zlia.
  inversion_clear Hbr as [|? ? Hb2 Hbr']. inversion_clear Hbr' as [|? ? Hb3 Hbr].
  change (b2 :: b3 :: r) with ([b2; b3] ++ r). rewrite (run_take 2 same be) by reflexivity.
  change (be (same [b2; b3])) with (b2 * 256 + b3). rewrite <- app_assoc. cbn [app].
  change (zgetd (255 :: b1 :: b2 :: b3 :: r) 2) with b2. change (zgetd (255 :: b1 :: b2 :: b3 :: r) 3) with b3.
  destruct (length_bytes_of b2 b3 Hb2 Hb3) as [E2 E3]. assert (Hl : 0 <= b2 * 256 + b3) by (unfold is_byte in *; lia).
  set (length := b2 * 256 + b3) in *. cbv zeta. destruct (Z.ltb_spec length 2) as [Hl2|Hl2]; [reflexivity|].
  assert (Hrr := zlen_nonneg r). set (h := [255; b1; b2; b3]) in *. change (255 :: b1 :: same [b2; b3]) with h.
  change (255 :: b1 :: b2 :: b3 :: r) with (h ++ r) in *.
  assert (Hh : zlen h = 4) by reflexivity. rewrite zlen_app, Hh in *.
  destruct (Z.ltb_spec (4 + zlen r) (length + 2)) as [Hs|Hs].
  { change 4 with (zlen h). rewrite wait_back by lia. reflexivity. }
  rewrite run_wait by lia. cbv iota.
  assert (Hend : forall extra, 0 <= extra -> length - 2 + extra <= zlen r ->
    (data <- onSock (rQshiftBytes (length - 2 + extra)) ;;
     ret (Some (zblit (zset (zset (zset (zset (zrep (2 + length + extra) 0) 0 255) 1 b1) 2 (toUint8 (length >> 8)%js)) 3 (toUint8 length)) 4 data)))
      (World st (ASrc (p ++ h) r) t : W) =
    (Ret (Some (ztake (length + 2 + extra) (h ++ r))),
     World st (ASrc (p ++ ztake (length + 2 + extra) (h ++ r)) (zdrop (length + 2 + extra) (h ++ r))) t)).
  { intros extra He Hx. assert (Et : zlen (ztake (length - 2 + extra) r) = length - 2 + extra) by (rewrite zlen_ztake; lia).
    rewrite <- (ztake_zdrop (length - 2 + extra) r) at 1.
    change (@rQshiftBytes asrc _ (length - 2 + extra)) with (atake (length - 2 + extra) same same).
    rewrite (run_take _ same same) by exact Et. unfold same. rewrite E2, E3, segment_is by lia. fold h.
    rewrite ztake_app, zdrop_app, Hh. rewrite (ztake_all _ h), (zdrop_all _ h) by (rewrite Hh; lia).
    replace (length + 2 + extra - 4) with (length - 2 + extra) by lia. cbn [app]. now rewrite app_assoc. }
  destruct (b1 =? 218).
  - assert (Epre : zlen (ztake (length - 2) r) = length - 2 + 2 - 2) by (rewrite zlen_ztake; lia).
    assert (Erun := scan_run length h st p t Hh fuel 2 (ztake (length - 2) r) (zdrop (length - 2) r)
      ltac:(rewrite zlen_zdrop; lia) Epre).
    replace (length + 2) with (zlen h + (length - 2)) by lia. rewrite zdrop_app, (zdrop_all (zlen h + (length - 2)) h) by lia.
    replace (zlen h + (length - 2) - zlen h) with (length - 2) by lia. cbn [app]. rewrite ztake_zdrop in Erun.
    destruct (scan_end (zdrop (length - 2) r)) as [k|] eqn:Ek.
    + rewrite (bind_run _ _ _ _ _ Erun). destruct (scan_end_app _ [] k Ek) as [_ Hk]. rewrite zlen_zdrop in Hk.
      replace (2 - 2 + k) with k by lia. cbv iota. rewrite Hend by lia.
      now replace (zlen h + (length - 2) + k) with (length + 2 + k) by lia.
    + rewrite (bind_run _ _ _ _ _ Erun). reflexivity.
  - rewrite run_ret. cbv iota. rewrite Hend by lia. now rewrite Z.add_0_r.
Qed.
End Reading.

(** * A whole stream, cut into segments *)

Inductive ending := Short | Whole | Wrong (e : string) (consumed : Z).

(** The segments up to the end of the image, how it ends, and what is left. *)
Fixpoint cut_loop (n : nat) (r : list Z) : list (list Z) * ending * list Z :=
  match n with
  | O => ([], Short, r)
  | S n =>
      match next_segment r with
      | More => ([], Short, r)
      | Bad e k => ([], Wrong e k, r)
      | Segment k =>
          let s := ztake k r in
          if type_of s =? 217 then ([s], Whole, zdrop k r)
          else let '(segments, e, r') := cut_loop n (zdrop k r) in (s :: segments, e, r')
      end
  end.

Definition cut (r : list Z) : list (list Z) * ending * list Z := cut_loop (S (List.length r)) r.

Lemma zdrop_shorter k (r : list Z) n : 2 <= k <= zlen r -> (List.length r < S n)%nat -> (List.length (zdrop k r) < n)%nat.
Proof. intros Hk Hn. assert (E := zlen_zdrop k r). unfold zlen in *. lia. Qed.

Lemma cut_loop_enough n : forall m r, (List.length r < n)%nat -> (List.length r < m)%nat -> cut_loop n r = cut_loop m r.
Proof.
  induction n as [|n IH]; intros [|m] r Hn Hm; try lia. cbn [cut_loop]. assert (Hs := next_size r).
  destruct (next_segment r) as [|e k|k]; [reflexivity|reflexivity|]. destruct (type_of _ =? 217); [reflexivity|].
  now rewrite (IH m) by (apply zdrop_shorter; auto; lia).
Qed.

Lemma cut_eq r : cut r = match next_segment r with
  | More => ([], Short, r)
  | Bad e k => ([], Wrong e k, r)
  | Segment k =>
      let s := ztake k r in
      if type_of s =? 217 then ([s], Whole, zdrop k r)
      else let '(segments, e, r') := cut (zdrop k r) in (s :: segments, e, r')
  end.
Proof.
  unfold cut at 1. cbn [cut_loop]. assert (Hs := next_size r). destruct (next_segment r) as [|e k|k]; [reflexivity|reflexivity|].
  cbv zeta. destruct (type_of _ =? 217); [reflexivity|]. unfold cut.
  now rewrite (cut_loop_enough (List.length r) (S (List.length (zdrop k r))) (zdrop k r) (zdrop_shorter k r _ Hs (Nat.lt_succ_diag_r _)) (Nat.lt_succ_diag_r _)).
Qed.

(** Induction on the segments of a stream. *)
Lemma stream_ind (P : list Z -> Prop) :
  (forall r, (forall k, next_segment r = Segment k -> P (zdrop k r)) -> P r) -> forall r, P r.
Proof.
  intros Hstep r. remember (List.length r) as n eqn:En. revert r En. induction n as [n IH] using lt_wf_ind.
  intros r En. apply Hstep. intros k Ek. assert (Hs := next_size r). rewrite Ek in Hs.
  apply (IH (List.length (zdrop k r))); [|reflexivity]. assert (E := zlen_zdrop k r). unfold zlen in *. lia.
Qed.

Definition cut_of (r : list Z) : list (list Z) := fst (fst (cut r)).
Definition left_of (r : list Z) : list Z := snd (cut r).

Lemma cut_parts r : let '(segments, e, r') := cut r in r = List.concat segments ++ r'.
Proof.
  induction r as [r IH] using stream_ind. rewrite cut_eq. destruct (next_segment r) as [|e k|k] eqn:E; [reflexivity|reflexivity|].
  specialize (IH k eq_refl). cbv zeta. destruct (type_of _ =? 217); [cbn [List.concat]; now rewrite app_nil_r, ztake_zdrop|].
  destruct (cut (zdrop k r)) as [[segments e] r']. cbn [List.concat]. now rewrite <- app_assoc, <- IH, ztake_zdrop.
Qed.

Lemma cut_wrong r : let '(segments, e, r') := cut r in match e with Wrong _ k => 1 <= k <= zlen r' | _ => True end.
Proof.
  induction r as [r IH] using stream_ind. rewrite cut_eq. assert (Hs := next_size r).
  destruct (next_segment r) as [|e k|k]; [easy|exact Hs|]. specialize (IH k eq_refl). cbv zeta.
  destruct (type_of _ =? 217); [easy|]. now destruct (cut (zdrop k r)) as [[segments e] r'].
Qed.

(** More bytes behind: a stream that is short goes on from where it stopped,
    another is cut as before. *)
Lemma cut_app r l : cut (r ++ l) = let '(segments, e, r') := cut r in
  match e with
  | Short => let '(segments', e', r'') := cut (r' ++ l) in (segments ++ segments', e', r'')
  | _ => (segments, e, r' ++ l)
  end.
Proof.
  induction r as [r IH] using stream_ind. rewrite (cut_eq r). destruct (next_segment r) as [|e k|k] eqn:E.
  - destruct (cut (r ++ l)) as [[segments e] r']. reflexivity.
  - rewrite cut_eq, next_more_bytes, E by congruence. reflexivity.
  - specialize (IH k eq_refl). assert (Hs := next_size r). rewrite E in Hs.
    rewrite (cut_eq (r ++ l)), next_more_bytes, E by congruence. cbv zeta. rewrite ztake_app_l, zdrop_app_l by lia.
    destruct (type_of (ztake k r) =? 217); [reflexivity|]. rewrite IH.
    destruct (cut (zdrop k r)) as [[segments e] r']. destruct e; [|reflexivity|reflexivity].
    destruct (cut (r' ++ l)) as [[segments' e'] r'']. reflexivity.
Qed.

(** * The decoder *)

Section Decoder.
Variable fuel : nat.
Abbreviation W := (world jpeg asrc trace).
Implicit Types (j : jpeg) (p r : list Z) (t : trace).

Definition add_segments (segments : list (list Z)) (j : jpeg) : jpeg := set_segments (_segments j ++ segments) j.

Lemma add_add s1 s2 j : add_segments s2 (add_segments s1 j) = add_segments (s1 ++ s2) j.
Proof. unfold add_segments, set_segments. cbn [_segments _cachedQuantTables _cachedHuffmanTables]. now rewrite app_assoc. Qed.

Lemma loop_run r : forall n j p t, bytes r -> zlen r < Z.of_nat fuel -> (List.length r < n)%nat ->
  segments_loop fuel n (World j (ASrc p r) t : W) =
    let '(segments, e, r') := cut r in
    let j' := add_segments segments j in
    let p' := p ++ List.concat segments in
    match e with
    | Short => (Ret false, World j' (ASrc p' r') t)
    | Whole => (Ret true, World j' (ASrc p' r') t)
    | Wrong e k => (Throw e, World j' (ASrc (p' ++ ztake k r') (zdrop k r')) t)
    end.
Proof.
  assert (Hid : forall j, add_segments [] j = j) by (intros [q h s]; unfold add_segments, set_segments; cbn; now rewrite app_nil_r).
  induction r as [r IH] using stream_ind. intros n j p t Hb Hf Hn. destruct n as [|n]; [lia|]. cbn [segments_loop].
  assert (E := read_segment_run fuel j p r t Hb Hf). rewrite cut_eq. assert (Hs := next_size r).
  destruct (next_segment r) as [|e k|k].
  - rewrite (bind_run _ _ _ _ _ E). cbn [List.concat]. now rewrite Hid, app_nil_r.
  - unfold bind. rewrite E. cbn [List.concat]. now rewrite Hid, app_nil_r.
  - rewrite (bind_run _ _ _ _ _ E), run_modify. change (set_segments (_segments j ++ [ztake k r]) j) with (add_segments [ztake k r] j).
    cbv zeta. destruct (type_of (ztake k r) =? 217); [cbn [List.concat]; now rewrite app_nil_r|].
    rewrite IH; [|reflexivity|now apply bytes_zdrop|rewrite zlen_zdrop; lia|now apply zdrop_shorter].
    destruct (cut (zdrop k r)) as [[segments e] r']. cbv zeta. rewrite add_add, <- app_assoc. reflexivity.
Qed.

(** The file with the tables kept from an earlier one where it has none, and
    the tables kept for the next. *)
Definition completed j (i : Z) : list (list Z) :=
  let s := _segments j in
  let s1 := if zlen (tables 219 s) =? 0 then splice (i + 1) (_cachedQuantTables j) s else s in
  if zlen (tables 196 s) =? 0 then splice (i + 1) (_cachedHuffmanTables j) s1 else s1.
Definition kept j : jpeg :=
  let s := _segments j in
  mkJpeg (if zlen (tables 219 s) =? 0 then _cachedQuantTables j else tables 219 s)
         (if zlen (tables 196 s) =? 0 then _cachedHuffmanTables j else tables 196 s) [].

Lemma finish_run x y width height j s t : finish x y width height (World j s t : W) =
  match findIndex is_sof (_segments j) 0 with
  | None => (Throw "Illegal JPEG image without SOF", World j s t)
  | Some i => (Ret true, World (kept j) s (t ++ [DImage x y width height "image/jpeg" (List.concat (completed j i))]))
  end.
Proof.
  unfold finish, completed, kept. rewrite run_get. destruct (findIndex is_sof (_segments j) 0) as [i|]; [|reflexivity].
  destruct (zlen (tables 219 (_segments j)) =? 0), (zlen (tables 196 (_segments j)) =? 0); reflexivity.
Qed.

Lemma decode_run x y width height depth j p r t : bytes r -> zlen r < Z.of_nat fuel ->
  decodeRect fuel x y width height depth (World j (ASrc p r) t : W) =
    let '(segments, e, r') := cut r in
    let j' := add_segments segments j in
    let p' := p ++ List.concat segments in
    match e with
    | Short => (Ret false, World j' (ASrc p' r') t)
    | Whole => finish x y width height (World j' (ASrc p' r') t)
    | Wrong e k => (Throw e, World j' (ASrc (p' ++ ztake k r') (zdrop k r')) t)
    end.
Proof.
  intros Hb Hf. unfold decodeRect. assert (E := loop_run r fuel j p t Hb Hf ltac:(unfold zlen in Hf; lia)).
  destruct (cut r) as [[segments e] r']. cbv zeta in *. destruct e; unfold bind; rewrite E; reflexivity.
Qed.

Lemma feed_once x y width height depth chunks j p r t : bytes r -> Forall bytes chunks ->
  zlen r + zlen (List.concat chunks) < Z.of_nat fuel ->
  let m := decodeRect fuel x y width height depth : M W bool in
  let w := World j (ASrc p r) t in
  feed m w chunks = m (ext (List.concat chunks) w) /\ fst (m (ext (List.concat chunks) w)) <> Stuck.
Proof.
  intros Hb Hc Hf m w. assert (Hns : fst (m (ext (List.concat chunks) w)) <> Stuck).
  { subst m w. unfold ext. wcbn. rewrite decode_run; [|apply bytes_app; split; [exact Hb|]|zlia].
    - destruct (cut _) as [[segments [| |e k]] r']; [easy| |easy]. cbv zeta. rewrite finish_run. now destruct (findIndex _ _ _).
    - now apply bytes_concat. }
  split; [|exact Hns]. subst m w. clear Hns. revert j p r t Hb Hf.
  induction Hc as [|c cs Hc Hcs IH]; intros j p r t Hb Hf; cbn [feed List.concat] in *; [now rewrite ext_nil|].
  assert (Hcb := bytes_concat cs Hcs).
  assert (Hl := zlen_nonneg (List.concat cs)). assert (Hlc := zlen_nonneg c). rewrite zlen_app in Hf.
  rewrite decode_run by (auto; lia).
  change (ext (c ++ List.concat cs) (World j (ASrc p r) t)) with (World j (ASrc p (r ++ c ++ List.concat cs)) t).
  rewrite (decode_run _ _ _ _ _ j p (r ++ c ++ List.concat cs)) by (rewrite ?bytes_app; auto; zlia). rewrite cut_app.
  assert (Hp := cut_parts r). assert (Hk := cut_wrong r). destruct (cut r) as [[segments e] r']. cbv zeta. destruct e as [| |e k].
  - assert (Hr' : bytes (r' ++ c)) by (apply bytes_app; split; [|exact Hc]; rewrite Hp in Hb; now apply bytes_app in Hb).
    assert (Hlr : zlen r' <= zlen r) by (rewrite Hp, zlen_app; pose proof (zlen_nonneg (List.concat segments)); lia).
    unfold ext. wcbn. rewrite IH by (auto; zlia). unfold ext. wcbn. rewrite decode_run by (rewrite ?bytes_app in *; tauto || zlia).
    rewrite <- app_assoc. destruct (cut (r' ++ c ++ List.concat cs)) as [[segments' e'] r'']. cbv zeta.
    rewrite add_add, concat_app, <- app_assoc. reflexivity.
  - rewrite !finish_run. destruct (findIndex _ _ _); reflexivity.
  - unfold ext. wcbn. destruct Hk as [Hk1 Hk2]. now rewrite ztake_app_l, zdrop_app_l by lia.
Qed.

Lemma feed_at_once x y width height depth chunks j p r t : bytes r -> Forall bytes chunks ->
  zlen r + zlen (List.concat chunks) < Z.of_nat fuel ->
  feed (decodeRect fuel x y width height depth : M W bool) (World j (ASrc p r) t) chunks =
  decodeRect fuel x y width height depth (ext (List.concat chunks) (World j (ASrc p r) t)).
Proof. intros Hb Hc Hf. now apply feed_once. Qed.

(** JPEG: however the data is cut into messages, and whatever it is, the draws,
    the errors and the final state are those of the data arriving at once; no
    byte is read before it has arrived, and fuel for the bytes that arrive is
    enough. *)
Theorem jpeg_resumes x y width height depth chunks j p r t : bytes r -> Forall bytes chunks ->
  zlen r + zlen (List.concat chunks) < Z.of_nat fuel ->
  let m := decodeRect fuel x y width height depth : M W bool in
  let w := World j (ASrc p r) t in
  feed m w chunks = m (ext (List.concat chunks) w) /\ fst (m (ext (List.concat chunks) w)) <> Stuck.
Proof. now apply feed_once. Qed.
End Decoder.

(** * A JPEG file *)

(** The data of a scan: behind 255 a stuffed zero or a restart. *)
Fixpoint entropy (l : list Z) : bool :=
  match l with
  | [] => true
  | a :: l' => if a =? 255 then match l' with b :: l'' => negb (stops b) && entropy l'' | [] => false end else entropy l'
  end.

Inductive jsegment := Marker (type : Z) | Data (type : Z) (data : list Z) | Scan (header data : list Z).

Definition jtype (s : jsegment) : Z := match s with Marker type => type | Data type _ => type | Scan _ _ => 218 end.

Definition jbytes (s : jsegment) : list Z :=
  match s with
  | Marker type => [255; type]
  | Data type data => [255; type] ++ be_bytes 2 (zlen data + 2) ++ data
  | Scan header data => [255; 218] ++ be_bytes 2 (zlen header + 2) ++ header ++ data
  end.

Definition jok (s : jsegment) : Prop :=
  bytes (jbytes s) /\
  match s with
  | Marker type => no_length type = true
  | Data type data => no_length type = false /\ type <> 218 /\ zlen data < 65534
  | Scan header data => zlen header < 65534 /\ entropy data = true
  end.

(** Segments up to the end of the image; behind a scan comes a segment that is
    not a restart. *)
Fixpoint file_ok (l : list jsegment) : Prop :=
  match l with
  | [] => False
  | s :: l' => jok s /\ match l' with
      | [] => jtype s = 217
      | s' :: _ => jtype s <> 217 /\ match s with Scan _ _ => stops (jtype s') = true | _ => True end /\ file_ok l'
      end
  end.

Lemma entropy_end e b l : stops b = true -> entropy e = true -> scan_end (e ++ 255 :: b :: l) = Some (zlen e).
Proof.
  intros Hb. remember (List.length e) as n eqn:En. revert e En. induction n as [n IH] using lt_wf_ind. intros e -> He.
  destruct e as [|a e]; [cbn [app]; rewrite scan_end_cons, Hb; reflexivity|]. cbn [entropy] in He.
  destruct (Z.eqb_spec a 255) as [->|Ha].
  - destruct e as [|b' e]; [easy|]. apply andb_true_iff in He. destruct He as [H1 H2]. apply negb_true_iff in H1. cbn [app].
    assert (IH' := IH (List.length e) ltac:(cbn; lia) e eq_refl H2).
    rewrite scan_end_cons, H1. cbn [andb]. assert (Hn : b' <> 255) by (intros ->; discriminate).
    destruct e as [|c e]; cbn [app] in *; rewrite scan_end_cons; (destruct (Z.eqb_spec b' 255); [easy|]); cbn [andb];
      rewrite IH'; cbn [option_map]; rewrite ?zlen_cons, ?zlen_nil; apply (f_equal Some); lia.
  - cbn [app]. assert (IH' := IH (List.length e) ltac:(cbn; lia) e eq_refl He).
    destruct e as [|c e]; cbn [app] in *; rewrite scan_end_cons; (destruct (Z.eqb_spec a 255); [easy|]); cbn [andb];
      rewrite IH'; cbn [option_map]; rewrite ?zlen_cons, ?zlen_nil; apply (f_equal Some); lia.
Qed.

Lemma jtype_at s : type_of (jbytes s) = jtype s.
Proof. now destruct s. Qed.

Lemma jbytes_head s : exists d, jbytes s = 255 :: jtype s :: d.
Proof. destruct s; eexists; reflexivity. Qed.

Lemma length_field k n : 0 <= n < 65536 -> k = be_bytes 2 n -> exists a b, k = [a; b] /\ a * 256 + b = n.
Proof.
  intros Hn ->. assert (E := be_bytes_small 2 n ltac:(exact Hn)).
  remember (be_bytes 2 n) as k eqn:Ek. assert (Hk : zlen k = 2) by now subst k.
  destruct k as [|a [|b [|c k]]]; try (unfold zlen in Hk; cbn [List.length] in Hk; lia). exists a, b. split; [reflexivity|exact E].
Qed.

(** The first segment of the rest of a file. *)
Lemma next_of_file s l tail : file_ok (s :: l) ->
  next_segment (jbytes s ++ List.concat (map jbytes l) ++ tail) = Segment (zlen (jbytes s)).
Proof.
  intros [[Hb Hok] Hl]. set (r := List.concat (map jbytes l) ++ tail). assert (Hr := zlen_nonneg r).
  destruct s as [type|type data|header data]; unfold next_segment; cbn [jbytes] in *.
  - rewrite zlen_app. change (zlen [255; type]) with 2. destruct (Z.ltb_spec (2 + zlen r) 2); [lia|]. cbn [app].
    change (zgetd (255 :: type :: r) 0) with 255. change (zgetd (255 :: type :: r) 1) with type. now rewrite Hok.
  - destruct Hok as (Hno & Hn & Hd). assert (Hd0 := zlen_nonneg data).
    destruct (length_field _ (zlen data + 2) ltac:(lia) eq_refl) as (a & b & Ek & Eab). rewrite Ek. clear Ek.
    rewrite !zlen_app. change (zlen [255; type]) with 2. change (zlen [a; b]) with 2.
    destruct (Z.ltb_spec (2 + (2 + zlen data) + zlen r) 2); [lia|]. cbn [app].
    change (zgetd (255 :: type :: a :: b :: data ++ r) 0) with 255. change (zgetd (255 :: type :: a :: b :: data ++ r) 1) with type.
    change (zgetd (255 :: type :: a :: b :: data ++ r) 2) with a. change (zgetd (255 :: type :: a :: b :: data ++ r) 3) with b.
    rewrite Hno, Eab. cbn [Z.eqb Pos.eqb negb]. destruct (Z.ltb_spec (2 + (2 + zlen data) + zlen r) 4); [lia|]. cbv zeta.
    destruct (Z.ltb_spec (zlen data + 2) 2); [lia|]. destruct (Z.ltb_spec (2 + (2 + zlen data) + zlen r) (zlen data + 2 + 2)); [lia|].
    destruct (Z.eqb_spec type 218); [easy|]. f_equal. lia.
  - destruct Hok as (Hd & He). destruct l as [|s' l]; [cbn in Hl; lia|]. destruct Hl as (_ & Hs & _).
    assert (Er : exists q, r = 255 :: jtype s' :: q).
    { destruct (jbytes_head s') as [d Ed]. eexists. unfold r. cbn [map List.concat]. rewrite Ed. cbn [app]. reflexivity. }
    destruct Er as [q Er]. assert (Hd0 := zlen_nonneg header). assert (Hd1 := zlen_nonneg data).
    destruct (length_field _ (zlen header + 2) ltac:(lia) eq_refl) as (a & b & Ek & Eab). rewrite Ek. clear Ek.
    rewrite !zlen_app. change (zlen [255; 218]) with 2. change (zlen [a; b]) with 2.
    set (size := 2 + (2 + (zlen header + zlen data)) + zlen r). destruct (Z.ltb_spec size 2); [lia|]. cbn [app].
    rewrite <- app_assoc. set (all := header ++ data ++ r).
    change (zgetd (255 :: 218 :: a :: b :: all) 0) with 255. change (zgetd (255 :: 218 :: a :: b :: all) 1) with 218.
    change (zgetd (255 :: 218 :: a :: b :: all) 2) with a. change (zgetd (255 :: 218 :: a :: b :: all) 3) with b.
    rewrite Eab. cbn [Z.eqb Pos.eqb negb]. change (no_length 218) with false. cbv iota zeta.
    destruct (Z.ltb_spec size 4); [lia|]. destruct (Z.ltb_spec (zlen header + 2) 2); [lia|].
    destruct (Z.ltb_spec size (zlen header + 2 + 2)); [lia|].
    change (255 :: 218 :: a :: b :: all) with ([255; 218; a; b] ++ all). unfold all. rewrite app_assoc.
    rewrite zdrop_app, zdrop_all by (rewrite zlen_app; change (zlen [255; 218; a; b]) with 4; lia).
    rewrite zlen_app. change (zlen [255; 218; a; b]) with 4. rewrite zdrop_nonpos by lia. cbn [app].
    rewrite Er, entropy_end by assumption. f_equal. lia.
Qed.

Lemma cut_file l tail : file_ok l -> cut (List.concat (map jbytes l) ++ tail) = (map jbytes l, Whole, tail).
Proof.
  induction l as [|s l IH]; intros Hl; [easy|]. cbn [map List.concat]. rewrite <- app_assoc, cut_eq, next_of_file by exact Hl.
  cbv zeta. rewrite ztake_app_exact, zdrop_app_exact, jtype_at. destruct Hl as [_ Hl]. destruct l as [|s' l].
  - rewrite Hl. reflexivity.
  - destruct Hl as (Hn & _ & Hl). destruct (Z.eqb_spec (jtype s) 217); [easy|]. now rewrite IH.
Qed.

Section Drawing.
Variable fuel : nat.
Abbreviation W := (world jpeg asrc trace).

Definition sof (s : jsegment) : bool := (jtype s =? 192) || (jtype s =? 194).
Definition of_type (type : Z) (l : list jsegment) : list (list Z) := map jbytes (filter (fun s => jtype s =? type) l).

Lemma tables_of type l : tables type (map jbytes l) = of_type type l.
Proof.
  unfold tables, of_type. induction l as [|s l IH]; [reflexivity|]. cbn [map filter]. rewrite jtype_at.
  destruct (jtype s =? type); [cbn [map]; now rewrite IH|exact IH].
Qed.

Lemma find_sof pre s post i : forallb (fun s => negb (sof s)) pre = true -> sof s = true ->
  findIndex is_sof (map jbytes (pre ++ s :: post)) i = Some (i + zlen pre).
Proof.
  revert i. induction pre as [|a pre IH]; intros i Hp Hs; cbn [app map findIndex].
  - unfold is_sof, sof in *. rewrite jtype_at, Hs, Z.add_0_r. reflexivity.
  - cbn [forallb] in Hp. apply andb_true_iff in Hp. destruct Hp as [Ha Hp]. apply negb_true_iff in Ha.
    unfold is_sof at 1. rewrite jtype_at. unfold sof in Ha. rewrite Ha, IH by assumption. rewrite zlen_cons. f_equal. lia.
Qed.

Lemma splice_at items pre s post (rest : list (list Z)) : 
  splice (zlen pre + 1) items (map jbytes (pre ++ [s]) ++ rest ++ map jbytes post) =
  map jbytes (pre ++ [s]) ++ items ++ rest ++ map jbytes post.
Proof.
  unfold splice. assert (E : zlen pre + 1 = zlen (map jbytes (pre ++ [s]))).
  { unfold zlen. rewrite length_map, length_app. cbn [List.length]. lia. }
  now rewrite E, ztake_app_exact, zdrop_app_exact.
Qed.

(** The tables of an earlier file, where the file has none. *)
Definition or_kept (own kept : list (list Z)) : list (list Z) := match own with [] => kept | _ => own end.
Definition if_none (own kept : list (list Z)) : list (list Z) := match own with [] => kept | _ => [] end.

Lemma zlen_nil_iff {A} (l : list A) : (zlen l =? 0) = match l with [] => true | _ => false end.
Proof. destruct l as [|a l]; [reflexivity|]. rewrite zlen_cons. pose proof (zlen_nonneg l). destruct (Z.eqb_spec (1 + zlen l) 0); [lia|reflexivity]. Qed.

(** C13.  JPEG: a file with a frame header (the first SOF segment), cut into messages
    anywhere, with anything behind, is handed to the browser; when it has no
    quantization or no Huffman tables, those of the last file that had some are
    put in behind the frame header.  Exactly the file is consumed, and its own
    tables are kept for the next. *)
Theorem jpeg_draws x y width height depth pre s post quant huffman tail chunks p r t :
  let file := pre ++ s :: post in
  file_ok file -> forallb (fun s => negb (sof s)) pre = true -> sof s = true ->
  bytes r -> Forall bytes chunks -> r ++ List.concat chunks = List.concat (map jbytes file) ++ tail ->
  zlen r + zlen (List.concat chunks) < Z.of_nat fuel ->
  feed (decodeRect fuel x y width height depth : M W bool) (World (mkJpeg quant huffman []) (ASrc p r) t) chunks =
    (Ret true, World (mkJpeg (or_kept (of_type 219 file) quant) (or_kept (of_type 196 file) huffman) [])
      (ASrc (p ++ List.concat (map jbytes file)) tail)
      (t ++ [DImage x y width height "image/jpeg"
        (List.concat (map jbytes pre ++ [jbytes s] ++ if_none (of_type 196 file) huffman ++
                      if_none (of_type 219 file) quant ++ map jbytes post))])).
Proof.
  intros file Hf Hpre Hs Hb Hc Er Hfuel. rewrite feed_at_once by assumption. unfold ext. wcbn. rewrite Er.
  rewrite decode_run; [|rewrite <- Er; apply bytes_app; split; [exact Hb|now apply bytes_concat]|rewrite <- Er; zlia].
  rewrite cut_file by exact Hf. cbv zeta. rewrite finish_run. unfold add_segments. cbn [_segments set_segments]. rewrite app_nil_l.
  unfold file at 1. rewrite find_sof by assumption. unfold kept, completed. cbn [_segments set_segments _cachedQuantTables _cachedHuffmanTables].
  rewrite !tables_of, !zlen_nil_iff, Z.add_0_l. unfold or_kept, if_none.
  assert (E : map jbytes file = map jbytes (pre ++ [s]) ++ [] ++ map jbytes post)
    by (unfold file; rewrite !map_app, <- app_assoc; reflexivity).
  assert (E1 : map jbytes (pre ++ [s]) = map jbytes pre ++ [jbytes s]) by now rewrite map_app.
  rewrite !(app_assoc (map jbytes pre) [jbytes s]), <- E1.
  assert (E2 := splice_at huffman pre s post []). assert (E3 := splice_at quant pre s post []).
  assert (E4 := splice_at huffman pre s post quant). cbn [app] in *.
  destruct (of_type 219 file), (of_type 196 file); cbn [app]; rewrite E, ?E3, ?E4, ?E2; reflexivity.
Qed.
End Drawing.

(** Fourteen bytes of a file without tables, in three messages, behind an
    earlier file with one Huffman table. *)
Lemma jpeg_draws_witness :
  feed (decodeRect 100 5 7 3 2 24 : M (world jpeg asrc trace) bool) (World (mkJpeg [] [[255; 196; 0; 2]] []) (ASrc [] []) [])
    [[255; 216; 255]; [192; 0; 3; 8; 255; 218; 0; 2; 17; 255]; [0; 255; 217; 77]] =
  (Ret true, World (mkJpeg [] [[255; 196; 0; 2]] [])
    (ASrc [255; 216; 255; 192; 0; 3; 8; 255; 218; 0; 2; 17; 255; 0; 255; 217] [77])
    [DImage 5 7 3 2 "image/jpeg" [255; 216; 255; 192; 0; 3; 8; 255; 196; 0; 2; 255; 218; 0; 2; 17; 255; 0; 255; 217]]).
Proof.
  assert (Hbs : forall l, bytesb l = true -> bytes l) by (intros l; apply bytes_reflect).
  apply (jpeg_draws 100 5 7 3 2 24 [Marker 216] (Data 192 [8]) [Scan [] [17; 255; 0]; Marker 217] [] [[255; 196; 0; 2]] [77]
    [[255; 216; 255]; [192; 0; 3; 8; 255; 218; 0; 2; 17; 255]; [0; 255; 217; 77]] [] [] []).
  - repeat split; first [reflexivity | apply Hbs; reflexivity | vm_compute; congruence].
  - reflexivity.
  - reflexivity.
  - apply Forall_nil.
  - repeat (apply Forall_cons; [apply Hbs; reflexivity|]). apply Forall_nil.
  - reflexivity.
  - reflexivity.
Defined.

(** Data that is no JPEG file. *)
Lemma jpeg_resumes_witness : let m := decodeRect 100 5 7 3 2 24 : M (world jpeg asrc trace) bool in
  let w := World constructor (ASrc [] []) [] in
  feed m w [[255]; [216; 3; 4]] = m (ext [255; 216; 3; 4] w) /\
  m (ext [255; 216; 3; 4] w) =
    (Throw "Illegal JPEG marker received", World (mkJpeg [] [] [[255; 216]]) (ASrc [255; 216; 3] [4]) []).
Proof.
  intros m w. destruct (jpeg_resumes 100 5 7 3 2 24 [[255]; [216; 3; 4]] constructor [] [] []) as [E _].
  - apply Forall_nil.
  - repeat (apply Forall_cons; [apply bytes_reflect; reflexivity|]). apply Forall_nil.
  - reflexivity.
  - split; [exact E|]. vm_compute. reflexivity.
Defined.
