(* ===== verification/Aes.v ===== *)
(** AES-ECB and AES-EAX, core/crypto/aes.js.

    The cipher itself is the browser's: [WebCrypto] is what the code uses of
    [window.crypto.subtle], with a key imported from its bytes.  The methods
    are asynchronous, but between their suspension points they touch nothing
    that changes, so each is a function of the key and its arguments.  AES-EAX
    is authenticated encryption made of AES-CTR and of message authentication
    codes (CMAC) that the code computes with AES-CBC. *)

From Stdlib Require Import ZArith List Lia Bool String.
From S2P Require Import Prelude.
Import ListNotations JS.
Open Scope Z_scope.
Open Scope code_scope.

(** [cbc_encrypt key iv data] and [ctr_crypt key counter data], the counter 128
    bits wide. *)
Class WebCrypto := {
  cbc_encrypt : list Z -> list Z -> list Z -> list Z;
  ctr_encrypt : list Z -> list Z -> list Z -> list Z;
  ctr_decrypt : list Z -> list Z -> list Z -> list Z
}.

(** [for (let i = 0; i < n; i++) dst[off + i] ^= src[i]] *)
Definition xor_at (off n : Z) (src dst : list Z) : list Z :=
  fold_left (fun dst i => zset dst (off + i) (toUint8 (zgetd dst (off + i) .^ zgetd src i)%js)) (upto n) dst.

Module AESECB.
Section Cipher.
Context `{WebCrypto}.

(** None is null; [key] is None before a key is imported. *)
Definition encrypt (key : option (list Z)) (plaintext : list Z) : option (list Z) :=
  match key with
  | Some key =>
      if zlen plaintext mod 16 =? 0 then
        Some (fold_left (fun x i =>
          let y := zslice (cbc_encrypt key (zrep 16 0) (zslice x (i * 16) (i * 16 + 16))) 0 16 in
          zblit x (i * 16) y) (upto (zlen plaintext / 16)) plaintext)
      else None
  | None => None
  end.
End Cipher.
End AESECB.

Module AESEAX.
Section Cipher.
Context `{WebCrypto}.

(** [_ctrKey] and [_cbcKey] are both imported from [_rawKey]. *)
Record cipher := mkCipher { _rawKey : list Z; _k1 : list Z; _k2 : list Z }.

Definition _zeroBlock : list Z := zrep 16 0.
Definition _prefixBlock0 : list Z := _zeroBlock.
Definition _prefixBlock1 : list Z := zrep 15 0 ++ [1].
Definition _prefixBlock2 : list Z := zrep 15 0 ++ [2].

Definition _encryptBlock (key block : list Z) : list Z := zslice (cbc_encrypt key _zeroBlock block) 0 16.

Definition lut : list Z := [0; 135; 14; 137].

(** The loop, which overwrites [k1] behind the byte it reads. *)
Definition shift_keys (k : list Z * list Z) (i : Z) : list Z * list Z :=
  let '(k1, k2) := k in
  let k2 := zset k2 i (toUint8 ((zgetd k1 (i + 1) >> 6) .| (zgetd k1 i << 2))%js) in
  let k1 := zset k1 i (toUint8 ((zgetd k1 (i + 1) >> 7) .| (zgetd k1 i << 1))%js) in
  (k1, k2).

Definition _initCMAC (key : list Z) : list Z * list Z :=
  let k1 := _encryptBlock key _zeroBlock in
  let v := (zgetd k1 0 >>> 6)%js in
  let '(k1, k2) := fold_left shift_keys (upto 15) (k1, zrep 16 0) in
  let k2 := zset k2 14 (toUint8 (zgetd k2 14 .^ (v >>> 1))%js) in
  let k2 := zset k2 15 (toUint8 ((zgetd k1 15 << 2) .^ zgetd lut v)%js) in
  let k1 := zset k1 15 (toUint8 ((zgetd k1 15 << 1) .^ zgetd lut (v >> 1))%js) in
  (k1, k2).

Definition _importKey (key : list Z) : cipher := let '(k1, k2) := _initCMAC key in mkCipher key k1 k2.

Definition _encryptCTR (c : cipher) (data counter : list Z) : list Z := ctr_encrypt (_rawKey c) counter data.
Definition _decryptCTR (c : cipher) (data counter : list Z) : list Z := ctr_decrypt (_rawKey c) counter data.

Definition _computeCMAC (c : cipher) (data prefixBlock : list Z) : option (list Z) :=
  if negb (zlen prefixBlock =? 16) then None
  else
    let n := zlen data / 16 in
    let m := (zlen data + 15) / 16 in
    let r := zlen data - n * 16 in
    let cbcData := zblit (zblit (zrep ((m + 1) * 16) 0) 0 prefixBlock) 16 data in
    let cbcData :=
      if r =? 0 then xor_at (n * 16) 16 (_k1 c) cbcData
      else xor_at ((n + 1) * 16) 16 (_k2 c) (zset cbcData ((n + 1) * 16 + r) 128) in
    let cbcEncrypted := cbc_encrypt (_rawKey c) _zeroBlock cbcData in
    Some (zslice cbcEncrypted (zlen cbcEncrypted - 32) (zlen cbcEncrypted - 16)).

(** [mac[i] ^= nCMAC[i] ^ adCMAC[i]] *)
Definition join_macs (mac nCMAC adCMAC : list Z) : list Z :=
  fold_left (fun mac i => zset mac i (toUint8 (zgetd mac i .^ (zgetd nCMAC i .^ zgetd adCMAC i))%js)) (upto 16) mac.

(** Reading a null throws. *)
Definition encrypt (c : cipher) (additionalData iv message : list Z) : option (list Z) :=
  match _computeCMAC c iv _prefixBlock0 with
  | None => None
  | Some nCMAC =>
      let encrypted := _encryptCTR c message nCMAC in
      match _computeCMAC c additionalData _prefixBlock1, _computeCMAC c encrypted _prefixBlock2 with
      | Some adCMAC, Some mac =>
          let mac := join_macs mac nCMAC adCMAC in
          Some (zblit (zblit (zrep (16 + zlen encrypted) 0) 0 encrypted) (zlen encrypted) mac)
      | _, _ => None
      end
  end.

(** [data.slice(a, b)], a negative index counting from the end. *)
Definition slice_to_end (l : list Z) (k : Z) : list Z :=
  ztake (if zlen l - k <? 0 then Z.max 0 (zlen l + (zlen l - k)) else zlen l - k) l.
Definition slice_from (l : list Z) (a : Z) : list Z := zdrop (if a <? 0 then Z.max 0 (zlen l + a) else a) l.

Definition decrypt (c : cipher) (additionalData iv data : list Z) : option (list Z) :=
  let encrypted := slice_to_end data 16 in
  let mac := slice_from data (zlen data - 16) in
  match _computeCMAC c iv _prefixBlock0, _computeCMAC c additionalData _prefixBlock1,
    _computeCMAC c encrypted _prefixBlock2 with
  | Some nCMAC, Some adCMAC, Some computedMac =>
      let computedMac := join_macs computedMac nCMAC adCMAC in
      if negb (zlen computedMac =? zlen mac) then None
      else if forallb (fun i => zgetd computedMac i =? zgetd mac i) (upto (zlen mac))
      then Some (_decryptCTR c encrypted nCMAC)
      else None
  | _, _, _ => None
  end.
End Cipher.
End AESEAX.
