(* ===== verification/AesCorrect.v ===== *)
(** AES-EAX of core/crypto/aes.js compared with its definitions: CMAC as in
    RFC 4493 (NIST SP 800-38B), EAX as in Bellare, Rogaway and Wagner, "The EAX
    mode of operation".

    [WebCryptoOk] is what is assumed of the browser: AES-CBC chains a block
    cipher over the padded data, and AES-CTR decryption undoes encryption. *)

From Stdlib Require Import ZArith List Lia Bool String.
From S2P Require Import Prelude Sink Aes.
Import ListNotations JS JSFacts AESEAX.
Open Scope Z_scope.
Open Scope code_scope.

(** * The definitions of the standards *)

(** The blocks of 16 bytes of a list; a shorter block ends it. *)
Fixpoint blocks_loop (n : nat) (l : list Z) : list (list Z) :=
  match n with
  | O => []
  | S n => ztake 16 l :: blocks_loop n (zdrop 16 l)
  end.
Definition blocks (l : list Z) : list (list Z) := blocks_loop (Z.to_nat ((zlen l + 15) / 16)) l.

Definition xor_bytes (a b : list Z) : list Z := map (fun '(x, y) => Z.lxor x y) (combine a b).

(** PKCS #7 padding, always at least one byte. *)
Definition pkcs7 (l : list Z) : list Z := let k := 16 - zlen l mod 16 in l ++ zrep k k.

Section Standards.
Variable E : list Z -> list Z.

Fixpoint cbc (iv : list Z) (bs : list (list Z)) : list (list Z) :=
  match bs with
  | [] => []
  | b :: bs => let c := E (xor_bytes iv b) in c :: cbc c bs
  end.

(** Doubling in GF(2^128). *)
Definition dbl (l : list Z) : list Z :=
  let v := (2 * be l) mod 2 ^ 128 in
  be_bytes 16 (if Z.testbit (be l) 127 then Z.lxor v 135 else v).

Definition subkey1 : list Z := dbl (E (zrep 16 0)).
Definition subkey2 : list Z := dbl subkey1.

(** The last block of a message, made whole. *)
Definition last_block (b : list Z) : list Z :=
  if zlen b =? 16 then xor_bytes b subkey1
  else xor_bytes (b ++ [128] ++ zrep (15 - zlen b) 0) subkey2.

(** The code of a message that is not empty. *)
Definition cmac (l : list Z) : list Z :=
  let bs := blocks l in
  last (cbc (zrep 16 0) (removelast bs ++ [last_block (last bs [])])) [].

Definition omac (t : Z) (l : list Z) : list Z := cmac (zrep 15 0 ++ [t] ++ l).
End Standards.

Class WebCryptoOk `{WebCrypto} := {
  aes : list Z -> list Z -> list Z;
  aes_block key b : zlen b = 16 -> bytes b -> zlen (aes key b) = 16 /\ bytes (aes key b);
  cbc_is key iv data : zlen iv = 16 -> bytes iv -> bytes data ->
    cbc_encrypt key iv data = List.concat (cbc (aes key) iv (blocks (pkcs7 data)));
  ctr_length key c data : zlen (ctr_encrypt key c data) = zlen data;
  ctr_bytes key c data : bytes data -> bytes (ctr_encrypt key c data);
  ctr_inverse key c data : zlen c = 16 -> bytes c -> bytes data -> ctr_decrypt key c (ctr_encrypt key c data) = data
}.

(** EAX: the nonce, the header and the message give the ciphertext and a tag. *)
Definition eax `{WebCryptoOk} (key header nonce message : list Z) : list Z :=
  let N := omac (aes key) 0 nonce in
  let H := omac (aes key) 1 header in
  let C := ctr_encrypt key N message in
  C ++ xor_bytes (xor_bytes N H) (omac (aes key) 2 C).

(** * The subkeys *)

(** A list of bytes shifted to the left by one bit. *)
Fixpoint shift1 (l : list Z) : list Z :=
  match l with
  | [] => []
  | a :: l' => (2 * a + zgetd l' 0 / 128) mod 256 :: shift1 l'
  end.

Lemma zlen_shift1 l : zlen (shift1 l) = zlen l.
Proof. induction l as [|a l IH]; [reflexivity|]. cbn [shift1]. now rewrite !zlen_cons, IH. Qed.

Lemma be_shift1 l : bytes l -> be (shift1 l) = (2 * be l) mod 256 ^ zlen l.
Proof.
  induction l as [|a l IH]; intros Hb; [reflexivity|]. inversion_clear Hb as [|? ? Ha Hl]. unfold is_byte in Ha.
  cbn [shift1]. rewrite !be_cons, zlen_shift1, (IH Hl), zlen_cons. assert (Hn := zlen_nonneg l).
  rewrite Z.pow_add_r by lia. change (256 ^ 1) with 256. set (q := 256 ^ zlen l). assert (Hq : 0 < q) by (unfold q; lia).
  assert (Hr := be_range l Hl). fold q in Hr.
  assert (Hh : 2 * be l = zgetd l 0 / 128 * q + (2 * be l) mod q /\ 0 <= zgetd l 0 / 128 <= 1).
  { destruct l as [|b l]; [cbn; unfold q; cbn; lia|]. inversion_clear Hl as [|? ? Hb Hl']. unfold is_byte in Hb.
    change (zgetd (b :: l) 0) with b. split; [|euclid]. rewrite be_cons in *. unfold q in *. rewrite zlen_cons in *.
    rewrite Z.pow_add_r in * by (pose proof (zlen_nonneg l); lia). change (256 ^ 1) with 256 in *.
    assert (Hr' := be_range l Hl'). set (p := 256 ^ zlen l) in *. rewrite (Z.div_mod (2 * (b * p + be l)) (256 * p)) at 1 by nia.
    rewrite (Z.mul_comm (256 * p)). f_equal. f_equal.
    symmetry. apply Z.div_unique with (2 * (b * p + be l) - b / 128 * (256 * p)); [left|lia].
    assert (b = 128 * (b / 128) + b mod 128) by (apply Z.div_mod; lia). assert (0 <= b mod 128 < 128) by (apply Z.mod_pos_bound; lia). nia. }
  destruct Hh as [Hh Hc]. set (c := zgetd l 0 / 128) in *.
  replace (2 * (a * q + be l)) with ((2 * a + c) * q + (2 * be l) mod q) by lia.
  assert (Hm := Z.mod_pos_bound (2 * be l) q Hq). set (m := (2 * be l) mod q) in *.
  apply Z.mod_unique with ((2 * a + c) / 256); [left; assert (0 <= (2 * a + c) mod 256 < 256) by (apply Z.mod_pos_bound; lia); nia|].
  assert (2 * a + c = 256 * ((2 * a + c) / 256) + (2 * a + c) mod 256) by (apply Z.div_mod; lia). nia.
Qed.

Lemma lxor_low a x c : 0 <= a -> is_byte x -> is_byte c -> Z.lxor (a * 256 + x) c = a * 256 + Z.lxor x c.
Proof.
  intros Ha Hx Hc. assert (Hl := lxor_byte x c Hx Hc). unfold is_byte in *.
  change 256 with (2 ^ 8). rewrite <- !lor_add by lia. apply Z.bits_inj'. intros i Hi.
  rewrite Z.lxor_spec, !Z.lor_spec, Z.lxor_spec. destruct (Z_lt_le_dec i 8) as [H8|H8].
  - rewrite Z.mul_pow2_bits_low by lia. reflexivity.
  - rewrite (testbit_byte x), (testbit_byte c) by (unfold is_byte; lia). now rewrite !orb_false_r, xorb_false_r.
Qed.

(** The reduction polynomial in the last byte. *)
Definition reduce (l0 : Z) : Z := if 128 <=? l0 then 135 else 0.

Lemma dbl_is l x : bytes (l ++ [x]) -> zlen l = 15 ->
  dbl (l ++ [x]) = removelast (shift1 (l ++ [x])) ++ [Z.lxor ((2 * x) mod 256) (reduce (zgetd l 0))].
Proof.
  intros Hb Hl. unfold dbl. assert (Hr := be_range _ Hb). rewrite zlen_app, Hl in Hr. change (zlen [x]) with 1 in Hr.
  assert (Et : Z.testbit (be (l ++ [x])) 127 = (128 <=? zgetd l 0)).
  { destruct l as [|a l]; [cbn in Hl; lia|]. change (zgetd (a :: l) 0) with a. cbn [app] in *. rewrite be_cons.
    inversion_clear Hb as [|? ? Ha Hb']. unfold is_byte in Ha. assert (Hr' := be_range _ Hb'). rewrite zlen_app in *. rewrite zlen_cons in Hl.
    change (zlen [x]) with 1 in *. replace (zlen l + 1) with 15 in * by lia. set (q := be (l ++ [x])) in *.
    change (256 ^ 15) with (2 ^ 120) in *. destruct (Z.leb_spec 128 a).
    - apply Z.testbit_true; [lia|]. replace ((a * 2 ^ 120 + q) / 2 ^ 127) with 1; [reflexivity|].
      apply Z.div_unique with (a * 2 ^ 120 + q - 2 ^ 127); lia.
    - apply Z.testbit_false; [lia|]. rewrite Z.div_small by lia. reflexivity. }
  rewrite Et. assert (Es : exists s, shift1 (l ++ [x]) = s ++ [(2 * x) mod 256] /\ zlen s = zlen l).
  { clear - l. induction l as [|a l IH]; [exists []; cbn; rewrite Z.add_0_r; easy|]. destruct IH as (s & E & Hs).
    exists ((2 * a + zgetd (l ++ [x]) 0 / 128) mod 256 :: s). cbn [app shift1]. rewrite E, !zlen_cons, Hs. easy. }
  destruct Es as (s & Es & Hs). assert (Eb := be_shift1 _ Hb). rewrite Es, zlen_app, Hl in Eb. change (zlen [x]) with 1 in Eb.
  rewrite Es, removelast_last. assert (Hbs : bytes (shift1 (l ++ [x]))).
  { clear. induction (l ++ [x]) as [|a m IH]; constructor; [apply Z.mod_pos_bound; lia|exact IH]. }
  rewrite Es, bytes_app in Hbs. destruct Hbs as [Hbs Hx]. inversion_clear Hx as [|? ? Hx' _].
  assert (Hc : is_byte (reduce (zgetd l 0))) by (unfold reduce, is_byte; destruct (128 <=? _); lia).
  assert (Elast : be (s ++ [Z.lxor ((2 * x) mod 256) (reduce (zgetd l 0))]) = Z.lxor ((2 * be (l ++ [x])) mod 256 ^ 16) (reduce (zgetd l 0))).
  { change (15 + 1) with 16 in Eb. rewrite <- Eb, !be_app. change (zlen [_]) with 1. change (256 ^ 1) with 256.
    change (be [Z.lxor ((2 * x) mod 256) (reduce (zgetd l 0))]) with (Z.lxor ((2 * x) mod 256) (reduce (zgetd l 0))).
    change (be [(2 * x) mod 256]) with ((2 * x) mod 256). symmetry. apply lxor_low; auto. apply (be_range s Hbs). }
  assert (Hbl : bytes (s ++ [Z.lxor ((2 * x) mod 256) (reduce (zgetd l 0))])).
  { apply bytes_app. split; [exact Hbs|]. apply Forall_cons; [now apply lxor_byte|apply Forall_nil]. }
  apply be_inj; [apply be_bytes_bytes|exact Hbl|rewrite zlen_be_bytes, zlen_app, Hs, Hl; reflexivity|].
  rewrite Elast, be_be_bytes. change (2 ^ 128) with (256 ^ 16). change (Z.of_nat 16) with 16. unfold reduce.
  assert (Hm := Z.mod_pos_bound (2 * be (l ++ [x])) (256 ^ 16) ltac:(lia)).
  destruct (128 <=? zgetd l 0) eqn:E128.
  - apply Z.mod_small. unfold reduce in Elast. rewrite E128 in Elast. rewrite <- Elast.
    assert (Hr2 := be_range _ Hbl). rewrite zlen_app, Hs, Hl in Hr2. unfold reduce in Hr2. rewrite E128 in Hr2. exact Hr2.
  - rewrite Z.lxor_0_r. apply Z.mod_small. exact Hm.
Qed.

Lemma joined a b k : is_byte a -> is_byte b -> 1 <= k <= 2 -> toUint8 ((b >> (8 - k)) .| (a << k))%js = (2 ^ k * a + b / 2 ^ (8 - k)) mod 256.
Proof.
  unfold is_byte. intros Ha Hb Hk. unfold toUint8. f_equal. rewrite sar_small by lia. unfold bor.
  assert (Hc : 0 <= b / 2 ^ (8 - k) < 2 ^ k).
  { split; [apply Z.div_pos; lia|]. apply Z.div_lt_upper_bound; [lia|]. rewrite <- Z.pow_add_r by lia. replace (8 - k + k) with 8 by lia. lia. }
  assert (Hp : 2 ^ k <= 4) by (assert (E : k = 1 \/ k = 2) by lia; destruct E as [-> | ->]; lia).
  rewrite Z.lor_comm. fold (bor (a << k)%js (b / 2 ^ (8 - k))). rewrite shl_bor by nia. lia.
Qed.

(** A byte shifted by one and by two bits, with the bits that follow. *)
Definition once (a b : Z) : Z := (2 * a + b / 128) mod 256.
Definition twice (a b : Z) : Z := (4 * a + b / 64) mod 256.

Lemma once_byte a b : is_byte (once a b).
Proof. apply Z.mod_pos_bound. lia. Qed.

Lemma twice_is a b c : is_byte a -> is_byte b -> is_byte c -> twice a b = (2 * once a b + once b c / 128) mod 256.
Proof. unfold is_byte, once, twice. intros Ha Hb Hc. euclid. Qed.

Lemma lxor_135_high t : is_byte t -> Z.lxor t 135 / 128 = 1 - t / 128.
Proof. revert t. unfold is_byte. each_in 256; reflexivity. Qed.

Lemma lxor_1 y : is_byte y -> Z.lxor y 1 = y + 1 - 2 * (y mod 2).
Proof. revert y. unfold is_byte. each_in 256; reflexivity. Qed.

Lemma high_two a : is_byte a -> (a >>> 6)%js = a / 64.
Proof. unfold is_byte. intros Ha. now rewrite shr_small by lia. Qed.

Lemma bxor_bytes x y : is_byte x -> is_byte y -> toUint8 (x .^ y)%js = Z.lxor x y.
Proof.
  intros Hx Hy. unfold bxor. rewrite !toInt32_small by (unfold is_byte in *; lia). apply toUint8_small. now apply lxor_byte.
Qed.

(** The byte before the last of the second subkey, and the last bytes. *)
Lemma second_14 a0 a14 a15 : is_byte a0 -> is_byte a14 -> is_byte a15 ->
  toUint8 (twice a14 a15 .^ (a0 / 64 >>> 1))%js =
  (2 * once a14 a15 + Z.lxor ((2 * a15) mod 256) (reduce a0) / 128) mod 256.
Proof.
  unfold once, twice. intros H0 H14 H15. assert (Hq : is_byte ((4 * a14 + a15 / 64) mod 256)) by (apply Z.mod_pos_bound; lia).
  assert (Ht : is_byte ((2 * a15) mod 256)) by (apply Z.mod_pos_bound; lia).
  unfold is_byte in H0. assert (Hv : 0 <= a0 / 64 < 4) by euclid. rewrite shr_small by lia. change (2 ^ 1) with 2.
  rewrite bxor_bytes by (auto; unfold is_byte; euclid). unfold reduce. destruct (Z.leb_spec 128 a0).
  - replace (a0 / 64 / 2) with 1 by euclid. rewrite lxor_1, lxor_135_high by assumption. unfold is_byte in *. euclid.
  - replace (a0 / 64 / 2) with 0 by euclid. rewrite !Z.lxor_0_r. unfold is_byte in *. euclid.
Qed.

Lemma first_15 a0 a15 : is_byte a0 -> is_byte a15 ->
  toUint8 ((a15 << 1) .^ zgetd lut (a0 / 64 >> 1))%js = Z.lxor ((2 * a15) mod 256) (reduce a0).
Proof.
  intros H0 H15. unfold is_byte in H0. assert (Hv : 0 <= a0 / 64 < 4) by euclid. rewrite sar_small by lia.
  change (2 ^ 1) with 2. replace (zgetd lut (a0 / 64 / 2)) with (reduce a0).
  - unfold reduce. destruct (128 <=? a0); revert a15 H15; unfold is_byte; each_in 256; reflexivity.
  - unfold reduce. destruct (Z.leb_spec 128 a0); [replace (a0 / 64 / 2) with 1 by euclid|replace (a0 / 64 / 2) with 0 by euclid]; reflexivity.
Qed.

Lemma second_15 a0 a1 a15 : is_byte a0 -> is_byte a1 -> is_byte a15 ->
  toUint8 ((a15 << 2) .^ zgetd lut (a0 / 64))%js =
  Z.lxor ((2 * Z.lxor ((2 * a15) mod 256) (reduce a0)) mod 256) (reduce (once a0 a1)).
Proof.
  unfold once. intros H0 H1 H15. unfold is_byte in H0, H1.
  assert (E : a0 / 64 = 0 /\ reduce a0 = 0 /\ reduce ((2 * a0 + a1 / 128) mod 256) = 0 \/
              a0 / 64 = 1 /\ reduce a0 = 0 /\ reduce ((2 * a0 + a1 / 128) mod 256) = 135 \/
              a0 / 64 = 2 /\ reduce a0 = 135 /\ reduce ((2 * a0 + a1 / 128) mod 256) = 0 \/
              a0 / 64 = 3 /\ reduce a0 = 135 /\ reduce ((2 * a0 + a1 / 128) mod 256) = 135).
  { unfold reduce. destruct (Z.leb_spec 128 a0), (Z.leb_spec 128 ((2 * a0 + a1 / 128) mod 256));
      [do 3 right|do 2 right; left|right; left|left]; repeat split; euclid. }
  destruct E as [(-> & -> & ->)|[(-> & -> & ->)|[(-> & -> & ->)|(-> & -> & ->)]]]; revert a15 H15; unfold is_byte; each_in 256; reflexivity.
Qed.

Lemma sixteen (l : list Z) : zlen l = 16 -> exists a0 a1 a2 a3 a4 a5 a6 a7 a8 a9 a10 a11 a12 a13 a14 a15,
  l = [a0; a1; a2; a3; a4; a5; a6; a7; a8; a9; a10; a11; a12; a13; a14; a15].
Proof.
  unfold zlen. intros Hl. do 16 (destruct l as [|? l]; [cbn in Hl; lia|]). destruct l as [|? l]; [|cbn in Hl; lia].
  repeat eexists.
Qed.

(** The code computes both subkeys at once. *)
Lemma subkeys_are `{WebCryptoOk} key : _initCMAC key = (subkey1 (aes key), subkey2 (aes key)).
Proof.
  assert (Hz : zlen (zrep 16 0) = 16 /\ bytes (zrep 16 0)) by (split; [reflexivity|apply bytes_zrep; unfold is_byte; lia]).
  unfold _initCMAC, _encryptBlock, _zeroBlock. rewrite cbc_is by apply Hz.
  assert (Ex : xor_bytes (zrep 16 0) (zrep 16 0) = zrep 16 0) by reflexivity.
  change (blocks (pkcs7 (zrep 16 0))) with [zrep 16 0; zrep 16 16]. cbn [cbc]. rewrite Ex.
  destruct (aes_block key _ (proj1 Hz) (proj2 Hz)) as [Hl Hb]. unfold subkey2, subkey1. set (l := aes key (zrep 16 0)) in *. clearbody l.
  cbn [List.concat]. replace (zslice (l ++ _) 0 16) with l by (unfold zslice; rewrite zdrop_nonpos by lia; now rewrite <- Hl, Z.sub_0_r, ztake_app_exact).
  destruct (sixteen l Hl) as (a0 & a1 & a2 & a3 & a4 & a5 & a6 & a7 & a8 & a9 & a10 & a11 & a12 & a13 & a14 & a15 & ->). clear Hl.
  unfold bytes in Hb. rewrite !Forall_cons_iff in Hb. destruct Hb as (B0 & B1 & B2 & B3 & B4 & B5 & B6 & B7 & B8 & B9 & B10 & B11 & B12 & B13 & B14 & B15 & _).
  pose (one a b := toUint8 ((b >> 7) .| (a << 1))%js). pose (two a b := toUint8 ((b >> 6) .| (a << 2))%js).
  assert (Ef : fold_left shift_keys (upto 15) ([a0; a1; a2; a3; a4; a5; a6; a7; a8; a9; a10; a11; a12; a13; a14; a15], zrep 16 0) =
    ([one a0 a1; one a1 a2; one a2 a3; one a3 a4; one a4 a5; one a5 a6; one a6 a7; one a7 a8; one a8 a9; one a9 a10; one a10 a11; one a11 a12; one a12 a13; one a13 a14; one a14 a15; a15],
     [two a0 a1; two a1 a2; two a2 a3; two a3 a4; two a4 a5; two a5 a6; two a6 a7; two a7 a8; two a8 a9; two a9 a10; two a10 a11; two a11 a12; two a12 a13; two a13 a14; two a14 a15; 0])) by reflexivity.
  rewrite Ef. clear Ef. change (zgetd [a0; a1; a2; a3; a4; a5; a6; a7; a8; a9; a10; a11; a12; a13; a14; a15] 0) with a0.
  assert (E1 : forall a b, is_byte a -> is_byte b -> one a b = once a b) by (intros a b Ha Hb; exact (joined a b 1 Ha Hb ltac:(lia))).
  assert (E2 : forall a b, is_byte a -> is_byte b -> two a b = twice a b) by (intros a b Ha Hb; exact (joined a b 2 Ha Hb ltac:(lia))).
  rewrite !E1, !E2 by assumption. clear E1 E2. clearbody one two. rewrite high_two by exact B0.
  change (([once a0 a1; once a1 a2; once a2 a3; once a3 a4; once a4 a5; once a5 a6; once a6 a7; once a7 a8; once a8 a9; once a9 a10; once a10 a11; once a11 a12; once a12 a13; once a13 a14; once a14 a15; toUint8 ((a15 << 1) .^ zgetd lut (a0 / 64 >> 1))%js],
    [twice a0 a1; twice a1 a2; twice a2 a3; twice a3 a4; twice a4 a5; twice a5 a6; twice a6 a7; twice a7 a8; twice a8 a9; twice a9 a10; twice a10 a11; twice a11 a12; twice a12 a13; twice a13 a14; toUint8 (twice a14 a15 .^ (a0 / 64 >>> 1))%js; toUint8 ((a15 << 2) .^ zgetd lut (a0 / 64))%js]) =
    (dbl ([a0; a1; a2; a3; a4; a5; a6; a7; a8; a9; a10; a11; a12; a13; a14] ++ [a15]), dbl (dbl ([a0; a1; a2; a3; a4; a5; a6; a7; a8; a9; a10; a11; a12; a13; a14] ++ [a15])))).
  rewrite first_15, (second_15 a0 a1 a15), (second_14 a0 a14 a15) by assumption.
  rewrite dbl_is by (first [reflexivity | repeat (apply Forall_cons; [assumption|]); apply Forall_nil]).
  set (x := Z.lxor ((2 * a15) mod 256) (reduce a0)). assert (Hx : is_byte x).
  { apply lxor_byte; [apply Z.mod_pos_bound; lia|]. unfold reduce, is_byte. destruct (128 <=? a0); lia. }
  change (removelast (shift1 ([a0; a1; a2; a3; a4; a5; a6; a7; a8; a9; a10; a11; a12; a13; a14] ++ [a15])) ++ [Z.lxor ((2 * a15) mod 256) (reduce (zgetd [a0; a1; a2; a3; a4; a5; a6; a7; a8; a9; a10; a11; a12; a13; a14] 0))]) with
    ([once a0 a1; once a1 a2; once a2 a3; once a3 a4; once a4 a5; once a5 a6; once a6 a7; once a7 a8; once a8 a9; once a9 a10; once a10 a11; once a11 a12; once a12 a13; once a13 a14; once a14 a15] ++ [x]).
  rewrite dbl_is by (first [reflexivity | repeat (apply Forall_cons; [first [exact Hx | apply once_byte]|]); apply Forall_nil]).
  rewrite (twice_is a0 a1 a2), (twice_is a1 a2 a3), (twice_is a2 a3 a4), (twice_is a3 a4 a5), (twice_is a4 a5 a6), (twice_is a5 a6 a7), (twice_is a6 a7 a8), (twice_is a7 a8 a9), (twice_is a8 a9 a10), (twice_is a9 a10 a11), (twice_is a10 a11 a12), (twice_is a11 a12 a13), (twice_is a12 a13 a14), (twice_is a13 a14 a15) by assumption. reflexivity.
Qed.

(** * Blocks *)

Definition whole (b : list Z) : Prop := zlen b = 16 /\ bytes b.

Lemma blocks_nil : blocks [] = [].
Proof. reflexivity. Qed.

Lemma blocks_cons b l : zlen b = 16 -> blocks (b ++ l) = b :: blocks l.
Proof.
  intros Hb. unfold blocks. assert (Hl := zlen_nonneg l). rewrite zlen_app, Hb.
  replace (Z.to_nat ((16 + zlen l + 15) / 16)) with (S (Z.to_nat ((zlen l + 15) / 16))).
  - cbn [blocks_loop]. rewrite <- Hb. now rewrite ztake_app_exact, zdrop_app_exact.
  - replace (16 + zlen l + 15) with (1 * 16 + (zlen l + 15)) by lia. rewrite Z.div_add_l by lia.
    assert (0 <= (zlen l + 15) / 16) by (apply Z.div_pos; lia). lia.
Qed.

Lemma blocks_app p l : zlen p mod 16 = 0 -> blocks (p ++ l) = blocks p ++ blocks l.
Proof.
  intros Hp. remember (Z.to_nat (zlen p / 16)) as n eqn:En. revert p Hp En. induction n as [|n IH]; intros p Hp En.
  - assert (E : zlen p = 0) by (pose proof (zlen_nonneg p); euclid). apply zlen_0_nil in E. now subst p.
  - assert (Hl : 16 <= zlen p) by (pose proof (zlen_nonneg p); euclid). rewrite <- (ztake_zdrop 16 p), <- app_assoc.
    assert (Ht : zlen (ztake 16 p) = 16) by (rewrite zlen_ztake; lia). 
    rewrite (blocks_cons (ztake 16 p) (zdrop 16 p ++ l)), (blocks_cons (ztake 16 p) (zdrop 16 p)) by exact Ht. cbn [app]. f_equal.
    apply IH; rewrite zlen_zdrop; euclid.
Qed.

Lemma blocks_one b : 0 < zlen b <= 16 -> blocks b = [b].
Proof.
  intros Hb. unfold blocks. replace ((zlen b + 15) / 16) with 1 by euclid. change (Z.to_nat 1) with 1%nat. cbn [blocks_loop].
  now rewrite ztake_all by lia.
Qed.

Lemma concat_blocks p : zlen p mod 16 = 0 -> bytes p -> List.concat (blocks p) = p /\ Forall whole (blocks p).
Proof.
  intros Hp. remember (Z.to_nat (zlen p / 16)) as n eqn:En. revert p Hp En. induction n as [|n IH]; intros p Hp En Hb.
  - assert (E : zlen p = 0) by (pose proof (zlen_nonneg p); euclid). apply zlen_0_nil in E. subst p. split; [reflexivity|constructor].
  - assert (Hl : 16 <= zlen p) by (pose proof (zlen_nonneg p); euclid).
    assert (Ht : zlen (ztake 16 p) = 16) by (rewrite zlen_ztake; lia).
    rewrite <- (ztake_zdrop 16 p). rewrite blocks_cons by exact Ht. cbn [List.concat].
    destruct (IH (zdrop 16 p)) as [H1 H2]; [rewrite zlen_zdrop; euclid|rewrite zlen_zdrop; euclid|now apply bytes_zdrop|].
    split; [now rewrite H1|]. constructor; [split; [exact Ht|now apply bytes_ztake]|exact H2].
Qed.

Lemma zlen_xor a b : zlen (xor_bytes a b) = Z.min (zlen a) (zlen b).
Proof. unfold xor_bytes, zlen. rewrite length_map, length_combine. lia. Qed.

Lemma whole_xor a b : whole a -> whole b -> whole (xor_bytes a b).
Proof.
  intros [Ha Ba] [Hb Bb]. split; [rewrite zlen_xor; lia|]. unfold xor_bytes. apply Forall_map.
  apply Forall_forall. intros [x y] Hin. apply lxor_byte; [apply in_combine_l in Hin|apply in_combine_r in Hin];
    [eapply Forall_forall in Ba|eapply Forall_forall in Bb]; eauto.
Qed.

Lemma zget_xor a b i x y : zget a i = Some x -> zget b i = Some y -> zget (xor_bytes a b) i = Some (Z.lxor x y).
Proof.
  unfold zget, xor_bytes. destruct (i <? 0); [easy|]. revert a b. induction (Z.to_nat i) as [|n IH]; intros [|u a] [|v b]; cbn; try easy.
  - now intros [= ->] [= ->].
  - apply IH.
Qed.

(** Exclusive or in place. *)
Lemma xor_at_is off src l : whole src -> 0 <= off -> off + 16 <= zlen l -> bytes l ->
  xor_at off 16 src l = ztake off l ++ xor_bytes (zslice l off (off + 16)) src ++ zdrop (off + 16) l.
Proof.
  intros [Hs Bs] Ho Hl Hb.
  assert (H : forall n : nat, (n <= 16)%nat ->
    let l' := fold_left (fun dst i => zset dst (off + i) (toUint8 (zgetd dst (off + i) .^ zgetd src i)%js)) (upto (Z.of_nat n)) l in
    zlen l' = zlen l /\
    forall i, zget l' i = if (off <=? i) && (i <? off + Z.of_nat n) then Some (Z.lxor (zgetd l i) (zgetd src (i - off))) else zget l i).
  { induction n as [|n IH]; intros Hn.
    - split; [reflexivity|]. intros i. destruct (Z.leb_spec off i), (Z.ltb_spec i (off + Z.of_nat 0)); try lia; reflexivity.
    - replace (Z.of_nat (S n)) with (Z.of_nat n + 1) by lia. rewrite upto_succ, fold_left_app by lia. cbn [fold_left].
      destruct IH as [IH1 IH2]; [lia|]. set (l1 := fold_left _ _ l) in *. cbv zeta. split; [now rewrite zlen_zset|].
      assert (E : zgetd l1 (off + Z.of_nat n) = zgetd l (off + Z.of_nat n)).
      { unfold zgetd. rewrite IH2. destruct (Z.leb_spec off (off + Z.of_nat n)), (Z.ltb_spec (off + Z.of_nat n) (off + Z.of_nat n)); try lia; reflexivity. }
      rewrite E, bxor_bytes by (now apply bytes_zgetd). intros i. destruct (Z.eq_dec i (off + Z.of_nat n)) as [->|Hne].
      + rewrite zget_zset_eq by lia. replace (off + Z.of_nat n - off) with (Z.of_nat n) by lia.
        destruct (Z.leb_spec off (off + Z.of_nat n)), (Z.ltb_spec (off + Z.of_nat n) (off + (Z.of_nat n + 1))); try lia; reflexivity.
      + rewrite zget_zset_ne by lia. rewrite IH2.
        destruct (Z.leb_spec off i), (Z.ltb_spec i (off + Z.of_nat n)), (Z.ltb_spec i (off + (Z.of_nat n + 1))); try lia; reflexivity. }
  destruct (H 16%nat ltac:(lia)) as [H1 H2]. change (Z.of_nat 16) with 16 in *. unfold xor_at. set (l' := fold_left _ _ l) in *.
  assert (Hz : zlen (zslice l off (off + 16)) = 16) by (rewrite zlen_zslice; lia).
  assert (Hx : zlen (xor_bytes (zslice l off (off + 16)) src) = 16) by (rewrite zlen_xor, Hz; lia).
  apply zget_ext; [rewrite H1, !zlen_app, Hx, zlen_ztake, zlen_zdrop; lia|]. intros i Hi. rewrite H1 in Hi. rewrite H2.
  destruct (Z.leb_spec off i) as [Hoi|Hoi]; cbn [andb].
  2:{ rewrite zget_app_l by (rewrite zlen_ztake; lia). now rewrite zget_ztake. }
  rewrite zget_app_r by (rewrite zlen_ztake; lia). rewrite zlen_ztake. replace (Z.min (Z.max 0 off) (zlen l)) with off by lia.
  destruct (Z.ltb_spec i (off + 16)) as [Hi16|Hi16].
  - rewrite zget_app_l by lia. destruct (zget_some l i Hi) as [u Eu]. destruct (zget_some src (i - off) ltac:(lia)) as [v Ev].
    unfold zgetd. rewrite Eu, Ev. symmetry. apply zget_xor; [|exact Ev]. unfold zslice. rewrite zget_ztake by lia.
    rewrite zget_zdrop by lia. now replace (off + (i - off)) with i by lia.
  - rewrite zget_app_r by lia. rewrite Hx, zget_zdrop by lia. f_equal. lia.
Qed.

(** * The chain *)

Section Chain.
Variable E : list Z -> list Z.
Hypothesis E_whole : forall b, whole b -> whole (E b).

Lemma cbc_app iv bs cs : cbc E iv (bs ++ cs) = cbc E iv bs ++ cbc E (last (cbc E iv bs) iv) cs.
Proof.
  revert iv. induction bs as [|b bs IH]; intros iv; [reflexivity|]. cbn [app cbc]. rewrite IH. cbn [app]. f_equal. f_equal.
  f_equal. set (c := E (xor_bytes iv b)). destruct (cbc E c bs) as [|d ds] eqn:Ed; [reflexivity|].
  change (last (d :: ds) c = last (d :: ds) iv). clear. revert d. induction ds as [|d' ds IH]; intros d; [reflexivity|apply IH].
Qed.

Lemma cbc_whole bs : forall iv, whole iv -> Forall whole bs -> Forall whole (cbc E iv bs).
Proof.
  induction bs as [|b bs IH]; intros iv Hiv Hb; [constructor|]. inversion_clear Hb. cbn [cbc].
  assert (whole (E (xor_bytes iv b))) by now apply E_whole, whole_xor. constructor; [assumption|now apply IH].
Qed.

Lemma last_whole bs iv : whole iv -> Forall whole bs -> whole (last bs iv).
Proof. intros Hiv Hb. induction Hb as [|b bs Hb Hbs IH]; [exact Hiv|]. destruct bs; [exact Hb|exact IH]. Qed.

Lemma last_whole_of bs b : Forall whole (cbc E bs b) -> b <> [] -> whole (last (cbc E bs b) []).
Proof.
  intros Hw Hb. destruct b as [|x b]; [easy|]. cbn [cbc] in *. inversion_clear Hw as [|? ? H1 H2].
  change (whole (last (E (xor_bytes bs x) :: cbc E (E (xor_bytes bs x)) b) [])). 
  assert (Hl : forall l c0, whole c0 -> Forall whole l -> whole (last (c0 :: l) [])).
  { induction l as [|d l IH]; intros c0 Hc Hl; [exact Hc|]. inversion_clear Hl. now apply IH. }
  now apply Hl.
Qed.

(** The block before the last of the output. *)
Lemma second_last bs x y iv : whole iv -> Forall whole bs -> whole x -> whole y ->
  let out := List.concat (cbc E iv (bs ++ [x; y])) in
  zslice out (zlen out - 32) (zlen out - 16) = last (cbc E iv (bs ++ [x])) [].
Proof.
  intros Hiv Hb Hx Hy. cbv zeta. rewrite !cbc_app. set (iv' := last (cbc E iv bs) iv).
  assert (Hiv' : whole iv') by (apply last_whole; [exact Hiv|now apply cbc_whole]). cbn [cbc].
  assert (H1 : whole (E (xor_bytes iv' x))) by now apply E_whole, whole_xor.
  assert (H2 : whole (E (xor_bytes (E (xor_bytes iv' x)) y))) by now apply E_whole, whole_xor.
  set (u := E (xor_bytes iv' x)) in *. set (v := E (xor_bytes u y)) in *. rewrite last_last, concat_app. cbn [List.concat].
  rewrite app_nil_r, !zlen_app, (proj1 H1), (proj1 H2). set (p := List.concat (cbc E iv bs)).
  unfold zslice. replace (zlen p + (16 + 16) - 32) with (zlen p) by lia. rewrite zdrop_app_exact.
  replace (zlen p + (16 + 16) - 16 - zlen p) with (zlen u) by (rewrite (proj1 H1); lia). apply ztake_app_exact.
Qed.
End Chain.

(** * CMAC *)

Section Cmac.
Context `{WebCryptoOk}.
Variable key : list Z.
Abbreviation c := (_importKey key).

Lemma aes_whole b : whole b -> whole (aes key b).
Proof. intros [H1 H2]. now apply aes_block. Qed.

Lemma dbl_whole l : whole (dbl l).
Proof. split; [apply zlen_be_bytes|apply be_bytes_bytes]. Qed.

Lemma zero_whole : whole (zrep 16 0).
Proof. split; [reflexivity|]. apply bytes_zrep. unfold is_byte. lia. Qed.

Lemma fill_both n prefix data : zlen prefix = 16 -> 16 + zlen data <= n ->
  zblit (zblit (zrep n 0) 0 prefix) 16 data = (prefix ++ data) ++ zrep (n - 16 - zlen data) 0.
Proof.
  intros Hp Hn. assert (Hd := zlen_nonneg data). replace n with (16 + (zlen data + (n - 16 - zlen data))) at 1 by lia.
  rewrite !zrep_add by lia. set (z := zrep (n - 16 - zlen data) 0). unfold zblit. rewrite (ztake_nonpos 0) by lia. cbn [app].
  change (0 + zlen prefix) with (zlen prefix). rewrite Hp. rewrite zdrop_app, zdrop_all by (rewrite zlen_zrep; lia). cbn [app].
  rewrite zlen_zrep. change (16 - Z.max 0 16) with 0. rewrite zdrop_nonpos by lia.
  rewrite <- Hp at 1. rewrite ztake_app_exact. rewrite zdrop_app, zdrop_all by lia. cbn [app].
  replace (16 + zlen data - zlen prefix) with (zlen data) by lia.
  rewrite zdrop_app, zdrop_all by (rewrite zlen_zrep; lia). cbn [app]. rewrite zlen_zrep.
  rewrite zdrop_nonpos by lia. now rewrite app_assoc.
Qed.

(** The chain over whole blocks, the last of them prepared. *)
Lemma mac_of p x : zlen p mod 16 = 0 -> bytes p -> whole x ->
  let out := cbc_encrypt key (zrep 16 0) (p ++ x) in
  zslice out (zlen out - 32) (zlen out - 16) = last (cbc (aes key) (zrep 16 0) (blocks p ++ [x])) [].
Proof.
  intros Hp Hb [Hx Bx]. rewrite cbc_is; [|reflexivity|apply zero_whole|now apply bytes_app].
  assert (E : blocks (pkcs7 (p ++ x)) = blocks p ++ [x; zrep 16 16]).
  { unfold pkcs7. replace (zlen (p ++ x) mod 16) with 0 by (rewrite zlen_app, Hx; euclid). change (16 - 0) with 16.
    rewrite <- app_assoc, blocks_app by exact Hp. now rewrite blocks_cons by exact Hx. }
  rewrite E. apply (second_last (aes key) aes_whole); [apply zero_whole|now apply concat_blocks|now split|].
  split; [reflexivity|]. apply bytes_zrep. unfold is_byte. lia.
Qed.

Lemma cmac_of p b : zlen p mod 16 = 0 -> 0 < zlen b <= 16 ->
  cmac (aes key) (p ++ b) = last (cbc (aes key) (zrep 16 0) (blocks p ++ [last_block (aes key) b])) [].
Proof.
  intros Hp Hb. unfold cmac. rewrite (blocks_app p b Hp), (blocks_one b Hb). now rewrite removelast_last, last_last.
Qed.

(** The code computes CMAC of the prefix and the data. *)
Lemma computeCMAC_is data prefix : whole prefix -> bytes data ->
  _computeCMAC c data prefix = Some (cmac (aes key) (prefix ++ data)).
Proof.
  intros [Hp Bp] Bd. unfold _computeCMAC. rewrite Hp. cbn [Z.eqb Pos.eqb negb]. assert (Hd := zlen_nonneg data).
  assert (Ek : c = mkCipher key (subkey1 (aes key)) (subkey2 (aes key))) by (unfold _importKey; rewrite subkeys_are; reflexivity).
  rewrite Ek. clear Ek. cbn [_rawKey _k1 _k2]. set (n := zlen data / 16). set (m := (zlen data + 15) / 16).
  assert (Hm : 16 + zlen data <= (m + 1) * 16) by (unfold m; pose proof (Z.div_mod (zlen data + 15) 16 ltac:(lia)); pose proof (Z.mod_pos_bound (zlen data + 15) 16 ltac:(lia)); lia).
  rewrite fill_both by assumption.
  set (M := prefix ++ data). assert (Bm : bytes M) by (apply bytes_app; split; assumption). assert (Lm : zlen M = 16 + zlen data) by (unfold M; rewrite zlen_app; lia).
  assert (Hdm := Z.div_mod (zlen data) 16 ltac:(lia)). fold n in Hdm.
  assert (Hmod := Z.mod_pos_bound (zlen data) 16 ltac:(lia)). assert (Hn0 : 0 <= n) by (apply Z.div_pos; lia). f_equal. unfold _zeroBlock.
  destruct (Z.eqb_spec (zlen data - n * 16) 0) as [Er|Er].
  - assert (Em : m = n) by (unfold m, n; euclid). rewrite Em. replace ((n + 1) * 16 - 16 - zlen data) with 0 by lia.
    rewrite app_nil_r, xor_at_is by (try apply dbl_whole; auto; lia). rewrite (zdrop_all (n * 16 + 16)) by lia. rewrite app_nil_r.
    assert (Hl : whole (zslice M (n * 16) (n * 16 + 16))) by (split; [rewrite zlen_zslice; lia|now apply bytes_zslice]).
    rewrite mac_of; [|rewrite zlen_ztake; replace (Z.min _ _) with (n * 16) by lia; apply Z.mod_mul; lia|now apply bytes_ztake|apply whole_xor; [exact Hl|apply dbl_whole]].
    replace M with (ztake (n * 16) M ++ zslice M (n * 16) (n * 16 + 16)) at 3.
    2:{ unfold zslice. rewrite (ztake_all _ (zdrop (n * 16) M)) by (rewrite zlen_zdrop; lia). apply ztake_zdrop. }
    rewrite cmac_of; [|rewrite zlen_ztake; replace (Z.min _ _) with (n * 16) by lia; apply Z.mod_mul; lia|rewrite (proj1 Hl); lia].
    unfold last_block. now rewrite (proj1 Hl).
  - assert (Em : m = n + 1) by (unfold m, n in *; euclid). rewrite Em. set (r := zlen data - n * 16) in *.
    assert (Hr : 0 < r < 16) by (unfold r; lia).
    replace ((n + 1 + 1) * 16 - 16 - zlen data) with (1 + (15 - r)) by lia. rewrite zrep_add by lia. change (zrep 1 0) with [0].
    set (z := zrep (15 - r) 0). assert (Hz : zlen z = 15 - r) by (unfold z; rewrite zlen_zrep; lia).
    assert (Es : zset (M ++ [0] ++ z) ((n + 1) * 16 + r) 128 = M ++ [128] ++ z).
    { apply zget_ext; [rewrite zlen_zset, !zlen_app; reflexivity|]. rewrite zlen_zset, !zlen_app. change (zlen [0]) with 1. intros i Hi.
      destruct (Z.eq_dec i ((n + 1) * 16 + r)) as [->|Hne].
      - rewrite zget_zset_eq by (rewrite !zlen_app; change (zlen [0]) with 1; lia). rewrite zget_app_r by lia.
        replace ((n + 1) * 16 + r - zlen M) with 0 by lia. reflexivity.
      - rewrite zget_zset_ne by lia. destruct (Z_lt_le_dec i (zlen M)).
        { now rewrite (zget_app_l M ([0] ++ z)), (zget_app_l M ([128] ++ z)) by lia. }
        rewrite (zget_app_r M ([0] ++ z)), (zget_app_r M ([128] ++ z)) by lia. cbn [app]. rewrite !zget_cons by lia. destruct (Z.eqb_spec (i - zlen M) 0); [lia|reflexivity]. }
    rewrite Es. clear Es. set (p := ztake ((n + 1) * 16) M). set (b := zdrop ((n + 1) * 16) M).
    assert (Ep : zlen p = (n + 1) * 16) by (unfold p; rewrite zlen_ztake; lia).
    assert (Eb : zlen b = r) by (unfold b; rewrite zlen_zdrop; lia).
    assert (Bb : bytes b) by now apply bytes_zdrop. assert (Bpp : bytes p) by now apply bytes_ztake.
    assert (Hx : whole (b ++ [128] ++ z)).
    { split; [rewrite !zlen_app, Eb, Hz; change (zlen [128]) with 1; lia|]. rewrite !bytes_app. repeat split; [exact Bb| |].
      - apply Forall_cons; [unfold is_byte; lia|apply Forall_nil].
      - apply bytes_zrep. unfold is_byte. lia. }
    replace (M ++ [128] ++ z) with (p ++ (b ++ [128] ++ z)) by (unfold p, b; now rewrite app_assoc, ztake_zdrop).
    rewrite xor_at_is; [|apply dbl_whole|lia|rewrite zlen_app, (proj1 Hx); lia|apply bytes_app; split; [exact Bpp|apply Hx]].
    rewrite <- Ep. rewrite ztake_app_exact, zslice_end by apply Hx.
    rewrite (zdrop_all (zlen p + 16)) by (rewrite zlen_app, (proj1 Hx); lia). rewrite app_nil_r.
    assert (Hp16 : zlen p mod 16 = 0) by (rewrite Ep; apply Z.mod_mul; lia).
    rewrite (mac_of p _ Hp16 Bpp (whole_xor _ (subkey2 (aes key)) Hx (dbl_whole _))).
    replace M with (p ++ b) by (unfold p, b; apply ztake_zdrop). rewrite cmac_of by (auto; lia).
    unfold last_block. rewrite Eb. destruct (Z.eqb_spec r 16); [lia|]. reflexivity.
Qed.

Lemma cmac_whole l : 0 < zlen l -> bytes l -> whole (cmac (aes key) l).
Proof.
  intros Hl Hb. set (k := (zlen l - 1) / 16 * 16). assert (Hk : k <= zlen l - 1 < k + 16 /\ 0 <= k /\ k mod 16 = 0).
  { assert (Hd := Z.div_mod (zlen l - 1) 16 ltac:(lia)). assert (Hm := Z.mod_pos_bound (zlen l - 1) 16 ltac:(lia)).
    assert (0 <= (zlen l - 1) / 16) by (apply Z.div_pos; lia). unfold k. repeat split; try lia. apply Z.mod_mul. lia. }
  assert (Hp : zlen (ztake k l) = k) by (rewrite zlen_ztake; lia). assert (Hz : zlen (zdrop k l) = zlen l - k) by (rewrite zlen_zdrop; lia).
  rewrite <- (ztake_zdrop k l), cmac_of by (rewrite ?Hp, ?Hz; lia). apply last_whole_of; [apply (cbc_whole (aes key) aes_whole); [apply zero_whole|]|now destruct (blocks (ztake k l))].
  apply Forall_app. split; [apply concat_blocks; [rewrite Hp; lia|now apply bytes_ztake]|]. constructor; [|constructor].
  unfold last_block. destruct (Z.eqb_spec (zlen (zdrop k l)) 16) as [E|E].
  - apply whole_xor; [split; [exact E|now apply bytes_zdrop]|apply dbl_whole].
  - apply whole_xor; [|apply dbl_whole]. split.
    + rewrite !zlen_app, zlen_zrep. change (zlen [128]) with 1. lia.
    + rewrite !bytes_app. repeat split; [now apply bytes_zdrop|apply Forall_cons; [unfold is_byte; lia|apply Forall_nil]|].
      apply bytes_zrep. unfold is_byte. lia.
Qed.

Lemma omac_whole t l : is_byte t -> bytes l -> whole (omac (aes key) t l).
Proof.
  intros Ht Hl. assert (Hn := zlen_nonneg l). apply cmac_whole.
  - rewrite !zlen_app. change (zlen (zrep 15 0)) with 15. change (zlen [t]) with 1. lia.
  - rewrite !bytes_app. repeat split; [apply bytes_zrep; unfold is_byte; lia|apply Forall_cons; [exact Ht|apply Forall_nil]|exact Hl].
Qed.

(** The three codes of EAX. *)
Lemma omac_is t l : is_byte t -> bytes l -> _computeCMAC c l (zrep 15 0 ++ [t]) = Some (omac (aes key) t l).
Proof.
  intros Ht Hl. rewrite computeCMAC_is; [unfold omac; now rewrite <- app_assoc| |exact Hl]. split; [reflexivity|].
  apply bytes_app. split; [apply bytes_zrep; unfold is_byte; lia|]. apply Forall_cons; [exact Ht|apply Forall_nil].
Qed.

Lemma zgetd_xor a b i : whole a -> whole b -> 0 <= i < 16 -> zgetd (xor_bytes a b) i = Z.lxor (zgetd a i) (zgetd b i).
Proof.
  intros [Ha _] [Hb _] Hi. unfold zgetd. destruct (zget_some a i ltac:(lia)) as [u Eu]. destruct (zget_some b i ltac:(lia)) as [v Ev].
  now rewrite (zget_xor _ _ _ _ _ Eu Ev), Eu, Ev.
Qed.

Lemma join_xor mac n h : whole n -> whole h -> join_macs mac n h = xor_at 0 16 (xor_bytes n h) mac.
Proof.
  intros Hn Hh. unfold join_macs, xor_at. apply fold_ext. intros a k Hk. rewrite in_upto in Hk.
  rewrite Z.add_0_l, zgetd_xor by assumption. f_equal. f_equal. unfold bxor at 1 3. f_equal. f_equal. unfold bxor.
  pose proof (bytes_zgetd h k (proj2 Hh)) as Bh. pose proof (bytes_zgetd n k (proj2 Hn)) as Bn. unfold is_byte in *.
  now rewrite !toInt32_small by lia.
Qed.

Lemma join_is mac n h : whole mac -> whole n -> whole h -> join_macs mac n h = xor_bytes mac (xor_bytes n h).
Proof.
  intros Hm Hn Hh. rewrite join_xor by assumption. assert (Hl := proj1 Hm).
  rewrite (xor_at_is 0 _ mac (whole_xor n h Hn Hh) (Z.le_refl 0) ltac:(lia) (proj2 Hm)).
  rewrite (ztake_nonpos 0), (zdrop_all (0 + 16)) by lia. rewrite app_nil_r, app_nil_l.
  unfold zslice. now rewrite zdrop_nonpos, ztake_all by lia.
Qed.

Lemma xor_comm a b : xor_bytes a b = xor_bytes b a.
Proof. unfold xor_bytes. revert b. induction a as [|x a IH]; intros [|y b]; [reflexivity..|]. cbn [combine map]. now rewrite IH, Z.lxor_comm. Qed.

(** The tag of EAX. *)
Definition tag (header nonce encrypted : list Z) : list Z :=
  xor_bytes (xor_bytes (omac (aes key) 0 nonce) (omac (aes key) 1 header)) (omac (aes key) 2 encrypted).

Lemma tag_whole header nonce encrypted : bytes header -> bytes nonce -> bytes encrypted -> whole (tag header nonce encrypted).
Proof. intros. repeat apply whole_xor; apply omac_whole; auto; unfold is_byte; lia. Qed.

Lemma prefixes : _prefixBlock0 = zrep 15 0 ++ [0] /\ _prefixBlock1 = zrep 15 0 ++ [1] /\ _prefixBlock2 = zrep 15 0 ++ [2].
Proof. repeat split; reflexivity. Qed.

Lemma encrypt_is header nonce message : bytes header -> bytes nonce -> bytes message ->
  encrypt c header nonce message = Some (eax key header nonce message).
Proof.
  intros Hh Hn Hm. unfold encrypt. destruct prefixes as (-> & -> & ->). assert (B : forall t, 0 <= t < 3 -> is_byte t) by (unfold is_byte; lia).
  rewrite omac_is by (auto; apply B; lia). unfold _encryptCTR. assert (Ek : _rawKey c = key) by (unfold _importKey; now destruct (_initCMAC key)).
  rewrite Ek. set (N := omac (aes key) 0 nonce). set (C := ctr_encrypt key N message).
  assert (HC : bytes C) by now apply ctr_bytes. rewrite !omac_is by (auto; apply B; lia).
  assert (HN : whole N) by (apply omac_whole; auto; apply B; lia).
  rewrite join_is by (try exact HN; apply omac_whole; auto; apply B; lia). f_equal. unfold eax. fold N. fold C.
  rewrite (xor_comm (omac (aes key) 2 C)). set (T := xor_bytes _ _). assert (HT : zlen T = 16).
  { apply tag_whole; auto. }
  assert (HC0 := zlen_nonneg C). replace (16 + zlen C) with (zlen C + 16) by lia. rewrite zrep_add by lia. unfold zblit.
  rewrite (ztake_nonpos 0) by lia. rewrite app_nil_l, Z.add_0_l, zdrop_app, zdrop_all by (rewrite zlen_zrep; lia).
  rewrite app_nil_l, zlen_zrep. replace (zlen C - Z.max 0 (zlen C)) with 0 by lia. rewrite zdrop_nonpos by lia.
  rewrite ztake_app_exact. rewrite zdrop_all by (rewrite zlen_app, zlen_zrep; lia). now rewrite app_nil_r.
Qed.

(** Opening a message: the tag decides. *)
Lemma decrypt_is header nonce C T : bytes header -> bytes nonce -> bytes C -> zlen T = 16 ->
  decrypt c header nonce (C ++ T) =
    if list_eq_dec Z.eq_dec T (tag header nonce C) then Some (ctr_decrypt key (omac (aes key) 0 nonce) C) else None.
Proof.
  intros Hh Hn HC HT. unfold decrypt. assert (HC0 := zlen_nonneg C). assert (B : forall t, 0 <= t < 3 -> is_byte t) by (unfold is_byte; lia).
  assert (E1 : slice_to_end (C ++ T) 16 = C).
  { unfold slice_to_end. rewrite zlen_app, HT. destruct (Z.ltb_spec (zlen C + 16 - 16) 0); [lia|].
    replace (zlen C + 16 - 16) with (zlen C) by lia. apply ztake_app_exact. }
  assert (E2 : slice_from (C ++ T) (zlen (C ++ T) - 16) = T).
  { unfold slice_from. rewrite zlen_app, HT. destruct (Z.ltb_spec (zlen C + 16 - 16) 0); [lia|].
    replace (zlen C + 16 - 16) with (zlen C) by lia. apply zdrop_app_exact. }
  rewrite E1, E2. destruct prefixes as (-> & -> & ->). rewrite !omac_is by (auto; apply B; lia).
  assert (Ek : _rawKey c = key) by (unfold _importKey; now destruct (_initCMAC key)). unfold _decryptCTR. rewrite Ek.
  rewrite join_is by (apply omac_whole; auto; apply B; lia). rewrite (xor_comm (omac (aes key) 2 C)).
  change (xor_bytes (xor_bytes (omac (aes key) 0 nonce) (omac (aes key) 1 header)) (omac (aes key) 2 C)) with (tag header nonce C).
  destruct (tag_whole header nonce C Hh Hn HC) as [Lt _]. set (T' := tag header nonce C) in *. rewrite Lt, HT. cbn [Z.eqb Pos.eqb negb].
  destruct (list_eq_dec Z.eq_dec T T') as [->|Hne].
  - replace (forallb _ _) with true; [reflexivity|]. symmetry. apply forallb_forall. intros i _. apply Z.eqb_refl.
  - destruct (forallb _ _) eqn:Ef; [|reflexivity]. exfalso. apply Hne. apply zget_ext; [lia|]. intros i Hi. rewrite HT in Hi.
    assert (Ei := forall_upto _ 16 Ef i Hi). cbv beta in Ei. apply Z.eqb_eq in Ei. unfold zgetd in Ei.
    destruct (zget_some T i ltac:(lia)) as [u Eu]. destruct (zget_some T' i ltac:(lia)) as [v Ev]. rewrite Eu, Ev in *. congruence.
Qed.

Lemma decrypt_short header nonce data : bytes header -> bytes nonce -> bytes data -> zlen data < 16 -> decrypt c header nonce data = None.
Proof.
  intros Hh Hn Hd Hl. unfold decrypt. destruct prefixes as (-> & -> & ->). assert (B : forall t, 0 <= t < 3 -> is_byte t) by (unfold is_byte; lia).
  assert (Hs : bytes (slice_to_end data 16)) by now apply bytes_ztake. rewrite !omac_is by (auto; apply B; lia).
  rewrite join_is by (apply omac_whole; auto; apply B; lia).
  assert (Hj : zlen (xor_bytes (omac (aes key) 2 (slice_to_end data 16)) (xor_bytes (omac (aes key) 0 nonce) (omac (aes key) 1 header))) = 16)
    by (repeat apply whole_xor; apply omac_whole; auto; apply B; lia).
  rewrite Hj. destruct (Z.eqb_spec 16 (zlen (slice_from data (zlen data - 16)))) as [E|E]; [|reflexivity].
  unfold slice_from in E. assert (Hz := zlen_zdrop (if zlen data - 16 <? 0 then Z.max 0 (zlen data + (zlen data - 16)) else zlen data - 16) data).
  rewrite Hz in E. lia.
Qed.
End Cmac.

(** C21.  The AES-EAX of the code is EAX with CMAC, on every message, header and
    nonce. *)
Theorem eax_is_standard `{WebCryptoOk} key header nonce message : bytes header -> bytes nonce -> bytes message ->
  encrypt (_importKey key) header nonce message = Some (eax key header nonce message).
Proof. apply encrypt_is. Qed.

Lemma decrypt_eax `{WebCryptoOk} key header nonce message : bytes header -> bytes nonce -> bytes message ->
  decrypt (_importKey key) header nonce (eax key header nonce message) = Some message.
Proof.
  intros Hh Hn Hm. unfold eax. set (C := ctr_encrypt _ _ _). assert (HC : bytes C) by now apply ctr_bytes.
  destruct (tag_whole key header nonce C Hh Hn HC) as [Lt _]. rewrite (decrypt_is key header nonce C _ Hh Hn HC Lt).
  destruct (list_eq_dec Z.eq_dec _ _) as [_|Hne]; [|now destruct Hne]. f_equal.
  destruct (omac_whole key 0 nonce) as [L0 B0]; [unfold is_byte; lia|exact Hn|]. now apply ctr_inverse.
Qed.

Lemma eax_shape `{WebCryptoOk} key header nonce message : bytes header -> bytes nonce -> bytes message ->
  zlen (eax key header nonce message) = zlen message + 16 /\ bytes (eax key header nonce message).
Proof.
  intros Hh Hn Hm. unfold eax. set (C := ctr_encrypt _ _ _). assert (HC : bytes C) by now apply ctr_bytes.
  destruct (tag_whole key header nonce C Hh Hn HC) as [Lt Bt]. unfold tag in Lt, Bt.
  split; [rewrite zlen_app, Lt; unfold C; now rewrite ctr_length|apply bytes_app; auto].
Qed.

(** What was encrypted is decrypted to itself under the same key, header and
    nonce; and whatever data is accepted carries, behind its ciphertext, the
    tag that belongs to it, so a change of the data, the header or the nonce
    that does not hit the tag is refused. *)
Theorem eax_opens `{WebCryptoOk} key header nonce : bytes header -> bytes nonce ->
  (forall message, bytes message ->
    decrypt (_importKey key) header nonce (eax key header nonce message) = Some message) /\
  (forall data message, bytes data -> decrypt (_importKey key) header nonce data = Some message ->
    exists encrypted, data = encrypted ++ tag key header nonce encrypted).
Proof.
  intros Hh Hn. split.
  - intros message Hm. now apply decrypt_eax.
  - intros data message Hd E. destruct (Z_lt_le_dec (zlen data) 16) as [Hl|Hl].
    { now rewrite decrypt_short in E. }
    rewrite <- (ztake_zdrop (zlen data - 16) data) in E |- *. exists (ztake (zlen data - 16) data). f_equal.
    rewrite decrypt_is in E; [|exact Hh|exact Hn|now apply bytes_ztake|rewrite zlen_zdrop; lia].
    destruct (list_eq_dec Z.eq_dec _ _) as [Et|_]; [exact Et|easy].
Qed.

(** A cipher that is no secret, for examples. *)
Definition toy_mask (k b : list Z) : list Z := map (fun x => Z.lxor x (zgetd k 0 mod 256)) b.

Definition toy : WebCrypto := {|
  cbc_encrypt key iv data := List.concat (cbc (toy_mask key) iv (blocks (pkcs7 data)));
  ctr_encrypt key c data := toy_mask c data;
  ctr_decrypt key c data := toy_mask c data
|}.

Lemma toy_bytes k b : bytes b -> bytes (toy_mask k b).
Proof.
  intros Hb. unfold toy_mask. apply Forall_map. eapply Forall_impl; [|exact Hb]. intros x Hx.
  apply lxor_byte; [exact Hx|]. apply Z.mod_pos_bound. lia.
Qed.

Lemma toy_length k b : zlen (toy_mask k b) = zlen b.
Proof. unfold toy_mask, zlen. now rewrite length_map. Qed.

Definition toy_ok : @WebCryptoOk toy.
Proof.
  refine (@Build_WebCryptoOk toy toy_mask _ _ _ _ _).
  - intros key b Hl Hb. split; [now rewrite toy_length|now apply toy_bytes].
  - intros key iv data _ _ _. reflexivity.
  - intros key c data. apply toy_length.
  - intros key c data. apply toy_bytes.
  - intros key c data _ _ _. unfold ctr_decrypt, ctr_encrypt, toy, toy_mask. rewrite map_map.
    rewrite <- (map_id data) at 2. apply map_ext. intros x. now rewrite Z.lxor_assoc, Z.lxor_nilpotent, Z.lxor_0_r.
Defined.

Lemma eax_is_standard_witness :
  @encrypt toy (@_importKey toy [7; 1]) [0; 3] (zrep 16 0) [1; 2; 3] = Some (@eax toy toy_ok [7; 1] [0; 3] (zrep 16 0) [1; 2; 3]) /\
  zlen (@eax toy toy_ok [7; 1] [0; 3] (zrep 16 0) [1; 2; 3]) = 19.
Proof.
  split; [|vm_compute; reflexivity].
  apply (@eax_is_standard toy toy_ok [7; 1] [0; 3] (zrep 16 0) [1; 2; 3]); apply bytes_reflect; reflexivity.
Defined.

Lemma eax_opens_witness :
  @decrypt toy (@_importKey toy [7; 1]) [0; 3] (zrep 16 0) (@eax toy toy_ok [7; 1] [0; 3] (zrep 16 0) [1; 2; 3]) = Some [1; 2; 3] /\
  @decrypt toy (@_importKey toy [7; 1]) [0; 4] (zrep 16 0) (@eax toy toy_ok [7; 1] [0; 3] (zrep 16 0) [1; 2; 3]) = None.
Proof.
  split; [|vm_compute; reflexivity].
  apply (@eax_opens toy toy_ok [7; 1] [0; 3] (zrep 16 0)); apply bytes_reflect; reflexivity.
Defined.
