(* ===== verification/Rsa.v ===== *)
(** RSA encryption with PKCS #1 v1.5 padding, core/crypto/rsa.js.

    Key pairs are generated by the browser, which exports them as a JSON web
    key: three numbers in base64url.  The theorem: what a key
    encrypts it decrypts. *)

From Stdlib Require Import ZArith List Lia Bool String.
From S2P Require Import Prelude Sink Base64 Bigint.
Import ListNotations JS JSFacts Bigint.Bigint.
Open Scope Z_scope.
Open Scope code_scope.

Module Rsa.

(** A field that is null is None. *)
Record rsa := mkRsa {
  _keyLength : Z;
  _keyBytes : Z;
  _n : option (list Z);
  _e : option (list Z);
  _d : option (list Z);
  _nBigInt : option Z;
  _eBigInt : option Z;
  _dBigInt : option Z;
  _extractable : bool
}.

Definition constructor : rsa := mkRsa 0 0 None None None None None None false.

(** [data.replace(/-/g, "+").replace(/_/g, "/")], padded with [=]. *)
Definition _base64urlDecode (data : list Z) : outcome (list (option Z)) :=
  let data := map (fun c => if c =? 45 then 43 else c) data in
  let data := map (fun c => if c =? 95 then 47 else c) data in
  let data := data ++ zrep ((zlen data + 3) / 4 * 4 - zlen data) 61 in
  Base64.decode data 0.

(** An array element never assigned is undefined and is stored as zero; [set]
    with a negative offset throws. *)
Definition _padArray (arr : list (option Z)) (length : Z) : outcome (list Z) :=
  if length <? zlen arr then Throw "RangeError"
  else Ret (zblit (zrep length 0) (length - zlen arr)
    (map (fun v => match v with Some v => toUint8 v | None => 0 end) arr)).

(** The key that [subtle.generateKey] and [exportKey] give. *)
Record jwk := Jwk { jwk_n : list Z; jwk_e : list Z; jwk_d : list Z }.

Definition _generateKey (modulusLength : Z) (extractable : bool) (key : jwk) : outcome rsa :=
  let keyBytes := (modulusLength + 7) / 8 in
  let number s k := obind (_base64urlDecode s) (fun a => obind (_padArray a keyBytes) (fun b => obind (u8ArrayToBigInt b) (k b))) in
  number (jwk_n key) (fun n nBig =>
  number (jwk_e key) (fun e eBig =>
  number (jwk_d key) (fun d dBig =>
  Ret (mkRsa modulusLength keyBytes (Some n) (Some e) (Some d) (Some nBig) (Some eBig) (Some dBig) extractable)))).

Definition _importKey (n e : list Z) (extractable : bool) : outcome rsa :=
  if negb (zlen n =? zlen e) then Throw "the sizes of modulus and public exponent do not match"
  else
    obind (u8ArrayToBigInt n) (fun nBig =>
    obind (u8ArrayToBigInt e) (fun eBig =>
    Ret (mkRsa (zlen n * 8) (zlen n) (Some n) (Some e) None (Some nBig) (Some eBig) None extractable))).

(** [Math.floor(p * 254 / 255 + 1)], for each of the random bytes. *)
Definition nonzero (ps : list Z) : list Z := map (fun p => toUint8 (p * 254 / 255 + 1)) ps.

(** The encryption block: 0, 2, the padding, 0, the message. *)
Definition pad (keyBytes : Z) (ps message : list Z) : list Z :=
  let em := zset (zrep keyBytes 0) 1 2 in
  zblit (zblit em 2 ps) (zlen ps + 3) message.

(** [Ret None] is null; [random] is what [getRandomValues] writes; arithmetic
    with a null throws. *)
Definition encrypt (key : rsa) (random message : list Z) : outcome (option (list Z)) :=
  if _keyBytes key - 11 <? zlen message then Ret None
  else
    let em := pad (_keyBytes key) (nonzero random) message in
    obind (u8ArrayToBigInt em) (fun m =>
    match _eBigInt key, _nBigInt key with
    | Some e, Some n => obind (modPow m e n) (fun c => Ret (Some (bigIntToU8Array c (_keyBytes key))))
    | _, _ => Throw "TypeError"
    end).

(** The index of the first zero from [i] on, or the length. *)
Fixpoint find_zero (em : list Z) (i : Z) : Z :=
  match em with
  | [] => i
  | b :: em => if b =? 0 then i else find_zero em (i + 1)
  end.

Definition decrypt (key : rsa) (message : list Z) : outcome (option (list Z)) :=
  if negb (zlen message =? _keyBytes key) then Ret None
  else
    obind (u8ArrayToBigInt message) (fun c =>
    match _dBigInt key, _nBigInt key with
    | Some d, Some n =>
        obind (modPow c d n) (fun m =>
        let em := bigIntToU8Array m (_keyBytes key) in
        if negb (zgetd em 0 =? 0) || negb (zgetd em 1 =? 2) then Ret None
        else
          let i := find_zero (zdrop 2 em) 2 in
          if i =? zlen em then Ret None else Ret (Some (zslice em (i + 1) (zlen em))))
    | _, _ => Throw "TypeError"
    end).

Definition exportKey (key : rsa) : outcome (option (list Z) * option (list Z) * option (list Z)) :=
  if _extractable key then Ret (_n key, _e key, _d key) else Throw "key is not extractable".

(** * The theorems *)

(** The public part of a key of [k] bytes, and the private one. *)
Definition public_part (key : rsa) (k n e : Z) : Prop :=
  _keyBytes key = k /\ _nBigInt key = Some n /\ _eBigInt key = Some e /\ 0 <= e.
Definition private_part (key : rsa) (k n d : Z) : Prop :=
  _keyBytes key = k /\ _nBigInt key = Some n /\ _dBigInt key = Some d /\ 0 <= d.

(** The exponents undo each other, modulo a number of [k] bytes. *)
Definition exponents (k n e d : Z) : Prop :=
  256 ^ (k - 1) <= n < 256 ^ k /\ forall x, 0 <= x < n -> ((x ^ e) mod n) ^ d mod n = x.

Lemma nonzero_ok ps : bytes ps -> Forall (fun b => 1 <= b < 256) (nonzero ps).
Proof.
  intros Hb. unfold nonzero. apply Forall_map. eapply Forall_impl; [|exact Hb]. intros p Hp. unfold is_byte in Hp.
  rewrite toUint8_small by (unfold is_byte; euclid). euclid.
Qed.

Lemma zlen_nonzero ps : zlen (nonzero ps) = zlen ps.
Proof. unfold nonzero, zlen. now rewrite length_map. Qed.

Lemma pad_is k ps message : 3 + zlen ps + zlen message = k -> pad k ps message = [0; 2] ++ ps ++ [0] ++ message.
Proof.
  intros Hk. assert (Hp := zlen_nonneg ps). assert (Hm := zlen_nonneg message). unfold pad.
  replace k with (2 + (zlen ps + (1 + zlen message))) by lia. rewrite !zrep_add by lia.
  set (z1 := zrep (zlen ps) 0). set (z2 := zrep (zlen message) 0).
  assert (H1 : zlen z1 = zlen ps) by (unfold z1; rewrite zlen_zrep; lia). assert (H2 : zlen z2 = zlen message) by (unfold z2; rewrite zlen_zrep; lia).
  assert (E : zset (zrep 2 0 ++ z1 ++ zrep 1 0 ++ z2) 1 2 = [0; 2] ++ z1 ++ [0] ++ z2) by exact (zset_mid [0] (z1 ++ [0] ++ z2) 0 2 1 eq_refl).
  rewrite E. rewrite (zblit_app [0; 2] z1 ([0] ++ z2) ps 2 eq_refl H1).
  replace ([0; 2] ++ ps ++ [0] ++ z2) with (([0; 2] ++ ps ++ [0]) ++ z2 ++ []) by (rewrite app_nil_r; now rewrite <- !app_assoc).
  rewrite (zblit_app ([0; 2] ++ ps ++ [0]) z2 [] message).
  - now rewrite app_nil_r, <- !app_assoc.
  - rewrite !zlen_app. change (zlen [0; 2]) with 2. change (zlen [0]) with 1. lia.
  - exact H2.
Qed.

Lemma find_zero_at ps l i : Forall (fun b => 1 <= b < 256) ps -> find_zero (ps ++ 0 :: l) i = i + zlen ps.
Proof.
  intros Hp. revert i. induction Hp as [|b ps Hb Hp IH]; intros i; cbn [app find_zero]; [cbn; lia|].
  destruct (Z.eqb_spec b 0); [lia|]. rewrite IH, zlen_cons. lia.
Qed.

Lemma block_value k ps message : 3 + zlen ps + zlen message = k -> bytes ps -> bytes message ->
  bytes ([0; 2] ++ ps ++ [0] ++ message) /\ 0 <= be ([0; 2] ++ ps ++ [0] ++ message) < 256 ^ (k - 1).
Proof.
  intros Hk Hp Hm. assert (B : bytes ([2] ++ ps ++ [0] ++ message)).
  { rewrite !bytes_app. repeat split; auto; (apply Forall_cons; [unfold is_byte; lia|apply Forall_nil]). }
  split; [apply Forall_cons; [unfold is_byte; lia|exact B]|].
  change ([0; 2] ++ ps ++ [0] ++ message) with (0 :: ([2] ++ ps ++ [0] ++ message)). rewrite be_cons. assert (Hr := be_range _ B).
  replace (zlen ([2] ++ ps ++ [0] ++ message)) with (k - 1) in * by (rewrite !zlen_app; change (zlen [2]) with 1; change (zlen [0]) with 1; lia). lia.
Qed.

Lemma encrypt_fits key k n e random message : public_part key k n e -> 256 ^ (k - 1) <= n < 256 ^ k ->
  bytes random -> bytes message -> zlen random = k - zlen message - 3 -> zlen message <= k - 11 ->
  encrypt key random message = Ret (Some (be_bytes (Z.to_nat k) ((be ([0; 2] ++ nonzero random ++ [0] ++ message)) ^ e mod n))).
Proof.
  intros (Ek & En & Ee & He) Hn Hr Hm Hl Hs. unfold encrypt. rewrite Ek. destruct (Z.ltb_spec (k - 11) (zlen message)); [lia|].
  assert (Hm0 := zlen_nonneg message). set (ps := nonzero random). assert (Hps : zlen ps = k - zlen message - 3) by (unfold ps; now rewrite zlen_nonzero).
  assert (Bp : bytes ps) by (eapply Forall_impl; [|apply nonzero_ok; exact Hr]; cbv beta; unfold is_byte; lia).
  rewrite pad_is by lia. set (em := [0; 2] ++ ps ++ [0] ++ message).
  destruct (block_value k ps message ltac:(lia) Bp Hm) as [Be Hv]. fold em in Be, Hv.
  rewrite u8ArrayToBigInt_spec by (auto; discriminate). cbn [obind]. rewrite Ee, En.
  assert (Hp2 : 256 <= 256 ^ (k - 1)) by (change 256 with (256 ^ 1) at 1; apply Z.pow_le_mono_r; lia).
  rewrite modPow_run by lia. cbn [obind]. do 2 f_equal. rewrite <- (Z2Nat.id k) at 1 by lia.
  assert (Hc := Z.mod_pos_bound (be em ^ e) n ltac:(lia)). apply bigIntToU8Array_spec; rewrite ?Z2Nat.id; lia.
Qed.

Lemma decrypt_block key k n e d random message : private_part key k n d -> exponents k n e d ->
  bytes random -> bytes message -> zlen random = k - zlen message - 3 -> zlen message <= k - 11 ->
  decrypt key (be_bytes (Z.to_nat k) ((be ([0; 2] ++ nonzero random ++ [0] ++ message)) ^ e mod n)) = Ret (Some message).
Proof.
  intros (Ek & En & Ed & Hd) [Hn Hkey] Hr Hm Hl Hs. assert (Hm0 := zlen_nonneg message). set (ps := nonzero random).
  assert (Hps : zlen ps = k - zlen message - 3) by (unfold ps; now rewrite zlen_nonzero).
  assert (Bp : bytes ps) by (eapply Forall_impl; [|apply nonzero_ok; exact Hr]; cbv beta; unfold is_byte; lia).
  set (em := [0; 2] ++ ps ++ [0] ++ message). destruct (block_value k ps message ltac:(lia) Bp Hm) as [Be Hv]. fold em in Be, Hv.
  assert (Hp2 : 256 <= 256 ^ (k - 1)) by (change 256 with (256 ^ 1) at 1; apply Z.pow_le_mono_r; lia).
  assert (Ekn : Z.of_nat (Z.to_nat k) = k) by lia. set (c := be em ^ e mod n).
  assert (Hc : 0 <= c < n) by (apply Z.mod_pos_bound; lia).
  unfold decrypt. rewrite Ek, zlen_be_bytes, Ekn, Z.eqb_refl. cbn [negb].
  rewrite u8ArrayToBigInt_spec; [|apply be_bytes_bytes|destruct (Z.to_nat k) eqn:Et; [lia|discriminate]]. cbn [obind]. rewrite Ed, En.
  rewrite be_bytes_small by (rewrite Ekn; lia). rewrite modPow_run by lia. cbn [obind]. replace (c ^ d mod n) with (be em) by (symmetry; apply Hkey; lia).
  assert (Hpk : 256 ^ k = 256 * 256 ^ (k - 1)) by (rewrite <- Z.pow_succ_r by lia; f_equal; lia).
  assert (Lem : zlen em = k) by (unfold em; rewrite !zlen_app; change (zlen [0; 2]) with 2; change (zlen [0]) with 1; lia).
  assert (Eem : bigIntToU8Array (be em) k = em).
  { rewrite <- Ekn at 1. rewrite bigIntToU8Array_spec by (rewrite ?Ekn; lia).
    apply be_inj; [apply be_bytes_bytes|exact Be|rewrite zlen_be_bytes; lia|]. apply be_bytes_small. rewrite Ekn. lia. }
  rewrite Eem. change (zgetd em 0) with 0. change (zgetd em 1) with 2. cbn [Z.eqb Pos.eqb negb orb].
  replace (zdrop 2 em) with (ps ++ 0 :: message) by reflexivity. rewrite find_zero_at by (apply nonzero_ok; exact Hr).
  fold ps. destruct (Z.eqb_spec (2 + zlen ps) (zlen em)); [lia|]. do 2 f_equal. unfold em.
  replace ([0; 2] ++ ps ++ [0] ++ message) with (([0; 2] ++ ps ++ [0]) ++ message) by now rewrite <- !app_assoc.
  replace (2 + zlen ps + 1) with (zlen ([0; 2] ++ ps ++ [0])) by (rewrite !zlen_app; change (zlen [0; 2]) with 2; change (zlen [0]) with 1; lia).
  rewrite (zlen_app ([0; 2] ++ ps ++ [0]) message). now apply zslice_end.
Qed.

Lemma encrypt_opens key key' k n e d random message :
  public_part key k n e -> private_part key' k n d -> exponents k n e d ->
  bytes random -> bytes message -> zlen random = k - zlen message - 3 -> zlen message <= k - 11 ->
  exists c, encrypt key random message = Ret (Some c) /\ bytes c /\ zlen c = k /\ decrypt key' c = Ret (Some message).
Proof.
  intros Hp Hq Hx Hr Hm Hl Hs. assert (Hm0 := zlen_nonneg message).
  exists (be_bytes (Z.to_nat k) ((be ([0; 2] ++ nonzero random ++ [0] ++ message)) ^ e mod n)).
  split; [now apply encrypt_fits; destruct Hx|]. split; [apply be_bytes_bytes|]. split; [rewrite zlen_be_bytes; lia|].
  now apply (decrypt_block key' k n e d).
Qed.

(** C22.  What is encrypted with a public key is decrypted to itself with the
    private one; the ciphertext has the length of the key, and a message too
    long for the padding, however long it is, is refused. *)
Theorem rsa_roundtrip key key' k n e d random message :
  public_part key k n e -> private_part key' k n d -> exponents k n e d ->
  bytes random -> bytes message -> (zlen message <= k - 11 -> zlen random = k - zlen message - 3) ->
  if k - 11 <? zlen message then encrypt key random message = Ret None
  else exists c, encrypt key random message = Ret (Some c) /\ bytes c /\ zlen c = k /\ decrypt key' c = Ret (Some message).
Proof.
  intros Hp Hq Hx Hr Hm Hl. destruct (Z.ltb_spec (k - 11) (zlen message)) as [Hlong|Hs].
  - unfold encrypt. destruct Hp as (-> & _). destruct (Z.ltb_spec (k - 11) (zlen message)); [reflexivity|lia].
  - apply (encrypt_opens key key' k n e d); auto.
Qed.

(** * A key whose exponents undo each other

    The modulus is a product of distinct primes, for which this is checked one
    residue at a time. *)
Definition sample_primes : list Z := [3; 5; 7; 13; 17; 19; 37; 73; 97; 109; 163; 193; 257; 433; 577; 769].
Definition sample_n : Z := fold_right Z.mul 1 sample_primes.
Definition sample_e : Z := 5.
Definition sample_d : Z := 16589.

Lemma coprime_divides a b c : Z.gcd a b = 1 -> (a | c) -> (b | c) -> (a * b | c).
Proof.
  intros Hg [q ->] Hb. rewrite Z.mul_comm in Hb. apply Z.gauss in Hb; [|now rewrite Z.gcd_comm].
  destruct Hb as [r ->]. exists r. ring.
Qed.

Definition residues_ok (p : Z) : bool :=
  (1 <? p) && forallb (fun x => match modPow x (sample_e * sample_d) p with Ret y => y =? x | _ => false end) (upto p).

Lemma residue p x : residues_ok p = true -> (p | x ^ (sample_e * sample_d) - x).
Proof.
  intros H. apply andb_prop in H as [Hp H]. apply Z.ltb_lt in Hp. rewrite forallb_forall in H.
  assert (Hm := Z.mod_pos_bound x p ltac:(lia)). specialize (H (x mod p) (proj2 (in_upto _ _) Hm)).
  rewrite modPow_run in H by (try lia; vm_compute; discriminate). apply Z.eqb_eq in H.
  apply Z.mod_divide; [lia|]. rewrite Zminus_mod. rewrite Z.mod_pow_l in H. rewrite H, Z.sub_diag. apply Z.mod_0_l. lia.
Qed.

Fixpoint coprimes (ps : list Z) : bool :=
  match ps with
  | [] => true
  | p :: ps => (Z.gcd p (fold_right Z.mul 1 ps) =? 1) && coprimes ps
  end.

Lemma product_divides ps c : coprimes ps = true -> (forall p, In p ps -> (p | c)) -> (fold_right Z.mul 1 ps | c).
Proof.
  induction ps as [|p ps IH]; cbn [coprimes fold_right]; intros Hc Hd; [apply Z.divide_1_l|].
  apply andb_prop in Hc as [Hg Hc]. apply coprime_divides; [now apply Z.eqb_eq|apply Hd; now left|apply IH; [exact Hc|intros q Hq; apply Hd; now right]].
Qed.

Lemma sample_inverse x : 0 <= x < sample_n -> (x ^ sample_e mod sample_n) ^ sample_d mod sample_n = x.
Proof.
  intros Hx. rewrite Z.mod_pow_l, <- Z.pow_mul_r by (vm_compute; discriminate).
  assert (Hd : (sample_n | x ^ (sample_e * sample_d) - x)).
  { apply product_divides; [reflexivity|]. intros p Hp. apply residue. revert p Hp. apply forallb_forall. vm_compute. reflexivity. }
  apply Z.mod_divide in Hd; [|discriminate]. rewrite <- (Z.mod_small x sample_n) at 2 by exact Hx.
  rewrite <- (Z.sub_add x (x ^ _)), Zplus_mod, Hd. cbn [Z.add]. apply Z.mod_mod. discriminate.
Qed.

Definition sample_key : rsa := mkRsa 96 12 None None None (Some sample_n) (Some sample_e) (Some sample_d) false.

Lemma sample_ok : public_part sample_key 12 sample_n sample_e /\ private_part sample_key 12 sample_n sample_d /\
  exponents 12 sample_n sample_e sample_d.
Proof.
  split; [repeat (split; [vm_compute; congruence|]); vm_compute; congruence|].
  split; [repeat (split; [vm_compute; congruence|]); vm_compute; congruence|]. split; [vm_compute; intuition congruence|exact sample_inverse].
Qed.

Lemma rsa_roundtrip_witness :
  exists c, encrypt sample_key [7; 0; 255; 1; 2; 3; 4; 200] [65] = Ret (Some c) /\ bytes c /\ zlen c = 12 /\ decrypt sample_key c = Ret (Some [65]).
Proof.
  exact (rsa_roundtrip sample_key sample_key 12 sample_n sample_e sample_d [7; 0; 255; 1; 2; 3; 4; 200] [65]
    (proj1 sample_ok) (proj1 (proj2 sample_ok)) (proj2 (proj2 sample_ok))
    ltac:(repeat constructor; vm_compute; congruence) ltac:(repeat constructor; vm_compute; congruence) (fun _ => eq_refl)).
Defined.
End Rsa.
