(* ===== verification/Rfb.v ===== *)
(** The client object of core/rfb.js: its state and the operations that its
    protocol handlers share.

    [client] gathers the fields of the class by what they are about; the life
    cycle's fields are those of [Lifecycle.lc].  [Screen] is what the class
    uses of its [Display], beyond drawing; [RectDecoders] is its table of
    decoders.  The methods are written for any socket, screen and decoders. *)

From Stdlib Require Import ZArith List Lia Bool String Ascii QArith.
From S2P Require Import Prelude Source Sink Websock Utf8 Display Decoder Messages Lifecycle.
Import ListNotations JS JSFacts.
Open Scope Z_scope.
Open Scope code_scope.

(** What the client uses of its display. *)
Class Screen (D : Type) := {
  screen_renderer :: Renderer D;
  d_pending : D -> bool;
  d_flush : M D bool;
  d_flip : M D unit;
  d_resize : Z -> Z -> M D unit;
  d_clipViewport : D -> bool;
  d_set_clipViewport : bool -> M D unit;
  d_viewportChangeSize : Q -> Q -> M D unit;
  d_set_scale : Q -> M D unit;
  d_autoscale : Q -> Q -> M D unit;
  d_viewportChangePos : Q -> Q -> M D unit;
  d_absX : D -> Q -> Z;
  d_absY : D -> Q -> Z;
  d_width : D -> Z;
  d_height : D -> Z
}.

(** The operations of a screen return. *)
Class ScreenOk (D : Type) `{Screen D} := {
  flip_returns t : exists t', d_flip t = (Ret tt, t');
  flush_returns t : exists b t', d_flush t = (Ret b, t');
  resize_returns w h t : exists t', d_resize w h t = (Ret tt, t');
  set_clip_returns b t : exists t', d_set_clipViewport b t = (Ret tt, t');
  change_size_returns w h t : exists t', d_viewportChangeSize w h t = (Ret tt, t');
  set_scale_returns s t : exists t', d_set_scale s t = (Ret tt, t');
  autoscale_returns w h t : exists t', d_autoscale w h t = (Ret tt, t');
  change_pos_returns x y t : exists t', d_viewportChangePos x y t = (Ret tt, t')
}.

(** The decoders by encoding number: [decodeRect] with x, y, width, height and
    the colour depth, on the decoders' own state. *)
Class RectDecoders (Dc S D : Type) := {
  decoder_of : Z -> option (Z -> Z -> Z -> Z -> Z -> M (world Dc S D) bool)
}.

(** The character codes of a literal. *)
Definition codes (s : string) : list Z := map (fun c => Z.of_nat (nat_of_ascii c)) (list_ascii_of_string s).

(** core/encodings.js *)
Module Encodings.
Definition encodingRaw : Z := 0.
Definition encodingCopyRect : Z := 1.
Definition encodingRRE : Z := 2.
Definition encodingHextile : Z := 5.
Definition encodingTight : Z := 7.
Definition encodingZRLE : Z := 16.
Definition encodingTightPNG : Z := -260.
Definition encodingJPEG : Z := 21.
Definition pseudoEncodingQualityLevel9 : Z := -23.
Definition pseudoEncodingQualityLevel0 : Z := -32.
Definition pseudoEncodingDesktopSize : Z := -223.
Definition pseudoEncodingLastRect : Z := -224.
Definition pseudoEncodingCursor : Z := -239.
Definition pseudoEncodingQEMUExtendedKeyEvent : Z := -258.
Definition pseudoEncodingQEMULedEvent : Z := -261.
Definition pseudoEncodingDesktopName : Z := -307.
Definition pseudoEncodingExtendedDesktopSize : Z := -308.
Definition pseudoEncodingXvp : Z := -309.
Definition pseudoEncodingFence : Z := -312.
Definition pseudoEncodingContinuousUpdates : Z := -313.
Definition pseudoEncodingCompressLevel9 : Z := -247.
Definition pseudoEncodingCompressLevel0 : Z := -256.
Definition pseudoEncodingVMwareCursor : Z := 1464686180.
Definition pseudoEncodingExtendedClipboard : Z := 3231835598.
End Encodings.
Export Encodings.

Module Rfb.
Import Lifecycle.Lifecycle.

(** [_rfbCredentials]: strings as UTF-16 code units, and what the asynchronous
    part of ARD leaves there. *)
Record credentials := mkCredentials {
  username : option (list Z);
  password : option (list Z);
  target : option (list Z);
  ardPublicKey : option (list Z);
  ardCredentials : option (list Z)
}.

Definition set_username v r := mkCredentials v (password r) (target r) (ardPublicKey r) (ardCredentials r).
Definition set_password v r := mkCredentials (username r) v (target r) (ardPublicKey r) (ardCredentials r).
Definition set_target v r := mkCredentials (username r) (password r) v (ardPublicKey r) (ardCredentials r).
Definition set_ardPublicKey v r := mkCredentials (username r) (password r) (target r) v (ardCredentials r).
Definition set_ardCredentials v r := mkCredentials (username r) (password r) (target r) (ardPublicKey r) v.

(** Whether a credential is given. *)
Definition has {A} (o : option A) : bool := match o with Some _ => true | None => false end.

(** An ARD exchange whose encryption is under way. *)
Record ard_job := ArdJob {
  j_clientPublicKey : list Z;
  j_sharedKey : list Z;
  j_credentials : list Z
}.

(** The handshake.  Versions are counted in tenths.  The state of RSA-AES is
    kept as [hasStarted]; [_resumeTimers] counts the pending calls of
    [_resumeAuthentication], [ardJobs] the running [_negotiateARDAuthAsync]. *)
Record auth := mkAuth {
  _rfbVersion : Z;
  _rfbMaxVersion : Z;
  _rfbAuthScheme : Z;
  _rfbTightVNC : bool;
  _rfbVeNCryptState : Z;
  _rfbVeNCryptSubtypesLength : Z;
  _securityContext : string;
  _securityStatus : Z;
  _rfbCredentials : credentials;
  _repeaterID : list Z;
  _rfbRSAAESAuthenticationState : option bool;
  _resumeTimers : Z;
  ardJobs : list ard_job
}.

Definition set_rfbVersion v r := mkAuth v (_rfbMaxVersion r) (_rfbAuthScheme r) (_rfbTightVNC r) (_rfbVeNCryptState r) (_rfbVeNCryptSubtypesLength r) (_securityContext r) (_securityStatus r) (_rfbCredentials r) (_repeaterID r) (_rfbRSAAESAuthenticationState r) (_resumeTimers r) (ardJobs r).
Definition set_rfbMaxVersion v r := mkAuth (_rfbVersion r) v (_rfbAuthScheme r) (_rfbTightVNC r) (_rfbVeNCryptState r) (_rfbVeNCryptSubtypesLength r) (_securityContext r) (_securityStatus r) (_rfbCredentials r) (_repeaterID r) (_rfbRSAAESAuthenticationState r) (_resumeTimers r) (ardJobs r).
Definition set_rfbAuthScheme v r := mkAuth (_rfbVersion r) (_rfbMaxVersion r) v (_rfbTightVNC r) (_rfbVeNCryptState r) (_rfbVeNCryptSubtypesLength r) (_securityContext r) (_securityStatus r) (_rfbCredentials r) (_repeaterID r) (_rfbRSAAESAuthenticationState r) (_resumeTimers r) (ardJobs r).
Definition set_rfbTightVNC v r := mkAuth (_rfbVersion r) (_rfbMaxVersion r) (_rfbAuthScheme r) v (_rfbVeNCryptState r) (_rfbVeNCryptSubtypesLength r) (_securityContext r) (_securityStatus r) (_rfbCredentials r) (_repeaterID r) (_rfbRSAAESAuthenticationState r) (_resumeTimers r) (ardJobs r).
Definition set_rfbVeNCryptState v r := mkAuth (_rfbVersion r) (_rfbMaxVersion r) (_rfbAuthScheme r) (_rfbTightVNC r) v (_rfbVeNCryptSubtypesLength r) (_securityContext r) (_securityStatus r) (_rfbCredentials r) (_repeaterID r) (_rfbRSAAESAuthenticationState r) (_resumeTimers r) (ardJobs r).
Definition set_rfbVeNCryptSubtypesLength v r := mkAuth (_rfbVersion r) (_rfbMaxVersion r) (_rfbAuthScheme r) (_rfbTightVNC r) (_rfbVeNCryptState r) v (_securityContext r) (_securityStatus r) (_rfbCredentials r) (_repeaterID r) (_rfbRSAAESAuthenticationState r) (_resumeTimers r) (ardJobs r).
Definition set_securityContext v r := mkAuth (_rfbVersion r) (_rfbMaxVersion r) (_rfbAuthScheme r) (_rfbTightVNC r) (_rfbVeNCryptState r) (_rfbVeNCryptSubtypesLength r) v (_securityStatus r) (_rfbCredentials r) (_repeaterID r) (_rfbRSAAESAuthenticationState r) (_resumeTimers r) (ardJobs r).
Definition set_securityStatus v r := mkAuth (_rfbVersion r) (_rfbMaxVersion r) (_rfbAuthScheme r) (_rfbTightVNC r) (_rfbVeNCryptState r) (_rfbVeNCryptSubtypesLength r) (_securityContext r) v (_rfbCredentials r) (_repeaterID r) (_rfbRSAAESAuthenticationState r) (_resumeTimers r) (ardJobs r).
Definition set_rfbCredentials v r := mkAuth (_rfbVersion r) (_rfbMaxVersion r) (_rfbAuthScheme r) (_rfbTightVNC r) (_rfbVeNCryptState r) (_rfbVeNCryptSubtypesLength r) (_securityContext r) (_securityStatus r) v (_repeaterID r) (_rfbRSAAESAuthenticationState r) (_resumeTimers r) (ardJobs r).
Definition set_repeaterID v r := mkAuth (_rfbVersion r) (_rfbMaxVersion r) (_rfbAuthScheme r) (_rfbTightVNC r) (_rfbVeNCryptState r) (_rfbVeNCryptSubtypesLength r) (_securityContext r) (_securityStatus r) (_rfbCredentials r) v (_rfbRSAAESAuthenticationState r) (_resumeTimers r) (ardJobs r).
Definition set_rfbRSAAESAuthenticationState v r := mkAuth (_rfbVersion r) (_rfbMaxVersion r) (_rfbAuthScheme r) (_rfbTightVNC r) (_rfbVeNCryptState r) (_rfbVeNCryptSubtypesLength r) (_securityContext r) (_securityStatus r) (_rfbCredentials r) (_repeaterID r) v (_resumeTimers r) (ardJobs r).
Definition set_resumeTimers v r := mkAuth (_rfbVersion r) (_rfbMaxVersion r) (_rfbAuthScheme r) (_rfbTightVNC r) (_rfbVeNCryptState r) (_rfbVeNCryptSubtypesLength r) (_securityContext r) (_securityStatus r) (_rfbCredentials r) (_repeaterID r) (_rfbRSAAESAuthenticationState r) v (ardJobs r).
Definition set_ardJobs v r := mkAuth (_rfbVersion r) (_rfbMaxVersion r) (_rfbAuthScheme r) (_rfbTightVNC r) (_rfbVeNCryptState r) (_rfbVeNCryptSubtypesLength r) (_securityContext r) (_securityStatus r) (_rfbCredentials r) (_repeaterID r) (_rfbRSAAESAuthenticationState r) (_resumeTimers r) v.

(** The options and properties set by the page. *)
Record options := mkOptions {
  _shared : bool;
  _viewOnly : bool;
  _clipViewport : bool;
  _clippingViewport : bool;
  _scaleViewport : bool;
  _resizeSession : bool;
  _showDotCursor : bool;
  _qualityLevel : Z;
  _compressionLevel : Z
}.

Definition set_shared v r := mkOptions v (_viewOnly r) (_clipViewport r) (_clippingViewport r) (_scaleViewport r) (_resizeSession r) (_showDotCursor r) (_qualityLevel r) (_compressionLevel r).
Definition set_viewOnly v r := mkOptions (_shared r) v (_clipViewport r) (_clippingViewport r) (_scaleViewport r) (_resizeSession r) (_showDotCursor r) (_qualityLevel r) (_compressionLevel r).
Definition set_clipViewport v r := mkOptions (_shared r) (_viewOnly r) v (_clippingViewport r) (_scaleViewport r) (_resizeSession r) (_showDotCursor r) (_qualityLevel r) (_compressionLevel r).
Definition set_clippingViewport v r := mkOptions (_shared r) (_viewOnly r) (_clipViewport r) v (_scaleViewport r) (_resizeSession r) (_showDotCursor r) (_qualityLevel r) (_compressionLevel r).
Definition set_scaleViewport v r := mkOptions (_shared r) (_viewOnly r) (_clipViewport r) (_clippingViewport r) v (_resizeSession r) (_showDotCursor r) (_qualityLevel r) (_compressionLevel r).
Definition set_resizeSession v r := mkOptions (_shared r) (_viewOnly r) (_clipViewport r) (_clippingViewport r) (_scaleViewport r) v (_showDotCursor r) (_qualityLevel r) (_compressionLevel r).
Definition set_showDotCursor v r := mkOptions (_shared r) (_viewOnly r) (_clipViewport r) (_clippingViewport r) (_scaleViewport r) (_resizeSession r) v (_qualityLevel r) (_compressionLevel r).
Definition set_qualityLevel v r := mkOptions (_shared r) (_viewOnly r) (_clipViewport r) (_clippingViewport r) (_scaleViewport r) (_resizeSession r) (_showDotCursor r) v (_compressionLevel r).
Definition set_compressionLevel v r := mkOptions (_shared r) (_viewOnly r) (_clipViewport r) (_clippingViewport r) (_scaleViewport r) (_resizeSession r) (_showDotCursor r) (_qualityLevel r) v.

(** What the client knows of the server's desktop. *)
Record desktop := mkDesktop {
  _fbWidth : Z;
  _fbHeight : Z;
  _fbDepth : Z;
  _fbName : list Z;
  _rfbXvpVer : Z;
  power : bool;
  _supportsFence : bool;
  _supportsContinuousUpdates : bool;
  _enabledContinuousUpdates : bool;
  _supportsSetDesktopSize : bool;
  _screenID : Z;
  _screenFlags : Z;
  _qemuExtKeyEventSupported : bool;
  _remoteCapsLock : option bool;
  _remoteNumLock : option bool
}.

Definition set_fbWidth v r := mkDesktop v (_fbHeight r) (_fbDepth r) (_fbName r) (_rfbXvpVer r) (power r) (_supportsFence r) (_supportsContinuousUpdates r) (_enabledContinuousUpdates r) (_supportsSetDesktopSize r) (_screenID r) (_screenFlags r) (_qemuExtKeyEventSupported r) (_remoteCapsLock r) (_remoteNumLock r).
Definition set_fbHeight v r := mkDesktop (_fbWidth r) v (_fbDepth r) (_fbName r) (_rfbXvpVer r) (power r) (_supportsFence r) (_supportsContinuousUpdates r) (_enabledContinuousUpdates r) (_supportsSetDesktopSize r) (_screenID r) (_screenFlags r) (_qemuExtKeyEventSupported r) (_remoteCapsLock r) (_remoteNumLock r).
Definition set_fbDepth v r := mkDesktop (_fbWidth r) (_fbHeight r) v (_fbName r) (_rfbXvpVer r) (power r) (_supportsFence r) (_supportsContinuousUpdates r) (_enabledContinuousUpdates r) (_supportsSetDesktopSize r) (_screenID r) (_screenFlags r) (_qemuExtKeyEventSupported r) (_remoteCapsLock r) (_remoteNumLock r).
Definition set_fbName v r := mkDesktop (_fbWidth r) (_fbHeight r) (_fbDepth r) v (_rfbXvpVer r) (power r) (_supportsFence r) (_supportsContinuousUpdates r) (_enabledContinuousUpdates r) (_supportsSetDesktopSize r) (_screenID r) (_screenFlags r) (_qemuExtKeyEventSupported r) (_remoteCapsLock r) (_remoteNumLock r).
Definition set_rfbXvpVer v r := mkDesktop (_fbWidth r) (_fbHeight r) (_fbDepth r) (_fbName r) v (power r) (_supportsFence r) (_supportsContinuousUpdates r) (_enabledContinuousUpdates r) (_supportsSetDesktopSize r) (_screenID r) (_screenFlags r) (_qemuExtKeyEventSupported r) (_remoteCapsLock r) (_remoteNumLock r).
Definition set_power v r := mkDesktop (_fbWidth r) (_fbHeight r) (_fbDepth r) (_fbName r) (_rfbXvpVer r) v (_supportsFence r) (_supportsContinuousUpdates r) (_enabledContinuousUpdates r) (_supportsSetDesktopSize r) (_screenID r) (_screenFlags r) (_qemuExtKeyEventSupported r) (_remoteCapsLock r) (_remoteNumLock r).
Definition set_supportsFence v r := mkDesktop (_fbWidth r) (_fbHeight r) (_fbDepth r) (_fbName r) (_rfbXvpVer r) (power r) v (_supportsContinuousUpdates r) (_enabledContinuousUpdates r) (_supportsSetDesktopSize r) (_screenID r) (_screenFlags r) (_qemuExtKeyEventSupported r) (_remoteCapsLock r) (_remoteNumLock r).
Definition set_supportsContinuousUpdates v r := mkDesktop (_fbWidth r) (_fbHeight r) (_fbDepth r) (_fbName r) (_rfbXvpVer r) (power r) (_supportsFence r) v (_enabledContinuousUpdates r) (_supportsSetDesktopSize r) (_screenID r) (_screenFlags r) (_qemuExtKeyEventSupported r) (_remoteCapsLock r) (_remoteNumLock r).
Definition set_enabledContinuousUpdates v r := mkDesktop (_fbWidth r) (_fbHeight r) (_fbDepth r) (_fbName r) (_rfbXvpVer r) (power r) (_supportsFence r) (_supportsContinuousUpdates r) v (_supportsSetDesktopSize r) (_screenID r) (_screenFlags r) (_qemuExtKeyEventSupported r) (_remoteCapsLock r) (_remoteNumLock r).
Definition set_supportsSetDesktopSize v r := mkDesktop (_fbWidth r) (_fbHeight r) (_fbDepth r) (_fbName r) (_rfbXvpVer r) (power r) (_supportsFence r) (_supportsContinuousUpdates r) (_enabledContinuousUpdates r) v (_screenID r) (_screenFlags r) (_qemuExtKeyEventSupported r) (_remoteCapsLock r) (_remoteNumLock r).
Definition set_screenID v r := mkDesktop (_fbWidth r) (_fbHeight r) (_fbDepth r) (_fbName r) (_rfbXvpVer r) (power r) (_supportsFence r) (_supportsContinuousUpdates r) (_enabledContinuousUpdates r) (_supportsSetDesktopSize r) v (_screenFlags r) (_qemuExtKeyEventSupported r) (_remoteCapsLock r) (_remoteNumLock r).
Definition set_screenFlags v r := mkDesktop (_fbWidth r) (_fbHeight r) (_fbDepth r) (_fbName r) (_rfbXvpVer r) (power r) (_supportsFence r) (_supportsContinuousUpdates r) (_enabledContinuousUpdates r) (_supportsSetDesktopSize r) (_screenID r) v (_qemuExtKeyEventSupported r) (_remoteCapsLock r) (_remoteNumLock r).
Definition set_qemuExtKeyEventSupported v r := mkDesktop (_fbWidth r) (_fbHeight r) (_fbDepth r) (_fbName r) (_rfbXvpVer r) (power r) (_supportsFence r) (_supportsContinuousUpdates r) (_enabledContinuousUpdates r) (_supportsSetDesktopSize r) (_screenID r) (_screenFlags r) v (_remoteCapsLock r) (_remoteNumLock r).
Definition set_remoteCapsLock v r := mkDesktop (_fbWidth r) (_fbHeight r) (_fbDepth r) (_fbName r) (_rfbXvpVer r) (power r) (_supportsFence r) (_supportsContinuousUpdates r) (_enabledContinuousUpdates r) (_supportsSetDesktopSize r) (_screenID r) (_screenFlags r) (_qemuExtKeyEventSupported r) v (_remoteNumLock r).
Definition set_remoteNumLock v r := mkDesktop (_fbWidth r) (_fbHeight r) (_fbDepth r) (_fbName r) (_rfbXvpVer r) (power r) (_supportsFence r) (_supportsContinuousUpdates r) (_enabledContinuousUpdates r) (_supportsSetDesktopSize r) (_screenID r) (_screenFlags r) (_qemuExtKeyEventSupported r) (_remoteCapsLock r) v.

(** The clipboard: the two capability objects as the lists of their keys whose
    value is true. *)
Record clip := mkClip {
  _clipboardText : option (list Z);
  _clipboardServerCapabilitiesFormats : list Z;
  _clipboardServerCapabilitiesActions : list Z
}.

Definition set_clipboardText v r := mkClip v (_clipboardServerCapabilitiesFormats r) (_clipboardServerCapabilitiesActions r).
Definition set_clipboardServerCapabilitiesFormats v r := mkClip (_clipboardText r) v (_clipboardServerCapabilitiesActions r).
Definition set_clipboardServerCapabilitiesActions v r := mkClip (_clipboardText r) (_clipboardServerCapabilitiesFormats r) v.

(** [_FBU], the framebuffer update being received, and [_flushing]. *)
Record fbu := mkFbu {
  rects : Z;
  fx : Z;
  fy : Z;
  fwidth : Z;
  fheight : Z;
  encoding : option Z;
  _flushing : bool
}.

Definition set_rects v r := mkFbu v (fx r) (fy r) (fwidth r) (fheight r) (encoding r) (_flushing r).
Definition set_fx v r := mkFbu (rects r) v (fy r) (fwidth r) (fheight r) (encoding r) (_flushing r).
Definition set_fy v r := mkFbu (rects r) (fx r) v (fwidth r) (fheight r) (encoding r) (_flushing r).
Definition set_fwidth v r := mkFbu (rects r) (fx r) (fy r) v (fheight r) (encoding r) (_flushing r).
Definition set_fheight v r := mkFbu (rects r) (fx r) (fy r) (fwidth r) v (encoding r) (_flushing r).
Definition set_encoding v r := mkFbu (rects r) (fx r) (fy r) (fwidth r) (fheight r) v (_flushing r).
Definition set_flushing v r := mkFbu (rects r) (fx r) (fy r) (fwidth r) (fheight r) (encoding r) v.

(** A cursor image, as given to [Cursor.change]. *)
Record cursor_image := CursorImage { rgbaPixels : list Z; hotx : Z; hoty : Z; c_w : Z; c_h : Z }.

(** The cursor, and the size of the screen element: as an integer and as
    [getBoundingClientRect] gives it. *)
Record page := mkPage {
  _cursorImage : cursor_image;
  shownCursor : cursor_image;
  _expectedClientWidth : option Z;
  _expectedClientHeight : option Z;
  clientWidth : Z;
  clientHeight : Z;
  rectWidth : Q;
  rectHeight : Q
}.

Definition set_cursorImage v r := mkPage v (shownCursor r) (_expectedClientWidth r) (_expectedClientHeight r) (clientWidth r) (clientHeight r) (rectWidth r) (rectHeight r).
Definition set_shownCursor v r := mkPage (_cursorImage r) v (_expectedClientWidth r) (_expectedClientHeight r) (clientWidth r) (clientHeight r) (rectWidth r) (rectHeight r).
Definition set_expectedClientWidth v r := mkPage (_cursorImage r) (shownCursor r) v (_expectedClientHeight r) (clientWidth r) (clientHeight r) (rectWidth r) (rectHeight r).
Definition set_expectedClientHeight v r := mkPage (_cursorImage r) (shownCursor r) (_expectedClientWidth r) v (clientWidth r) (clientHeight r) (rectWidth r) (rectHeight r).
Definition set_clientWidth v r := mkPage (_cursorImage r) (shownCursor r) (_expectedClientWidth r) (_expectedClientHeight r) v (clientHeight r) (rectWidth r) (rectHeight r).
Definition set_clientHeight v r := mkPage (_cursorImage r) (shownCursor r) (_expectedClientWidth r) (_expectedClientHeight r) (clientWidth r) v (rectWidth r) (rectHeight r).
Definition set_rectWidth v r := mkPage (_cursorImage r) (shownCursor r) (_expectedClientWidth r) (_expectedClientHeight r) (clientWidth r) (clientHeight r) v (rectHeight r).
Definition set_rectHeight v r := mkPage (_cursorImage r) (shownCursor r) (_expectedClientWidth r) (_expectedClientHeight r) (clientWidth r) (clientHeight r) (rectWidth r) v.

(** The kinds of touch gesture, and the detail of a gesture event; a magnitude
    the event does not have is 0. *)
Inductive gesture_type := OneTap | TwoTap | ThreeTap | Drag | LongPress | TwoDrag | Pinch.

Record gesture := Gesture {
  g_type : gesture_type;
  g_clientX : Q;
  g_clientY : Q;
  g_magnitudeX : Q;
  g_magnitudeY : Q
}.

(** The mouse, the wheel and the gestures, and where [Cursor.move] last put
    the cursor.  The timer of delayed moves is in the life cycle's record. *)
Record pointer := mkPointer {
  dragViewport : bool;
  _mousePos : option (Q * Q);
  _mouseButtonMask : Z;
  _mouseLastMoveTime : Z;
  _viewportDragging : bool;
  _viewportDragPos : Q * Q;
  _viewportHasMoved : bool;
  _accumulatedWheelDeltaX : Q;
  _accumulatedWheelDeltaY : Q;
  _gestureLastTapTime : option Z;
  _gestureFirstDoubleTapEv : option gesture;
  _gestureLastMagnitudeX : Q;
  _gestureLastMagnitudeY : Q;
  cursorPos : option (Q * Q)
}.

Definition set_dragViewport v r := mkPointer v (_mousePos r) (_mouseButtonMask r) (_mouseLastMoveTime r) (_viewportDragging r) (_viewportDragPos r) (_viewportHasMoved r) (_accumulatedWheelDeltaX r) (_accumulatedWheelDeltaY r) (_gestureLastTapTime r) (_gestureFirstDoubleTapEv r) (_gestureLastMagnitudeX r) (_gestureLastMagnitudeY r) (cursorPos r).
Definition set_mousePos v r := mkPointer (dragViewport r) v (_mouseButtonMask r) (_mouseLastMoveTime r) (_viewportDragging r) (_viewportDragPos r) (_viewportHasMoved r) (_accumulatedWheelDeltaX r) (_accumulatedWheelDeltaY r) (_gestureLastTapTime r) (_gestureFirstDoubleTapEv r) (_gestureLastMagnitudeX r) (_gestureLastMagnitudeY r) (cursorPos r).
Definition set_mouseButtonMask v r := mkPointer (dragViewport r) (_mousePos r) v (_mouseLastMoveTime r) (_viewportDragging r) (_viewportDragPos r) (_viewportHasMoved r) (_accumulatedWheelDeltaX r) (_accumulatedWheelDeltaY r) (_gestureLastTapTime r) (_gestureFirstDoubleTapEv r) (_gestureLastMagnitudeX r) (_gestureLastMagnitudeY r) (cursorPos r).
Definition set_mouseLastMoveTime v r := mkPointer (dragViewport r) (_mousePos r) (_mouseButtonMask r) v (_viewportDragging r) (_viewportDragPos r) (_viewportHasMoved r) (_accumulatedWheelDeltaX r) (_accumulatedWheelDeltaY r) (_gestureLastTapTime r) (_gestureFirstDoubleTapEv r) (_gestureLastMagnitudeX r) (_gestureLastMagnitudeY r) (cursorPos r).
Definition set_viewportDragging v r := mkPointer (dragViewport r) (_mousePos r) (_mouseButtonMask r) (_mouseLastMoveTime r) v (_viewportDragPos r) (_viewportHasMoved r) (_accumulatedWheelDeltaX r) (_accumulatedWheelDeltaY r) (_gestureLastTapTime r) (_gestureFirstDoubleTapEv r) (_gestureLastMagnitudeX r) (_gestureLastMagnitudeY r) (cursorPos r).
Definition set_viewportDragPos v r := mkPointer (dragViewport r) (_mousePos r) (_mouseButtonMask r) (_mouseLastMoveTime r) (_viewportDragging r) v (_viewportHasMoved r) (_accumulatedWheelDeltaX r) (_accumulatedWheelDeltaY r) (_gestureLastTapTime r) (_gestureFirstDoubleTapEv r) (_gestureLastMagnitudeX r) (_gestureLastMagnitudeY r) (cursorPos r).
Definition set_viewportHasMoved v r := mkPointer (dragViewport r) (_mousePos r) (_mouseButtonMask r) (_mouseLastMoveTime r) (_viewportDragging r) (_viewportDragPos r) v (_accumulatedWheelDeltaX r) (_accumulatedWheelDeltaY r) (_gestureLastTapTime r) (_gestureFirstDoubleTapEv r) (_gestureLastMagnitudeX r) (_gestureLastMagnitudeY r) (cursorPos r).
Definition set_accumulatedWheelDeltaX v r := mkPointer (dragViewport r) (_mousePos r) (_mouseButtonMask r) (_mouseLastMoveTime r) (_viewportDragging r) (_viewportDragPos r) (_viewportHasMoved r) v (_accumulatedWheelDeltaY r) (_gestureLastTapTime r) (_gestureFirstDoubleTapEv r) (_gestureLastMagnitudeX r) (_gestureLastMagnitudeY r) (cursorPos r).
Definition set_accumulatedWheelDeltaY v r := mkPointer (dragViewport r) (_mousePos r) (_mouseButtonMask r) (_mouseLastMoveTime r) (_viewportDragging r) (_viewportDragPos r) (_viewportHasMoved r) (_accumulatedWheelDeltaX r) v (_gestureLastTapTime r) (_gestureFirstDoubleTapEv r) (_gestureLastMagnitudeX r) (_gestureLastMagnitudeY r) (cursorPos r).
Definition set_gestureLastTapTime v r := mkPointer (dragViewport r) (_mousePos r) (_mouseButtonMask r) (_mouseLastMoveTime r) (_viewportDragging r) (_viewportDragPos r) (_viewportHasMoved r) (_accumulatedWheelDeltaX r) (_accumulatedWheelDeltaY r) v (_gestureFirstDoubleTapEv r) (_gestureLastMagnitudeX r) (_gestureLastMagnitudeY r) (cursorPos r).
Definition set_gestureFirstDoubleTapEv v r := mkPointer (dragViewport r) (_mousePos r) (_mouseButtonMask r) (_mouseLastMoveTime r) (_viewportDragging r) (_viewportDragPos r) (_viewportHasMoved r) (_accumulatedWheelDeltaX r) (_accumulatedWheelDeltaY r) (_gestureLastTapTime r) v (_gestureLastMagnitudeX r) (_gestureLastMagnitudeY r) (cursorPos r).
Definition set_gestureLastMagnitudeX v r := mkPointer (dragViewport r) (_mousePos r) (_mouseButtonMask r) (_mouseLastMoveTime r) (_viewportDragging r) (_viewportDragPos r) (_viewportHasMoved r) (_accumulatedWheelDeltaX r) (_accumulatedWheelDeltaY r) (_gestureLastTapTime r) (_gestureFirstDoubleTapEv r) v (_gestureLastMagnitudeY r) (cursorPos r).
Definition set_gestureLastMagnitudeY v r := mkPointer (dragViewport r) (_mousePos r) (_mouseButtonMask r) (_mouseLastMoveTime r) (_viewportDragging r) (_viewportDragPos r) (_viewportHasMoved r) (_accumulatedWheelDeltaX r) (_accumulatedWheelDeltaY r) (_gestureLastTapTime r) (_gestureFirstDoubleTapEv r) (_gestureLastMagnitudeX r) v (cursorPos r).
Definition set_cursorPos v r := mkPointer (dragViewport r) (_mousePos r) (_mouseButtonMask r) (_mouseLastMoveTime r) (_viewportDragging r) (_viewportDragPos r) (_viewportHasMoved r) (_accumulatedWheelDeltaX r) (_accumulatedWheelDeltaY r) (_gestureLastTapTime r) (_gestureFirstDoubleTapEv r) (_gestureLastMagnitudeX r) (_gestureLastMagnitudeY r) v.

(** The fields of an [RFB] object. *)
Record client (Dc : Type) := mkClient {
  c_life : lc;
  c_auth : auth;
  c_options : options;
  c_desktop : desktop;
  c_clip : clip;
  c_fbu : fbu;
  c_page : page;
  c_pointer : pointer;
  c_decoders : Dc
}.
Arguments mkClient {Dc}.
Arguments c_life {Dc} c.
Arguments c_auth {Dc} c.
Arguments c_options {Dc} c.
Arguments c_desktop {Dc} c.
Arguments c_clip {Dc} c.
Arguments c_fbu {Dc} c.
Arguments c_page {Dc} c.
Arguments c_pointer {Dc} c.
Arguments c_decoders {Dc} c.

(** The constructor's fields. *)
Definition constructor {Dc} (creds : credentials) (shared : bool) (repeaterID : list Z) (url : bool)
    (decoders : Dc) (cw ch : Z) (rw rh : Q) : client Dc :=
  let none := CursorImage [] 0 0 0 0 in
  mkClient (Lifecycle.constructor url)
    (mkAuth 0 38 (-1) false 0 0 EmptyString 0 creds repeaterID None 0 [])
    (mkOptions shared false false false false false false 6 2)
    (mkDesktop 0 0 0 [] 0 false false false false false 0 0 false None None)
    (mkClip None [] [])
    (mkFbu 0 0 0 0 0 None false)
    (mkPage none none None None cw ch rw rh)
    (mkPointer false None 0 0 false (0%Q, 0%Q) false 0%Q 0%Q None None 0%Q 0%Q None)
    decoders.

#[export] Instance client_lc {Dc} : Lens (client Dc) lc.
Proof.
  refine {| lget := c_life;
    lset v c := mkClient v (c_auth c) (c_options c) (c_desktop c) (c_clip c) (c_fbu c) (c_page c) (c_pointer c) (c_decoders c) |};
    intros; now try destruct r.
Defined.

Section Client.
Context {Dc S D : Type} `{Sock S} `{Screen D}.
Abbreviation W := (world (client Dc) S D).

Definition onAuth {A} (m : M auth A) : M W A :=
  onDec (lift c_auth (fun v c => mkClient (c_life c) v (c_options c) (c_desktop c) (c_clip c) (c_fbu c) (c_page c) (c_pointer c) (c_decoders c)) m).
Definition onOptions {A} (m : M options A) : M W A :=
  onDec (lift c_options (fun v c => mkClient (c_life c) (c_auth c) v (c_desktop c) (c_clip c) (c_fbu c) (c_page c) (c_pointer c) (c_decoders c)) m).
Definition onDesktop {A} (m : M desktop A) : M W A :=
  onDec (lift c_desktop (fun v c => mkClient (c_life c) (c_auth c) (c_options c) v (c_clip c) (c_fbu c) (c_page c) (c_pointer c) (c_decoders c)) m).
Definition onClip {A} (m : M clip A) : M W A :=
  onDec (lift c_clip (fun v c => mkClient (c_life c) (c_auth c) (c_options c) (c_desktop c) v (c_fbu c) (c_page c) (c_pointer c) (c_decoders c)) m).
Definition onFbu {A} (m : M fbu A) : M W A :=
  onDec (lift c_fbu (fun v c => mkClient (c_life c) (c_auth c) (c_options c) (c_desktop c) (c_clip c) v (c_page c) (c_pointer c) (c_decoders c)) m).
Definition onPage {A} (m : M page A) : M W A :=
  onDec (lift c_page (fun v c => mkClient (c_life c) (c_auth c) (c_options c) (c_desktop c) (c_clip c) (c_fbu c) v (c_pointer c) (c_decoders c)) m).

Definition onPointer {A} (m : M pointer A) : M W A :=
  onDec (lift c_pointer (fun v c => mkClient (c_life c) (c_auth c) (c_options c) (c_desktop c) (c_clip c) (c_fbu c) (c_page c) v (c_decoders c)) m).

(** Run a decoder: it shares the socket and the display. *)
Definition onDecoder {A} (m : M (world Dc S D) A) : M W A := fun w =>
  let c := dec w in
  let '(o, w') := m (World (c_decoders c) (sock w) (disp w)) in
  (o, World (mkClient (c_life c) (c_auth c) (c_options c) (c_desktop c) (c_clip c) (c_fbu c) (c_page c) (c_pointer c) (dec w'))
        (sock w') (disp w')).

Definition theOptions : M W options := onOptions get.
Definition theDesktop : M W desktop := onDesktop get.
Definition thePage : M W page := onPage get.

(** A computation that may throw. *)
Definition attempt {A} (o : outcome A) : M W A := fun w => (o, w).

Definition _setDesktopName (name : list Z) : M W unit :=
  onDesktop (modify (set_fbName name)) ;;
  dispatchEvent (EvDesktopName name).

Definition _setCapability (val : bool) : M W unit :=
  onDesktop (modify (set_power val)) ;;
  dispatchEvent (EvCapabilities val).

Definition _setClippingViewport (on : bool) : M W unit :=
  o <- theOptions ;;
  if eqb on (_clippingViewport o) then ret tt
  else
    onOptions (modify (set_clippingViewport on)) ;;
    dispatchEvent (EvClippingViewport on).

Definition _saveExpectedClientSize : M W unit :=
  onPage (modify (fun p => set_expectedClientHeight (Some (clientHeight p))
                             (set_expectedClientWidth (Some (clientWidth p)) p))).

Definition _clientHasExpectedSize (p : page) : bool :=
  match _expectedClientWidth p, _expectedClientHeight p with
  | Some w, Some h => (clientWidth p =? w) && (clientHeight p =? h)
  | _, _ => false
  end.

(** [size.w < this._display.width] *)
Definition below (q : Q) (n : Z) : bool := negb (Qle_bool (inject_Z n) q).

(** [_fixScrollbars] leaves the page as it was. *)
Definition _fixScrollbars : M W unit := ret tt.

Definition _updateClip : M W unit :=
  curClip <- onDisp (gets d_clipViewport) ;;
  o <- theOptions ;;
  let newClip := if _scaleViewport o then false else _clipViewport o in
  (if negb (eqb curClip newClip) then onDisp (d_set_clipViewport newClip) else ret tt) ;;
  (if newClip then
     p <- thePage ;;
     onDisp (d_viewportChangeSize (rectWidth p) (rectHeight p)) ;;
     _fixScrollbars ;;
     dw <- onDisp (gets d_width) ;;
     dh <- onDisp (gets d_height) ;;
     _setClippingViewport (below (rectWidth p) dw || below (rectHeight p) dh)
   else _setClippingViewport false) ;;
  (if negb (eqb curClip newClip) then _saveExpectedClientSize else ret tt).

Definition _updateScale : M W unit :=
  o <- theOptions ;;
  (if negb (_scaleViewport o) then onDisp (d_set_scale 1)
   else p <- thePage ;; onDisp (d_autoscale (rectWidth p) (rectHeight p))) ;;
  _fixScrollbars.

(** [Math.floor] *)
Definition qfloor (q : Q) : Z := (Qnum q / Z.pos (Qden q))%Z.

Definition _requestRemoteResize : M W unit :=
  onLc (modify (set_resizeTimeout false)) ;;
  o <- theOptions ;;
  d <- theDesktop ;;
  if negb (_resizeSession o) || _viewOnly o || negb (_supportsSetDesktopSize d) then ret tt
  else
    p <- thePage ;;
    onSock (Messages.setDesktopSize (qfloor (rectWidth p)) (qfloor (rectHeight p)) (_screenID d) (_screenFlags d)).

(** [_handleResize], with the work it leaves to the next animation frame. *)
Definition _handleResize (frame : M W unit) : M W unit :=
  p <- thePage ;;
  if _clientHasExpectedSize p then ret tt
  else
    frame ;;
    o <- theOptions ;;
    if _resizeSession o then onLc (modify (set_resizeTimeout true)) else ret tt.

Definition resize_frame : M W unit := _updateClip ;; _updateScale.

Definition _updateContinuousUpdates : M W unit :=
  d <- theDesktop ;;
  if negb (_enabledContinuousUpdates d) then ret tt
  else onSock (Messages.enableContinuousUpdates true 0 0 (_fbWidth d) (_fbHeight d)).

Definition _resize (width height : Z) : M W unit :=
  onDesktop (modify (fun d => set_fbHeight height (set_fbWidth width d))) ;;
  onDisp (d_resize width height) ;;
  _updateClip ;;
  _updateScale ;;
  _updateContinuousUpdates ;;
  _saveExpectedClientSize.

Definition _xvpOp (ver op : Z) : M W unit :=
  d <- theDesktop ;;
  if _rfbXvpVer d <? ver then ret tt else onSock (Messages.xvpOp ver op).

(** In preference order. *)
Definition encodings_list (depth quality compression : Z) : list Z :=
  [encodingCopyRect] ++
  (if depth =? 24
   then [encodingTight; encodingTightPNG; encodingZRLE; encodingJPEG; encodingHextile; encodingRRE] else []) ++
  [encodingRaw;
   pseudoEncodingQualityLevel0 + quality;
   pseudoEncodingCompressLevel0 + compression;
   pseudoEncodingDesktopSize;
   pseudoEncodingLastRect;
   pseudoEncodingQEMUExtendedKeyEvent;
   pseudoEncodingQEMULedEvent;
   pseudoEncodingExtendedDesktopSize;
   pseudoEncodingXvp;
   pseudoEncodingFence;
   pseudoEncodingContinuousUpdates;
   pseudoEncodingDesktopName;
   pseudoEncodingExtendedClipboard] ++
  (if depth =? 24 then [pseudoEncodingVMwareCursor; pseudoEncodingCursor] else []).

Definition _sendEncodings : M W unit :=
  o <- theOptions ;;
  d <- theDesktop ;;
  onSock (Messages.clientEncodings (encodings_list (_fbDepth d) (_qualityLevel o) (_compressionLevel o))).

(** ** The properties *)

Definition set_viewOnly_prop (viewOnly : bool) : M W unit :=
  onOptions (modify (set_viewOnly viewOnly)) ;;
  l <- onLc get ;;
  match _rfbConnectionState l with
  | Connecting | Connected => onLc (modify (set_grabbed (negb viewOnly)))
  | _ => ret tt
  end.

Definition set_clipViewport_prop (viewport : bool) : M W unit :=
  onOptions (modify (set_clipViewport viewport)) ;;
  _updateClip.

Definition set_scaleViewport_prop (scale : bool) : M W unit :=
  onOptions (modify (set_scaleViewport scale)) ;;
  o <- theOptions ;;
  (if scale && _clipViewport o then _updateClip else ret tt) ;;
  _updateScale ;;
  (if negb scale && _clipViewport o then _updateClip else ret tt).

Definition set_resizeSession_prop (resize : bool) : M W unit :=
  onOptions (modify (set_resizeSession resize)) ;;
  if resize then _requestRemoteResize else ret tt.

Definition set_qualityLevel_prop (qualityLevel : Z) : M W unit :=
  if (qualityLevel <? 0) || (9 <? qualityLevel) then ret tt
  else
    o <- theOptions ;;
    if _qualityLevel o =? qualityLevel then ret tt
    else
      onOptions (modify (set_qualityLevel qualityLevel)) ;;
      l <- onLc get ;;
      if conn_eqb (_rfbConnectionState l) Connected then _sendEncodings else ret tt.

Definition set_compressionLevel_prop (compressionLevel : Z) : M W unit :=
  if (compressionLevel <? 0) || (9 <? compressionLevel) then ret tt
  else
    o <- theOptions ;;
    if _compressionLevel o =? compressionLevel then ret tt
    else
      onOptions (modify (set_compressionLevel compressionLevel)) ;;
      l <- onLc get ;;
      if conn_eqb (_rfbConnectionState l) Connected then _sendEncodings else ret tt.
End Client.
End Rfb.
