(* ===== verification/Handshake.v ===== *)
(** The opening handshake of core/rfb.js: version, security type,
    authentication, security result, server initialisation ([_initMsg] and
    the methods it calls).

    The asynchronous parts are steps of their own: [ard_settles] is the rest of
    [_negotiateARDAuthAsync], [ra2_settles] the end of the RSA-AES exchange,
    [resume_fires] the timer of [_resumeAuthentication].  AES and the random
    bytes come from the browser and are parameters. *)

From Stdlib Require Import ZArith List Lia Bool String.
From S2P Require Import Prelude Source Sink Websock Utf8 Display Decoder Messages Lifecycle Des Bigint Md5 Rfb.
Import ListNotations JS JSFacts.
Import Lifecycle.Lifecycle Rfb.Rfb.
Open Scope Z_scope.
Open Scope code_scope.

Module Handshake.

Definition securityTypeNone : Z := 1.
Definition securityTypeVNCAuth : Z := 2.
Definition securityTypeRA2ne : Z := 6.
Definition securityTypeTight : Z := 16.
Definition securityTypeVeNCrypt : Z := 19.
Definition securityTypeXVP : Z := 22.
Definition securityTypeARD : Z := 30.
Definition securityTypeMSLogonII : Z := 113.
Definition securityTypeUnixLogon : Z := 129.
Definition securityTypePlain : Z := 256.

Fixpoint list_eqb (a b : list Z) : bool :=
  match a, b with
  | [], [] => true
  | x :: a, y :: b => (x =? y) && list_eqb a b
  | _, _ => false
  end.

(** What a version string means: a repeater, or a version in tenths. *)
Inductive greeting := Repeater | Version (v : Z) | Unknown.

Definition read_version (sversion : list Z) : greeting :=
  let same s := list_eqb sversion (codes s) in
  if same "000.000"%string then Repeater
  else if same "003.003"%string || same "003.006"%string then Version 33
  else if same "003.007"%string then Version 37
  else if same "003.008"%string || same "003.889"%string || same "004.000"%string || same "004.001"%string
          || same "005.000"%string then Version 38
  else Unknown.

Definition digit (n : Z) : Z := 48 + n.

(** ["RFB " + cversion + "\n"] *)
Definition reply_version (v : Z) : list Z :=
  codes "RFB 00" ++ [digit (v / 10)] ++ codes ".00" ++ [digit (v mod 10)] ++ [10].

Definition _isSupportedSecurityType (type : Z) : bool :=
  existsb (Z.eqb type)
    [securityTypeNone; securityTypeVNCAuth; securityTypeRA2ne; securityTypeTight; securityTypeVeNCrypt;
     securityTypeXVP; securityTypeARD; securityTypeMSLogonII; securityTypePlain].

(** Bytes stored over the start of a random buffer, with a zero behind. *)
Definition store_field (buf : list Z) (off : Z) (s : list Z) : list Z :=
  zblit buf off (map toUint8 s ++ [0]).

Section Handshake.
Context {Dc S D : Type} `{Sock S} `{Screen D}.
Abbreviation W := (world (client Dc) S D).

Definition theAuth : M W auth := onAuth get.
Definition setInit (i : init) : M W unit := onLc (modify (set_init i)).

Definition push8 (n : Z) : M W unit := onSock (sQpush8 n).
Definition push32 (n : Z) : M W unit := onSock (sQpush32 n).
Definition pushBytes (l : list Z) : M W unit := onSock (sQpushBytes l).
Definition pushString (l : list Z) : M W unit := onSock (sQpushString l).
Definition doFlush : M W unit := onSock flush.

(** [if (this._sock.rQwait(...)) { return false; }] *)
Definition need (num goback : Z) (k : M W bool) : M W bool :=
  wait <- onSock (rQwait num goback) ;;
  if wait then ret false else k.

Definition _negotiateProtocolVersion : M W bool :=
  need 12 0 (
    str <- onSock (rQshiftStr 12) ;;
    match read_version (zslice str 4 11) with
    | Unknown => _fail
    | Repeater =>
        a <- theAuth ;;
        let repeaterID := codes "ID:" ++ _repeaterID a in
        pushString (repeaterID ++ zrep (250 - zlen repeaterID) 0) ;;
        doFlush ;;
        ret true
    | Version v =>
        onAuth (modify (set_rfbVersion v)) ;;
        onAuth (modify (fun a => if _rfbMaxVersion a <? _rfbVersion a then set_rfbVersion (_rfbMaxVersion a) a else a)) ;;
        a <- theAuth ;;
        pushString (reply_version (_rfbVersion a)) ;;
        doFlush ;;
        setInit Security ;;
        ret false
    end).

Definition toSecurityReason (context : string) (status : Z) : M W bool :=
  setInit SecurityReason ;;
  onAuth (modify (fun a => set_securityStatus status (set_securityContext context a))) ;;
  ret true.

Definition chosen (types : list Z) : Z :=
  match find _isSupportedSecurityType types with Some t => t | None => -1 end.

Definition _negotiateSecurity : M W bool :=
  a <- theAuth ;;
  if 37 <=? _rfbVersion a then
    numTypes <- onSock rQshift8 ;;
    need numTypes 1 (
      if numTypes =? 0 then toSecurityReason "no security types" 1
      else
        types <- onSock (rQshiftBytes numTypes) ;;
        onAuth (modify (set_rfbAuthScheme (chosen types))) ;;
        if chosen types =? -1 then _fail
        else
          push8 (chosen types) ;;
          doFlush ;;
          setInit Authentication ;;
          ret true)
  else
    need 4 0 (
      scheme <- onSock rQshift32 ;;
      onAuth (modify (set_rfbAuthScheme scheme)) ;;
      if scheme =? 0 then toSecurityReason "authentication scheme" 1
      else setInit Authentication ;; ret true).

Definition _handleSecurityReason : M W bool :=
  need 4 0 (
    strlen <- onSock rQshift32 ;;
    let report (reason : list Z) : M W bool :=
      a <- theAuth ;;
      dispatchEvent (EvSecurityFailure (_securityStatus a) (if zlen reason =? 0 then None else Some reason)) ;;
      _fail in
    if 0 <? strlen then
      need strlen 4 (reason <- onSock (rQshiftStr strlen) ;; report reason)
    else report []).

Definition or_empty (o : option (list Z)) : list Z := match o with Some l => l | None => [] end.

(** The credentials a method cannot do without; asking for them ends the turn. *)
Definition ask (types : list string) : M W bool :=
  dispatchEvent (EvCredentialsRequired types) ;; ret false.

Definition _negotiateXvpAuth (_negotiateAuthentication : M W bool) : M W bool :=
  a <- theAuth ;;
  let c := _rfbCredentials a in
  if negb (has (username c) && has (password c) && has (target c))
  then ask ["username"; "password"; "target"]%string
  else
    push8 (zlen (or_empty (username c))) ;;
    push8 (zlen (or_empty (target c))) ;;
    pushString (or_empty (username c)) ;;
    pushString (or_empty (target c)) ;;
    doFlush ;;
    onAuth (modify (set_rfbAuthScheme securityTypeVNCAuth)) ;;
    _negotiateAuthentication.

(** VeNCrypt: the four stages, each falling through to the next. *)
Definition vencrypt_choose (subtypes : list Z) : Z :=
  chosen (filter (fun t => negb (t =? securityTypeVeNCrypt)) subtypes).

Fixpoint shift32s (n : nat) : M W (list Z) :=
  match n with
  | O => ret []
  | Datatypes.S n => t <- onSock rQshift32 ;; ts <- shift32s n ;; ret (t :: ts)
  end.

Definition vencrypt_subtypes : M W bool :=
  a <- theAuth ;;
  if _rfbVeNCryptState a =? 3 then
    need (4 * _rfbVeNCryptSubtypesLength a) 0 (
      subtypes <- shift32s (Z.to_nat (_rfbVeNCryptSubtypesLength a)) ;;
      onAuth (modify (set_rfbAuthScheme (vencrypt_choose subtypes))) ;;
      if vencrypt_choose subtypes =? -1 then _fail
      else
        push32 (vencrypt_choose subtypes) ;;
        doFlush ;;
        onAuth (modify (set_rfbVeNCryptState 4)) ;;
        ret true)
  else ret false.

Definition vencrypt_length : M W bool :=
  a <- theAuth ;;
  if _rfbVeNCryptState a =? 2 then
    need 1 0 (
      subtypesLength <- onSock rQshift8 ;;
      if subtypesLength <? 1 then _fail
      else
        onAuth (modify (fun a => set_rfbVeNCryptState 3 (set_rfbVeNCryptSubtypesLength subtypesLength a))) ;;
        vencrypt_subtypes)
  else vencrypt_subtypes.

Definition vencrypt_ack : M W bool :=
  a <- theAuth ;;
  if _rfbVeNCryptState a =? 1 then
    need 1 0 (
      res <- onSock rQshift8 ;;
      if negb (res =? 0) then _fail
      else onAuth (modify (set_rfbVeNCryptState 2)) ;; vencrypt_length)
  else vencrypt_length.

Definition _negotiateVeNCryptAuth : M W bool :=
  a <- theAuth ;;
  if _rfbVeNCryptState a =? 0 then
    need 2 0 (
      major <- onSock rQshift8 ;;
      minor <- onSock rQshift8 ;;
      if negb ((major =? 0) && (minor =? 2)) then _fail
      else
        push8 0 ;;
        push8 2 ;;
        doFlush ;;
        onAuth (modify (set_rfbVeNCryptState 1)) ;;
        vencrypt_ack)
  else vencrypt_ack.

Definition _negotiatePlainAuth : M W bool :=
  a <- theAuth ;;
  let c := _rfbCredentials a in
  if negb (has (username c) && has (password c)) then ask ["username"; "password"]%string
  else
    user <- attempt (Utf8.encodeUTF8 (or_empty (username c))) ;;
    pass <- attempt (Utf8.encodeUTF8 (or_empty (password c))) ;;
    push32 (zlen user) ;;
    push32 (zlen pass) ;;
    pushString user ;;
    pushString pass ;;
    doFlush ;;
    setInit SecurityResult ;;
    ret true.

(** The challenge has 16 bytes, so [genDES] does not return null. *)
Definition _negotiateStdVNCAuth : M W bool :=
  need 16 0 (
    a <- theAuth ;;
    let c := _rfbCredentials a in
    if negb (has (password c)) then ask ["password"]%string
    else
      challenge <- onSock (rQshiftBytes 16) ;;
      match Des.genDES (or_empty (password c)) challenge with
      | None => throw "TypeError"
      | Some response =>
          pushBytes response ;;
          doFlush ;;
          setInit SecurityResult ;;
          ret true
      end).

(** The credentials block of ARD: two 64-byte halves of random bytes, each
    starting with a zero-terminated string of at most 63 bytes. *)
Definition ard_block (noise user pass : list Z) : list Z :=
  store_field (store_field noise 0 (ztake 63 user)) 64 (ztake 63 pass).

(** [_negotiateARDAuthAsync] up to its first [await]; an error there rejects
    its promise and is not seen by the caller. *)
Definition ard_start (keyLength : Z) (serverPublicKey : list Z) (clientKey : Bigint.dh) (noise : list Z)
    (c : credentials) : outcome ard_job :=
  Bigint.obind (Bigint.deriveBits clientKey serverPublicKey (keyLength * 8)) (fun sharedKey =>
  Bigint.obind (Utf8.encodeUTF8 (or_empty (username c))) (fun user =>
  Bigint.obind (Utf8.encodeUTF8 (or_empty (password c))) (fun pass =>
  Ret (ArdJob (Bigint._publicKey clientKey) sharedKey (ard_block noise user pass))))).

(** [privateKey] and [noise] are random. *)
Definition _negotiateARDAuth (privateKey noise : list Z) : M W bool :=
  a <- theAuth ;;
  let c := _rfbCredentials a in
  if negb (has (username c) && has (password c)) then ask ["username"; "password"]%string
  else
    match ardPublicKey c, ardCredentials c with
    | Some publicKey, Some creds =>
        pushBytes creds ;;
        pushBytes publicKey ;;
        doFlush ;;
        onAuth (modify (fun a => set_rfbCredentials (set_ardPublicKey None (set_ardCredentials None (_rfbCredentials a))) a)) ;;
        setInit SecurityResult ;;
        ret true
    | _, _ =>
        need 4 0 (
          generator <- onSock (rQshiftBytes 2) ;;
          keyLength <- onSock rQshift16 ;;
          need (keyLength * 2) 4 (
            prime <- onSock (rQshiftBytes keyLength) ;;
            serverPublicKey <- onSock (rQshiftBytes keyLength) ;;
            clientKey <- attempt (Bigint.generateKey generator prime privateKey) ;;
            match ard_start keyLength serverPublicKey clientKey noise c with
            | Ret job => onAuth (modify (fun a => set_ardJobs (ardJobs a ++ [job]) a))
            | _ => ret tt
            end ;;
            ret false))
    end.

Definition _resumeAuthentication : M W unit :=
  onAuth (modify (fun a => set_resumeTimers (_resumeTimers a + 1) a)).

(** The rest of [_negotiateARDAuthAsync]; [aes key block] is the AES-ECB
    encryption. *)
Definition ard_settles (aes : list Z -> list Z -> list Z) : M W unit :=
  a <- theAuth ;;
  match ardJobs a with
  | [] => ret tt
  | job :: jobs =>
      onAuth (modify (set_ardJobs jobs)) ;;
      let encrypted := aes (Md5.MD5 (j_sharedKey job)) (j_credentials job) in
      onAuth (modify (fun a => set_rfbCredentials
        (set_ardPublicKey (Some (j_clientPublicKey job)) (set_ardCredentials (Some encrypted) (_rfbCredentials a))) a)) ;;
      _resumeAuthentication
  end.

Definition _negotiateTightUnixAuth : M W bool :=
  a <- theAuth ;;
  let c := _rfbCredentials a in
  if negb (has (username c) && has (password c)) then ask ["username"; "password"]%string
  else
    push32 (zlen (or_empty (username c))) ;;
    push32 (zlen (or_empty (password c))) ;;
    pushString (or_empty (username c)) ;;
    pushString (or_empty (password c)) ;;
    doFlush ;;
    setInit SecurityResult ;;
    ret true.

(** The tunnel capabilities, as a map from code to vendor and signature: a
    later entry replaces an earlier one. *)
Fixpoint read_tunnels (n : nat) (types : list (Z * (list Z * list Z))) : M W (list (Z * (list Z * list Z))) :=
  match n with
  | O => ret types
  | Datatypes.S n =>
      capCode <- onSock rQshift32 ;;
      capVendor <- onSock (rQshiftStr 4) ;;
      capSignature <- onSock (rQshiftStr 8) ;;
      read_tunnels n ((capCode, (capVendor, capSignature)) :: types)
  end.

Definition tunnel (types : list (Z * (list Z * list Z))) (code : Z) : option (list Z * list Z) :=
  option_map snd (find (fun t => fst t =? code) types).

Definition is_cap (vendor signature : string) (c : list Z * list Z) : bool :=
  list_eqb (fst c) (codes vendor) && list_eqb (snd c) (codes signature).

Definition _negotiateTightTunnels (numTunnels : Z) : M W bool :=
  types <- read_tunnels (Z.to_nat numTunnels) [] ;;
  let types :=
    match tunnel types 1 with
    | Some c => if is_cap "SICR" "SCHANNEL" c then (0, (codes "TGHT", codes "NOTUNNEL")) :: types else types
    | None => types
    end in
  match tunnel types 0 with
  | Some c =>
      if negb (is_cap "TGHT" "NOTUNNEL" c) then _fail
      else push32 0 ;; doFlush ;; ret false
  | None => _fail
  end.

Fixpoint read_subauths (n : nat) : M W (list (list Z)) :=
  match n with
  | O => ret []
  | Datatypes.S n =>
      onSock rQshift32 ;;
      capabilities <- onSock (rQshiftStr 12) ;;
      rest <- read_subauths n ;;
      ret (capabilities :: rest)
  end.

(** [clientSupportedTypes], in the order of its keys. *)
Definition tight_types : list (string * Z) :=
  [("STDVNOAUTH__", 1); ("STDVVNCAUTH_", 2); ("TGHTULGNAUTH", 129)]%string.

Definition tight_choose (serverTypes : list (list Z)) : option Z :=
  option_map snd (find (fun t => existsb (list_eqb (codes (fst t))) serverTypes) tight_types).

Definition tight_subauth : M W bool :=
  need 4 0 (
    subAuthCount <- onSock rQshift32 ;;
    if subAuthCount =? 0 then setInit SecurityResult ;; ret true
    else
      need (16 * subAuthCount) 4 (
        types <- read_subauths (Z.to_nat subAuthCount) ;;
        match tight_choose types with
        | None => _fail
        | Some t =>
            push32 t ;;
            doFlush ;;
            (if t =? 1 then setInit SecurityResult
             else onAuth (modify (set_rfbAuthScheme (if t =? 2 then securityTypeVNCAuth else securityTypeUnixLogon)))) ;;
            ret true
        end)).

Definition _negotiateTightAuth : M W bool :=
  a <- theAuth ;;
  if _rfbTightVNC a then tight_subauth
  else
    need 4 0 (
      numTunnels <- onSock rQshift32 ;;
      let go : M W bool :=
        onAuth (modify (set_rfbTightVNC true)) ;;
        if 0 <? numTunnels then _negotiateTightTunnels numTunnels ;; ret false else tight_subauth in
      if 0 <? numTunnels then need (16 * numTunnels) 4 go else go).

(** The exchange runs on its own; every data message lets it check the queue. *)
Definition _negotiateRA2neAuth : M W bool :=
  onAuth (modify (set_rfbRSAAESAuthenticationState (Some true))) ;;
  ret false.

(** The [catch], [then] and [finally] of the exchange's promise. *)
Definition ra2_settles (error : option string) : M W unit :=
  (match error with
   | Some e => if String.eqb e "disconnect normally" then ret tt else _fail ;; ret tt
   | None => ret tt
   end) ;;
  setInit SecurityResult ;;
  onAuth (modify (set_rfbRSAAESAuthenticationState None)).

(** [privateKey], [unoise] and [pnoise] are random. *)
Definition _negotiateMSLogonIIAuth (privateKey unoise pnoise : list Z) : M W bool :=
  need 24 0 (
    a <- theAuth ;;
    let c := _rfbCredentials a in
    if negb (has (username c) && has (password c)) then ask ["username"; "password"]%string
    else
      g <- onSock (rQshiftBytes 8) ;;
      p <- onSock (rQshiftBytes 8) ;;
      A <- onSock (rQshiftBytes 8) ;;
      dhKey <- attempt (Bigint.generateKey g p privateKey) ;;
      secret <- attempt (Bigint.deriveBits dhKey A 64) ;;
      let key := Des.DES secret in
      user <- attempt (Utf8.encodeUTF8 (or_empty (username c))) ;;
      pass <- attempt (Utf8.encodeUTF8 (or_empty (password c))) ;;
      let usernameBytes := store_field unoise 0 (ztake 255 user) in
      let passwordBytes := store_field pnoise 0 (ztake 63 pass) in
      match Des.cbc_encrypt key secret usernameBytes, Des.cbc_encrypt key secret passwordBytes with
      | Some u, Some p =>
          pushBytes (Bigint._publicKey dhKey) ;;
          pushBytes u ;;
          pushBytes p ;;
          doFlush ;;
          setInit SecurityResult ;;
          ret true
      | _, _ => throw "TypeError"
      end).

(** The random bytes drawn during a call. *)
Record randoms := Randoms { r_key : list Z; r_user : list Z; r_pass : list Z }.

(** [_negotiateXvpAuth] calls back once, for the VNC challenge. *)
Fixpoint negotiateAuthentication_at (depth : nat) (rnd : randoms) : M W bool :=
  a <- theAuth ;;
  let scheme := _rfbAuthScheme a in
  if scheme =? securityTypeNone then
    (if 38 <=? _rfbVersion a then setInit SecurityResult else setInit ClientInitialisation) ;; ret true
  else if scheme =? securityTypeXVP then
    match depth with
    | O => stuck
    | Datatypes.S depth => _negotiateXvpAuth (negotiateAuthentication_at depth rnd)
    end
  else if scheme =? securityTypeARD then _negotiateARDAuth (r_key rnd) (r_user rnd)
  else if scheme =? securityTypeVNCAuth then _negotiateStdVNCAuth
  else if scheme =? securityTypeTight then _negotiateTightAuth
  else if scheme =? securityTypeVeNCrypt then _negotiateVeNCryptAuth
  else if scheme =? securityTypePlain then _negotiatePlainAuth
  else if scheme =? securityTypeUnixLogon then _negotiateTightUnixAuth
  else if scheme =? securityTypeRA2ne then _negotiateRA2neAuth
  else if scheme =? securityTypeMSLogonII then _negotiateMSLogonIIAuth (r_key rnd) (r_user rnd) (r_pass rnd)
  else _fail.

Definition _negotiateAuthentication : randoms -> M W bool := negotiateAuthentication_at 1.

Definition _handleSecurityResult : M W bool :=
  need 4 0 (
    status <- onSock rQshift32 ;;
    if status =? 0 then setInit ClientInitialisation ;; ret true
    else
      a <- theAuth ;;
      if 38 <=? _rfbVersion a then toSecurityReason "security result" status
      else dispatchEvent (EvSecurityFailure status None) ;; _fail).

(** The end of the server's message for Tight: three lists of capabilities,
    skipped. *)
Definition tight_server_init (nameLength : Z) (k : M W bool) : M W bool :=
  need 8 (24 + nameLength) (
    numServerMessages <- onSock rQshift16 ;;
    numClientMessages <- onSock rQshift16 ;;
    numEncodings <- onSock rQshift16 ;;
    onSock (rQskipBytes 2) ;;
    need ((numServerMessages + numClientMessages + numEncodings) * 16) (32 + nameLength) (
      onSock (rQskipBytes (16 * numServerMessages)) ;;
      onSock (rQskipBytes (16 * numClientMessages)) ;;
      onSock (rQskipBytes (16 * numEncodings)) ;;
      k)).

(** Past the point where more data could be needed. *)
Definition server_init_done (width height : Z) (name : list Z) : M W bool :=
  _setDesktopName name ;;
  _resize width height ;;
  o <- theOptions ;;
  (if negb (_viewOnly o) then onLc (modify (set_grabbed true)) else ret tt) ;;
  onDesktop (modify (set_fbDepth 24)) ;;
  d <- theDesktop ;;
  (if list_eqb (_fbName d) (codes "Intel(r) AMT KVM") then onDesktop (modify (set_fbDepth 8)) else ret tt) ;;
  d <- theDesktop ;;
  onSock (Messages.pixelFormat (_fbDepth d) true) ;;
  _sendEncodings ;;
  onSock (Messages.fbUpdateRequest false (Some 0) (Some 0) (_fbWidth d) (_fbHeight d)) ;;
  _updateConnectionState Connected ;;
  ret true.

Definition _negotiateServerInit : M W bool :=
  need 24 0 (
    width <- onSock rQshift16 ;;
    height <- onSock rQshift16 ;;
    onSock rQshift8 ;;
    onSock rQshift8 ;;
    onSock rQshift8 ;;
    onSock rQshift8 ;;
    onSock rQshift16 ;;
    onSock rQshift16 ;;
    onSock rQshift16 ;;
    onSock rQshift8 ;;
    onSock rQshift8 ;;
    onSock rQshift8 ;;
    onSock (rQskipBytes 3) ;;
    nameLength <- onSock rQshift32 ;;
    need nameLength 24 (
      name <- onSock (rQshiftStr nameLength) ;;
      name <- attempt (Utf8.decodeUTF8 name true) ;;
      a <- theAuth ;;
      if _rfbTightVNC a then tight_server_init nameLength (server_init_done width height name)
      else server_init_done width height name)).

Definition _initMsg (rnd : randoms) : M W bool :=
  l <- onLc get ;;
  match _rfbInitState l with
  | ProtocolVersion => _negotiateProtocolVersion
  | Security => _negotiateSecurity
  | Authentication => _negotiateAuthentication rnd
  | SecurityResult => _handleSecurityResult
  | SecurityReason => _handleSecurityReason
  | ClientInitialisation =>
      o <- theOptions ;;
      push8 (if _shared o then 1 else 0) ;;
      doFlush ;;
      setInit ServerInitialisation ;;
      ret true
  | ServerInitialisation => _negotiateServerInit
  | INone => _fail
  end.

(** The connecting part of [_handleMessage]: messages as long as they come. *)
Fixpoint handle_connecting (fuel : nat) (rnd : randoms) : M W unit :=
  l <- onLc get ;;
  if conn_eqb (_rfbConnectionState l) Connecting then
    match fuel with
    | O => stuck
    | Datatypes.S fuel =>
        more <- _initMsg rnd ;;
        if more then handle_connecting fuel rnd else ret tt
    end
  else ret tt.

Definition sendCredentials (creds : credentials) : M W unit :=
  onAuth (modify (set_rfbCredentials creds)) ;;
  _resumeAuthentication.

Definition resume_fires (rnd : randoms) : M W unit :=
  onAuth (modify (fun a => set_resumeTimers (_resumeTimers a - 1) a)) ;;
  _initMsg rnd ;;
  ret tt.
End Handshake.
End Handshake.
