(* ===== verification/Session.v ===== *)
(** The session of core/rfb.js: the messages of a connected server
    ([_normalMsg] and what it calls), [_handleMessage], and what the page asks
    for (keys, clipboard, power).

    [flush_done] is the callback of the display's flush.  The decompressor is
    [Zlib], the compressor a parameter. *)

From Stdlib Require Import ZArith List Lia Bool String QArith.
From S2P Require Import Prelude Source Sink Websock Utf8 Display Decoder Messages Lifecycle Rfb Handshake Inflator Keytables.
Import ListNotations JS JSFacts.
Import Lifecycle.Lifecycle Rfb.Rfb Handshake.Handshake Messages.Messages.
Open Scope Z_scope.
Open Scope code_scope.

Module Session.

(** [RFB.cursors] *)
Definition cursors_none : cursor_image := CursorImage [] 0 0 0 0.
Definition cursors_dot : cursor_image :=
  CursorImage [255; 255; 255; 255;   0;   0;   0; 255; 255; 255; 255; 255;
                 0;   0;   0; 255;   0;   0;   0;   0;   0;   0;   0; 255;
               255; 255; 255; 255;   0;   0;   0; 255; 255; 255; 255; 255] 1 1 3 3.

(** [flags & 0xFF000000] and the capability objects. *)
Definition cap (l : list Z) (i : Z) : bool := existsb (Z.eqb i) l.
Definition bits (from to : Z) : list Z := map (fun i => (1 << i)%js) (map Z.of_nat (seq (Z.to_nat from) (Z.to_nat (to - from + 1)))).
Definition on_bits (v : Z) (l : list Z) : list Z := filter (fun i => negb ((v & i)%js =? 0)) l.

(** [replaceAll("\r\n", "\n")] *)
Fixpoint unix_lines (s : list Z) : list Z :=
  match s with
  | 13 :: 10 :: s => 10 :: unix_lines s
  | c :: s => c :: unix_lines s
  | [] => []
  end.

(** [textData.slice(0, -1)] when it ends with a null. *)
Definition drop_null (s : list Z) : list Z :=
  if (0 <? zlen s) && (zgetd s (zlen s - 1) =? 0) then ztake (zlen s - 1) s else s.

(** A pixel of a VMware classic cursor. *)
Definition PIXEL_MASK : Z := (4294967040 .| 0)%js.
Definition vmware_pixel (andMask xorMask : Z) : list Z :=
  if andMask =? 0 then
    [(xorMask >> 8 & 255)%js; (xorMask >> 16 & 255)%js; (xorMask >> 24 & 255)%js; 255]
  else if (andMask & PIXEL_MASK)%js =? PIXEL_MASK then
    if xorMask =? 0 then [0; 0; 0; 0]
    else if (xorMask & PIXEL_MASK)%js =? PIXEL_MASK then [0; 0; 0; 255]
    else [0; 0; 0; 255]
  else [0; 0; 0; 255].

Definition alpha_pixel (data : Z) : list Z :=
  [(data >> 24 & 255)%js; (data >> 16 & 255)%js; (data >> 8 & 255)%js; (data & 255)%js].

(** A pixel of a cursor: BGRX and a bit of the mask. *)
Definition cursor_pixel (pixels mask : list Z) (w y x : Z) : list Z :=
  let pixIdx := (y * w + x) * 4 in
  let maskIdx := y * ((w + 7) / 8) + x / 8 in
  let alpha := if negb ((zgetd mask maskIdx << (x mod 8) & 128)%js =? 0) then 255 else 0 in
  [zgetd pixels (pixIdx + 2); zgetd pixels (pixIdx + 1); zgetd pixels pixIdx; alpha].


Definition cursor_rgba (pixels mask : list Z) (w h : Z) : list Z :=
  flat_map (fun y => flat_map (cursor_pixel pixels mask w y) (upto w)) (upto h).

(** The alpha bytes of an image: every fourth byte from the third on. *)
Fixpoint alphas (l : list Z) : list Z :=
  match l with
  | _ :: _ :: _ :: a :: l => a :: alphas l
  | _ => []
  end.

Definition _shouldShowDotCursor (show : bool) (image : cursor_image) : bool :=
  show && negb (existsb (fun a => negb (a =? 0)) (alphas (rgbaPixels image))).

Section Session.
Context {Dc S D : Type} `{Sock S} `{Screen D} `{RectDecoders Dc S D} `{Zlib}.
Variable deflate : list Z -> list Z.
Abbreviation W := (world (client Dc) S D).

Definition theClip : M W clip := onClip get.
Definition theFbu : M W fbu := onFbu get.

(** [try { m } catch (err) { handler }] *)
Definition try_catch {A} (m handler : M W A) : M W A := fun w =>
  match m w with
  | (Throw _, w') => handler w'
  | r => r
  end.

Definition _handleSetColourMapMsg : M W bool := _fail.

(** ** The clipboard *)

Fixpoint skip_sizes (n : nat) : M W unit :=
  match n with
  | O => ret tt
  | Datatypes.S n => onSock rQshift32 ;; skip_sizes n
  end.

Definition clipboard_caps (formats actions : Z) : M W bool :=
  onClip (modify (fun c => mkClip (_clipboardText c) [] [])) ;;
  let fs := on_bits formats (bits 0 15) in
  onClip (modify (set_clipboardServerCapabilitiesFormats fs)) ;;
  skip_sizes (List.length fs) ;;
  onClip (modify (set_clipboardServerCapabilitiesActions (on_bits actions (bits 24 31)))) ;;
  onSock (extendedClipboardCaps
    [extendedClipboardActionCaps; extendedClipboardActionRequest; extendedClipboardActionPeek;
     extendedClipboardActionNotify; extendedClipboardActionProvide] [(1, 0)]) ;;
  ret true.

Definition clipboard_request (formats : Z) : M W bool :=
  c <- theClip ;;
  match _clipboardText c with
  | Some text =>
      if cap (_clipboardServerCapabilitiesActions c) extendedClipboardActionProvide
         && negb ((formats & extendedClipboardFormatText)%js =? 0)
      then onSock (extendedClipboardProvide deflate [extendedClipboardFormatText] [text])
      else ret tt
  | None => ret tt
  end ;;
  ret true.

Definition clipboard_peek : M W bool :=
  c <- theClip ;;
  (if cap (_clipboardServerCapabilitiesActions c) extendedClipboardActionNotify then
     onSock (extendedClipboardNotify (match _clipboardText c with Some _ => [extendedClipboardFormatText] | None => [] end))
   else ret tt) ;;
  ret true.

Definition clipboard_notify (formats : Z) : M W bool :=
  c <- theClip ;;
  (if cap (_clipboardServerCapabilitiesActions c) extendedClipboardActionRequest
      && negb ((formats & extendedClipboardFormatText)%js =? 0)
   then onSock (extendedClipboardRequest [extendedClipboardFormatText])
   else ret tt) ;;
  ret true.

(** The texts of a Provide message, one per format bit; the text's chunk is a
    view on the inflator's buffer, read only at the end. *)
Fixpoint provide_loop (formats : Z) (l : list Z) (textData : option Inflator.result) :
    M Inflator.inflator (option Inflator.result) :=
  match l with
  | [] => ret textData
  | format :: l =>
      if negb ((formats & format)%js =? 0) then
        sizeArray <- Inflator.inflate_now 4 ;;
        let size := (zgetd sizeArray 0 << 24 .| zgetd sizeArray 1 << 16 .| zgetd sizeArray 2 << 8 .| zgetd sizeArray 3)%js in
        chunk <- Inflator.inflate size ;;
        provide_loop formats l (if format =? extendedClipboardFormatText then Some chunk else textData)
      else provide_loop formats l textData
  end.

Definition provide_text (formats : Z) (zlibStream : list Z) : outcome (option (list Z)) :=
  fst ((Inflator.setInput (Some zlibStream) ;;
        textData <- provide_loop formats (bits 0 15) None ;;
        match textData with
        | Some r => t <- gets (Inflator.deref r) ;; ret (Some t)
        | None => ret None
        end) Inflator.constructor).

Definition clipboard_provide (formats length : Z) : M W bool :=
  if (formats & extendedClipboardFormatText)%js =? 0 then ret true
  else
    onClip (modify (set_clipboardText None)) ;;
    zlibStream <- onSock (rQshiftBytes (length - 4)) ;;
    textData <- attempt (provide_text formats zlibStream) ;;
    match textData with
    | Some t =>
        text <- attempt (Utf8.decodeUTF8 t false) ;;
        dispatchEvent (EvClipboard (unix_lines (drop_null text))) ;;
        ret true
    | None => ret true
    end.

Definition _handleServerCutText : M W bool :=
  need 7 1 (
    onSock (rQskipBytes 3) ;;
    length <- onSock rQshift32 ;;
    let length := toInt32 length in
    need (Z.abs length) 8 (
      o <- theOptions ;;
      if 0 <=? length then
        text <- onSock (rQshiftStr length) ;;
        if _viewOnly o then ret true
        else dispatchEvent (EvClipboard text) ;; ret true
      else
        let length := Z.abs length in
        flags <- onSock rQshift32 ;;
        let formats := (flags & 65535)%js in
        let actions := (flags & 4278190080)%js in
        if negb ((actions & extendedClipboardActionCaps)%js =? 0) then clipboard_caps formats actions
        else if actions =? extendedClipboardActionRequest then
          if _viewOnly o then ret true else clipboard_request formats
        else if actions =? extendedClipboardActionPeek then
          if _viewOnly o then ret true else clipboard_peek
        else if actions =? extendedClipboardActionNotify then
          if _viewOnly o then ret true else clipboard_notify formats
        else if actions =? extendedClipboardActionProvide then
          if _viewOnly o then ret true else clipboard_provide formats length
        else _fail)).

(** ** Fences and power *)

Definition _handleServerFenceMsg : M W bool :=
  need 8 1 (
    onSock (rQskipBytes 3) ;;
    flags <- onSock rQshift32 ;;
    length <- onSock rQshift8 ;;
    need length 9 (
      let length := if 64 <? length then 64 else length in
      payload <- onSock (rQshiftStr length) ;;
      onDesktop (modify (set_supportsFence true)) ;;
      if (flags & (1 << 31))%js =? 0 then _fail
      else
        let flags := (flags & ((1 << 0) .| (1 << 1)))%js in
        onSock (clientFence flags payload) ;;
        ret true)).

Definition _handleXvpMsg : M W bool :=
  need 3 1 (
    onSock (rQskipBytes 1) ;;
    xvpVer <- onSock rQshift8 ;;
    xvpMsg <- onSock rQshift8 ;;
    (if xvpMsg =? 0 then ret tt
     else if xvpMsg =? 1 then
       onDesktop (modify (set_rfbXvpVer xvpVer)) ;;
       _setCapability true
     else _fail ;; ret tt) ;;
    ret true).

(** ** Cursors *)

Definition _refreshCursor : M W unit :=
  l <- onLc get ;;
  match _rfbConnectionState l with
  | Connecting | Connected =>
      o <- theOptions ;;
      onPage (modify (fun p =>
        set_shownCursor (if _shouldShowDotCursor (_showDotCursor o) (_cursorImage p) then cursors_dot else _cursorImage p) p))
  | _ => ret tt
  end.

Definition _updateCursor (rgba : list Z) (hx hy w h : Z) : M W unit :=
  onPage (modify (set_cursorImage (CursorImage rgba hx hy w h))) ;;
  _refreshCursor.

Definition set_showDotCursor_prop (show : bool) : M W unit :=
  onOptions (modify (set_showDotCursor show)) ;;
  _refreshCursor.

Definition _handleVMwareCursor : M W bool :=
  f <- theFbu ;;
  let w := fwidth f in
  let h := fheight f in
  need 1 0 (
    cursorType <- onSock rQshift8 ;;
    onSock rQshift8 ;;
    if cursorType =? 0 then
      need (w * h * 4 * 2) 2 (
        andMask <- shift32s (Z.to_nat (w * h)) ;;
        xorMask <- shift32s (Z.to_nat (w * h)) ;;
        _updateCursor (flat_map (fun p => vmware_pixel (fst p) (snd p)) (combine andMask xorMask)) (fx f) (fy f) w h ;;
        ret true)
    else if cursorType =? 1 then
      need (w * h * 4) 2 (
        data <- shift32s (Z.to_nat (w * h)) ;;
        _updateCursor (flat_map alpha_pixel data) (fx f) (fy f) w h ;;
        ret true)
    else ret false).

Definition _handleCursor : M W bool :=
  f <- theFbu ;;
  let w := fwidth f in
  let h := fheight f in
  let pixelslength := w * h * 4 in
  let masklength := (w + 7) / 8 * h in
  need (pixelslength + masklength) 0 (
    pixels <- onSock (rQshiftBytes pixelslength) ;;
    mask <- onSock (rQshiftBytes masklength) ;;
    _updateCursor (cursor_rgba pixels mask w h) (fx f) (fy f) w h ;;
    ret true).

(** ** The other pseudo-rectangles *)

Definition _handleDesktopName : M W bool :=
  need 4 0 (
    length <- onSock rQshift32 ;;
    need length 4 (
      name <- onSock (rQshiftStr length) ;;
      name <- attempt (Utf8.decodeUTF8 name true) ;;
      _setDesktopName name ;;
      ret true)).

Definition _handleLedEvent : M W bool :=
  need 1 0 (
    data <- onSock rQshift8 ;;
    let numLock := negb ((data & 2)%js =? 0) in
    let capsLock := negb ((data & 4)%js =? 0) in
    onDesktop (modify (fun d => set_remoteNumLock (Some numLock) (set_remoteCapsLock (Some capsLock) d))) ;;
    ret true).

Fixpoint skip_screens (n : nat) : M W unit :=
  match n with
  | O => ret tt
  | Datatypes.S n => onSock (rQskipBytes 16) ;; skip_screens n
  end.

(** The screens of the layout: the first one's id and flags are kept. *)
Definition read_screens (numberOfScreens : Z) : M W unit :=
  if numberOfScreens <=? 0 then ret tt
  else
    id <- onSock rQshift32 ;;
    onDesktop (modify (set_screenID id)) ;;
    onSock (rQskipBytes 2) ;;
    onSock (rQskipBytes 2) ;;
    onSock (rQskipBytes 2) ;;
    onSock (rQskipBytes 2) ;;
    flags <- onSock rQshift32 ;;
    onDesktop (modify (set_screenFlags flags)) ;;
    skip_screens (Z.to_nat (numberOfScreens - 1)).

Definition _handleExtendedDesktopSize : M W bool :=
  need 4 0 (
    numberOfScreens <- onSock rQpeek8 ;;
    need (4 + numberOfScreens * 16) 0 (
      d <- theDesktop ;;
      let firstUpdate := negb (_supportsSetDesktopSize d) in
      onDesktop (modify (set_supportsSetDesktopSize true)) ;;
      onSock (rQskipBytes 1) ;;
      onSock (rQskipBytes 3) ;;
      read_screens numberOfScreens ;;
      f <- theFbu ;;
      (if (fx f =? 1) && negb (fy f =? 0) then ret tt
       else _resize (fwidth f) (fheight f)) ;;
      (if firstUpdate then _requestRemoteResize else ret tt) ;;
      ret true)).

(** ** Framebuffer updates *)

Definition _handleDataRect : M W bool :=
  f <- theFbu ;;
  d <- theDesktop ;;
  match encoding f with
  | None => ret false
  | Some e =>
      match decoder_of e with
      | None => _fail ;; ret false
      | Some decodeRect =>
          try_catch (onDecoder (decodeRect (fx f) (fy f) (fwidth f) (fheight f) (_fbDepth d)))
            (_fail ;; ret false)
      end
  end.

Definition _handleRect : M W bool :=
  f <- theFbu ;;
  let isE e := match encoding f with Some e' => e' =? e | None => false end in
  if isE pseudoEncodingLastRect then onFbu (modify (set_rects 1)) ;; ret true
  else if isE pseudoEncodingVMwareCursor then _handleVMwareCursor
  else if isE pseudoEncodingCursor then _handleCursor
  else if isE pseudoEncodingQEMUExtendedKeyEvent then
    onDesktop (modify (set_qemuExtKeyEventSupported true)) ;; ret true
  else if isE pseudoEncodingDesktopName then _handleDesktopName
  else if isE pseudoEncodingDesktopSize then _resize (fwidth f) (fheight f) ;; ret true
  else if isE pseudoEncodingExtendedDesktopSize then _handleExtendedDesktopSize
  else if isE pseudoEncodingQEMULedEvent then _handleLedEvent
  else _handleDataRect.

(** The header of a rectangle, if it was not read yet. *)
Definition rect_header (k : M W bool) : M W bool :=
  f <- theFbu ;;
  match encoding f with
  | Some _ => k
  | None =>
      need 12 0 (
        x <- onSock rQshift16 ;;
        y <- onSock rQshift16 ;;
        width <- onSock rQshift16 ;;
        height <- onSock rQshift16 ;;
        e <- onSock rQshift32 ;;
        onFbu (modify (fun f => mkFbu (rects f) x y width height (Some (toInt32 e)) (_flushing f))) ;;
        k)
  end.

Fixpoint rects_loop (fuel : nat) : M W bool :=
  f <- theFbu ;;
  if 0 <? rects f then
    match fuel with
    | O => stuck
    | Datatypes.S fuel =>
        rect_header (
          done <- _handleRect ;;
          if negb done then ret false
          else
            onFbu (modify (fun f => set_encoding None (set_rects (rects f - 1) f))) ;;
            rects_loop fuel)
    end
  else
    onDisp d_flip ;;
    ret true.

Definition all_rects : M W bool :=
  f <- theFbu ;;
  rects_loop (Z.to_nat (rects f)).

Definition _framebufferUpdate : M W bool :=
  f <- theFbu ;;
  if rects f =? 0 then
    need 3 1 (
      onSock (rQskipBytes 1) ;;
      n <- onSock rQshift16 ;;
      onFbu (modify (set_rects n)) ;;
      busy <- onDisp (gets d_pending) ;;
      if busy then
        onFbu (modify (set_flushing true)) ;;
        onDisp d_flush ;;
        ret false
      else all_rects)
  else all_rects.

(** ** All messages *)

(** The bytes peeked for the log are not modelled. *)
Definition _normalMsg : M W bool :=
  f <- theFbu ;;
  msgType <- (if 0 <? rects f then ret 0 else onSock rQshift8) ;;
  if msgType =? 0 then
    res <- _framebufferUpdate ;;
    d <- theDesktop ;;
    (if res && negb (_enabledContinuousUpdates d)
     then onSock (fbUpdateRequest true (Some 0) (Some 0) (_fbWidth d) (_fbHeight d)) else ret tt) ;;
    ret res
  else if msgType =? 1 then _handleSetColourMapMsg
  else if msgType =? 2 then dispatchEvent EvBell ;; ret true
  else if msgType =? 3 then _handleServerCutText
  else if msgType =? 150 then
    d <- theDesktop ;;
    let first := negb (_supportsContinuousUpdates d) in
    onDesktop (modify (fun d => set_enabledContinuousUpdates false (set_supportsContinuousUpdates true d))) ;;
    (if first then
       onDesktop (modify (set_enabledContinuousUpdates true)) ;;
       _updateContinuousUpdates
     else ret tt) ;;
    ret true
  else if msgType =? 248 then _handleServerFenceMsg
  else if msgType =? 250 then _handleXvpMsg
  else _fail ;; ret true.

(** The loop of a connected client, one message per unit of fuel. *)
Fixpoint handle_connected (fuel : nat) : M W unit :=
  f <- theFbu ;;
  if _flushing f then ret tt
  else
    match fuel with
    | O => stuck
    | Datatypes.S fuel =>
        more <- _normalMsg ;;
        if negb more then ret tt
        else
          wait <- onSock (rQwait 1 0) ;;
          if wait then ret tt else handle_connected fuel
    end.

Definition _handleMessage (fuel : nat) (rnd : randoms) : M W unit :=
  wait <- onSock (rQwait 1 0) ;;
  if wait then ret tt
  else
    l <- onLc get ;;
    match _rfbConnectionState l with
    | Connected => handle_connected fuel
    | Connecting => handle_connecting fuel rnd
    | _ => ret tt
    end.

(** The display has been flushed. *)
Definition flush_done (fuel : nat) (rnd : randoms) : M W unit :=
  onFbu (modify (set_flushing false)) ;;
  wait <- onSock (rQwait 1 0) ;;
  if wait then ret tt else _handleMessage fuel rnd.

(** ** What the page asks for *)

Definition can_send (l : lc) (o : options) : bool :=
  conn_eqb (_rfbConnectionState l) Connected && negb (_viewOnly o).

(** [sendKey] with a direction; a scan code or keysym of 0 is none. *)
Definition sendKey (keysym : Z) (code : string) (down : bool) : M W unit :=
  l <- onLc get ;;
  o <- theOptions ;;
  if negb (can_send l o) then ret tt
  else
    d <- theDesktop ;;
    let scancode := match Keytables.Keytables.XtScancode_of code with Some s => s | None => 0 end in
    if _qemuExtKeyEventSupported d && negb (scancode =? 0) then
      onSock (QEMUExtendedKeyEvent keysym down scancode)
    else if keysym =? 0 then ret tt
    else onSock (keyEvent keysym (Z.b2z down)).

(** Without a direction: a press. *)
Definition pressKey (keysym : Z) (code : string) : M W unit :=
  l <- onLc get ;;
  o <- theOptions ;;
  if negb (can_send l o) then ret tt
  else sendKey keysym code true ;; sendKey keysym code false.

Definition sendCtrlAltDel : M W unit :=
  l <- onLc get ;;
  o <- theOptions ;;
  if negb (can_send l o) then ret tt
  else
    sendKey Keytables.Keytables.XK_Control_L "ControlLeft" true ;;
    sendKey Keytables.Keytables.XK_Alt_L "AltLeft" true ;;
    sendKey Keytables.Keytables.XK_Delete "Delete" true ;;
    sendKey Keytables.Keytables.XK_Delete "Delete" false ;;
    sendKey Keytables.Keytables.XK_Alt_L "AltLeft" false ;;
    sendKey Keytables.Keytables.XK_Control_L "ControlLeft" false.

Definition machineShutdown : M W unit := _xvpOp 1 2.
Definition machineReboot : M W unit := _xvpOp 1 3.
Definition machineReset : M W unit := _xvpOp 1 4.

(** The code points of a string: an unpaired surrogate stands for itself. *)
Fixpoint code_points (s : list Z) : list Z :=
  match s with
  | [] => []
  | u :: s' =>
      match s' with
      | v :: s'' =>
          if Utf8.is_high u && Utf8.is_low v then Utf8.from_pair u v :: code_points s''
          else u :: code_points s'
      | [] => [u]
      end
  end.

(** Only Latin-1 can be sent: anything else becomes a question mark. *)
Definition latin1 (code : Z) : Z := if 255 <? code then 63 else code.

Definition clipboardPasteFrom (text : list Z) : M W unit :=
  l <- onLc get ;;
  o <- theOptions ;;
  if negb (can_send l o) then ret tt
  else
    c <- theClip ;;
    if cap (_clipboardServerCapabilitiesFormats c) extendedClipboardFormatText
       && cap (_clipboardServerCapabilitiesActions c) extendedClipboardActionNotify
    then
      onClip (modify (set_clipboardText (Some text))) ;;
      onSock (extendedClipboardNotify [extendedClipboardFormatText])
    else onSock (clientCutText (map latin1 (code_points text)) false).

(** The local state of a lock: unknown is null, but one caller leaves the
    argument out. *)
Inductive lock := LockNull | LockUndefined | Lock (on : bool).

(** [remote !== null && local !== null && remote !== local] *)
Definition sync_lock (remote : option bool) (local : lock) : bool :=
  match remote, local with
  | None, _ | _, LockNull => false
  | Some _, LockUndefined => true
  | Some a, Lock b => negb (eqb a b)
  end.

(** A key event of the keyboard, with the local state of the locks. *)
Definition _handleKeyEvent (keysym : Z) (code : string) (down : bool) (numlock capslock : lock) : M W unit :=
  (if String.eqb code "CapsLock" && down then onDesktop (modify (set_remoteCapsLock None)) else ret tt) ;;
  d <- theDesktop ;;
  (if sync_lock (_remoteCapsLock d) capslock && down then
     sendKey Keytables.Keytables.XK_Caps_Lock "CapsLock" true ;;
     sendKey Keytables.Keytables.XK_Caps_Lock "CapsLock" false ;;
     onDesktop (modify (set_remoteCapsLock None))
   else ret tt) ;;
  (if String.eqb code "NumLock" && down then onDesktop (modify (set_remoteNumLock None)) else ret tt) ;;
  d <- theDesktop ;;
  (if sync_lock (_remoteNumLock d) numlock && down then
     sendKey Keytables.Keytables.XK_Num_Lock "NumLock" true ;;
     sendKey Keytables.Keytables.XK_Num_Lock "NumLock" false ;;
     onDesktop (modify (set_remoteNumLock None))
   else ret tt) ;;
  sendKey keysym code down.
End Session.
End Session.
