(* ===== verification/Pointer.v ===== *)
(** The pointer of core/rfb.js: mouse, wheel and touch gestures, turned into
    pointer messages, scrolling the viewport, or key presses.

    Positions are rationals.  The time ([now], milliseconds), the position of
    the canvas in the window ([rect]) and the drag threshold of the screen are
    what the browser reports; [hypot] is the language's own, computed in
    floating point. *)

From Stdlib Require Import ZArith List Lia Bool String QArith Qround Qabs.
From S2P Require Import Prelude Source Sink Websock Display Decoder Messages Lifecycle Rfb Handshake Inflator Keytables Session.
Import ListNotations JS JSFacts.
Import Lifecycle.Lifecycle Rfb.Rfb Messages.Messages Session.Session.
Open Scope Z_scope.
Open Scope code_scope.

Module Pointer.

Definition MOUSE_MOVE_DELAY : Z := 17.
Definition WHEEL_STEP : Q := 50.
Definition WHEEL_LINE_HEIGHT : Q := 19.
Definition GESTURE_ZOOMSENS : Q := 75.
Definition GESTURE_SCRLSENS : Q := 50.
Definition DOUBLE_TAP_TIMEOUT : Z := 1000.
Definition DOUBLE_TAP_THRESHOLD : Q := 50.

(** [getBoundingClientRect] *)
Record rect := Rect { r_left : Q; r_right : Q; r_top : Q; r_bottom : Q; r_width : Q; r_height : Q }.

Definition Qlt_bool (a b : Q) : bool := negb (Qle_bool b a).

(** [clientToElement] of core/util/element.js *)
Definition clip_to (x low high size : Q) : Q :=
  if Qlt_bool x low then 0
  else if Qle_bool high x then size - 1
  else x - low.

Definition clientToElement (x y : Q) (bounds : rect) : Q * Q :=
  (clip_to x (r_left bounds) (r_right bounds) (r_width bounds),
   clip_to y (r_top bounds) (r_bottom bounds) (r_height bounds)).

(** A mouse event.  What it does to a click is only whether the event goes on,
    so its target is left out. *)
Inductive mouse_type := Click | ContextMenu | MouseDown | MouseUp | MouseMove.
Record mouse_event := MouseEvent { m_type : mouse_type; m_clientX : Q; m_clientY : Q; m_button : Z }.

Inductive gesture_phase := GestureStart | GestureMove | GestureEnd.

Record wheel_event := WheelEvent { w_clientX : Q; w_clientY : Q; w_deltaX : Q; w_deltaY : Q; w_deltaMode : Z }.

Section Pointer.
Context {Dc S D : Type} `{Sock S} `{Screen D}.
Variables (hypot : Q -> Q -> Q) (dragThreshold : Q) (bounds : rect).
Abbreviation W := (world (client Dc) S D).

Definition thePointer : M W pointer := onPointer get.

(** A pointer message with the position on the remote screen. *)
Definition sendPointer (x y mask : Z) : M W unit :=
  l <- onLc get ;;
  o <- theOptions ;;
  if negb (conn_eqb (_rfbConnectionState l) Connected) then ret tt
  else if _viewOnly o then ret tt
  else onSock (pointerEvent x y mask).

Definition _sendMouse (x y : Q) (mask : Z) : M W unit :=
  ax <- onDisp (gets (fun d => d_absX d x)) ;;
  ay <- onDisp (gets (fun d => d_absY d y)) ;;
  sendPointer ax ay mask.

(** The move event that waits, the mask, and the message. *)
Definition press (x y : Q) (down : bool) (bmask : Z) : M W unit :=
  l <- onLc get ;;
  p <- thePointer ;;
  (if _mouseMoveTimer l then
     onLc (modify (set_mouseMoveTimer false)) ;;
     _sendMouse x y (_mouseButtonMask p)
   else ret tt) ;;
  onPointer (modify (fun p => set_mouseButtonMask
    (if down then _mouseButtonMask p .| bmask else _mouseButtonMask p & bnot bmask)%js p)) ;;
  p <- thePointer ;;
  _sendMouse x y (_mouseButtonMask p).

Definition _handleMouseButton (x y : Q) (down : bool) (bmask : Z) : M W unit :=
  p <- thePointer ;;
  if dragViewport p then
    if down && negb (_viewportDragging p) then
      onPointer (modify (fun p => set_viewportHasMoved false (set_viewportDragPos (x, y) (set_viewportDragging true p))))
    else
      onPointer (modify (set_viewportDragging false)) ;;
      if _viewportHasMoved p then ret tt
      else
        _sendMouse x y bmask ;;
        press x y down bmask
  else press x y down bmask.

Definition _handleMouseMove (now : Z) (x y : Q) : M W unit :=
  p <- thePointer ;;
  if _viewportDragging p then
    let deltaX := (fst (_viewportDragPos p) - x)%Q in
    let deltaY := (snd (_viewportDragPos p) - y)%Q in
    if _viewportHasMoved p || (Qlt_bool dragThreshold (Qabs deltaX) || Qlt_bool dragThreshold (Qabs deltaY)) then
      onPointer (modify (fun p => set_viewportDragPos (x, y) (set_viewportHasMoved true p))) ;;
      onDisp (d_viewportChangePos deltaX deltaY)
    else ret tt
  else
    onPointer (modify (set_mousePos (Some (x, y)))) ;;
    l <- onLc get ;;
    if _mouseMoveTimer l then ret tt
    else
      let timeSinceLastMove := now - _mouseLastMoveTime p in
      if MOUSE_MOVE_DELAY <? timeSinceLastMove then
        _sendMouse x y (_mouseButtonMask p) ;;
        onPointer (modify (set_mouseLastMoveTime now))
      else onLc (modify (set_mouseMoveTimer true)).

(** The timer fires.  Before any move the position is undefined, which both
    coordinates turn into 0. *)
Definition _handleDelayedMouseMove (now : Z) : M W unit :=
  onLc (modify (set_mouseMoveTimer false)) ;;
  p <- thePointer ;;
  match _mousePos p with
  | Some (x, y) => _sendMouse x y (_mouseButtonMask p)
  | None => sendPointer 0 0 (_mouseButtonMask p)
  end ;;
  onPointer (modify (set_mouseLastMoveTime now)).

Definition _handleMouse (now : Z) (ev : mouse_event) : M W unit :=
  match m_type ev with
  | Click | ContextMenu => ret tt
  | MouseDown =>
      let '(x, y) := clientToElement (m_clientX ev) (m_clientY ev) bounds in
      _handleMouseButton x y true (1 << m_button ev)%js
  | MouseUp =>
      let '(x, y) := clientToElement (m_clientX ev) (m_clientY ev) bounds in
      _handleMouseButton x y false (1 << m_button ev)%js
  | MouseMove =>
      let '(x, y) := clientToElement (m_clientX ev) (m_clientY ev) bounds in
      _handleMouseMove now x y
  end.

(** A press and a release of the button [b]. *)
Definition click (pos : Q * Q) (b : Z) : M W unit :=
  _handleMouseButton (fst pos) (snd pos) true b ;;
  _handleMouseButton (fst pos) (snd pos) false b.

Definition _handleWheel (ev : wheel_event) : M W unit :=
  l <- onLc get ;;
  o <- theOptions ;;
  if negb (conn_eqb (_rfbConnectionState l) Connected) then ret tt
  else if _viewOnly o then ret tt
  else
    let pos := clientToElement (w_clientX ev) (w_clientY ev) bounds in
    let scaled d := if w_deltaMode ev =? 0 then d else (d * WHEEL_LINE_HEIGHT)%Q in
    onPointer (modify (fun p =>
      set_accumulatedWheelDeltaY (_accumulatedWheelDeltaY p + scaled (w_deltaY ev))%Q
        (set_accumulatedWheelDeltaX (_accumulatedWheelDeltaX p + scaled (w_deltaX ev))%Q p))) ;;
    p <- thePointer ;;
    (if Qle_bool WHEEL_STEP (Qabs (_accumulatedWheelDeltaX p)) then
       (if Qlt_bool (_accumulatedWheelDeltaX p) 0 then click pos (1 << 5)%js
        else if Qlt_bool 0 (_accumulatedWheelDeltaX p) then click pos (1 << 6)%js
        else ret tt) ;;
       onPointer (modify (set_accumulatedWheelDeltaX 0%Q))
     else ret tt) ;;
    p <- thePointer ;;
    if Qle_bool WHEEL_STEP (Qabs (_accumulatedWheelDeltaY p)) then
      (if Qlt_bool (_accumulatedWheelDeltaY p) 0 then click pos (1 << 3)%js
       else if Qlt_bool 0 (_accumulatedWheelDeltaY p) then click pos (1 << 4)%js
       else ret tt) ;;
      onPointer (modify (set_accumulatedWheelDeltaY 0%Q))
    else ret tt.

(** ** Gestures *)

Definition _fakeMouseMove (now : Z) (ev : gesture) (elementX elementY : Q) : M W unit :=
  _handleMouseMove now elementX elementY ;;
  onPointer (modify (set_cursorPos (Some (g_clientX ev, g_clientY ev)))).

Definition gesture_eqb (a b : gesture_type) : bool :=
  match a, b with
  | OneTap, OneTap | TwoTap, TwoTap | ThreeTap, ThreeTap | Drag, Drag | LongPress, LongPress
  | TwoDrag, TwoDrag | Pinch, Pinch => true
  | _, _ => false
  end.

(** The tap that this one repeats, if it comes soon after one of its kind. *)
Definition recent_tap (now : Z) (ev : gesture) (p : pointer) : option gesture :=
  match _gestureLastTapTime p, _gestureFirstDoubleTapEv p with
  | Some last, Some first =>
      if (now - last <? DOUBLE_TAP_TIMEOUT) && gesture_eqb (g_type first) (g_type ev) then Some first else None
  | _, _ => None
  end.

Definition _handleTapEvent (now : Z) (ev : gesture) (bmask : Z) : M W unit :=
  p <- thePointer ;;
  let first :=
    match recent_tap now ev p with
    | Some first =>
        if Qlt_bool (hypot (g_clientX first - g_clientX ev) (g_clientY first - g_clientY ev)) DOUBLE_TAP_THRESHOLD
        then first else ev
    | None => ev
    end in
  let pos := clientToElement (g_clientX first) (g_clientY first) bounds in
  onPointer (modify (fun p => set_gestureLastTapTime (Some now) (set_gestureFirstDoubleTapEv (Some first) p))) ;;
  _fakeMouseMove now first (fst pos) (snd pos) ;;
  click pos bmask.

(** [while (magnitude - last > sens) { click up; last += sens; }], then the
    same downwards. *)
Fixpoint scroll_up (fuel : nat) (magnitude sens : Q) (last : pointer -> Q) (set_last : Q -> pointer -> pointer)
    (pos : Q * Q) (b : Z) : M W unit :=
  p <- thePointer ;;
  if Qlt_bool sens (magnitude - last p) then
    match fuel with
    | O => stuck
    | Datatypes.S fuel =>
        click pos b ;;
        onPointer (modify (fun p => set_last (last p + sens)%Q p)) ;;
        scroll_up fuel magnitude sens last set_last pos b
    end
  else ret tt.

Fixpoint scroll_down (fuel : nat) (magnitude sens : Q) (last : pointer -> Q) (set_last : Q -> pointer -> pointer)
    (pos : Q * Q) (b : Z) : M W unit :=
  p <- thePointer ;;
  if Qlt_bool (magnitude - last p) (- sens) then
    match fuel with
    | O => stuck
    | Datatypes.S fuel =>
        click pos b ;;
        onPointer (modify (fun p => set_last (last p - sens)%Q p)) ;;
        scroll_down fuel magnitude sens last set_last pos b
    end
  else ret tt.

(** Enough turns for a distance. *)
Definition turns (distance sens : Q) : nat := Z.to_nat (Qfloor (Qabs distance / sens) + 1).

Definition scroll (magnitude sens : Q) (last : pointer -> Q) (set_last : Q -> pointer -> pointer)
    (pos : Q * Q) (up down : Z) : M W unit :=
  p <- thePointer ;;
  scroll_up (turns (magnitude - last p) sens) magnitude sens last set_last pos up ;;
  p <- thePointer ;;
  scroll_down (turns (magnitude - last p) sens) magnitude sens last set_last pos down.

Definition _handleGesture (now : Z) (phase : gesture_phase) (ev : gesture) : M W unit :=
  let pos := clientToElement (g_clientX ev) (g_clientY ev) bounds in
  let x := fst pos in
  let y := snd pos in
  match phase, g_type ev with
  | GestureStart, OneTap => _handleTapEvent now ev 1
  | GestureStart, TwoTap => _handleTapEvent now ev 4
  | GestureStart, ThreeTap => _handleTapEvent now ev 2
  | GestureStart, Drag => _fakeMouseMove now ev x y ;; _handleMouseButton x y true 1
  | GestureStart, LongPress => _fakeMouseMove now ev x y ;; _handleMouseButton x y true 4
  | GestureStart, TwoDrag =>
      onPointer (modify (fun p => set_gestureLastMagnitudeY (g_magnitudeY ev) (set_gestureLastMagnitudeX (g_magnitudeX ev) p))) ;;
      _fakeMouseMove now ev x y
  | GestureStart, Pinch =>
      onPointer (modify (set_gestureLastMagnitudeX (hypot (g_magnitudeX ev) (g_magnitudeY ev)))) ;;
      _fakeMouseMove now ev x y
  | GestureMove, (OneTap | TwoTap | ThreeTap) => ret tt
  | GestureMove, (Drag | LongPress) => _fakeMouseMove now ev x y
  | GestureMove, TwoDrag =>
      _fakeMouseMove now ev x y ;;
      scroll (g_magnitudeY ev) GESTURE_SCRLSENS _gestureLastMagnitudeY set_gestureLastMagnitudeY pos 8 16 ;;
      scroll (g_magnitudeX ev) GESTURE_SCRLSENS _gestureLastMagnitudeX set_gestureLastMagnitudeX pos 32 64
  | GestureMove, Pinch =>
      _fakeMouseMove now ev x y ;;
      let magnitude := hypot (g_magnitudeX ev) (g_magnitudeY ev) in
      p <- thePointer ;;
      (if Qlt_bool GESTURE_ZOOMSENS (Qabs (magnitude - _gestureLastMagnitudeX p)) then
         _handleKeyEvent Keytables.Keytables.XK_Control_L "ControlLeft" true LockUndefined LockUndefined ;;
         scroll magnitude GESTURE_ZOOMSENS _gestureLastMagnitudeX set_gestureLastMagnitudeX pos 8 16
       else ret tt) ;;
      _handleKeyEvent Keytables.Keytables.XK_Control_L "ControlLeft" false LockUndefined LockUndefined
  | GestureEnd, (OneTap | TwoTap | ThreeTap | Pinch | TwoDrag) => ret tt
  | GestureEnd, Drag => _fakeMouseMove now ev x y ;; _handleMouseButton x y false 1
  | GestureEnd, LongPress => _fakeMouseMove now ev x y ;; _handleMouseButton x y false 4
  end.
End Pointer.
End Pointer.
