(* ===== verification/GestureHandler.v ===== *)
(** The gesture recogniser, core/input/gesturehandler.js.

    Touches come with the time (milliseconds).  A timer is known by whether its
    identifier is still stored and by whether it is still to fire: a timer that
    has fired keeps its identifier until somebody stops it.  Positions are
    rationals; [hypot] and [atan2] (in degrees) are the language's own, computed
    in floating point.  The events pushed to the target form a list. *)

From Stdlib Require Import ZArith List Lia Bool String QArith Qround Qabs.
From S2P Require Import Prelude Source Sink Websock Display Decoder Messages Lifecycle Rfb Handshake Inflator Keytables Session Pointer.
Import ListNotations JS JSFacts.
Import Rfb.Rfb Pointer.Pointer.
Open Scope Z_scope.
Open Scope code_scope.

Module GestureHandler.

Definition GH_NOGESTURE : Z := 0.
Definition GH_ONETAP : Z := 1.
Definition GH_TWOTAP : Z := 2.
Definition GH_THREETAP : Z := 4.
Definition GH_DRAG : Z := 8.
Definition GH_LONGPRESS : Z := 16.
Definition GH_TWODRAG : Z := 32.
Definition GH_PINCH : Z := 64.
Definition GH_INITSTATE : Z := 127.

Definition GH_MOVE_THRESHOLD : Q := 50.
Definition GH_ANGLE_THRESHOLD : Q := 90.
Definition GH_MULTITOUCH_TIMEOUT : Z := 250.
Definition GH_TAP_TIMEOUT : Z := 1000.
Definition GH_LONGPRESS_TIMEOUT : Z := 1000.
Definition GH_TWOTOUCH_TIMEOUT : Z := 50.

Record touch := Touch {
  t_id : Z;
  started : Z;
  active : bool;
  firstX : Q;
  firstY : Q;
  lastX : Q;
  lastY : Q;
  angle : Q
}.

Definition set_active v t := Touch (t_id t) (started t) v (firstX t) (firstY t) (lastX t) (lastY t) (angle t).
Definition set_last x y t := Touch (t_id t) (started t) (active t) (firstX t) (firstY t) x y (angle t).
Definition set_angle v t := Touch (t_id t) (started t) (active t) (firstX t) (firstY t) (lastX t) (lastY t) v.

Record handler := mkHandler {
  _state : Z;
  _tracked : list touch;
  _ignored : list Z;
  _waitingRelease : bool;
  _releaseStart : Z;
  longpress_pending : bool;
  _twoTouchTimeoutId : bool;
  twoTouch_pending : bool;
  pushed : list (gesture_phase * gesture)
}.

Definition set_state v h := mkHandler v (_tracked h) (_ignored h) (_waitingRelease h) (_releaseStart h) (longpress_pending h) (_twoTouchTimeoutId h) (twoTouch_pending h) (pushed h).
Definition set_tracked v h := mkHandler (_state h) v (_ignored h) (_waitingRelease h) (_releaseStart h) (longpress_pending h) (_twoTouchTimeoutId h) (twoTouch_pending h) (pushed h).
Definition set_ignored v h := mkHandler (_state h) (_tracked h) v (_waitingRelease h) (_releaseStart h) (longpress_pending h) (_twoTouchTimeoutId h) (twoTouch_pending h) (pushed h).
Definition set_waitingRelease v h := mkHandler (_state h) (_tracked h) (_ignored h) v (_releaseStart h) (longpress_pending h) (_twoTouchTimeoutId h) (twoTouch_pending h) (pushed h).
Definition set_releaseStart v h := mkHandler (_state h) (_tracked h) (_ignored h) (_waitingRelease h) v (longpress_pending h) (_twoTouchTimeoutId h) (twoTouch_pending h) (pushed h).
Definition set_longpress v h := mkHandler (_state h) (_tracked h) (_ignored h) (_waitingRelease h) (_releaseStart h) v (_twoTouchTimeoutId h) (twoTouch_pending h) (pushed h).
Definition set_twoTouch id pending h := mkHandler (_state h) (_tracked h) (_ignored h) (_waitingRelease h) (_releaseStart h) (longpress_pending h) id pending (pushed h).
Definition add_pushed e h := mkHandler (_state h) (_tracked h) (_ignored h) (_waitingRelease h) (_releaseStart h) (longpress_pending h) (_twoTouchTimeoutId h) (twoTouch_pending h) (pushed h ++ [e]).

Definition constructor : handler := mkHandler GH_INITSTATE [] [] false 0 false false false [].

Definition clear (bits : Z) (h : handler) : handler := set_state (_state h & bnot bits)%js h.

(** ** Reading the state *)

Definition _hasDetectedGesture (h : handler) : bool :=
  if _state h =? GH_NOGESTURE then false
  else if negb ((_state h & (_state h - 1))%js =? 0) then false
  else if negb ((_state h & (GH_ONETAP .| GH_TWOTAP .| GH_THREETAP))%js =? 0) && existsb active (_tracked h) then false
  else true.

Definition _stateToGesture (state : Z) : outcome gesture_type :=
  if state =? GH_ONETAP then Ret OneTap
  else if state =? GH_TWOTAP then Ret TwoTap
  else if state =? GH_THREETAP then Ret ThreeTap
  else if state =? GH_DRAG then Ret Drag
  else if state =? GH_LONGPRESS then Ret LongPress
  else if state =? GH_TWODRAG then Ret TwoDrag
  else if state =? GH_PINCH then Ret Pinch
  else Throw "Unknown gesture state".

(** [sum / size] over the tracked touches. *)
Definition average (f : touch -> Q) (l : list touch) : Q :=
  (fold_left (fun s t => s + f t) l 0 / inject_Z (zlen l))%Q.

(** First and last average positions. *)
Definition _getPosition (h : handler) : outcome ((Q * Q) * (Q * Q)) :=
  match _tracked h with
  | [] => Throw "Failed to get gesture position, no tracked touches"
  | l => Ret ((average firstX l, average firstY l), (average lastX l, average lastY l))
  end.

Definition _getAverageMovement (h : handler) : outcome (Q * Q) :=
  match _tracked h with
  | [] => Throw "Failed to get gesture movement, no tracked touches"
  | l => Ret (average (fun t => lastX t - firstX t)%Q l, average (fun t => lastY t - firstY t)%Q l)
  end.

(** Distance between the first and the last tracked touch, at the start and
    now. *)
Definition _getAverageDistance (h : handler) : outcome ((Q * Q) * (Q * Q)) :=
  match _tracked h with
  | [] => Throw "Failed to get gesture distance, no tracked touches"
  | first :: rest =>
      let last := last rest first in
      Ret ((Qabs (firstX last - firstX first), Qabs (firstY last - firstY first)),
           (Qabs (lastX last - lastX first), Qabs (lastY last - lastY first)))%Q
  end.

Section Handler.
Variables (hypot : Q -> Q -> Q) (atan2 : Q -> Q -> Q).

Definition attempt {A} (o : outcome A) : M handler A := fun h => (o, h).

Definition phase_start (p : gesture_phase) : bool := match p with GestureStart => true | _ => false end.

Definition _pushEvent (type : gesture_phase) : M handler unit :=
  h <- get ;;
  g <- attempt (_stateToGesture (_state h)) ;;
  avg <- attempt (_getPosition h) ;;
  let pos :=
    if phase_start type then fst avg
    else if (_state h =? GH_TWODRAG) || (_state h =? GH_PINCH) then fst avg
    else snd avg in
  mag <- (if _state h =? GH_PINCH then
            distance <- attempt (_getAverageDistance h) ;;
            ret (if phase_start type then fst distance else snd distance)
          else if _state h =? GH_TWODRAG then
            if phase_start type then ret (0%Q, 0%Q) else attempt (_getAverageMovement h)
          else ret (0%Q, 0%Q)) ;;
  modify (add_pushed (type, Gesture g (fst pos) (snd pos) (fst mag) (snd mag))).

Definition _startLongpressTimeout : M handler unit := modify (set_longpress true).
Definition _stopLongpressTimeout : M handler unit := modify (set_longpress false).
Definition _startTwoTouchTimeout : M handler unit := modify (set_twoTouch true true).
Definition _stopTwoTouchTimeout : M handler unit := modify (set_twoTouch false false).
Definition _isTwoTouchTimeoutRunning (h : handler) : bool := _twoTouchTimeoutId h.

(** The timers fire: neither is to fire again. *)
Definition _longpressTimeout : M handler unit :=
  modify (set_longpress false) ;;
  h <- get ;;
  if _hasDetectedGesture h then throw "A longpress gesture failed, conflict with a different gesture"
  else
    modify (set_state GH_LONGPRESS) ;;
    _pushEvent GestureStart.

Definition _twoTouchTimeout : M handler unit :=
  modify (fun h => set_twoTouch (_twoTouchTimeoutId h) false h) ;;
  h <- get ;;
  match _tracked h with
  | [] => throw "A pinch or two drag gesture failed, no tracked touches"
  | _ =>
      avgM <- attempt (_getAverageMovement h) ;;
      let avgMoveH := Qabs (fst avgM) in
      let avgMoveV := Qabs (snd avgM) in
      avgD <- attempt (_getAverageDistance h) ;;
      let deltaTouchDistance :=
        Qabs (hypot (fst (fst avgD)) (snd (fst avgD)) - hypot (fst (snd avgD)) (snd (snd avgD))) in
      modify (set_state (if Qlt_bool avgMoveV deltaTouchDistance && Qlt_bool avgMoveH deltaTouchDistance
                         then GH_PINCH else GH_TWODRAG)) ;;
      _pushEvent GestureStart ;;
      _pushEvent GestureMove
  end.

(** ** Touches *)

Definition ignore (id : Z) : M handler unit := modify (fun h => set_ignored (_ignored h ++ [id]) h).

Definition _touchStart (now id : Z) (x y : Q) : M handler unit :=
  h <- get ;;
  if _hasDetectedGesture h || (_state h =? GH_NOGESTURE) then ignore id
  else if match _tracked h with t :: _ => GH_MULTITOUCH_TIMEOUT <? now - started t | [] => false end then
    modify (set_state GH_NOGESTURE) ;;
    ignore id
  else if _waitingRelease h then
    modify (set_state GH_NOGESTURE) ;;
    ignore id
  else
    modify (fun h => set_tracked (_tracked h ++ [Touch id now true x y x y 0]) h) ;;
    h <- get ;;
    let n := zlen (_tracked h) in
    if n =? 1 then _startLongpressTimeout
    else if n =? 2 then
      modify (clear (GH_ONETAP .| GH_DRAG .| GH_LONGPRESS)%js) ;;
      _stopLongpressTimeout
    else if n =? 3 then modify (clear (GH_TWOTAP .| GH_TWODRAG .| GH_PINCH)%js)
    else modify (set_state GH_NOGESTURE).

(** The first tracked touch with that id changed in place. *)
Fixpoint update_touch (id : Z) (f : touch -> touch) (l : list touch) : list touch :=
  match l with
  | [] => []
  | t :: l => if t_id t =? id then f t :: l else t :: update_touch id f l
  end.

Definition find_touch (id : Z) (l : list touch) : option touch := find (fun t => t_id t =? id) l.

(** [a % 360] for a non-negative [a]. *)
Definition mod360 (a : Q) : Q := (a - 360 * inject_Z (Qfloor (a / 360)))%Q.

(** Which two-finger gesture it is, for a touch that moved far enough. *)
Definition two_touch_decision (touch : touch) (id : Z) : M handler unit :=
  h <- get ;;
  match find (fun t => negb (t_id t =? id)) (_tracked h) with
  | None => throw "TypeError"
  | Some prevTouch =>
      let prevDeltaMove := hypot (firstX prevTouch - lastX prevTouch) (firstY prevTouch - lastY prevTouch) in
      if Qlt_bool GH_MOVE_THRESHOLD prevDeltaMove then
        let deltaAngle := Qabs (angle touch - angle prevTouch) in
        let deltaAngle := Qabs (mod360 (deltaAngle + 180) - 180) in
        modify (clear (if Qlt_bool GH_ANGLE_THRESHOLD deltaAngle then GH_TWODRAG else GH_PINCH)) ;;
        if _isTwoTouchTimeoutRunning h then _stopTwoTouchTimeout else ret tt
      else if negb (_isTwoTouchTimeoutRunning h) then _startTwoTouchTimeout
      else ret tt
  end.

Definition _touchMove (id : Z) (x y : Q) : M handler unit :=
  h <- get ;;
  match find_touch id (_tracked h) with
  | None => ret tt
  | Some touch =>
      let touch := set_last x y touch in
      let deltaX := (x - firstX touch)%Q in
      let deltaY := (y - firstY touch)%Q in
      let touch :=
        if negb (Qeq_bool (firstX touch) x) || negb (Qeq_bool (firstY touch) y)
        then set_angle (atan2 deltaY deltaX) touch else touch in
      modify (fun h => set_tracked (update_touch id (fun _ => touch) (_tracked h)) h) ;;
      h <- get ;;
      if negb (_hasDetectedGesture h) then
        if Qlt_bool (hypot deltaX deltaY) GH_MOVE_THRESHOLD then ret tt
        else
          modify (clear (GH_ONETAP .| GH_TWOTAP .| GH_THREETAP .| GH_LONGPRESS)%js) ;;
          _stopLongpressTimeout ;;
          let n := zlen (_tracked h) in
          (if negb (n =? 1) then modify (clear GH_DRAG) else ret tt) ;;
          (if negb (n =? 2) then modify (clear (GH_TWODRAG .| GH_PINCH)%js) else ret tt) ;;
          (if n =? 2 then two_touch_decision touch id else ret tt) ;;
          h <- get ;;
          if negb (_hasDetectedGesture h) then ret tt
          else
            _pushEvent GestureStart ;;
            _pushEvent GestureMove
      else _pushEvent GestureMove
  end.

(** [splice(indexOf(id), 1)] when the id is there. *)
Fixpoint remove_first (id : Z) (l : list Z) : list Z :=
  match l with
  | [] => []
  | i :: l => if i =? id then l else i :: remove_first id l
  end.

Definition is_ignored (id : Z) (h : handler) : bool := existsb (Z.eqb id) (_ignored h).

(** A first release: which taps it can still be. *)
Definition first_release (now : Z) : M handler unit :=
  modify (clear (GH_DRAG .| GH_TWODRAG .| GH_PINCH)%js) ;;
  modify (clear GH_LONGPRESS) ;;
  _stopLongpressTimeout ;;
  h <- get ;;
  if negb (_waitingRelease h) then
    modify (fun h => set_waitingRelease true (set_releaseStart now h)) ;;
    let n := zlen (_tracked h) in
    if n =? 1 then modify (clear (GH_TWOTAP .| GH_THREETAP)%js)
    else if n =? 2 then modify (clear (GH_ONETAP .| GH_THREETAP)%js)
    else ret tt
  else ret tt.

(** The end of a gesture, or of what did not become one. *)
Definition gesture_over (id : Z) : M handler unit :=
  h <- get ;;
  (if _hasDetectedGesture h then _pushEvent GestureEnd else ret tt) ;;
  modify (fun h => set_ignored (_ignored h ++ map t_id (filter active (_tracked h))) h) ;;
  modify (set_tracked []) ;;
  modify (set_state GH_NOGESTURE) ;;
  modify (fun h => if is_ignored id h then set_ignored (remove_first id (_ignored h)) h else h) ;;
  h <- get ;;
  match _ignored h with
  | [] => modify (fun h => set_waitingRelease false (set_state GH_INITSTATE h))
  | _ => ret tt
  end.

Definition _touchEnd (now id : Z) : M handler unit :=
  h <- get ;;
  if is_ignored id h then
    modify (fun h => set_ignored (remove_first id (_ignored h)) h) ;;
    h <- get ;;
    match _ignored h, _tracked h with
    | [], [] => modify (fun h => set_waitingRelease false (set_state GH_INITSTATE h))
    | _, _ => ret tt
    end
  else
    (if negb (_hasDetectedGesture h) && _isTwoTouchTimeoutRunning h then
       _stopTwoTouchTimeout ;;
       modify (set_state GH_NOGESTURE)
     else ret tt) ;;
    h <- get ;;
    (if negb (_hasDetectedGesture h) then first_release now else ret tt) ;;
    h <- get ;;
    if _waitingRelease h then
      (if GH_MULTITOUCH_TIMEOUT <? now - _releaseStart h then modify (set_state GH_NOGESTURE) else ret tt) ;;
      (if existsb (fun t => GH_TAP_TIMEOUT <? now - started t) (_tracked h)
       then modify (set_state GH_NOGESTURE) else ret tt) ;;
      match find_touch id (_tracked h) with
      | None => throw "TypeError"
      | Some _ =>
          modify (fun h => set_tracked (update_touch id (set_active false) (_tracked h)) h) ;;
          h <- get ;;
          if _hasDetectedGesture h then
            _pushEvent GestureStart ;;
            gesture_over id
          else if negb (_state h =? GH_NOGESTURE) then ret tt
          else gesture_over id
      end
    else gesture_over id.

(** ** Events of the browser *)

Inductive touch_event :=
| TouchStart (now id : Z) (x y : Q)
| TouchMove (now id : Z) (x y : Q)
| TouchEnd (now id : Z) (x y : Q).

(** One changed touch of an event; a cancelled touch is one that ends. *)
Definition _eventHandler (e : touch_event) : M handler unit :=
  match e with
  | TouchStart now id x y => _touchStart now id x y
  | TouchMove _ id x y => _touchMove id x y
  | TouchEnd now id _ _ => _touchEnd now id
  end.

Definition detach : M handler unit :=
  _stopLongpressTimeout ;;
  _stopTwoTouchTimeout.
End Handler.
End GestureHandler.
