(* ===== verification/Keyboard.v ===== *)
(** The keyboard, core/input/util.js and core/input/keyboard.js: from the key
    events of the browser to keysyms, physical keys and presses and releases.

    Names of keys ([code]) are ASCII strings; the value of a key ([key]) is any
    JavaScript string, a list of UTF-16 units.  The platform (util/browser.js
    looks at [navigator]) is a parameter, and so is the upper case of a
    character. *)

From Stdlib Require Import ZArith List Lia Bool String Ascii DecimalString.
From S2P Require Import Prelude Source Sink Websock Display Decoder Messages Lifecycle Rfb Handshake Inflator Keytables Session.
Import ListNotations JS JSFacts.
Import Keytables.Keytables.
Open Scope Z_scope.
Open Scope code_scope.

Module Keyboard.

Abbreviation lock := Session.Session.lock.
Abbreviation Lock := Session.Session.Lock.
Abbreviation LockNull := Session.Session.LockNull.

(** A keyboard event of the browser; [None] is undefined. *)
Record key_event := KeyEvent {
  e_code : string;
  e_keyCode : option Z;
  e_key : option (list Z);
  e_charCode : Z;
  e_location : option Z;
  e_keyIdentifier : string;
  e_metaKey : bool;
  e_numlock : bool;
  e_capslock : bool;
  e_timeStamp : Z
}.

Record platform := Platform { isMac : bool; isWindows : bool; isIOS : bool }.

Definition units (s : string) : list Z := map (fun c => Z.of_nat (nat_of_ascii c)) (list_ascii_of_string s).
Definition units_eqb (a b : list Z) : bool := if list_eq_dec Z.eq_dec a b then true else false.
Definition named (s : string) (u : list Z) : bool := units_eqb (units s) u.

(** An object used as a map, asked with a JavaScript string. *)
Definition lookup_units {A} (t : list (string * A)) (u : list Z) : option A :=
  option_map snd (find (fun e => named (fst e) u) t).

Section Platform.
Variable os : platform.

(** ** Which key it is *)

Definition renamed_codes : list (string * string) := [("OSLeft", "MetaLeft"); ("OSRight", "MetaRight")].

Definition right_codes : list (string * string) :=
  [("ShiftLeft", "ShiftRight"); ("ControlLeft", "ControlRight"); ("AltLeft", "AltRight")].

Definition numpad_codes : list (string * string) :=
  [("Delete", "NumpadDecimal"); ("Insert", "Numpad0"); ("End", "Numpad1"); ("ArrowDown", "Numpad2");
   ("PageDown", "Numpad3"); ("ArrowLeft", "Numpad4"); ("ArrowRight", "Numpad6"); ("Home", "Numpad7");
   ("ArrowUp", "Numpad8"); ("PageUp", "Numpad9"); ("Enter", "NumpadEnter")].

(** [switch] over names, the name itself by default. *)
Definition rename (t : list (string * string)) (s : string) : string :=
  match lookup_by String.eqb t s with Some r => r | None => s end.

Definition at_location (l : Z) (e : key_event) : bool :=
  match e_location e with Some i => i =? l | None => false end.

Definition getKeycode (e : key_event) : string :=
  if negb (String.eqb (e_code e) "") then rename renamed_codes (e_code e)
  else
    match match e_keyCode e with Some k => lookup_by Z.eqb vkeys k | None => None end with
    | Some code =>
        let code := if isMac os && String.eqb code "ContextMenu" then "MetaRight"%string else code in
        if at_location 2 e then rename right_codes code
        else if at_location 3 e then rename numpad_codes code
        else code
    | None => "Unidentified"%string
    end.

Definition renamed_keys : list (string * string) :=
  [("OS", "Meta"); ("LaunchMyComputer", "LaunchApplication1"); ("LaunchCalculator", "LaunchApplication2")].

Definition ios_keys : list (string * string) :=
  [("UIKeyInputUpArrow", "ArrowUp"); ("UIKeyInputDownArrow", "ArrowDown"); ("UIKeyInputLeftArrow", "ArrowLeft");
   ("UIKeyInputRightArrow", "ArrowRight"); ("UIKeyInputEscape", "Escape")].

(** From the physical key, or from the character. *)
Definition deduced_key (e : key_event) : list Z :=
  match lookup_by String.eqb fixedkeys (getKeycode e) with
  | Some key => units key
  | None => if negb (e_charCode e =? 0) then [e_charCode e mod 65536] else units "Unidentified"
  end.

Definition getKey (e : key_event) : list Z :=
  match e_key e with
  | Some key =>
      if named "Unidentified" key then deduced_key e
      else
        match lookup_units renamed_keys key with
        | Some k => units k
        | None =>
            match lookup_units ios_keys key with
            | Some k => units k
            | None =>
                if units_eqb key [0] && String.eqb (e_code e) "NumpadDecimal" then units "Delete" else key
            end
        end
  | None => deduced_key e
  end.

(** [DOMKeyTable[key]] *)
Definition dom_row_units (key : list Z) : option (list Z) :=
  match DOMKeyTable with Some t => lookup_units t key | None => None end.

(** The location that selects the keysym. *)
Definition key_location (key : list Z) (e : key_event) : Z :=
  let location := e_location e in
  let location := if named "Meta" key && at_location 0 e then Some 2 else location in
  let location :=
    if named "Clear" key && match location with Some l => l =? 3 | None => false end
       && String.eqb (getKeycode e) "NumLock"
    then Some 0 else location in
  match location with
  | None => 0
  | Some l => if 3 <? l then 0 else l
  end.

Definition special_keysym (key : list Z) (row : list Z) (e : key_event) : option Z :=
  if named "Meta" key && String.eqb (getKeycode e) "AltLeft" then Some XK_Meta_L
  else if named "Meta" key && String.eqb (getKeycode e) "AltRight" then Some XK_Meta_R
  else if named "Clear" key && String.eqb (getKeycode e) "NumLock" then Some XK_Num_Lock
  else if isWindows os && (named "Zenkaku" key || named "Hankaku" key) then Some XK_Zenkaku_Hankaku
  else if isWindows os && (named "Romaji" key || named "KanaMode" key) then Some XK_Romaji
  else zget row (key_location key e).

Definition getKeysym (e : key_event) : option Z :=
  let key := getKey e in
  if named "Unidentified" key then None
  else
    match dom_row_units key with
    | Some row => special_keysym key row e
    | None =>
        match key with
        | [codepoint] => if codepoint =? 0 then None else Some (lookup codepoint)
        | _ => None
        end
    end.

(** ** Keys without a code *)

Definition decimal (z : Z) : string := NilZero.string_of_int (Z.to_int z).

Definition hex_digit (c : ascii) : option Z :=
  let z := Z.of_nat (nat_of_ascii c) in
  if (48 <=? z) && (z <=? 57) then Some (z - 48)
  else if (65 <=? z) && (z <=? 70) then Some (z - 55)
  else if (97 <=? z) && (z <=? 102) then Some (z - 87)
  else None.

(** [parseInt(s, 16)] on hexadecimal digits and what follows them; NaN, which
    [fromCharCode] takes as 0, is [None]. *)
Fixpoint hex_prefix (acc : option Z) (s : string) : option Z :=
  match s with
  | EmptyString => acc
  | String c s =>
      match hex_digit c with
      | Some d => hex_prefix (Some (16 * match acc with Some a => a | None => 0 end + d)) s
      | None => acc
      end
  end.

Definition fromCharCode (codepoint : option Z) : Z :=
  match codepoint with Some c => c mod 65536 | None => 0 end.

Variable toUpperCase : Z -> Z.

(** The part of [_getKeyCode] for events without a usable key code; the
    identifier is "U+" and hexadecimal digits, or the name of a key. *)
Definition identified (e : key_event) : string :=
  let id := e_keyIdentifier e in
  if negb (String.eqb id "") then
    if negb (String.eqb (substring 0 2 id) "U+") then id
    else
      let char := fromCharCode (hex_prefix None (substring 2 (String.length id - 2) id)) in
      ("Platform" ++ decimal (toUpperCase char))%string
  else "Unidentified"%string.

Definition _getKeyCode (e : key_event) : string :=
  let code := getKeycode e in
  if negb (String.eqb code "Unidentified") then code
  else
    match e_keyCode e with
    | Some k =>
        if negb (k =? 0) && negb (k =? 229) then ("Platform" ++ decimal k)%string
        else identified e
    | None => identified e
    end.

(** ** The keys that are down *)

(** What the client is told. *)
Record key_out := KeyOut {
  o_keysym : option Z;
  o_code : string;
  o_down : bool;
  o_numlock : lock;
  o_capslock : lock
}.

(** [_keyDownList] in the order of insertion; [told] are the calls of
    [onkeyevent]. *)
Record keyboard := mkKeyboard {
  _keyDownList : list (string * option Z);
  _altGrArmed : bool;
  altGr_pending : bool;
  _altGrCtrlTime : Z;
  told : list key_out
}.

Definition constructor : keyboard := mkKeyboard [] false false 0 [].

Definition set_down v k := mkKeyboard v (_altGrArmed k) (altGr_pending k) (_altGrCtrlTime k) (told k).
Definition set_armed armed pending k := mkKeyboard (_keyDownList k) armed pending (_altGrCtrlTime k) (told k).
Definition set_ctrlTime v k := mkKeyboard (_keyDownList k) (_altGrArmed k) (altGr_pending k) v (told k).
Definition add_told o k := mkKeyboard (_keyDownList k) (_altGrArmed k) (altGr_pending k) (_altGrCtrlTime k) (told k ++ [o]).

(** [list[code]], [list[code] = keysym], [delete list[code]] *)
Definition down_keysym (l : list (string * option Z)) (code : string) : option (option Z) :=
  lookup_by String.eqb l code.

Fixpoint put_down (l : list (string * option Z)) (code : string) (keysym : option Z) : list (string * option Z) :=
  match l with
  | [] => [(code, keysym)]
  | (c, s) :: l => if String.eqb c code then (c, keysym) :: l else (c, s) :: put_down l code keysym
  end.

Definition delete_down (l : list (string * option Z)) (code : string) : list (string * option Z) :=
  filter (fun e => negb (String.eqb (fst e) code)) l.

Definition is_down (k : keyboard) (code : string) : bool :=
  match down_keysym (_keyDownList k) code with Some _ => true | None => false end.

Definition _sendKeyEvent (keysym : option Z) (code : string) (down : bool) (numlock capslock : lock) : M keyboard unit :=
  k <- get ;;
  if down then
    modify (fun k => set_down (put_down (_keyDownList k) code keysym) k) ;;
    modify (add_told (KeyOut keysym code down numlock capslock))
  else if negb (is_down k code) then ret tt
  else
    modify (fun k => set_down (delete_down (_keyDownList k) code) k) ;;
    modify (add_told (KeyOut keysym code down numlock capslock)).

(** Press and release at once. *)
Definition tap (keysym : option Z) (code : string) (numlock capslock : lock) : M keyboard unit :=
  _sendKeyEvent keysym code true numlock capslock ;;
  _sendKeyEvent keysym code false numlock capslock.

Definition mac_keys : list (Z * Z) :=
  [(XK_Super_L, XK_Alt_L); (XK_Super_R, XK_Super_L); (XK_Alt_L, XK_Mode_switch); (XK_Alt_R, XK_ISO_Level3_Shift)].

Definition jpBadKeys : list Z := [XK_Zenkaku_Hankaku; XK_Eisu_toggle; XK_Katakana; XK_Hiragana; XK_Romaji].

Definition apple : bool := isMac os || isIOS os.

Definition shuffled (keysym : option Z) : option Z :=
  match keysym with
  | Some s => if apple then match lookup_by Z.eqb mac_keys s with Some r => Some r | None => keysym end else keysym
  | None => None
  end.

Definition falsy (keysym : option Z) : bool := match keysym with Some s => s =? 0 | None => true end.

(** The rest of [_handleKeyDown], after the detection of AltGr. *)
Definition key_pressed (e : key_event) (code : string) (keysym : option Z) (numlock capslock : lock) : M keyboard unit :=
  if String.eqb code "Unidentified" then
    if negb (falsy keysym) then tap keysym code numlock capslock else ret tt
  else
    let keysym := shuffled keysym in
    k <- get ;;
    let keysym := match down_keysym (_keyDownList k) code with Some s => s | None => keysym end in
    if apple && (e_metaKey e && negb (String.eqb code "MetaLeft") && negb (String.eqb code "MetaRight")) then
      tap keysym code numlock capslock
    else if apple && String.eqb code "CapsLock" then
      tap (Some XK_Caps_Lock) "CapsLock" numlock capslock
    else if isWindows os && match keysym with Some s => existsb (Z.eqb s) jpBadKeys | None => false end then
      tap keysym code numlock capslock
    else if String.eqb code "ControlLeft" && isWindows os && negb (is_down k "ControlLeft") then
      modify (fun k => set_ctrlTime (e_timeStamp e) (set_armed true true k))
    else _sendKeyEvent keysym code true numlock capslock.

Definition _handleKeyDown (e : key_event) : M keyboard unit :=
  let code := _getKeyCode e in
  let keysym := getKeysym e in
  let numlock := if apple then LockNull else Lock (e_numlock e) in
  let capslock := Lock (e_capslock e) in
  k <- get ;;
  if _altGrArmed k then
    modify (set_armed false false) ;;
    if String.eqb code "AltRight" && (e_timeStamp e - _altGrCtrlTime k <? 50) then
      key_pressed e code (Some XK_ISO_Level3_Shift) numlock capslock
    else
      _sendKeyEvent (Some XK_Control_L) "ControlLeft" true numlock capslock ;;
      key_pressed e code keysym numlock capslock
  else key_pressed e code keysym numlock capslock.

(** The keysym under which a key went down, undefined when it did not. *)
Definition recorded (k : keyboard) (code : string) : option Z :=
  match down_keysym (_keyDownList k) code with Some s => s | None => None end.

(** A shift that is still down is released. *)
Definition release_shift (code : string) : M keyboard unit :=
  k <- get ;;
  if is_down k code then _sendKeyEvent (recorded k code) code false LockNull LockNull else ret tt.

Definition _handleKeyUp (e : key_event) : M keyboard unit :=
  let code := _getKeyCode e in
  k <- get ;;
  (if _altGrArmed k then
     modify (set_armed false false) ;;
     _sendKeyEvent (Some XK_Control_L) "ControlLeft" true LockNull LockNull
   else ret tt) ;;
  if apple && String.eqb code "CapsLock" then tap (Some XK_Caps_Lock) "CapsLock" LockNull LockNull
  else
    k <- get ;;
    _sendKeyEvent (recorded k code) code false LockNull LockNull ;;
    if isWindows os && (String.eqb code "ShiftLeft" || String.eqb code "ShiftRight") then
      release_shift "ShiftRight" ;;
      release_shift "ShiftLeft"
    else ret tt.

(** The timer is not to fire again. *)
Definition _handleAltGrTimeout : M keyboard unit :=
  modify (set_armed false false) ;;
  _sendKeyEvent (Some XK_Control_L) "ControlLeft" true LockNull LockNull.

(** [for (let code in this._keyDownList)]: the keys at the start of the loop,
    of which each turn deletes its own. *)
Fixpoint keys_up (codes : list string) : M keyboard unit :=
  match codes with
  | [] => ret tt
  | code :: codes =>
      k <- get ;;
      _sendKeyEvent (recorded k code) code false LockNull LockNull ;;
      keys_up codes
  end.

Definition _allKeysUp : M keyboard unit :=
  k <- get ;;
  keys_up (map fst (_keyDownList k)).

(** Releasing the keyboard, apart from the listeners. *)
Definition ungrab : M keyboard unit := _allKeysUp.
End Platform.
End Keyboard.
