(* ===== verification/Asock.v ===== *)
(** The surroundings on which the protocol handlers are run and proved.

    [asock] is the abstract socket: the abstract source and sink together, with
    the handlers and the closing of the channel.  [panel] is a screen that
    records what it is asked to do.  The lemmas run a handler on them step by
    step. *)

From Stdlib Require Import ZArith List Lia Bool String QArith.
From S2P Require Import Prelude Source Sink Websock Display Decoder Messages Lifecycle Rfb.
Import ListNotations JS JSFacts.
Open Scope Z_scope.
Open Scope code_scope.
Import Lifecycle.Lifecycle Rfb.Rfb.

Record asock := ASock { a_in : asrc; a_out : asink; a_closed : bool; a_handlers : Websock.event -> bool }.

Definition aIn {A} (m : M asrc A) : M asock A :=
  lift a_in (fun i s => ASock i (a_out s) (a_closed s) (a_handlers s)) m.
Definition aOut {A} (m : M asink A) : M asock A :=
  lift a_out (fun o s => ASock (a_in s) o (a_closed s) (a_handlers s)) m.

#[export] Instance asock_source : ByteSource asock := {
  rQwait n g := aIn (rQwait n g);
  rQpeek8 := aIn rQpeek8;
  rQskipBytes n := aIn (rQskipBytes n);
  rQshift8 := aIn rQshift8;
  rQshift16 := aIn rQshift16;
  rQshift32 := aIn rQshift32;
  rQshiftBytes n := aIn (rQshiftBytes n);
  rQshiftView n f := aIn (rQshiftView n f);
  rQshiftStr n := aIn (rQshiftStr n);
  rQshiftTo t n := aIn (rQshiftTo t n);
  rQpeekBytes n := aIn (rQpeekBytes n)
}.

#[export] Instance asock_sink : ByteSink asock := {
  sQpush8 n := aOut (sQpush8 n);
  sQpush16 n := aOut (sQpush16 n);
  sQpush32 n := aOut (sQpush32 n);
  sQpushBytes l := aOut (sQpushBytes l);
  sQpushString l := aOut (sQpushString l);
  flush := aOut flush
}.

(** Attaching is not part of the abstraction. *)
#[export] Instance asock_sock : Sock asock := {
  sock_attach := stuck;
  sock_readyState _ := "open"%string;
  sock_close := modify (fun s => ASock (a_in s) (a_out s) true (a_handlers s));
  sock_off e := modify (fun s => ASock (a_in s) (a_out s) (a_closed s)
                  (fun e' => if Websock.event_eqb e' e then false else a_handlers s e'));
  sock_handles s e := a_handlers s e
}.

#[export] Instance asock_ok : Lifecycle.SockOk (S := asock).
Proof. constructor; [intros s|intros e s]; eexists; reflexivity. Qed.

(** * A screen that records *)

Inductive panel_op :=
| PDraw (d : draw)
| PFlip
| PResize (w h : Z)
| PClip (on : bool)
| PViewport (w h : Q)
| PScale (s : Q)
| PAutoscale (w h : Q)
| PMove (x y : Q)
| PFlush.

(** [pn_busy] tells whether the rendering queue is in use. *)
Record panel := Panel { pn_ops : list panel_op; pn_w : Z; pn_h : Z; pn_clip : bool; pn_busy : bool }.

Definition padd (o : panel_op) (p : panel) : panel := Panel (pn_ops p ++ [o]) (pn_w p) (pn_h p) (pn_clip p) (pn_busy p).

(** The draws of the recording display, with its errors. *)
Definition pdraw {A} (m : M trace A) : M panel A := fun p =>
  let '(o, t) := m [] in (o, Panel (pn_ops p ++ map PDraw t) (pn_w p) (pn_h p) (pn_clip p) (pn_busy p)).

#[export] Instance panel_renderer : Renderer panel := {
  fillRect x y w h c := pdraw (fillRect x y w h c);
  copyImage ox oy x y w h := pdraw (copyImage ox oy x y w h);
  imageRect x y w h mime a := pdraw (imageRect x y w h mime a);
  blitImage x y w h v o := pdraw (blitImage x y w h v o)
}.

#[export] Instance panel_screen : Screen panel := {
  d_pending := pn_busy;
  d_flush := modify (padd PFlush) ;; gets (fun p => negb (pn_busy p));
  d_flip := modify (padd PFlip);
  d_resize w h := modify (fun p => let p := padd (PResize w h) p in Panel (pn_ops p) w h (pn_clip p) (pn_busy p));
  d_clipViewport := pn_clip;
  d_set_clipViewport b := modify (fun p => let p := padd (PClip b) p in Panel (pn_ops p) (pn_w p) (pn_h p) b (pn_busy p));
  d_viewportChangeSize w h := modify (padd (PViewport w h));
  d_set_scale s := modify (padd (PScale s));
  d_autoscale w h := modify (padd (PAutoscale w h));
  d_viewportChangePos x y := modify (padd (PMove x y));
  d_absX _ x := Display.Display.toSigned32bit x;
  d_absY _ y := Display.Display.toSigned32bit y;
  d_width := pn_w;
  d_height := pn_h
}.

(** * Running on the abstract socket *)

Section Run.
Context {St D : Type}.
Abbreviation W := (world St asock D).
Implicit Types (c : St) (p l r : list Z) (t : D).

(** A socket with these bytes read, these to read, these sent. *)
Abbreviation on p r o k cl h := (ASock (ASrc p r) (ASink o 0 k) cl h).

Lemma srun_wait {B} (k : bool -> M W B) n g c p l o cl h t :
  n <= zlen l ->
  bind (onSock (rQwait n g)) k (World c (ASock (ASrc p l) o cl h) t) =
  k false (World c (ASock (ASrc p l) o cl h) t).
Proof.
  intros Hn. unfold bind, onSock, lift. cbn [rQwait asock_source dec sock disp]. unfold aIn, lift.
  cbn [a_in a_out a_closed a_handlers]. now rewrite asrc_wait_enough.
Qed.

Lemma srun_short {B} (k : bool -> M W B) n c p l o cl h t :
  zlen l < n ->
  bind (onSock (rQwait n 0)) k (World c (ASock (ASrc p l) o cl h) t) =
  k true (World c (ASock (ASrc p l) o cl h) t).
Proof.
  intros Hn. unfold bind, onSock, lift. cbn [rQwait asock_source dec sock disp]. unfold aIn, lift.
  cbn [a_in a_out a_closed a_handlers]. now rewrite asrc_wait_short.
Qed.

(** Stepping back over the bytes [b] just read. *)
Lemma srun_back {B} (k : bool -> M W B) n c p b l o cl h t :
  zlen l < n -> 0 < zlen b ->
  bind (onSock (rQwait n (zlen b))) k (World c (ASock (ASrc (p ++ b) l) o cl h) t) =
  k true (World c (ASock (ASrc p (b ++ l)) o cl h) t).
Proof.
  intros Hn Hb. unfold bind, onSock, lift. cbn [rQwait asock_source dec sock disp]. unfold aIn, lift.
  cbn [a_in a_out a_closed a_handlers rQwait asrc_source rest past]. unfold truthy. zlens.
  destruct (Z.ltb_spec (zlen l) n), (Z.eqb_spec (zlen b) 0), (Z.ltb_spec (zlen b) 0), (Z.ltb_spec (zlen (p ++ b)) (zlen b));
    try zlia. cbn [negb orb].
  replace (zlen (p ++ b) - zlen b) with (zlen p) by zlia. now rewrite ztake_app_exact, zdrop_app_exact.
Qed.

Lemma srun_take {A B} n f (k : list Z -> A) (j : A -> M W B) c p l r o cl h t :
  zlen l = n ->
  bind (onSock (aIn (atake n f k))) j (World c (ASock (ASrc p (l ++ r)) o cl h) t) =
  j (k (f l)) (World c (ASock (ASrc (p ++ f l) r) o cl h) t).
Proof.
  intros Hl. unfold bind, onSock, aIn, lift. cbn [dec sock disp a_in a_out a_closed a_handlers].
  now rewrite (atake_run n f k p l r Hl).
Qed.

(** A message that fits in the queue goes out whole. *)
Lemma srun_sends {B} (m : M asink unit) (x : list Z) (j : unit -> M W B) c i o k cl h t :
  Messages.Sends m x -> zlen x <= k ->
  bind (onSock (aOut m)) j (World c (ASock i (ASink o 0 k) cl h) t) =
  j tt (World c (ASock i (ASink (o ++ x) 0 k) cl h) t).
Proof.
  intros Hs Hk. unfold bind, onSock, aOut, lift. cbn [dec sock disp a_in a_out a_closed a_handlers].
  rewrite Hs by (cbn [pend cap]; auto). reflexivity.
Qed.

Lemma srun_emits {B} (m : M asink unit) (x : list Z) (j : unit -> M W B) c i o n k cl h t :
  Messages.Emits m x -> n + zlen x <= k ->
  bind (onSock (aOut m)) j (World c (ASock i (ASink o n k) cl h) t) =
  j tt (World c (ASock i (ASink (o ++ x) (n + zlen x) k) cl h) t).
Proof.
  intros Hs Hk. unfold bind, onSock, aOut, lift. cbn [dec sock disp a_in a_out a_closed a_handlers].
  rewrite Hs by (cbn [pend cap]; auto). reflexivity.
Qed.

Lemma srun_flush {B} (j : unit -> M W B) c i o n k cl h t :
  bind (onSock flush) j (World c (ASock i (ASink o n k) cl h) t) =
  j tt (World c (ASock i (ASink o 0 k) cl h) t).
Proof. reflexivity. Qed.
End Run.

(** Expose the reads and the writes of the abstract socket. *)
Ltac scbn :=
  cbn [rQshift8 rQshift16 rQshift32 rQshiftBytes rQshiftStr rQskipBytes sQpush8 sQpush16 sQpush32 sQpushBytes
       sQpushString sock_source sock_sink asock_sock asock_source asock_sink asrc_source] in *.

(** * Running the methods of the client *)

Section Client.
Context {Dc S D : Type} `{Sock S}.
Abbreviation W := (world (client Dc) S D).
Implicit Types (c : client Dc) (s : S) (t : D).

Definition with_life f c : client Dc :=
  mkClient (f (c_life c)) (c_auth c) (c_options c) (c_desktop c) (c_clip c) (c_fbu c) (c_page c) (c_pointer c) (c_decoders c).
Definition with_auth f c : client Dc :=
  mkClient (c_life c) (f (c_auth c)) (c_options c) (c_desktop c) (c_clip c) (c_fbu c) (c_page c) (c_pointer c) (c_decoders c).
Definition with_options f c : client Dc :=
  mkClient (c_life c) (c_auth c) (f (c_options c)) (c_desktop c) (c_clip c) (c_fbu c) (c_page c) (c_pointer c) (c_decoders c).
Definition with_desktop f c : client Dc :=
  mkClient (c_life c) (c_auth c) (c_options c) (f (c_desktop c)) (c_clip c) (c_fbu c) (c_page c) (c_pointer c) (c_decoders c).
Definition with_clip f c : client Dc :=
  mkClient (c_life c) (c_auth c) (c_options c) (c_desktop c) (f (c_clip c)) (c_fbu c) (c_page c) (c_pointer c) (c_decoders c).
Definition with_fbu f c : client Dc :=
  mkClient (c_life c) (c_auth c) (c_options c) (c_desktop c) (c_clip c) (f (c_fbu c)) (c_page c) (c_pointer c) (c_decoders c).
Definition with_page f c : client Dc :=
  mkClient (c_life c) (c_auth c) (c_options c) (c_desktop c) (c_clip c) (c_fbu c) (f (c_page c)) (c_pointer c) (c_decoders c).
Definition with_pointer f c : client Dc :=
  mkClient (c_life c) (c_auth c) (c_options c) (c_desktop c) (c_clip c) (c_fbu c) (c_page c) (f (c_pointer c)) (c_decoders c).
Definition with_decoders f c : client Dc :=
  mkClient (c_life c) (c_auth c) (c_options c) (c_desktop c) (c_clip c) (c_fbu c) (c_page c) (c_pointer c) (f (c_decoders c)).

Lemma crun_life_get {A} (k : lc -> M W A) c s t : bind (onLc get) k (World c s t) = k (c_life c) (World c s t).
Proof. now destruct c. Qed.
Lemma crun_auth_get {A} (k : auth -> M W A) c s t : bind (onAuth get) k (World c s t) = k (c_auth c) (World c s t).
Proof. now destruct c. Qed.
Lemma crun_options_get {A} (k : options -> M W A) c s t : bind (onOptions get) k (World c s t) = k (c_options c) (World c s t).
Proof. now destruct c. Qed.
Lemma crun_desktop_get {A} (k : desktop -> M W A) c s t : bind (onDesktop get) k (World c s t) = k (c_desktop c) (World c s t).
Proof. now destruct c. Qed.
Lemma crun_clip_get {A} (k : clip -> M W A) c s t : bind (onClip get) k (World c s t) = k (c_clip c) (World c s t).
Proof. now destruct c. Qed.
Lemma crun_fbu_get {A} (k : fbu -> M W A) c s t : bind (onFbu get) k (World c s t) = k (c_fbu c) (World c s t).
Proof. now destruct c. Qed.
Lemma crun_page_get {A} (k : page -> M W A) c s t : bind (onPage get) k (World c s t) = k (c_page c) (World c s t).
Proof. now destruct c. Qed.

Lemma crun_pointer_get {A} (k : pointer -> M W A) c s t : bind (onPointer get) k (World c s t) = k (c_pointer c) (World c s t).
Proof. now destruct c. Qed.

Lemma crun_life {A} f (k : unit -> M W A) c s t :
  bind (onLc (modify f)) k (World c s t) = k tt (World (with_life f c) s t).
Proof. reflexivity. Qed.
Lemma crun_event {A} e (k : unit -> M W A) c s t :
  bind (dispatchEvent e) k (World c s t) = k tt (World (with_life (add_event e) c) s t).
Proof. reflexivity. Qed.
Lemma crun_auth {A} f (k : unit -> M W A) c s t :
  bind (onAuth (modify f)) k (World c s t) = k tt (World (with_auth f c) s t).
Proof. reflexivity. Qed.
Lemma crun_options {A} f (k : unit -> M W A) c s t :
  bind (onOptions (modify f)) k (World c s t) = k tt (World (with_options f c) s t).
Proof. reflexivity. Qed.
Lemma crun_desktop {A} f (k : unit -> M W A) c s t :
  bind (onDesktop (modify f)) k (World c s t) = k tt (World (with_desktop f c) s t).
Proof. reflexivity. Qed.
Lemma crun_clip {A} f (k : unit -> M W A) c s t :
  bind (onClip (modify f)) k (World c s t) = k tt (World (with_clip f c) s t).
Proof. reflexivity. Qed.
Lemma crun_fbu {A} f (k : unit -> M W A) c s t :
  bind (onFbu (modify f)) k (World c s t) = k tt (World (with_fbu f c) s t).
Proof. reflexivity. Qed.
Lemma crun_page {A} f (k : unit -> M W A) c s t :
  bind (onPage (modify f)) k (World c s t) = k tt (World (with_page f c) s t).
Proof. reflexivity. Qed.
Lemma crun_pointer {A} f (k : unit -> M W A) c s t :
  bind (onPointer (modify f)) k (World c s t) = k tt (World (with_pointer f c) s t).
Proof. reflexivity. Qed.
Lemma crun_attempt {A B} (a : A) (k : A -> M W B) w : bind (attempt (Ret a)) k w = k a w.
Proof. reflexivity. Qed.
End Client.

(** Failing on the abstract socket: the connection ends, nothing is sent and
    nothing is read. *)
Lemma crun_fail {Dc D} (c : client Dc) i o cl h (t : D) :
  exists cl' h', _fail (World c (ASock i o cl h) t) = (Ret false, World (with_life failed c) (ASock i o cl' h') t).
Proof.
  exists (if transition_ok (_rfbConnectionState (c_life c)) Disconnecting then true else cl).
  exists (match _rfbConnectionState (c_life c), _disconnTimer (c_life c) with
          | CNone, _ | Disconnected, _ | Disconnecting, false => h
          | _, _ => fun e => if Websock.event_eqb e Websock.EvClose then false else h e
          end).
  destruct c as [[cn it clean tm ev pg gr url rt mt] a op dk cp f p pt ds]. destruct cn, tm; vm_compute; reflexivity.
Qed.

Lemma failed_life l : _rfbConnectionState l = Connecting \/ _rfbConnectionState l = Connected ->
  _rfbConnectionState (failed l) = Disconnected /\ _rfbCleanDisconnect (failed l) = false /\
  _rfbInitState (failed l) = _rfbInitState l /\ events (failed l) = events l ++ [EvDisconnect false].
Proof. destruct l as [c i cl tm ev pg gr url rt mt]; destruct c, tm; cbn; intros [|]; easy. Qed.

(** An encoder on the abstract socket writes to its sink. *)
Lemma aOut_bind {A B} (m : M asink A) (k : A -> M asink B) :
  meq (bind (aOut m) (fun a => aOut (k a))) (aOut (bind m k)).
Proof. intros [i o cl h]. unfold bind, aOut, lift. cbn [a_out a_in a_closed a_handlers]. now destruct (m o) as [[a|e|] o']. Qed.

Lemma aOut_bind_eq {A B} (m1 : M asock A) (m : M asink A) (k1 : A -> M asock B) (k : A -> M asink B) :
  meq m1 (aOut m) -> (forall a, meq (k1 a) (aOut (k a))) -> meq (bind m1 k1) (aOut (bind m k)).
Proof. intros Hm Hk. rewrite <- aOut_bind. now apply bind_proper. Qed.

Lemma call_asock c : meq (Messages.run_call c : M asock unit) (aOut (Messages.run_call c)).
Proof.
  assert (He : forall es, meq (Messages.pushEncodings es : M asock unit) (aOut (Messages.pushEncodings es))).
  { induction es as [|e es IH]; [now intros []|]. cbn [Messages.pushEncodings]. apply aOut_bind_eq; [reflexivity|auto]. }
  destruct c; cbn [Messages.run_call];
    unfold Messages.keyEvent, Messages.QEMUExtendedKeyEvent, Messages.pointerEvent, Messages.clientCutText,
      Messages.setDesktopSize, Messages.clientFence, Messages.enableContinuousUpdates, Messages.pixelFormat,
      Messages.clientEncodings, Messages.fbUpdateRequest, Messages.xvpOp;
    cbv zeta; repeat (apply aOut_bind_eq; [first [apply He|exact (fun _ => eq_refl)]|intros ?]);
    exact (fun _ => eq_refl).
Qed.

(** The encoders as calls. *)
Section Calls.
Context {S : Type} `{ByteSink S}.
Lemma pixelFormat_call d b : Messages.pixelFormat d b = Messages.run_call (Messages.CPixelFormat d b).
Proof. reflexivity. Qed.
Lemma clientEncodings_call es : Messages.clientEncodings es = Messages.run_call (Messages.CEncodings es).
Proof. reflexivity. Qed.
Lemma fbUpdateRequest_call i x y w h :
  Messages.fbUpdateRequest i (Some x) (Some y) w h = Messages.run_call (Messages.CUpdateRequest i x y w h).
Proof. reflexivity. Qed.
Lemma clientFence_call f p : Messages.clientFence f p = Messages.run_call (Messages.CFence f p).
Proof. reflexivity. Qed.
Lemma setDesktopSize_call w h i f : Messages.setDesktopSize w h i f = Messages.run_call (Messages.CResize w h i f).
Proof. reflexivity. Qed.
Lemma enableContinuousUpdates_call e x y w h :
  Messages.enableContinuousUpdates e x y w h = Messages.run_call (Messages.CContinuous e x y w h).
Proof. reflexivity. Qed.
Lemma pointerEvent_call x y m : Messages.pointerEvent x y m = Messages.run_call (Messages.CPointer x y m).
Proof. reflexivity. Qed.
Lemma qemuKey_call k b c : Messages.QEMUExtendedKeyEvent k b c = Messages.run_call (Messages.CQemuKey k b c).
Proof. reflexivity. Qed.
Lemma xvpOp_call v o : Messages.xvpOp v o = Messages.run_call (Messages.CXvp v o).
Proof. reflexivity. Qed.
Lemma clientCutText_call d : Messages.clientCutText d false = Messages.run_call (Messages.CCutText d).
Proof. reflexivity. Qed.
Lemma extended_call d : Messages.clientCutText d true = Messages.run_call (Messages.CExtended d).
Proof. reflexivity. Qed.
Lemma keyEvent_call k b : Messages.keyEvent k (Z.b2z b) = Messages.run_call (Messages.CKey k b).
Proof. reflexivity. Qed.
End Calls.

(** A message, sent in one go. *)
Lemma crun_call {St D B} ca (j : unit -> M (world St asock D) B) c i o k cl h t :
  Messages.call_ok ca -> zlen (Messages.encode (Messages.msg_of ca)) <= k ->
  bind (onSock (Messages.run_call ca)) j (World c (ASock i (ASink o 0 k) cl h) t) =
  j tt (World c (ASock i (ASink (o ++ Messages.encode (Messages.msg_of ca)) 0 k) cl h) t).
Proof.
  intros Hok Hk. rewrite <- (srun_sends _ _ _ c i o k cl h t (Messages.call_sends ca Hok) Hk).
  unfold bind, onSock, lift. cbn [dec sock disp]. now rewrite call_asock.
Qed.

Lemma crun_call_last {St D} ca (c : St) i o k cl h (t : D) :
  Messages.call_ok ca -> zlen (Messages.encode (Messages.msg_of ca)) <= k ->
  onSock (Messages.run_call ca) (World c (ASock i (ASink o 0 k) cl h) t) =
  (Ret tt, World c (ASock i (ASink (o ++ Messages.encode (Messages.msg_of ca)) 0 k) cl h) t).
Proof.
  intros Hok Hk. pose proof (crun_call ca ret c i o k cl h t Hok Hk) as E. unfold bind in E.
  destruct (onSock _ _) as [[[]|e|] w]; exact E.
Qed.

#[export] Instance panel_ok : ScreenOk panel.
Proof. split; intros; cbn; eexists; try eexists; reflexivity. Qed.

(** * Fitting the screen

    [_resize] and what it calls return, and touch only the display, the page
    and whether the viewport is clipping. *)

Section Fit.
Context {Dc S D : Type} `{Sock S} `{ScreenOk D}.
Abbreviation W := (world (client Dc) S D).

(** Between [c] and [c'] only the page, [_clippingViewport] and the events
    that tell it may differ. *)
Record fitted (c c' : client Dc) : Prop := {
  ft_auth : c_auth c' = c_auth c;
  ft_desktop : c_desktop c' = c_desktop c;
  ft_clip : c_clip c' = c_clip c;
  ft_fbu : c_fbu c' = c_fbu c;
  ft_decoders : c_decoders c' = c_decoders c;
  ft_pointer : c_pointer c' = c_pointer c;
  ft_cursor : _cursorImage (c_page c') = _cursorImage (c_page c) /\ shownCursor (c_page c') = shownCursor (c_page c);
  ft_options : exists b, c_options c' = set_clippingViewport b (c_options c);
  ft_life : exists evs, c_life c' = fold_left (fun l e => add_event e l) evs (c_life c) /\
    Forall (fun e => exists b, e = EvClippingViewport b) evs
}.

Lemma fitted_refl c : fitted c c.
Proof.
  constructor; auto; [|exists []; split; [reflexivity|constructor]].
  exists (_clippingViewport (c_options c)). now destruct (c_options c).
Qed.

Lemma fitted_trans c1 c2 c3 : fitted c1 c2 -> fitted c2 c3 -> fitted c1 c3.
Proof.
  intros [] []. constructor; try congruence.
  - intuition congruence.
  - destruct ft_options0 as [b1 E1], ft_options1 as [b2 E2]. exists b2. rewrite E2, E1. reflexivity.
  - destruct ft_life0 as (e1 & E1 & F1), ft_life1 as (e2 & E2 & F2). exists (e1 ++ e2).
    rewrite fold_left_app, <- E1. split; [exact E2|]. now apply Forall_app.
Qed.

(** [m] returns, leaves the socket alone and only fits the screen. *)
Definition Fits {A} (m : M W A) : Prop :=
  forall c s t, exists a c' t', m (World c s t) = (Ret a, World c' s t') /\ fitted c c'.

Lemma fits_ret {A} (a : A) : Fits (ret a).
Proof. intros c s t. exists a, c, t. split; [reflexivity|apply fitted_refl]. Qed.

Lemma fits_bind {A B} (m : M W A) (k : A -> M W B) : Fits m -> (forall a, Fits (k a)) -> Fits (bind m k).
Proof.
  intros Hm Hk c s t. destruct (Hm c s t) as (a & c1 & t1 & E1 & F1). destruct (Hk a c1 s t1) as (b & c2 & t2 & E2 & F2).
  exists b, c2, t2. rewrite (bind_run _ _ _ _ _ E1). split; [exact E2|]. now apply (fitted_trans c c1).
Qed.

Lemma fits_disp {A} (m : M D A) : (forall t, exists a t', m t = (Ret a, t')) -> Fits (onDisp m).
Proof.
  intros Hm c s t. destruct (Hm t) as (a & t' & E). exists a, c, t'. unfold onDisp, lift. cbn [dec sock disp]. rewrite E.
  split; [reflexivity|apply fitted_refl].
Qed.

Lemma fits_get_options : Fits theOptions.
Proof. intros c s t. exists (c_options c), c, t. split; [now destruct c|apply fitted_refl]. Qed.
Lemma fits_get_page : Fits thePage.
Proof. intros c s t. exists (c_page c), c, t. split; [now destruct c|apply fitted_refl]. Qed.

Lemma fits_save : Fits _saveExpectedClientSize.
Proof.
  intros c s t. eexists _, _, _. split; [reflexivity|]. destruct c as [l a o dk cp f p pt ds]. constructor; cbn; auto.
  - exists (_clippingViewport o). now destruct o.
  - exists []. split; [reflexivity|constructor].
Qed.

Lemma fits_clipping b : Fits (_setClippingViewport b).
Proof.
  intros c s t. unfold _setClippingViewport, theOptions. rewrite crun_options_get.
  case_if; [apply fits_ret|]. rewrite crun_options. eexists _, _, _. split; [reflexivity|]. destruct c. constructor; cbn; auto.
  - now exists b.
  - exists [EvClippingViewport b]. split; [reflexivity|]. repeat constructor. now exists b.
Qed.

Ltac fits :=
  repeat first
    [ apply fits_save | apply fits_clipping | apply fits_get_options | apply fits_get_page
    | apply fits_bind; [|intros ?] | apply fits_ret
    | apply fits_disp; intros;
      first [ eexists _, _; reflexivity | exists tt;
        first [ apply set_clip_returns | apply change_size_returns | apply set_scale_returns | apply autoscale_returns
              | apply resize_returns | apply flip_returns ] ]
    | case_if ].

Lemma fits_updateClip : Fits _updateClip.
Proof. unfold _updateClip, _fixScrollbars. cbv zeta. fits. Qed.

Lemma fits_updateScale : Fits _updateScale.
Proof. unfold _updateScale, _fixScrollbars. fits. Qed.

Definition sized (width height : Z) : desktop -> desktop := fun d => set_fbHeight height (set_fbWidth width d).

(** Off continuous updates, resizing sends nothing. *)
Lemma resize_run width height c s t :
  _enabledContinuousUpdates (c_desktop c) = false ->
  exists c' t', _resize width height (World c s t) = (Ret tt, World c' s t') /\
    fitted (with_desktop (sized width height) c) c'.
Proof.
  intros He. unfold _resize. rewrite crun_desktop. fold (sized width height). set (c1 := with_desktop _ c).
  assert (Hd : Fits (onDisp (d_resize width height))) by fits.
  destruct (fits_bind _ _ Hd (fun _ => fits_bind _ _ fits_updateClip (fun _ => fits_updateScale)) c1 s t)
    as ([] & c2 & t2 & E2 & F2).
  destruct (fits_save c2 s t2) as ([] & c3 & t3 & E3 & F3). exists c3, t3. split; [|now apply (fitted_trans c1 c2)].
  revert E2. unfold bind at 1. intros E2. rewrite <- E3.
  unfold bind at 1. destruct (onDisp (d_resize width height) (World c1 s t)) as [[[]|e|] w1]; try discriminate.
  revert E2. unfold bind at 1. intros E2. unfold bind at 1. destruct (_updateClip w1) as [[[]|e|] w2]; try discriminate.
  rewrite (bind_run _ _ _ _ _ E2). unfold _updateContinuousUpdates, theDesktop. rewrite bind_assoc_run, crun_desktop_get.
  rewrite (ft_desktop _ _ F2). cbn [c1 with_desktop c_desktop sized set_fbHeight set_fbWidth _enabledContinuousUpdates].
  rewrite He. reflexivity.
Qed.
End Fit.
