(* ===== verification/Steps.v ===== *)
(** Running the steps of the client on the abstract socket: reads, writes and
    waits one at a time, shared by the theorems on the handshake and on the
    session. *)

From Stdlib Require Import ZArith List Lia Bool String QArith.
From S2P Require Import Prelude Source Sink Websock Display Decoder Messages Lifecycle Rfb Handshake Asock.
Import ListNotations JS JSFacts.
Open Scope Z_scope.
Open Scope code_scope.
Import Lifecycle.Lifecycle Rfb.Rfb Handshake.Handshake.

Ltac crun :=
  unfold theAuth, theOptions, theDesktop, thePage, push8, push32, pushBytes, pushString, doFlush, setInit;
  repeat first
    [ rewrite crun_life_get | rewrite crun_auth_get | rewrite crun_options_get | rewrite crun_desktop_get
    | rewrite crun_life | rewrite crun_event | rewrite crun_auth | rewrite crun_desktop | rewrite crun_attempt
    | rewrite srun_flush ].

Section Steps.
Context {Dc D : Type}.
Abbreviation W := (world (client Dc) asock D).
Implicit Types (c : client Dc) (p o : list Z) (t : D).

Lemma run_need num back (k : M W bool) c p l so cl h t :
  num <= zlen l -> need num back k (World c (ASock (ASrc p l) so cl h) t) = k (World c (ASock (ASrc p l) so cl h) t).
Proof. intros Hn. unfold need. now rewrite srun_wait. Qed.

(** A step that waits leaves everything as it was. *)
Lemma run_need_short num (k : M W bool) c p l so cl h t :
  zlen l < num -> need num 0 k (World c (ASock (ASrc p l) so cl h) t) = (Ret false, World c (ASock (ASrc p l) so cl h) t).
Proof. intros Hn. unfold need. now rewrite srun_short. Qed.

Lemma run_push8 {B} n (j : unit -> M W B) c i o q k cl h t :
  q + 1 <= k ->
  bind (onSock (sQpush8 n)) j (World c (ASock i (ASink o q k) cl h) t) =
  j tt (World c (ASock i (ASink (o ++ Messages.u8 n) (q + 1) k) cl h) t).
Proof. intros Hk. scbn. rewrite (srun_emits _ _ _ _ _ _ _ _ _ _ _ (Messages.emits_push8 n)); [reflexivity|exact Hk]. Qed.

Lemma run_push32 {B} n (j : unit -> M W B) c i o q k cl h t :
  q + 4 <= k ->
  bind (onSock (sQpush32 n)) j (World c (ASock i (ASink o q k) cl h) t) =
  j tt (World c (ASock i (ASink (o ++ Messages.u32 n) (q + 4) k) cl h) t).
Proof. intros Hk. scbn. rewrite (srun_emits _ _ _ _ _ _ _ _ _ _ _ (Messages.emits_push32 n)); [reflexivity|exact Hk]. Qed.

Lemma run_pushBytes {B} x (j : unit -> M W B) c i o q k cl h t :
  q + zlen x <= k ->
  bind (onSock (sQpushBytes x)) j (World c (ASock i (ASink o q k) cl h) t) =
  j tt (World c (ASock i (ASink (o ++ x) (q + zlen x) k) cl h) t).
Proof. intros Hk. scbn. now rewrite (srun_emits _ _ _ _ _ _ _ _ _ _ _ (Messages.emits_bytes x)). Qed.

Lemma run_pushString {B} x (j : unit -> M W B) c i o q k cl h t :
  q + zlen x <= k -> bytes x ->
  bind (onSock (sQpushString x)) j (World c (ASock i (ASink o q k) cl h) t) =
  j tt (World c (ASock i (ASink (o ++ x) (q + zlen x) k) cl h) t).
Proof.
  intros Hk Hb. scbn. rewrite (srun_emits _ _ _ _ _ _ _ _ _ _ _ (Messages.emits_string x)); rewrite Messages.map_toUint8 by exact Hb; [reflexivity|exact Hk].
Qed.

Lemma codes_bytes s : bytes (codes s).
Proof.
  unfold codes. apply Forall_forall. intros x Hx. apply in_map_iff in Hx. destruct Hx as (a & <- & _).
  unfold is_byte. pose proof (Ascii.nat_ascii_bounded a). lia.
Qed.

Lemma run_shift8 {B} (j : Z -> M W B) c p v tail so cl h t :
  bind (onSock rQshift8) j (World c (ASock (ASrc p (v :: tail)) so cl h) t) =
  j v (World c (ASock (ASrc (p ++ [v]) tail) so cl h) t).
Proof. exact (srun_take 1 same be j c p [v] tail so cl h t eq_refl). Qed.

Lemma run_shift16 {B} v (j : Z -> M W B) c p r so cl h t : 0 <= v < 65536 ->
  bind (onSock rQshift16) j (World c (ASock (ASrc p (be_bytes 2 v ++ r)) so cl h) t) =
  j v (World c (ASock (ASrc (p ++ be_bytes 2 v) r) so cl h) t).
Proof. intros Hv. scbn. rewrite srun_take by reflexivity. unfold same. now rewrite be_bytes_small. Qed.

Lemma run_shift32 {B} v (j : Z -> M W B) c p r so cl h t : 0 <= v < 4294967296 ->
  bind (onSock rQshift32) j (World c (ASock (ASrc p (be_bytes 4 v ++ r)) so cl h) t) =
  j v (World c (ASock (ASrc (p ++ be_bytes 4 v) r) so cl h) t).
Proof. intros Hv. scbn. rewrite srun_take by reflexivity. unfold same. now rewrite be_bytes_small. Qed.

Lemma run_shift16_bytes {B} a b (j : Z -> M W B) c p r so cl h t :
  bind (onSock rQshift16) j (World c (ASock (ASrc p (a :: b :: r)) so cl h) t) =
  j (be [a; b]) (World c (ASock (ASrc (p ++ [a; b]) r) so cl h) t).
Proof. exact (srun_take 2 same be j c p [a; b] r so cl h t eq_refl). Qed.

Lemma run_skip3 {B} a b d (j : unit -> M W B) c p r so cl h t :
  bind (onSock (rQskipBytes 3)) j (World c (ASock (ASrc p (a :: b :: d :: r)) so cl h) t) =
  j tt (World c (ASock (ASrc (p ++ [a; b; d]) r) so cl h) t).
Proof. exact (srun_take 3 same (fun _ => tt) j c p [a; b; d] r so cl h t eq_refl). Qed.

End Steps.

(** * A client to try things on *)

Definition demo_creds : credentials :=
  mkCredentials (Some (codes "me")) (Some (codes "secret")) None None None.

Definition demo_client : client unit :=
  with_life (fun _ => mkLc Connecting ProtocolVersion true false [] true false true false false)
    (Rfb.constructor demo_creds true [] true tt 800 600 800 600).

Definition demo_panel : panel := Panel [] 0 0 false false.

Definition demo_rnd : randoms := Randoms [] [] [].

Definition no_handlers : Websock.event -> bool := fun _ => false.

Definition demo_at (c : client unit) (l : list Z) : world (client unit) asock panel :=
  World c (ASock (ASrc [] l) (ASink [] 0 200) false no_handlers) demo_panel.

(** The same, connected. *)
Definition online : client unit := with_life (set_conn Connected) demo_client.
