(* ===== verification/Ra2.v ===== *)
(** RSA-AES security, core/ra2.js.

    The client and the server exchange RSA public keys, the page approves the
    server's, each side sends the other a random number under its key, and from
    both numbers come two session keys.  Under those the sides exchange hashes
    of both public keys, which shows that nobody stands between them, and then
    the credentials are sent.

    [negotiateRA2neAuthAsync] is an asynchronous method.  It is cut at its
    suspension points: [pc] says at which [await] it stands and which local
    variables are live there, [resume] runs it to the next one when the promise
    it awaits is settled.  Between two of them that touch nothing but local
    variables there is no cut.  The other methods are called at any time in
    between. *)

From Stdlib Require Import ZArith List Lia Bool String.
From S2P Require Import Prelude Source Sink Decoder Bigint Utf8 Aes Rsa Rfb.
Import ListNotations JS JSFacts Bigint.Bigint Rfb.Rfb.
Open Scope Z_scope.
Open Scope code_scope.

Module Ra2.

(** [dst.set(src, off)] on a new array of [n] zeros, for several sources. *)
Definition assemble (n : Z) (parts : list (Z * list Z)) : list Z :=
  fold_left (fun dst '(off, src) => zblit dst off src) parts (zrep n 0).

(** ** RA2Cipher *)
Record cipher := mkCipher { _cipher : AESEAX.cipher; _counter : list Z }.

(** [for (let i = 0; i < 16 && this._counter[i]++ === 255; i++);] *)
Fixpoint increment (counter : list Z) : list Z :=
  match counter with
  | [] => []
  | c :: counter => toUint8 (c + 1) :: (if c =? 255 then increment counter else counter)
  end.

Section Cipher.
Context `{WebCrypto}.

Definition setKey (key : list Z) : cipher := mkCipher (AESEAX._importKey key) (zrep 16 0).

Definition length_field (length : Z) : list Z := [((length & 65280) >>> 8)%js; (length & 255)%js].

(** Writing a null or past the end throws. *)
Definition makeMessage (c : cipher) (message : list Z) : outcome (list Z * cipher) :=
  let ad := length_field (zlen message) in
  match AESEAX.encrypt (_cipher c) ad (_counter c) message with
  | None => Throw "TypeError"
  | Some encrypted =>
      if zlen message + 2 + 16 <? 2 + zlen encrypted then Throw "RangeError"
      else Ret (assemble (zlen message + 2 + 16) [(0, ad); (2, encrypted)], mkCipher (_cipher c) (increment (_counter c)))
  end.

Definition receiveMessage (c : cipher) (length : Z) (encrypted : list Z) : option (list Z) * cipher :=
  (AESEAX.decrypt (_cipher c) (length_field length) (_counter c) encrypted, mkCipher (_cipher c) (increment (_counter c))).
End Cipher.

(** ** The state *)

(** The server's key as it was received. *)
Record server := mkServer { serverKeyBytes : Z; serverPublickey : list Z; serverRSACipher : Rsa.rsa }.

(** The client's key and random number. *)
Record client := mkClient { clientPublicKey : list Z; clientRSACipher : Rsa.rsa; clientRandom : list Z }.

(** Where the method waits, with the local variables it uses after. *)
Inductive pc :=
| Idle
| AwaitLength
| AwaitKey (serverKeyLengthBuffer : list Z) (serverKeyBytes : Z)
| AwaitImport (serverKeyLengthBuffer serverN serverE : list Z) (serverKeyBytes : Z)
| AwaitApproval (s : server)
| AwaitGenerate (s : server)
| AwaitEncrypt (s : server) (c : client) (clientEncryptedRandom : list Z)
| AwaitRandom (s : server) (c : client)
| AwaitDecrypt (s : server) (c : client) (serverEncryptedRandom : list Z)
| AwaitMakeHash (hashMessage serverHash : list Z) (clientCipher serverCipher : cipher)
| AwaitHash (serverHash : list Z) (clientCipher serverCipher : cipher)
| AwaitOpenHash (serverHash : list Z) (clientCipher serverCipher : cipher) (encrypted : list Z)
| AwaitSubtype (clientCipher serverCipher : cipher)
| AwaitOpenSubtype (clientCipher serverCipher : cipher) (encrypted : list Z)
| AwaitCredentials (clientCipher : cipher) (subtype : Z)
| AwaitMakeCredentials (message : list Z)
| Finished (error : option string).

Inductive promise := Pending | Resolved | Rejected (error : string).

(** The fields of the object, with the promises that its methods made.  A
    callback that is not null: of [_checkSock] the length, of
    [_checkCredentials] the subtype. *)
Record ra2 := mkRa2 {
  _hasStarted : bool;
  _checkSock : option Z;
  _checkCredentials : option Z;
  _approveServerResolve : bool;
  _sockReject : bool;
  _credentialsReject : bool;
  _approveServerReject : bool;
  sockPromise : promise;
  credentialsPromise : promise;
  approvePromise : promise;
  at_await : pc
}.
Definition constructor : ra2 := mkRa2 false None None false false false false Pending Pending Pending Idle.

Definition set_hasStarted v r := mkRa2 v (_checkSock r) (_checkCredentials r) (_approveServerResolve r) (_sockReject r) (_credentialsReject r) (_approveServerReject r) (sockPromise r) (credentialsPromise r) (approvePromise r) (at_await r).
Definition set_sock check reject p r := mkRa2 (_hasStarted r) check (_checkCredentials r) (_approveServerResolve r) reject (_credentialsReject r) (_approveServerReject r) p (credentialsPromise r) (approvePromise r) (at_await r).
Definition set_creds check reject p r := mkRa2 (_hasStarted r) (_checkSock r) check (_approveServerResolve r) (_sockReject r) reject (_approveServerReject r) (sockPromise r) p (approvePromise r) (at_await r).
Definition set_approve resolve reject p r := mkRa2 (_hasStarted r) (_checkSock r) (_checkCredentials r) resolve (_sockReject r) (_credentialsReject r) reject (sockPromise r) (credentialsPromise r) p (at_await r).
Definition set_at v r := mkRa2 (_hasStarted r) (_checkSock r) (_checkCredentials r) (_approveServerResolve r) (_sockReject r) (_credentialsReject r) (_approveServerReject r) (sockPromise r) (credentialsPromise r) (approvePromise r) v.

(** A settled promise stays as it is. *)
Definition settle (p v : promise) : promise := match p with Pending => v | _ => p end.

(** What the page is told, and the credentials that [getCredentials] gives. *)
Inductive told :=
| ServerVerification (publickey : list Z)
| CredentialsRequired (types : list string).

Record page := mkPage { getCredentials : credentials; events : list told }.

(** What comes from outside at a suspension: random bytes, the padding of
    [RSACipher.encrypt] (random too) and the generated key. *)
Record supply := mkSupply { s_random : list Z; s_padding : list Z; s_key : Rsa.jwk }.

(** [window.crypto.subtle.digest("SHA-1", data)] *)
Class Digest := sha1 : list Z -> list Z.

Section Negotiate.
Context {S : Type} `{ByteSource S} `{ByteSink S} `{WebCrypto} `{Digest}.
Abbreviation W := (world ra2 S page).

Definition attempt {A} (o : outcome A) : M W A := fun w => (o, w).
Definition dispatch (e : told) : M W unit := onDisp (modify (fun p => mkPage (getCredentials p) (events p ++ [e]))).

(** ** Waiting *)

Definition _waitSockAsync (len : Z) : M W unit :=
  short <- onSock (rQwait len 0) ;;
  if negb short then onDec (modify (fun r => set_sock (_checkSock r) (_sockReject r) Resolved r))
  else onDec (modify (set_sock (Some len) true Pending)).

Definition checkSock : M W unit :=
  r <- onDec get ;;
  match _checkSock r with
  | None => ret tt
  | Some len =>
      short <- onSock (rQwait len 0) ;;
      when negb short then_ onDec (modify (fun r => set_sock None false (settle (sockPromise r) Resolved) r))
  end.

Definition _waitApproveKeyAsync : M W unit := onDec (modify (set_approve true true Pending)).

Definition hasCredentials (subtype : Z) (c : credentials) : bool :=
  ((subtype =? 1) && has (username c) && has (password c)) || ((subtype =? 2) && has (password c)).

Definition _waitCredentialsAsync (subtype : Z) : M W unit :=
  p <- onDisp get ;;
  if hasCredentials subtype (getCredentials p)
  then onDec (modify (fun r => set_creds (_checkCredentials r) (_credentialsReject r) Resolved r))
  else onDec (modify (set_creds (Some subtype) true Pending)).

Definition checkCredentials : M W unit :=
  r <- onDec get ;;
  match _checkCredentials r with
  | None => ret tt
  | Some subtype =>
      p <- onDisp get ;;
      when hasCredentials subtype (getCredentials p)
      then_ onDec (modify (fun r => set_creds None false (settle (credentialsPromise r) Resolved) r))
  end.

Definition checkInternalEvents : M W unit := checkSock ;; checkCredentials.

Definition approveServer : M W unit :=
  onDec (modify (fun r =>
    if _approveServerResolve r then set_approve false (_approveServerReject r) (settle (approvePromise r) Resolved) r else r)).

Definition disconnect_error : promise := Rejected "disconnect normally".
Definition disconnect : M W unit :=
  onDec (modify (fun r =>
    let r := if _sockReject r then set_sock (_checkSock r) false (settle (sockPromise r) disconnect_error) r else r in
    let r := if _credentialsReject r
      then set_creds (_checkCredentials r) false (settle (credentialsPromise r) disconnect_error) r else r in
    if _approveServerReject r
      then set_approve (_approveServerResolve r) false (settle (approvePromise r) disconnect_error) r else r)).

(** ** The pieces of [negotiateRA2neAuthAsync] *)

(** 1: the server's public key.  The messages of the errors end with the
    length in decimal, which is left out. *)
Definition after_length : M W pc :=
  serverKeyLengthBuffer <- onSock (rQpeekBytes 4) ;;
  serverKeyLength <- onSock rQshift32 ;;
  if serverKeyLength <? 1024 then throw "RA2: server public key is too short: "
  else if 8192 <? serverKeyLength then throw "RA2: server public key is too long: "
  else
    let serverKeyBytes := (serverKeyLength + 7) / 8 in
    _waitSockAsync (serverKeyBytes * 2) ;;
    ret (AwaitKey serverKeyLengthBuffer serverKeyBytes).

Definition after_key (serverKeyLengthBuffer : list Z) (serverKeyBytes : Z) : M W pc :=
  serverN <- onSock (rQshiftBytes serverKeyBytes) ;;
  serverE <- onSock (rQshiftBytes serverKeyBytes) ;;
  ret (AwaitImport serverKeyLengthBuffer serverN serverE serverKeyBytes).

Definition after_import (serverKeyLengthBuffer serverN serverE : list Z) (serverKeyBytes : Z) : M W pc :=
  serverRSACipher <- attempt (Rsa._importKey serverN serverE false) ;;
  let serverPublickey := assemble (4 + serverKeyBytes * 2)
    [(0, serverKeyLengthBuffer); (4, serverN); (4 + serverKeyBytes, serverE)] in
  _waitApproveKeyAsync ;;
  dispatch (ServerVerification serverPublickey) ;;
  ret (AwaitApproval (mkServer serverKeyBytes serverPublickey serverRSACipher)).

(** 2 and 3: the client's public key and random number. *)
Definition clientKeyLength : Z := 2048.
Definition clientKeyBytes : Z := (clientKeyLength + 7) / 8.

Definition public_key (clientN clientE : list Z) : list Z :=
  let h := assemble (4 + clientKeyBytes * 2) [] in
  let h := zset h 0 ((clientKeyLength & 4278190080) >>> 24)%js in
  let h := zset h 1 ((clientKeyLength & 16711680) >>> 16)%js in
  let h := zset h 2 ((clientKeyLength & 65280) >>> 8)%js in
  let h := zset h 3 (clientKeyLength & 255)%js in
  zblit (zblit h 4 clientN) (4 + clientKeyBytes) clientE.

(** [encrypt] gives null when the key is too short, and writing null throws. *)
Definition not_null {A} (o : outcome (option A)) : outcome A :=
  obind o (fun a => match a with Some a => Ret a | None => Throw "TypeError" end).

Definition after_generate (s : server) (sup : supply) : M W pc :=
  clientRSACipher <- attempt (Rsa._generateKey clientKeyLength true (s_key sup)) ;;
  '(clientN, clientE, _) <- attempt (Rsa.exportKey clientRSACipher) ;;
  clientN <- attempt (not_null (Ret clientN)) ;;
  clientE <- attempt (not_null (Ret clientE)) ;;
  let clientPublicKey := public_key clientN clientE in
  onSock (sQpushBytes clientPublicKey) ;;
  onSock flush ;;
  let clientRandom := s_random sup in
  clientEncryptedRandom <- attempt (not_null (Rsa.encrypt (serverRSACipher s) (s_padding sup) clientRandom)) ;;
  ret (AwaitEncrypt s (mkClient clientPublicKey clientRSACipher clientRandom) clientEncryptedRandom).

Definition random_message (serverKeyBytes : Z) (clientEncryptedRandom : list Z) : list Z :=
  let m := zrep (2 + serverKeyBytes) 0 in
  let m := zset m 0 ((serverKeyBytes & 65280) >>> 8)%js in
  let m := zset m 1 (serverKeyBytes & 255)%js in
  zblit m 2 clientEncryptedRandom.

Definition after_encrypt (s : server) (c : client) (clientEncryptedRandom : list Z) : M W pc :=
  onSock (sQpushBytes (random_message (serverKeyBytes s) clientEncryptedRandom)) ;;
  onSock flush ;;
  _waitSockAsync 2 ;;
  ret (AwaitRandom s c).

(** 4: the server's random number. *)
Definition after_random (s : server) (c : client) : M W pc :=
  n <- onSock rQshift16 ;;
  if negb (n =? clientKeyBytes) then throw "RA2: wrong encrypted message length"
  else
    serverEncryptedRandom <- onSock (rQshiftBytes clientKeyBytes) ;;
    ret (AwaitDecrypt s c serverEncryptedRandom).

(** 5 and 6: the session keys, the ciphers and the hashes. *)
Definition session_key (first second : list Z) : list Z := zslice (sha1 (assemble 32 [(0, first); (16, second)])) 0 16.

Definition hash_of (n : Z) (first : list Z) (offset : Z) (second : list Z) : list Z := sha1 (assemble n [(0, first); (offset, second)]).

Definition after_decrypt (s : server) (c : client) (serverEncryptedRandom : list Z) : M W pc :=
  serverRandom <- attempt (Rsa.decrypt (clientRSACipher c) serverEncryptedRandom) ;;
  match serverRandom with
  | Some serverRandom =>
      if zlen serverRandom =? 16 then
        let clientCipher := setKey (session_key serverRandom (clientRandom c)) in
        let serverCipher := setKey (session_key (clientRandom c) serverRandom) in
        let n := 8 + serverKeyBytes s * 2 + clientKeyBytes * 2 in
        let serverHash := hash_of n (serverPublickey s) (4 + serverKeyBytes s * 2) (clientPublicKey c) in
        let clientHash := hash_of n (clientPublicKey c) (4 + clientKeyBytes * 2) (serverPublickey s) in
        '(hashMessage, clientCipher) <- attempt (makeMessage clientCipher clientHash) ;;
        ret (AwaitMakeHash hashMessage serverHash clientCipher serverCipher)
      else throw "RA2: corrupted server encrypted random"
  | None => throw "RA2: corrupted server encrypted random"
  end.

Definition after_make_hash (hashMessage serverHash : list Z) (clientCipher serverCipher : cipher) : M W pc :=
  onSock (sQpushBytes hashMessage) ;;
  onSock flush ;;
  _waitSockAsync (2 + 20 + 16) ;;
  ret (AwaitHash serverHash clientCipher serverCipher).

Definition after_hash (serverHash : list Z) (clientCipher serverCipher : cipher) : M W pc :=
  n <- onSock rQshift16 ;;
  if negb (n =? 20) then throw "RA2: wrong server hash"
  else
    encrypted <- onSock (rQshiftBytes (20 + 16)) ;;
    ret (AwaitOpenHash serverHash clientCipher serverCipher encrypted).

Definition after_open_hash (serverHash : list Z) (clientCipher serverCipher : cipher) (encrypted : list Z) : M W pc :=
  let '(serverHashReceived, serverCipher) := receiveMessage serverCipher 20 encrypted in
  match serverHashReceived with
  | None => throw "RA2: failed to authenticate the message"
  | Some received =>
      if forallb (fun i => match zget received i, zget serverHash i with
                           | Some a, Some b => a =? b | None, None => true | _, _ => false end) (upto 20) then
        _waitSockAsync (2 + 1 + 16) ;;
        ret (AwaitSubtype clientCipher serverCipher)
      else throw "RA2: wrong server hash"
  end.

(** 7: the subtype and the credentials. *)
Definition after_subtype (clientCipher serverCipher : cipher) : M W pc :=
  n <- onSock rQshift16 ;;
  if negb (n =? 1) then throw "RA2: wrong subtype"
  else
    encrypted <- onSock (rQshiftBytes (1 + 16)) ;;
    ret (AwaitOpenSubtype clientCipher serverCipher encrypted).

(** An undefined subtype is none of the known ones; it is modelled as [-1]. *)
Definition after_open_subtype (clientCipher serverCipher : cipher) (encrypted : list Z) : M W pc :=
  match fst (receiveMessage serverCipher 1 encrypted) with
  | None => throw "RA2: failed to authenticate the message"
  | Some subtype =>
      let subtype := match zget subtype 0 with Some b => b | None => -1 end in
      _waitCredentialsAsync subtype ;;
      p <- onDisp get ;;
      let c := getCredentials p in
      if subtype =? 1 then
        (when negb (has (username c)) || negb (has (password c))
         then_ dispatch (CredentialsRequired ["username"; "password"]%string)) ;;
        ret (AwaitCredentials clientCipher subtype)
      else if subtype =? 2 then
        (when negb (has (password c)) then_ dispatch (CredentialsRequired ["password"]%string)) ;;
        ret (AwaitCredentials clientCipher subtype)
      else throw "RA2: wrong subtype"
  end.

(** [encodeURIComponent(undefined)] is the string undefined. *)
Definition undefined_units : list Z := [117; 110; 100; 101; 102; 105; 110; 101; 100].
Definition units (s : option (list Z)) : list Z := match s with Some s => s | None => undefined_units end.

Definition encode_credentials (username password : list Z) : list Z :=
  let m := zrep (zlen username + zlen password + 2) 0 in
  let m := zset m 0 (toUint8 (zlen username)) in
  let m := zset m (zlen username + 1) (toUint8 (zlen password)) in
  zblit (zblit m 1 username) (zlen username + 2) password.

Definition after_credentials (clientCipher : cipher) (subtype : Z) : M W pc :=
  p <- onDisp get ;;
  let c := getCredentials p in
  username <- (if subtype =? 1 then u <- attempt (Utf8.encodeUTF8 (units (username c))) ;; ret (zslice u 0 255) else ret []) ;;
  u <- attempt (Utf8.encodeUTF8 (units (password c))) ;;
  let password := zslice u 0 255 in
  '(message, _) <- attempt (makeMessage clientCipher (encode_credentials username password)) ;;
  ret (AwaitMakeCredentials message).

Definition after_make_credentials (message : list Z) : M W pc :=
  onSock (sQpushBytes message) ;;
  onSock flush ;;
  ret (Finished None).

(** ** The method *)

(** The code behind [await promise] runs when the promise is resolved; the
    error of a rejected one is thrown there. *)
Definition await (promise_of : ra2 -> promise) (here : pc) (next : M W pc) : M W pc :=
  r <- onDec get ;;
  match promise_of r with
  | Pending => ret here
  | Resolved => next
  | Rejected e => throw e
  end.

(** The browser's cryptographic operations settle by themselves. *)
Definition go_on (sup : supply) (here : pc) : M W pc :=
  match here with
  | Idle => ret Idle
  | AwaitLength => await sockPromise here after_length
  | AwaitKey b k => await sockPromise here (after_key b k)
  | AwaitImport b n e k => after_import b n e k
  | AwaitApproval s => await approvePromise here (ret (AwaitGenerate s))
  | AwaitGenerate s => after_generate s sup
  | AwaitEncrypt s c r => after_encrypt s c r
  | AwaitRandom s c => await sockPromise here (after_random s c)
  | AwaitDecrypt s c r => after_decrypt s c r
  | AwaitMakeHash m h cc sc => after_make_hash m h cc sc
  | AwaitHash h cc sc => await sockPromise here (after_hash h cc sc)
  | AwaitOpenHash h cc sc e => after_open_hash h cc sc e
  | AwaitSubtype cc sc => await sockPromise here (after_subtype cc sc)
  | AwaitOpenSubtype cc sc e => after_open_subtype cc sc e
  | AwaitCredentials cc t => await credentialsPromise here (after_credentials cc t)
  | AwaitMakeCredentials m => after_make_credentials m
  | Finished e => ret (Finished e)
  end.

(** What the method throws rejects its own promise. *)
Definition settling (m : M W pc) : M W unit := fun w =>
  match m w with
  | (Ret p, w) => onDec (modify (set_at p)) w
  | (Throw e, w) => onDec (modify (set_at (Finished (Some e)))) w
  | (Stuck, w) => (Stuck, w)
  end.

Definition resume (sup : supply) : M W unit := r <- onDec get ;; settling (go_on sup (at_await r)).

(** Up to the first suspension. *)
Definition negotiateRA2neAuthAsync : M W unit :=
  onDec (modify (set_hasStarted true)) ;;
  settling (_waitSockAsync 4 ;; ret AwaitLength).

(** What rfb.js does with the object on every data message and after new
    credentials. *)
Definition _negotiateRA2neAuth : M W unit :=
  checkInternalEvents ;;
  r <- onDec get ;;
  when negb (_hasStarted r) then_ negotiateRA2neAuthAsync.
End Negotiate.
End Ra2.
