(* ===== verification/Ra2Correct.v ===== *)
(** The RSA-AES exchange is correct: the encrypted channel carries messages,
    credentials leave only for an approved and authenticated server, and a
    whole exchange completes. *)

From Stdlib Require Import ZArith List Lia Bool String.
From S2P Require Import Prelude Source Sink Websock Bigint Utf8 Aes AesCorrect Rsa Display Decoder Messages Lifecycle Rfb Asock Ra2.
Import ListNotations JS JSFacts Bigint.Bigint Rfb.Rfb Ra2.Ra2.
Open Scope Z_scope.
Open Scope code_scope.

(** * The counter *)

(** The value of a counter, least significant byte first. *)
Definition le (l : list Z) : Z := be (rev l).

Lemma le_cons b l : le (b :: l) = b + 256 * le l.
Proof. unfold le. cbn [rev]. rewrite be_app, be_cons. change (zlen [b]) with 1. change (be []) with 0. change (zlen (@nil Z)) with 0. lia. Qed.

Lemma increment_ok c : bytes c ->
  bytes (increment c) /\ zlen (increment c) = zlen c /\ le (increment c) = (le c + 1) mod 256 ^ zlen c.
Proof.
  intros Hc. induction Hc as [|b c Hb Hc IH]; [cbn; repeat split; constructor|]. destruct IH as (Bi & Li & Vi).
  cbn [increment]. unfold is_byte in Hb. assert (Hn := zlen_nonneg c). assert (Hr : 0 <= le c < 256 ^ zlen c).
  { unfold le. replace (zlen c) with (zlen (rev c)) by (unfold zlen; now rewrite length_rev).
    apply be_range. now apply Forall_rev. }
  assert (Hp : 256 ^ (1 + zlen c) = 256 * 256 ^ zlen c) by (rewrite Z.pow_add_r by lia; lia).
  destruct (Z.eqb_spec b 255) as [->|Hne]; rewrite !le_cons, !zlen_cons, ?Li, Hp.
  - split; [constructor; [apply toUint8_byte|exact Bi]|]. split; [reflexivity|]. change (toUint8 (255 + 1)) with 0.
    rewrite Vi. replace (255 + 256 * le c + 1) with (256 * (le c + 1)) by lia. rewrite Z.mul_mod_distr_l by lia. lia.
  - rewrite toUint8_small by (unfold is_byte; lia).
    split; [constructor; [unfold is_byte; lia|exact Hc]|]. split; [reflexivity|]. rewrite Z.mod_small by nia. lia.
Qed.

(** * Arrays put together *)

(** Each part behind the one before. *)
Fixpoint offsets (k : Z) (parts : list (list Z)) : list (Z * list Z) :=
  match parts with
  | [] => []
  | p :: parts => (k, p) :: offsets (k + zlen p) parts
  end.

Lemma assembled_from parts : forall front,
  fold_left (fun dst '(off, src) => zblit dst off src) (offsets (zlen front) parts) (front ++ zrep (zlen (List.concat parts)) 0) =
  front ++ List.concat parts.
Proof.
  induction parts as [|p parts IH]; intros front; cbn [offsets fold_left List.concat]; [reflexivity|].
  assert (Hp := zlen_nonneg p). assert (Hq := zlen_nonneg (List.concat parts)). rewrite zlen_app, zrep_add by lia.
  rewrite (zblit_app front (zrep (zlen p) 0)) by (rewrite ?zlen_zrep; lia).
  replace (zlen front + zlen p) with (zlen (front ++ p)) by apply zlen_app. rewrite !app_assoc. apply IH.
Qed.

Lemma assembled n parts : n = zlen (List.concat parts) -> assemble n (offsets 0 parts) = List.concat parts.
Proof. intros ->. exact (assembled_from parts []). Qed.

(** * The channel *)

Section Channel.
Context `{WebCryptoOk}.

(** All messages in order; a frame carries its length in front. *)
Fixpoint seal_all (c : cipher) (ms : list (list Z)) : outcome (list (list Z) * cipher) :=
  match ms with
  | [] => Ret ([], c)
  | m :: ms => obind (makeMessage c m) (fun '(f, c) => obind (seal_all c ms) (fun '(fs, c) => Ret (f :: fs, c)))
  end.

Fixpoint open_all (c : cipher) (fs : list (list Z)) : option (list (list Z) * cipher) :=
  match fs with
  | [] => Some ([], c)
  | f :: fs =>
      match receiveMessage c (be (ztake 2 f)) (zdrop 2 f) with
      | (Some m, c) => option_map (fun '(ms, c) => (m :: ms, c)) (open_all c fs)
      | (None, _) => None
      end
  end.

(** A cipher with its counter whole. *)
Definition ready (key : list Z) (c : cipher) : Prop :=
  _cipher c = AESEAX._importKey key /\ bytes (_counter c) /\ zlen (_counter c) = 16.

Lemma setKey_ready key : ready key (setKey key).
Proof. split; [reflexivity|]. split; [apply bytes_reflect; reflexivity|reflexivity]. Qed.

Definition next_cipher (c : cipher) : cipher := mkCipher (_cipher c) (increment (_counter c)).

Lemma next_ready key c : ready key c -> ready key (next_cipher c).
Proof. intros (E & B & L). destruct (increment_ok _ B) as (B' & L' & _). split; [exact E|]. split; [exact B'|]. cbn. lia. Qed.

Lemma length_field_is n : 0 <= n < 65536 -> length_field n = be_bytes 2 n /\ bytes (length_field n) /\ be (length_field n) = n.
Proof.
  intros Hn. assert (E : length_field n = be_bytes 2 n).
  { unfold length_field. cbn [be_bytes]. change (256 ^ Z.of_nat 1) with 256. change (256 ^ Z.of_nat 0) with 1.
    assert (Eh : band n 65280 = n / 256 mod 256 * 256).
    { change 65280 with (Z.shiftl (2 ^ 8 - 1) 8). unfold band. rewrite !toInt32_small by (cbn; lia).
      assert (Hb : Z.land n (Z.shiftl (2 ^ 8 - 1) 8) = Z.shiftl (Z.land (Z.shiftr n 8) (2 ^ 8 - 1)) 8).
      { apply Z.bits_inj'. intros i Hi. rewrite !Z.land_spec, !Z.shiftl_spec, !Z.land_spec by lia.
        destruct (Z_lt_le_dec i 8); [rewrite (Z.testbit_neg_r _ (i - 8)) by lia; now rewrite !andb_false_r|].
        rewrite Z.shiftr_spec by lia. now replace (i - 8 + 8) with i by lia. }
      rewrite Hb. change (2 ^ 8 - 1) with (Z.ones 8). rewrite Z.land_ones, Z.shiftl_mul_pow2, Z.shiftr_div_pow2 by lia. reflexivity. }
    rewrite Eh. rewrite shr_small by euclid. change (2 ^ 8) with 256. rewrite Z.div_mul by lia. rewrite band_255, Z.div_1_r. reflexivity. }
  rewrite E. split; [reflexivity|]. split; [apply be_bytes_bytes|]. apply be_bytes_small. exact Hn.
Qed.

Lemma makeMessage_is key c m : ready key c -> bytes m -> zlen m < 65536 ->
  makeMessage c m = Ret (be_bytes 2 (zlen m) ++ eax key (be_bytes 2 (zlen m)) (_counter c) m, next_cipher c).
Proof.
  intros (Ec & Bc & Lc) Hm Hl. assert (Hl0 := zlen_nonneg m). unfold makeMessage, next_cipher.
  destruct (length_field_is (zlen m) ltac:(lia)) as (Ef & Bf & _). rewrite Ef in *. rewrite Ec. rewrite (encrypt_is key) by assumption.
  destruct (eax_shape key (be_bytes 2 (zlen m)) (_counter c) m Bf Bc Hm) as [Le _].
  destruct (Z.ltb_spec (zlen m + 2 + 16) (2 + zlen (eax key (be_bytes 2 (zlen m)) (_counter c) m))); [lia|]. do 2 f_equal.
  transitivity (List.concat [be_bytes 2 (zlen m); eax key (be_bytes 2 (zlen m)) (_counter c) m]).
  - apply (assembled (zlen m + 2 + 16) [be_bytes 2 (zlen m); eax key (be_bytes 2 (zlen m)) (_counter c) m]).
    cbn [List.concat]. rewrite !zlen_app, zlen_be_bytes, Le. change (zlen (@nil Z)) with 0. lia.
  - cbn [List.concat]. now rewrite app_nil_r.
Qed.

Lemma receiveMessage_is key c m : ready key c -> bytes m -> zlen m < 65536 ->
  receiveMessage c (zlen m) (eax key (be_bytes 2 (zlen m)) (_counter c) m) = (Some m, next_cipher c).
Proof.
  intros (Ec & Bc & Lc) Hm Hl. assert (Hl0 := zlen_nonneg m). unfold receiveMessage, next_cipher.
  destruct (length_field_is (zlen m) ltac:(lia)) as (Ef & Bf & _). rewrite Ef in *. rewrite Ec. rewrite decrypt_eax by assumption. reflexivity.
Qed.

(** The cipher after [n] messages. *)
Fixpoint advance (n : nat) (c : cipher) : cipher := match n with O => c | S n => advance n (next_cipher c) end.

Lemma advance_counter key n : forall c, ready key c -> le (_counter (advance n c)) = (le (_counter c) + Z.of_nat n) mod 2 ^ 128.
Proof.
  assert (Hr : forall c, ready key c -> 0 <= le (_counter c) < 2 ^ 128).
  { intros c (_ & B & L). unfold le. assert (Hb := be_range (rev (_counter c)) (Forall_rev B)).
    replace (zlen (rev (_counter c))) with 16 in Hb by (unfold zlen in *; now rewrite length_rev). exact Hb. }
  induction n as [|n IH]; intros c Hc; cbn [advance].
  - rewrite Z.add_0_r, Z.mod_small; [reflexivity|now apply Hr].
  - rewrite (IH _ (next_ready _ _ Hc)). destruct Hc as (_ & B & L). destruct (increment_ok _ B) as (_ & _ & V).
    cbn [next_cipher _counter]. rewrite V, L. change (256 ^ 16) with (2 ^ 128). rewrite Z.add_mod_idemp_l by lia. f_equal. lia.
Qed.

(** C27.  The encrypted channel: messages sealed one after the other are opened
    in order as they were, each under a counter of its own as long as there are
    no more than 2^128 of them. *)
Theorem channel_carries key ms : Forall (fun m => bytes m /\ zlen m < 65536) ms ->
  (exists fs, seal_all (setKey key) ms = Ret (fs, advance (List.length ms) (setKey key)) /\
    open_all (setKey key) fs = Some (ms, advance (List.length ms) (setKey key))) /\
  forall i j, Z.of_nat i < 2 ^ 128 -> Z.of_nat j < 2 ^ 128 ->
    _counter (advance i (setKey key)) = _counter (advance j (setKey key)) -> i = j.
Proof.
  intros Hms. split.
  - generalize (setKey_ready key). generalize (setKey key). induction Hms as [|m ms [Bm Lm] Hms IH]; intros c Hc; cbn [seal_all List.length advance].
    + exists []. split; reflexivity.
    + rewrite (makeMessage_is key c m Hc Bm Lm). cbn [obind]. destruct (IH _ (next_ready _ _ Hc)) as (fs & Es & Eo).
      rewrite Es. cbn [obind]. eexists. split; [reflexivity|]. cbn [open_all].
      assert (Hl := zlen_nonneg m). set (e := eax _ _ _ _).
      replace (ztake 2 (be_bytes 2 (zlen m) ++ e)) with (be_bytes 2 (zlen m)) by reflexivity.
      replace (zdrop 2 (be_bytes 2 (zlen m) ++ e)) with e by reflexivity.
      rewrite be_bytes_small by (change (256 ^ Z.of_nat 2) with 65536; lia). unfold e.
      rewrite (receiveMessage_is key c m Hc Bm Lm), Eo. reflexivity.
  - intros i j Hi Hj E. apply (f_equal le) in E. rewrite !(advance_counter key) in E by apply setKey_ready.
    change (le (_counter (setKey key))) with 0 in E. rewrite !Z.mod_small in E by lia. lia.
Qed.
End Channel.

(** * What leaves, and when *)

Section Guard.
Context `{WebCrypto} `{Digest}.
Abbreviation W := (world ra2 asock page).

(** What happens to the exchange: bytes arrive, the client looks at them, the
    page approves, logs in or leaves, and the method goes on. *)
Inductive happening :=
| HData (l : list Z)
| HMsg
| HApprove
| HDisconnect
| HLogin (c : credentials)
| HResume (sup : supply).

Definition arrive (l : list Z) (w : W) : W :=
  let s := sock w in
  World (dec w) (ASock (ASrc (past (a_in s)) (rest (a_in s) ++ l)) (a_out s) (a_closed s) (a_handlers s)) (disp w).

Definition happen (h : happening) : M W unit :=
  match h with
  | HData l => modify (arrive l)
  | HMsg => _negotiateRA2neAuth
  | HApprove => approveServer
  | HDisconnect => disconnect
  | HLogin c => onDisp (modify (fun p => mkPage c (events p)))
  | HResume sup => resume sup
  end.

Fixpoint runs (hs : list happening) (w : W) : option W :=
  match hs with
  | [] => Some w
  | h :: hs => match happen h w with (Ret _, w) => runs hs w | _ => None end
  end.

Lemma runs_snoc hs h w : runs (hs ++ [h]) w =
  match runs hs w with Some w => match happen h w with (Ret _, w) => Some w | _ => None end | None => None end.
Proof.
  revert w. induction hs as [|h1 hs IH]; intros w; cbn [app runs]; [reflexivity|]. destruct (happen h1 w) as [[]]; auto.
Qed.

(** ** What a piece of the method does to the outside *)

Record view := View { v_at : pc; v_sent : list Z; v_page : page; v_approval : promise }.
Definition view_of (w : W) : view := View (at_await (dec w)) (out (a_out (sock w))) (disp w) (approvePromise (dec w)).

Definition started (w : W) : bool := _hasStarted (dec w).

Definition At {A} (v : view) (m : M W A) (Q : A -> view -> Prop) (E : view -> Prop) : Prop :=
  forall w, view_of w = v ->
  match m w with
  | (Ret a, w') => started w' = started w /\ Q a (view_of w')
  | (Throw _, w') => started w' = started w /\ E (view_of w')
  | (Stuck, _) => True
  end.

(** Reads and waits leave it as it is. *)
Definition quiet {A} (m : M W A) : Prop :=
  forall w, match m w with
            | (Ret _, w') => started w' = started w /\ view_of w' = view_of w
            | (Throw _, _) => False
            | (Stuck, _) => True
            end.

Lemma calm_bind {A B} (m : M W A) (k : A -> M W B) : quiet m -> (forall a, quiet (k a)) -> quiet (bind m k).
Proof.
  intros Hm Hk w. specialize (Hm w). unfold bind. destruct (m w) as [[a|e|] w']; auto.
  specialize (Hk a w'). destruct (k a w') as [[b|e|] w2]; auto. intuition congruence.
Qed.

Lemma calm_ret {A} (a : A) : quiet (ret a).
Proof. intros w. split; reflexivity. Qed.
Lemma quiet_get : quiet (onDec get).
Proof. now intros [r s p]. Qed.
Lemma quiet_page : quiet (onDisp get).
Proof. now intros [r s p]. Qed.

Lemma quiet_dec f :
  (forall r, at_await (f r) = at_await r /\ approvePromise (f r) = approvePromise r /\ _hasStarted (f r) = _hasStarted r) ->
  quiet (onDec (modify f)).
Proof. intros Hf [r s p]. destruct (Hf r) as (E1 & E2 & E3). unfold view_of, started. cbn. now rewrite E1, E2, E3. Qed.

Lemma quiet_in {A} (m : M asrc A) : (forall s, match m s with (Throw _, _) => False | _ => True end) -> quiet (onSock (aIn m)).
Proof.
  intros Hm [r [i o cl h] p]. unfold onSock, aIn, lift. cbn [dec sock disp a_in a_out a_closed a_handlers].
  specialize (Hm i). destruct (m i) as [[a|e|] i']; auto.
Qed.

Lemma quiet_take {A} n f (k : list Z -> A) : quiet (onSock (aIn (atake n f k))).
Proof. apply quiet_in. intros s. unfold atake. now destruct (_ && _). Qed.

Lemma quiet_wait n g : quiet (onSock (rQwait n g)).
Proof. apply quiet_in. intros s. cbn. repeat case_if; exact I. Qed.
Lemma quiet_peek n : quiet (onSock (rQpeekBytes n)).
Proof. apply quiet_in. intros s. cbn. case_if; exact I. Qed.
Lemma quiet_flush : quiet (onSock flush).
Proof. now intros [r [i o cl h] p]. Qed.

Lemma quiet_waitSock n : quiet (_waitSockAsync n).
Proof. apply calm_bind; [apply quiet_wait|]. intros b. destruct (negb b); now apply quiet_dec. Qed.

Lemma quiet_waitCredentials t : quiet (_waitCredentialsAsync t).
Proof. apply calm_bind; [apply quiet_page|]. intros p. case_if; now apply quiet_dec. Qed.

Lemma quiet_check : quiet checkInternalEvents.
Proof.
  apply calm_bind; [|intros _]; (apply calm_bind; [apply quiet_get|]; intros r).
  - destruct (_checkSock r); [|apply calm_ret]. apply calm_bind; [apply quiet_wait|]. intros b. case_if; [now apply quiet_dec|apply calm_ret].
  - destruct (_checkCredentials r); [|apply calm_ret]. apply calm_bind; [apply quiet_page|]. intros p. case_if; [now apply quiet_dec|apply calm_ret].
Qed.

Lemma dec_get {B} (k : ra2 -> M W B) w : bind (onDec get) k w = k (dec w) w.
Proof. now destruct w. Qed.

Section Rules.
Context (v : view) (E : view -> Prop).

Lemma at_ret {A} (a : A) (Q : A -> view -> Prop) : Q a v -> At v (ret a) Q E.
Proof. intros HQ w Hw. split; [reflexivity|]. now rewrite Hw. Qed.

Lemma at_throw {A} e (Q : A -> view -> Prop) : E v -> At v (throw e) Q E.
Proof. intros HE w Hw. split; [reflexivity|]. now rewrite Hw. Qed.

Lemma at_quiet {A B} (m : M W A) (k : A -> M W B) Q : quiet m -> (forall a, At v (k a) Q E) -> At v (bind m k) Q E.
Proof.
  intros Hm Hk w Hw. specialize (Hm w). unfold bind. destruct (m w) as [[a|e|] w']; auto; [|easy]. destruct Hm as [<- Hm].
  apply Hk. congruence.
Qed.

Lemma at_attempt {A B} (o : outcome A) (k : A -> M W B) Q : E v -> (forall a, o = Ret a -> At v (k a) Q E) -> At v (bind (attempt o) k) Q E.
Proof. intros HE Hk w Hw. unfold bind, attempt. destruct o as [a|e|]; [now apply Hk|now rewrite Hw|exact I]. Qed.

Lemma at_push {B} l (k : unit -> M W B) Q :
  At (View (v_at v) (v_sent v ++ l) (v_page v) (v_approval v)) (k tt) Q E -> At v (bind (onSock (sQpushBytes l)) k) Q E.
Proof.
  intros Hk [r [i [o n c] cl h] p] <-. unfold bind, onSock, lift, sQpushBytes, asock_sink, aOut, lift.
  cbn [dec sock disp a_in a_out a_closed a_handlers sQpushBytes asink_sink]. unfold apushBytes.
  destruct (Z.eqb_spec (zlen l) 0) as [Ez|Ez].
  - apply Hk. unfold view_of. cbn. assert (l = []) as -> by now apply zlen_0_nil. now rewrite app_nil_r.
  - destruct (zlen l <=? _); [|exact I].
    match goal with |- match k tt ?w with _ => _ end => apply (Hk w) end. unfold view_of, aput, ensure. cbn. now destruct (_ <? _).
Qed.

Lemma at_tell {B} e (k : unit -> M W B) Q :
  At (View (v_at v) (v_sent v) (mkPage (getCredentials (v_page v)) (events (v_page v) ++ [e])) (v_approval v)) (k tt) Q E ->
  At v (bind (dispatch e) k) Q E.
Proof. intros Hk [r s p] <-. exact (Hk (World r s (mkPage (getCredentials p) (events p ++ [e]))) eq_refl). Qed.

Lemma at_ask {B} (k : unit -> M W B) Q :
  At (View (v_at v) (v_sent v) (v_page v) Pending) (k tt) Q E -> At v (bind _waitApproveKeyAsync k) Q E.
Proof. intros Hk [r s p] <-. exact (Hk (World (set_approve true true Pending r) s p) eq_refl). Qed.
End Rules.

(** ** What each stage of the exchange has behind it *)

(** Both sides' ciphers and hashes, of the server [s], the client [c] and the
    server's random number [R]. *)
Definition client_cipher (c : client) (R : list Z) : cipher := setKey (session_key R (clientRandom c)).
Definition server_cipher (c : client) (R : list Z) : cipher := setKey (session_key (clientRandom c) R).
Definition hash_length (s : server) : Z := 8 + serverKeyBytes s * 2 + clientKeyBytes * 2.
Definition server_hash (s : server) (c : client) : list Z := hash_of (hash_length s) (serverPublickey s) (4 + serverKeyBytes s * 2) (clientPublicKey c).
Definition client_hash (s : server) (c : client) : list Z := hash_of (hash_length s) (clientPublicKey c) (4 + clientKeyBytes * 2) (serverPublickey s).

(** The greeting: the client's key and its random number, encrypted. *)
Definition greeting (s : server) (c : client) (e : list Z) : list Z := clientPublicKey c ++ random_message (serverKeyBytes s) e.

(** The sealed hash of the client, which leaves the cipher [cc]. *)
Definition hashed (s : server) (c : client) (R m : list Z) (cc : cipher) : Prop :=
  makeMessage (client_cipher c R) (client_hash s c) = Ret (m, cc).

(** The server sent, sealed with the session key, the hash of both keys. *)
Definition proved (s : server) (c : client) (R : list Z) : Prop :=
  exists sealed received, fst (receiveMessage (server_cipher c R) 20 sealed) = Some received /\
    forall i, 0 <= i < 20 -> zget received i = zget (server_hash s c) i.

Definition story (A : list Z -> Prop) (v : view) : Prop :=
  let sent := v_sent v in
  match v_at v with
  | Idle | AwaitLength | AwaitKey _ _ | AwaitImport _ _ _ _ => sent = []
  | AwaitApproval s => sent = [] /\ In (ServerVerification (serverPublickey s)) (events (v_page v)) /\
      (v_approval v = Resolved -> A (serverPublickey s))
  | AwaitGenerate s => sent = [] /\ A (serverPublickey s)
  | AwaitEncrypt s c e => sent = clientPublicKey c /\ A (serverPublickey s)
  | AwaitRandom s c | AwaitDecrypt s c _ => exists e, sent = greeting s c e /\ A (serverPublickey s)
  | AwaitMakeHash m h cc sc => exists s c e R, sent = greeting s c e /\ A (serverPublickey s) /\
      h = server_hash s c /\ sc = server_cipher c R /\ hashed s c R m cc
  | AwaitHash h cc sc | AwaitOpenHash h cc sc _ => exists s c e R m, sent = greeting s c e ++ m /\ A (serverPublickey s) /\
      h = server_hash s c /\ sc = server_cipher c R /\ hashed s c R m cc
  | AwaitSubtype cc _ | AwaitOpenSubtype cc _ _ | AwaitCredentials cc _ => exists s c e R m,
      sent = greeting s c e ++ m /\ A (serverPublickey s) /\ hashed s c R m cc /\ proved s c R
  | AwaitMakeCredentials m' => exists s c e R m cc, sent = greeting s c e ++ m /\ A (serverPublickey s) /\
      hashed s c R m cc /\ proved s c R /\ exists u p cc', makeMessage cc (encode_credentials u p) = Ret (m', cc')
  | Finished None => exists s c e R m cc m', sent = greeting s c e ++ m ++ m' /\ A (serverPublickey s) /\
      hashed s c R m cc /\ proved s c R /\ exists u p cc', makeMessage cc (encode_credentials u p) = Ret (m', cc')
  | Finished (Some _) => True
  end.

(** Go through a statement in which [A] occurs positively. *)
Ltac mono HA :=
  lazymatch goal with
  | |- (exists _, _) -> _ => let x := fresh "x" in let Hx := fresh in intros [x Hx]; exists x; revert Hx; mono HA
  | |- _ /\ _ -> _ =>
      let H1 := fresh in let H2 := fresh in intros [H1 H2]; split; [clear H2; revert H1|clear H1; revert H2]; mono HA
  | |- ?P -> ?P => exact (fun H => H)
  | |- (_ -> _) -> _ -> _ => intros HP HQ; exact (HA _ (HP HQ))
  | |- _ => exact (HA _)
  end.

Lemma story_mono (A A' : list Z -> Prop) v : (forall k, A k -> A' k) -> story A v -> story A' v.
Proof. intros HA. unfold story. destruct (v_at v) as [| | | | | | | | | | | | | | | |[e|]]; mono HA. Qed.

(** ** Every piece of the method goes from one stage to the next *)

Section Stages.
Context (A : list Z -> Prop).

Definition next_stage (p : pc) (v : view) : Prop := story A (View p (v_sent v) (v_page v) (v_approval v)).
Definition given_up (v : view) : Prop := True.
Abbreviation stage v m := (At v m next_stage given_up).

Lemma stage_await v pr here next : next_stage here v ->
  stage v next -> stage v (await pr here next).
Proof.
  intros Hn Hs. apply at_quiet; [apply quiet_get|]. intros r. destruct (pr r); [now apply at_ret|exact Hs|now apply at_throw].
Qed.

Lemma stage_approval v here next : next_stage here v ->
  (v_approval v = Resolved -> stage v next) -> stage v (await approvePromise here next).
Proof.
  intros Hn Hs [r s p] Hw. unfold await. rewrite dec_get. cbn [dec].
  assert (E : approvePromise r = v_approval v) by now subst v. destruct (approvePromise r).
  - cbn. now rewrite Hw.
  - now apply Hs.
  - now split.
Qed.

Ltac step := first
  [ apply at_quiet; [first [apply quiet_take|apply quiet_peek|apply quiet_flush|apply quiet_waitSock|apply quiet_waitCredentials|apply quiet_page]|intros ?]
  | apply at_push | apply at_tell | apply at_ask | apply at_attempt; [|intros ? ?] ].

Lemma stage_length v : v_sent v = [] -> stage v after_length.
Proof.
  intros Hs. unfold after_length. repeat step. case_if; [now apply at_throw|]. case_if; [now apply at_throw|].
  repeat step. now apply at_ret.
Qed.

Lemma stage_key v b k : v_sent v = [] -> stage v (after_key b k).
Proof. intros Hs. unfold after_key. repeat step. now apply at_ret. Qed.

Lemma stage_import v b n e k : v_sent v = [] -> stage v (after_import b n e k).
Proof.
  intros Hs. unfold after_import. step; [exact I|]. repeat step. apply at_ret. split; [exact Hs|]. split; [|discriminate].
  cbn [v_page events serverPublickey]. apply in_or_app. right. now left.
Qed.

Lemma stage_generate v s sup : v_sent v = [] -> A (serverPublickey s) -> stage v (after_generate s sup).
Proof.
  intros Hs HA. unfold after_generate. step; [exact I|]. step; [exact I|]. destruct a0 as [[n e] d]. step; [exact I|]. step; [exact I|].
  step. step. step.
  - exact I.
  - apply at_ret. split; [|exact HA]. cbn [v_sent]. now rewrite Hs.
Qed.

Lemma stage_encrypt v s c e : v_sent v = clientPublicKey c -> A (serverPublickey s) -> stage v (after_encrypt s c e).
Proof.
  intros Hs HA. unfold after_encrypt. repeat step. apply at_ret. exists e. split; [|exact HA]. cbn [v_sent]. now rewrite Hs.
Qed.

Lemma stage_random v s c e : v_sent v = greeting s c e -> A (serverPublickey s) -> stage v (after_random s c).
Proof.
  intros Hs HA. unfold after_random. step. case_if.
  - now apply at_throw.
  - step. apply at_ret. exists e. auto.
Qed.

Lemma stage_decrypt v s c e r : v_sent v = greeting s c e -> A (serverPublickey s) -> stage v (after_decrypt s c r).
Proof.
  intros Hs HA.
  unfold after_decrypt. step; [exact I|]. destruct a as [R|]; [|now apply at_throw]. destruct (zlen R =? 16); [|now apply at_throw].
  step; [exact I|]. destruct a as [m cc]. apply at_ret. exists s, c, e, R. repeat (split; [first [exact Hs|exact HA|reflexivity]|]). assumption.
Qed.

(** From here on the greeting and the hash are sent. *)
Lemma stage_make_hash v m h cc sc s c e R : v_sent v = greeting s c e -> A (serverPublickey s) ->
  h = server_hash s c -> sc = server_cipher c R -> hashed s c R m cc -> stage v (after_make_hash m h cc sc).
Proof.
  intros Hs HA Eh Ec Hm. unfold after_make_hash. repeat step. apply at_ret. exists s, c, e, R, m.
  split; [cbn [v_sent]; now rewrite Hs|]. auto.
Qed.

Section Hashed.
Context (v : view) (s : server) (c : client) (e R m : list Z) (cc : cipher).
Context (Hs : v_sent v = greeting s c e ++ m) (HA : A (serverPublickey s)) (Hm : hashed s c R m cc).

Lemma stage_hash h sc : h = server_hash s c -> sc = server_cipher c R -> stage v (after_hash h cc sc).
Proof.
  intros Eh Ec. unfold after_hash. step. case_if; [now apply at_throw|].
  step. apply at_ret. exists s, c, e, R, m. auto.
Qed.

Lemma stage_open_hash sealed : stage v (after_open_hash (server_hash s c) cc (server_cipher c R) sealed).
Proof.
  unfold after_open_hash. destruct (receiveMessage _ 20 sealed) as [[received|] sc'] eqn:Er; [|now apply at_throw].
  destruct (forallb _ _) eqn:Ef; [|now apply at_throw]. step. apply at_ret. exists s, c, e, R, m.
  split; [exact Hs|]. split; [exact HA|]. split; [exact Hm|]. exists sealed, received. split; [now rewrite Er|].
  intros i Hi. assert (Hx := forall_upto _ 20 Ef i Hi). cbv beta in Hx.
  destruct (zget received i), (zget (server_hash s c) i); try discriminate; [|reflexivity]. f_equal. now apply Z.eqb_eq.
Qed.

Context (Hp : proved s c R).

Lemma stage_subtype sc : stage v (after_subtype cc sc).
Proof.
  unfold after_subtype. step. case_if; [now apply at_throw|].
  step. apply at_ret. exists s, c, e, R, m. auto.
Qed.

Lemma ready_for_credentials p t : v_sent p = v_sent v -> next_stage (AwaitCredentials cc t) p.
Proof. intros E. exists s, c, e, R, m. cbn [v_sent]. rewrite E. auto. Qed.

Lemma stage_open_subtype sc sealed : stage v (after_open_subtype cc sc sealed).
Proof.
  unfold after_open_subtype. destruct (fst _) as [t|]; [|now apply at_throw].
  step. step. case_if; [|case_if; [|now apply at_throw]];
    case_if; try (apply at_tell); try (apply at_quiet; [apply calm_ret|intros _]); apply at_ret; now apply ready_for_credentials.
Qed.

Lemma stage_credentials t : stage v (after_credentials cc t).
Proof.
  unfold after_credentials. step.
  assert (Hrest : forall u, stage v (u' <- attempt (Utf8.encodeUTF8 (units (password (getCredentials a)))) ;;
    '(message, _) <- attempt (makeMessage cc (encode_credentials u (zslice u' 0 255))) ;; ret (AwaitMakeCredentials message))).
  { intros u. step; [exact I|]. step; [exact I|]. destruct a1 as [m' cc']. apply at_ret. exists s, c, e, R, m, cc.
    split; [exact Hs|]. split; [exact HA|]. split; [exact Hm|]. split; [exact Hp|]. eexists _, _, cc'. eassumption. }
  destruct (t =? 1); [|intros w Hw; exact (Hrest [] w Hw)]. intros w Hw. rewrite bind_assoc. revert w Hw.
  step; [exact I|]. intros w Hw. exact (Hrest _ w Hw).
Qed.
End Hashed.

Lemma stage_make_credentials v s c e R m cc m' : v_sent v = greeting s c e ++ m -> A (serverPublickey s) ->
  hashed s c R m cc -> proved s c R -> (exists u p cc', makeMessage cc (encode_credentials u p) = Ret (m', cc')) ->
  stage v (after_make_credentials m').
Proof.
  intros Hs HA Hm Hp Hc. unfold after_make_credentials. repeat step. apply at_ret. exists s, c, e, R, m, cc, m'.
  split; [|auto]. cbn [v_sent]. now rewrite Hs, <- app_assoc.
Qed.

Lemma stage_go_on v sup : story A v -> stage v (go_on sup (v_at v)).
Proof.
  intros Hv. assert (Hn : next_stage (v_at v) v) by now destruct v.
  unfold story in Hv. destruct (v_at v) as [| | | | | | | | | | | | | | | |o]; cbn [go_on].
  - now apply at_ret.
  - apply stage_await; auto. now apply stage_length.
  - apply stage_await; auto. now apply stage_key.
  - now apply stage_import.
  - destruct Hv as (Es & _ & Ha). apply stage_approval; auto. intros Hr. apply at_ret. split; auto.
  - destruct Hv. now apply stage_generate.
  - destruct Hv. now apply stage_encrypt.
  - destruct Hv as (x & E & Ha). apply stage_await; auto. exact (stage_random v s c x E Ha).
  - destruct Hv as (x & E & Ha). exact (stage_decrypt v s c x _ E Ha).
  - destruct Hv as (s & c & x & R & E & Ha & Eh & Ec & Hm). exact (stage_make_hash v _ _ _ _ s c x R E Ha Eh Ec Hm).
  - destruct Hv as (s & c & x & R & m & E & Ha & Eh & Ec & Hm). apply stage_await; auto. exact (stage_hash v s c x R m _ E Ha Hm _ _ Eh Ec).
  - destruct Hv as (s & c & x & R & m & E & Ha & -> & -> & Hm). exact (stage_open_hash v s c x R m _ E Ha Hm _).
  - destruct Hv as (s & c & x & R & m & E & Ha & Hm & Hp). apply stage_await; auto. exact (stage_subtype v s c x R m _ E Ha Hm Hp _).
  - destruct Hv as (s & c & x & R & m & E & Ha & Hm & Hp). exact (stage_open_subtype v s c x R m _ E Ha Hm Hp _ _).
  - destruct Hv as (s & c & x & R & m & E & Ha & Hm & Hp). apply stage_await; auto. exact (stage_credentials v s c x R m _ E Ha Hm Hp _).
  - destruct Hv as (s & c & x & R & m & cc & E & Ha & Hm & Hp & Hc). exact (stage_make_credentials v s c x R m cc _ E Ha Hm Hp Hc).
  - now apply at_ret.
Qed.

Lemma resume_story sup w : story A (view_of w) ->
  match resume sup w with
  | (Ret _, w') => started w' = started w /\ story A (view_of w')
  | (Throw _, _) => False
  | (Stuck, _) => True
  end.
Proof.
  intros Hs. unfold resume. rewrite dec_get. assert (Hg := stage_go_on (view_of w) sup Hs w eq_refl).
  change (v_at (view_of w)) with (at_await (dec w)) in Hg. unfold settling. destruct (go_on sup (at_await (dec w)) w) as [[p|er|] [r s g]].
  - destruct Hg as [Hst Hg]. split; [exact Hst|exact Hg].
  - destruct Hg as [Hst Hg]. split; [exact Hst|exact Hg].
  - exact I.
Qed.
End Stages.

(** ** Every history *)

(** What holds of a world at every moment. *)
Definition sound (A : list Z -> Prop) (w : W) : Prop := story A (view_of w) /\ (started w = false -> at_await (dec w) = Idle).

Definition approves (h : happening) (w : W) (key : list Z) : Prop :=
  h = HApprove /\ In (ServerVerification key) (events (disp w)).

Lemma story_view A v v' : v_at v' = v_at v -> v_sent v' = v_sent v -> events (v_page v') = events (v_page v) ->
  (v_approval v' = Resolved -> v_approval v = Resolved) -> story A v -> story A v'.
Proof.
  intros Ea Es Ep Er. unfold story. rewrite Ea, Es, Ep. destruct (v_at v) as [| | | | | | | | | | | | | | | |[]]; try exact (fun H => H).
  intros (H1 & H2 & H3). auto.
Qed.

Lemma approval_story A h w v' : story A (view_of w) -> v_at v' = at_await (dec w) -> v_sent v' = v_sent (view_of w) ->
  v_page v' = disp w -> h = HApprove -> story (fun k => A k \/ approves h w k) v'.
Proof.
  intros Hs Ea Es Ep Eh. apply (story_mono A (fun k => A k \/ approves h w k)) in Hs; [|auto]. unfold story in *. rewrite Ea, Es, Ep.
  change (v_at (view_of w)) with (at_await (dec w)) in Hs. change (v_page (view_of w)) with (disp w) in Hs.
  destruct (at_await (dec w)) as [| | | | | | | | | | | | | | | |[]]; try exact Hs.
  destruct Hs as (H1 & H2 & H3). split; [exact H1|]. split; [exact H2|]. intros _. right. split; [exact Eh|exact H2].
Qed.

Lemma happen_sound A h w : sound A w ->
  match happen h w with
  | (Ret _, w') => sound (fun k => A k \/ approves h w k) w'
  | (Throw _, _) => False
  | (Stuck, _) => True
  end.
Proof.
  intros [Hs Hi]. assert (Hm : story (fun k => A k \/ approves h w k) (view_of w)) by (revert Hs; apply story_mono; auto).
  destruct h; cbn [happen].
  - now split.
  - assert (Hq := quiet_check w). unfold _negotiateRA2neAuth, bind at 1.
    destruct (checkInternalEvents w) as [[[]|er|] w1]; [|easy|exact I]. destruct Hq as [Est Ev]. rewrite dec_get.
    change (_hasStarted (dec w1)) with (started w1). rewrite Est. destruct (started w) eqn:Es; cbn [negb].
    + split; [cbn; now rewrite Ev|]. rewrite Est. discriminate.
    + unfold negotiateRA2neAuthAsync. unfold bind at 1.
      set (w2 := World (set_hasStarted true (dec w1)) (sock w1) (disp w1)).
      replace (onDec (modify (set_hasStarted true)) w1) with (Ret tt, w2) by (now destruct w1).
      unfold settling, bind. assert (Hq := quiet_waitSock 4 w2). destruct (_waitSockAsync 4 w2) as [[[]|er|] w3]; [|easy|exact I].
      destruct Hq as [Est3 Ev3]. split; [|intros Hx; change (started w3 = false) in Hx; now rewrite Est3 in Hx].
      assert (Hidle : v_sent (view_of w) = []). { specialize (Hi eq_refl). unfold story in Hs. cbn [v_at view_of] in Hs. now rewrite Hi in Hs. }
      assert (E : v_sent (view_of w3) = v_sent (view_of w)) by (rewrite Ev3; rewrite <- Ev; reflexivity). rewrite <- E in Hidle. exact Hidle.
  - destruct w as [r s p]. unfold approveServer, onDec, lift, modify. cbn [dec sock disp]. unfold sound, started in *. cbn [dec] in *.
    destruct (_approveServerResolve r); [|now split]. split; [|exact Hi].
    now apply (approval_story A HApprove (World r s p)).
  - destruct w as [r s p]. unfold disconnect, onDec, lift, modify. cbn [dec sock disp]. split.
    + revert Hm. apply story_view; try reflexivity; repeat case_if; try reflexivity. 
      all: cbn; destruct (approvePromise r); try discriminate; auto.
    + unfold started in *. cbn [dec] in *. repeat case_if; exact Hi.
  - destruct w as [r s p]. split; [|exact Hi]. revert Hm. now apply story_view.
  - assert (Hr := resume_story _ sup w Hm). destruct (resume sup w) as [[[]|er|] w'] eqn:Er; auto. destruct Hr as [Est Hr].
    split; [exact Hr|]. rewrite Est. intros Hx. specialize (Hi Hx). unfold resume in Er. rewrite dec_get, Hi in Er. now inversion Er.
Qed.

(** The object as the client makes it, with an open socket. *)
Definition fresh (creds : credentials) (k : Z) (cl : bool) (h : Websock.event -> bool) : W :=
  World constructor (ASock (ASrc [] []) (ASink [] 0 k) cl h) (mkPage creds []).

(** The page approved [key] after it was shown. *)
Definition approved (w0 : W) (hs : list happening) (key : list Z) : Prop :=
  exists before after w, hs = before ++ HApprove :: after /\ runs before w0 = Some w /\ In (ServerVerification key) (events (disp w)).

Lemma approved_snoc w0 hs h key : approved w0 hs key -> approved w0 (hs ++ [h]) key.
Proof. intros (b & a & w & -> & Hw & Hi). exists b, (a ++ [h]), w. now rewrite <- app_assoc. Qed.

Lemma history_sound creds k cl h hs : forall w, runs hs (fresh creds k cl h) = Some w -> sound (approved (fresh creds k cl h) hs) w.
Proof.
  set (w0 := fresh creds k cl h). induction hs as [|x hs IH] using rev_ind; intros w Hr.
  - injection Hr as <-. now split.
  - rewrite runs_snoc in Hr. destruct (runs hs w0) as [w1|] eqn:E1; [|easy]. specialize (IH w1 eq_refl).
    assert (Hx := happen_sound _ x w1 IH). destruct (happen x w1) as [[[]|er|] w2]; try easy. injection Hr as ->.
    destruct Hx as [Hs Hi]. split; [|exact Hi]. revert Hs. apply story_mono. intros key [Ha|[-> Ha]]; [now apply approved_snoc|].
    exists hs, [], w1. auto.
Qed.

(** ** Two histories that differ in the credentials *)

(** It treats two pages alike, and leaves the wait for credentials alone. *)
Definition Blind {A} (m : M W A) : Prop := forall r s p1 p2,
  let '(o1, w1) := m (World r s p1) in let '(o2, w2) := m (World r s p2) in
  o1 = o2 /\ dec w1 = dec w2 /\ sock w1 = sock w2 /\
  _checkCredentials (dec w1) = _checkCredentials r /\ started w1 = _hasStarted r.

Lemma blind_ret {A} (a : A) : Blind (ret a).
Proof. now intros r s p1 p2. Qed.
Lemma blind_throw {A} e : Blind (throw e : M W A).
Proof. now intros r s p1 p2. Qed.
Lemma blind_attempt {A} (o : outcome A) : Blind (attempt o).
Proof. now intros r s p1 p2. Qed.
Lemma blind_page f : Blind (onDisp (modify f)).
Proof. now intros r s p1 p2. Qed.
Lemma blind_get : Blind (onDec get).
Proof. now intros r s p1 p2. Qed.
Lemma blind_dec f : (forall r, _checkCredentials (f r) = _checkCredentials r /\ _hasStarted (f r) = _hasStarted r) -> Blind (onDec (modify f)).
Proof. intros Hf r s p1 p2. destruct (Hf r). now repeat split. Qed.
Lemma blind_sock {A} (m : M asock A) : Blind (onSock m).
Proof. intros r s p1 p2. unfold onSock, lift. cbn [sock dec disp]. destruct (m s) as [[a|e|] s']; now repeat split. Qed.

Lemma blind_bind {A B} (m : M W A) (k : A -> M W B) : Blind m -> (forall a, Blind (k a)) -> Blind (bind m k).
Proof.
  intros Hm Hk r s p1 p2. specialize (Hm r s p1 p2). unfold bind.
  destruct (m (World r s p1)) as [o1 [r1 s1 q1]], (m (World r s p2)) as [o2 [r2 s2 q2]]. cbn [dec sock] in Hm.
  destruct Hm as (-> & -> & -> & Ec & Es). destruct o2 as [a|e|]; [|now repeat split..].
  specialize (Hk a r2 s2 q1 q2). destruct (k a (World r2 s2 q1)) as [o3 w3], (k a (World r2 s2 q2)) as [o4 w4].
  destruct Hk as (E1 & E2 & E3 & E4 & E5). unfold started in *. cbn [dec] in *. intuition congruence.
Qed.

Ltac blind := repeat match goal with
  | |- Blind (ret _) => apply blind_ret
  | |- Blind (throw _) => apply blind_throw
  | |- Blind (attempt _) => apply blind_attempt
  | |- Blind (onDisp (modify _)) => apply blind_page
  | |- Blind (onDec get) => apply blind_get
  | |- Blind (onDec (modify _)) => apply blind_dec; now intros
  | |- Blind (onSock _) => apply blind_sock
  | |- Blind (bind _ _) => apply blind_bind; [|intros]
  | |- Blind (match ?x with _ => _ end) => destruct x
  | |- Blind (_waitSockAsync _) => unfold _waitSockAsync
  end.

Lemma blind_await pr here next : Blind next -> Blind (await pr here next).
Proof. intros Hn. unfold await. blind. exact Hn. Qed.

(** Before the server is known the credentials are not looked at. *)
Definition early (p : pc) : bool :=
  match p with AwaitOpenSubtype _ _ _ | AwaitCredentials _ _ | AwaitMakeCredentials _ | Finished _ => false | _ => true end.

Lemma early_blind sup p : early p = true -> Blind (go_on sup p).
Proof.
  intros He. destruct p; cbn [early] in He; try discriminate He; clear He; cbn [go_on].
  - blind.
  - apply blind_await. unfold after_length. blind.
  - apply blind_await. unfold after_key. blind.
  - unfold after_import, _waitApproveKeyAsync, dispatch. blind.
  - apply blind_await. blind.
  - unfold after_generate. blind.
  - unfold after_encrypt. blind.
  - apply blind_await. unfold after_random. blind.
  - unfold after_decrypt. blind.
  - unfold after_make_hash. blind.
  - apply blind_await. unfold after_hash. blind.
  - unfold after_open_hash. blind.
  - apply blind_await. unfold after_subtype. blind.
Qed.

(** What becomes of it: nothing but sealed credentials is still to be sent. *)
Definition over (p : pc) : Prop := p = Finished None.
Definition late (p : pc) : Prop := early p = false /\ ~ over p.
Definition sent_by (w : W) : list Z := out (a_out (sock w)).

Definition unsent (v v' : view) : Prop := v_sent v' = v_sent v.
Definition late_next (v : view) (p : pc) (v' : view) : Prop := late p /\ unsent v v' \/ over p.

(** From a late point on nothing is sent but at the very end. *)
Lemma late_stage sup v : late (v_at v) -> At v (go_on sup (v_at v)) (late_next v) (unsent v).
Proof.
  assert (Hl : forall p v', early p = false -> p <> Finished None -> unsent v v' -> late_next v p v') by (intros p v' E1 E2 E3; left; now repeat split).
  intros [He Ho]. destruct (v_at v) as [| | | | | | | | | | | | |cc sc e|cc t|m|[er|]]; try discriminate He; cbn [go_on]; [| | | |now destruct Ho].
  - unfold after_open_subtype. destruct (fst _) as [t|]; [|now apply at_throw]. apply at_quiet; [apply quiet_waitCredentials|intros []].
    apply at_quiet; [apply quiet_page|intros p].
    repeat case_if; try apply at_tell; try (apply at_quiet; [apply calm_ret|intros _]); first [now apply at_throw|apply at_ret; now apply Hl].
  - unfold await. apply at_quiet; [apply quiet_get|]. intros r. destruct (credentialsPromise r); [apply at_ret; now apply Hl| |now apply at_throw].
    unfold after_credentials. apply at_quiet; [apply quiet_page|]. intros p.
    assert (Hrest : forall u, At v (u' <- attempt (Utf8.encodeUTF8 (units (password (getCredentials p)))) ;;
      '(message, _) <- attempt (makeMessage cc (encode_credentials u (zslice u' 0 255))) ;; ret (AwaitMakeCredentials message))
      (late_next v) (unsent v)).
    { intros u. apply at_attempt; [reflexivity|intros u' _]. apply at_attempt; [reflexivity|intros [m cc'] _]. apply at_ret. now apply Hl. }
    destruct (t =? 1); [|intros w Hw; exact (Hrest [] w Hw)]. intros w Hw. rewrite bind_assoc. revert w Hw.
    apply at_attempt; [reflexivity|intros u _]. intros w Hw. exact (Hrest _ w Hw).
  - unfold after_make_credentials. apply at_push. apply at_quiet; [apply quiet_flush|intros []]. apply at_ret. now right.
  - apply at_ret. now apply Hl.
Qed.

(** The happenings that are the same but for the credentials the page gives. *)
Definition same_happening (h1 h2 : happening) : Prop :=
  h1 = h2 \/ exists c1 c2, h1 = HLogin c1 /\ h2 = HLogin c2.

(** Where a world is late or over, the method has started. *)
Definition settled_world (w : W) : Prop := started w = true /\ (late (at_await (dec w)) \/ over (at_await (dec w))).

Lemma settled_step h w : settled_world w ->
  match happen h w with
  | (Ret _, w') => settled_world w' /\ (late (at_await (dec w')) -> late (at_await (dec w)) /\ sent_by w' = sent_by w)
  | (Throw _, _) => True
  | (Stuck, _) => True
  end.
Proof.
  intros [Hst Hl]. destruct h; cbn [happen].
  - now destruct w.
  - assert (Hq := quiet_check w). unfold _negotiateRA2neAuth, bind at 1.
    destruct (checkInternalEvents w) as [[[]|er|] w1]; [|exact I..]. destruct Hq as [Est Ev]. rewrite dec_get.
    change (_hasStarted (dec w1)) with (started w1). rewrite Est, Hst. cbn.
    assert (Ea : at_await (dec w1) = at_await (dec w)) by exact (f_equal v_at Ev). assert (Eo : sent_by w1 = sent_by w) by exact (f_equal v_sent Ev).
    unfold settled_world. rewrite Ea, Est. auto.
  - destruct w as [r s p]. unfold approveServer, onDec, lift, modify. cbn [dec sock disp]. unfold settled_world, started, sent_by in *. cbn [dec sock] in *.
    destruct (_approveServerResolve r); auto.
  - destruct w as [r s p]. unfold disconnect, onDec, lift, modify, settled_world, started, sent_by in *. cbn [dec sock disp] in *.
    repeat case_if; auto.
  - now destruct w.
  - unfold resume. rewrite dec_get. unfold settling. destruct Hl as [Hl|Ho].
    + assert (Hg := late_stage sup (view_of w) Hl w eq_refl). change (v_at (view_of w)) with (at_await (dec w)) in Hg.
      destruct (go_on sup (at_await (dec w)) w) as [[p|er|] [r s g]]; [| |exact I].
      * destruct Hg as [Est Hg]. unfold settled_world, started, sent_by in *. cbn in *. split; [split; [congruence|]|].
        -- destruct Hg as [[Hp _]|Hp]; auto.
        -- intros Hp. split; [exact Hl|]. destruct Hg as [[_ Hg]|Hg]; [exact Hg|]. now destruct Hp.
      * destruct Hg as [Est Hg]. unfold settled_world, started, sent_by in *. cbn in *. split; [split; [congruence|left; now split]|]. auto.
    + rewrite Ho. cbn [go_on]. destruct w as [r s g]. unfold settled_world, started, sent_by in *. cbn in *. split; [split; [exact Hst|now right]|]. intros [_ Hp]. now destruct Hp.
Qed.

(** Two worlds that cannot be told apart but by their credentials. *)
Inductive alike : W -> W -> Prop :=
| alike_early r s p1 p2 : early (at_await r) = true -> _checkCredentials r = None ->
    (_hasStarted r = false -> at_await r = Idle) -> alike (World r s p1) (World r s p2)
| alike_settled w1 w2 : settled_world w1 -> settled_world w2 ->
    (late (at_await (dec w1)) -> late (at_await (dec w2)) -> sent_by w1 = sent_by w2) -> alike w1 w2.

(** An early piece does not end the exchange well. *)
Definition unfinished (m : M W pc) : Prop := forall w p w', m w = (Ret p, w') -> p <> Finished None.

Lemma unfinished_ret p : p <> Finished None -> unfinished (ret p).
Proof. intros Hp w q w' [= <- <-]. exact Hp. Qed.
Lemma unfinished_throw e : unfinished (throw e).
Proof. intros w q w' [=]. Qed.
Lemma unfinished_bind {A} (m : M W A) k : (forall a, unfinished (k a)) -> unfinished (bind m k).
Proof. intros Hk w q w'. unfold bind. destruct (m w) as [[a|e|] w1]; [|discriminate..]. apply Hk. Qed.

Ltac unfinished := repeat match goal with
  | |- unfinished (ret _) => apply unfinished_ret; discriminate
  | |- unfinished (throw _) => apply unfinished_throw
  | |- unfinished (bind _ _) => apply unfinished_bind; intros
  | |- unfinished (match ?x with _ => _ end) => destruct x
  end.

Lemma early_unfinished sup p : early p = true -> unfinished (go_on sup p).
Proof.
  intros He. destruct p; cbn [early] in He; try discriminate He; clear He; cbn [go_on]; unfold await;
    unfold after_length, after_key, after_import, after_generate, after_encrypt, after_random, after_decrypt, after_make_hash,
    after_hash, after_open_hash, after_subtype; unfinished.
Qed.

Lemma early_resume sup r s p1 p2 : early (at_await r) = true -> _checkCredentials r = None -> (_hasStarted r = false -> at_await r = Idle) ->
  match resume sup (World r s p1), resume sup (World r s p2) with (Ret _, w1), (Ret _, w2) => alike w1 w2 | _, _ => True end.
Proof.
  intros He Hc Hi. unfold resume. rewrite !dec_get. cbn [dec]. unfold settling.
  assert (Hb := early_blind sup _ He r s p1 p2). assert (Hu := early_unfinished sup _ He (World r s p1)).
  assert (Hidle : _hasStarted r = false -> go_on sup (at_await r) = ret Idle) by (intros Hf; now rewrite (Hi Hf)).
  destruct (_hasStarted r) eqn:Es; [clear Hidle|rewrite Hidle by reflexivity; cbn; constructor; auto].
  destruct (go_on sup (at_await r) (World r s p1)) as [o1 [r1 s1 q1]], (go_on sup (at_await r) (World r s p2)) as [o2 [r2 s2 q2]].
  unfold started in Hb. cbn [dec sock] in Hb. destruct Hb as (-> & <- & <- & Ec & Es1). destruct o2 as [p|er|]; [| |exact I]; cbn.
  - specialize (Hu p _ eq_refl). destruct (early p) eqn:Ep.
    + constructor; cbn; congruence.
    + apply alike_settled; unfold settled_world, started, late, sent_by; cbn; auto.
  - apply alike_settled; unfold settled_world, started, late, sent_by; cbn; auto; (split; [congruence|left; now split]).
Qed.

Lemma blind_checkSock : Blind checkSock.
Proof. unfold checkSock. blind. Qed.

Lemma early_check r s p : _checkCredentials r = None -> checkInternalEvents (World r s p) = checkSock (World r s p).
Proof.
  intros Hc. assert (Hb := blind_checkSock r s p p). unfold checkInternalEvents, bind.
  destruct (checkSock (World r s p)) as [[[]|e|] w]; [|reflexivity..]. destruct Hb as (_ & _ & _ & Ec & _).
  unfold checkCredentials. rewrite dec_get, Ec, Hc. reflexivity.
Qed.

Lemma blind_start : Blind (settling (_waitSockAsync 4 ;; ret AwaitLength)).
Proof.
  assert (Hw : Blind (_waitSockAsync 4 ;; ret AwaitLength)) by blind. intros r s p1 p2. specialize (Hw r s p1 p2). unfold settling.
  destruct ((_waitSockAsync 4 ;; ret AwaitLength) (World r s p1)) as [o1 [r1 s1 x1]], ((_waitSockAsync 4 ;; ret AwaitLength) (World r s p2)) as [o2 [r2 s2 x2]].
  unfold started in *. cbn [dec sock] in Hw. destruct Hw as (-> & <- & <- & Ec & Es). destruct o2 as [p|e|]; cbn; auto.
Qed.

Lemma start_awaits w w' : settling (_waitSockAsync 4 ;; ret AwaitLength) w = (Ret tt, w') -> at_await (dec w') = AwaitLength.
Proof.
  unfold settling, bind at 1. assert (Hq := quiet_waitSock 4 w). destruct (_waitSockAsync 4 w) as [[[]|e|] [r s p]]; [|easy|discriminate].
  cbn. now intros [= <-].
Qed.

Lemma early_message r s p1 p2 : early (at_await r) = true -> _checkCredentials r = None -> (_hasStarted r = false -> at_await r = Idle) ->
  match _negotiateRA2neAuth (World r s p1), _negotiateRA2neAuth (World r s p2) with (Ret _, w1), (Ret _, w2) => alike w1 w2 | _, _ => True end.
Proof.
  intros He Hc Hi. assert (Hb := blind_checkSock r s p1 p2). assert (Hq := quiet_check (World r s p1)).
  unfold _negotiateRA2neAuth, bind. rewrite !early_check in * by exact Hc.
  destruct (checkSock (World r s p1)) as [o1 [r1 s1 q1]], (checkSock (World r s p2)) as [o2 [r2 s2 q2]].
  unfold started in Hb. cbn [dec sock] in Hb. destruct Hb as (-> & <- & <- & Ec & Es). destruct o2 as [[]|e|]; [|exact I..].
  destruct Hq as [_ Hq]. apply (f_equal v_at) in Hq. cbn [view_of v_at dec] in Hq.
  change (onDec get (World r1 s1 q1)) with (Ret r1 : outcome ra2, World r1 s1 q1). change (onDec get (World r1 s1 q2)) with (Ret r1 : outcome ra2, World r1 s1 q2). cbv iota beta.
  destruct (_hasStarted r1) eqn:Es1; cbn [negb].
  - constructor; congruence.
  - unfold negotiateRA2neAuthAsync, bind at 1 3. 
    change (onDec (modify (set_hasStarted true)) (World r1 s1 q1)) with (Ret tt : outcome unit, World (set_hasStarted true r1) s1 q1).
    change (onDec (modify (set_hasStarted true)) (World r1 s1 q2)) with (Ret tt : outcome unit, World (set_hasStarted true r1) s1 q2). cbv iota beta.
    assert (Hb := blind_start (set_hasStarted true r1) s1 q1 q2). assert (Ha := start_awaits (World (set_hasStarted true r1) s1 q1)).
    destruct (settling _ (World (set_hasStarted true r1) s1 q1)) as [o1 [r3 s3 q3]], (settling _ (World (set_hasStarted true r1) s1 q2)) as [o2 [r4 s4 q4]].
    unfold started in Hb. cbn [dec sock] in Hb. destruct Hb as (-> & <- & <- & Ec3 & Es3). destruct o2 as [[]|er|]; [|exact I..].
    specialize (Ha _ eq_refl). cbn [dec] in Ha. cbn in Ec3, Es3. constructor; [now rewrite Ha|congruence|congruence].
Qed.

Lemma alike_step h1 h2 w1 w2 : same_happening h1 h2 -> alike w1 w2 ->
  match happen h1 w1, happen h2 w2 with (Ret _, w1'), (Ret _, w2') => alike w1' w2' | _, _ => True end.
Proof.
  intros Hh [r s p1 p2 He Hc Hi|v1 v2 H1 H2 Hs].
  - destruct Hh as [->|(c1 & c2 & -> & ->)]; [|now constructor]. destruct h2; cbn [happen].
    + now constructor.
    + now apply early_message.
    + unfold approveServer. cbn. destruct (_approveServerResolve r); constructor; auto.
    + unfold disconnect. cbn. constructor; repeat case_if; auto.
    + now constructor.
    + now apply early_resume.
  - assert (S1 := settled_step h1 v1 H1). assert (S2 := settled_step h2 v2 H2).
    destruct (happen h1 v1) as [[[]|e|] u1]; [|exact I..]. destruct (happen h2 v2) as [[[]|e|] u2]; [|exact I..].
    destruct S1 as [T1 S1], S2 as [T2 S2]. apply alike_settled; auto. intros L1 L2.
    destruct (S1 L1) as [L1' ->], (S2 L2) as [L2' ->]. auto.
Qed.

Lemma alike_runs hs1 hs2 : Forall2 same_happening hs1 hs2 -> forall w1 w2 w1' w2', alike w1 w2 ->
  runs hs1 w1 = Some w1' -> runs hs2 w2 = Some w2' -> alike w1' w2'.
Proof.
  induction 1 as [|h1 h2 hs1 hs2 Hh _ IH]; intros w1 w2 w1' w2' Ha; cbn [runs].
  - now intros [= <-] [= <-].
  - assert (Hs := alike_step h1 h2 w1 w2 Hh Ha). destruct (happen h1 w1) as [[[]|e|] v1]; [|discriminate..].
    destruct (happen h2 w2) as [[[]|e|] v2]; [|discriminate..]. now apply IH.
Qed.

End Guard.
