(* ===== verification/Ra2Run.v ===== *)
(** A whole RSA-AES exchange: with a server that follows the protocol the
    method of core/ra2.js ends well, having sent what the protocol asks for. *)

From Stdlib Require Import ZArith List Lia Bool String.
From S2P Require Import Prelude Source Sink Websock Base64 Bigint Utf8 Aes AesCorrect Rsa Display Decoder Messages Lifecycle Rfb Asock Ra2 Ra2Correct.
Import ListNotations JS JSFacts Bigint.Bigint Rfb.Rfb Ra2.Ra2.
Open Scope Z_scope.
Open Scope code_scope.

(** SHA-1 gives 20 bytes. *)
Class DigestOk `{Digest} := { sha1_length l : zlen (sha1 l) = 20; sha1_bytes l : bytes (sha1 l) }.

(** * The messages are the protocol's *)

Lemma zrep_cons n (x : Z) : 0 <= n -> zrep (1 + n) x = x :: zrep n x.
Proof. intros Hn. now rewrite zrep_add by lia. Qed.

Lemma public_key_is cN cE : zlen cN = 256 -> zlen cE = 256 -> public_key cN cE = be_bytes 4 2048 ++ cN ++ cE.
Proof.
  intros Hn He. unfold public_key, assemble, clientKeyBytes. cbn [fold_left].
  change (4 + (clientKeyLength + 7) / 8 * 2) with (4 + (256 + (256 + 0))). rewrite (zrep_add 4) by lia. rewrite (zrep_add 256) by lia.
  set (z1 := zrep 256 0). set (z2 := zrep (256 + 0) 0).
  rewrite !zset_front by (split; vm_compute; congruence). set (h := zset _ 3 _). change h with (be_bytes 4 2048). clear h.
  rewrite (zblit_app (be_bytes 4 2048) z1 z2 cN 4) by (rewrite ?Hn; reflexivity).
  replace (be_bytes 4 2048 ++ cN ++ z2) with ((be_bytes 4 2048 ++ cN) ++ z2 ++ []) by (rewrite app_nil_r; now rewrite app_assoc).
  rewrite (zblit_app (be_bytes 4 2048 ++ cN) z2 [] cE).
  - now rewrite app_nil_r, <- app_assoc.
  - rewrite zlen_app, Hn. reflexivity.
  - now rewrite He.
Qed.

Lemma random_message_is kb e : 0 <= kb < 65536 -> zlen e = kb -> random_message kb e = be_bytes 2 kb ++ e.
Proof.
  intros Hk He. unfold random_message. rewrite zrep_add by lia. set (z := zrep kb 0).
  assert (Hf : length_field kb = be_bytes 2 kb) by (now apply length_field_is).
  rewrite !zset_front by (rewrite ?zlen_zset, zlen_zrep; lia).
  replace (zset (zset (zrep 2 0) 0 ((kb & 65280) >>> 8)%js) 1 (kb & 255)%js) with (be_bytes 2 kb) by (symmetry; exact Hf).
  replace z with (z ++ []) by apply app_nil_r. rewrite (zblit_app (be_bytes 2 kb) z [] e 2); [now rewrite app_nil_r|reflexivity|].
  unfold z. rewrite zlen_zrep. lia.
Qed.

Lemma encode_credentials_is u p : zlen u < 256 -> zlen p < 256 -> encode_credentials u p = [zlen u] ++ u ++ [zlen p] ++ p.
Proof.
  intros Hu Hp. assert (Hu0 := zlen_nonneg u). assert (Hp0 := zlen_nonneg p). unfold encode_credentials.
  rewrite !toUint8_small by (unfold is_byte; lia). replace (zlen u + zlen p + 2) with (1 + (zlen u + (1 + zlen p))) by lia.
  rewrite zrep_cons, zrep_add, zrep_cons by lia. set (z1 := zrep (zlen u) 0). set (z2 := zrep (zlen p) 0).
  assert (H1 : zlen z1 = zlen u) by (unfold z1; rewrite zlen_zrep; lia). assert (H2 : zlen z2 = zlen p) by (unfold z2; rewrite zlen_zrep; lia).
  rewrite (zset_mid [] (z1 ++ 0 :: z2) 0 _ 0) by reflexivity. rewrite app_nil_l.
  change (zlen u :: z1 ++ 0 :: z2) with (([zlen u] ++ z1) ++ 0 :: z2).
  rewrite (zset_mid ([zlen u] ++ z1)) by (rewrite zlen_app, H1; change (zlen [zlen u]) with 1; lia).
  rewrite <- app_assoc. rewrite (zblit_app [zlen u] z1) by (auto; reflexivity).
  replace ([zlen u] ++ u ++ zlen p :: z2) with (([zlen u] ++ u ++ [zlen p]) ++ z2 ++ []) by (rewrite app_nil_r; now rewrite <- !app_assoc).
  rewrite (zblit_app ([zlen u] ++ u ++ [zlen p])); [now rewrite app_nil_r, <- !app_assoc| |auto].
  rewrite !zlen_app. change (zlen [zlen u]) with 1. change (zlen [zlen p]) with 1. lia.
Qed.

(** * Piece by piece *)

Section Steps.
Context `{WebCrypto} `{Digest}.
Abbreviation W := (world ra2 asock page).
Context (cl : bool) (h : Websock.event -> bool).
Abbreviation on p l o k := (ASock (ASrc p l) (ASink o 0 k) cl h).

Implicit Types (p l o x : list Z) (k : Z) (g : page) (r : ra2).

(** The object after a wait for [n] bytes when [l] are there. *)
Definition awaiting n l r : ra2 :=
  if n <=? zlen l then set_sock (_checkSock r) (_sockReject r) Resolved r else set_sock (Some n) true Pending r.

Lemma run_await {B} n (j : unit -> M W B) r p l so g :
  bind (_waitSockAsync n) j (World r (ASock (ASrc p l) so cl h) g) =
  j tt (World (awaiting n l r) (ASock (ASrc p l) so cl h) g).
Proof.
  unfold _waitSockAsync, awaiting. rewrite bind_assoc_run. destruct (Z.leb_spec n (zlen l)).
  - now rewrite srun_wait.
  - now rewrite srun_short.
Qed.

Lemma await_now pr here next (w : W) : pr (dec w) = Resolved -> await pr here next w = next w.
Proof. intros E. unfold await. rewrite dec_get. now rewrite E. Qed.

Lemma await_later pr here next (w : W) : pr (dec w) = Pending -> await pr here next w = (Ret here, w).
Proof. intros E. unfold await. rewrite dec_get. now rewrite E. Qed.

Lemma resumed sup w q w' : go_on sup (at_await (dec w)) w = (Ret q, w') ->
  happen (HResume sup) w = (Ret tt, World (set_at q (dec w')) (sock w') (disp w')).
Proof. intros E. cbn [happen]. unfold resume. destruct w as [r s g]. rewrite dec_get. cbn [dec] in E |- *. unfold settling. rewrite E. now destruct w'. Qed.

Lemma run_shiftBytes {B} x (j : list Z -> M W B) r p l so g :
  bind (onSock (rQshiftBytes (zlen x))) j (World r (ASock (ASrc p (x ++ l)) so cl h) g) = j x (World r (ASock (ASrc (p ++ x) l) so cl h) g).
Proof. exact (srun_take (zlen x) same same j r p x l so cl h g eq_refl). Qed.

Lemma run_shift_n {B} n x (j : list Z -> M W B) r p l so g : zlen x = n ->
  bind (onSock (rQshiftBytes n)) j (World r (ASock (ASrc p (x ++ l)) so cl h) g) = j x (World r (ASock (ASrc (p ++ x) l) so cl h) g).
Proof. intros <-. apply run_shiftBytes. Qed.

Lemma run_send {B} x (j : unit -> M W B) r i o k g : zlen x <= k ->
  bind (onSock (sQpushBytes x)) (fun _ => bind (onSock flush) j) (World r (ASock i (ASink o 0 k) cl h) g) =
  j tt (World r (ASock i (ASink (o ++ x) 0 k) cl h) g).
Proof.
  intros Hx. scbn. rewrite (srun_emits _ x) by (try apply Messages.emits_bytes; lia). reflexivity.
Qed.

Lemma run_peekBytes {B} x (j : list Z -> M W B) r p l so g :
  bind (onSock (rQpeekBytes (zlen x))) j (World r (ASock (ASrc p (x ++ l)) so cl h) g) = j x (World r (ASock (ASrc p (x ++ l)) so cl h) g).
Proof.
  assert (Hx := zlen_nonneg x). assert (Hl := zlen_nonneg l). unfold bind, onSock, lift. cbn [rQpeekBytes asock_source sock dec disp].
  unfold aIn, lift. cbn [a_in a_out a_closed a_handlers rQpeekBytes asrc_source rest]. rewrite zlen_app.
  destruct (Z.leb_spec 0 (zlen x)), (Z.leb_spec (zlen x) (zlen x + zlen l)); try lia. cbn [andb]. now rewrite ztake_app_exact.
Qed.

Lemma run_shift {B} n x (j : Z -> M W B) r p l so g (m : M asock Z) : m = aIn (atake n same be) -> zlen x = n ->
  bind (onSock m) j (World r (ASock (ASrc p (x ++ l)) so cl h) g) = j (be x) (World r (ASock (ASrc (p ++ x) l) so cl h) g).
Proof. intros -> Hx. now rewrite srun_take. Qed.

Lemma run_ask {B} (j : unit -> M W B) r s g :
  bind _waitApproveKeyAsync j (World r s g) = j tt (World (set_approve true true Pending r) s g).
Proof. reflexivity. Qed.

Lemma run_tell {B} e (j : unit -> M W B) r (s : asock) g :
  bind (dispatch e) j (World r s g) = j tt (World r s (mkPage (getCredentials g) (events g ++ [e]))).
Proof. reflexivity. Qed.

(** ** The server's key: imported, shown, approved *)

Lemma go_length L x r p o k g : 1024 <= L <= 8192 ->
  after_length (World r (on p (be_bytes 4 L ++ x) o k) g) =
  (Ret (AwaitKey (be_bytes 4 L) ((L + 7) / 8)), World (awaiting ((L + 7) / 8 * 2) x r) (on (p ++ be_bytes 4 L) x o k) g).
Proof.
  intros HL. unfold after_length. change 4 with (zlen (be_bytes 4 L)) at 1. rewrite run_peekBytes.
  rewrite (run_shift 4 (be_bytes 4 L)) by reflexivity. rewrite be_bytes_small by (change (256 ^ Z.of_nat 4) with 4294967296; lia).
  destruct (Z.ltb_spec L 1024); [lia|]. destruct (Z.ltb_spec 8192 L); [lia|]. cbv zeta. now rewrite run_await.
Qed.

Lemma go_key b n e x r p o k g : zlen e = zlen n ->
  after_key b (zlen n) (World r (on p ((n ++ e) ++ x) o k) g) = (Ret (AwaitImport b n e (zlen n)), World r (on (p ++ n ++ e) x o k) g).
Proof.
  intros He. unfold after_key. rewrite <- (app_assoc n). rewrite run_shiftBytes. rewrite run_shift_n by exact He. now rewrite <- app_assoc.
Qed.

Definition imported (n e : list Z) : Rsa.rsa :=
  Rsa.mkRsa (zlen n * 8) (zlen n) (Some n) (Some e) None (Some (be n)) (Some (be e)) None false.
Definition server_of (L : Z) (n e : list Z) : server := mkServer (zlen n) (be_bytes 4 L ++ n ++ e) (imported n e).

Lemma go_import L n e r (s : asock) creds ev : bytes n -> bytes e -> n <> [] -> zlen e = zlen n ->
  after_import (be_bytes 4 L) n e (zlen n) (World r s (mkPage creds ev)) =
  (Ret (AwaitApproval (server_of L n e)), World (set_approve true true Pending r) s (mkPage creds (ev ++ [ServerVerification (be_bytes 4 L ++ n ++ e)]))).
Proof.
  intros Hn He Hne Hl. assert (Hi : Rsa._importKey n e false = Ret (imported n e)).
  { unfold Rsa._importKey. rewrite Hl, Z.eqb_refl. cbn [negb]. assert (He0 : e <> []) by (intros ->; now destruct n).
    rewrite !u8ArrayToBigInt_spec by assumption. reflexivity. }
  assert (Ha : assemble (4 + zlen n * 2) [(0, be_bytes 4 L); (4, n); (4 + zlen n, e)] = be_bytes 4 L ++ n ++ e).
  { transitivity (List.concat [be_bytes 4 L; n; e]); [|cbn [List.concat]; now rewrite app_nil_r].
    apply (assembled (4 + zlen n * 2) [be_bytes 4 L; n; e]). cbn [List.concat]. rewrite !zlen_app, zlen_be_bytes.
    change (zlen (@nil Z)) with 0. lia. }
  unfold after_import. unfold bind at 1, attempt. rewrite Hi, Ha. cbv iota beta. now rewrite run_ask, run_tell.
Qed.

(** ** The client's key and its random number *)

Lemma go_generate sup s key n e c r i o k g :
  Rsa._generateKey clientKeyLength true (s_key sup) = Ret key -> Rsa._n key = Some n -> Rsa._e key = Some e ->
  zlen n = 256 -> zlen e = 256 -> Rsa.encrypt (serverRSACipher s) (s_padding sup) (s_random sup) = Ret (Some c) -> 516 <= k ->
  after_generate s sup (World r (ASock i (ASink o 0 k) cl h) g) =
  (Ret (AwaitEncrypt s (mkClient (be_bytes 4 2048 ++ n ++ e) key (s_random sup)) c),
   World r (ASock i (ASink (o ++ be_bytes 4 2048 ++ n ++ e) 0 k) cl h) g).
Proof.
  intros Hg En Ee Ln Le Hc Hk. assert (Hx : Rsa._extractable key = true).
  { unfold Rsa._generateKey in Hg. repeat match type of Hg with obind ?x _ = _ => destruct x; try discriminate; cbn [obind] in Hg end.
    now injection Hg as <-. }
  assert (Hp := public_key_is n e Ln Le). assert (Lp : zlen (be_bytes 4 2048 ++ n ++ e) = 516) by (rewrite !zlen_app, zlen_be_bytes; lia).
  unfold after_generate. unfold bind at 1, attempt at 1. rewrite Hg. cbv iota beta.
  unfold bind at 1, attempt at 1, Rsa.exportKey. rewrite Hx, En, Ee. cbv iota beta.
  unfold bind at 1, attempt at 1. cbn [not_null obind]. unfold bind at 1, attempt at 1. cbn [not_null obind].
  rewrite Hp, run_send by lia. unfold bind at 1, attempt at 1. rewrite Hc. reflexivity.
Qed.

Lemma go_encrypt s c e r p l o k g : zlen e = serverKeyBytes s -> serverKeyBytes s <= 1024 -> 1026 <= k ->
  after_encrypt s c e (World r (on p l o k) g) =
  (Ret (AwaitRandom s c), World (awaiting 2 l r) (on p l (o ++ be_bytes 2 (serverKeyBytes s) ++ e) k) g).
Proof.
  intros Le Hs Hk. assert (He := zlen_nonneg e). unfold after_encrypt. rewrite random_message_is by lia.
  rewrite run_send by (rewrite zlen_app, zlen_be_bytes; lia). now rewrite run_await.
Qed.

(** ** The server's random number, from which come the keys and the hashes *)

Lemma go_random s c e x r p o k g : zlen e = 256 ->
  after_random s c (World r (on p ((be_bytes 2 256 ++ e) ++ x) o k) g) = (Ret (AwaitDecrypt s c e), World r (on (p ++ be_bytes 2 256 ++ e) x o k) g).
Proof.
  intros Le. unfold after_random. rewrite <- (app_assoc (be_bytes 2 256)). rewrite (run_shift 2 (be_bytes 2 256)) by reflexivity.
  change (negb (be (be_bytes 2 256) =? clientKeyBytes)) with false. cbv iota. rewrite run_shift_n by exact Le. now rewrite <- app_assoc.
Qed.

(** Only the length of the server's random number is waited for: when the rest
    of the message has not arrived, the method reads bytes it has not waited
    for. *)
Lemma random_not_awaited s c e r p o k g : zlen e < 256 ->
  fst (after_random s c (World r (on p (be_bytes 2 256 ++ e) o k) g)) = Stuck.
Proof.
  intros Le. unfold after_random. rewrite (run_shift 2 (be_bytes 2 256)) by reflexivity.
  change (negb (be (be_bytes 2 256) =? clientKeyBytes)) with false. cbv iota. change clientKeyBytes with 256.
  unfold bind at 1, onSock, lift at 1. cbn [rQshiftBytes asock_source sock dec disp]. unfold aIn, lift.
  cbn [a_in a_out a_closed a_handlers rQshiftBytes asrc_source]. unfold atake. cbn [rest].
  destruct (Z.leb_spec 256 (zlen e)); [lia|]. reflexivity.
Qed.

Lemma go_decrypt s c e R m cc (w : W) : Rsa.decrypt (clientRSACipher c) e = Ret (Some R) -> zlen R = 16 -> hashed s c R m cc ->
  after_decrypt s c e w = (Ret (AwaitMakeHash m (server_hash s c) cc (server_cipher c R)), w).
Proof.
  intros Hd LR Hm. unfold hashed in Hm. unfold after_decrypt. unfold bind at 1, attempt at 1. rewrite Hd. cbv iota beta.
  rewrite LR. change (16 =? 16) with true. cbv iota. fold (client_cipher c R). fold (server_cipher c R). cbv zeta.
  fold (hash_length s). fold (server_hash s c). fold (client_hash s c). unfold bind at 1, attempt at 1. now rewrite Hm.
Qed.

Lemma go_make_hash m hash cc sc r p l o k g : zlen m <= k ->
  after_make_hash m hash cc sc (World r (on p l o k) g) = (Ret (AwaitHash hash cc sc), World (awaiting 38 l r) (on p l (o ++ m) k) g).
Proof. intros Lm. unfold after_make_hash. rewrite run_send by exact Lm. now rewrite run_await. Qed.

(** ** The server's hash *)

Lemma go_hash hash cc sc e x r p o k g : zlen e = 36 ->
  after_hash hash cc sc (World r (on p ((be_bytes 2 20 ++ e) ++ x) o k) g) = (Ret (AwaitOpenHash hash cc sc e), World r (on (p ++ be_bytes 2 20 ++ e) x o k) g).
Proof.
  intros Le. unfold after_hash. rewrite <- (app_assoc (be_bytes 2 20)). rewrite (run_shift 2 (be_bytes 2 20)) by reflexivity.
  change (negb (be (be_bytes 2 20) =? 20)) with false. cbv iota. rewrite run_shift_n by exact Le. now rewrite <- app_assoc.
Qed.

Lemma go_open_hash hash cc sc sc' e r p l o k g : receiveMessage sc 20 e = (Some hash, sc') ->
  after_open_hash hash cc sc e (World r (on p l o k) g) = (Ret (AwaitSubtype cc sc'), World (awaiting 19 l r) (on p l o k) g).
Proof.
  intros Hr. unfold after_open_hash. rewrite Hr. replace (forallb _ (upto 20)) with true; [now rewrite run_await|].
  symmetry. apply forallb_forall. intros i _. destruct (zget hash i); [apply Z.eqb_refl|reflexivity].
Qed.

(** ** The subtype, and credentials that the page has given before *)

Definition known (creds : credentials) (t : Z) (u p : list Z) : Prop :=
  (t = 1 /\ exists U P u' p', username creds = Some U /\ password creds = Some P /\
     Utf8.encodeUTF8 U = Ret u' /\ Utf8.encodeUTF8 P = Ret p' /\ u = zslice u' 0 255 /\ p = zslice p' 0 255) \/
  (t = 2 /\ exists P p', password creds = Some P /\ Utf8.encodeUTF8 P = Ret p' /\ u = [] /\ p = zslice p' 0 255).

Lemma known_has creds t u p : known creds t u p -> hasCredentials t creds = true /\ 0 <= t < 256.
Proof.
  unfold hasCredentials. intros [[-> (U & P & u' & p' & -> & -> & _)]|[-> (P & p' & -> & _)]]; cbn; split; try reflexivity; lia.
Qed.

Lemma go_subtype cc sc e x r p o k g : zlen e = 17 ->
  after_subtype cc sc (World r (on p ((be_bytes 2 1 ++ e) ++ x) o k) g) = (Ret (AwaitOpenSubtype cc sc e), World r (on (p ++ be_bytes 2 1 ++ e) x o k) g).
Proof.
  intros Le. unfold after_subtype. rewrite <- (app_assoc (be_bytes 2 1)). rewrite (run_shift 2 (be_bytes 2 1)) by reflexivity.
  change (negb (be (be_bytes 2 1) =? 1)) with false. cbv iota. rewrite run_shift_n by exact Le. now rewrite <- app_assoc.
Qed.

Lemma go_open_subtype t cc sc sc' e r (s : asock) creds ev u pw : receiveMessage sc 1 e = (Some [t], sc') -> known creds t u pw ->
  after_open_subtype cc sc e (World r s (mkPage creds ev)) =
  (Ret (AwaitCredentials cc t), World (set_creds (_checkCredentials r) (_credentialsReject r) Resolved r) s (mkPage creds ev)).
Proof.
  intros Hr Hk. destruct (known_has _ _ _ _ Hk) as [Hc _]. unfold after_open_subtype. rewrite Hr. cbn [fst].
  change (zget [t] 0) with (Some t). cbv iota beta zeta. unfold _waitCredentialsAsync. rewrite bind_assoc_run.
  unfold bind at 1. change (onDisp get ?w) with (Ret (disp w), w). cbv iota beta. cbn [disp getCredentials]. rewrite Hc.
  destruct Hk as [[-> (U & P & u' & p' & E1 & E2 & _)]|[-> (P & p' & E2 & _)]].
  - unfold bind at 1. cbn. rewrite E1, E2. reflexivity.
  - unfold bind at 1. cbn. rewrite E2. reflexivity.
Qed.

Lemma go_credentials t cc cc' m r (s : asock) creds ev u pw : known creds t u pw -> makeMessage cc (encode_credentials u pw) = Ret (m, cc') ->
  after_credentials cc t (World r s (mkPage creds ev)) = (Ret (AwaitMakeCredentials m), World r s (mkPage creds ev)).
Proof.
  intros Hk Hm. unfold after_credentials. unfold bind at 1. change (onDisp get ?w) with (Ret (disp w), w). cbv iota beta. cbn [disp getCredentials].
  destruct Hk as [[-> (U & P & u' & p' & -> & -> & E1 & E2 & -> & ->)]|[-> (P & p' & -> & E2 & -> & ->)]]; cbn [Z.eqb Pos.eqb units].
  - unfold bind, attempt, ret. rewrite E1, E2, Hm. reflexivity.
  - unfold bind, attempt, ret. rewrite E2, Hm. reflexivity.
Qed.

Lemma go_make_credentials m r p l o k g : zlen m <= k ->
  after_make_credentials m (World r (on p l o k) g) = (Ret (Finished None), World r (on p l (o ++ m) k) g).
Proof. intros Lm. unfold after_make_credentials. rewrite run_send by exact Lm. reflexivity. Qed.
End Steps.

(** * The whole exchange *)

Section Exchange.
Context `{WebCryptoOk} `{DigestOk}.

(** A session key: the first half of the hash of both random numbers. *)
Definition derive (first second : list Z) : list Z := ztake 16 (sha1 (first ++ second)).

Lemma session_key_is a b : zlen a = 16 -> zlen b = 16 -> session_key a b = derive a b.
Proof.
  intros Ha Hb. unfold session_key, derive, zslice. rewrite zdrop_nonpos by lia. do 2 f_equal.
  transitivity (List.concat [a; b]); [|cbn [List.concat]; now rewrite app_nil_r].
  rewrite <- Ha at 1. apply (assembled 32 [a; b]). cbn [List.concat]. rewrite !zlen_app. change (zlen (@nil Z)) with 0. lia.
Qed.

Lemma hash_of_is n a off b : n = zlen a + zlen b -> off = zlen a -> hash_of n a off b = sha1 (a ++ b).
Proof.
  intros Hn ->. unfold hash_of. f_equal. transitivity (List.concat [a; b]); [|cbn [List.concat]; now rewrite app_nil_r].
  apply (assembled n [a; b]). cbn [List.concat]. rewrite !zlen_app. change (zlen (@nil Z)) with 0. lia.
Qed.

(** A sealed message: its length in front, 16 bytes of a tag behind. *)
Lemma sealed_frame key c m f c' : ready key c -> bytes m -> zlen m < 65536 -> makeMessage c m = Ret (f, c') ->
  exists e, f = be_bytes 2 (zlen m) ++ e /\ zlen e = zlen m + 16 /\ c' = next_cipher c /\ receiveMessage c (zlen m) e = (Some m, c').
Proof.
  intros Hc Hm Hl E. rewrite (makeMessage_is key c m Hc Hm Hl) in E. injection E as <- <-.
  eexists. split; [reflexivity|]. split; [exact (proj1 (eax_shape key (be_bytes 2 (zlen m)) (_counter c) m (be_bytes_bytes _ _) (proj1 (proj2 Hc)) Hm))|]. split; [reflexivity|].
  now apply receiveMessage_is.
Qed.

Lemma sealed_exists key c m : ready key c -> bytes m -> zlen m < 65536 ->
  exists f, makeMessage c m = Ret (f, next_cipher c) /\ zlen f = zlen m + 18.
Proof.
  intros Hc Hm Hl. rewrite (makeMessage_is key c m Hc Hm Hl). eexists. split; [reflexivity|].
  rewrite zlen_app, zlen_be_bytes. destruct (eax_shape key (be_bytes 2 (zlen m)) (_counter c) m (be_bytes_bytes _ _) (proj1 (proj2 Hc)) Hm) as [-> _]. lia.
Qed.

Lemma frame_length n e : 0 <= n < 65536 -> be (ztake 2 (be_bytes 2 n ++ e)) = n.
Proof. intros Hn. change (ztake 2 (be_bytes 2 n ++ e)) with (be_bytes 2 n). now apply be_bytes_small. Qed.

Lemma frame_body n e : zdrop 2 (be_bytes 2 n ++ e) = e.
Proof. reflexivity. Qed.

(** Two messages are opened in order. *)
Lemma opened key c m1 m2 f1 f2 c' : ready key c -> bytes m1 -> zlen m1 < 65536 -> bytes m2 -> zlen m2 < 65536 ->
  makeMessage c m1 = Ret (f1, next_cipher c) -> makeMessage (next_cipher c) m2 = Ret (f2, c') ->
  open_all c [f1; f2] = Some ([m1; m2], c').
Proof.
  intros Hc B1 L1 B2 L2 E1 E2. assert (P1 := zlen_nonneg m1). assert (P2 := zlen_nonneg m2).
  destruct (sealed_frame _ _ _ _ _ Hc B1 L1 E1) as (e1 & -> & _ & _ & Hr1).
  destruct (sealed_frame _ _ _ _ _ (next_ready _ _ Hc) B2 L2 E2) as (e2 & -> & _ & _ & Hr2). cbn [open_all].
  rewrite !frame_length, !frame_body by lia. rewrite Hr1, Hr2. reflexivity.
Qed.

(** What the server seals, as the client reads it. *)
Lemma server_frames key c h t f1 f2 c' : ready key c -> bytes h -> zlen h = 20 -> is_byte t ->
  seal_all c [h; [t]] = Ret ([f1; f2], c') ->
  exists e1 e2 c1 c2, f1 = be_bytes 2 20 ++ e1 /\ f2 = be_bytes 2 1 ++ e2 /\
    zlen e1 = 36 /\ receiveMessage c 20 e1 = (Some h, c1) /\ zlen e2 = 17 /\ receiveMessage c1 1 e2 = (Some [t], c2).
Proof.
  intros Hc Bh Lh Ht Hs. assert (Bt : bytes [t]) by (constructor; [exact Ht|constructor]). assert (Hc1 := next_ready _ _ Hc).
  destruct (sealed_exists _ c h Hc Bh ltac:(lia)) as (f3 & E3 & _).
  destruct (sealed_exists _ (next_cipher c) [t] Hc1 Bt ltac:(cbn; lia)) as (f4 & E4 & _).
  cbn [seal_all] in Hs. rewrite E3 in Hs. cbn [obind] in Hs. rewrite E4 in Hs. cbn [obind] in Hs. injection Hs as -> -> _.
  destruct (sealed_frame _ _ _ _ _ Hc Bh ltac:(lia) E3) as (e3 & -> & Le3 & _ & Hr3). rewrite Lh in Le3, Hr3 |- *.
  destruct (sealed_frame _ _ _ _ _ Hc1 Bt ltac:(cbn; lia) E4) as (e4 & -> & Le4 & _ & Hr4). change (zlen [t]) with 1 in Le4, Hr4 |- *.
  exists e3, e4, (next_cipher c), (next_cipher (next_cipher c)). auto 8.
Qed.

(** What the client seals, as the server opens it. *)
Lemma client_frames key c h u p : ready key c -> bytes h -> zlen h = 20 -> bytes u -> bytes p -> zlen u < 256 -> zlen p < 256 ->
  exists f1 c1 f2 c2, makeMessage c h = Ret (f1, c1) /\ zlen f1 = 38 /\
    makeMessage c1 (encode_credentials u p) = Ret (f2, c2) /\ zlen f2 = zlen u + zlen p + 20 /\
    open_all c [f1; f2] = Some ([h; [zlen u] ++ u ++ [zlen p] ++ p], c2).
Proof.
  intros Hc Bh Lh Bu Bp Lu Lp. assert (Hu0 := zlen_nonneg u). assert (Hp0 := zlen_nonneg p). rewrite encode_credentials_is by assumption.
  set (cred := [zlen u] ++ u ++ [zlen p] ++ p).
  assert (Bc : bytes cred) by (unfold cred; rewrite !bytes_app; repeat split; auto; (constructor; [unfold is_byte; lia|constructor])).
  assert (Lc : zlen cred = zlen u + zlen p + 2) by (unfold cred; rewrite !zlen_app; change (zlen [zlen u]) with 1; change (zlen [zlen p]) with 1; lia).
  destruct (sealed_exists _ c h Hc Bh ltac:(lia)) as (f1 & E1 & L1). assert (Hc1 := next_ready _ _ Hc).
  destruct (sealed_exists _ (next_cipher c) cred Hc1 Bc ltac:(lia)) as (f2 & E2 & L2).
  exists f1, (next_cipher c), f2, (next_cipher (next_cipher c)). repeat split; [exact E1|lia|exact E2|lia|].
  apply (opened key c); auto; lia.
Qed.

(** The client's side: the key the browser generates and the random bytes. *)
Definition client_side (sup : supply) (n e : list Z) (d kb : Z) (key : Rsa.rsa) : Prop :=
  Rsa._generateKey 2048 true (s_key sup) = Ret key /\ Rsa._n key = Some n /\ Rsa._e key = Some e /\
  zlen n = 256 /\ zlen e = 256 /\ Rsa.private_part key 256 (be n) d /\ Rsa.exponents 256 (be n) (be e) d /\
  bytes (s_random sup) /\ zlen (s_random sup) = 16 /\ bytes (s_padding sup) /\ zlen (s_padding sup) = kb - 19.

(** The server's side: its key of [L] bits, in [kb] bytes. *)
Definition server_side (L kb : Z) (n e : list Z) (d : Z) (key : Rsa.rsa) : Prop :=
  1024 <= L <= 8192 /\ kb = (L + 7) / 8 /\ bytes n /\ bytes e /\ zlen n = kb /\ zlen e = kb /\
  Rsa.private_part key kb (be n) d /\ Rsa.exponents kb (be n) (be e) d.

(** What can happen in an exchange that is not cut off: bytes arrive, the client
    looks at them, the method goes on, the page approves. *)
Definition supplied (sup : supply) (x : happening) : Prop :=
  match x with HData _ | HMsg | HApprove => True | HResume s => s = sup | _ => False end.

Definition arrived (hs : list happening) : list Z :=
  List.concat (map (fun x => match x with HData l => l | _ => [] end) hs).

Lemma arrived_cut i hs : arrived hs = arrived (firstn i hs) ++ arrived (skipn i hs).
Proof. unfold arrived. now rewrite <- List.concat_app, <- map_app, firstn_skipn. Qed.

(** One more look at the socket, one more approval, one more resumption. *)
Definition round (sup : supply) : list happening := [HMsg; HApprove; HResume sup].
Fixpoint rounds (sup : supply) (n : nat) : list happening :=
  match n with O => [] | S n => round sup ++ rounds sup n end.

(** ** The course of the exchange

    With what each side computes given, the method stands at one of seventeen
    points, at each of which it is known what it has read, sent and shown. *)

Section Course.
Context (L : Z) (sN sE : list Z) (sup : supply) (key : Rsa.rsa) (cN cE enc R hash : list Z) (cc : cipher)
  (e2 e3 e4 : list Z) (sc1 sc2 : cipher) (t : Z) (creds : credentials) (u p message : list Z) (cc' : cipher)
  (k : Z) (cl : bool) (h : Websock.event -> bool).
Abbreviation clientKey := (be_bytes 4 2048 ++ cN ++ cE).
Abbreviation s := (server_of L sN sE).
Abbreviation c := (mkClient clientKey key (s_random sup)).

Record course : Prop := {
  co_L : 1024 <= L <= 8192; co_bN : bytes sN; co_bE : bytes sE; co_lN : zlen sN = (L + 7) / 8; co_lE : zlen sE = (L + 7) / 8;
  co_key : Rsa._generateKey 2048 true (s_key sup) = Ret key; co_n : Rsa._n key = Some cN; co_e : Rsa._e key = Some cE;
  co_cN : zlen cN = 256; co_cE : zlen cE = 256;
  co_enc : Rsa.encrypt (imported sN sE) (s_padding sup) (s_random sup) = Ret (Some enc); co_lenc : zlen enc = zlen sN;
  co_e2 : zlen e2 = 256; co_R : Rsa.decrypt key e2 = Ret (Some R); co_lR : zlen R = 16;
  co_hash : hashed s c R hash cc; co_lhash : zlen hash <= k;
  co_e3 : zlen e3 = 36; co_open3 : receiveMessage (server_cipher c R) 20 e3 = (Some (server_hash s c), sc1);
  co_e4 : zlen e4 = 17; co_open4 : receiveMessage sc1 1 e4 = (Some [t], sc2);
  co_known : known creds t u p; co_make : makeMessage cc (encode_credentials u p) = Ret (message, cc');
  co_lmessage : zlen message <= k; co_k : 1026 <= k
}.
Context (Hc : course).

Definition point (i : nat) : pc :=
  match i with
  | 0 => Idle
  | 1 => AwaitLength
  | 2 => AwaitKey (be_bytes 4 L) (zlen sN)
  | 3 => AwaitImport (be_bytes 4 L) sN sE (zlen sN)
  | 4 => AwaitApproval s
  | 5 => AwaitGenerate s
  | 6 => AwaitEncrypt s c enc
  | 7 => AwaitRandom s c
  | 8 => AwaitDecrypt s c e2
  | 9 => AwaitMakeHash hash (server_hash s c) cc (server_cipher c R)
  | 10 => AwaitHash (server_hash s c) cc (server_cipher c R)
  | 11 => AwaitOpenHash (server_hash s c) cc (server_cipher c R) e3
  | 12 => AwaitSubtype cc sc1
  | 13 => AwaitOpenSubtype cc sc1 e4
  | 14 => AwaitCredentials cc t
  | 15 => AwaitMakeCredentials message
  | _ => Finished None
  end%nat.

(** What is read and what is sent between one point and the next, and the
    number of bytes that the method waits for. *)
Definition reads (i : nat) : list Z :=
  match i with
  | 1 => be_bytes 4 L
  | 2 => sN ++ sE
  | 7 => be_bytes 2 256 ++ e2
  | 10 => be_bytes 2 20 ++ e3
  | 12 => be_bytes 2 1 ++ e4
  | _ => []
  end%nat.
Definition sends (i : nat) : list Z :=
  match i with
  | 5 => clientKey
  | 6 => be_bytes 2 (zlen sN) ++ enc
  | 9 => hash
  | 15 => message
  | _ => []
  end%nat.
Definition needs (i : nat) : option Z :=
  match i with
  | 1%nat => Some 4
  | 2%nat => Some (zlen sN * 2)
  | 7%nat => Some 2
  | 10%nat => Some 38
  | 12%nat => Some 19
  | _ => None
  end.

Definition before (f : nat -> list Z) (i : nat) : list Z := List.concat (map f (seq 0 i)).

Lemma before_S f i : before f (S i) = before f i ++ f i.
Proof. unfold before. rewrite seq_S, map_app, List.concat_app. cbn. now rewrite app_nil_r. Qed.

Definition shows (i : nat) : list told := if (i <=? 3)%nat then [] else [ServerVerification (be_bytes 4 L ++ sN ++ sE)].

(** The object at a point: [sd] tells that the bytes waited for are there, [ad]
    that the key is approved. *)
Definition object (i : nat) (sd ad : bool) : ra2 :=
  mkRa2 (negb (i =? 0)%nat) (if sd then None else needs i) None ((i =? 4)%nat && negb ad) (negb sd) false (negb (i <=? 3)%nat)
    (if (i =? 0)%nat then Pending else if sd then Resolved else Pending)
    (if (i <=? 13)%nat then Pending else Resolved)
    (if (i <=? 3)%nat then Pending else if (i =? 4)%nat && negb ad then Pending else Resolved) (point i).

Definition stand (i : nat) (sd ad : bool) (l : list Z) : world ra2 asock page :=
  World (object i sd ad) (ASock (ASrc (before reads i) l) (ASink (before sends i) 0 k) cl h) (mkPage creds (shows i)).

Definition there (i : nat) (l : list Z) : bool := match needs i with Some n => n <=? zlen l | None => true end.

Lemma key_size : 128 <= zlen sN <= 1024.
Proof. rewrite (co_lN Hc). assert (HL := co_L Hc). euclid. Qed.

Lemma moves w (m : M (world ra2 asock page) pc) q w' w2 :
  go_on sup (at_await (dec w)) w = m w -> m w = (Ret q, w') -> World (set_at q (dec w')) (sock w') (disp w') = w2 ->
  happen (HResume sup) w = (Ret tt, w2).
Proof. intros E1 E2 <-. apply resumed. now rewrite E1. Qed.

(** The promise awaited at a point, if any, is resolved. *)
Lemma awaited pr here next j l : pr (object j true true) = Resolved ->
  await pr here next (stand j true true l) = next (stand j true true l).
Proof. intros E. apply await_now. exact E. Qed.

Ltac arrive_at := cbn [dec sock disp]; unfold awaiting, there; cbn [needs]; try (destruct (_ <=? _)); reflexivity.

Lemma go_point i x : (1 <= i < 16)%nat ->
  happen (HResume sup) (stand i true true (reads i ++ x)) = (Ret tt, stand (S i) (there (S i) x) false x).
Proof.
  intros Hi. assert (Hkb := key_size). destruct Hc. assert (HnN : sN <> []) by (intros ->; cbn in Hkb; lia).
  unfold stand at 2; rewrite !(before_S _ i).
  destruct i as [|[|[|[|[|[|[|[|[|[|[|[|[|[|[|[|i]]]]]]]]]]]]]]]]; try (exfalso; clear - Hi; lia); clear Hi;
  cbn [reads sends app]; rewrite ?app_nil_r.
  - eapply moves; [exact (awaited sockPromise _ _ 1%nat _ eq_refl)|apply go_length; assumption|]. rewrite <- co_lN0. arrive_at.
  - eapply moves; [exact (awaited sockPromise _ _ 2%nat _ eq_refl)|apply go_key; congruence|]. arrive_at.
  - eapply moves; [reflexivity|apply go_import; congruence|]. arrive_at.
  - eapply moves; [exact (awaited approvePromise _ _ 4%nat _ eq_refl)|reflexivity|]. arrive_at.
  - eapply moves; [reflexivity|eapply go_generate; try eassumption; lia|]. arrive_at.
  - eapply moves; [reflexivity|apply go_encrypt; [assumption|cbn; lia..]|]. arrive_at.
  - eapply moves; [exact (awaited sockPromise _ _ 7%nat _ eq_refl)|apply go_random; assumption|]. arrive_at.
  - eapply moves; [reflexivity|eapply go_decrypt; eassumption|]. arrive_at.
  - eapply moves; [reflexivity|apply go_make_hash; assumption|]. arrive_at.
  - eapply moves; [exact (awaited sockPromise _ _ 10%nat _ eq_refl)|apply go_hash; assumption|]. arrive_at.
  - eapply moves; [reflexivity|eapply go_open_hash; eassumption|]. arrive_at.
  - eapply moves; [exact (awaited sockPromise _ _ 12%nat _ eq_refl)|apply go_subtype; assumption|]. arrive_at.
  - eapply moves; [reflexivity|eapply go_open_subtype; eassumption|]. arrive_at.
  - eapply moves; [exact (awaited credentialsPromise _ _ 14%nat _ eq_refl)|eapply go_credentials; eassumption|]. arrive_at.
  - eapply moves; [reflexivity|apply go_make_credentials; assumption|]. arrive_at.
Qed.

(** What else happens at a point. *)
Lemma stand_data x i sd ad l : happen (HData x) (stand i sd ad l) = (Ret tt, stand i sd ad (l ++ x)).
Proof. reflexivity. Qed.

Lemma stand_approve i sd ad l : happen HApprove (stand i sd ad l) = (Ret tt, stand i sd true l).
Proof. destruct i as [|[|[|[|[|i]]]]], ad; reflexivity. Qed.

Lemma stand_start ad l : happen HMsg (stand 0 true ad l) = (Ret tt, stand 1 (there 1 l) false l).
Proof.
  transitivity (settling (_waitSockAsync 4 ;; ret AwaitLength)
    (World (set_hasStarted true (object 0 true ad)) (ASock (ASrc [] l) (ASink [] 0 k) cl h) (mkPage creds []))); [reflexivity|].
  unfold settling. rewrite run_await. unfold ret, awaiting, stand, there. cbn [needs]. destruct (4 <=? zlen l); reflexivity.
Qed.

Lemma stand_msg i sd ad l : (sd = false -> needs (S i) <> None) ->
  happen HMsg (stand (S i) sd ad l) = (Ret tt, stand (S i) (sd || there (S i) l) ad l).
Proof.
  intros Hn. unfold stand. cbn [happen]. unfold _negotiateRA2neAuth, checkInternalEvents, checkSock, checkCredentials.
  rewrite !bind_assoc_run, dec_get. cbn [dec object _checkSock].
  destruct sd; [reflexivity|]. unfold there. destruct (needs (S i)) as [n|] eqn:En; [|now destruct (Hn eq_refl)].
  rewrite bind_assoc_run. destruct (Z.leb_spec n (zlen l)).
  - rewrite srun_wait by assumption. unfold object. rewrite En. reflexivity.
  - rewrite srun_short by assumption. unfold object. rewrite En. reflexivity.
Qed.

(** The method goes on only when what it awaits is settled. *)
Lemma stand_waits i sd ad l : (i <= 16)%nat -> (sd = false -> needs i <> None) -> sd = false \/ i = 4%nat /\ ad = false \/ i = 0%nat \/ i = 16%nat ->
  happen (HResume sup) (stand i sd ad l) = (Ret tt, stand i sd ad l).
Proof.
  intros Hi Hn Hs. assert (Hp : go_on sup (at_await (dec (stand i sd ad l))) (stand i sd ad l) = (Ret (point i), stand i sd ad l)).
  { destruct sd.
    - destruct Hs as [Hs|[[-> ->]|[->| ->]]]; [discriminate|reflexivity..].
    - specialize (Hn eq_refl). destruct i as [|[|[|[|[|[|[|[|[|[|[|[|[|i]]]]]]]]]]]]]; try (now destruct Hn); reflexivity. }
  rewrite (resumed sup _ _ _ Hp). reflexivity.
Qed.

(** ** Any schedule *)

Definition stream : list Z := before reads 16.

(** Part of the server's bytes, which does not end within its random number. *)
Definition proper (A : list Z) : Prop :=
  (exists B, stream = A ++ B) /\ ~ 4 + zlen sN * 2 + 2 <= zlen A < 4 + zlen sN * 2 + 258.

Inductive standing (A : list Z) : nat -> world ra2 asock page -> Prop :=
| standing_at i sd ad l : (i <= 16)%nat -> A = before reads i ++ l -> (sd = true -> there i l = true) -> (sd = false -> needs i <> None) ->
    standing A i (stand i sd ad l).

Lemma stream_from i : (i < 16)%nat -> exists T, stream = before reads i ++ reads i ++ T.
Proof.
  intros Hi. exists (List.concat (map reads (seq (S i) (15 - i)))). unfold stream, before.
  replace 16%nat with (i + (1 + (15 - i)))%nat by lia. rewrite !seq_app, !map_app, !List.concat_app. cbn [seq map List.concat Nat.add].
  now rewrite app_nil_r, Nat.add_1_r.
Qed.

Lemma prefix_split (l B x T : list Z) : l ++ B = x ++ T -> zlen x <= zlen l -> exists y, l = x ++ y.
Proof.
  intros E Hl. exists (zdrop (zlen x) l). rewrite <- (ztake_zdrop (zlen x) l) at 1. f_equal.
  rewrite <- (ztake_app_l (zlen x) l B) by assumption. rewrite E. apply ztake_app_exact.
Qed.

Lemma all_read i l : (i < 16)%nat -> proper (before reads i ++ l) -> there i l = true -> exists x, l = reads i ++ x.
Proof.
  intros Hi [[B HB] Hcut] Ht. destruct (stream_from i Hi) as [T HT]. rewrite HT, <- app_assoc in HB. apply app_inv_head in HB.
  apply (prefix_split l B _ T); [auto|]. clear HT HB. assert (Hl := zlen_nonneg l). destruct Hc.
  unfold there in Ht. destruct i as [|[|[|[|[|[|[|[|[|[|[|[|[|i]]]]]]]]]]]]]; cbn [reads needs] in *; try exact Hl;
    try (apply Z.leb_le in Ht); rewrite ?zlen_app, ?zlen_be_bytes; change (Z.of_nat 4) with 4; change (Z.of_nat 2) with 2; try lia.
  unfold before in Hcut. cbn [seq map List.concat reads app] in Hcut. rewrite ?zlen_app, zlen_be_bytes in Hcut.
  change (zlen (@nil Z)) with 0 in Hcut. change (Z.of_nat 4) with 4 in Hcut. lia.
Qed.

Lemma there_more i l x : there i l = true -> there i (l ++ x) = true.
Proof.
  unfold there. destruct (needs i); [|auto]. rewrite !Z.leb_le, zlen_app. assert (Hx := zlen_nonneg x). lia.
Qed.

(** Looking at the socket with all the bytes there. *)
Lemma standing_msg A i w : standing A i w ->
  exists i' w', happen HMsg w = (Ret tt, w') /\ (i <= i')%nat /\ (1 <= i')%nat /\ standing A i' w'.
Proof.
  intros [[|j] sd ad l Hi EA Ht Hn].
  - destruct sd; [|now destruct (Hn eq_refl)]. exists 1%nat, (stand 1 (there 1 l) false l). split; [apply stand_start|]. split; [lia|]. split; [lia|].
    constructor; [lia|exact EA|auto|discriminate].
  - eexists (S j), _. split; [now apply stand_msg|]. split; [lia|]. split; [lia|]. constructor; auto; destruct sd; auto; discriminate.
Qed.

(** Going on. *)
Lemma standing_resume A i w : standing A i w -> proper A ->
  exists i' w', happen (HResume sup) w = (Ret tt, w') /\ (i <= i')%nat /\ standing A i' w'.
Proof.
  intros [j sd ad l Hi EA Ht Hn] HA.
  assert (Hd : (sd = false \/ j = 4%nat /\ ad = false \/ j = 0%nat \/ j = 16%nat) \/
               sd = true /\ (j = 4%nat -> ad = true) /\ (1 <= j < 16)%nat) by (destruct sd, ad; lia).
  destruct Hd as [Hd|(-> & Ha & Hj)].
  - exists j, (stand j sd ad l). split; [now apply stand_waits|]. split; [lia|]. now constructor.
  - assert (E : stand j true ad l = stand j true true l).
    { destruct ad; [reflexivity|]. destruct j as [|[|[|[|[|j]]]]]; try reflexivity. discriminate (Ha eq_refl). }
    rewrite EA in HA. destruct (all_read j l (proj2 Hj) HA (Ht eq_refl)) as [x ->]. exists (S j), (stand (S j) (there (S j) x) false x).
    rewrite E, go_point by lia. split; [reflexivity|]. split; [lia|].
    constructor; [lia|now rewrite before_S, <- app_assoc|auto|unfold there; now destruct (needs (S j))].
Qed.

Lemma standing_step A x i w : supplied sup x -> standing A i w -> proper A ->
  exists i' w', happen x w = (Ret tt, w') /\ (i <= i')%nat /\ standing (A ++ arrived [x]) i' w'.
Proof.
  intros Hx Hw HA. destruct x as [x| | | |cr|sup']; try (cbn in Hx; contradiction); unfold arrived; cbn [map List.concat app]; rewrite ?app_nil_r.
  - destruct Hw as [i sd ad l Hi EA Ht Hn]. exists i, (stand i sd ad (l ++ x)). split; [apply stand_data|]. split; [lia|].
    constructor; [exact Hi|now rewrite EA, app_assoc|intros E; apply there_more; auto|exact Hn].
  - destruct (standing_msg A i w Hw) as (i' & w' & E & Hle & _ & Hw2). now exists i', w'.
  - destruct Hw as [i sd ad l Hi EA Ht Hn]. exists i, (stand i sd true l). split; [apply stand_approve|]. split; [lia|]. now constructor.
  - cbn in Hx. rewrite Hx. now apply standing_resume.
Qed.

(** Every schedule runs. *)
Lemma standing_runs hs : forall A i w, Forall (supplied sup) hs -> standing A i w ->
  (forall n, proper (A ++ arrived (firstn n hs))) ->
  exists i' w', runs hs w = Some w' /\ standing (A ++ arrived hs) i' w'.
Proof.
  induction hs as [|x hs IH]; intros A i w Hs Hw HA.
  - exists i, w. split; [reflexivity|]. unfold arrived. cbn. now rewrite app_nil_r.
  - inversion Hs as [|? ? Hx Hs']; subst. assert (HA0 := HA 0%nat). unfold arrived in HA0. cbn in HA0. rewrite app_nil_r in HA0.
    destruct (standing_step A x i w Hx Hw HA0) as (i1 & w1 & E1 & _ & Hw1). cbn [runs]. rewrite E1.
    destruct (IH (A ++ arrived [x]) i1 w1 Hs' Hw1) as (i2 & w2 & E2 & Hw2).
    + intros n. specialize (HA (S n)). cbn [firstn] in HA. rewrite <- app_assoc. unfold arrived in *. cbn [map List.concat] in *. now rewrite app_nil_r.
    + exists i2, w2. split; [exact E2|]. rewrite <- app_assoc in Hw2. unfold arrived in *. cbn [map List.concat] in *. now rewrite app_nil_r in Hw2.
Qed.

(** With all bytes there, a round goes a point further. *)
Lemma stream_proper : proper stream.
Proof.
  split; [exists []; now rewrite app_nil_r|]. destruct Hc. unfold stream, before. cbn [seq map List.concat reads app].
  rewrite ?zlen_app, !zlen_be_bytes. change (zlen (@nil Z)) with 0. change (Z.of_nat 4) with 4. change (Z.of_nat 2) with 2. lia.
Qed.

Lemma stream_there i l : (i <= 16)%nat -> stream = before reads i ++ l -> there i l = true.
Proof.
  intros Hi E. unfold there. destruct (needs i) as [n|] eqn:En; [|reflexivity]. apply Z.leb_le.
  assert (Hi' : (i < 16)%nat) by (destruct (Nat.eq_dec i 16) as [->|]; [discriminate|lia]).
  destruct (stream_from i Hi') as [T HT]. rewrite HT in E. apply app_inv_head in E. subst l. rewrite zlen_app. assert (HT0 := zlen_nonneg T). destruct Hc.
  destruct i as [|[|[|[|[|[|[|[|[|[|[|[|[|i]]]]]]]]]]]]]; try discriminate; injection En as <-; cbn [reads];
    rewrite ?zlen_app, ?zlen_be_bytes; change (Z.of_nat 4) with 4; change (Z.of_nat 2) with 2; lia.
Qed.

Lemma standing_round i w : standing stream i w ->
  exists i' w', runs (round sup) w = Some w' /\ (min 16 (S i) <= i')%nat /\ standing stream i' w'.
Proof.
  assert (Hgo : forall j l, (1 <= j <= 16)%nat -> stream = before reads j ++ l -> exists i' w',
    match happen (HResume sup) (stand j true true l) with (Ret _, w) => Some w | _ => None end = Some w' /\
    (min 16 (S j) <= i')%nat /\ standing stream i' w').
  { intros j l Hj E. destruct (Nat.eq_dec j 16) as [->|Hne].
    - exists 16%nat, (stand 16 true true l). rewrite stand_waits by (try discriminate; auto). split; [reflexivity|]. split; [lia|]. constructor; [lia|exact E|auto|discriminate].
    - assert (Hp := stream_proper). rewrite E in Hp. destruct (all_read j l ltac:(lia) Hp (stream_there j l ltac:(lia) E)) as [x ->].
      exists (S j), (stand (S j) (there (S j) x) false x). rewrite go_point by lia. split; [reflexivity|]. split; [lia|].
      constructor; [lia|now rewrite before_S, <- app_assoc|auto|unfold there; now destruct (needs (S j))]. }
  intros [[|j] sd ad l Hi E Ht Hn]; cbn [round runs].
  - destruct sd; [|now destruct (Hn eq_refl)]. rewrite stand_start, stand_approve, (stream_there 1 l) by (auto; lia).
    destruct (Hgo 1%nat l ltac:(lia) E) as (i' & w' & E' & Hle & Hw2). exists i', w'. split; [exact E'|]. split; [lia|exact Hw2].
  - rewrite stand_msg, stand_approve, (stream_there (S j) l), orb_true_r by auto.
    destruct (Hgo (S j) l ltac:(lia) E) as (i' & w' & E' & Hle & Hw2). now exists i', w'.
Qed.

Lemma runs_app hs1 : forall hs2 w, runs (hs1 ++ hs2) w = match runs hs1 w with Some w => runs hs2 w | None => None end.
Proof. induction hs1 as [|x hs1 IH]; intros hs2 w; cbn [app runs]; [reflexivity|]. destruct (happen x w) as [[|e|] w']; auto. Qed.

Lemma rounds_finish n : forall i w, standing stream i w -> (16 <= n + i)%nat ->
  exists w', runs (rounds sup n) w = Some w' /\ standing stream 16 w'.
Proof.
  induction n as [|n IH]; intros i w Hw Hi.
  - assert (i = 16)%nat as -> by (destruct Hw; lia). now exists w.
  - destruct (standing_round i w Hw) as (i1 & w1 & E1 & Hle & Hw1). destruct (IH i1 w1 Hw1 ltac:(lia)) as (w2 & E2 & Hw2).
    exists w2. split; [|exact Hw2]. cbn [rounds]. now rewrite runs_app, E1.
Qed.

(** The whole course. *)
Lemma course_runs hs n : Forall (supplied sup) hs -> arrived hs = stream -> (forall n, proper (arrived (firstn n hs))) -> (16 <= n)%nat ->
  exists w1 w, runs hs (fresh creds k cl h) = Some w1 /\ runs (rounds sup n) w1 = Some w /\
    w = stand 16 true true [].
Proof.
  intros Hs Ha Hp Hn. assert (Hst : standing [] 0 (fresh creds k cl h)) by (apply (standing_at [] 0 true false []); [lia|reflexivity|auto|discriminate]).
  destruct (standing_runs hs [] 0 _ Hs Hst Hp) as (i1 & w1 & E1 & Hw1). rewrite app_nil_l, Ha in Hw1.
  destruct (rounds_finish n i1 w1 Hw1 ltac:(lia)) as (w & E & Hw). exists w1, w. split; [exact E1|]. split; [exact E|].
  inversion Hw as [j sd ad l _ El _ Hsd Ej Ew]. subst j. replace l with (@nil Z).
  - destruct sd; [|now destruct (Hsd eq_refl)]. now destruct ad.
  - fold stream in El. rewrite <- (app_nil_r stream) in El at 1. now apply app_inv_head in El.
Qed.
End Course.

(** C26.  A whole exchange: with a server that follows the protocol, sends its key,
    its random number under the client's key, and, sealed with the session key
    of its direction, the hash of both keys and a subtype for which the page
    has the credentials, the method ends well with every byte read, however the
    bytes of the server are cut, whenever the method looks at them and goes on,
    and whenever the page approves the key, provided that the random number
    arrives together with its length (see [random_not_awaited]): no step of such
    a schedule fails, and once everything has arrived sixteen rounds of looking,
    approving and going on are enough.  What the method has sent is the client's
    key, the random number that the server decrypts with its private key, and
    two sealed messages which the server opens with the other session key: the
    hash and the credentials. *)
Theorem exchange_completes L kb sN sE sd skey sup cN cE cd ckey cpub sR spad senc m3 m4 sc t creds u p k cl h hs n :
  server_side L kb sN sE sd skey -> client_side sup cN cE cd kb ckey ->
  Rsa.public_part cpub 256 (be cN) (be cE) -> bytes sR -> zlen sR = 16 -> bytes spad -> zlen spad = 256 - 19 ->
  Rsa.encrypt cpub spad sR = Ret (Some senc) ->
  let serverKey := be_bytes 4 L ++ sN ++ sE in
  let clientKey := be_bytes 4 2048 ++ cN ++ cE in
  seal_all (setKey (derive (s_random sup) sR)) [sha1 (serverKey ++ clientKey); [t]] = Ret ([m3; m4], sc) ->
  known creds t u p -> bytes u -> bytes p -> zlen u < 256 -> zlen p < 256 -> 1026 <= k ->
  Forall (supplied sup) hs -> arrived hs = serverKey ++ (be_bytes 2 256 ++ senc) ++ m3 ++ m4 ->
  (forall i, ~ zlen serverKey + 2 <= zlen (arrived (firstn i hs)) < zlen serverKey + 258) -> (16 <= n)%nat ->
  exists w1 w enc hash message c,
    runs hs (fresh creds k cl h) = Some w1 /\ runs (rounds sup n) w1 = Some w /\
    at_await (dec w) = Finished None /\ rest (a_in (sock w)) = [] /\
    out (a_out (sock w)) = clientKey ++ (be_bytes 2 kb ++ enc) ++ hash ++ message /\
    Rsa.decrypt skey enc = Ret (Some (s_random sup)) /\
    open_all (setKey (derive sR (s_random sup))) [hash; message] =
      Some ([sha1 (clientKey ++ serverKey); [zlen u] ++ u ++ [zlen p] ++ p], c).
Proof.
  intros (HL & Ekb & Bn & Be & Ln & Le & Hsk & Hsx) (Hg & En & Ee & Lcn & Lce & Hck & Hcx & Br & Lr & Bp & Lp) Hpub BR LR Bs Ls Hsenc
    serverKey clientKey Hseal Hk Bu Bpw Lu Lpw Hkk Hsup Harr Hcut Hn.
  assert (Hkb : 128 <= kb <= 1024) by (subst kb; euclid). assert (HnN : sN <> []) by (intros ->; change (zlen (@nil Z)) with 0 in Ln; lia).
  set (s := server_of L sN sE). set (c := mkClient clientKey ckey (s_random sup)).
  assert (Hip : Rsa.public_part (imported sN sE) kb (be sN) (be sE)) by (repeat split; try exact Ln; apply be_range; exact Be).
  destruct (Rsa.encrypt_opens _ skey kb _ _ _ (s_padding sup) (s_random sup) Hip Hsk Hsx Bp Br ltac:(lia) ltac:(lia)) as (enc & Henc & _ & Lenc & Hdec).
  destruct (Rsa.encrypt_opens _ ckey 256 _ _ _ spad sR Hpub Hck Hcx Bs BR ltac:(lia) ltac:(lia)) as (c2 & Hsenc' & _ & Lsenc & HdR).
  rewrite Hsenc in Hsenc'. injection Hsenc' as <-.
  assert (Lsk : zlen serverKey = 4 + kb * 2) by (unfold serverKey; rewrite !zlen_app, zlen_be_bytes; lia).
  assert (Lck : zlen clientKey = 516) by (unfold clientKey; rewrite !zlen_app, zlen_be_bytes; lia).
  assert (Ecc : client_cipher c sR = setKey (derive sR (s_random sup))) by (unfold client_cipher; rewrite session_key_is by assumption; reflexivity).
  assert (Esc : server_cipher c sR = setKey (derive (s_random sup) sR)) by (unfold server_cipher; rewrite session_key_is by assumption; reflexivity).
  assert (Ehl : hash_length s = zlen serverKey + zlen clientKey) by (rewrite Lsk, Lck; unfold hash_length, s; cbn [server_of serverKeyBytes]; rewrite Ln; change clientKeyBytes with 256; lia).
  assert (Esh : server_hash s c = sha1 (serverKey ++ clientKey)) by (apply hash_of_is; [exact Ehl|unfold s; cbn [server_of serverKeyBytes]; rewrite Ln; symmetry; exact Lsk]).
  assert (Ech : client_hash s c = sha1 (clientKey ++ serverKey)) by (apply hash_of_is; [rewrite Ehl; apply Z.add_comm|symmetry; exact Lck]).
  destruct (known_has _ _ _ _ Hk) as [_ Ht]. rewrite <- Esc, <- Esh in Hseal.
  destruct (server_frames (derive (s_random sup) sR) (server_cipher c sR) (server_hash s c) t m3 m4 sc) as (e3 & e4 & sc1 & sc2 & -> & -> & Le3 & Hr3 & Le4 & Hr4);
    [rewrite Esc; apply setKey_ready|rewrite Esh; apply sha1_bytes|rewrite Esh; apply sha1_length|exact Ht|exact Hseal|].
  destruct (client_frames (derive sR (s_random sup)) (client_cipher c sR) (client_hash s c) u p) as (hash & cc & message & c' & Eh & Lh & Em & Lm & Ho);
    [rewrite Ecc; apply setKey_ready|rewrite Ech; apply sha1_bytes|rewrite Ech; apply sha1_length|assumption..|].
  assert (Hco : course L sN sE sup ckey cN cE enc sR hash cc senc e3 e4 sc1 sc2 t creds u p message c' k)
    by (constructor; solve [assumption|congruence|lia]).
  assert (Est : stream L sN sE senc e3 e4 = arrived hs) by (rewrite Harr; unfold stream, before; cbn [seq map List.concat reads]; now rewrite ?app_nil_r, ?app_nil_l, ?app_assoc).
  destruct (course_runs L sN sE sup ckey cN cE enc sR hash cc senc e3 e4 sc1 sc2 t creds u p message c' k cl h Hco hs n Hsup (eq_sym Est)) as (w1 & w & E1 & E2 & Ew); [|exact Hn|].
  - intros i. split; [exists (arrived (skipn i hs)); rewrite Est; apply arrived_cut|]. specialize (Hcut i). rewrite Lsk in Hcut. rewrite Ln. exact Hcut.
  - exists w1, w, enc, hash, message, c'. split; [exact E1|]. split; [exact E2|]. rewrite Ew. split; [reflexivity|]. split; [reflexivity|].
    split; [cbn [stand sock a_out out]; unfold before, clientKey; cbn [seq map List.concat sends app]; rewrite Ln, ?app_nil_r, <- ?app_assoc; reflexivity|].
    split; [exact Hdec|]. rewrite <- Ecc, <- Ech. exact Ho.
Qed.
End Exchange.

(** * An exchange to look at

    The ciphers are the toy ones, the exponents are 1, and the hash is no hash;
    everything else is as in the code. *)

Definition toy_sha1 : Digest := fun l => zrep 20 (fold_right Z.add 0 l mod 256).

Definition toy_sha1_ok : @DigestOk toy_sha1.
Proof.
  constructor; intros l; unfold sha1, toy_sha1; [now rewrite zlen_zrep|].
  apply Forall_forall. intros x Hx. apply repeat_spec in Hx. subst x. apply Z.mod_pos_bound. lia.
Defined.

(** A key of [k] bytes. *)
Definition plain_n (k : Z) : list Z := 128 :: zrep (k - 1) 0.
Definition plain_e (k : Z) : list Z := zrep (k - 1) 0 ++ [1].
Definition plain_key (k : Z) : Rsa.rsa :=
  Rsa.mkRsa (k * 8) k (Some (plain_n k)) (Some (plain_e k)) (Some (plain_e k)) (Some (be (plain_n k))) (Some 1) (Some 1) true.

Definition demo_supply : supply := mkSupply (upto 16) (upto 109)
  (Rsa.Jwk (Base64.Base64.encode (plain_n 256)) (Base64.Base64.encode [1]) (Base64.Base64.encode [1])).

Definition demo_creds : credentials := mkCredentials (Some [109; 101]) (Some [112; 119]) None None None.

Definition demo_random : list Z := map (fun i => 255 - i) (upto 16).
Definition demo_senc : list Z :=
  match Rsa.encrypt (plain_key 256) (upto 237) demo_random with Ret (Some c) => c | _ => [] end.

Definition demo_server_key : list Z := be_bytes 4 1024 ++ plain_n 128 ++ plain_e 128.
Definition demo_client_key : list Z := be_bytes 4 2048 ++ plain_n 256 ++ plain_e 256.

Definition demo_sealed : list (list Z) * cipher :=
  match @seal_all toy (@setKey toy (@derive toy_sha1 (upto 16) demo_random)) [toy_sha1 (demo_server_key ++ demo_client_key); [1]] with
  | Ret r => r
  | _ => ([], @setKey toy [])
  end.
Definition demo_m3 : list Z := nth 0 (fst demo_sealed) [].
Definition demo_m4 : list Z := nth 1 (fst demo_sealed) [].

Lemma plain_exponents k n : 256 ^ (k - 1) <= n < 256 ^ k -> Rsa.exponents k n 1 1.
Proof. intros Hn. split; [exact Hn|]. intros x Hx. rewrite !Z.pow_1_r, Z.mod_mod, Z.mod_small by lia. reflexivity. Qed.

Lemma demo_server_side : server_side 1024 128 (plain_n 128) (plain_e 128) 1 (plain_key 128).
Proof.
  split; [lia|]. split; [reflexivity|]. split; [apply bytes_reflect; reflexivity|]. split; [apply bytes_reflect; reflexivity|].
  split; [reflexivity|]. split; [reflexivity|]. split; [repeat split; lia|]. apply plain_exponents. vm_compute. intuition congruence.
Qed.

Lemma demo_client_side : client_side demo_supply (plain_n 256) (plain_e 256) 1 128 (plain_key 256).
Proof.
  split; [vm_compute; reflexivity|]. split; [reflexivity|]. split; [reflexivity|]. split; [reflexivity|]. split; [reflexivity|].
  split; [repeat split; lia|]. split; [apply plain_exponents; vm_compute; intuition congruence|].
  split; [apply bytes_reflect; reflexivity|]. split; [reflexivity|]. split; [apply bytes_reflect; reflexivity|reflexivity].
Qed.

Lemma demo_public : Rsa.public_part (plain_key 256) 256 (be (plain_n 256)) (be (plain_e 256)).
Proof. repeat split. vm_compute. congruence. Qed.

Lemma demo_known : known demo_creds 1 [109; 101] [112; 119].
Proof. left. split; [reflexivity|]. exists [109; 101], [112; 119], [109; 101], [112; 119]. repeat split. Qed.

Lemma demo_encrypted : Rsa.encrypt (plain_key 256) (upto 237) demo_random = Ret (Some demo_senc).
Proof. vm_compute. reflexivity. Qed.

Lemma demo_sealed_is : @seal_all toy (@setKey toy (@derive toy_sha1 (upto 16) demo_random))
  [toy_sha1 (demo_server_key ++ demo_client_key); [1]] = Ret ([demo_m3; demo_m4], snd demo_sealed).
Proof. vm_compute. reflexivity. Qed.

(** The server's key arrives in two pieces, and its last messages in two others. *)
Definition demo_schedule : list happening :=
  let go := HResume demo_supply in
  [HMsg; HData (ztake 3 demo_server_key); HMsg; go; HData (zdrop 3 demo_server_key); HMsg; go; go; HMsg; go; go; HApprove; go; go; go;
   HData (be_bytes 2 256 ++ demo_senc); HMsg; go; go; HData (ztake 5 demo_m3); go; HMsg; HData (zdrop 5 demo_m3 ++ demo_m4)].
Definition demo_exchange : list happening := demo_schedule ++ rounds demo_supply 16.
Definition no_handler : Websock.event -> bool := fun _ => false.

Lemma demo_supplied : Forall (supplied demo_supply) demo_schedule.
Proof. repeat constructor. Qed.

Lemma demo_arrived : arrived demo_schedule = demo_server_key ++ (be_bytes 2 256 ++ demo_senc) ++ demo_m3 ++ demo_m4.
Proof. vm_compute. reflexivity. Qed.

Lemma demo_cut i : ~ zlen demo_server_key + 2 <= zlen (arrived (firstn i demo_schedule)) < zlen demo_server_key + 258.
Proof. do 24 (destruct i as [|i]; [vm_compute; intuition congruence|]). vm_compute. intuition congruence. Qed.

Lemma exchange_completes_witness : exists w1 w enc hash message c,
  @runs toy toy_sha1 demo_schedule (fresh demo_creds 10240 false no_handler) = Some w1 /\
  @runs toy toy_sha1 (rounds demo_supply 16) w1 = Some w /\
  at_await (dec w) = Finished None /\ rest (a_in (sock w)) = [] /\
  out (a_out (sock w)) = demo_client_key ++ (be_bytes 2 128 ++ enc) ++ hash ++ message /\
  Rsa.decrypt (plain_key 128) enc = Ret (Some (upto 16)) /\
  @open_all toy (@setKey toy (@derive toy_sha1 demo_random (upto 16))) [hash; message] =
    Some ([toy_sha1 (demo_client_key ++ demo_server_key); [2; 109; 101; 2; 112; 119]], c).
Proof.
  exact (@exchange_completes toy toy_ok toy_sha1 toy_sha1_ok 1024 128 (plain_n 128) (plain_e 128) 1 (plain_key 128) demo_supply
    (plain_n 256) (plain_e 256) 1 (plain_key 256) (plain_key 256) demo_random (upto 237) demo_senc demo_m3 demo_m4 (snd demo_sealed)
    1 demo_creds [109; 101] [112; 119] 10240 false no_handler demo_schedule 16 demo_server_side demo_client_side demo_public
    (proj2 (bytes_reflect demo_random) eq_refl) eq_refl (proj2 (bytes_reflect (upto 237)) eq_refl) eq_refl demo_encrypted demo_sealed_is
    demo_known (proj2 (bytes_reflect [109; 101]) eq_refl) (proj2 (bytes_reflect [112; 119]) eq_refl) eq_refl eq_refl ltac:(discriminate)
    demo_supplied demo_arrived demo_cut (le_n 16)).
Defined.

Definition or_else {A} (o : option A) (d : A) : A := match o with Some a => a | None => d end.

Definition demo_world : world ra2 asock page :=
  or_else (@runs toy toy_sha1 demo_exchange (fresh demo_creds 10240 false no_handler)) (fresh demo_creds 10240 false no_handler).

Lemma demo_runs : @runs toy toy_sha1 demo_exchange (fresh demo_creds 10240 false no_handler) = Some demo_world.
Proof. vm_compute. reflexivity. Qed.

Lemma demo_finished : at_await (dec demo_world) = Finished None.
Proof. vm_compute. reflexivity. Qed.


Lemma channel_carries_witness :
  exists fs, @seal_all toy (@setKey toy [3; 1]) [[1; 2; 3]; []; [255]] = Ret (fs, @advance 3 (@setKey toy [3; 1])) /\
    @open_all toy (@setKey toy [3; 1]) fs = Some ([[1; 2; 3]; []; [255]], @advance 3 (@setKey toy [3; 1])).
Proof.
  apply (@channel_carries toy toy_ok [3; 1] [[1; 2; 3]; []; [255]]).
  repeat constructor; cbn; lia.
Defined.
