(* ===== verification/HandshakeCorrect.v ===== *)
(** The handshake is correct: the order of its states, what it takes to be let
    in, what it sends, and a whole run. *)

From Stdlib Require Import ZArith List Lia Bool String QArith.
From S2P Require Import Prelude Source Sink Websock Utf8 Display Decoder Messages Lifecycle Des Bigint Md5 Rfb Handshake Asock Steps.
Import ListNotations JS JSFacts.
Import Lifecycle.Lifecycle Rfb.Rfb Handshake.Handshake.
Open Scope Z_scope.
Open Scope code_scope.

(** * The states of the handshake come in order *)

Section Order.
Context {Dc D : Type} `{Screen D}.
Abbreviation W := (world (client Dc) asock D).

Definition life_of (w : W) : lc := c_life (dec w).
Definition init_of (w : W) : init := _rfbInitState (life_of w).
Definition conn_of (w : W) : conn := _rfbConnectionState (life_of w).
Definition auth_of (w : W) : auth := c_auth (dec w).

(** [Rel r m]: whatever the outcome, [m] changes the life cycle's fields as
    the preorder [r] allows. *)
Definition Rel (r : lc -> lc -> Prop) {A} (m : M W A) : Prop :=
  forall w, r (life_of w) (life_of (snd (m w))).

(** A preorder that allows everything but changing the init state and making
    the connection. *)
Class Order (r : lc -> lc -> Prop) := {
  ord_trans l1 l2 l3 : r l1 l2 -> r l2 l3 -> r l1 l3;
  ord_quiet l l' : _rfbInitState l' = _rfbInitState l ->
    (_rfbConnectionState l' = Connected -> _rfbConnectionState l = Connected) -> r l l'
}.

(** The init state stays or becomes one of [T]; the connection is not made. *)
Definition moves (T : init -> Prop) (l l' : lc) : Prop :=
  (_rfbInitState l' = _rfbInitState l \/ T (_rfbInitState l')) /\
  (_rfbConnectionState l' = Connected -> _rfbConnectionState l = Connected).

(** The init state stays. *)
Definition keeps (l l' : lc) : Prop := _rfbInitState l' = _rfbInitState l.

#[local] Instance moves_order T : Order (moves T).
Proof.
  split; [|now split; auto]. intros l1 l2 l3 [[E1|E1] C1] [[E2|E2] C2]; split; auto; rewrite ?E2, ?E1; auto.
Qed.

#[local] Instance keeps_order : Order keeps.
Proof. split; unfold keeps; congruence. Qed.

Section Rules.
Context (r : lc -> lc -> Prop) `{Order r}.

Lemma ord_refl l : r l l.
Proof. now apply ord_quiet. Qed.

Lemma rel_ret {A} (a : A) : Rel r (ret a).
Proof. intros w. apply ord_refl. Qed.

Lemma rel_bind {A B} (m : M W A) (k : A -> M W B) :
  Rel r m -> (forall a, Rel r (k a)) -> Rel r (bind m k).
Proof.
  intros Hm Hk w. specialize (Hm w). unfold bind. destruct (m w) as [[a|e|] w']; try exact Hm.
  eapply ord_trans; [exact Hm|]. apply Hk.
Qed.

(** Steps that leave the life cycle alone. *)
Lemma rel_same {A} (m : M W A) : (forall w, life_of (snd (m w)) = life_of w) -> Rel r m.
Proof. intros Hm w. rewrite Hm. apply ord_refl. Qed.

Lemma rel_sock {A} (m : M asock A) : Rel r (onSock m).
Proof. apply rel_same. intros [c s t]. unfold onSock, lift. cbn. now destruct (m s) as [o s']. Qed.
Lemma rel_disp {A} (m : M D A) : Rel r (onDisp m).
Proof. apply rel_same. intros [c s t]. unfold onDisp, lift. cbn. now destruct (m t) as [o t']. Qed.
Lemma rel_auth {A} (m : M auth A) : Rel r (onAuth m).
Proof. apply rel_same. intros [c s t]. unfold onAuth, onDec, lift. cbn. now destruct (m (c_auth c)) as [o a']. Qed.
Lemma rel_options {A} (m : M options A) : Rel r (onOptions m).
Proof. apply rel_same. intros [c s t]. unfold onOptions, onDec, lift. cbn. now destruct (m (c_options c)) as [o a']. Qed.
Lemma rel_desktop {A} (m : M desktop A) : Rel r (onDesktop m).
Proof. apply rel_same. intros [c s t]. unfold onDesktop, onDec, lift. cbn. now destruct (m (c_desktop c)) as [o a']. Qed.
Lemma rel_page {A} (m : M page A) : Rel r (onPage m).
Proof. apply rel_same. intros [c s t]. unfold onPage, onDec, lift. cbn. now destruct (m (c_page c)) as [o a']. Qed.
Lemma rel_attempt {A} (o : outcome A) : Rel r (attempt o).
Proof. apply rel_same. reflexivity. Qed.
Lemma rel_throw {A} e : Rel r (throw e : M W A).
Proof. apply rel_same. reflexivity. Qed.
Lemma rel_stuck {A} : Rel r (stuck : M W A).
Proof. apply rel_same. reflexivity. Qed.

Lemma rel_lc f : (forall l, r l (f l)) -> Rel r (onLc (modify f)).
Proof. intros Hf [c s t]. apply Hf. Qed.

Lemma rel_event e : Rel r (dispatchEvent e).
Proof. apply rel_lc. intros l. now apply ord_quiet. Qed.

Lemma rel_grabbed b : Rel r (onLc (modify (set_grabbed b))).
Proof. apply rel_lc. intros l. now apply ord_quiet. Qed.

Lemma rel_resizeTimeout b : Rel r (onLc (modify (set_resizeTimeout b))).
Proof. apply rel_lc. intros l. now apply ord_quiet. Qed.

Lemma rel_life : Rel r (onLc get).
Proof. apply rel_same. now intros [[] s t]. Qed.

Lemma rel_fail : Rel r _fail.
Proof.
  intros w. destruct (acts_fail (S := asock) (D := D) w) as (b & w' & E & El). rewrite E. cbn [snd].
  unfold life_of. change (c_life (dec w')) with (lget (dec w')). rewrite El. change (c_life (dec w)) with (lget (dec w)).
  generalize (lget (dec w)). intros l. unfold failed, next.
  apply ord_quiet; destruct l as [c i cl tm ev pg gr url rt mt], c, tm; cbn; auto; discriminate.
Qed.
End Rules.

Lemma rel_init (T : init -> Prop) i : T i -> Rel (moves T) (setInit i).
Proof. intros Hi [c s t]. split; auto. Qed.

Create HintDb order discriminated.
#[local] Hint Resolve rel_ret rel_sock rel_disp rel_auth rel_options rel_desktop rel_page rel_attempt
  rel_throw rel_stuck rel_event rel_grabbed rel_resizeTimeout rel_life rel_fail : order.
#[local] Hint Resolve moves_order keeps_order : order.

(** Walk through a handler. *)
Ltac order_walk :=
  unfold theAuth, theOptions, theDesktop, thePage, push8, push32, pushBytes, pushString, doFlush, need, ask;
  repeat first
    [ solve [auto with order nocore]
    | match goal with |- Rel _ (bind _ _) => apply rel_bind; [auto with order nocore| |intros ?] end
    | solve [apply rel_init; cbn; auto]
    | case_if
    | progress cbn zeta
    | match goal with |- Rel _ (match ?x with _ => _ end) => destruct x end ].

Lemma order_version : Rel (moves (eq Security)) _negotiateProtocolVersion.
Proof. unfold _negotiateProtocolVersion. order_walk. Qed.

Lemma order_reason c s (T : init -> Prop) : T SecurityReason -> Rel (moves T) (toSecurityReason c s).
Proof. intros Hs. unfold toSecurityReason. order_walk. Qed.
#[local] Hint Resolve order_reason : order.

Definition after_security (i : init) : Prop := i = SecurityReason \/ i = Authentication.

Lemma order_security : Rel (moves after_security) _negotiateSecurity.
Proof. unfold _negotiateSecurity, after_security. order_walk. Qed.

Lemma order_security_reason : Rel (moves (fun _ => False)) _handleSecurityReason.
Proof. unfold _handleSecurityReason. order_walk. Qed.

(** ** The authentication methods lead to the security result only *)

Abbreviation to_result := (moves (eq SecurityResult)).

Lemma order_shift32s n : Rel to_result (shift32s n).
Proof. induction n; cbn [shift32s]; order_walk. Qed.
Lemma order_tunnels n : forall l, Rel to_result (read_tunnels n l).
Proof. induction n; intros l; cbn [read_tunnels]; order_walk. Qed.
Lemma order_subauths n : Rel to_result (read_subauths n).
Proof. induction n; cbn [read_subauths]; order_walk. Qed.
#[local] Hint Resolve order_shift32s order_tunnels order_subauths : order.

Lemma order_std : Rel to_result _negotiateStdVNCAuth.
Proof. unfold _negotiateStdVNCAuth. order_walk. Qed.
Lemma order_plain : Rel to_result _negotiatePlainAuth.
Proof. unfold _negotiatePlainAuth. order_walk. Qed.
Lemma order_unix : Rel to_result _negotiateTightUnixAuth.
Proof. unfold _negotiateTightUnixAuth. order_walk. Qed.
Lemma order_ra2 : Rel to_result _negotiateRA2neAuth.
Proof. unfold _negotiateRA2neAuth. order_walk. Qed.
Lemma order_ard k n : Rel to_result (_negotiateARDAuth k n).
Proof. unfold _negotiateARDAuth. order_walk. Qed.
Lemma order_ms k u p : Rel to_result (_negotiateMSLogonIIAuth k u p).
Proof. unfold _negotiateMSLogonIIAuth. order_walk. Qed.
Lemma order_vencrypt : Rel to_result _negotiateVeNCryptAuth.
Proof.
  assert (H1 : Rel to_result vencrypt_subtypes) by (unfold vencrypt_subtypes; order_walk).
  assert (H2 : Rel to_result vencrypt_length) by (unfold vencrypt_length; order_walk).
  assert (H3 : Rel to_result vencrypt_ack) by (unfold vencrypt_ack; order_walk).
  unfold _negotiateVeNCryptAuth. order_walk.
Qed.
Lemma order_tight : Rel to_result _negotiateTightAuth.
Proof.
  assert (H1 : Rel to_result tight_subauth) by (unfold tight_subauth; order_walk).
  assert (H2 : forall n, Rel to_result (_negotiateTightTunnels n)) by (intros n; unfold _negotiateTightTunnels; order_walk).
  unfold _negotiateTightAuth. order_walk.
Qed.
#[local] Hint Resolve order_std order_plain order_unix order_ra2 order_ard order_ms order_vencrypt order_tight : order.

Lemma auth_get {A} (k : auth -> M W A) w : bind theAuth k w = k (auth_of w) w.
Proof. now destruct w as [[] s t]. Qed.

Lemma life_get {A} (k : lc -> M W A) w : bind (onLc get) k w = k (life_of w) w.
Proof. now destruct w as [[] s t]. Qed.

Lemma auth_std n rnd w : _rfbAuthScheme (auth_of w) = securityTypeVNCAuth ->
  negotiateAuthentication_at n rnd w = _negotiateStdVNCAuth w.
Proof. intros Hs. destruct n; cbn [negotiateAuthentication_at]; rewrite auth_get, Hs; reflexivity. Qed.

(** The second pass of Xvp is the VNC challenge. *)
Lemma xvp_std n rnd :
  meq (_negotiateXvpAuth (negotiateAuthentication_at n rnd)) (_negotiateXvpAuth (_negotiateStdVNCAuth (S := asock) (Dc := Dc) (D := D))).
Proof.
  unfold _negotiateXvpAuth. apply bind_proper; [reflexivity|]. intros a. case_if; [reflexivity|].
  do 5 (apply bind_proper; [reflexivity|intros ?]).
  intros w. unfold bind. destruct w as [c s t]. cbn. now rewrite auth_std.
Qed.

Lemma order_xvp : Rel to_result (_negotiateXvpAuth _negotiateStdVNCAuth).
Proof. unfold _negotiateXvpAuth. order_walk. Qed.

(** Off the None scheme, authentication leads to the security result only. *)
Lemma order_auth rnd w : _rfbAuthScheme (auth_of w) <> securityTypeNone ->
  moves (eq SecurityResult) (life_of w) (life_of (snd (_negotiateAuthentication rnd w))).
Proof.
  intros Hs. unfold _negotiateAuthentication. cbn [negotiateAuthentication_at]. rewrite auth_get.
  destruct (Z.eqb_spec (_rfbAuthScheme (auth_of w)) securityTypeNone); [contradiction|].
  case_if; [pose proof (xvp_std 0 rnd w) as X; cbn [negotiateAuthentication_at] in X; rewrite X; apply order_xvp|].
  match goal with |- moves _ _ (life_of (snd (?m w))) => cut (Rel to_result m); [intros Hm; apply Hm|] end.
  repeat case_if; auto with order nocore.
Qed.

Lemma order_result T : T SecurityReason -> forall w,
  moves T (life_of w) (life_of (snd (_handleSecurityResult w))) \/
  _rfbInitState (life_of (snd (_handleSecurityResult w))) = ClientInitialisation /\
  conn_of (snd (_handleSecurityResult w)) = conn_of w /\
  exists v, ztake 4 (rest (a_in (sock w))) = v /\ zlen v = 4 /\ be v = 0 /\
    rest (a_in (sock (snd (_handleSecurityResult w)))) = zdrop 4 (rest (a_in (sock w))).
Proof.
  intros HT [c [[p l] o cl h] t]. unfold _handleSecurityResult, need. cbn [sock a_in rest].
  destruct (Z_lt_le_dec (zlen l) 4) as [Hl|Hl].
  - left. rewrite srun_short by exact Hl. apply ord_refl, moves_order.
  - rewrite srun_wait by exact Hl.
    assert (Hv : exists v r, l = v ++ r /\ zlen v = 4).
    { exists (ztake 4 l), (zdrop 4 l). rewrite ztake_zdrop. split; [reflexivity|zlia]. }
    destruct Hv as (v & r & -> & Hv). scbn. rewrite srun_take by exact Hv.
    unfold same. replace (ztake 4 (v ++ r)) with v by (rewrite <- Hv; now rewrite ztake_app_exact).
    destruct (Z.eqb_spec (be v) 0) as [E|E].
    + right. split; [reflexivity|]. split; [reflexivity|]. exists v. cbn [a_in rest sock].
      split; [reflexivity|]. split; [exact Hv|]. split; [exact E|].
      replace (zdrop 4 (v ++ r)) with r by (rewrite <- Hv; now rewrite zdrop_app_exact). reflexivity.
    + left. match goal with |- moves _ _ (life_of (snd (?m ?w))) => cut (Rel (moves T) m); [intros Hm; apply (Hm w)|] end.
      order_walk.
Qed.

(** ** Server initialisation makes the connection *)

Lemma order_clipping on : Rel keeps (_setClippingViewport on).
Proof. unfold _setClippingViewport. order_walk. Qed.
#[local] Hint Resolve order_clipping : order.

Lemma order_clip : Rel keeps _updateClip.
Proof. unfold _updateClip, _fixScrollbars, _saveExpectedClientSize. order_walk. Qed.
Lemma order_scale : Rel keeps _updateScale.
Proof. unfold _updateScale, _fixScrollbars. order_walk. Qed.
#[local] Hint Resolve order_clip order_scale : order.

Lemma order_resize w h : Rel keeps (_resize w h).
Proof. unfold _resize, _updateContinuousUpdates, _saveExpectedClientSize. order_walk. Qed.
Lemma order_name n : Rel keeps (_setDesktopName n).
Proof. unfold _setDesktopName. order_walk. Qed.
Lemma order_encodings : Rel keeps _sendEncodings.
Proof. unfold _sendEncodings. order_walk. Qed.
Lemma order_connected : Rel keeps (_updateConnectionState Connected).
Proof.
  intros w. destruct (acts_update (S := asock) (D := D) _connect Connected ltac:(easy) w) as (b & w' & E & El).
  unfold _updateConnectionState. rewrite E. cbn [snd]. unfold life_of. change (c_life (dec w')) with (lget (dec w')). rewrite El.
  change (c_life (dec w)) with (lget (dec w)). generalize (lget (dec w)). intros l. unfold keeps, next.
  destruct l as [c i cl tm ev pg gr url rt mt], c, tm; reflexivity.
Qed.
#[local] Hint Resolve order_resize order_name order_encodings order_connected : order.

Lemma order_done w h n : Rel keeps (server_init_done w h n).
Proof. unfold server_init_done. order_walk. Qed.
#[local] Hint Resolve order_done : order.

Lemma order_server_init : Rel keeps _negotiateServerInit.
Proof. unfold _negotiateServerInit, tight_server_init. order_walk. Qed.

(** What one call of [_initMsg] may do to the init state. *)
Definition may_follow (w : W) (i' : init) (w' : W) : Prop :=
  let a := auth_of w in
  match init_of w with
  | INone => False
  | ProtocolVersion => i' = Security
  | Security => i' = SecurityReason \/ i' = Authentication
  | Authentication =>
      i' = SecurityResult \/
      i' = ClientInitialisation /\ _rfbAuthScheme a = securityTypeNone /\ _rfbVersion a < 38
  | SecurityResult =>
      i' = SecurityReason \/
      i' = ClientInitialisation /\ be (ztake 4 (rest (a_in (sock w)))) = 0 /\
        rest (a_in (sock w)) = ztake 4 (rest (a_in (sock w))) ++ rest (a_in (sock w')) /\
        zlen (ztake 4 (rest (a_in (sock w)))) = 4
  | SecurityReason => False
  | ClientInitialisation => i' = ServerInitialisation
  | ServerInitialisation => False
  end.

(** The handshake goes through its states in order: each call of
    [_initMsg] leaves the state alone or makes one of the moves of the
    protocol; a client is let in only by a None security type below version
    3.8 or by a security result of four zero bytes that the call consumes; and
    the connection is made in the server initialisation only. *)
Lemma handshake_order (rnd : randoms) (w : W) :
  let w' := snd (_initMsg rnd w) in
  (init_of w' = init_of w \/ may_follow w (init_of w') w') /\
  (conn_of w' = Connected -> conn_of w = Connected \/ init_of w = ServerInitialisation).
Proof.
  intros w'. subst w'. unfold _initMsg. rewrite life_get. unfold may_follow, init_of, conn_of.
  destruct (_rfbInitState (life_of w)) eqn:Ei.
  - destruct (rel_fail (moves (fun _ => False)) w) as [[E|[]] C]. rewrite E. auto.
  - destruct (order_version w) as [[E|E] C]; [rewrite E|rewrite <- E]; auto.
  - destruct (order_security w) as [[E|E] C]; [rewrite E; auto|]. split; auto.
  - destruct (order_security_reason w) as [[E|[]] C]. rewrite E. auto.
  - destruct (Z.eq_dec (_rfbAuthScheme (auth_of w)) securityTypeNone) as [Hs|Hs].
    + unfold _negotiateAuthentication. cbn [negotiateAuthentication_at]. rewrite auth_get, Hs. cbn [Z.eqb securityTypeNone Pos.eqb].
      destruct (Z.leb_spec 38 (_rfbVersion (auth_of w))); destruct w as [[] s t]; cbn; auto 6.
    + destruct (order_auth rnd w Hs) as [[E|E] C]; [rewrite E; auto|rewrite <- E; auto].
  - destruct (order_result (eq SecurityReason) eq_refl w) as [[[E|E] C]|(E & C & v & Hv & Hl & H0 & Hr)].
    + rewrite E. auto.
    + rewrite <- E. auto.
    + rewrite E. unfold conn_of in C. rewrite C. split; [|auto]. right. right. subst v. rewrite Hr, ztake_zdrop. auto.
  - destruct w as [[] s t]. cbn. auto.
  - pose proof (order_server_init w) as E. unfold keeps in E. rewrite E, Ei. auto.
Qed.

(** ** Nobody gets in unapproved *)

(** What can happen to the client during the handshake: bytes arrive, a call
    of [_initMsg] by a message or by the timer, credentials from the page, the
    end of an asynchronous exchange. *)
Inductive happening :=
| HData (l : list Z)
| HMsg (rnd : randoms)
| HResume (rnd : randoms)
| HCreds (creds : credentials)
| HArd (aes : list Z -> list Z -> list Z)
| HRa2 (error : option string).

Definition happen (h : happening) (w : W) : W :=
  match h with
  | HData l =>
      let s := sock w in
      World (dec w) (ASock (ASrc (past (a_in s)) (rest (a_in s) ++ l)) (a_out s) (a_closed s) (a_handlers s)) (disp w)
  | HMsg rnd => snd (_initMsg rnd w)
  | HResume rnd => snd (resume_fires rnd w)
  | HCreds creds => snd (sendCredentials creds w)
  | HArd aes => snd (ard_settles aes w)
  | HRa2 error => snd (ra2_settles error w)
  end.

Definition runs (hs : list happening) (w : W) : W := fold_left (fun w h => happen h w) hs w.

(** Past the security handshake. *)
Definition inside (w : W) : Prop :=
  init_of w = ClientInitialisation \/ init_of w = ServerInitialisation \/ conn_of w = Connected.

(** The server lets the client in here: it chose None below version 3.8, or
    its security result, about to be read, is zero. *)
Definition approves (w : W) : Prop :=
  (init_of w = Authentication /\ _rfbAuthScheme (auth_of w) = securityTypeNone /\ _rfbVersion (auth_of w) < 38) \/
  (init_of w = SecurityResult /\
   exists v r, rest (a_in (sock w)) = v ++ r /\ zlen v = 4 /\ be v = 0).

Lemma msg_inside rnd w : inside (snd (_initMsg rnd w)) -> inside w \/ approves w.
Proof.
  intros Hi. destruct (handshake_order rnd w) as [Hm Hc]. unfold inside in *.
  assert (Hin : init_of (snd (_initMsg rnd w)) = ClientInitialisation \/
                init_of (snd (_initMsg rnd w)) = ServerInitialisation -> 
    init_of w = ClientInitialisation \/ init_of w = ServerInitialisation \/ approves w).
  { intros Hx. destruct Hm as [Hm|Hm]; [rewrite Hm in Hx; tauto|].
    unfold may_follow in Hm. destruct (init_of w) eqn:E; try tauto;
      try (rewrite Hm in Hx; destruct Hx; discriminate).
    - destruct Hm as [Hm|Hm]; rewrite Hm in Hx; destruct Hx; discriminate.
    - right. right. left. destruct Hm as [Hm|(_ & H1 & H2)]; [rewrite Hm in Hx; destruct Hx; discriminate|auto].
    - right. right. right. destruct Hm as [Hm|(_ & H1 & H2 & H3)]; [rewrite Hm in Hx; destruct Hx; discriminate|].
      split; [exact E|]. eexists _, _. split; [exact H2|auto]. }
  destruct Hi as [Hi|[Hi|Hi]]; [destruct Hin; auto; tauto..|].
  destruct (Hc Hi); auto.
Qed.

Lemma quiet_inside w w' : life_of w' = life_of w -> inside w' -> inside w.
Proof. unfold inside, init_of, conn_of. now intros ->. Qed.

Lemma happen_inside h w : inside (happen h w) -> inside w \/ (approves w /\ exists rnd, h = HMsg rnd \/ h = HResume rnd).
Proof.
  destruct h; cbn [happen]; intros Hi.
  - left. exact Hi.
  - destruct (msg_inside rnd w Hi); eauto.
  - destruct w as [c s t]. unfold resume_fires in Hi.
    set (w1 := World (mkClient (c_life c) (set_resumeTimers (_resumeTimers (c_auth c) - 1) (c_auth c)) (c_options c)
      (c_desktop c) (c_clip c) (c_fbu c) (c_page c) (c_pointer c) (c_decoders c)) s t) in *.
    destruct (msg_inside rnd w1) as [Hin|Ha].
    + revert Hi. unfold bind at 1. change (onAuth _ _) with (Ret tt, w1). cbv iota beta. unfold bind.
      now destruct (_initMsg rnd w1) as [[b|e|] w2].
    + left. exact Hin.
    + right. split; [exact Ha|]. eauto.
  - left. destruct w as [c s t]. exact Hi.
  - left. revert Hi. apply quiet_inside. unfold ard_settles. rewrite auth_get.
    destruct (ardJobs (auth_of w)); [reflexivity|]. now destruct w as [c s t].
  - left. assert (Hr : Rel (moves (eq SecurityResult)) (ra2_settles (S := asock) (Dc := Dc) (D := D) error)).
    { unfold ra2_settles. order_walk. }
    specialize (Hr w). unfold inside, init_of, conn_of in *.
    destruct Hr as [[E|E] C]; [rewrite E in Hi; tauto|rewrite <- E in Hi].
    destruct Hi as [Hi|[Hi|Hi]]; try discriminate. auto.
Qed.

(** C23.  Nobody gets in unapproved: whatever arrives during the handshake and in
    whatever order, cut however, if the client ends up past the security
    handshake (sending its initialisation, waiting for the server's, or
    connected), then at some call of [_initMsg] before, the server had chosen
    the None type on a version below 3.8, or had sent a security result of four
    zero bytes, which the call read. *)
Theorem nobody_in_unapproved (w0 : W) (hs : list happening) :
  ~ inside w0 -> inside (runs hs w0) ->
  exists before h after, hs = before ++ h :: after /\ approves (runs before w0) /\
    exists rnd, h = HMsg rnd \/ h = HResume rnd.
Proof.
  intros H0. induction hs as [|h hs IH] using rev_ind; [easy|]. unfold runs. rewrite fold_left_app. cbn [fold_left].
  intros Hi. destruct (happen_inside h _ Hi) as [Hin|[Ha Hr]].
  - destruct (IH Hin) as (b & h' & a & -> & Ha & Hr). exists b, h', (a ++ [h]). rewrite <- app_assoc. auto.
  - exists hs, h, []. auto.
Qed.
End Order.

(** * What each step reads and sends *)

Section Steps.
Context {Dc D : Type} `{Screen D}.
Abbreviation W := (world (client Dc) asock D).

(** The client [c] with bytes [p] read, [l] to read, [o] sent, an empty queue
    of capacity [k]. *)
Abbreviation at_ c p l o k cl h t := (World c (ASock (ASrc p l) (ASink o 0 k) cl h) t).

Implicit Types (c : client Dc) (p l o tail : list Z) (t : D).

Definition in_state (i : init) c : Prop := _rfbInitState (c_life c) = i.

(** The end of a step: the state moves on. *)
Definition now_ (i : init) c : client Dc := with_life (set_init i) c.

(** The greetings the client knows and its answers. *)
Definition versions : list (string * (Z * string)) :=
  [("RFB 003.003", (33, "RFB 003.003")); ("RFB 003.006", (33, "RFB 003.003"));
   ("RFB 003.007", (37, "RFB 003.007")); ("RFB 003.008", (38, "RFB 003.008"));
   ("RFB 003.889", (38, "RFB 003.008")); ("RFB 004.000", (38, "RFB 003.008"));
   ("RFB 004.001", (38, "RFB 003.008")); ("RFB 005.000", (38, "RFB 003.008"))]%string.

Lemma version_step rnd c p tail o k cl h t greeting v answer :
  In (greeting, (v, answer)) versions -> in_state ProtocolVersion c -> _rfbMaxVersion (c_auth c) = 38 -> 12 <= k ->
  _initMsg rnd (at_ c p (codes greeting ++ [10] ++ tail) o k cl h t) =
  (Ret false, at_ (now_ Security (with_auth (set_rfbVersion v) c))
    (p ++ codes greeting ++ [10]) tail (o ++ codes answer ++ [10]) k cl h t).
Proof.
  intros Hin Hi Hmax Hk. unfold in_state in Hi.
  unfold _initMsg. rewrite crun_life_get, Hi. unfold _negotiateProtocolVersion.
  assert (Hl : zlen (codes greeting ++ [10]) = 12) by (repeat (destruct Hin as [[= <- <- <-]|Hin]; [reflexivity|]); destruct Hin).
  rewrite app_assoc. rewrite run_need by zlia. scbn. rewrite srun_take by exact Hl. unfold same.
  assert (Hv : read_version (zslice (codes greeting ++ [10]) 4 11) = Version v /\ reply_version v = codes answer ++ [10] /\
    zlen (reply_version v) = 12 /\ v <= 38)
    by (repeat (destruct Hin as [[= <- <- <-]|Hin]; [vm_compute; intuition discriminate|]); destruct Hin).
  destruct Hv as (-> & Hr & Hlr & Hv). rewrite !crun_auth. unfold theAuth. rewrite crun_auth_get.
  replace (with_auth _ (with_auth _ c)) with (with_auth (set_rfbVersion v) c).
  2:{ unfold with_auth. cbn [c_auth set_rfbVersion _rfbMaxVersion _rfbVersion]. rewrite Hmax.
      destruct (Z.ltb_spec 38 v); [lia|reflexivity]. }
  cbn [with_auth c_auth set_rfbVersion _rfbVersion]. unfold pushString, doFlush.
  rewrite run_pushString; [|lia|rewrite Hr; apply bytes_app; split; [apply codes_bytes|repeat constructor; unfold is_byte; lia]].
  rewrite srun_flush. unfold setInit. rewrite crun_life. rewrite Hr. reflexivity.
Qed.

(** The version exchange: to a greeting of a known server the client
    answers with the version of the table, never above 3.8, and waits for the
    security types; it reads the greeting's twelve bytes and no more. *)
Theorem version_negotiated rnd c p tail o k cl h t greeting v answer :
  In (greeting, (v, answer)) versions -> in_state ProtocolVersion c -> _rfbMaxVersion (c_auth c) = 38 -> 12 <= k ->
  _initMsg rnd (at_ c p (codes greeting ++ [10] ++ tail) o k cl h t) =
  (Ret false, at_ (now_ Security (with_auth (set_rfbVersion v) c))
    (p ++ codes greeting ++ [10]) tail (o ++ codes answer ++ [10]) k cl h t).
Proof. apply version_step. Qed.

Lemma security_step rnd c p tail o k cl h t (types : list Z) :
  in_state Security c -> 37 <= _rfbVersion (c_auth c) -> bytes types -> 1 <= k ->
  let start := at_ c p (zlen types :: types ++ tail) o k cl h t in
  (forall pre type post, types = pre ++ type :: post ->
     Forall (fun x => _isSupportedSecurityType x = false) pre -> _isSupportedSecurityType type = true ->
     _initMsg rnd start =
     (Ret true, at_ (now_ Authentication (with_auth (set_rfbAuthScheme type) c))
        (p ++ zlen types :: types) tail (o ++ [type]) k cl h t)) /\
  (types <> [] -> Forall (fun x => _isSupportedSecurityType x = false) types -> exists cl' h',
     _initMsg rnd start =
     (Ret false, at_ (with_life failed (with_auth (set_rfbAuthScheme (-1)) c)) (p ++ zlen types :: types) tail o k cl' h' t)) /\
  (types = [] -> exists f,
     _initMsg rnd start = (Ret true, at_ (now_ SecurityReason (with_auth f c)) (p ++ [0]) tail o k cl h t)).
Proof.
  intros Hi Hv Hb Hk start. subst start. unfold in_state in Hi.
  assert (Hs : _initMsg rnd (at_ c p (zlen types :: types ++ tail) o k cl h t) =
    (if zlen types =? 0 then toSecurityReason "no security types" 1
     else types <- onSock (rQshiftBytes (zlen types)) ;;
       onAuth (modify (set_rfbAuthScheme (chosen types))) ;;
       if chosen types =? -1 then _fail
       else push8 (chosen types) ;; doFlush ;; setInit Authentication ;; ret true)
    (at_ c (p ++ [zlen types]) (types ++ tail) o k cl h t)).
  { unfold _initMsg. rewrite crun_life_get, Hi. unfold _negotiateSecurity, theAuth. rewrite crun_auth_get.
    destruct (Z.leb_spec 37 (_rfbVersion (c_auth c))); [|lia]. rewrite run_shift8, run_need by zlia. reflexivity. }
  rewrite Hs. clear Hs. split; [|split].
  - intros pre type post Ht Hpre Hsup. destruct (Z.eqb_spec (zlen types) 0) as [E|E]; [subst types; zlia|].
    scbn. rewrite srun_take by reflexivity. unfold same. rewrite crun_auth.
    assert (Hc : chosen types = type).
    { subst types. unfold chosen. clear -Hpre Hsup. induction Hpre as [|x pre Hx Hpre IH]; cbn [app find]; [now rewrite Hsup|].
      now rewrite Hx. }
    rewrite Hc. assert (Hn : type <> -1) by (intros ->; discriminate Hsup).
    destruct (Z.eqb_spec type (-1)); [contradiction|]. unfold push8, doFlush, setInit.
    rewrite run_push8 by lia. rewrite srun_flush, crun_life.
    replace (Messages.u8 type) with [type].
    + rewrite <- app_assoc. reflexivity.
    + unfold Messages.u8. cbn [be_bytes]. rewrite Z.pow_0_r, Z.div_1_r. f_equal. symmetry. apply Z.mod_small.
      subst types. apply bytes_app in Hb. destruct Hb as [_ Hb]. now inversion_clear Hb.
  - intros Hne Hun. destruct (Z.eqb_spec (zlen types) 0) as [E|E]; [apply zlen_0_nil in E; contradiction|].
    scbn. rewrite srun_take by reflexivity. unfold same. rewrite crun_auth.
    assert (Hc : chosen types = -1).
    { unfold chosen. clear -Hun. induction Hun as [|x l Hx Hun IH]; [reflexivity|]. cbn [find]. now rewrite Hx. }
    rewrite Hc. cbn [Z.eqb Pos.eqb].
    destruct (crun_fail (with_auth (set_rfbAuthScheme (-1)) c) (ASrc ((p ++ [zlen types]) ++ types) tail) (ASink o 0 k) cl h t)
      as (cl' & h' & E'). exists cl', h'. rewrite E', <- app_assoc. reflexivity.
  - intros ->. eexists. reflexivity.
Qed.

(** The security types of version 3.7 and up: the client takes the first
    type of the server's list that it supports, answers with it and goes on to
    authenticate with it; without a supported type the connection fails and
    nothing is sent; an empty list leads to the server's reason. *)
Theorem security_chosen rnd c p tail o k cl h t (types : list Z) :
  in_state Security c -> 37 <= _rfbVersion (c_auth c) -> bytes types -> 1 <= k ->
  let start := at_ c p (zlen types :: types ++ tail) o k cl h t in
  (forall pre type post, types = pre ++ type :: post ->
     Forall (fun x => _isSupportedSecurityType x = false) pre -> _isSupportedSecurityType type = true ->
     _initMsg rnd start =
     (Ret true, at_ (now_ Authentication (with_auth (set_rfbAuthScheme type) c))
        (p ++ zlen types :: types) tail (o ++ [type]) k cl h t)) /\
  (types <> [] -> Forall (fun x => _isSupportedSecurityType x = false) types -> exists cl' h',
     _initMsg rnd start =
     (Ret false, at_ (with_life failed (with_auth (set_rfbAuthScheme (-1)) c)) (p ++ zlen types :: types) tail o k cl' h' t)) /\
  (types = [] -> exists f,
     _initMsg rnd start = (Ret true, at_ (now_ SecurityReason (with_auth f c)) (p ++ [0]) tail o k cl h t)).
Proof. apply security_step. Qed.

Lemma auth_step rnd c s t : in_state Authentication c ->
  _initMsg rnd (World c s t) = _negotiateAuthentication rnd (World c s t).
Proof. intros Hi. unfold _initMsg. now rewrite crun_life_get, Hi. Qed.

(** The methods that need something of the page: the security type, the bytes
    the method waits for first, and what it needs. *)
Definition needs : list (Z * (Z * list string)) :=
  [(securityTypeXVP, (0, ["username"; "password"; "target"]));
   (securityTypeARD, (0, ["username"; "password"]));
   (securityTypePlain, (0, ["username"; "password"]));
   (securityTypeUnixLogon, (0, ["username"; "password"]));
   (securityTypeVNCAuth, (16, ["password"]));
   (securityTypeMSLogonII, (24, ["username"; "password"]))]%string.

Definition field (f : string) (cr : credentials) : option (list Z) :=
  if String.eqb f "username" then username cr
  else if String.eqb f "password" then password cr
  else if String.eqb f "target" then target cr else None.

(** Waiting for the page: when a method lacks a credential, the client
    asks for what the method needs and otherwise leaves everything as it was,
    the unread bytes included, so the same step can run once they are given. *)
Theorem credentials_awaited rnd c p l o k cl h t scheme n types :
  in_state Authentication c -> _rfbAuthScheme (c_auth c) = scheme -> In (scheme, (n, types)) needs -> n <= zlen l ->
  (exists f, In f types /\ field f (_rfbCredentials (c_auth c)) = None) ->
  _initMsg rnd (at_ c p l o k cl h t) =
  (Ret false, at_ (with_life (add_event (EvCredentialsRequired types)) c) p l o k cl h t).
Proof.
  intros Hi Hs Hin Hn (f & Hf & Hx). rewrite auth_step by exact Hi. unfold _negotiateAuthentication.
  cbn [negotiateAuthentication_at]. unfold theAuth at 1. rewrite crun_auth_get, Hs.
  repeat (destruct Hin as [[= <- <- <-]|Hin]); [..|destruct Hin]; cbn -[bind onAuth theAuth];
    unfold _negotiateXvpAuth, _negotiateARDAuth, _negotiatePlainAuth, _negotiateTightUnixAuth, _negotiateStdVNCAuth,
      _negotiateMSLogonIIAuth; rewrite ?run_need by exact Hn; unfold theAuth; rewrite crun_auth_get;
    repeat (destruct Hf as [<-|Hf]); try destruct Hf; cbn in Hx; rewrite Hx; cbn [has andb negb]; rewrite ?andb_false_r;
    reflexivity.
Qed.

(** User name and password, as the Plain method of VeNCrypt sends them:
    both lengths on four bytes, then both in UTF-8; the result comes next. *)
Theorem plain_sent rnd c p l o k cl h t user pass u q :
  in_state Authentication c -> _rfbAuthScheme (c_auth c) = securityTypePlain ->
  username (_rfbCredentials (c_auth c)) = Some user -> password (_rfbCredentials (c_auth c)) = Some pass ->
  Utf8.encodeUTF8 user = Ret u -> Utf8.encodeUTF8 pass = Ret q -> bytes u -> bytes q -> 8 + zlen u + zlen q <= k ->
  _initMsg rnd (at_ c p l o k cl h t) =
  (Ret true, at_ (now_ SecurityResult c) p l (o ++ Messages.u32 (zlen u) ++ Messages.u32 (zlen q) ++ u ++ q) k cl h t).
Proof.
  intros Hi Hs Hu Hp Eu Ep Bu Bq Hk. rewrite auth_step by exact Hi. unfold _negotiateAuthentication.
  cbn [negotiateAuthentication_at]. unfold theAuth at 1. rewrite crun_auth_get, Hs. cbn -[bind theAuth _negotiatePlainAuth].
  unfold _negotiatePlainAuth, theAuth. rewrite crun_auth_get, Hu, Hp. cbn [has andb negb or_empty]. rewrite Eu, Ep, !crun_attempt.
  unfold push32, pushString, doFlush, setInit. zlens.
  rewrite !run_push32, !run_pushString by (assumption || lia). rewrite srun_flush, crun_life. now rewrite <- !app_assoc.
Qed.

(** The VNC challenge: the client reads the sixteen bytes and answers with
    their encryption under the password, sixteen bytes too. *)
Lemma challenge_answered rnd c p challenge tail o k cl h t pass :
  in_state Authentication c -> _rfbAuthScheme (c_auth c) = securityTypeVNCAuth ->
  password (_rfbCredentials (c_auth c)) = Some pass -> zlen challenge = 16 -> 16 <= k ->
  exists response, Des.genDES pass challenge = Some response /\ zlen response = 16 /\
  _initMsg rnd (at_ c p (challenge ++ tail) o k cl h t) =
  (Ret true, at_ (now_ SecurityResult c) (p ++ challenge) tail (o ++ response) k cl h t).
Proof.
  intros Hi Hs Hp Hl Hk. destruct (Des.genDES_answers pass challenge) as (r & Hr & Hlr); [now rewrite Hl|].
  exists r. split; [exact Hr|]. split; [lia|]. rewrite auth_step by exact Hi. unfold _negotiateAuthentication.
  rewrite auth_std by exact Hs. unfold _negotiateStdVNCAuth. rewrite run_need by zlia. unfold theAuth.
  rewrite crun_auth_get, Hp. cbn [has negb or_empty]. scbn. rewrite srun_take by exact Hl. unfold same. rewrite Hr.
  unfold pushBytes, doFlush, setInit. rewrite run_pushBytes by lia. now rewrite srun_flush, crun_life.
Qed.

(** ** The server's initialisation *)

(** The message: size, pixel format, name. *)
Definition server_init (w h : Z) (pf name : list Z) : list Z :=
  be_bytes 2 w ++ be_bytes 2 h ++ pf ++ be_bytes 4 (zlen name) ++ name.

(** The sixteen bytes of a pixel format, read field by field and dropped. *)
Lemma run_pixel_format {B} (j : M W B) c p pf r so cl h t : zlen pf = 16 ->
  (onSock rQshift8 ;; onSock rQshift8 ;; onSock rQshift8 ;; onSock rQshift8 ;;
   onSock rQshift16 ;; onSock rQshift16 ;; onSock rQshift16 ;;
   onSock rQshift8 ;; onSock rQshift8 ;; onSock rQshift8 ;; onSock (rQskipBytes 3) ;; j)
  (World c (ASock (ASrc p (pf ++ r)) so cl h) t) = j (World c (ASock (ASrc (p ++ pf) r) so cl h) t).
Proof.
  intros Hl. do 16 (destruct pf as [|? pf]; [discriminate|]). destruct pf; [|rewrite !zlen_cons in Hl; zlens; lia].
  cbn [app]. rewrite !run_shift8, !run_shift16_bytes, !run_shift8, run_skip3, <- !app_assoc. reflexivity.
Qed.

Definition made (x : lc) : lc := add_event EvConnect (set_conn Connected x).

Lemma connected_run c s t :
  _rfbConnectionState (c_life c) = Connecting -> _disconnTimer (c_life c) = false ->
  _updateConnectionState Connected (World c s t : W) =
  (Ret tt, World (with_life made c) s t).
Proof.
  destruct c as [[cn it clean tm ev pg gr url rt mt] a o dk cp f p pt ds]. cbn. intros -> ->. reflexivity.
Qed.

(** The three messages of a client that starts a session. *)
Definition opening (depth quality compression w h : Z) : list Z :=
  Messages.encode (Messages.msg_of (Messages.CPixelFormat depth true)) ++
  Messages.encode (Messages.msg_of (Messages.CEncodings (encodings_list depth quality compression))) ++
  Messages.encode (Messages.msg_of (Messages.CUpdateRequest false 0 0 w h)).

Definition depth_for (name : list Z) : Z := if list_eqb name (codes "Intel(r) AMT KVM") then 8 else 24.

Lemma opening_ok depth quality compression w h :
  depth = 8 \/ depth = 24 -> 0 <= w < 65536 -> 0 <= h < 65536 ->
  Forall Messages.call_ok [Messages.CPixelFormat depth true; Messages.CEncodings (encodings_list depth quality compression);
    Messages.CUpdateRequest false 0 0 w h] /\
  Forall (fun ca => zlen (Messages.encode (Messages.msg_of ca)) <= 100)
    [Messages.CPixelFormat depth true; Messages.CEncodings (encodings_list depth quality compression);
     Messages.CUpdateRequest false 0 0 w h].
Proof.
  intros Hd Hw Hh. split.
  - constructor; [|constructor; [|constructor; [|constructor]]];
      cbn [Messages.call_ok Messages.msg_of Messages.msg_ok Z.b2z]; unfold Messages.b8, Messages.b16; [lia| |lia].
    split; [zlens; destruct Hd as [-> | ->]; cbn; lia|].
    apply Forall_forall. intros x Hx. apply in_map_iff in Hx. destruct Hx as (e & <- & _). apply Z.mod_pos_bound. lia.
  - destruct Hd as [-> | ->]; repeat constructor; cbn; lia.
Qed.

(** What the session starts with, besides what [_resize] fits. *)
Record started_session (c c' : client Dc) (w h : Z) (name : list Z) : Prop := {
  ss_conn : _rfbConnectionState (c_life c') = Connected;
  ss_init : _rfbInitState (c_life c') = ServerInitialisation;
  ss_events : exists evs, events (c_life c') = events (c_life c) ++ EvDesktopName name :: evs ++ [EvConnect] /\
    Forall (fun e => exists b, e = EvClippingViewport b) evs;
  ss_grabbed : grabbed (c_life c') = grabbed (c_life c) || negb (_viewOnly (c_options c));
  ss_width : _fbWidth (c_desktop c') = w;
  ss_height : _fbHeight (c_desktop c') = h;
  ss_name : _fbName (c_desktop c') = name;
  ss_depth : _fbDepth (c_desktop c') = depth_for name;
  ss_decoders : c_decoders c' = c_decoders c;
  ss_fbu : c_fbu c' = c_fbu c
}.

Context `{!ScreenOk D}.

Lemma add_events evs (x : lc) :
  fold_left (fun (y : lc) e => add_event e y) evs x =
  mkLc (_rfbConnectionState x) (_rfbInitState x) (_rfbCleanDisconnect x) (_disconnTimer x) (events x ++ evs)
    (in_page x) (grabbed x) (has_url x) (_resizeTimeout x) (_mouseMoveTimer x).
Proof.
  revert x. induction evs as [|e evs IH]; intros x; cbn [fold_left]; [rewrite app_nil_r; now destruct x|].
  rewrite IH. cbn. now rewrite <- app_assoc.
Qed.

Lemma server_init_done_run c p l o k cl hd t w h name :
  _rfbConnectionState (c_life c) = Connecting -> _disconnTimer (c_life c) = false -> in_state ServerInitialisation c ->
  _enabledContinuousUpdates (c_desktop c) = false -> 0 <= w < 65536 -> 0 <= h < 65536 -> 100 <= k ->
  exists c' t', server_init_done w h name (at_ c p l o k cl hd t) =
    (Ret true, at_ c' p l (o ++ opening (depth_for name) (_qualityLevel (c_options c)) (_compressionLevel (c_options c)) w h)
       k cl hd t') /\
    started_session c c' w h name.
Proof.
  intros Hc Ht Hi He Hw Hh Hk. unfold server_init_done, _setDesktopName. rewrite bind_assoc_run, crun_desktop, crun_event.
  set (c1 := with_life _ (with_desktop _ c)).
  destruct (resize_run w h c1 (ASock (ASrc p l) (ASink o 0 k) cl hd) t He) as (c2 & t2 & E2 & F2).
  rewrite (bind_run _ _ _ _ _ E2). unfold theOptions. rewrite crun_options_get.
  destruct (ft_options _ _ F2) as [b Eo]. destruct (ft_life _ _ F2) as (evs & El & Fe).
  pose proof (ft_desktop _ _ F2) as Ed.
  assert (Ev : _viewOnly (c_options c2) = _viewOnly (c_options c)) by (rewrite Eo; reflexivity). rewrite Ev.
  set (c3 := if negb (_viewOnly (c_options c)) then with_life (set_grabbed true) c2 else c2).
  assert (E3 : forall B (j : M W B), ((if negb (_viewOnly (c_options c)) then onLc (modify (set_grabbed true)) else ret tt) ;; j)
    (at_ c2 p l o k cl hd t2) = j (at_ c3 p l o k cl hd t2)).
  { intros B j. subst c3. case_if; reflexivity. }
  rewrite E3, crun_desktop. unfold theDesktop. rewrite crun_desktop_get. set (c4 := with_desktop (set_fbDepth 24) c3).
  assert (En : _fbName (c_desktop c4) = name) by (subst c4 c3; destruct (negb (_viewOnly (c_options c))); cbn; rewrite Ed; reflexivity).
  rewrite En. set (c5 := with_desktop (set_fbDepth (depth_for name)) c3).
  assert (E5 : forall B (j : M W B), ((if list_eqb name (codes "Intel(r) AMT KVM") then onDesktop (modify (set_fbDepth 8)) else ret tt) ;; j)
    (at_ c4 p l o k cl hd t2) = j (at_ c5 p l o k cl hd t2)).
  { intros B j. subst c5 c4. unfold depth_for. case_if; reflexivity. }
  rewrite E5, crun_desktop_get.
  assert (Hd5 : _fbDepth (c_desktop c5) = depth_for name) by reflexivity.
  assert (Hw5 : _fbWidth (c_desktop c5) = w /\ _fbHeight (c_desktop c5) = h)
    by (subst c5 c3; destruct (negb (_viewOnly (c_options c))); cbn; rewrite Ed; split; reflexivity).
  assert (Ho5 : c_options c5 = set_clippingViewport b (c_options c))
    by (subst c5 c3; destruct (negb (_viewOnly (c_options c))); cbn; rewrite Eo; reflexivity).
  destruct Hw5 as [Hw5 Hh5]. rewrite Hd5.
  destruct (opening_ok (depth_for name) (_qualityLevel (c_options c)) (_compressionLevel (c_options c)) w h) as [Hok Hlen];
    [unfold depth_for; case_if; auto|assumption..|].
  inversion_clear Hok as [|? ? O1 Hok']. inversion_clear Hok' as [|? ? O2 Hok'']. inversion_clear Hok'' as [|? ? O3 _].
  inversion_clear Hlen as [|? ? L1 Hl']. inversion_clear Hl' as [|? ? L2 Hl'']. inversion_clear Hl'' as [|? ? L3 _].
  rewrite pixelFormat_call, crun_call by (assumption || lia).
  unfold _sendEncodings, theOptions, theDesktop. rewrite bind_assoc_run, crun_options_get, bind_assoc_run, crun_desktop_get.
  rewrite Ho5, Hd5. cbn [set_clippingViewport _qualityLevel _compressionLevel].
  rewrite clientEncodings_call, crun_call by (assumption || lia). rewrite Hw5, Hh5.
  rewrite fbUpdateRequest_call, crun_call by (assumption || lia).
  assert (El5 : c_life c5 = (if negb (_viewOnly (c_options c)) then set_grabbed true else fun x => x)
    (fold_left (fun (y : lc) e => add_event e y) (EvDesktopName name :: evs) (c_life c))).
  { subst c5 c3. cbn [fold_left].
    destruct (negb (_viewOnly (c_options c))); cbn; now rewrite El. }
  rewrite add_events in El5.
  erewrite (bind_run _ _ _ _ _ (connected_run c5 _ t2 _ _)).
  eexists _, t2. split; [rewrite <- !app_assoc; reflexivity|].
  constructor; cbn [with_life c_life c_desktop c_decoders c_fbu made]; auto.
  - cbn [add_event set_conn _rfbInitState events grabbed]. rewrite El5. unfold in_state in Hi. destruct (negb (_viewOnly (c_options c))); exact Hi.
  - exists evs. split; [|exact Fe]. cbn [add_event set_conn _rfbInitState events grabbed]. rewrite El5. destruct (negb (_viewOnly (c_options c))); cbn; now rewrite <- !app_assoc.
  - cbn [add_event set_conn _rfbInitState events grabbed]. rewrite El5. destruct (negb (_viewOnly (c_options c))); cbn; [now rewrite orb_true_r|now rewrite orb_false_r].
  - subst c5 c3. destruct (negb (_viewOnly (c_options c))); cbn; apply (ft_decoders _ _ F2).
  - subst c5 c3. destruct (negb (_viewOnly (c_options c))); cbn; apply (ft_fbu _ _ F2).
  Unshelve.
  + rewrite El5. destruct (negb (_viewOnly (c_options c))); exact Hc.
  + rewrite El5. destruct (negb (_viewOnly (c_options c))); exact Ht.
Qed.

Lemma zlen_server_init w h pf name : zlen pf = 16 -> zlen (server_init w h pf name) = 24 + zlen name.
Proof. intros Hp. unfold server_init. rewrite !zlen_app, !zlen_be_bytes, Hp. lia. Qed.

(** The server's initialisation: once the whole message is there, the
    client takes the size and the name, tells the page the name, sets up its
    screen, sends its pixel format, its encodings and a first request for the
    whole screen (8-bit colours for Intel AMT, 24-bit otherwise), and is
    connected, which it tells the page last. *)
Lemma server_initialised rnd c p w h pf name nm tail o k cl hd t :
  in_state ServerInitialisation c -> _rfbConnectionState (c_life c) = Connecting -> _disconnTimer (c_life c) = false ->
  _rfbTightVNC (c_auth c) = false -> _enabledContinuousUpdates (c_desktop c) = false ->
  0 <= w < 65536 -> 0 <= h < 65536 -> zlen pf = 16 -> zlen name < 4294967296 ->
  Utf8.decodeUTF8 name true = Ret nm -> 100 <= k ->
  exists c' t',
    _initMsg rnd (at_ c p (server_init w h pf name ++ tail) o k cl hd t) =
    (Ret true, at_ c' (p ++ server_init w h pf name) tail
       (o ++ opening (depth_for nm) (_qualityLevel (c_options c)) (_compressionLevel (c_options c)) w h) k cl hd t') /\
    started_session c c' w h nm.
Proof.
  intros Hi Hc Ht Hti He Hw Hh Hp Hn Hnm Hk. zlens.
  destruct (server_init_done_run c (p ++ server_init w h pf name) tail o k cl hd t w h nm Hc Ht Hi He Hw Hh Hk)
    as (c' & t' & E & Hs).
  exists c', t'. split; [|exact Hs]. rewrite <- E. clear E Hs.
  unfold _initMsg. rewrite crun_life_get, Hi. unfold _negotiateServerInit.
  pose proof (zlen_server_init w h pf name Hp) as HL.
  rewrite run_need by (rewrite zlen_app; zlens; lia). unfold server_init. rewrite <- !app_assoc.
  rewrite !run_shift16 by assumption. rewrite run_pixel_format by exact Hp. rewrite run_shift32 by lia.
  rewrite run_need by zlia. scbn. rewrite srun_take by reflexivity. unfold same. rewrite Hnm, crun_attempt.
  unfold theAuth. rewrite crun_auth_get, Hti. now rewrite <- !app_assoc.
Qed.

Lemma result_zero rnd c p tail o k cl h t : in_state SecurityResult c ->
  _initMsg rnd (at_ c p ([0; 0; 0; 0] ++ tail) o k cl h t) =
  (Ret true, at_ (now_ ClientInitialisation c) (p ++ [0; 0; 0; 0]) tail o k cl h t).
Proof.
  intros Hi. unfold _initMsg. rewrite crun_life_get, Hi. unfold _handleSecurityResult. rewrite run_need by zlia.
  scbn. rewrite srun_take by reflexivity. reflexivity.
Qed.

Lemma client_init rnd c p l o k cl h t : in_state ClientInitialisation c -> 1 <= k ->
  _initMsg rnd (at_ c p l o k cl h t) =
  (Ret true, at_ (now_ ServerInitialisation c) p l (o ++ [Z.b2z (_shared (c_options c))]) k cl h t).
Proof.
  intros Hi Hk. unfold _initMsg. rewrite crun_life_get, Hi. unfold theOptions. rewrite crun_options_get.
  unfold push8, doFlush, setInit. rewrite run_push8 by lia. rewrite srun_flush, crun_life.
  destruct (_shared (c_options c)); reflexivity.
Qed.

Lemma init_waits rnd c l p o k cl h t n :
  (in_state Authentication c /\ _rfbAuthScheme (c_auth c) = securityTypeVNCAuth /\ n = 16) \/
  (in_state SecurityResult c /\ n = 4) \/ (in_state ServerInitialisation c /\ n = 24) -> zlen l < n ->
  _initMsg rnd (at_ c p l o k cl h t) = (Ret false, at_ c p l o k cl h t).
Proof.
  unfold in_state. intros Hi Hl. unfold _initMsg. rewrite crun_life_get.
  destruct Hi as [(Hi & Hs & ->)|[[Hi ->]|[Hi ->]]]; rewrite Hi.
  - unfold _negotiateAuthentication. rewrite auth_std by exact Hs. unfold _negotiateStdVNCAuth. now rewrite run_need_short.
  - unfold _handleSecurityResult. now rewrite run_need_short.
  - unfold _negotiateServerInit. now rewrite run_need_short.
Qed.

(** ** A whole handshake *)

(** The messages of the server arrive one after the other; each is handled as
    [_handleMessage] does while connecting. *)
Definition receive (l : list Z) (w : W) : W :=
  let s := sock w in
  World (dec w) (ASock (ASrc (past (a_in s)) (rest (a_in s) ++ l)) (a_out s) (a_closed s) (a_handlers s)) (disp w).

Fixpoint converse (fuel : nat) (rnd : randoms) (msgs : list (list Z)) (w : W) : outcome unit * W :=
  match msgs with
  | [] => (Ret tt, w)
  | m :: msgs =>
      match handle_connecting fuel rnd (receive m w) with
      | (Ret tt, w') => converse fuel rnd msgs w'
      | r => r
      end
  end.

Lemma handle_more fuel rnd c s t w' :
  _rfbConnectionState (c_life c) = Connecting -> _initMsg rnd (World c s t) = (Ret true, w') ->
  handle_connecting (S fuel) rnd (World c s t : W) = handle_connecting fuel rnd w'.
Proof.
  intros Hc Hm. cbn [handle_connecting]. rewrite crun_life_get, Hc. cbn [conn_eqb].
  now rewrite (bind_run _ _ _ _ _ Hm).
Qed.

Lemma handle_wait fuel rnd c s t w' :
  _rfbConnectionState (c_life c) = Connecting -> _initMsg rnd (World c s t) = (Ret false, w') ->
  handle_connecting (S fuel) rnd (World c s t : W) = (Ret tt, w').
Proof.
  intros Hc Hm. cbn [handle_connecting]. rewrite crun_life_get, Hc. cbn [conn_eqb].
  now rewrite (bind_run _ _ _ _ _ Hm).
Qed.

Lemma handle_connected fuel rnd (w : W) : conn_of w <> Connecting -> handle_connecting fuel rnd w = (Ret tt, w).
Proof.
  intros Hc. unfold conn_of in Hc. destruct fuel; cbn [handle_connecting]; rewrite life_get;
    destruct (_rfbConnectionState (life_of w)); try reflexivity; contradiction.
Qed.

Lemma receive_at c p o k cl h t m :
  receive m (at_ c p [] o k cl h t) = at_ c p m o k cl h t.
Proof. reflexivity. Qed.

(** C25.  A whole handshake with a 3.8 server and a VNC password: the client
    answers the version, takes the VNC type, answers the challenge with its
    encryption under the password, asks for a shared or exclusive session and
    opens it; every byte of the server is read, and the client ends connected
    to the desktop the server announced. *)
Theorem handshake_completes rnd c k w h pf name nm pass challenge cl hd t :
  in_state ProtocolVersion c -> _rfbConnectionState (c_life c) = Connecting -> _disconnTimer (c_life c) = false ->
  _rfbMaxVersion (c_auth c) = 38 -> _rfbTightVNC (c_auth c) = false -> _enabledContinuousUpdates (c_desktop c) = false ->
  password (_rfbCredentials (c_auth c)) = Some pass -> zlen challenge = 16 ->
  0 <= w < 65536 -> 0 <= h < 65536 -> zlen pf = 16 -> zlen name < 4294967296 ->
  Utf8.decodeUTF8 name true = Ret nm -> 100 <= k ->
  let msgs := [codes "RFB 003.008" ++ [10]; [1; 2]; challenge; [0; 0; 0; 0]; server_init w h pf name] in
  exists response c' t', Des.genDES pass challenge = Some response /\
    converse 3 rnd msgs (at_ c [] [] [] k cl hd t) =
    (Ret tt, at_ c' (List.concat msgs) []
       (codes "RFB 003.008" ++ [10] ++ [2] ++ response ++ [Z.b2z (_shared (c_options c))] ++
        opening (depth_for nm) (_qualityLevel (c_options c)) (_compressionLevel (c_options c)) w h) k cl hd t') /\
    started_session c c' w h nm.
Proof.
  intros Hi Hc Ht Hm Hti He Hpw Hch Hw Hh Hpf Hn Hnm Hk msgs. subst msgs. cbn [converse]. rewrite !receive_at.
  (* the version *)
  pose proof (version_step rnd c [] [] [] k cl hd t "RFB 003.008" 38 "RFB 003.008" ltac:(cbn; auto 6) Hi Hm ltac:(lia)) as E1.
  rewrite app_nil_r in E1. set (c1 := now_ Security _) in E1. assert (Hc1 : _rfbConnectionState (c_life c1) = Connecting) by exact Hc. rewrite (handle_wait 2 _ _ _ _ _ Hc E1), receive_at. clear E1.
  (* the security type *)
  destruct (security_step rnd c1 (codes "RFB 003.008" ++ [10]) [] (codes "RFB 003.008" ++ [10]) k cl hd t [2]) as [E2 _];
    [reflexivity|cbn; lia|repeat constructor; unfold is_byte; lia|lia|].
  specialize (E2 [] 2 [] eq_refl ltac:(constructor) eq_refl). set (c2 := now_ Authentication _) in E2. assert (Hc2 : _rfbConnectionState (c_life c2) = Connecting) by exact Hc.
  change (zlen [2]) with 1 in E2. cbn [app] in E2. cbn [app].
  rewrite (handle_more 2 _ _ _ _ _ Hc1 E2). clear E2.
  rewrite (handle_wait 1 rnd _ _ _ _ Hc2 (init_waits rnd c2 [] _ _ _ _ _ _ 16 (or_introl (conj eq_refl (conj eq_refl eq_refl))) eq_refl)),
    receive_at.
  (* the challenge *)
  destruct (challenge_answered rnd c2 ((codes "RFB 003.008" ++ [10]) ++ [1; 2]) challenge [] ((codes "RFB 003.008" ++ [10]) ++ [2])
    k cl hd t pass eq_refl eq_refl Hpw Hch ltac:(lia)) as (response & Hr & _ & E3).
  exists response. rewrite app_nil_r in E3. set (c3 := now_ SecurityResult _) in E3. assert (Hc3 : _rfbConnectionState (c_life c3) = Connecting) by exact Hc. cbn [app] in E3 |- *.
  rewrite (handle_more 2 _ _ _ _ _ Hc2 E3). clear E3.
  rewrite (handle_wait 1 rnd _ _ _ _ Hc3 (init_waits rnd c3 [] _ _ _ _ _ _ 4 (or_intror (or_introl (conj eq_refl eq_refl))) eq_refl)),
    receive_at.
  (* the result, and the client's initialisation *)
  rewrite (handle_more 2 rnd _ _ _ _ Hc3 (result_zero rnd c3 _ [] _ _ _ _ _ eq_refl)). set (c4 := now_ ClientInitialisation c3). assert (Hc4 : _rfbConnectionState (c_life c4) = Connecting) by exact Hc.
  rewrite (handle_more 1 rnd _ _ _ _ Hc4 (client_init rnd c4 _ _ _ k _ _ _ eq_refl ltac:(lia))). set (c5 := now_ ServerInitialisation c4). assert (Hc5 : _rfbConnectionState (c_life c5) = Connecting) by exact Hc.
  rewrite (handle_wait 0 rnd _ _ _ _ Hc5 (init_waits rnd c5 [] _ _ _ _ _ _ 24 (or_intror (or_intror (conj eq_refl eq_refl))) eq_refl)),
    receive_at.
  (* the server's initialisation *)
  match goal with |- exists _ _, _ /\ match handle_connecting _ _ (World _ (ASock (ASrc ?p _) (ASink ?o _ _) _ _) _) with _ => _ end = _ /\ _ =>
    destruct (server_initialised rnd c5 p w h pf name nm [] o k cl hd t eq_refl Hc5 Ht Hti He Hw Hh Hpf Hn Hnm Hk)
      as (c' & t' & E6 & Hs) end.
  rewrite app_nil_r in E6. exists c', t'. split; [exact Hr|]. split.
  - cbn [app]. rewrite (handle_more 2 rnd _ _ _ _ Hc5 E6).
    rewrite handle_connected by (unfold conn_of, life_of; cbn [dec]; rewrite (ss_conn _ _ _ _ _ Hs); discriminate).
    cbn [List.concat]. rewrite app_nil_r, <- !app_assoc. reflexivity.
  - destruct Hs. constructor; assumption.
Qed.
End Steps.

(** * At a concrete client *)

(** A client whose socket has just opened. *)

(** The demo client in another state, with another scheme. *)
Definition demo_in (i : init) (scheme : Z) : client unit :=
  now_ i (with_auth (set_rfbVersion 38) (with_auth (set_rfbAuthScheme scheme) demo_client)).

Lemma version_negotiated_witness :
  _initMsg demo_rnd (demo_at demo_client (codes "RFB 005.000" ++ [10])) =
  (Ret false, World (now_ Security (with_auth (set_rfbVersion 38) demo_client))
     (ASock (ASrc (codes "RFB 005.000" ++ [10]) []) (ASink (codes "RFB 003.008" ++ [10]) 0 200) false no_handlers) demo_panel).
Proof.
  apply (version_negotiated demo_rnd demo_client [] [] [] 200 false no_handlers demo_panel "RFB 005.000" 38 "RFB 003.008");
    [cbn; auto 10|reflexivity|reflexivity|lia].
Defined.

Lemma security_chosen_witness :
  _initMsg demo_rnd (demo_at (demo_in Security (-1)) [3; 5; 2; 1]) =
  (Ret true, World (now_ Authentication (with_auth (set_rfbAuthScheme 2) (demo_in Security (-1))))
     (ASock (ASrc [3; 5; 2; 1] []) (ASink [2] 0 200) false no_handlers) demo_panel).
Proof.
  apply (proj1 (security_chosen demo_rnd (demo_in Security (-1)) [] [] [] 200 false no_handlers demo_panel [5; 2; 1]
    eq_refl ltac:(cbn; lia) ltac:(repeat constructor; unfold is_byte; lia) ltac:(lia)) [5] 2 [1]);
    [reflexivity|repeat constructor|reflexivity].
Defined.

Lemma credentials_awaited_witness :
  _initMsg demo_rnd (demo_at (demo_in Authentication securityTypeXVP) [7]) =
  (Ret false, demo_at (with_life (add_event (EvCredentialsRequired ["username"; "password"; "target"]%string))
     (demo_in Authentication securityTypeXVP)) [7]).
Proof.
  apply (credentials_awaited demo_rnd (demo_in Authentication securityTypeXVP) [] [7] [] 200 false no_handlers demo_panel
    securityTypeXVP 0); [reflexivity|reflexivity|cbn; auto|cbn; lia|].
  exists "target"%string. split; [cbn; auto|reflexivity].
Defined.

Lemma plain_sent_witness :
  _initMsg demo_rnd (demo_at (demo_in Authentication securityTypePlain) []) =
  (Ret true, World (now_ SecurityResult (demo_in Authentication securityTypePlain))
     (ASock (ASrc [] []) (ASink ([0; 0; 0; 2; 0; 0; 0; 6] ++ codes "me" ++ codes "secret") 0 200) false no_handlers) demo_panel).
Proof.
  apply (plain_sent demo_rnd (demo_in Authentication securityTypePlain) [] [] [] 200 false no_handlers demo_panel
    (codes "me") (codes "secret") (codes "me") (codes "secret"));
    try reflexivity; try apply codes_bytes. cbn. lia.
Defined.

Lemma challenge_answered_witness : exists response,
  Des.genDES (codes "secret") (zrep 16 0) = Some response /\
  snd (_initMsg demo_rnd (demo_at (demo_in Authentication securityTypeVNCAuth) (zrep 16 0))) =
  World (now_ SecurityResult (demo_in Authentication securityTypeVNCAuth))
     (ASock (ASrc (zrep 16 0) []) (ASink response 0 200) false no_handlers) demo_panel.
Proof.
  destruct (challenge_answered demo_rnd (demo_in Authentication securityTypeVNCAuth) [] (zrep 16 0) [] [] 200 false no_handlers
    demo_panel (codes "secret")) as (r & Hr & _ & E); [reflexivity|reflexivity|reflexivity|reflexivity|lia|].
  exists r. split; [exact Hr|]. rewrite app_nil_r in E. unfold demo_at. now rewrite E.
Defined.

Definition demo_pf : list Z := zrep 16 7.

Lemma server_initialised_witness : exists c' t',
  _initMsg demo_rnd (demo_at (demo_in ServerInitialisation 1) (server_init 640 480 demo_pf (codes "desk"))) =
  (Ret true, World c' (ASock (ASrc (server_init 640 480 demo_pf (codes "desk")) []) (ASink (opening 24 6 2 640 480) 0 200)
     false no_handlers) t') /\
  _rfbConnectionState (c_life c') = Connected /\ _fbWidth (c_desktop c') = 640.
Proof.
  destruct (server_initialised demo_rnd (demo_in ServerInitialisation 1) [] 640 480 demo_pf (codes "desk") (codes "desk") [] []
    200 false no_handlers demo_panel) as (c' & t' & E & Hs); try reflexivity; try lia.
  exists c', t'. rewrite app_nil_r in E. split; [exact E|]. split; [apply (ss_conn _ _ _ _ _ Hs)|apply (ss_width _ _ _ _ _ Hs)].
Defined.

Definition demo_msgs : list (list Z) :=
  [codes "RFB 003.008" ++ [10]; [1; 2]; zrep 16 3; [0; 0; 0; 0]; server_init 640 480 demo_pf (codes "desk")].

Lemma handshake_completes_witness : exists c' t' out,
  converse 3 demo_rnd demo_msgs (demo_at demo_client []) =
  (Ret tt, World c' (ASock (ASrc (List.concat demo_msgs) []) (ASink out 0 200) false no_handlers) t') /\
  _rfbConnectionState (c_life c') = Connected.
Proof.
  destruct (handshake_completes demo_rnd demo_client 200 640 480 demo_pf (codes "desk") (codes "desk") (codes "secret")
    (zrep 16 3) false no_handlers demo_panel) as (r & c' & t' & _ & E & Hs); try reflexivity; try lia.
  eexists c', t', _. split; [exact E|apply (ss_conn _ _ _ _ _ Hs)].
Defined.

(** The same handshake, event by event. *)
Definition demo_history : list happening :=
  [HData (codes "RFB 003.008" ++ [10]); HMsg demo_rnd; HData [1; 1]; HMsg demo_rnd; HMsg demo_rnd;
   HData [0; 0; 0; 0]; HMsg demo_rnd; HMsg demo_rnd].

Lemma nobody_in_unapproved_witness : exists before h after,
  demo_history = before ++ h :: after /\ approves (runs before (demo_at demo_client [])).
Proof.
  destruct (nobody_in_unapproved (demo_at demo_client []) demo_history) as (b & h & a & E & Ha & _).
  - intros [E|[E|E]]; discriminate E.
  - right. left. vm_compute. reflexivity.
  - exists b, h, a. auto.
Defined.
