(* ===== verification/SessionCorrect.v ===== *)
(** Theorems on the session: what the client does with the messages of a
    connected server, and what it sends for the page. *)

From Stdlib Require Import ZArith List Lia Bool String.
From S2P Require Import Prelude Source Sink Websock Utf8 Display Decoder Messages Lifecycle Rfb Handshake Inflator Keytables Session Asock Steps.
Import ListNotations JS JSFacts.
Open Scope Z_scope.
Open Scope code_scope.
Import Lifecycle.Lifecycle Rfb.Rfb Handshake.Handshake Session.Session.

#[local] Hint Rewrite zlen_be_bytes : zlist.

Section Session.
Context {Dc D : Type} `{Screen D} `{RectDecoders Dc asock D} `{Zlib}.
Variable deflate : list Z -> list Z.
Abbreviation W := (world (client Dc) asock D).
Abbreviation at_ c p l o k cl h t := (World c (ASock (ASrc p l) (ASink o 0 k) cl h) t).
Implicit Types (c : client Dc) (p l o tail : list Z) (t : D).

(** No framebuffer update is under way. *)
Definition idle c : Prop := rects (c_fbu c) = 0.

Lemma run_need_back n g b (k : M W bool) p c l so cl h t :
  zlen l < n -> zlen b = g -> 0 < g ->
  need n g k (World c (ASock (ASrc (p ++ b) l) so cl h) t) =
  (Ret false, World c (ASock (ASrc p (b ++ l)) so cl h) t).
Proof. intros Hn <- Hb. unfold need. now rewrite srun_back. Qed.

Lemma run_skip {B} n x (j : unit -> M W B) c p r so cl h t : zlen x = n ->
  bind (onSock (rQskipBytes n)) j (World c (ASock (ASrc p (x ++ r)) so cl h) t) =
  j tt (World c (ASock (ASrc (p ++ x) r) so cl h) t).
Proof. intros Hx. scbn. now rewrite srun_take. Qed.

Lemma run_str {B} n x (j : list Z -> M W B) c p r so cl h t : zlen x = n ->
  bind (onSock (rQshiftStr n)) j (World c (ASock (ASrc p (x ++ r)) so cl h) t) =
  j x (World c (ASock (ASrc (p ++ x) r) so cl h) t).
Proof. intros Hx. scbn. now rewrite srun_take. Qed.

Lemma run_bytes {B} n x (j : list Z -> M W B) c p r so cl h t : zlen x = n ->
  bind (onSock (rQshiftBytes n)) j (World c (ASock (ASrc p (x ++ r)) so cl h) t) =
  j x (World c (ASock (ASrc (p ++ x) r) so cl h) t).
Proof. intros Hx. scbn. now rewrite srun_take. Qed.

Lemma run_byte {B} n (j : Z -> M W B) c p r so cl h t : 0 <= n < 256 ->
  bind (onSock rQshift8) j (World c (ASock (ASrc p (be_bytes 1 n ++ r)) so cl h) t) =
  j n (World c (ASock (ASrc (p ++ be_bytes 1 n) r) so cl h) t).
Proof. intros Hn. scbn. rewrite srun_take by reflexivity. unfold same. now rewrite be_bytes_small. Qed.

(** The type of the next message. *)
Lemma type_read (k : Z -> M W bool) c p ty l so cl h t : idle c ->
  bind theFbu (fun f => bind (if 0 <? rects f then ret 0 else onSock rQshift8) k)
    (World c (ASock (ASrc p (ty :: l)) so cl h) t) =
  k ty (World c (ASock (ASrc (p ++ [ty]) l) so cl h) t).
Proof. intros Hi. unfold theFbu. rewrite crun_fbu_get, Hi. apply run_shift8. Qed.

(** ** Fences *)

Definition fence (pad : list Z) (flags : Z) (payload : list Z) : list Z :=
  pad ++ be_bytes 4 flags ++ be_bytes 1 (zlen payload) ++ payload.

Lemma fence_flags flags :
  ((flags & ((1 << 0) .| (1 << 1))) = flags mod 4)%js /\
  ((flags & (1 << 31)) =? 0)%js = negb (Z.testbit flags 31).
Proof. split; [apply (band_ones flags 2); lia|apply band_bit; lia]. Qed.

(** A fence: once all of it is there, the client sends it back at once, with
    the same payload and only the two flags it supports; until then it leaves
    what has arrived in place, wherever the data was cut. *)
Theorem fence_answered c p tail o k cl h t pad flags payload :
  idle c -> zlen pad = 3 -> 0 <= flags < 4294967296 -> Z.testbit flags 31 = true ->
  zlen payload <= 64 -> bytes payload -> 100 <= k ->
  let msg := 248 :: fence pad flags payload in
  _normalMsg deflate (at_ c p (msg ++ tail) o k cl h t) =
    (Ret true, at_ (with_desktop (set_supportsFence true) c) (p ++ msg) tail
       (o ++ Messages.encode (Messages.Fence (flags mod 4) payload)) k cl h t) /\
  forall l1 l2, msg = l1 ++ l2 -> l1 <> [] -> l2 <> [] ->
    _normalMsg deflate (at_ c p l1 o k cl h t) = (Ret false, at_ c p l1 o k cl h t).
Proof.
  intros Hi Hp Hf Hr Hl Hb Hk msg. subst msg. zlens. split.
  - unfold _normalMsg. cbn [app]. rewrite type_read by exact Hi. cbn [Z.eqb Pos.eqb].
    unfold _handleServerFenceMsg, fence. rewrite run_need by zlia. rewrite <- !app_assoc.
    rewrite run_skip by exact Hp. rewrite run_shift32 by lia. rewrite run_byte by lia. rewrite run_need by zlia.
    cbv zeta. destruct (Z.ltb_spec 64 (zlen payload)); [lia|]. rewrite run_str by reflexivity.
    rewrite crun_desktop. destruct (fence_flags flags) as [-> ->]. rewrite Hr. cbn [negb].
    pose proof (Z.mod_pos_bound flags 4 ltac:(lia)).
    rewrite clientFence_call, crun_call; [cbn [Messages.msg_of]; rewrite <- !app_assoc; reflexivity| |].
    + cbn [Messages.call_ok Messages.msg_of Messages.msg_ok]. unfold Messages.b8, Messages.b32. intuition lia.
    + cbn [Messages.msg_of Messages.encode]. unfold Messages.u32, Messages.u8. zlia.
  - intros l1 l2 E N1 N2. unfold fence in E. destruct l1 as [|ty l1]; [contradiction|]. cbn [app] in E.
    apply cons_inj in E as [<- E].
    unfold _normalMsg. rewrite type_read by exact Hi. cbn [Z.eqb Pos.eqb]. unfold _handleServerFenceMsg.
    destruct (Z_lt_le_dec (zlen l1) 8) as [Hs|Hs].
    { now rewrite (run_need_back 8 1 [248]). }
    rewrite run_need by exact Hs.
    replace (pad ++ be_bytes 4 flags ++ be_bytes 1 (zlen payload) ++ payload)
      with ((pad ++ be_bytes 4 flags ++ be_bytes 1 (zlen payload)) ++ payload) in E by now rewrite <- !app_assoc.
    destruct (app_prefix _ _ _ _ E ltac:(zlia)) as (r & -> & ->). clear E.
    assert (Hr' : 0 < zlen l2) by (destruct l2; [contradiction|]; zlia).
    rewrite <- !app_assoc, run_skip by exact Hp. rewrite run_shift32 by lia. rewrite run_byte by zlia.
    rewrite <- !app_assoc, (run_need_back _ _ ([248] ++ pad ++ be_bytes 4 flags ++ be_bytes 1 (zlen (r ++ l2))) _ p) by zlia.
    cbn [app]. now rewrite <- !app_assoc.
Qed.
End Session.

(** * The theorems at work *)

#[local] Instance no_decoders : RectDecoders unit asock panel := {| decoder_of _ := None |}.

(** A decompressor that copies. *)
#[local] Instance stored : Zlib := {|
  zstream := unit; inflateInit := tt; inflateReset s := s;
  zinflate s input n := (0, ztake n input, s, zdrop n input)
|}.

Lemma fence_answered_witness :
  _normalMsg (fun l => l) (demo_at online (248 :: fence [0; 0; 0] 2147483655 [9; 8; 7])) =
  (Ret true, World (with_desktop (set_supportsFence true) online)
     (ASock (ASrc (248 :: fence [0; 0; 0] 2147483655 [9; 8; 7]) [])
        (ASink (Messages.encode (Messages.Fence 3 [9; 8; 7])) 0 200) false no_handlers) demo_panel).
Proof.
  apply (fence_answered (fun l => l) online [] [] [] 200 false no_handlers demo_panel [0; 0; 0] 2147483655 [9; 8; 7]);
    try reflexivity; try lia; try (vm_compute; intuition discriminate).
  repeat constructor; unfold is_byte; lia.
Defined.
