(* ===== verification/InputCorrect.v ===== *)
(** Theorems on what the page sends: keys, clipboard, pointer. *)

From Stdlib Require Import ZArith List Lia Bool String QArith Qround Qabs.
From S2P Require Import Prelude Source Sink Websock Utf8 Display Decoder Messages Lifecycle Rfb Handshake Inflator Keytables Session Pointer Asock Steps.
Import ListNotations JS JSFacts.
Open Scope Z_scope.
Open Scope code_scope.
Import Lifecycle.Lifecycle Rfb.Rfb Handshake.Handshake Session.Session Pointer.Pointer Keytables.Keytables.

(** * Nothing is sent for a viewer *)

Section Muted.
Context {Dc S D : Type} `{Sock S} `{Screen D}.
Abbreviation W := (world (client Dc) S D).

(** Not connected, or only viewing. *)
Definition muted (w : W) : Prop := can_send (c_life (dec w)) (c_options (dec w)) = false.

(** On a muted client [m] leaves it muted and its socket alone. *)
Definition Quiet {A} (m : M W A) : Prop :=
  forall w, muted w -> muted (snd (m w)) /\ sock (snd (m w)) = sock w.

Lemma quiet_ret {A} (a : A) : Quiet (ret a).
Proof. intros w. auto. Qed.
Lemma quiet_stuck {A} : Quiet (stuck : M W A).
Proof. intros w. auto. Qed.

Lemma quiet_bind {A B} (m : M W A) (k : A -> M W B) : Quiet m -> (forall a, Quiet (k a)) -> Quiet (bind m k).
Proof.
  intros Hm Hk w Hw. destruct (Hm w Hw) as [H1 H2]. unfold bind. destruct (m w) as [[a|e|] w']; cbn [snd] in *; auto.
  destruct (Hk a w' H1) as [H3 H4]. split; congruence.
Qed.

Lemma quiet_disp {A} (m : M D A) : Quiet (onDisp m).
Proof. intros w Hw. unfold onDisp, lift. destruct (m (disp w)) as [o t]. auto. Qed.
Lemma quiet_pointer {A} (m : M pointer A) : Quiet (onPointer m).
Proof. intros [c s t] Hw. unfold onPointer, onDec, lift. cbn. destruct (m (c_pointer c)) as [o t']. auto. Qed.
Lemma quiet_desktop {A} (m : M desktop A) : Quiet (onDesktop m).
Proof. intros [c s t] Hw. unfold onDesktop, onDec, lift. cbn. destruct (m (c_desktop c)) as [o t']. auto. Qed.
Lemma quiet_clip {A} (m : M clip A) : Quiet (onClip m).
Proof. intros [c s t] Hw. unfold onClip, onDec, lift. cbn. destruct (m (c_clip c)) as [o t']. auto. Qed.
Lemma quiet_timer b : Quiet (onLc (modify (set_mouseMoveTimer b))).
Proof. intros [c s t] Hw. auto. Qed.
Lemma quiet_life : Quiet (onLc get).
Proof. intros [[] s t] Hw. auto. Qed.

(** The guard of everything that is sent. *)
Lemma quiet_guard {A} (k : lc -> options -> M W A) :
  (forall l o, can_send l o = false -> Quiet (k l o)) -> Quiet (l <- onLc get ;; o <- theOptions ;; k l o).
Proof.
  intros Hk [c s t] Hw. unfold theOptions. rewrite crun_life_get, crun_options_get. apply (Hk _ _ Hw). exact Hw.
Qed.

Lemma can_send_cases l o : can_send l o = false ->
  negb (conn_eqb (_rfbConnectionState l) Connected) = true \/
  (negb (conn_eqb (_rfbConnectionState l) Connected) = false /\ _viewOnly o = true).
Proof. unfold can_send. destruct (conn_eqb _ _), (_viewOnly o); auto. Qed.

Create HintDb quiet.
#[local] Hint Resolve quiet_ret quiet_stuck quiet_disp quiet_pointer quiet_desktop quiet_clip quiet_timer quiet_life : quiet.
Ltac quiet_walk :=
  repeat first
    [ solve [auto with quiet]
    | match goal with |- Quiet (let '(_, _) := ?x in _) => destruct x end
    | match goal with |- Quiet (match ?x with _ => _ end) => destruct x end
    | progress cbv zeta
    | apply quiet_guard; let E := fresh in intros ? ? E;
      first [ rewrite E; cbn [negb] | destruct (can_send_cases _ _ E) as [->|[-> ->]] ]
    | apply quiet_bind; [|intros ?]
    | case_if ].

Lemma quiet_sendKey k c d : Quiet (sendKey (Dc := Dc) (S := S) (D := D) k c d).
Proof. unfold sendKey. quiet_walk. Qed.
Lemma quiet_sendPointer x y m : Quiet (sendPointer (Dc := Dc) (S := S) (D := D) x y m).
Proof. unfold sendPointer. quiet_walk. Qed.
#[local] Hint Resolve quiet_sendKey quiet_sendPointer : quiet.

Lemma quiet_key k c d n l : Quiet (_handleKeyEvent (Dc := Dc) (S := S) (D := D) k c d n l).
Proof. unfold _handleKeyEvent, theDesktop. quiet_walk. Qed.
Lemma quiet_sendMouse x y m : Quiet (_sendMouse (Dc := Dc) (S := S) (D := D) x y m).
Proof. unfold _sendMouse. quiet_walk. Qed.
#[local] Hint Resolve quiet_key quiet_sendMouse : quiet.

Lemma quiet_press x y d b : Quiet (press (Dc := Dc) (S := S) (D := D) x y d b).
Proof. unfold press, thePointer. quiet_walk. Qed.
#[local] Hint Resolve quiet_press : quiet.
Lemma quiet_button x y d b : Quiet (_handleMouseButton (Dc := Dc) (S := S) (D := D) x y d b).
Proof. unfold _handleMouseButton, thePointer. quiet_walk. Qed.
Lemma quiet_move th now x y : Quiet (_handleMouseMove (Dc := Dc) (S := S) (D := D) th now x y).
Proof. unfold _handleMouseMove, thePointer. cbv zeta. quiet_walk. Qed.
#[local] Hint Resolve quiet_button quiet_move : quiet.
Lemma quiet_click pos b : Quiet (click (Dc := Dc) (S := S) (D := D) pos b).
Proof. unfold click. quiet_walk. Qed.
#[local] Hint Resolve quiet_click : quiet.
Lemma quiet_scroll_up n : forall m sens f g pos b, Quiet (scroll_up (Dc := Dc) (S := S) (D := D) n m sens f g pos b).
Proof. induction n; intros; cbn [scroll_up]; unfold thePointer; quiet_walk. Qed.
Lemma quiet_scroll_down n : forall m sens f g pos b, Quiet (scroll_down (Dc := Dc) (S := S) (D := D) n m sens f g pos b).
Proof. induction n; intros; cbn [scroll_down]; unfold thePointer; quiet_walk. Qed.
#[local] Hint Resolve quiet_scroll_up quiet_scroll_down : quiet.
Lemma quiet_fake th now ev x y : Quiet (_fakeMouseMove (Dc := Dc) (S := S) (D := D) th now ev x y).
Proof. unfold _fakeMouseMove. quiet_walk. Qed.
#[local] Hint Resolve quiet_fake : quiet.
Lemma quiet_tap h th bounds now ev b : Quiet (_handleTapEvent (Dc := Dc) (S := S) (D := D) h th bounds now ev b).
Proof. unfold _handleTapEvent, thePointer. cbv zeta. quiet_walk. Qed.
#[local] Hint Resolve quiet_tap : quiet.

(** What the user or the page can do, the power requests apart. *)
Inductive input :=
| IKey (keysym : Z) (code : string) (down : bool)
| IPress (keysym : Z) (code : string)
| ICtrlAltDel
| IPaste (text : list Z)
| IKeyboard (keysym : Z) (code : string) (down : bool) (numlock capslock : lock)
| IMouse (now : Z) (ev : mouse_event)
| IDelayedMove (now : Z)
| IWheel (ev : wheel_event)
| IGesture (now : Z) (phase : gesture_phase) (ev : gesture).

Definition perform (hypot : Q -> Q -> Q) (dragThreshold : Q) (bounds : rect) (i : input) : M W unit :=
  match i with
  | IKey k c d => sendKey k c d
  | IPress k c => pressKey k c
  | ICtrlAltDel => sendCtrlAltDel
  | IPaste text => clipboardPasteFrom text
  | IKeyboard k c d n l => _handleKeyEvent k c d n l
  | IMouse now ev => _handleMouse dragThreshold bounds now ev
  | IDelayedMove now => _handleDelayedMouseMove now
  | IWheel ev => _handleWheel bounds ev
  | IGesture now phase ev => _handleGesture hypot dragThreshold bounds now phase ev
  end.

Lemma quiet_perform h th bounds i : Quiet (perform h th bounds i).
Proof.
  destruct i; cbn [perform];
    unfold sendKey, pressKey, sendCtrlAltDel, clipboardPasteFrom, theClip, _handleMouse, _handleDelayedMouseMove,
      _handleWheel, _handleGesture, scroll, thePointer; cbv zeta;
    quiet_walk.
Qed.

(** C28.  A client that is not connected, or that only views, sends nothing on
    behalf of its user: whatever keys, texts, mouse, wheel and touch events
    arrive, in whatever order, its socket is left exactly as it was. *)
Theorem viewer_sends_nothing (h : Q -> Q -> Q) (th : Q) (bounds : rect) (l : list input) (w : W) :
  muted w -> sock (fold_left (fun w i => snd (perform h th bounds i w)) l w) = sock w.
Proof.
  revert w. induction l as [|i l IH]; intros w Hw; [reflexivity|]. cbn [fold_left].
  destruct (quiet_perform h th bounds i w Hw) as [H1 H2]. now rewrite IH.
Qed.
End Muted.

(** * What is sent, as messages *)

Section Tells.
Context {Dc D : Type}.
Abbreviation W := (world (client Dc) asock D).
Abbreviation at_ c p l o k cl h t := (World c (ASock (ASrc p l) (ASink o 0 k) cl h) t).
Implicit Types (c : client Dc) (p l o : list Z) (t : D).

(** The messages [msgs] go out and take the client to [c']. *)
Definition tells {A} (m : M W A) (a : A) c t c' (msgs : list Messages.cmsg) : Prop :=
  forall p l o k cl h, 12 <= k ->
  m (at_ c p l o k cl h t) = (Ret a, at_ c' p l (o ++ flat_map Messages.encode msgs) k cl h t).

Lemma tells_bind {A B} (m : M W A) (j : A -> M W B) a b c1 c2 c3 t ms1 ms2 :
  tells m a c1 t c2 ms1 -> tells (j a) b c2 t c3 ms2 -> tells (bind m j) b c1 t c3 (ms1 ++ ms2).
Proof.
  intros Hm Hj p l o k cl h Hk. rewrite (bind_run _ _ _ _ _ (Hm p l o k cl h Hk)), (Hj _ _ _ _ _ _ Hk).
  now rewrite flat_map_app, app_assoc.
Qed.

Lemma tells_ret {A} (a : A) c t : tells (ret a) a c t c [].
Proof. intros p l o k cl h Hk. cbn. now rewrite app_nil_r. Qed.

Lemma tells_life f c t : tells (onLc (modify f)) tt c t (with_life f c) [].
Proof. intros p l o k cl h Hk. cbn. now rewrite app_nil_r. Qed.

Lemma tells_pointer f c t : tells (onPointer (modify f)) tt c t (with_pointer f c) [].
Proof. intros p l o k cl h Hk. cbn. now rewrite app_nil_r. Qed.

Lemma tells_get_life {B} (j : lc -> M W B) b c t c' ms :
  tells (j (c_life c)) b c t c' ms -> tells (bind (onLc get) j) b c t c' ms.
Proof. intros Hj p l o k cl h Hk. rewrite crun_life_get. now apply Hj. Qed.

Lemma tells_get_pointer {B} (j : pointer -> M W B) b c t c' ms :
  tells (j (c_pointer c)) b c t c' ms -> tells (bind thePointer j) b c t c' ms.
Proof. intros Hj p l o k cl h Hk. unfold thePointer. rewrite crun_pointer_get. now apply Hj. Qed.


Lemma tells_desktop f c t : tells (onDesktop (modify f)) tt c t (with_desktop f c) [].
Proof. intros p l o k cl h Hk. cbn. now rewrite app_nil_r. Qed.

Lemma tells_get_desktop {B} (j : desktop -> M W B) b c t c' ms :
  tells (j (c_desktop c)) b c t c' ms -> tells (bind theDesktop j) b c t c' ms.
Proof. intros Hj p l o k cl h Hk. unfold theDesktop. rewrite crun_desktop_get. now apply Hj. Qed.

Lemma tells_get_options {B} (j : options -> M W B) b c t c' ms :
  tells (j (c_options c)) b c t c' ms -> tells (bind theOptions j) b c t c' ms.
Proof. intros Hj p l o k cl h Hk. unfold theOptions. rewrite crun_options_get. now apply Hj. Qed.

Lemma tells_call ca c t : Messages.call_ok ca -> zlen (Messages.encode (Messages.msg_of ca)) <= 12 ->
  tells (onSock (Messages.run_call ca)) tt c t c [Messages.msg_of ca].
Proof.
  intros Hok Hl p l o k cl h Hk. cbn [flat_map]. rewrite app_nil_r. apply crun_call_last; [exact Hok|lia].
Qed.

(** ** Keys *)

(** A key event as a message: with a scan code where the server takes one; a
    keysym of 0 is none. *)
Definition key_msg (qemu : bool) (e : Z * string * bool) : list Messages.cmsg :=
  let '(keysym, code, down) := e in
  let scancode := match XtScancode_of code with Some s => s | None => 0 end in
  if qemu && negb (scancode =? 0) then [Messages.QEMUKeyEvent (Z.b2z down) keysym (Messages.rfb_keycode scancode)]
  else if keysym =? 0 then [] else [Messages.KeyEvent (Z.b2z down) keysym].

Lemma scancode_range code s : XtScancode_of code = Some s -> 0 <= s < 65536.
Proof.
  unfold XtScancode_of, lookup_by. destruct (find _ _) as [[n v]|] eqn:E; [|discriminate].
  intros [= <-]. apply find_some in E as [E _].
  assert (A : forallb (fun e => (0 <=? snd e) && (snd e <? 65536)) XtScancode = true) by (vm_compute; reflexivity).
  rewrite forallb_forall in A. specialize (A _ E). cbn [snd] in *. bool_prop. lia.
Qed.

Lemma key_tells keysym code down c t : can_send (c_life c) (c_options c) = true -> 0 <= keysym < 4294967296 ->
  tells (sendKey keysym code down) tt c t c (key_msg (_qemuExtKeyEventSupported (c_desktop c)) (keysym, code, down)).
Proof.
  intros Hs Hk. unfold sendKey. apply tells_get_life, tells_get_options. rewrite Hs. cbn [negb].
  apply tells_get_desktop. cbv zeta. unfold key_msg.
  set (sc := match XtScancode_of code with Some s => s | None => 0 end).
  assert (Hsc : 0 <= sc < 65536)
    by (subst sc; destruct (XtScancode_of code) eqn:E; [exact (scancode_range _ _ E)|lia]).
  case_if; [|case_if; [apply tells_ret|]].
  - rewrite qemuKey_call. apply (tells_call (Messages.CQemuKey keysym down sc)).
    + cbn [Messages.call_ok]. unfold Messages.b32. auto.
    + cbn [Messages.msg_of Messages.encode]. unfold Messages.u32, Messages.u16. rewrite !zlen_app, !zlen_be_bytes. cbn. lia.
  - rewrite keyEvent_call. apply (tells_call (Messages.CKey keysym down)).
    + cbn [Messages.call_ok Messages.msg_of Messages.msg_ok]. unfold Messages.b32, Messages.b8. destruct down; cbn; lia.
    + cbn [Messages.msg_of Messages.encode]. unfold Messages.u32, Messages.u8. rewrite !zlen_app, !zlen_be_bytes. cbn. lia.
Qed.

(** A lock that is known to differ is pressed first; a key press of the lock
    itself, or such a correction, makes its remote state unknown. *)
Definition lock_fix (down self : bool) (remote : option bool) (local : lock) : bool :=
  down && negb self && sync_lock remote local.

Definition lock_press (fix_ : bool) (keysym : Z) (code : string) : list (Z * string * bool) :=
  if fix_ then [(keysym, code, true); (keysym, code, false)] else [].

Definition lock_after (down self : bool) (remote : option bool) (local : lock) : option bool :=
  if down && (self || sync_lock remote local) then None else remote.


(** The two steps for one lock, for any field of the desktop. *)
Lemma lock_tells (get_ : desktop -> option bool) (set_ : option bool -> desktop -> desktop)
    keysym name self down local c t :
  (forall v d, get_ (set_ v d) = v) -> (forall d, set_ (get_ d) d = d) -> (forall v v' d, set_ v (set_ v' d) = set_ v d) ->
  (forall v d, _qemuExtKeyEventSupported (set_ v d) = _qemuExtKeyEventSupported d) ->
  can_send (c_life c) (c_options c) = true -> 0 <= keysym < 4294967296 ->
  forall B (j : M W B) b c' ms,
  tells j b (with_desktop (set_ (lock_after down self (get_ (c_desktop c)) local)) c) t c' ms ->
  tells ((if self && down then onDesktop (modify (set_ None)) else ret tt) ;;
         d <- theDesktop ;;
         (if sync_lock (get_ d) local && down then
            sendKey keysym name true ;; sendKey keysym name false ;; onDesktop (modify (set_ None))
          else ret tt) ;; j) b c t c'
    (flat_map (key_msg (_qemuExtKeyEventSupported (c_desktop c)))
       (lock_press (lock_fix down self (get_ (c_desktop c)) local) keysym name) ++ ms).
Proof.
  intros G1 G2 G3 G4 Hs Hk B j b c' ms Hj. unfold lock_after, lock_fix, lock_press in *.
  set (q := _qemuExtKeyEventSupported (c_desktop c)) in *.
  assert (E0 : with_desktop (set_ (get_ (c_desktop c))) c = c) by (destruct c; unfold with_desktop; cbn; now rewrite G2).
  destruct down; rewrite ?andb_false_r, ?andb_true_r in *; cbn [andb] in *.
  2:{ cbn [flat_map app]. rewrite <- (app_nil_l ms). refine (tells_bind _ _ tt b _ _ _ _ [] _ (tells_ret _ _ _) _).
      apply tells_get_desktop. rewrite andb_false_r. rewrite E0 in Hj. exact Hj. }
  destruct self; cbn [orb negb andb flat_map app] in *.
  - rewrite <- (app_nil_l ms). refine (tells_bind _ _ tt b _ _ _ _ [] _ (tells_desktop _ _ _) _).
    apply tells_get_desktop. cbn [with_desktop c_desktop]. rewrite G1. exact Hj.
  - rewrite <- (app_nil_l (_ ++ ms)). refine (tells_bind _ _ tt b _ _ _ _ [] _ (tells_ret _ _ _) _).
    apply tells_get_desktop. rewrite andb_true_r. destruct (sync_lock (get_ (c_desktop c)) local) eqn:E.
    + refine (tells_bind _ _ tt b _ _ _ _ _ ms _ Hj). cbn [flat_map]. rewrite app_nil_r.
      refine (tells_bind _ _ tt tt _ _ _ _ _ _ (key_tells _ _ _ _ _ Hs Hk) _).
      rewrite <- (app_nil_r (key_msg q (keysym, name, false))).
      exact (tells_bind _ _ tt tt _ _ _ _ _ _ (key_tells _ _ _ _ _ Hs Hk) (tells_desktop _ _ _)).
    + rewrite E0 in Hj. exact Hj.
Qed.

(** A key event of the keyboard: if the server's CapsLock or NumLock is
    known to differ from the local one, a press and a release of that key go
    out before the press itself, each only once until the server reports the
    lock again; then the key goes out, by its scan code where the server takes
    one and by its keysym otherwise. *)
Theorem key_event_sent keysym code down numlock capslock c t p l o k cl h :
  can_send (c_life c) (c_options c) = true -> 0 <= keysym < 4294967296 -> 12 <= k ->
  let d := c_desktop c in
  let caps := String.eqb code "CapsLock" in
  let num := String.eqb code "NumLock" in
  let keys :=
    lock_press (lock_fix down caps (_remoteCapsLock d) capslock) XK_Caps_Lock "CapsLock" ++
    lock_press (lock_fix down num (_remoteNumLock d) numlock) XK_Num_Lock "NumLock" ++
    [(keysym, code, down)] in
  _handleKeyEvent keysym code down numlock capslock (at_ c p l o k cl h t) =
  (Ret tt, at_ (with_desktop (fun d =>
      set_remoteNumLock (lock_after down num (_remoteNumLock d) numlock)
        (set_remoteCapsLock (lock_after down caps (_remoteCapsLock d) capslock) d)) c) p l
     (o ++ flat_map Messages.encode (flat_map (key_msg (_qemuExtKeyEventSupported d)) keys)) k cl h t).
Proof.
  intros Hs Hk Hcap d caps num keys.
  enough (T : tells (_handleKeyEvent keysym code down numlock capslock) tt c t
    (with_desktop (fun d => set_remoteNumLock (lock_after down num (_remoteNumLock d) numlock)
       (set_remoteCapsLock (lock_after down caps (_remoteCapsLock d) capslock) d)) c)
    (flat_map (key_msg (_qemuExtKeyEventSupported d)) keys)) by (now apply T).
  subst keys. rewrite !flat_map_app. unfold _handleKeyEvent. fold caps num.
  refine (lock_tells _remoteCapsLock set_remoteCapsLock XK_Caps_Lock "CapsLock" caps down capslock c t
    _ _ _ _ Hs _ unit _ tt _ _ _);
    [reflexivity|now intros []|reflexivity|reflexivity|unfold XK_Caps_Lock; lia|].
  set (c1 := with_desktop (set_remoteCapsLock (lock_after down caps (_remoteCapsLock (c_desktop c)) capslock)) c).
  assert (Hs1 : can_send (c_life c1) (c_options c1) = true) by exact Hs.
  refine (lock_tells _remoteNumLock set_remoteNumLock XK_Num_Lock "NumLock" num down numlock c1 t
    _ _ _ _ Hs1 _ unit _ tt _ _ _);
    [reflexivity|now intros []|reflexivity|reflexivity|unfold XK_Num_Lock; lia|].
  cbn [flat_map]. rewrite app_nil_r. apply (key_tells keysym code down); assumption.
Qed.
End Tells.

(** * The mouse *)

Section Pointing.
Context {Dc D : Type} `{ScreenOk D}.
Variables (th : Q) (bounds : rect).
Abbreviation W := (world (client Dc) asock D).
Abbreviation at_ c p l o k cl h t := (World c (ASock (ASrc p l) (ASink o 0 k) cl h) t).
Implicit Types (c : client Dc) (p l o : list Z) (t : D).

(** A position that a pointer message can hold. *)
Definition on_screen t (x y : Q) : Prop := 0 <= d_absX t x < 65536 /\ 0 <= d_absY t y < 65536.

(** Ready to send mouse messages, with the buttons [m] down. *)
Record pointing c t (m : Z) : Prop := {
  pt_send : can_send (c_life c) (c_options c) = true;
  pt_drag : dragViewport (c_pointer c) = false;
  pt_dragging : _viewportDragging (c_pointer c) = false;
  pt_mask : _mouseButtonMask (c_pointer c) = m;
  pt_pos : match _mousePos (c_pointer c) with Some (x, y) => on_screen t x y | None => True end
}.

Lemma tells_send c t mask x y : can_send (c_life c) (c_options c) = true ->
  0 <= x < 65536 -> 0 <= y < 65536 -> 0 <= mask < 256 ->
  tells (sendPointer x y mask) tt c t c [Messages.PointerEvent mask x y].
Proof.
  intros Hs Hx Hy Hm p l o k cl h Hk. unfold sendPointer, theOptions. rewrite crun_life_get, crun_options_get.
  unfold can_send in Hs. apply andb_prop in Hs as [-> Hs]. apply negb_true_iff in Hs as ->. cbn [negb].
  rewrite pointerEvent_call. cbn [flat_map]. rewrite app_nil_r. apply (crun_call_last (Messages.CPointer x y mask)).
  - cbn [Messages.call_ok Messages.msg_of Messages.msg_ok]. unfold Messages.b8, Messages.b16. auto.
  - cbn [Messages.msg_of Messages.encode]. unfold Messages.u8, Messages.u16. rewrite !zlen_app, !zlen_be_bytes. cbn. lia.
Qed.

Lemma tells_mouse c t mask x y : can_send (c_life c) (c_options c) = true -> on_screen t x y -> 0 <= mask < 256 ->
  tells (_sendMouse x y mask) tt c t c [Messages.PointerEvent mask (d_absX t x) (d_absY t y)].
Proof. intros Hs [Hx Hy] Hm p l o k cl h Hk. exact (tells_send c t mask _ _ Hs Hx Hy Hm p l o k cl h Hk). Qed.

(** The buttons as the server knows them after [msgs]. *)
Definition seen (m : Z) (msgs : list Messages.cmsg) : Z :=
  fold_left (fun m msg => match msg with Messages.PointerEvent mask _ _ => mask | _ => m end) msgs m.

(** The buttons that are down, from the events. *)
Definition mask_after (m : Z) (i : input) : Z :=
  match i with
  | IMouse _ ev =>
      match m_type ev with
      | MouseDown => Z.lor m (2 ^ m_button ev)
      | MouseUp => Z.ldiff m (2 ^ m_button ev)
      | _ => m
      end
  | _ => m
  end.

(** Events of a mouse with eight buttons, over the screen. *)
Definition mouse_ok t (i : input) : Prop :=
  match i with
  | IMouse _ ev =>
      0 <= m_button ev < 8 /\
      on_screen t (fst (clientToElement (m_clientX ev) (m_clientY ev) bounds))
        (snd (clientToElement (m_clientX ev) (m_clientY ev) bounds))
  | IDelayedMove _ => True
  | _ => False
  end.

(** What the code computes with its 32-bit operators. *)
Lemma mask_bits m b : 0 <= m < 256 -> 0 <= b < 8 ->
  (m .| (1 << b))%js = Z.lor m (2 ^ b) /\ (m & bnot (1 << b))%js = Z.ldiff m (2 ^ b) /\
  0 <= Z.lor m (2 ^ b) < 256 /\ 0 <= Z.ldiff m (2 ^ b) < 256.
Proof.
  assert (E : forallb (fun m => forallb (fun b =>
      let m := Z.of_nat m in let b := Z.of_nat b in
      ((m .| (1 << b))%js =? Z.lor m (2 ^ b)) && ((m & bnot (1 << b))%js =? Z.ldiff m (2 ^ b)) &&
      (0 <=? Z.lor m (2 ^ b)) && (Z.lor m (2 ^ b) <? 256) && (0 <=? Z.ldiff m (2 ^ b)) && (Z.ldiff m (2 ^ b) <? 256))
      (seq 0 8)) (seq 0 256) = true) by (vm_compute; reflexivity).
  intros Hm Hb. rewrite forallb_forall in E. specialize (E (Z.to_nat m) ltac:(apply in_seq; lia)).
  rewrite forallb_forall in E. specialize (E (Z.to_nat b) ltac:(apply in_seq; lia)).
  cbv zeta in E. rewrite !Z2Nat.id in E by lia. bool_prop. auto 6.
Qed.

Lemma press_tells c t (m : Z) (x y : Q) (down : bool) (b : Z) : pointing c t m -> 0 <= m < 256 -> 0 <= b < 8 -> on_screen t x y ->
  let m' := if down then Z.lor m (2 ^ b) else Z.ldiff m (2 ^ b) in
  exists c' (ms : list Messages.cmsg), tells (_handleMouseButton x y down (1 << b)%js) tt c t c' ms /\ pointing c' t m' /\ seen m ms = m'.
Proof.
  intros [Hs Hd Hg Hm Hpos] Hr Hb Hxy m'. destruct (mask_bits m b Hr Hb) as (E1 & E2 & R1 & R2).
  set (ms1 := if _mouseMoveTimer (c_life c) then [Messages.PointerEvent m (d_absX t x) (d_absY t y)] else []).
  set (c1 := if _mouseMoveTimer (c_life c) then with_life (set_mouseMoveTimer false) c else c).
  exists (with_pointer (set_mouseButtonMask m') c1), (ms1 ++ [Messages.PointerEvent m' (d_absX t x) (d_absY t y)]).
  assert (Hc1 : c_pointer c1 = c_pointer c /\ c_options c1 = c_options c /\
    can_send (c_life c1) (c_options c1) = can_send (c_life c) (c_options c))
    by (subst c1; destruct (_mouseMoveTimer (c_life c)); auto).
  destruct Hc1 as (P1 & O1 & S1).
  assert (Em : (if down then _mouseButtonMask (c_pointer c1) .| (1 << b) else _mouseButtonMask (c_pointer c1) & bnot (1 << b))%js = m')
    by (rewrite P1, Hm; subst m'; now destruct down).
  split; [|split].
  - unfold _handleMouseButton. apply tells_get_pointer. rewrite Hd. unfold press. apply tells_get_life.
    apply tells_get_pointer. refine (tells_bind _ _ tt tt c c1 _ t ms1 _ _ _).
    + subst c1 ms1. destruct (_mouseMoveTimer (c_life c)); [|apply tells_ret].
      refine (tells_bind _ _ tt tt _ _ _ _ [] _ (tells_life _ _ _) _). rewrite Hm. now apply tells_mouse.
    + refine (tells_bind _ _ tt tt _ (with_pointer (set_mouseButtonMask m') c1) _ _ [] _ _ _).
      * intros p l o k cl h Hk. cbn [flat_map]. rewrite app_nil_r, <- Em. reflexivity.
      * apply tells_get_pointer. cbn [with_pointer c_pointer set_mouseButtonMask _mouseButtonMask].
        apply tells_mouse; [cbn [with_pointer c_life c_options]; now rewrite S1|exact Hxy|subst m'; now destruct down].
  - constructor; cbn; rewrite ?P1; auto. now rewrite S1.
  - subst ms1. destruct (_mouseMoveTimer (c_life c)); reflexivity.
Qed.

Lemma move_tells c t (m now : Z) (x y : Q) : pointing c t m -> 0 <= m < 256 -> on_screen t x y ->
  exists c' (ms : list Messages.cmsg), tells (_handleMouseMove th now x y) tt c t c' ms /\ pointing c' t m /\ seen m ms = m.
Proof.
  intros [Hs Hd Hg Hm Hpos] Hr Hxy.
  set (c1 := with_pointer (set_mousePos (Some (x, y))) c).
  assert (Hc1 : forall f, (forall q, dragViewport (f q) = dragViewport q /\ _viewportDragging (f q) = _viewportDragging q /\
      _mouseButtonMask (f q) = _mouseButtonMask q /\ _mousePos (f q) = _mousePos q) ->
    pointing (with_pointer f c1) t m).
  { intros f Hf. destruct (Hf (c_pointer c1)) as (F1 & F2 & F3 & F4).
    constructor; cbn [with_pointer c_pointer c_life c_options]; rewrite ?F1, ?F2, ?F3, ?F4; auto. }
  assert (Hstart : forall c' ms, tells (l <- onLc get ;; if _mouseMoveTimer l then ret tt
      else if MOUSE_MOVE_DELAY <? now - _mouseLastMoveTime (c_pointer c) then
        _sendMouse x y (_mouseButtonMask (c_pointer c)) ;; onPointer (modify (set_mouseLastMoveTime now))
      else onLc (modify (set_mouseMoveTimer true))) tt c1 t c' ms ->
    tells (_handleMouseMove th now x y) tt c t c' ms).
  { intros c' ms Ht. unfold _handleMouseMove. apply tells_get_pointer. rewrite Hg.
    exact (tells_bind _ _ tt tt _ _ _ _ [] _ (tells_pointer _ _ _) Ht). }
  destruct (_mouseMoveTimer (c_life c)) eqn:Et.
  - exists c1, []. split; [|split; [exact (Hc1 (fun q => q) ltac:(auto))|reflexivity]].
    apply Hstart, tells_get_life. cbn [c1 with_pointer c_life]. rewrite Et. apply tells_ret.
  - destruct (MOUSE_MOVE_DELAY <? now - _mouseLastMoveTime (c_pointer c)) eqn:El.
    + exists (with_pointer (set_mouseLastMoveTime now) c1), [Messages.PointerEvent m (d_absX t x) (d_absY t y)].
      split; [|split; [apply Hc1; auto|reflexivity]].
      apply Hstart, tells_get_life. cbn [c1 with_pointer c_life]. rewrite Et, Hm.
      refine (tells_bind _ _ tt tt _ _ _ _ [_] [] _ (tells_pointer _ _ _)). now apply tells_mouse.
    + exists (with_life (set_mouseMoveTimer true) c1), []. split; [|split; [|reflexivity]].
      * apply Hstart, tells_get_life. cbn [c1 with_pointer c_life]. rewrite Et. apply tells_life.
      * destruct (Hc1 (fun q => q) ltac:(auto)). constructor; auto.
Qed.

Lemma input_tells (hypot : Q -> Q -> Q) c t m i : pointing c t m -> 0 <= m < 256 -> mouse_ok t i ->
  exists c' (ms : list Messages.cmsg), tells (perform hypot th bounds i) tt c t c' ms /\
    pointing c' t (mask_after m i) /\ seen m ms = mask_after m i.
Proof.
  intros Hp Hr Hi. destruct i as [| | | | |now ev|now| |]; try contradiction; cbn [perform mask_after mouse_ok] in *.
  - destruct Hi as [Hb Hxy]. unfold _handleMouse.
    destruct (clientToElement (m_clientX ev) (m_clientY ev) bounds) as [x y]. cbn [fst snd] in Hxy.
    destruct (m_type ev).
    1, 2: exists c, []; repeat split; auto using tells_ret; apply Hp.
    + exact (press_tells c t m x y true _ Hp Hr Hb Hxy).
    + exact (press_tells c t m x y false _ Hp Hr Hb Hxy).
    + exact (move_tells c t m now x y Hp Hr Hxy).
  - pose proof Hp as [Hs Hd Hg Hm Hpos]. unfold _handleDelayedMouseMove.
    set (c1 := with_life (set_mouseMoveTimer false) c).
    assert (Hg1 : exists ms, tells (p <- thePointer ;;
        match _mousePos p with Some (x, y) => _sendMouse x y (_mouseButtonMask p) | None => sendPointer 0 0 (_mouseButtonMask p) end) tt
        c1 t c1 ms /\ seen m ms = m).
    { destruct (_mousePos (c_pointer c)) as [[x y]|] eqn:Ep.
      - exists [Messages.PointerEvent m (d_absX t x) (d_absY t y)]. split; [|reflexivity].
        apply tells_get_pointer. cbn [c1 with_life c_pointer]. rewrite Ep, Hm. now apply tells_mouse.
      - exists [Messages.PointerEvent m 0 0]. split; [|reflexivity].
        apply tells_get_pointer. cbn [c1 with_life c_pointer]. rewrite Ep, Hm. now apply tells_send. }
    destruct Hg1 as (ms & Ht & Hseen). exists (with_pointer (set_mouseLastMoveTime now) c1), ms.
    split; [|split; [|exact Hseen]].
    + rewrite <- (app_nil_l ms). refine (tells_bind _ _ tt tt _ _ _ _ _ _ (tells_life _ _ _) _).
      intros p l o k cl h Hk. rewrite <- bind_assoc_run.
      rewrite (bind_run _ _ _ _ _ (Ht p l o k cl h Hk)). reflexivity.
    + destruct Hp. constructor; auto.
Qed.

Lemma mask_range t m i : 0 <= m < 256 -> mouse_ok t i -> 0 <= mask_after m i < 256.
Proof.
  intros Hr Hi. destruct i as [| | | | |now ev|now| |]; try contradiction; [|exact Hr].
  destruct (mask_bits m (m_button ev) Hr (proj1 Hi)) as (_ & _ & R1 & R2). cbn [mask_after]. now destruct (m_type ev).
Qed.

(** C29.  The buttons of the mouse: over any sequence of mouse events and of
    timers for delayed moves, the pointer messages sent always leave the server
    with exactly the buttons that are down, whether moves are sent at once, held
    back, or overtaken by a click. *)
Theorem buttons_reported (hypot : Q -> Q -> Q) c t (evs : list input) p l o k cl h :
  pointing c t 0 -> Forall (mouse_ok t) evs -> 12 <= k ->
  let w' := fold_left (fun w i => snd (perform hypot th bounds i w)) evs (at_ c p l o k cl h t) in
  exists c' msgs, w' = at_ c' p l (o ++ flat_map Messages.encode msgs) k cl h t /\
    seen 0 msgs = fold_left mask_after evs 0.
Proof.
  intros Hp Hev Hk. cbv zeta.
  assert (Hg : forall m c o, pointing c t m -> 0 <= m < 256 -> exists c' msgs,
    fold_left (fun w i => snd (perform hypot th bounds i w)) evs (at_ c p l o k cl h t) =
    at_ c' p l (o ++ flat_map Messages.encode msgs) k cl h t /\ seen m msgs = fold_left mask_after evs m).
  { clear Hp c o. induction Hev as [|i evs Hi Hev IH]; intros m c o Hp Hr; cbn [fold_left].
    - exists c, []. cbn [flat_map]. now rewrite app_nil_r.
    - destruct (input_tells hypot c t m i Hp Hr Hi) as (c1 & ms & Ht & Hp1 & Hs1). rewrite (Ht p l o k cl h Hk). cbn [snd].
      destruct (IH _ c1 (o ++ flat_map Messages.encode ms) Hp1 (mask_range t m i Hr Hi)) as (c2 & ms2 & E & Hs2).
      exists c2, (ms ++ ms2). rewrite E, flat_map_app, app_assoc. split; [reflexivity|].
      unfold seen in *. now rewrite fold_left_app, Hs1. }
  exact (Hg 0 c o Hp ltac:(lia)).
Qed.
End Pointing.

(** * The theorems at work *)

(** A distance good enough to try things. *)
Definition manhattan (x y : Q) : Q := (Qabs x + Qabs y)%Q.
Definition demo_rect : rect := Rect 0 100 0 100 100 100.
Definition at_button (ty : mouse_type) (b : Z) : input := IMouse 50 (MouseEvent ty 10 20 b).

Lemma viewer_sends_nothing_witness :
  let start := demo_at demo_client [] in
  sock (fold_left (fun w i => snd (perform manhattan 10 demo_rect i w))
    [IKey 97 "KeyA" true; at_button MouseDown 0; IPaste [104; 105]; IGesture 60 GestureStart (Gesture OneTap 5 5 0 0)] start) =
  sock start.
Proof. exact (viewer_sends_nothing manhattan 10 demo_rect _ (demo_at demo_client []) eq_refl). Defined.

Lemma buttons_reported_witness : exists c' msgs,
  fold_left (fun w i => snd (perform manhattan 10 demo_rect i w))
    [at_button MouseDown 0; at_button MouseMove 0; at_button MouseDown 2; IDelayedMove 70; at_button MouseUp 0]
    (demo_at online []) =
  World c' (ASock (ASrc [] []) (ASink (flat_map Messages.encode msgs) 0 200) false no_handlers) demo_panel /\
  seen 0 msgs = 4.
Proof.
  apply (buttons_reported 10 demo_rect manhattan online demo_panel
    [at_button MouseDown 0; at_button MouseMove 0; at_button MouseDown 2; IDelayedMove 70; at_button MouseUp 0]
    [] [] [] 200 false no_handlers).
  - constructor; reflexivity || exact I.
  - repeat constructor; cbn; vm_compute; intuition discriminate.
  - lia.
Defined.

Lemma key_event_sent_witness : exists c',
  _handleKeyEvent 97 "KeyA" true LockNull (Lock true)
    (demo_at (with_desktop (set_remoteCapsLock (Some false)) online) []) =
  (Ret tt, World c' (ASock (ASrc [] [])
     (ASink (flat_map Messages.encode
        [Messages.KeyEvent 1 XK_Caps_Lock; Messages.KeyEvent 0 XK_Caps_Lock; Messages.KeyEvent 1 97]) 0 200)
     false no_handlers) demo_panel).
Proof.
  eexists.
  apply (key_event_sent 97 "KeyA" true LockNull (Lock true) (with_desktop (set_remoteCapsLock (Some false)) online)
    demo_panel [] [] [] 200 false no_handlers); [reflexivity|lia|lia].
Defined.

(** Zooming with two fingers leaves the state of the locks out, which counts as
    different from any known state: once the server has told its locks, the
    first step of a pinch presses CapsLock and NumLock. *)
Lemma pinch_toggles_locks : exists c',
  _handleGesture manhattan 10 demo_rect 1000 GestureMove (Gesture Pinch 50 50 100 0)
    (demo_at (with_desktop (fun d => set_remoteNumLock (Some false) (set_remoteCapsLock (Some false) d)) online) []) =
  (Ret tt, World c' (ASock (ASrc [] [])
     (ASink (flat_map Messages.encode
        ([Messages.PointerEvent 0 50 50;
          Messages.KeyEvent 1 XK_Caps_Lock; Messages.KeyEvent 0 XK_Caps_Lock;
          Messages.KeyEvent 1 XK_Num_Lock; Messages.KeyEvent 0 XK_Num_Lock;
          Messages.KeyEvent 1 XK_Control_L;
          Messages.PointerEvent 8 50 50; Messages.PointerEvent 0 50 50;
          Messages.KeyEvent 0 XK_Control_L])) 0 200)
     false no_handlers) demo_panel).
Proof. eexists. vm_compute. reflexivity. Qed.
