(* ===== verification/GestureCorrect.v ===== *)
(** Theorems on the gesture recogniser: whatever the fingers and the timers do,
    it does not throw, and the events it gives the client start before they move
    and end. *)

From Stdlib Require Import ZArith List Lia Bool String QArith Qround Qabs.
From S2P Require Import Prelude Source Sink Websock Display Decoder Messages Lifecycle Rfb Handshake Inflator Keytables Session Pointer GestureHandler.
Import ListNotations JS JSFacts.
Import Rfb.Rfb Pointer.Pointer GestureHandler.GestureHandler.
Open Scope Z_scope.
Open Scope code_scope.

(** * What can happen *)

Inductive happening :=
| Touched (e : touch_event)
| LongpressFires
| TwoTouchFires.

Definition fingers_after (fingers : list Z) (e : happening) : list Z :=
  match e with
  | Touched (TouchStart _ id _ _) => id :: fingers
  | Touched (TouchEnd _ id _ _) => remove Z.eq_dec id fingers
  | _ => fingers
  end.

Section Recognised.
Variables (hypot : Q -> Q -> Q) (atan2 : Q -> Q -> Q).

(** Whether fingers may move while others of a gesture not yet recognised are
    lifted; then a two-finger gesture may be started twice. *)
Variable restless : bool.

(** A finger comes down where none is, moves and leaves while it is down; a
    timer fires when it was started and not stopped.  Times are arbitrary. *)
Definition possible (fingers : list Z) (h : handler) (e : happening) : Prop :=
  match e with
  | Touched (TouchStart _ id _ _) => ~ In id fingers
  | Touched (TouchMove _ id _ _) => In id fingers /\ (restless = false -> _waitingRelease h = false)
  | Touched (TouchEnd _ id _ _) => In id fingers
  | LongpressFires => longpress_pending h = true
  | TwoTouchFires => twoTouch_pending h = true
  end.

Definition handle (e : happening) : M handler unit :=
  match e with
  | Touched e => _eventHandler hypot atan2 e
  | LongpressFires => _longpressTimeout
  | TwoTouchFires => _twoTouchTimeout hypot
  end.

(** The fingers down and the recogniser, after some happenings. *)
Inductive reached : list Z -> handler -> Prop :=
| reached_first : reached [] constructor
| reached_next fingers h e h' : reached fingers h -> possible fingers h e ->
    handle e h = (Ret tt, h') -> reached (fingers_after fingers e) h'.

(** * The stream of events *)

(** Two fingers moving: no mouse button is held down meanwhile. *)
Definition two_fingers (g : gesture_type) : bool := match g with TwoDrag | Pinch => true | _ => false end.

(** The gesture under way; [None] when an event does not fit: a gesture starts
    when none is under way, moves and ends.  Only restless fingers start a
    gesture when one of two fingers is. *)
Definition follow (open : option gesture_type) (e : gesture_phase * gesture) : option (option gesture_type) :=
  let g := g_type (snd e) in
  match fst e, open with
  | GestureStart, None => Some (Some g)
  | GestureStart, Some o => if restless && two_fingers o then Some (Some g) else None
  | GestureMove, Some o => if gesture_eqb o g then Some (Some g) else None
  | GestureEnd, Some o => if gesture_eqb o g then Some None else None
  | _, None => None
  end.

Definition followed (l : list (gesture_phase * gesture)) : option (option gesture_type) :=
  fold_left (fun o e => match o with Some o => follow o e | None => None end) l (Some None).

Lemma followed_app l e o : followed l = Some o -> followed (l ++ [e]) = follow o e.
Proof. intros E. unfold followed in *. rewrite fold_left_app, E. reflexivity. Qed.

Lemma gesture_eqb_refl g : gesture_eqb g g = true.
Proof. destruct g; reflexivity. Qed.

Lemma followed_start l g e : followed l = Some None \/ restless = true /\ (followed l = Some (Some TwoDrag) \/ followed l = Some (Some Pinch)) ->
  g_type e = g -> followed (l ++ [(GestureStart, e)]) = Some (Some g).
Proof. intros [E|[Hr [E|E]]] <-; rewrite (followed_app _ _ _ E); cbn; rewrite ?Hr; reflexivity. Qed.

Lemma followed_move l g e : followed l = Some (Some g) -> g_type e = g ->
  followed (l ++ [(GestureMove, e)]) = Some (Some g).
Proof. intros E <-. rewrite (followed_app _ _ _ E). cbn. now rewrite gesture_eqb_refl. Qed.

Lemma followed_end l g e : followed l = Some (Some g) -> g_type e = g ->
  followed (l ++ [(GestureEnd, e)]) = Some None.
Proof. intros E <-. rewrite (followed_app _ _ _ E). cbn. now rewrite gesture_eqb_refl. Qed.

(** Nothing that holds a button is under way. *)
Definition loose (l : list (gesture_phase * gesture)) : Prop :=
  followed l = Some None \/ restless = true /\ (followed l = Some (Some TwoDrag) \/ followed l = Some (Some Pinch)).

(** * The invariant *)

(** A recognised gesture in the stream, or nothing. *)
Definition under_way (st : Z) (l : list (gesture_phase * gesture)) : Prop :=
  match _stateToGesture st with
  | Ret (OneTap | TwoTap | ThreeTap) => loose l
  | Ret g => followed l = Some (Some g)
  | _ => loose l
  end.

(** The values of the state while there are tracked touches. *)
Definition shaped (h : handler) : Prop :=
  let n := zlen (_tracked h) in
  let w := _waitingRelease h in
  In (_state h) [GH_NOGESTURE; GH_TWODRAG; GH_PINCH; GH_THREETAP] \/
  _state h = GH_TWOTAP /\ w = true \/
  In (_state h) [GH_DRAG; GH_LONGPRESS; 96] /\ w = false \/
  _state h = GH_INITSTATE /\ n = 1 /\ w = false \/
  _state h = 102 /\ n = 2 /\ w = false.

Record tracking (h : handler) : Prop := {
  k_active : existsb active (_tracked h) = true;
  k_all : _waitingRelease h = false -> forallb active (_tracked h) = true;
  k_shaped : shaped h;
  k_long : longpress_pending h = true -> In (_state h) [GH_INITSTATE; GH_NOGESTURE] /\ twoTouch_pending h = false /\ _waitingRelease h = false;
  k_two : twoTouch_pending h = true -> In (_state h) [GH_NOGESTURE; 96] /\ _twoTouchTimeoutId h = true;
  k_calm : restless = false -> _waitingRelease h = true -> In (_state h) [GH_NOGESTURE; GH_TWOTAP; GH_THREETAP] /\ twoTouch_pending h = false
}.

Record idle (h : handler) : Prop := {
  z_long : longpress_pending h = false;
  z_two : twoTouch_pending h = false;
  z_state : match _ignored h with
            | [] => _state h = GH_INITSTATE /\ _waitingRelease h = false
            | _ => _state h = GH_NOGESTURE
            end
}.

(** Every finger down is tracked or ignored. *)
Record counted (fingers : list Z) (h : handler) : Prop := {
  c_ids : NoDup (map t_id (_tracked h));
  c_ignored : NoDup (_ignored h);
  c_apart : forall t, In t (_tracked h) -> active t = true -> ~ In (t_id t) (_ignored h);
  c_down : forall id, In id fingers <->
    In id (_ignored h) \/ exists t, In t (_tracked h) /\ t_id t = id /\ active t = true
}.

Record sound (fingers : list Z) (h : handler) : Prop := {
  s_counted : counted fingers h;
  s_phase : match _tracked h with [] => idle h | _ => tracking h end;
  s_stream : under_way (_state h) (pushed h)
}.

Lemma sound_first : sound [] constructor.
Proof.
  split; [|split; [reflexivity | reflexivity | split; reflexivity]|left; reflexivity].
  split; [constructor | constructor | intros t [] |].
  intros id. split; [intros [] | intros [[]|(t & [] & _)]].
Qed.

(** Running a handler. *)
Lemma push_run p h g : _stateToGesture (_state h) = Ret g -> _tracked h <> [] ->
  exists e, g_type e = g /\ _pushEvent p h = (Ret tt, add_pushed (p, e) h).
Proof.
  intros Eg Et. unfold _pushEvent, bind, get, attempt, modify, ret. rewrite Eg.
  unfold _getPosition, _getAverageDistance, _getAverageMovement.
  destruct (_tracked h) as [|t l] eqn:El; [congruence|].
  destruct (_state h =? GH_PINCH), (_state h =? GH_TWODRAG), (phase_start p);
    eexists; apply and_comm; split; reflexivity.
Qed.

(** * Facts on the parts *)

Lemma sound_counted fingers h h' : sound fingers h -> _tracked h' = _tracked h -> _ignored h' = _ignored h ->
  counted fingers h'.
Proof. intros [[] _ _] Et Ei. split; rewrite ?Et, ?Ei; auto. Qed.

Definition recognised (st : Z) : bool :=
  match _stateToGesture st with Ret (Drag | LongPress | TwoDrag | Pinch) => true | _ => false end.

Lemma loose_of st l : recognised st = false -> under_way st l -> loose l.
Proof.
  unfold recognised, under_way. destruct (_stateToGesture st) as [[]|e|]; congruence || auto.
Qed.

Lemma under_loose st l : recognised st = false -> loose l -> under_way st l.
Proof.
  unfold recognised, under_way. destruct (_stateToGesture st) as [[]|e|]; congruence || auto.
Qed.

(** The values of the state, one goal each. *)
Ltac states H := unfold shaped in H; cbv zeta in H; cbn [In] in H; unfold GH_NOGESTURE, GH_TWODRAG, GH_PINCH, GH_THREETAP, GH_TWOTAP,
  GH_DRAG, GH_LONGPRESS, GH_INITSTATE in H;
  decompose [or and] H; clear H; try contradiction;
  repeat match goal with E : ?v = _state ?h |- _ => is_var h; symmetry in E end.

Lemma detected h : tracking h -> _hasDetectedGesture h = recognised (_state h).
Proof.
  intros [Ha _ Hs _ _ _]. unfold _hasDetectedGesture. rewrite Ha.
  states Hs; match goal with E : _state h = _ |- _ => rewrite E end; reflexivity.
Qed.

Lemma detected_idle h : idle h -> _hasDetectedGesture h = false.
Proof. intros [_ _ Hs]. unfold _hasDetectedGesture. destruct (_ignored h); [destruct Hs as [-> _]|rewrite Hs]; reflexivity. Qed.

Lemma tracking_none h : tracking h -> recognised (_state h) = false -> tracking (set_state GH_NOGESTURE h).
Proof.
  intros [] E. split; auto.
  - left. left. reflexivity.
  - intros Hl. split; [right; left; reflexivity | now apply k_long0].
  - intros Ht. split; [left; reflexivity | now apply k_two0].
  - intros Hr Hw. split; [left; reflexivity | now apply k_calm0].
Qed.

(** A finger that is left out. *)
Lemma counted_ignore fingers h id : counted fingers h -> ~ In id fingers ->
  counted (id :: fingers) (set_ignored (_ignored h ++ [id]) h).
Proof.
  intros [Hi Hg Ha Hd] Hn. assert (Hn' := Hn). rewrite Hd in Hn'. split; cbn [_tracked _ignored set_ignored]; auto.
  - apply NoDup_app; [auto | constructor; [tauto|constructor] |]. intros x Hx [<-|[]]. tauto.
  - intros t Ht Eta. rewrite in_app_iff. intros [Hx|[E|[]]]; [now apply (Ha t)|]. apply Hn'. right. exists t. auto.
  - intros i. rewrite in_app_iff. cbn [In]. rewrite Hd. tauto.
Qed.

Lemma sound_ignore fingers h id : sound fingers h -> ~ In id fingers ->
  (_tracked h = [] -> _state h = GH_NOGESTURE) -> sound (id :: fingers) (set_ignored (_ignored h ++ [id]) h).
Proof.
  intros [Hc Hp Hs] Hn Ht. split; [now apply counted_ignore | | exact Hs].
  cbn [_tracked set_ignored]. destruct (_tracked h) eqn:Et.
  - destruct Hp as [Hl Htw _]. split; auto. cbn. destruct (_ignored h); cbn; auto.
  - destruct Hp. split; auto.
Qed.

(** The invariant while touches are tracked. *)
Lemma sound_tracking fingers h : sound fingers h -> _tracked h <> [] -> tracking h.
Proof. intros [_ Hp _] Ht. destruct (_tracked h); [congruence|auto]. Qed.

Lemma sound_idle fingers h : sound fingers h -> _tracked h = [] -> idle h.
Proof. intros [_ Hp _] Ht. destruct (_tracked h); [auto|congruence]. Qed.

Lemma sound_of fingers h : counted fingers h -> _tracked h <> [] -> tracking h -> under_way (_state h) (pushed h) -> sound fingers h.
Proof. intros Hc Ht Hk Hu. split; auto. destruct (_tracked h); [congruence|auto]. Qed.

Lemma sound_loose fingers h : sound fingers h -> _hasDetectedGesture h = false -> loose (pushed h).
Proof.
  intros Hs Ed. assert (Hu := s_stream _ _ Hs). apply (loose_of _ _) with (2 := Hu).
  destruct (_tracked h) eqn:Et.
  - destruct (sound_idle _ _ Hs Et) as [_ _ Hz]. destruct (_ignored h); [destruct Hz as [-> _]|rewrite Hz]; reflexivity.
  - rewrite <- detected; auto. eapply sound_tracking; eauto. congruence.
Qed.

(** A touch comes to nothing. *)
Lemma sound_none fingers h : sound fingers h -> _tracked h <> [] -> _hasDetectedGesture h = false ->
  sound fingers (set_state GH_NOGESTURE h).
Proof.
  intros Hs Ht Ed. assert (Hk := sound_tracking _ _ Hs Ht). rewrite (detected _ Hk) in Ed. apply sound_of.
  - eapply sound_counted; eauto.
  - exact Ht.
  - now apply tracking_none.
  - apply (loose_of _ _ Ed). apply s_stream with (1 := Hs).
Qed.

(** [shaped] of a known state, and membership in a list of states. *)
Ltac member := vm_compute; tauto.
Ltac shape := unfold shaped; cbv zeta; cbn [_tracked _state _waitingRelease set_state set_longpress set_tracked clear];
  try match goal with E : _state _ = _ |- _ => rewrite E end;
  first [ left; member
        | right; left; split; [reflexivity | assumption]
        | right; right; left; split; [member | assumption]
        | right; right; right; left; split; [reflexivity | split; [reflexivity || lia | assumption]]
        | right; right; right; right; split; [reflexivity | split; [reflexivity || lia | assumption]] ].

(** * A touch starts *)

Lemma counted_track fingers h t : counted fingers h -> forallb active (_tracked h) = true ->
  ~ In (t_id t) fingers -> active t = true ->
  counted (t_id t :: fingers) (set_tracked (_tracked h ++ [t]) h).
Proof.
  intros [Hi Hg Ha Hd] Hall Hn Et. rewrite forallb_forall in Hall. assert (Hn' := Hn). rewrite Hd in Hn'.
  split; cbn [_tracked _ignored set_tracked]; auto.
  - rewrite map_app. apply NoDup_app; [auto | constructor; [intros []|constructor] |].
    intros i Hx [<-|[]]. apply in_map_iff in Hx. destruct Hx as (u & Eu & Hu). apply Hn'. right. exists u. auto.
  - intros u Hu Eu. apply in_app_iff in Hu. destruct Hu as [Hu|[<-|[]]]; auto.
  - intros i. cbn [In]. rewrite Hd. split.
    + intros [<-|[Hx|(u & Hu & Eu)]]; auto; right; [exists t | exists u]; rewrite in_app_iff; cbn; tauto.
    + intros [Hx|(u & Hu & Eu)]; auto. apply in_app_iff in Hu. destruct Hu as [Hu|[<-|[]]]; [right; right; eauto|tauto].
Qed.

Lemma existsb_last (l : list touch) t : active t = true -> existsb active (l ++ [t]) = true.
Proof. intros E. rewrite existsb_app. cbn. rewrite E, orb_true_r. reflexivity. Qed.

Lemma forallb_one (l : list touch) t : forallb active l = true -> active t = true -> forallb active (l ++ [t]) = true.
Proof. intros E1 E2. rewrite forallb_app. cbn. now rewrite E1, E2. Qed.

(** What one more touch leaves possible. *)
Definition joined (h : handler) : handler :=
  let n := zlen (_tracked h) in
  if n =? 1 then set_longpress true h
  else if n =? 2 then set_longpress false (clear (GH_ONETAP .| GH_DRAG .| GH_LONGPRESS)%js h)
  else if n =? 3 then clear (GH_TWOTAP .| GH_TWODRAG .| GH_PINCH)%js h
  else set_state GH_NOGESTURE h.

Lemma joined_tracking h t : _tracked h <> [] -> tracking h -> recognised (_state h) = false ->
  _waitingRelease h = false -> _state h <> GH_NOGESTURE -> active t = true ->
  tracking (joined (set_tracked (_tracked h ++ [t]) h)) /\ recognised (_state (joined (set_tracked (_tracked h ++ [t]) h))) = false.
Proof.
  intros Hne [Ha Hall Hs Hl Ht _] Er Ew Hst Et. specialize (Hall Ew).
  assert (Hn : 1 <= zlen (_tracked h)) by (destruct (_tracked h); [congruence|zlia]).
  unfold joined. cbn [_tracked set_tracked]. rewrite zlen_app. cbn [zlen length Z.of_nat].
  assert (E1 : existsb active (_tracked h ++ [t]) = true) by now apply existsb_last.
  assert (E2 : forallb active (_tracked h ++ [t]) = true) by now apply forallb_one.
  assert (E3 : zlen (_tracked h ++ [t]) = zlen (_tracked h) + 1) by (rewrite zlen_app; reflexivity).
  change (zlen [t]) with 1. destruct (Z.eqb_spec (zlen (_tracked h) + 1) 1); [lia|].
  destruct (Z.eqb_spec (zlen (_tracked h) + 1) 2) as [En|En]; [|destruct (Z.eqb_spec (zlen (_tracked h) + 1) 3) as [En3|En3]].
  all: split; [split|]; cbn [_tracked _state _waitingRelease longpress_pending twoTouch_pending _twoTouchTimeoutId
    set_state set_longpress set_tracked clear]; auto.
  all: states Hs; try congruence; try lia; match goal with E : _state ?v = _ |- _ => rewrite E in * end.
  all: try (exfalso; apply Hst; reflexivity); try (vm_compute in Er; discriminate); try reflexivity.
  all: try discriminate.
  all: try shape.
  all: try (intros Q; destruct (Hl Q) as [[|[|[]]] ?]; discriminate).
  all: try (intros Q; destruct (Ht Q) as [[|[|[]]] ?]; try discriminate; (split; [member | auto])).
Qed.

Lemma start_run now id (x y : Q) h : _touchStart now id x y h =
  (Ret tt,
   if _hasDetectedGesture h || (_state h =? GH_NOGESTURE) then set_ignored (_ignored h ++ [id]) h
   else if match _tracked h with t :: _ => GH_MULTITOUCH_TIMEOUT <? now - started t | [] => false end || _waitingRelease h
   then set_ignored (_ignored h ++ [id]) (set_state GH_NOGESTURE h)
   else joined (set_tracked (_tracked h ++ [Touch id now true x y x y 0%Q]) h)).
Proof.
  unfold _touchStart, ignore, bind, get, modify, joined.
  destruct (_hasDetectedGesture h || (_state h =? GH_NOGESTURE)); [reflexivity|].
  destruct (match _tracked h with t :: _ => GH_MULTITOUCH_TIMEOUT <? now - started t | [] => false end); [reflexivity|]. cbn [orb].
  destruct (_waitingRelease h); [reflexivity|]. cbn [_tracked set_tracked].
  destruct (_ =? 1); [reflexivity|]. destruct (_ =? 2); [reflexivity|]. destruct (_ =? 3); reflexivity.
Qed.

Lemma joined_same h : _tracked (joined h) = _tracked h /\ _ignored (joined h) = _ignored h /\ pushed (joined h) = pushed h.
Proof. unfold joined. destruct (zlen (_tracked h) =? 1), (zlen (_tracked h) =? 2), (zlen (_tracked h) =? 3); auto. Qed.

Lemma start_sound fingers h now id x y : sound fingers h -> ~ In id fingers ->
  exists h', _touchStart now id x y h = (Ret tt, h') /\ sound (id :: fingers) h'.
Proof.
  intros Hs Hn. rewrite start_run. eexists. split; [reflexivity|].
  destruct (_hasDetectedGesture h) eqn:Ed; cbn [orb].
  { apply sound_ignore; auto. intros Et. rewrite (detected_idle h) in Ed; [discriminate|]. eapply sound_idle; eauto. }
  destruct (Z.eqb_spec (_state h) GH_NOGESTURE) as [E0|E0]; [now apply sound_ignore|].
  destruct (_tracked h) as [|u l] eqn:Et.
  - assert (Hz := sound_idle _ _ Hs Et). assert (Hz' := z_state _ Hz).
    destruct (_ignored h) eqn:Ei; [|congruence]. destruct Hz' as [Ei' Ew]. rewrite Ew. cbn [orb app].
    replace [Touch id now true x y x y 0%Q] with (_tracked h ++ [Touch id now true x y x y 0%Q]) by now rewrite Et.
    assert (Hc := counted_track fingers h (Touch id now true x y x y 0%Q) (s_counted _ _ Hs)). rewrite Et in Hc |- *.
    specialize (Hc eq_refl Hn eq_refl). apply sound_of.
    + destruct Hc. split; auto.
    + discriminate.
    + destruct Hz. split; cbn; auto; [shape | congruence | congruence].
    + cbn. rewrite Ei'. exact (sound_loose _ _ Hs Ed).
  - assert (Hne : _tracked h <> []) by congruence. rewrite <- Et.
    destruct ((GH_MULTITOUCH_TIMEOUT <? now - started u) || _waitingRelease h) eqn:El.
    + apply sound_ignore with (h := set_state GH_NOGESTURE h); auto. now apply sound_none.
    + apply orb_false_iff in El. destruct El as [_ Ew]. assert (Hk := sound_tracking _ _ Hs Hne).
      assert (Er := Ed). rewrite (detected h Hk) in Er.
      destruct (joined_tracking h (Touch id now true x y x y 0%Q) Hne Hk Er Ew E0 eq_refl) as [Hk' Er'].
      destruct (joined_same (set_tracked (_tracked h ++ [Touch id now true x y x y 0%Q]) h)) as (E1 & E2 & E3).
      apply sound_of; rewrite ?E1, ?E3; auto.
      * assert (Hc := counted_track fingers h (Touch id now true x y x y 0%Q) (s_counted _ _ Hs) (k_all _ Hk Ew) Hn eq_refl).
        destruct Hc. split; rewrite ?E1, ?E2; auto.
      * cbn. destruct (_tracked h); discriminate.
      * apply under_loose; auto. exact (sound_loose _ _ Hs Ed).
Qed.

(** * A touch moves *)

Definition key (t : touch) : Z * bool := (t_id t, active t).

Lemma update_keys id f l u : find_touch id l = Some u -> key (f u) = key u -> map key (update_touch id f l) = map key l.
Proof.
  unfold find_touch. induction l as [|t l IH]; cbn [find update_touch map]; [discriminate|].
  destruct (t_id t =? id); [intros [= ->] E; cbn; congruence | intros E1 E2; cbn; now rewrite IH].
Qed.

Lemma keys_ids l : map t_id l = map fst (map key l).
Proof. now rewrite map_map. Qed.
Lemma keys_active l : map active l = map snd (map key l).
Proof. now rewrite map_map. Qed.
Lemma keys_in l t : In t l -> In (key t) (map key l).
Proof. apply in_map. Qed.
Lemma existsb_map {A} (f : A -> bool) l : existsb f l = existsb (fun b => b) (map f l).
Proof. induction l; cbn; congruence. Qed.
Lemma forallb_map' {A} (f : A -> bool) l : forallb f l = forallb (fun b => b) (map f l).
Proof. induction l; cbn; congruence. Qed.

Definition same_keys (h h' : handler) : Prop := map key (_tracked h') = map key (_tracked h).

Lemma same_keys_facts h h' : same_keys h h' ->
  existsb active (_tracked h') = existsb active (_tracked h) /\
  forallb active (_tracked h') = forallb active (_tracked h) /\
  zlen (_tracked h') = zlen (_tracked h).
Proof.
  intros E. rewrite (existsb_map active (_tracked h')), (existsb_map active (_tracked h)),
    (forallb_map' active (_tracked h')), (forallb_map' active (_tracked h)), !keys_active, E.
  repeat split. unfold zlen. apply (f_equal (@List.length _)) in E. rewrite !length_map in E. lia.
Qed.

Lemma counted_keys fingers h h' : same_keys h h' -> _ignored h' = _ignored h -> counted fingers h -> counted fingers h'.
Proof.
  intros E Ei [Hi Hg Ha Hd].
  assert (Hin : forall t, In t (_tracked h') -> exists u, In u (_tracked h) /\ t_id u = t_id t /\ active u = active t).
  { intros t Ht. apply keys_in in Ht. rewrite E in Ht. apply in_map_iff in Ht. destruct Ht as (u & Eu & Hu).
    injection Eu as E1 E2. eauto. }
  assert (Hin' : forall t, In t (_tracked h) -> exists u, In u (_tracked h') /\ t_id u = t_id t /\ active u = active t).
  { intros t Ht. apply keys_in in Ht. rewrite <- E in Ht. apply in_map_iff in Ht. destruct Ht as (u & Eu & Hu).
    injection Eu as E1 E2. eauto. }
  split; rewrite ?Ei; auto.
  - now rewrite keys_ids, E, <- keys_ids.
  - intros t Ht Et. destruct (Hin t Ht) as (u & Hu & <- & Eu). apply Ha; congruence.
  - intros id. rewrite Hd. split; (intros [|(t & Ht & <- & Et)]; [auto|right]).
    + destruct (Hin' t Ht) as (u & Hu & Eu & Ev). exists u. intuition congruence.
    + destruct (Hin t Ht) as (u & Hu & Eu & Ev). exists u. intuition congruence.
Qed.

Lemma tracking_keys h v : map key v = map key (_tracked h) -> tracking h -> tracking (set_tracked v h).
Proof.
  intros E [Ha Hall Hs Hl Ht Hc]. destruct (same_keys_facts h (set_tracked v h) E) as (E1 & E2 & E3).
  split; auto; rewrite ?E1, ?E2; auto. unfold shaped. rewrite E3. exact Hs.
Qed.

Lemma sound_keys fingers h v : map key v = map key (_tracked h) -> _tracked h <> [] -> sound fingers h ->
  sound fingers (set_tracked v h).
Proof.
  intros E Hne Hs. apply sound_of.
  - eapply counted_keys; [exact E | reflexivity | apply Hs].
  - cbn. intros ->. destruct (_tracked h); [congruence|discriminate].
  - apply tracking_keys; auto. eapply sound_tracking; eauto.
  - apply Hs.
Qed.

(** An event of a recognised gesture. *)
Lemma push_move fingers h : sound fingers h -> _tracked h <> [] -> _hasDetectedGesture h = true ->
  exists h', _pushEvent GestureMove h = (Ret tt, h') /\ sound fingers h'.
Proof.
  intros Hs Hne Ed. assert (Hk := sound_tracking _ _ Hs Hne). rewrite (detected _ Hk) in Ed.
  assert (Hu := s_stream _ _ Hs). unfold under_way, recognised in *.
  destruct (_stateToGesture (_state h)) as [g|e|] eqn:Eg; try discriminate.
  destruct (push_run GestureMove h g Eg Hne) as (e & Ee & Er). eexists. split; [exact Er|].
  apply sound_of; auto.
  - eapply sound_counted; eauto.
  - destruct Hk. split; auto.
  - cbn [_state pushed add_pushed]. unfold under_way. rewrite Eg.
    destruct g; try discriminate; apply followed_move; auto.
Qed.

(** A gesture is recognised: its first two events. *)
Lemma push_begin fingers h : counted fingers h -> _tracked h <> [] -> tracking h -> recognised (_state h) = true ->
  loose (pushed h) ->
  exists h', (_pushEvent GestureStart ;; _pushEvent GestureMove) h = (Ret tt, h') /\ sound fingers h'.
Proof.
  intros Hc Hne Hk Er Hl. assert (Er' := Er). unfold recognised in Er.
  destruct (_stateToGesture (_state h)) as [g|e|] eqn:Eg; try discriminate.
  destruct (push_run GestureStart h g Eg Hne) as (e & Ee & Ep). unfold bind at 1. rewrite Ep.
  apply push_move; auto.
  - apply sound_of; auto.
    + destruct Hc. split; auto.
    + destruct Hk. split; auto.
    + cbn [_state pushed add_pushed]. unfold under_way. rewrite Eg.
      destruct g; try discriminate; apply followed_start; auto.
  - rewrite detected; [exact Er'|]. destruct Hk. split; auto.
Qed.

(** What a touch that moved far leaves possible. *)
Definition moved_far (h : handler) : handler :=
  let n := zlen (_tracked h) in
  let h := set_longpress false (clear (GH_ONETAP .| GH_TWOTAP .| GH_THREETAP .| GH_LONGPRESS)%js h) in
  let h := if negb (n =? 1) then clear GH_DRAG h else h in
  if negb (n =? 2) then clear (GH_TWODRAG .| GH_PINCH)%js h else h.

Lemma moved_far_same h : _tracked (moved_far h) = _tracked h /\ _ignored (moved_far h) = _ignored h /\
  pushed (moved_far h) = pushed h /\ _waitingRelease (moved_far h) = _waitingRelease h /\
  longpress_pending (moved_far h) = false /\ twoTouch_pending (moved_far h) = twoTouch_pending h /\
  _twoTouchTimeoutId (moved_far h) = _twoTouchTimeoutId h.
Proof. unfold moved_far. destruct (negb (_ =? 1)), (negb (_ =? 2)); repeat split. Qed.

Lemma moved_far_state h : tracking h -> recognised (_state h) = false ->
  let st := _state (moved_far h) in
  st = GH_NOGESTURE \/
  st = GH_DRAG /\ zlen (_tracked h) = 1 /\ _waitingRelease h = false /\ twoTouch_pending h = false \/
  st = 96 /\ zlen (_tracked h) = 2 /\ _waitingRelease h = false.
Proof.
  intros [_ _ Hs _ Ht _] Er. cbv zeta. unfold moved_far.
  destruct (Z.eqb_spec (zlen (_tracked h)) 1) as [E1|E1]; destruct (Z.eqb_spec (zlen (_tracked h)) 2) as [E2|E2]; try lia;
    cbn [negb _state set_longpress set_state clear]; states Hs; try congruence; try lia;
    match goal with E : _state ?v = _ |- _ => rewrite E in * end; try (vm_compute in Er; discriminate);
    try (left; reflexivity); try (right; right; split; [reflexivity | auto]).
  right. left. split; [reflexivity|]. repeat split; auto. destruct (twoTouch_pending h); auto.
  destruct (Ht eq_refl) as [[E|[E|[]]] _]; discriminate E.
Qed.

Lemma moved_far_tracking h : tracking h -> (restless = false -> _waitingRelease h = false) -> recognised (_state h) = false -> tracking (moved_far h).
Proof.
  intros Hk Hq Er. destruct (moved_far_same h) as (E1 & _ & _ & E2 & E3 & E4 & E5).
  assert (Hst := moved_far_state h Hk Er). cbv zeta in Hst. destruct Hk as [Ha Hall _ _ Ht _].
  split; rewrite ?E1, ?E2, ?E3, ?E4, ?E5; auto; try discriminate.
  - unfold shaped. cbv zeta. rewrite E1, E2. destruct Hst as [->|[(-> & ? & -> & _)|(-> & ? & ->)]];
      [left; member | right; right; left; split; [member|reflexivity] ..].
  - intros Et. destruct (Ht Et) as [_ Ei]. split; auto.
    destruct Hst as [->|[(_ & _ & _ & E)|(-> & _)]]; [member | congruence | member].
  - intros Hr Hw. rewrite (Hq Hr) in Hw. discriminate.
Qed.

Lemma other_touch l id u : find_touch id l = Some u -> NoDup (map t_id l) -> zlen l = 2 ->
  exists v, find (fun t => negb (t_id t =? id)) l = Some v.
Proof.
  intros E Hn El. destruct l as [|a [|b [|c l]]]; try (zlia). cbn in *. inversion Hn as [|? ? Hni _]; subst.
  destruct (Z.eqb_spec (t_id a) id) as [Ea|]; cbn; [|eauto]. destruct (Z.eqb_spec (t_id b) id) as [Eb|]; cbn; [|eauto].
  exfalso. apply Hni. left. congruence.
Qed.

(** The decision between the two gestures of two fingers. *)
Lemma decision_run u id h : NoDup (map t_id (_tracked h)) -> (exists v, find_touch id (_tracked h) = Some v) ->
  zlen (_tracked h) = 2 -> tracking h -> (restless = false -> _waitingRelease h = false) -> longpress_pending h = false ->
  _state h = GH_NOGESTURE \/ _state h = 96 /\ _waitingRelease h = false ->
  exists h', two_touch_decision hypot u id h = (Ret tt, h') /\ tracking h' /\
    _tracked h' = _tracked h /\ _ignored h' = _ignored h /\ pushed h' = pushed h.
Proof.
  intros Hn [v Hf] En Hk Hq Hl Hst. destruct (other_touch _ _ _ Hf Hn En) as [w Ew].
  unfold two_touch_decision, bind, get, modify, ret. rewrite Ew. destruct Hk as [Ha Hall Hs _ Ht _].
  unfold _isTwoTouchTimeoutRunning.
  destruct (Qlt_bool GH_MOVE_THRESHOLD _).
  - destruct (_twoTouchTimeoutId h) eqn:Ei; (eexists; split; [reflexivity|]); (split; [|auto]).
    all: split; cbn [_tracked _state _waitingRelease longpress_pending twoTouch_pending _twoTouchTimeoutId
      set_state set_twoTouch clear]; auto; try (intros Hr Hw; rewrite (Hq Hr) in Hw; discriminate Hw); try congruence; try (intros Et; destruct (Ht Et); congruence).
    all: unfold shaped; cbn [_tracked _state _waitingRelease set_state set_twoTouch clear]; left.
    all: destruct Hst as [->|[-> _]]; destruct (Qlt_bool _ _); member.
  - destruct (_twoTouchTimeoutId h) eqn:Ei; cbn [negb]; (eexists; split; [reflexivity|]); (split; [|auto]).
    all: split; cbn; auto; try (intros Hr Hw; rewrite (Hq Hr) in Hw; discriminate Hw); try congruence.
    all: intros _; split; [destruct Hst as [->|[-> _]]; member | auto].
Qed.

Lemma far_run (k : M handler unit) h :
  (modify (clear (GH_ONETAP .| GH_TWOTAP .| GH_THREETAP .| GH_LONGPRESS)%js) ;;
   _stopLongpressTimeout ;;
   (if negb (zlen (_tracked h) =? 1) then modify (clear GH_DRAG) else ret tt) ;;
   (if negb (zlen (_tracked h) =? 2) then modify (clear (GH_TWODRAG .| GH_PINCH)%js) else ret tt) ;;
   k) h = k (moved_far h).
Proof.
  unfold bind, modify, ret, _stopLongpressTimeout, moved_far. cbn [_tracked].
  destruct (negb (_ =? 1)), (negb (_ =? 2)); reflexivity.
Qed.

Lemma find_touch_in id l : In id (map t_id l) <-> exists u, find_touch id l = Some u.
Proof.
  unfold find_touch. induction l as [|t l IH]; cbn; [split; [intros []|intros [? [=]]]|].
  destruct (Z.eqb_spec (t_id t) id) as [E|E]; [split; eauto|]. rewrite <- IH. split; [intros []; congruence || auto | auto].
Qed.

Lemma move_sound fingers h id x y : sound fingers h -> (restless = false -> _waitingRelease h = false) ->
  exists h', _touchMove hypot atan2 id x y h = (Ret tt, h') /\ sound fingers h'.
Proof.
  intros Hs Hq. unfold _touchMove. unfold bind at 1, get at 1. cbn beta iota.
  destruct (find_touch id (_tracked h)) as [u|] eqn:Ef; [|eexists; split; [reflexivity|exact Hs]].
  cbv zeta. set (u' := if _ || _ then _ else _).
  assert (Ek : key u' = key u) by (unfold u'; destruct (_ || _); reflexivity).
  assert (Hne : _tracked h <> []) by (intros E; rewrite E in Ef; discriminate).
  assert (Eu := update_keys id (fun _ => u') _ u Ef Ek).
  assert (Hs1 := sound_keys fingers h _ Eu Hne Hs).
  unfold bind at 1, modify at 1. cbn beta iota. set (h1 := set_tracked _ h) in *. unfold bind at 1, get at 1. cbn beta iota.
  assert (Hne1 : _tracked h1 <> []) by (cbn; intros E; rewrite E in Eu; destruct (_tracked h); [congruence|discriminate]).
  assert (Hk1 := sound_tracking _ _ Hs1 Hne1). clearbody u'.
  destruct (_hasDetectedGesture h1) eqn:Ed; cbn [negb]; [now apply push_move|].
  destruct (Qlt_bool (hypot _ _) _); [eexists; split; [reflexivity|exact Hs1]|].
  rewrite far_run. rewrite (detected h1 Hk1) in Ed.
  assert (Hk2 := moved_far_tracking h1 Hk1 Hq Ed). assert (Hst := moved_far_state h1 Hk1 Ed). cbv zeta in Hst.
  destruct (moved_far_same h1) as (E1 & E2 & E3 & E4 & E5 & _). set (h2 := moved_far h1) in *.
  assert (Hc2 : counted fingers h2) by (apply sound_counted with (1 := Hs1); auto).
  assert (Hl2 : loose (pushed h2)) by (rewrite E3; apply (loose_of _ _ Ed), Hs1).
  assert (Hlast : forall h3, tracking h3 -> _tracked h3 = _tracked h2 -> _ignored h3 = _ignored h2 -> pushed h3 = pushed h2 ->
    exists h', (if negb (_hasDetectedGesture h3) then ret tt else _pushEvent GestureStart ;; _pushEvent GestureMove) h3
      = (Ret tt, h') /\ sound fingers h').
  { intros h3 Hk3 F1 F2 F3. rewrite (detected h3 Hk3).
    assert (Hc3 : counted fingers h3) by (destruct Hc2; split; rewrite ?F1, ?F2; auto).
    assert (Hne3 : _tracked h3 <> []) by now rewrite F1, E1.
    destruct (recognised (_state h3)) eqn:Er3; cbn [negb].
    - apply push_begin; auto. now rewrite F3.
    - eexists. split; [reflexivity|]. apply sound_of; auto. apply under_loose; auto. now rewrite F3. }
  destruct (Z.eqb_spec (zlen (_tracked h1)) 2) as [En|En]; [|now apply (Hlast h2)].
  destruct (decision_run u' id h2) as (h3 & Er3 & Hk3 & F1 & F2 & F3); rewrite ?E1, ?E4; auto.
  - apply Hs1.
  - apply find_touch_in. rewrite keys_ids. cbn. rewrite Eu, <- keys_ids. apply find_touch_in. eauto.
  - destruct Hst as [|[(_ & ? & _)|(? & _ & ?)]]; [auto | lia | auto].
  - unfold bind at 1. rewrite Er3. unfold bind at 1, get at 1. cbn beta iota. now apply Hlast.
Qed.

(** * A touch ends *)

Lemma remove_first_in id l x : NoDup l -> In x (remove_first id l) <-> In x l /\ x <> id.
Proof.
  induction l as [|i l IH]; cbn; [tauto|]. intros Hn. inversion Hn as [|? ? Hi Hl]; subst.
  destruct (Z.eqb_spec i id) as [->|E]; [split; [intros; split; auto; intros ->; tauto | intros [[->|] ?]; tauto]|].
  cbn. rewrite IH by auto. split; [intros [->|[]]; auto | intros [[->|] ?]; auto].
Qed.

Lemma remove_first_nodup id l : NoDup l -> NoDup (remove_first id l).
Proof.
  induction l as [|i l IH]; cbn; auto. intros Hn. inversion Hn as [|? ? Hi Hl]; subst.
  destruct (i =? id); auto. constructor; auto. rewrite remove_first_in by auto. tauto.
Qed.

Lemma remove_first_not id l : ~ In id l -> remove_first id l = l.
Proof.
  induction l as [|i l IH]; cbn; auto. intros Hn. destruct (Z.eqb_spec i id); [tauto|]. now rewrite IH by tauto.
Qed.

Lemma is_ignored_in id h : is_ignored id h = true <-> In id (_ignored h).
Proof.
  unfold is_ignored. rewrite existsb_exists. split; [intros (i & Hi & E); apply Z.eqb_eq in E; now subst|].
  intros Hi. exists id. split; auto. apply Z.eqb_refl.
Qed.

Lemma is_ignored_not id h : is_ignored id h = false <-> ~ In id (_ignored h).
Proof. rewrite <- is_ignored_in. destruct (is_ignored id h); intuition congruence. Qed.

(** Nothing is tracked and nothing is under way. *)
Definition at_rest (h : handler) : handler :=
  match _ignored h with [] => set_waitingRelease false (set_state GH_INITSTATE h) | _ => h end.

Lemma rest_sound fingers h : counted fingers h -> _tracked h = [] -> longpress_pending h = false ->
  twoTouch_pending h = false -> _state h = GH_NOGESTURE -> loose (pushed h) -> sound fingers (at_rest h).
Proof.
  intros Hc Et Hl Htw Es Hp. unfold at_rest. destruct (_ignored h) eqn:Ei.
  - split; [destruct Hc; split; auto | | exact Hp].
    cbn [_tracked set_state set_waitingRelease]. rewrite Et. split; auto. cbn. rewrite Ei. auto.
  - split; [auto | | rewrite Es; exact Hp]. rewrite Et. split; auto. now rewrite Ei.
Qed.

(** The touch [id] is leaving; whether it is still marked active does not
    matter. *)
Record leaving (fingers : list Z) (id : Z) (h : handler) : Prop := {
  l_ids : NoDup (map t_id (_tracked h));
  l_ignored : NoDup (_ignored h);
  l_apart : forall t, In t (_tracked h) -> active t = true -> ~ In (t_id t) (_ignored h);
  l_not : ~ In id (_ignored h);
  l_down : forall i, i <> id -> In i fingers <->
    In i (_ignored h) \/ exists t, In t (_tracked h) /\ t_id t = i /\ active t = true;
  l_long : longpress_pending h = false;
  l_two : twoTouch_pending h = false
}.

Lemma NoDup_filter_ids l : NoDup (map t_id l) -> NoDup (map t_id (filter active l)).
Proof.
  induction l as [|t l IH]; cbn; auto. intros Hn. inversion Hn as [|? ? Hi Hl]; subst.
  destruct (active t); auto. cbn. constructor; auto. intros Hx. apply Hi.
  apply in_map_iff in Hx. destruct Hx as (u & <- & Hu). apply filter_In in Hu. apply in_map. tauto.
Qed.

(** The touches still down are ignored until they end. *)
Definition ignore_all (id : Z) (h : handler) : handler :=
  let l := _ignored h ++ map t_id (filter active (_tracked h)) in
  set_ignored (remove_first id l) (set_state GH_NOGESTURE (set_tracked [] h)).

Lemma ignore_all_counted fingers id h : leaving fingers id h ->
  counted (remove Z.eq_dec id fingers) (ignore_all id h).
Proof.
  intros [Hi Hg Ha Hn Hd _ _].
  assert (Hnd : NoDup (_ignored h ++ map t_id (filter active (_tracked h)))).
  { apply NoDup_app; [auto | now apply NoDup_filter_ids |]. intros i H1 H2.
    apply in_map_iff in H2. destruct H2 as (t & <- & Ht). apply filter_In in Ht. now apply (Ha t). }
  split; cbn [_tracked _ignored ignore_all set_ignored set_state set_tracked]; [constructor | | intros t [] |].
  - now apply remove_first_nodup.
  - intros i. rewrite remove_first_in by auto. rewrite in_app_iff. split.
    + intros Hx. apply in_remove in Hx. destruct Hx as [Hx Hne]. left. split; auto. apply (Hd i Hne) in Hx.
      destruct Hx as [|(t & Ht & <- & Et)]; auto. right. apply in_map, filter_In. auto.
    + intros [[Hx Hne]|(t & [] & _)]. apply in_in_remove; auto. apply (Hd i Hne).
      destruct Hx as [|Hx]; auto. right. apply in_map_iff in Hx. destruct Hx as (t & <- & Ht).
      apply filter_In in Ht. destruct Ht. eauto.
Qed.

Lemma over_run id h : gesture_over id h =
  match (if _hasDetectedGesture h then _pushEvent GestureEnd else ret tt) h with
  | (Ret _, h') => (Ret tt, at_rest (ignore_all id h'))
  | r => r
  end.
Proof.
  unfold gesture_over, bind, get. destruct ((if _hasDetectedGesture h then _pushEvent GestureEnd else ret tt) h) as [[[]|e|] h']; try reflexivity.
  unfold modify, at_rest. cbn beta iota.
  assert (E : (if is_ignored id (set_state GH_NOGESTURE (set_tracked [] (set_ignored (_ignored h' ++ map t_id (filter active (_tracked h'))) h')))
     then set_ignored (remove_first id (_ignored h' ++ map t_id (filter active (_tracked h'))))
            (set_state GH_NOGESTURE (set_tracked [] (set_ignored (_ignored h' ++ map t_id (filter active (_tracked h'))) h')))
     else set_state GH_NOGESTURE (set_tracked [] (set_ignored (_ignored h' ++ map t_id (filter active (_tracked h'))) h')))
     = ignore_all id h').
  { destruct (is_ignored _ _) eqn:Ei; [reflexivity|]. unfold ignore_all. rewrite remove_first_not; [reflexivity|].
    now apply is_ignored_not in Ei. }
  cbn [_ignored set_state set_tracked set_ignored] in *. rewrite E. destruct (_ignored (ignore_all id h')); reflexivity.
Qed.

Lemma over_sound fingers id h : leaving fingers id h -> _tracked h <> [] ->
  (if _hasDetectedGesture h then exists g, _stateToGesture (_state h) = Ret g /\ followed (pushed h) = Some (Some g)
   else loose (pushed h)) ->
  exists h', gesture_over id h = (Ret tt, h') /\ sound (remove Z.eq_dec id fingers) h'.
Proof.
  intros Hl Hne Hp. rewrite over_run. destruct (_hasDetectedGesture h).
  - destruct Hp as (g & Eg & Ef). destruct (push_run GestureEnd h g Eg Hne) as (e & Ee & ->).
    eexists. split; [reflexivity|]. assert (Hl' : leaving fingers id (add_pushed (GestureEnd, e) h)) by (destruct Hl; split; auto).
    apply rest_sound; auto; try apply Hl. { now apply ignore_all_counted. }
    left. cbn. now apply (followed_end _ g).
  - eexists. split; [reflexivity|]. apply rest_sound; auto; try apply Hl. now apply ignore_all_counted.
Qed.

(** What a release leaves possible. *)
Definition released (now : Z) (h : handler) : handler :=
  let n := zlen (_tracked h) in
  let h := set_longpress false (clear GH_LONGPRESS (clear (GH_DRAG .| GH_TWODRAG .| GH_PINCH)%js h)) in
  if negb (_waitingRelease h) then
    let h := set_waitingRelease true (set_releaseStart now h) in
    if n =? 1 then clear (GH_TWOTAP .| GH_THREETAP)%js h
    else if n =? 2 then clear (GH_ONETAP .| GH_THREETAP)%js h
    else h
  else h.

Lemma release_run now h : first_release now h = (Ret tt, released now h).
Proof.
  unfold first_release, _stopLongpressTimeout, released, bind, get, modify, ret. cbv beta iota.
  cbn [_waitingRelease _tracked set_longpress clear set_state set_waitingRelease set_releaseStart].
  destruct (_waitingRelease h); cbn [negb]; [reflexivity|]. destruct (_ =? 1); [reflexivity|]. destruct (_ =? 2); reflexivity.
Qed.

Lemma released_same now h : _tracked (released now h) = _tracked h /\ _ignored (released now h) = _ignored h /\
  pushed (released now h) = pushed h /\ _waitingRelease (released now h) = true /\
  longpress_pending (released now h) = false /\ twoTouch_pending (released now h) = twoTouch_pending h.
Proof.
  unfold released. cbn [_waitingRelease set_longpress clear set_state]. destruct (_waitingRelease h) eqn:Ew; cbn [negb].
  - repeat split; auto.
  - destruct (zlen (_tracked h) =? 1), (zlen (_tracked h) =? 2); repeat split.
Qed.

(** Once a touch was released. *)
Definition waits (h : handler) : Prop :=
  In (_state h) [GH_NOGESTURE; GH_TWOTAP; GH_THREETAP; GH_TWODRAG; GH_PINCH] \/
  _state h = GH_ONETAP /\ zlen (_tracked h) = 1.

Lemma released_waits now h : _tracked h <> [] -> tracking h -> recognised (_state h) = false -> waits (released now h).
Proof.
  intros Hne [_ _ Hs _ _ _] Er. unfold waits. destruct (released_same now h) as (-> & _).
  assert (Hn : 1 <= zlen (_tracked h)) by (destruct (_tracked h); [congruence|zlia]).
  unfold released. cbn [_waitingRelease set_longpress clear set_state].
  states Hs; try congruence; try lia;
    match goal with E : _state ?v = _ |- _ => rewrite E in * end; try (vm_compute in Er; discriminate);
    destruct (_waitingRelease h); try congruence; cbn [negb];
    destruct (Z.eqb_spec (zlen (_tracked h)) 1); destruct (Z.eqb_spec (zlen (_tracked h)) 2); try lia;
    cbn [_state set_longpress set_state clear set_waitingRelease set_releaseStart];
    match goal with E : _state ?v = _ |- _ => rewrite E end;
    first [left; member | right; split; [reflexivity | assumption]].
Qed.

Lemma inactive_in id l t : NoDup (map t_id l) -> active t = true ->
  In t (update_touch id (set_active false) l) <-> In t l /\ t_id t <> id.
Proof.
  intros Hn Et. induction l as [|u l IH]; cbn; [tauto|]. inversion Hn as [|? ? Hi Hl]; subst.
  destruct (Z.eqb_spec (t_id u) id) as [E|E]; cbn.
  - split.
    + intros [<-|Hx]; [discriminate Et|]. split; auto. intros <-. apply Hi. rewrite E. now apply in_map.
    + intros [[->|Hx] Hne]; [congruence|auto].
  - rewrite (IH Hl). split; [intros [->|[]]; auto | intros [[->|] ?]; auto].
Qed.

Lemma inactive_ids id l : map t_id (update_touch id (set_active false) l) = map t_id l.
Proof. induction l as [|u l IH]; cbn; auto. destruct (t_id u =? id); cbn; congruence. Qed.

Definition left_by (id : Z) (h : handler) : handler := set_tracked (update_touch id (set_active false) (_tracked h)) h.

Lemma left_leaving fingers id h : leaving fingers id h -> leaving fingers id (left_by id h).
Proof.
  intros [Hi Hg Ha Hn Hd Hl Ht]. split; cbn [_tracked _ignored left_by set_tracked]; auto.
  - now rewrite inactive_ids.
  - intros t Hx Et. apply inactive_in in Hx; auto. apply Ha; tauto.
  - intros i Hne. rewrite (Hd i Hne). split; (intros [|(t & Hx & <- & Et)]; [auto|right]; exists t);
      rewrite inactive_in in * by auto; tauto.
Qed.

Lemma left_counted fingers id h : leaving fingers id h -> counted (remove Z.eq_dec id fingers) (left_by id h).
Proof.
  intros Hl. destruct (left_leaving fingers id h Hl) as [Hi Hg Ha Hn Hd _ _]. split; auto.
  intros i. destruct (Z.eq_dec i id) as [->|Hne].
  - split; [intros Hx; now apply remove_In in Hx|]. intros [|(t & Hx & E & Et)]; [tauto|].
    apply inactive_in in Hx; [tauto | apply Hl | auto].
  - rewrite <- (Hd i Hne). split; [intros Hx; now apply in_remove in Hx | intros Hx; now apply in_in_remove].
Qed.

(** Some touch is still down when the gesture is not there yet. *)
Lemma waits_more fingers id h : leaving fingers id h -> find_touch id (_tracked h) <> None -> waits h ->
  _hasDetectedGesture (left_by id h) = false -> _state h <> GH_NOGESTURE ->
  existsb active (_tracked (left_by id h)) = true /\ In (_state h) [GH_TWOTAP; GH_THREETAP].
Proof.
  intros Hl Hf Hw Ed E0. unfold _hasDetectedGesture in Ed. change (_state (left_by id h)) with (_state h) in Ed.
  destruct Hw as [[E|[E|[E|[E|[E|[]]]]]]|[E En]]; match type of E with _state _ = _ => rewrite E in * | _ => rewrite <- E in * end;
    try (exfalso; now apply E0);
    try discriminate Ed; try (destruct (existsb active _); [split; [auto|member]|discriminate Ed]).
  unfold left_by in Ed. cbn [_tracked set_tracked] in Ed. destruct (_tracked h) as [|t [|t' l]]; [zlia | | zlia].
  unfold find_touch in Hf. cbn [find] in Hf. cbn [update_touch] in Ed.
  destruct (t_id t =? id); [discriminate Ed | exfalso; now apply Hf].
Qed.

(** All touches have to be released. *)
Lemma wait_sound fingers id h : leaving fingers id h -> find_touch id (_tracked h) <> None -> waits h -> _waitingRelease h = true ->
  loose (pushed h) ->
  exists h', (h <- get ;;
    if _hasDetectedGesture h then _pushEvent GestureStart ;; gesture_over id
    else if negb (_state h =? GH_NOGESTURE) then ret tt
    else gesture_over id) (left_by id h) = (Ret tt, h') /\ sound (remove Z.eq_dec id fingers) h'.
Proof.
  intros Hl Hf Hw Hwt Hp. unfold bind at 1, get at 1. cbn beta iota.
  assert (Hl' := left_leaving _ _ _ Hl). set (h1 := left_by id h) in *.
  assert (Hlen : zlen (_tracked h1) = zlen (_tracked h)).
  { unfold zlen. f_equal. rewrite <- !(length_map t_id). cbn. now rewrite inactive_ids. }
  assert (Hne : _tracked h1 <> []).
  { intros E. assert (E' := inactive_ids id (_tracked h)). change (update_touch _ _ _) with (_tracked h1) in E'. rewrite E in E'.
    destruct (_tracked h); [apply Hf; reflexivity | discriminate]. }
  assert (Hst : _state h1 = _state h) by reflexivity. assert (Hp1 : loose (pushed h1)) by exact Hp.
  destruct (_hasDetectedGesture h1) eqn:Ed.
  - assert (Hg : exists g, _stateToGesture (_state h1) = Ret g).
    { rewrite Hst. destruct Hw as [[E|[E|[E|[E|[E|[]]]]]]|[E _]]; try (rewrite E || rewrite <- E); cbn; eauto.
      unfold _hasDetectedGesture in Ed. rewrite Hst, <- E in Ed. discriminate. }
    destruct Hg as [g Eg]. destruct (push_run GestureStart h1 g Eg Hne) as (e & Ee & Er).
    unfold bind at 1. rewrite Er. apply over_sound; auto.
    + destruct Hl'. split; auto.
    + unfold _hasDetectedGesture in *. cbn [_state _tracked add_pushed]. rewrite Ed. exists g. split; auto.
      now apply followed_start.
  - destruct (Z.eqb_spec (_state h1) GH_NOGESTURE) as [E0|E0]; cbn [negb]; [apply over_sound; auto; now rewrite Ed|].
    destruct (waits_more fingers id h Hl Hf Hw Ed E0) as [Hact Hin].
    eexists. split; [reflexivity|]. apply sound_of; auto; [now apply left_counted | |].
    + split; auto; rewrite ?(l_long _ _ _ Hl'), ?(l_two _ _ _ Hl'); try discriminate.
      * intros E. exfalso. change (_waitingRelease h = false) in E. congruence.
      * destruct Hin as [E|[E|[]]]; [right; left; split; [symmetry; exact E | exact Hwt] | left; rewrite Hst, <- E; member].
      * intros _ _. split; [rewrite Hst; destruct Hin as [<-|[<-|[]]]; member|reflexivity].
    + apply under_loose; auto. rewrite Hst. destruct Hin as [<-|[<-|[]]]; reflexivity.
Qed.

(** An ignored touch ends. *)
Lemma counted_forget fingers id h : counted fingers h -> In id (_ignored h) ->
  counted (remove Z.eq_dec id fingers) (set_ignored (remove_first id (_ignored h)) h).
Proof.
  intros [Hi Hg Ha Hd] Hin. split; cbn [_tracked _ignored set_ignored]; auto.
  - now apply remove_first_nodup.
  - intros t Ht Et. rewrite remove_first_in by auto. intros [Hx _]. now apply (Ha t).
  - intros i. rewrite remove_first_in by auto. split.
    + intros Hx. apply in_remove in Hx. destruct Hx as [Hx Hne]. apply Hd in Hx. tauto.
    + intros [[Hx Hne]|(t & Ht & <- & Et)]; apply in_in_remove; auto; try (apply Hd; eauto).
      intros <-. now apply (Ha t).
Qed.

Lemma forget_sound fingers now id h : sound fingers h -> In id (_ignored h) ->
  exists h', _touchEnd now id h = (Ret tt, h') /\ sound (remove Z.eq_dec id fingers) h'.
Proof.
  intros Hs Hin. unfold _touchEnd, bind, get, modify, ret. rewrite (proj2 (is_ignored_in id h) Hin).
  cbn [_ignored _tracked set_ignored].
  assert (Hc := counted_forget fingers id h (s_counted _ _ Hs) Hin).
  destruct (_tracked h) as [|t l] eqn:Et.
  - destruct (sound_idle _ _ Hs Et) as [Hl Htw Hz].
    destruct (_ignored h) as [|i r] eqn:Ei; [destruct Hin|]. rewrite <- Ei in *.
    exists (at_rest (set_ignored (remove_first id (_ignored h)) h)). split.
    + unfold at_rest. cbn [_ignored set_ignored]. destruct (remove_first id (_ignored h)); reflexivity.
    + apply rest_sound; auto. exact (sound_loose fingers h Hs (detected_idle h (sound_idle fingers h Hs Et))).
  - exists (set_ignored (remove_first id (_ignored h)) h). split.
    + destruct (remove_first id (_ignored h)); reflexivity.
    + assert (Hne : _tracked h <> []) by congruence. apply sound_of; auto; [|apply Hs].
      destruct (sound_tracking _ _ Hs Hne). split; auto.
Qed.

(** The timer of two touches is stopped by a release. *)
Definition interrupted (h : handler) : handler :=
  if negb (_hasDetectedGesture h) && _isTwoTouchTimeoutRunning h
  then set_state GH_NOGESTURE (set_twoTouch false false h) else h.

Lemma interrupted_ok fingers h : sound fingers h -> _tracked h <> [] ->
  sound fingers (interrupted h) /\ twoTouch_pending (interrupted h) = false /\
  _tracked (interrupted h) = _tracked h /\ _ignored (interrupted h) = _ignored h.
Proof.
  intros Hs Hne. assert (Hk := sound_tracking _ _ Hs Hne). unfold interrupted, _isTwoTouchTimeoutRunning.
  destruct (_hasDetectedGesture h) eqn:Ed; cbn [negb andb]; [|destruct (_twoTouchTimeoutId h) eqn:Ei].
  - repeat split; try apply Hs; auto. destruct (twoTouch_pending h) eqn:Ep; auto. exfalso.
    destruct (k_two _ Hk Ep) as [[E|[E|[]]] _]; rewrite (detected _ Hk), <- E in Ed; discriminate.
  - assert (Hs' := sound_none _ _ Hs Hne Ed). split; [|auto]. apply sound_of; auto; [| | apply Hs'].
    + apply sound_counted with (1 := Hs); auto.
    + destruct (sound_tracking _ _ Hs' Hne) as [H1 H2 H3 H4 _ _]. split; auto; cbn; [|discriminate|auto].
      intros El. destruct (H4 El) as (E1 & E2 & E3). auto.
  - repeat split; try apply Hs; auto. destruct (twoTouch_pending h) eqn:Ep; auto.
    destruct (k_two _ Hk Ep). congruence.
Qed.

(** A release, from the state the timer is stopped in. *)
Definition leave (now id : Z) : M handler unit :=
  h <- get ;;
  (if negb (_hasDetectedGesture h) then first_release now else ret tt) ;;
  h <- get ;;
  if _waitingRelease h then
    (if GH_MULTITOUCH_TIMEOUT <? now - _releaseStart h then modify (set_state GH_NOGESTURE) else ret tt) ;;
    (if existsb (fun t => GH_TAP_TIMEOUT <? now - started t) (_tracked h)
     then modify (set_state GH_NOGESTURE) else ret tt) ;;
    match find_touch id (_tracked h) with
    | None => throw "TypeError"
    | Some _ =>
        modify (fun h => set_tracked (update_touch id (set_active false) (_tracked h)) h) ;;
        h <- get ;;
        if _hasDetectedGesture h then
          _pushEvent GestureStart ;;
          gesture_over id
        else if negb (_state h =? GH_NOGESTURE) then ret tt
        else gesture_over id
    end
  else gesture_over id.

Lemma end_run now id h : is_ignored id h = false -> _touchEnd now id h = leave now id (interrupted h).
Proof.
  intros Ei. unfold _touchEnd. unfold bind at 1, get at 1. cbn beta iota. rewrite Ei. unfold interrupted.
  destruct (negb (_hasDetectedGesture h) && _isTwoTouchTimeoutRunning h); reflexivity.
Qed.

Lemma sound_leaving fingers id h : sound fingers h -> ~ In id (_ignored h) -> longpress_pending h = false ->
  twoTouch_pending h = false -> leaving fingers id h.
Proof. intros [[Hi Hg Ha Hd] _ _] Hn Hl Ht. split; auto. Qed.

(** Too late, in one way or the other. *)
Lemma timed_out (b1 b2 : bool) (k : M handler unit) h :
  ((if b1 then modify (set_state GH_NOGESTURE) else ret tt) ;;
   (if b2 then modify (set_state GH_NOGESTURE) else ret tt) ;; k) h =
  k (if b1 || b2 then set_state GH_NOGESTURE h else h).
Proof. destruct b1, b2; reflexivity. Qed.

Lemma waits_out (b : bool) h : waits h -> waits (if b then set_state GH_NOGESTURE h else h).
Proof. destruct b; auto. left. left. reflexivity. Qed.

Lemma leave_waiting fingers now id h : leaving fingers id h -> find_touch id (_tracked h) <> None -> waits h ->
  _waitingRelease h = true -> loose (pushed h) ->
  exists h', ((if GH_MULTITOUCH_TIMEOUT <? now - _releaseStart h then modify (set_state GH_NOGESTURE) else ret tt) ;;
    (if existsb (fun t => GH_TAP_TIMEOUT <? now - started t) (_tracked h)
     then modify (set_state GH_NOGESTURE) else ret tt) ;;
    match find_touch id (_tracked h) with
    | None => throw "TypeError"
    | Some _ =>
        modify (fun h => set_tracked (update_touch id (set_active false) (_tracked h)) h) ;;
        h <- get ;;
        if _hasDetectedGesture h then
          _pushEvent GestureStart ;;
          gesture_over id
        else if negb (_state h =? GH_NOGESTURE) then ret tt
        else gesture_over id
    end) h = (Ret tt, h') /\ sound (remove Z.eq_dec id fingers) h'.
Proof.
  intros Hl Hf Hw Hwt Hp. rewrite timed_out. set (b := _ || _). destruct (find_touch id (_tracked h)) eqn:Ef; [|congruence].
  unfold bind at 1, modify at 1. cbn beta iota. apply (wait_sound fingers id (if b then set_state GH_NOGESTURE h else h)).
  - destruct b; auto. destruct Hl. split; auto.
  - destruct b; cbn [_tracked set_state]; rewrite Ef; discriminate.
  - now apply waits_out.
  - now destruct b.
  - now destruct b.
Qed.

Lemma leave_sound fingers now id h : sound fingers h -> _tracked h <> [] -> ~ In id (_ignored h) ->
  find_touch id (_tracked h) <> None -> twoTouch_pending h = false ->
  exists h', leave now id h = (Ret tt, h') /\ sound (remove Z.eq_dec id fingers) h'.
Proof.
  intros Hs Hne Hn Hf Ht. assert (Hk := sound_tracking _ _ Hs Hne). unfold leave. unfold bind at 1, get at 1. cbn beta iota.
  destruct (_hasDetectedGesture h) eqn:Ed; cbn [negb].
  - assert (Er := Ed). rewrite (detected h Hk) in Er.
    assert (Hlp : longpress_pending h = false).
    { destruct (longpress_pending h) eqn:El; auto. destruct (k_long _ Hk El) as [[E|[E|[]]] _]; rewrite <- E in Er; discriminate. }
    assert (Hl := sound_leaving fingers id h Hs Hn Hlp Ht).
    unfold bind at 1, ret at 1. cbn beta iota. unfold bind at 1, get at 1. cbn beta iota.
    assert (Hu := s_stream _ _ Hs). unfold under_way in Hu. unfold recognised in Er.
    destruct (_stateToGesture (_state h)) as [g|e|] eqn:Eg; try discriminate.
    destruct (_waitingRelease h) eqn:Ew.
    + assert (Hw : _state h = GH_TWODRAG \/ _state h = GH_PINCH).
      { assert (Hsh := k_shaped _ Hk). states Hsh; try congruence;
          match goal with E : _state ?v = _ |- _ => rewrite E in Eg |- * end; auto; try discriminate Eg;
          injection Eg as <-; discriminate Er. }
      apply leave_waiting; auto.
      * left. destruct Hw as [->| ->]; member.
      * destruct restless eqn:Ers.
        -- right. split; [exact Ers|]. destruct Hw as [E|E]; rewrite E in Eg; injection Eg as <-; auto.
        -- destruct (k_calm _ Hk Ers Ew) as [[E|[E|[E|[]]]] _]; destruct Hw as [F|F]; rewrite F in E; discriminate E.
    + apply over_sound; auto. rewrite Ed. exists g. split; auto. destruct g; auto; discriminate.
  - assert (Er := Ed). rewrite (detected h Hk) in Er.
    unfold bind at 1. rewrite release_run. unfold bind at 1, get at 1. cbn beta iota.
    destruct (released_same now h) as (E1 & E2 & E3 & E4 & E5 & E6). rewrite E4.
    apply leave_waiting; auto.
    + destruct Hs as [[Hi Hg Ha Hd] _ _]. split; rewrite ?E1, ?E2, ?E5, ?E6; auto.
    + now rewrite E1.
    + now apply released_waits.
    + rewrite E3. apply (loose_of _ _ Er), Hs.
Qed.

Lemma end_sound fingers now id h : sound fingers h -> In id fingers ->
  exists h', _touchEnd now id h = (Ret tt, h') /\ sound (remove Z.eq_dec id fingers) h'.
Proof.
  intros Hs Hin. destruct (is_ignored id h) eqn:Ei; [apply is_ignored_in in Ei; now apply forget_sound|].
  rewrite end_run by auto. apply is_ignored_not in Ei.
  assert (Hf : find_touch id (_tracked h) <> None).
  { apply (c_down _ _ (s_counted _ _ Hs)) in Hin. destruct Hin as [|(t & Ht & <- & _)]; [tauto|].
    assert (Hx : In (t_id t) (map t_id (_tracked h))) by now apply in_map.
    apply find_touch_in in Hx. destruct Hx as [u ->]. discriminate. }
  assert (Hne : _tracked h <> []) by (intros E; rewrite E in Hf; now apply Hf).
  destruct (interrupted_ok fingers h Hs Hne) as (Hs' & Ht & E1 & E2).
  apply leave_sound; rewrite ?E1, ?E2; auto.
Qed.

(** * The timers fire *)

Lemma longpress_sound fingers h : sound fingers h -> longpress_pending h = true ->
  exists h', _longpressTimeout h = (Ret tt, h') /\ sound fingers h'.
Proof.
  intros Hs Hp. assert (Hne : _tracked h <> []) by (intros E; destruct (sound_idle _ _ Hs E); congruence).
  assert (Hk := sound_tracking _ _ Hs Hne). destruct (k_long _ Hk Hp) as (Hst & Ht & Ew).
  unfold _longpressTimeout. unfold bind at 1, modify at 1, bind at 1, get at 1. cbn beta iota.
  assert (Ed : _hasDetectedGesture h = false) by (rewrite (detected _ Hk); destruct Hst as [<-|[<-|[]]]; reflexivity).
  change (_hasDetectedGesture (set_longpress false h)) with (_hasDetectedGesture h). rewrite Ed.
  unfold bind at 1, modify at 1. cbn beta iota.
  destruct (push_run GestureStart (set_state GH_LONGPRESS (set_longpress false h)) LongPress eq_refl Hne) as (e & Ee & ->).
  eexists. split; [reflexivity|]. apply sound_of; auto.
  - apply sound_counted with (1 := Hs); auto.
  - destruct Hk as [H1 H2 _ _ _ _]. split; auto; cbn; [|discriminate|congruence|congruence].
    right. right. left. split; [member | exact Ew].
  - exact (followed_start _ _ _ (sound_loose _ _ Hs Ed) Ee).
Qed.

Lemma twoTouch_sound fingers h : sound fingers h -> twoTouch_pending h = true ->
  exists h', _twoTouchTimeout hypot h = (Ret tt, h') /\ sound fingers h'.
Proof.
  intros Hs Hp. assert (Hne : _tracked h <> []) by (intros E; destruct (sound_idle _ _ Hs E); congruence).
  assert (Hk := sound_tracking _ _ Hs Hne). destruct (k_two _ Hk Hp) as [Hst Ei].
  assert (Ed : _hasDetectedGesture h = false) by (rewrite (detected _ Hk); destruct Hst as [<-|[<-|[]]]; reflexivity).
  assert (Hlp : longpress_pending h = false).
  { destruct (longpress_pending h) eqn:El; auto. destruct (k_long _ Hk El) as (_ & ? & _). congruence. }
  unfold _twoTouchTimeout. unfold bind at 1, modify at 1, bind at 1, get at 1. cbn beta iota.
  set (h1 := set_twoTouch _ false h). change (_tracked h1) with (_tracked h).
  destruct (_tracked h) as [|t l] eqn:Et; [congruence|].
  unfold attempt, _getAverageMovement, _getAverageDistance. change (_tracked h1) with (_tracked h). rewrite Et.
  unfold bind at 1. cbn beta iota. unfold bind at 1. cbn beta iota zeta. unfold bind at 1, modify at 1. cbn beta iota.
  set (st := if _ && _ then _ else _). assert (Hs2 : st = GH_PINCH \/ st = GH_TWODRAG) by (unfold st; destruct (_ && _); auto).
  clearbody st. apply push_begin; auto.
  - apply sound_counted with (1 := Hs); auto.
  - cbn. congruence.
  - destruct Hk as [H1 H2 _ _ _ Hc]. split; auto; cbn; try congruence.
    + left. destruct Hs2 as [->| ->]; member.
    + intros Hr Hw. destruct (Hc Hr Hw) as [_ F]. congruence.
  - destruct Hs2 as [->| ->]; reflexivity.
  - exact (sound_loose _ _ Hs Ed).
Qed.

(** * Results *)

Lemma handle_sound fingers h e : sound fingers h -> possible fingers h e ->
  exists h', handle e h = (Ret tt, h') /\ sound (fingers_after fingers e) h'.
Proof.
  intros Hs Hp. destruct e as [[now id x y|now id x y|now id x y]| |]; cbn in *.
  - now apply start_sound.
  - destruct Hp. now apply move_sound.
  - now apply end_sound.
  - now apply longpress_sound.
  - now apply twoTouch_sound.
Qed.

Lemma reached_sound fingers h : reached fingers h -> sound fingers h.
Proof.
  induction 1 as [|fingers h e h' Hr IH Hp E]; [apply sound_first|].
  destruct (handle_sound fingers h e IH Hp) as (h2 & E2 & Hs). congruence.
Qed.

(** A happening is handled, and its events fit. *)
Lemma handled_well fingers h e : reached fingers h -> possible fingers h e ->
  exists h', handle e h = (Ret tt, h') /\ reached (fingers_after fingers e) h' /\ followed (pushed h') <> None /\
    (fingers_after fingers e = [] -> loose (pushed h') /\
     _state h' = GH_INITSTATE /\ _tracked h' = [] /\ _ignored h' = [] /\ _waitingRelease h' = false /\
     longpress_pending h' = false /\ twoTouch_pending h' = false).
Proof.
  intros Hr Hp. destruct (handle_sound fingers h e (reached_sound _ _ Hr) Hp) as (h' & E & Hs).
  exists h'. split; [exact E|]. split; [econstructor; eauto|]. split.
  - assert (Hu := s_stream _ _ Hs). unfold under_way, loose in Hu.
    destruct (_stateToGesture (_state h')) as [[]|e'|]; intros Q; rewrite Q in Hu; intuition discriminate.
  - intros Ef. assert (Hd := c_down _ _ (s_counted _ _ Hs)). rewrite Ef in Hd.
    assert (Hi : _ignored h' = []).
    { destruct (_ignored h') as [|i r]; auto. destruct (proj2 (Hd i)). left. left. reflexivity. }
    destruct (_tracked h') as [|t l] eqn:Et.
    + destruct (sound_idle _ _ Hs Et) as [Hz1 Hz2 Hz]. rewrite Hi in Hz. split; [|tauto].
      assert (Hu := s_stream _ _ Hs). destruct Hz as [Ez _]. now rewrite Ez in Hu.
    + assert (Ha := k_active _ (sound_tracking _ _ Hs ltac:(congruence))). apply existsb_exists in Ha.
      destruct Ha as (u & Hu & Ea). destruct (proj2 (Hd (t_id u))). right. exists u. rewrite <- Et. auto.
Qed.
End Recognised.

(** C30.  Whatever fingers come down, move and leave, at whatever times and with
    the timers firing at any moment they are running, the recogniser never
    throws ("conflict with a different gesture", "no tracked touches", "Unknown
    gesture state"), and when all fingers are up it is in its initial state, but
    for the stored identifier of a timer that has fired.  As long as no finger
    moves while the recogniser waits for the fingers of a tap to be lifted, the
    events it dispatches are those of one gesture after the other: each starts
    when none is under way, moves under its own name, and has ended when all
    fingers are up.  With fingers that do move then, a gesture of two fingers,
    and no other, may be started a second time or be left without an end. *)
Theorem gestures_well_formed hypot atan2 restless fingers h e :
  reached hypot atan2 restless fingers h -> possible restless fingers h e ->
  exists h', handle hypot atan2 e h = (Ret tt, h') /\ followed restless (pushed h') <> None /\
    (fingers_after fingers e = [] ->
     _state h' = GH_INITSTATE /\ _tracked h' = [] /\ _ignored h' = [] /\ _waitingRelease h' = false /\
     longpress_pending h' = false /\ twoTouch_pending h' = false /\
     (restless = false -> followed restless (pushed h') = Some None)).
Proof.
  intros Hr Hp. destruct (handled_well _ _ _ fingers h e Hr Hp) as (h' & E & _ & Hf & Hi).
  exists h'. split; [exact E|]. split; [exact Hf|]. intros Ef. destruct (Hi Ef) as (Hl & H1 & H2 & H3 & H4 & H5 & H6).
  repeat (split; [assumption|]). intros Er. destruct Hl as [Hl|[Hl _]]; [exact Hl|congruence].
Qed.

(** * Concrete runs *)

(** Any distance function and any angles do. *)
Definition some_hypot (a b : Q) : Q := (Qabs a + Qabs b)%Q.
Definition some_atan2 (a b : Q) : Q := 0%Q.

Fixpoint play (l : list happening) : M handler unit :=
  match l with
  | [] => ret tt
  | e :: l => handle some_hypot some_atan2 e ;; play l
  end.

Definition shown (l : list happening) : list (gesture_phase * gesture_type) :=
  map (fun e => (fst e, g_type (snd e))) (pushed (snd (play l constructor))).

Definition down (now id : Z) (x y : Q) := Touched (TouchStart now id x y).
Definition moved (now id : Z) (x y : Q) := Touched (TouchMove now id x y).
Definition up (now id : Z) := Touched (TouchEnd now id 0 0).

Lemma gestures_well_formed_witness :
  exists fingers h h', reached some_hypot some_atan2 false fingers h /\ possible false fingers h LongpressFires /\
    handle some_hypot some_atan2 LongpressFires h = (Ret tt, h') /\ followed false (pushed h') <> None.
Proof.
  assert (Hr : reached some_hypot some_atan2 false [7] (snd (handle some_hypot some_atan2 (down 0 7 10 20) constructor))).
  { refine (reached_next _ _ _ [] constructor (down 0 7 10 20) _ (reached_first _ _ _) _ _); [intros []|reflexivity]. }
  destruct (gestures_well_formed some_hypot some_atan2 false _ _ LongpressFires Hr eq_refl) as (h' & E & F & _).
  exists [7], (snd (handle some_hypot some_atan2 (down 0 7 10 20) constructor)), h'.
  split; [exact Hr | split; [reflexivity | auto]].
Defined.

(** A tap after a gesture that the timer of two touches decided is not seen: the
    identifier of the timer that fired is still stored. *)
Lemma tap_lost :
  shown [down 0 1 0 0; down 10 2 300 0; moved 30 2 400 0; TwoTouchFires; up 100 1; up 110 2; down 500 3 5 5; up 550 3]
  = [(GestureStart, Pinch); (GestureMove, Pinch); (GestureEnd, Pinch)].
Proof. reflexivity. Qed.

(** The same tap on its own. *)
Lemma tap_seen : shown [down 500 3 5 5; up 550 3] = [(GestureStart, OneTap); (GestureEnd, OneTap)].
Proof. reflexivity. Qed.

(** The second of two fingers moves after the first was lifted: the gesture it
    starts is started again when it ends soon, and does not end when it ends
    late. *)
Lemma gesture_restarted :
  shown [down 0 1 0 0; down 10 2 300 0; up 20 1; moved 30 2 300 200; TwoTouchFires; up 100 2]
  = [(GestureStart, Pinch); (GestureMove, Pinch); (GestureStart, Pinch); (GestureEnd, Pinch)] /\
  shown [down 0 1 0 0; down 10 2 300 0; up 20 1; moved 30 2 300 200; TwoTouchFires; up 400 2]
  = [(GestureStart, Pinch); (GestureMove, Pinch)].
Proof. split; reflexivity. Qed.
