(* ===== verification/KeyboardCorrect.v ===== *)
(** Theorems on the keyboard: what the client is told is a consistent account of
    the keys that are down, a release of everything leaves nothing down, and
    every keysym is one. *)

From Stdlib Require Import ZArith List Lia Bool String.
From S2P Require Import Prelude Source Sink Websock Display Decoder Messages Lifecycle Rfb Handshake Inflator Keytables Session Keyboard.
Import ListNotations JS JSFacts.
Import Keytables.Keytables Keyboard.Keyboard.
Open Scope Z_scope.
Open Scope code_scope.

(** * What can happen *)

Inductive key_happening :=
| KeyDown (e : key_event)
| KeyUp (e : key_event)
| AltGrFires
| Blur.

(** The value of a key has 16-bit characters. *)
Definition event_ok (e : key_event) : Prop :=
  match e_key e with Some l => Forall (fun u => 0 <= u < 65536) l | None => True end.

Definition key_possible (k : keyboard) (h : key_happening) : Prop :=
  match h with
  | KeyDown e | KeyUp e => event_ok e
  | AltGrFires => altGr_pending k = true
  | Blur => True
  end.

Section Keys.
Variables (os : platform) (toUpperCase : Z -> Z).

Definition key_handle (h : key_happening) : M keyboard unit :=
  match h with
  | KeyDown e => _handleKeyDown os toUpperCase e
  | KeyUp e => _handleKeyUp os toUpperCase e
  | AltGrFires => _handleAltGrTimeout
  | Blur => _allKeysUp
  end.

Inductive key_reached : keyboard -> Prop :=
| key_first : key_reached constructor
| key_next k h k' : key_reached k -> key_possible k h -> key_handle h k = (Ret tt, k') -> key_reached k'.

(** * The account of the keys *)

Definition keysym_eqb (a b : option Z) : bool :=
  match a, b with Some a, Some b => a =? b | None, None => true | _, _ => false end.

(** A server that is told a key: the keys down afterwards, nothing when it is
    pressed again under another keysym, released under another keysym, or
    released without being down. *)
Definition hear (l : list (string * option Z)) (o : key_out) : option (list (string * option Z)) :=
  match down_keysym l (o_code o) with
  | Some s =>
      if keysym_eqb s (o_keysym o) then Some (if o_down o then l else delete_down l (o_code o)) else None
  | None => if o_down o then Some (l ++ [(o_code o, o_keysym o)]) else None
  end.

Fixpoint hear_all (l : list (string * option Z)) (outs : list key_out) : option (list (string * option Z)) :=
  match outs with
  | [] => Some l
  | o :: outs => match hear l o with Some l => hear_all l outs | None => None end
  end.

Lemma hear_all_app l outs o l' : hear_all l outs = Some l' -> hear_all l (outs ++ [o]) = hear l' o.
Proof.
  revert l. induction outs as [|a outs IH]; cbn; intros l.
  - intros [= ->]. now destruct (hear l' o).
  - destruct (hear l a); [apply IH|discriminate].
Qed.

Lemma keysym_eqb_refl s : keysym_eqb s s = true.
Proof. destruct s; cbn; auto using Z.eqb_refl. Qed.

(** ** Facts on the list of keys *)

Lemma put_new l code s : down_keysym l code = None -> put_down l code s = l ++ [(code, s)].
Proof.
  unfold down_keysym, lookup_by. induction l as [|[c v] l IH]; cbn; auto.
  destruct (String.eqb c code); [discriminate|]. intros E. now rewrite IH.
Qed.

Lemma put_same l code s : down_keysym l code = Some s -> put_down l code s = l.
Proof.
  unfold down_keysym, lookup_by. induction l as [|[c v] l IH]; cbn; [discriminate|].
  destruct (String.eqb c code); cbn; [intros [= ->]; auto|]. intros E. now rewrite IH.
Qed.

Lemma down_app l c v code : down_keysym (l ++ [(c, v)]) code =
  match down_keysym l code with Some s => Some s | None => if String.eqb c code then Some v else None end.
Proof.
  unfold down_keysym, lookup_by. induction l as [|[c' v'] l IH]; cbn; [now destruct (String.eqb c code)|].
  destruct (String.eqb c' code); auto.
Qed.

Lemma down_delete l code code' : down_keysym (delete_down l code) code' =
  if String.eqb code code' then None else down_keysym l code'.
Proof.
  unfold down_keysym, lookup_by, delete_down. induction l as [|[c v] l IH]; cbn; [now destruct (String.eqb _ _)|].
  destruct (String.eqb_spec c code) as [->|Hne]; cbn; destruct (String.eqb_spec code code') as [->|]; auto.
  - destruct (String.eqb_spec c code'); [congruence|exact IH].
  - destruct (String.eqb_spec c code'); auto.
Qed.

(** ** The invariant *)

Definition not_down (l : list (string * option Z)) (code : string) : Prop := down_keysym l code = None.

Record key_sound (k : keyboard) : Prop := {
  ks_told : hear_all [] (told k) = Some (_keyDownList k);
  ks_unidentified : not_down (_keyDownList k) "Unidentified";
  ks_caps : apple os = true -> not_down (_keyDownList k) "CapsLock";
  ks_armed : _altGrArmed k = true -> not_down (_keyDownList k) "ControlLeft";
  ks_pending : altGr_pending k = _altGrArmed k
}.

(** A press under a keysym that fits what is down. *)
Definition fits (k : keyboard) (code : string) (keysym : option Z) : Prop :=
  match down_keysym (_keyDownList k) code with Some s => s = keysym | None => True end.

Definition pressed (keysym : option Z) (code : string) (numlock capslock : lock) (k : keyboard) : keyboard :=
  add_told (KeyOut keysym code true numlock capslock) (set_down (put_down (_keyDownList k) code keysym) k).

Lemma send_down keysym code n c k : _sendKeyEvent keysym code true n c k = (Ret tt, pressed keysym code n c k).
Proof. reflexivity. Qed.

Lemma pressed_told keysym code n c k : hear_all [] (told k) = Some (_keyDownList k) -> fits k code keysym ->
  hear_all [] (told (pressed keysym code n c k)) = Some (_keyDownList (pressed keysym code n c k)).
Proof.
  intros E Hf. cbn. rewrite (hear_all_app _ _ _ _ E). unfold hear, fits in *. cbn.
  destruct (down_keysym (_keyDownList k) code) as [s|] eqn:Ed.
  - subst s. now rewrite keysym_eqb_refl, put_same.
  - now rewrite put_new.
Qed.

Lemma pressed_down keysym code n c k code' :
  fits k code keysym ->
  down_keysym (_keyDownList (pressed keysym code n c k)) code' =
  if String.eqb code code' then Some keysym else down_keysym (_keyDownList k) code'.
Proof.
  unfold fits. cbn. destruct (down_keysym (_keyDownList k) code) as [s|] eqn:Ed.
  - intros ->. rewrite put_same by auto. destruct (String.eqb_spec code code') as [<-|]; auto.
  - intros _. rewrite put_new, down_app by auto. destruct (String.eqb_spec code code') as [<-|]; [now rewrite Ed|].
    now destruct (down_keysym (_keyDownList k) code').
Qed.

Lemma pressed_sound keysym code n c k : key_sound k -> fits k code keysym -> code <> "Unidentified"%string ->
  (apple os = true -> code <> "CapsLock"%string) -> (_altGrArmed k = true -> code <> "ControlLeft"%string) ->
  key_sound (pressed keysym code n c k).
Proof.
  intros [H1 H2 H3 H4 H5] Hf Hu Hc Ha.
  assert (Hn : forall code', code <> code' -> not_down (_keyDownList k) code' ->
    not_down (_keyDownList (pressed keysym code n c k)) code').
  { intros code' Hne Hd. unfold not_down. rewrite pressed_down by auto. now destruct (String.eqb_spec code code'). }
  split; auto. now apply pressed_told.
Qed.

(** A release of a key under its keysym. *)
Definition freed (keysym : option Z) (code : string) (numlock capslock : lock) (k : keyboard) : keyboard :=
  if is_down k code then
    add_told (KeyOut keysym code false numlock capslock) (set_down (delete_down (_keyDownList k) code) k)
  else k.

Lemma send_up keysym code n c k : _sendKeyEvent keysym code false n c k = (Ret tt, freed keysym code n c k).
Proof. unfold _sendKeyEvent, freed, bind, get, modify, ret. now destruct (is_down k code). Qed.

Lemma freed_down keysym code n c k code' :
  down_keysym (_keyDownList (freed keysym code n c k)) code' =
  if String.eqb code code' then None else down_keysym (_keyDownList k) code'.
Proof.
  unfold freed, is_down. destruct (down_keysym (_keyDownList k) code) eqn:Ed; cbn; [apply down_delete|].
  destruct (String.eqb_spec code code') as [<-|]; auto.
Qed.

Lemma freed_told keysym code n c k : hear_all [] (told k) = Some (_keyDownList k) -> fits k code keysym ->
  hear_all [] (told (freed keysym code n c k)) = Some (_keyDownList (freed keysym code n c k)).
Proof.
  intros E Hf. unfold freed, is_down, fits in *.
  destruct (down_keysym (_keyDownList k) code) as [s|] eqn:Ed; [|exact E].
  cbn. rewrite (hear_all_app _ _ _ _ E). unfold hear. cbn. rewrite Ed. subst s. now rewrite keysym_eqb_refl.
Qed.

Lemma freed_sound keysym code n c k : key_sound k -> fits k code keysym -> key_sound (freed keysym code n c k).
Proof.
  intros [H1 H2 H3 H4 H5] Hf.
  assert (Hn : forall code', not_down (_keyDownList k) code' -> not_down (_keyDownList (freed keysym code n c k)) code').
  { intros code' Hd. unfold not_down. rewrite freed_down. now destruct (String.eqb code code'). }
  assert (Ea : _altGrArmed (freed keysym code n c k) = _altGrArmed k) by (unfold freed; now destruct (is_down k code)).
  assert (Ep : altGr_pending (freed keysym code n c k) = altGr_pending k) by (unfold freed; now destruct (is_down k code)).
  split; rewrite ?Ea, ?Ep; auto. now apply freed_told.
Qed.

Lemma recorded_fits k code : fits k code (recorded k code).
Proof. unfold fits, recorded. now destruct (down_keysym (_keyDownList k) code). Qed.

(** Pressed and released at once. *)
Lemma tap_sound keysym code n c k : key_sound k -> fits k code keysym ->
  exists k', tap keysym code n c k = (Ret tt, k') /\ key_sound k'.
Proof.
  intros Hs Hf. unfold tap. rewrite (bind_run _ _ _ _ _ (send_down keysym code n c k)), send_up.
  eexists. split; [reflexivity|].
  assert (Hf' : fits (pressed keysym code n c k) code keysym)
    by (unfold fits; rewrite pressed_down by auto; now rewrite String.eqb_refl).
  destruct Hs as [H1 H2 H3 H4 H5].
  assert (Hn : forall code', not_down (_keyDownList k) code' ->
    not_down (_keyDownList (freed keysym code n c (pressed keysym code n c k))) code').
  { intros code' Hd. unfold not_down. rewrite freed_down, pressed_down by auto. now destruct (String.eqb code code'). }
  assert (Ea : forall k0, _altGrArmed (freed keysym code n c k0) = _altGrArmed k0 /\
    altGr_pending (freed keysym code n c k0) = altGr_pending k0)
    by (intros k0; unfold freed; now destruct (is_down k0 code)).
  destruct (Ea (pressed keysym code n c k)) as [Ea1 Ep1]. split; rewrite ?Ea1, ?Ep1; cbn [_altGrArmed altGr_pending]; auto.
  apply freed_told; auto. now apply pressed_told.
Qed.

Lemma disarmed_sound k : key_sound k -> key_sound (set_armed false false k).
Proof. intros []. split; auto. discriminate. Qed.

Lemma ctrl_sound n c k : key_sound k -> _altGrArmed k = true ->
  key_sound (pressed (Some XK_Control_L) "ControlLeft" n c (set_armed false false k)).
Proof.
  intros Hs Ha. apply pressed_sound; [now apply disarmed_sound | | discriminate | discriminate | discriminate].
  unfold fits. cbn [_keyDownList set_armed]. now rewrite (ks_armed _ Hs Ha).
Qed.

Lemma pressed_any_sound e code keysym n c k : key_sound k -> _altGrArmed k = false ->
  exists k', key_pressed os e code keysym n c k = (Ret tt, k') /\ key_sound k'.
Proof.
  intros Hs Ha. unfold key_pressed. destruct (String.eqb_spec code "Unidentified") as [->|Hu].
  { destruct (negb (falsy keysym)); [|now exists k]. apply tap_sound; auto.
    unfold fits. now rewrite (ks_unidentified _ Hs). }
  unfold bind at 1, get at 1. cbv zeta beta iota.
  set (s := match down_keysym (_keyDownList k) code with Some s => s | None => _ end).
  assert (Hf : fits k code s) by (unfold fits, s; now destruct (down_keysym (_keyDownList k) code)).
  clearbody s. case_if; [now apply tap_sound|].
  destruct (apple os && String.eqb code "CapsLock") eqn:Ec.
  { apply andb_true_iff in Ec. destruct Ec as [Eap _]. apply tap_sound; auto.
    unfold fits. now rewrite (ks_caps _ Hs Eap). }
  case_if; [now apply tap_sound|].
  destruct (String.eqb code "ControlLeft" && isWindows os && negb (is_down k "ControlLeft")) eqn:Ew.
  - eexists. split; [reflexivity|]. apply andb_true_iff in Ew. destruct Ew as [_ Ew]. destruct Hs.
    split; auto. intros _. unfold not_down. cbn. unfold is_down in Ew. now destruct (down_keysym _ _).
  - eexists. split; [apply send_down|]. apply pressed_sound; auto; [|congruence].
    intros Eap ->. rewrite Eap in Ec. discriminate.
Qed.

Lemma key_down_sound e k : key_sound k ->
  exists k', _handleKeyDown os toUpperCase e k = (Ret tt, k') /\ key_sound k'.
Proof.
  intros Hs. unfold _handleKeyDown. cbv zeta. unfold bind at 1, get at 1. cbn beta iota.
  destruct (_altGrArmed k) eqn:Ea; [|now apply pressed_any_sound].
  unfold bind at 1, modify at 1. cbn beta iota. case_if.
  - apply pressed_any_sound; auto using disarmed_sound.
  - rewrite (bind_run _ _ _ _ _ (send_down _ _ _ _ _)). apply pressed_any_sound; auto using ctrl_sound.
Qed.

Lemma release_shift_sound code k : key_sound k -> exists k', release_shift code k = (Ret tt, k') /\ key_sound k'.
Proof.
  intros Hs. unfold release_shift, bind, get. destruct (is_down k code); [|now exists k].
  rewrite send_up. eexists. split; [reflexivity|]. apply freed_sound; auto using recorded_fits.
Qed.

Lemma key_up_sound e k : key_sound k ->
  exists k', _handleKeyUp os toUpperCase e k = (Ret tt, k') /\ key_sound k'.
Proof.
  intros Hs. unfold _handleKeyUp. cbv zeta. unfold bind at 1, get at 1. cbn beta iota.
  assert (H1 : exists k1, (if _altGrArmed k then
     modify (set_armed false false) ;;
     _sendKeyEvent (Some XK_Control_L) "ControlLeft" true LockNull LockNull
   else ret tt) k = (Ret tt, k1) /\ key_sound k1).
  { destruct (_altGrArmed k) eqn:Ea; [|now exists k]. eexists. split; [reflexivity|]. now apply ctrl_sound. }
  destruct H1 as (k1 & E1 & Hs1). rewrite (bind_run _ _ _ _ _ E1).
  destruct (apple os && _) eqn:Ec.
  { apply andb_true_iff in Ec. destruct Ec as [Eap _]. apply tap_sound; auto.
    unfold fits. now rewrite (ks_caps _ Hs1 Eap). }
  unfold bind at 1, get at 1. cbn beta iota.
  rewrite (bind_run _ _ _ _ _ (send_up _ _ _ _ _)).
  assert (Hs2 := freed_sound _ (_getKeyCode os toUpperCase e) LockNull LockNull k1 Hs1 (recorded_fits k1 _)).
  case_if; [|now eexists].
  destruct (release_shift_sound "ShiftRight" _ Hs2) as (k3 & E3 & Hs3). rewrite (bind_run _ _ _ _ _ E3).
  now apply release_shift_sound.
Qed.

Lemma keys_up_sound codes k : key_sound k -> exists k', keys_up codes k = (Ret tt, k') /\ key_sound k'.
Proof.
  revert k. induction codes as [|code codes IH]; intros k Hs; cbn [keys_up]; [now exists k|].
  unfold bind at 1, get at 1. cbn beta iota. rewrite (bind_run _ _ _ _ _ (send_up _ _ _ _ _)).
  apply IH, freed_sound; auto using recorded_fits.
Qed.

Lemma key_handle_sound h k : key_sound k -> key_possible k h ->
  exists k', key_handle h k = (Ret tt, k') /\ key_sound k'.
Proof.
  intros Hs Hp. destruct h as [e|e| |]; cbn [key_handle key_possible] in *.
  - now apply key_down_sound.
  - now apply key_up_sound.
  - eexists. split; [reflexivity|]. apply ctrl_sound; auto. rewrite <- (ks_pending _ Hs). exact Hp.
  - now apply keys_up_sound.
Qed.

Lemma key_reached_sound k : key_reached k -> key_sound k.
Proof.
  induction 1 as [|k h k' Hr IH Hp E]; [split; auto; reflexivity|].
  destruct (key_handle_sound h k IH Hp) as (k2 & E2 & Hs). congruence.
Qed.

(** ** Distinct keys *)

Lemma down_in l code : down_keysym l code = None -> ~ In code (map fst l).
Proof.
  unfold down_keysym, lookup_by. induction l as [|[c v] l IH]; cbn; [tauto|].
  destruct (String.eqb_spec c code); [discriminate|]. intros E [|]; auto. now apply IH.
Qed.

Lemma delete_keeps l code : NoDup (map fst l) -> NoDup (map fst (delete_down l code)).
Proof.
  unfold delete_down. induction l as [|[c v] l IH]; cbn; auto. intros Hn. inversion Hn as [|? ? Hi Hl]; subst.
  destruct (String.eqb c code); cbn; auto. constructor; auto. intros Hx. apply Hi.
  apply in_map_iff in Hx. destruct Hx as (e & <- & He). apply filter_In in He. apply in_map. tauto.
Qed.

Lemma hear_nodup l o l' : hear l o = Some l' -> NoDup (map fst l) -> NoDup (map fst l').
Proof.
  unfold hear. intros E Hn. destruct (down_keysym l (o_code o)) eqn:Ed.
  - destruct (keysym_eqb _ _); [|discriminate]. injection E as <-. destruct (o_down o); auto. now apply delete_keeps.
  - destruct (o_down o); [|discriminate]. injection E as <-. rewrite map_app. apply down_in in Ed.
    apply NoDup_app; auto; [repeat constructor; auto|]. intros c Hc [<-|[]]. auto.
Qed.

Lemma hear_all_nodup l outs l' : hear_all l outs = Some l' -> NoDup (map fst l) -> NoDup (map fst l').
Proof.
  revert l. induction outs as [|o outs IH]; cbn; intros l; [now intros [= <-]|].
  destruct (hear l o) as [l1|] eqn:E; [|discriminate]. intros Ea Hn. apply (IH l1); auto. eapply hear_nodup; eauto.
Qed.

Definition released_key (e : string * option Z) : key_out := KeyOut (snd e) (fst e) false LockNull LockNull.

Lemma delete_head c v l : ~ In c (map fst l) -> delete_down ((c, v) :: l) c = l.
Proof.
  unfold delete_down. cbn. rewrite String.eqb_refl. cbn. induction l as [|[c' v'] l IH]; cbn; auto. intros Hn.
  destruct (String.eqb_spec c' c); [tauto|]. cbn. now rewrite IH by tauto.
Qed.

Lemma keys_up_all l k : _keyDownList k = l -> NoDup (map fst l) ->
  exists k', keys_up (map fst l) k = (Ret tt, k') /\ _keyDownList k' = [] /\ told k' = told k ++ map released_key l /\
    _altGrArmed k' = _altGrArmed k /\ _altGrCtrlTime k' = _altGrCtrlTime k.
Proof.
  revert k. induction l as [|[c v] l IH]; intros k El Hn; cbn [keys_up map fst].
  - exists k. rewrite app_nil_r. auto.
  - inversion Hn as [|? ? Hi Hl]; subst. unfold bind at 1, get at 1. cbn beta iota.
    rewrite (bind_run _ _ _ _ _ (send_up _ _ _ _ _)).
    assert (Ed : down_keysym (_keyDownList k) c = Some v).
    { rewrite El. unfold down_keysym, lookup_by. cbn. now rewrite String.eqb_refl. }
    assert (Ef : freed (recorded k c) c LockNull LockNull k = add_told (released_key (c, v)) (set_down l k)).
    { unfold freed, is_down, recorded. rewrite Ed, El, delete_head by auto. reflexivity. }
    rewrite Ef. destruct (IH (add_told (released_key (c, v)) (set_down l k)) eq_refl Hl) as (k' & E & E1 & E2 & E3).
    exists k'. split; [exact E|]. split; [exact E1|]. split; [|exact E3]. rewrite E2. cbn [told add_told set_down map].
    now rewrite <- app_assoc.
Qed.

(** * The keys that are down

    An account kept from the events alone: the keys that are down, each with the
    keysym of its press, and the time of a left Ctrl of which it is not known yet
    whether it is the first half of an AltGr. *)

Record account := Account { a_down : list (string * option Z); a_ctrl : option Z }.

Definition press (c : string) (s : option Z) (a : account) : account :=
  match down_keysym (a_down a) c with Some _ => a | None => Account (a_down a ++ [(c, s)]) (a_ctrl a) end.
Definition lift (c : string) (a : account) : account := Account (delete_down (a_down a) c) (a_ctrl a).

(** The Ctrl was one of its own. *)
Definition ctrl_pressed (a : account) : account := press "ControlLeft" (Some XK_Control_L) (Account (a_down a) None).

Definition windows_shift (c : string) : bool := isWindows os && (String.eqb c "ShiftLeft" || String.eqb c "ShiftRight").

(** Presses after which a key is not down: the browser would not tell its
    release. *)
Definition momentary (e : key_event) (c : string) : bool :=
  apple os && (e_metaKey e && negb (String.eqb c "MetaLeft") && negb (String.eqb c "MetaRight")) ||
  apple os && String.eqb c "CapsLock".
Definition bad_release (s : option Z) : bool :=
  isWindows os && match s with Some s => existsb (Z.eqb s) jpBadKeys | None => false end.

Definition press_account (e : key_event) (c : string) (s : option Z) (a : account) : account :=
  if String.eqb c "Unidentified" then a
  else if momentary e c then lift c a
  else if bad_release (match down_keysym (a_down a) c with Some s => s | None => shuffled os s end) then lift c a
  else match down_keysym (a_down a) c with
  | Some _ => a
  | None => if String.eqb c "ControlLeft" && isWindows os then Account (a_down a) (Some (e_timeStamp e)) else press c (shuffled os s) a
  end.

Definition account_after (h : key_happening) (a : account) : account :=
  match h with
  | KeyDown e =>
      let c := _getKeyCode os toUpperCase e in
      match a_ctrl a with
      | None => press_account e c (getKeysym os e) a
      | Some t =>
          if String.eqb c "AltRight" && (e_timeStamp e - t <? 50)
          then press_account e c (Some XK_ISO_Level3_Shift) (Account (a_down a) None)
          else press_account e c (getKeysym os e) (ctrl_pressed a)
      end
  | KeyUp e =>
      let c := _getKeyCode os toUpperCase e in
      let a := lift c (match a_ctrl a with None => a | Some _ => ctrl_pressed a end) in
      if windows_shift c then lift "ShiftLeft" (lift "ShiftRight" a) else a
  | AltGrFires => ctrl_pressed a
  | Blur => Account [] (a_ctrl a)
  end.

(** The physical keys that may be down: pressed, not released since, and not
    before a loss of the focus, but for a Ctrl that is still undecided then. *)
Definition without (c : string) (l : list string) : list string := filter (fun x => negb (String.eqb x c)) l.

Definition held_after (a : account) (h : key_happening) (held : list string) : list string :=
  match h with
  | KeyDown e => _getKeyCode os toUpperCase e :: held
  | KeyUp e =>
      let c := _getKeyCode os toUpperCase e in
      if windows_shift c then without "ShiftLeft" (without "ShiftRight" (without c held)) else without c held
  | AltGrFires => held
  | Blur => match a_ctrl a with Some _ => ["ControlLeft"%string] | None => [] end
  end.

Inductive lived : list string -> account -> keyboard -> Prop :=
| lived_first : lived [] (Account [] None) constructor
| lived_next held a k h k' : lived held a k -> key_possible k h -> key_handle h k = (Ret tt, k') ->
    lived (held_after a h held) (account_after h a) k'.

Lemma lived_reached held a k : lived held a k -> key_reached k.
Proof. induction 1; [constructor|]. eapply key_next; eassumption. Qed.

(** ** The account is within the keys held *)

Definition within (held : list string) (a : account) : Prop :=
  incl (map fst (a_down a)) held /\ (a_ctrl a <> None -> In "ControlLeft"%string held).

Lemma in_delete c' c l : In c' (map fst (delete_down l c)) <-> In c' (map fst l) /\ c' <> c.
Proof.
  unfold delete_down. rewrite !in_map_iff. split.
  - intros ([x v] & <- & Hi). apply filter_In in Hi. cbn in Hi. destruct Hi as [Hi E]. destruct (String.eqb_spec x c); [discriminate|].
    split; [exists (x, v); auto|exact n].
  - intros [([x v] & <- & Hi) Hn]. exists (x, v). split; [reflexivity|]. apply filter_In. split; [exact Hi|]. cbn in *.
    destruct (String.eqb_spec x c); auto.
Qed.

Lemma in_without c' c l : In c' (without c l) <-> In c' l /\ c' <> c.
Proof.
  unfold without. rewrite filter_In. destruct (String.eqb_spec c' c); cbn; intuition congruence.
Qed.

Lemma within_press held c s a : within held a -> In c held -> within held (press c s a).
Proof.
  intros [H1 H2] Hc. unfold press. destruct (down_keysym (a_down a) c); [now split|]. split; [|exact H2].
  cbn. rewrite map_app. apply incl_app; [exact H1|]. intros x [<-|[]]. exact Hc.
Qed.

Lemma within_ctrl held a : within held a -> a_ctrl a <> None -> within held (ctrl_pressed a).
Proof. intros [H1 H2] Hn. apply within_press; [|auto]. split; [exact H1|]. cbn. congruence. Qed.

Lemma within_lift held c a : within held a -> within held (lift c a).
Proof. intros [H1 H2]. split; [|exact H2]. intros x Hx. apply H1. now apply (in_delete x c) in Hx. Qed.

Lemma within_more held c a : within held a -> within (c :: held) a.
Proof. intros [H1 H2]. split; [now apply incl_tl|right; auto]. Qed.

Lemma within_pressed held e c s a : within held a -> In c held -> within held (press_account e c s a).
Proof.
  intros Ha Hc. unfold press_account. do 2 (case_if; [auto using within_lift|]). destruct (down_keysym (a_down a) c) eqn:Ed.
  - case_if; auto using within_lift.
  - case_if; [auto using within_lift|]. destruct (String.eqb_spec c "ControlLeft") as [->|]; [|now apply within_press].
    destruct (isWindows os); cbn [andb]; [|now apply within_press]. split; [apply Ha|auto].
Qed.

Lemma within_up held c a : within held a -> a_ctrl a = None -> within (without c held) (lift c a).
Proof.
  intros [H1 H2] En. split; [|cbn; congruence]. intros x Hx. apply (in_delete x c) in Hx. apply in_without. split; [apply H1|]; tauto.
Qed.

Lemma ctrl_pressed_none a : a_ctrl (ctrl_pressed a) = None.
Proof. unfold ctrl_pressed, press. cbn. now destruct (down_keysym _ _). Qed.

Lemma within_after held a h : within held a -> (h = AltGrFires -> a_ctrl a <> None) -> within (held_after a h held) (account_after h a).
Proof.
  intros Ha Hp. destruct h as [e|e| |]; cbn [held_after account_after].
  - assert (Hm := within_more held (_getKeyCode os toUpperCase e) a Ha). destruct (a_ctrl a) as [t|] eqn:Ec.
    + case_if; apply within_pressed; try (left; reflexivity); [split; [apply Hm|cbn; congruence]|apply within_ctrl; congruence].
    + apply within_pressed; [exact Hm|left; reflexivity].
  - set (c := _getKeyCode os toUpperCase e). set (a1 := match a_ctrl a with None => a | Some _ => ctrl_pressed a end).
    assert (H1 : within held a1 /\ a_ctrl a1 = None).
    { unfold a1. destruct (a_ctrl a) eqn:Ec; [|auto]. split; [apply within_ctrl; congruence|apply ctrl_pressed_none]. }
    destruct H1 as [H1 En]. assert (H2 := within_up held c a1 H1 En). case_if; [|exact H2]. now do 2 (apply within_up; [|exact En]).
  - apply within_ctrl; auto.
  - split; [now intros x []|]. cbn. destruct (a_ctrl a); [left; reflexivity|congruence].
Qed.

(** ** The keyboard keeps the account *)

Definition kept (a : account) (k : keyboard) : Prop :=
  _keyDownList k = a_down a /\ a_ctrl a = if _altGrArmed k then Some (_altGrCtrlTime k) else None.

Lemma kept_pressed a k c s n l : kept a k -> fits k c s -> kept (press c s a) (pressed s c n l k).
Proof.
  intros [H1 H2] Hf. unfold press, fits in *. rewrite H1 in Hf. unfold kept, pressed. cbn [_keyDownList add_told set_down _altGrArmed _altGrCtrlTime]. rewrite H1.
  destruct (down_keysym (a_down a) c) as [s'|] eqn:Ed.
  - subst s'. now rewrite put_same.
  - now rewrite put_new.
Qed.

Lemma delete_none l c : down_keysym l c = None -> delete_down l c = l.
Proof.
  intros E. apply down_in in E. unfold delete_down. induction l as [|[x v] l IH]; cbn in *; [reflexivity|].
  destruct (String.eqb_spec x c); [tauto|]. cbn. now rewrite IH by tauto.
Qed.

Lemma kept_freed a k c s n l : kept a k -> kept (lift c a) (freed s c n l k).
Proof.
  intros [H1 H2]. unfold kept, lift, freed, is_down. cbn [a_down a_ctrl]. rewrite <- H1.
  destruct (down_keysym (_keyDownList k) c) eqn:Ed; [now split|]. split; [|exact H2]. symmetry. now apply delete_none.
Qed.

Lemma lift_press c s a : lift c (press c s a) = lift c a.
Proof.
  unfold lift, press. destruct (down_keysym (a_down a) c); [reflexivity|]. cbn. unfold delete_down. rewrite filter_app. cbn.
  now rewrite String.eqb_refl, app_nil_r.
Qed.

Lemma kept_tap a k c s n l : kept a k -> fits k c s -> exists k', tap s c n l k = (Ret tt, k') /\ kept (lift c a) k'.
Proof.
  intros Hk Hf. unfold tap. rewrite (bind_run _ _ _ _ _ (send_down s c n l k)), send_up. eexists. split; [reflexivity|].
  rewrite <- (lift_press c s). now apply kept_freed, kept_pressed.
Qed.

Lemma kept_disarmed a k : kept a k -> kept (Account (a_down a) None) (set_armed false false k).
Proof. intros [H1 _]. now split. Qed.

Lemma kept_ctrl a k n l : kept a k -> key_sound k -> _altGrArmed k = true ->
  kept (ctrl_pressed a) (pressed (Some XK_Control_L) "ControlLeft" n l (set_armed false false k)).
Proof.
  intros Hk Hs Ha. apply kept_pressed; [now apply kept_disarmed|]. unfold fits. cbn. now rewrite (ks_armed _ Hs Ha).
Qed.

Lemma kept_any e c s n l a k : kept a k -> key_sound k -> _altGrArmed k = false ->
  exists k', key_pressed os e c s n l k = (Ret tt, k') /\ kept (press_account e c s a) k'.
Proof.
  intros Hk Hs Ha. unfold key_pressed, press_account. destruct (String.eqb_spec c "Unidentified") as [->|Hu].
  { destruct (negb (falsy s)); [|now exists k].
    destruct (kept_tap a k "Unidentified" s n l Hk) as (k' & E & H); [unfold fits; now rewrite (ks_unidentified _ Hs)|].
    exists k'. split; [exact E|]. unfold lift in H. rewrite delete_none in H; [now destruct a|]. rewrite <- (proj1 Hk). exact (ks_unidentified _ Hs). }
  unfold bind at 1, get at 1. cbv zeta beta iota. rewrite <- (proj1 Hk). fold (is_down k "ControlLeft").
  set (s' := match down_keysym (_keyDownList k) c with Some s => s | None => shuffled os s end).
  assert (Hf : fits k c s') by (unfold fits, s'; now destruct (down_keysym (_keyDownList k) c)).
  unfold momentary, bad_release. destruct (apple os && (e_metaKey e && _ && _)); cbn [orb]; [now apply kept_tap|].
  destruct (apple os && String.eqb c "CapsLock") eqn:Ec.
  { apply andb_true_iff in Ec. destruct Ec as [Eap Ec]. apply String.eqb_eq in Ec. subst c. apply kept_tap; auto.
    unfold fits. now rewrite (ks_caps _ Hs Eap). }
  destruct (isWindows os && _); [now apply kept_tap|].
  destruct (String.eqb_spec c "ControlLeft") as [->|Hc]; cbn [andb].
  - unfold is_down, s' in *. destruct (down_keysym (_keyDownList k) "ControlLeft") as [s0|] eqn:Ed.
    + rewrite andb_false_r. eexists. split; [apply send_down|]. assert (Hp := kept_pressed a k "ControlLeft" s0 n l Hk Hf). unfold press in Hp. now rewrite <- (proj1 Hk), Ed in Hp.
    + rewrite andb_true_r. destruct (isWindows os).
      * eexists. split; [reflexivity|]. split; reflexivity.
      * eexists. split; [apply send_down|]. now apply kept_pressed.
  - unfold s' in *. destruct (down_keysym (_keyDownList k) c) as [s0|] eqn:Ed.
    + eexists. split; [apply send_down|]. assert (Hp := kept_pressed a k c s0 n l Hk Hf). unfold press in Hp. now rewrite <- (proj1 Hk), Ed in Hp.
    + eexists. split; [apply send_down|]. now apply kept_pressed.
Qed.

Lemma kept_down e a k : kept a k -> key_sound k ->
  exists k', _handleKeyDown os toUpperCase e k = (Ret tt, k') /\ kept (account_after (KeyDown e) a) k'.
Proof.
  intros Hk Hs. unfold _handleKeyDown. cbn [account_after]. cbv zeta. unfold bind at 1, get at 1. cbn beta iota.
  rewrite (proj2 Hk). destruct (_altGrArmed k) eqn:Ea; [|now apply kept_any].
  unfold bind at 1, modify at 1. cbn beta iota. case_if.
  - apply kept_any; auto using disarmed_sound, kept_disarmed.
  - rewrite (bind_run _ _ _ _ _ (send_down _ _ _ _ _)). apply kept_any; auto using ctrl_sound, kept_ctrl.
Qed.

Lemma kept_shift c a k : kept a k -> exists k', release_shift c k = (Ret tt, k') /\ kept (lift c a) k'.
Proof.
  intros Hk. unfold release_shift, bind, get. destruct (is_down k c) eqn:Ed.
  - rewrite send_up. eexists. split; [reflexivity|]. now apply kept_freed.
  - exists k. split; [reflexivity|]. assert (Hf := kept_freed a k c None LockNull LockNull Hk). unfold freed in Hf. now rewrite Ed in Hf.
Qed.

Lemma kept_up e a k : kept a k -> key_sound k ->
  exists k', _handleKeyUp os toUpperCase e k = (Ret tt, k') /\ kept (account_after (KeyUp e) a) k'.
Proof.
  intros Hk Hs. unfold _handleKeyUp. cbn [account_after]. cbv zeta. unfold bind at 1, get at 1. cbn beta iota.
  set (a1 := match a_ctrl a with None => a | Some _ => ctrl_pressed a end).
  assert (H1 : exists k1, (if _altGrArmed k then
     modify (set_armed false false) ;;
     _sendKeyEvent (Some XK_Control_L) "ControlLeft" true LockNull LockNull
   else ret tt) k = (Ret tt, k1) /\ kept a1 k1 /\ key_sound k1).
  { unfold a1. rewrite (proj2 Hk). destruct (_altGrArmed k) eqn:Ea; [|now exists k]. eexists. split; [reflexivity|].
    split; [now apply kept_ctrl|now apply ctrl_sound]. }
  destruct H1 as (k1 & E1 & Hk1 & Hs1). rewrite (bind_run _ _ _ _ _ E1). set (c := _getKeyCode os toUpperCase e).
  destruct (apple os && _) eqn:Ec.
  { apply andb_true_iff in Ec. destruct Ec as [Eap Ec]. apply String.eqb_eq in Ec. unfold windows_shift. rewrite Ec. cbn [String.eqb Ascii.eqb Bool.eqb orb].
    rewrite andb_false_r. apply kept_tap; auto. unfold fits. now rewrite (ks_caps _ Hs1 Eap). }
  unfold bind at 1, get at 1. cbn beta iota. rewrite (bind_run _ _ _ _ _ (send_up _ _ _ _ _)).
  assert (Hk2 := kept_freed a1 k1 c (recorded k1 c) LockNull LockNull Hk1). fold (windows_shift c). case_if; [|now eexists].
  destruct (kept_shift "ShiftRight" _ _ Hk2) as (k3 & E3 & Hk3). rewrite (bind_run _ _ _ _ _ E3). now apply kept_shift.
Qed.

Lemma kept_after h a k : kept a k -> key_sound k -> key_possible k h ->
  exists k', key_handle h k = (Ret tt, k') /\ kept (account_after h a) k'.
Proof.
  intros Hk Hs Hp. destruct h as [e|e| |]; cbn [key_handle key_possible] in *.
  - now apply kept_down.
  - now apply kept_up.
  - eexists. split; [reflexivity|]. apply kept_ctrl; auto. rewrite <- (ks_pending _ Hs). exact Hp.
  - unfold _allKeysUp, bind, get. destruct (keys_up_all (_keyDownList k) k eq_refl) as (k' & E & E1 & _ & E3 & E4).
    { apply (hear_all_nodup _ _ _ (ks_told _ Hs)). constructor. }
    exists k'. split; [exact E|]. split; [exact E1|]. rewrite E3, E4. apply Hk.
Qed.

Lemma lived_well held a k : lived held a k -> key_sound k /\ kept a k /\ within held a.
Proof.
  induction 1 as [|held a k h k' Hl (Hs & Hk & Hw) Hp E].
  - split; [apply key_reached_sound; constructor|]. split; [now split|]. split; [now intros x []|]. cbn. congruence.
  - destruct (kept_after h a k Hk Hs Hp) as (k2 & E2 & Hk2). rewrite E in E2. injection E2 as <-.
    destruct (key_handle_sound h k Hs Hp) as (k3 & E3 & Hs3). rewrite E in E3. injection E3 as <-.
    split; [exact Hs3|]. split; [exact Hk2|]. apply within_after; [exact Hw|]. intros ->. cbn in Hp. rewrite (ks_pending _ Hs) in Hp.
    rewrite (proj2 Hk), Hp. discriminate.
Qed.

(** * Results *)

(** C31.  Whatever keys are pressed and released, with or without the browser
    saying which, with AltGr sequences, macOS and Windows quirks and losses of
    focus at any moment, the keyboard never throws and what it tells the client
    is a consistent account: a key that is down is pressed again only under the
    keysym it went down with, and a release names a key that is down and carries
    that same keysym.  The keys down by what was told are those of the account
    kept from the events: a key is down from its press to its release or to a
    loss of the focus, under the keysym of its press, but for the keys whose
    release the browser does not tell, which go up at once, the Ctrl that is half
    an AltGr, and both Shift keys of Windows, which go up together.  All of them
    are keys that are physically down, with one exception: a left Ctrl not yet
    decided upon when the focus is lost is pressed later and stays
    ([ctrl_left_behind]). *)
Theorem keys_consistent held a k h : lived held a k -> key_possible k h ->
  exists k', key_handle h k = (Ret tt, k') /\ hear_all [] (told k') = Some (a_down (account_after h a)) /\
    incl (map fst (a_down (account_after h a))) (held_after a h held).
Proof.
  intros Hl Hp. destruct (lived_well _ _ _ Hl) as (Hs & Hk & _). destruct (key_handle_sound h k Hs Hp) as (k' & E & Hs').
  destruct (lived_well _ _ _ (lived_next held a k h k' Hl Hp E)) as (_ & [E1 _] & [Hw _]).
  exists k'. split; [exact E|]. split; [rewrite <- E1; apply Hs'|exact Hw].
Qed.

(** When the window loses focus, or the keyboard is released, every key that
    is down is released once, in the order of the presses and each under the
    keysym it was pressed with, and by the account of the server none is down. *)
Theorem blur_releases_all k : key_reached k ->
  exists k', _allKeysUp k = (Ret tt, k') /\ told k' = told k ++ map released_key (_keyDownList k) /\
    _keyDownList k' = [] /\ hear_all [] (told k') = Some [].
Proof.
  intros Hr. assert (Hs := key_reached_sound _ Hr).
  assert (Hn : NoDup (map fst (_keyDownList k))) by (apply (hear_all_nodup _ _ _ (ks_told _ Hs)); constructor).
  unfold _allKeysUp, bind, get. destruct (keys_up_all (_keyDownList k) k eq_refl Hn) as (k' & E & E1 & E2 & _).
  exists k'. split; [exact E|]. split; [exact E2|]. split; [exact E1|].
  destruct (keys_up_sound (map fst (_keyDownList k)) k Hs) as (k2 & F & Hs2). rewrite E in F. injection F as <-.
  rewrite (ks_told _ Hs2). now rewrite E1.
Qed.

(** ** Keysyms *)

Definition keysym_ok (s : option Z) : Prop := match s with Some s => 0 < s < 4294967296 | None => True end.

Definition keysym_okb (s : Z) : bool := (0 <? s) && (s <? 4294967296).

Lemma lookup_in {K A} (eqb : K -> K -> bool) (t : list (K * A)) k v : lookup_by eqb t k = Some v -> exists k', In (k', v) t.
Proof.
  unfold lookup_by. destruct (find _ t) as [[k' w]|] eqn:E; [|discriminate]. intros [= <-].
  apply find_some in E. exists k'. tauto.
Qed.

Lemma lookup_ok u : 0 < u < 65536 -> 0 < lookup u < 4294967296.
Proof.
  intros Hu. unfold lookup. case_if; [bool_prop; lia|].
  destruct (lookup_by Z.eqb codepoints u) as [s|] eqn:El.
  - apply lookup_in in El. destruct El as [k' Hin].
    assert (A : forallb (fun e => keysym_okb (snd e)) codepoints = true) by (vm_compute; reflexivity).
    rewrite forallb_forall in A. specialize (A _ Hin). unfold keysym_okb in A. bool_prop. cbn in *. lia.
  - unfold JS.bor. rewrite (toInt32_small u) by lia. change (toInt32 16777216) with (1 * 2 ^ 24).
    rewrite (lor_add 1 u 24) by lia. lia.
Qed.

Lemma lookup_units_in {A} (t : list (string * A)) u v : lookup_units t u = Some v -> exists k, In (k, v) t.
Proof.
  unfold lookup_units. destruct (find _ t) as [[k w]|] eqn:E; [|discriminate]. intros [= <-].
  apply find_some in E. exists k. tauto.
Qed.

Lemma row_ok key row i s : dom_row_units key = Some row -> zget row i = Some s -> 0 < s < 4294967296.
Proof.
  unfold dom_row_units. intros Er Es.
  assert (A : match DOMKeyTable with Some t => forallb (fun e => forallb keysym_okb (snd e)) t | None => true end = true)
    by (vm_compute; reflexivity).
  destruct DOMKeyTable as [t|]; [|discriminate]. apply lookup_units_in in Er. destruct Er as [k Hin].
  rewrite forallb_forall in A. specialize (A _ Hin). rewrite forallb_forall in A. cbn [snd] in A.
  assert (Hs : In s row) by (unfold zget in Es; destruct (i <? 0); [discriminate | eapply nth_error_In; eauto]). specialize (A _ Hs). unfold keysym_okb in A. bool_prop. lia.
Qed.

Lemma units_ok s : Forall (fun u => 0 <= u < 65536) (units s).
Proof.
  apply Forall_forall. intros u Hu. unfold units in Hu. apply in_map_iff in Hu. destruct Hu as (c & <- & _).
  assert (Hb := Ascii.nat_ascii_bounded c). lia.
Qed.

Lemma getKey_ok e : event_ok e -> Forall (fun u => 0 <= u < 65536) (getKey os e).
Proof.
  unfold event_ok, getKey, deduced_key. intros He.
  repeat first [case_if | match goal with |- context [match ?x with _ => _ end] => destruct x end];
    auto using units_ok; repeat constructor; try apply Z.mod_pos_bound; lia.
Qed.

Lemma getKeysym_ok e : event_ok e -> keysym_ok (getKeysym os e).
Proof.
  intros He. assert (Hk := getKey_ok e He). unfold getKeysym. cbv zeta. case_if; [exact I|].
  destruct (dom_row_units (getKey os e)) as [row|] eqn:Er.
  - unfold special_keysym. repeat (case_if; [now vm_compute|]). destruct (zget row _) as [s|] eqn:Es; [|exact I].
    exact (row_ok _ _ _ _ Er Es).
  - destruct (getKey os e) as [|u [|v l]]; try exact I. case_if; [exact I|]. inversion Hk; subst.
    apply lookup_ok. bool_prop. lia.
Qed.

(** ** Every keysym told *)

Definition list_ok (k : keyboard) : Prop :=
  Forall (fun e => keysym_ok (snd e)) (_keyDownList k) /\ Forall (fun o => keysym_ok (o_keysym o)) (told k).

Definition keeps (m : M keyboard unit) : Prop := forall k, list_ok k -> list_ok (snd (m k)).

Lemma keeps_bind m (j : unit -> M keyboard unit) : keeps m -> (forall u, keeps (j u)) -> keeps (bind m j).
Proof.
  intros Hm Hj k Hk. unfold bind. assert (Hk' := Hm k Hk). destruct (m k) as [[u|e|] k']; auto. now apply Hj.
Qed.

Lemma keeps_get (j : keyboard -> M keyboard unit) : (forall k, list_ok k -> list_ok (snd (j k k))) -> keeps (bind get j).
Proof. intros Hj k Hk. now apply Hj. Qed.

Lemma put_ok l code s : keysym_ok s -> Forall (fun e => keysym_ok (snd e)) l ->
  Forall (fun e : string * option Z => keysym_ok (snd e)) (put_down l code s).
Proof.
  intros Hs Hl. induction Hl as [|[c v] l Hv Hl IH]; cbn; [repeat constructor; exact Hs|].
  destruct (String.eqb c code); constructor; auto.
Qed.

Lemma keeps_send keysym code down n c : keysym_ok keysym -> keeps (_sendKeyEvent keysym code down n c).
Proof.
  intros Hs k [H1 H2]. destruct down; [rewrite send_down | rewrite send_up; unfold freed; destruct (is_down k code); [|split; auto]];
    (split; cbn; [|apply Forall_app; auto]).
  - now apply put_ok.
  - apply Forall_forall. intros e He. apply filter_In in He. rewrite Forall_forall in H1. now apply H1.
Qed.

Lemma keeps_tap keysym code n c : keysym_ok keysym -> keeps (tap keysym code n c).
Proof. intros Hs. apply keeps_bind; [|intros _]; now apply keeps_send. Qed.

Lemma keeps_ret : keeps (ret tt).
Proof. intros k Hk. exact Hk. Qed.

Lemma keeps_armed a b : keeps (modify (set_armed a b)).
Proof. intros k Hk. exact Hk. Qed.

Lemma down_ok k code : list_ok k -> match down_keysym (_keyDownList k) code with Some s => keysym_ok s | None => True end.
Proof.
  intros [H1 _]. destruct (down_keysym (_keyDownList k) code) as [s|] eqn:E; auto.
  apply lookup_in in E. destruct E as [c Hin]. rewrite Forall_forall in H1. exact (H1 _ Hin).
Qed.

Lemma recorded_ok k code : list_ok k -> keysym_ok (recorded k code).
Proof.
  intros Hk. assert (Hd := down_ok k code Hk). unfold recorded. now destruct (down_keysym (_keyDownList k) code).
Qed.

Lemma shuffled_ok keysym : keysym_ok keysym -> keysym_ok (shuffled os keysym).
Proof.
  intros Hs. unfold shuffled. destruct keysym as [s|]; auto. case_if; auto.
  destruct (lookup_by Z.eqb mac_keys s) as [r|] eqn:El; auto. apply lookup_in in El. destruct El as [c Hin].
  assert (A : forallb (fun e => keysym_okb (snd e)) mac_keys = true) by reflexivity.
  rewrite forallb_forall in A. specialize (A _ Hin). unfold keysym_okb in A. bool_prop. cbn in *. lia.
Qed.

Lemma keeps_pressed e code keysym n c : keysym_ok keysym -> keeps (key_pressed os e code keysym n c).
Proof.
  intros Hs. unfold key_pressed. case_if; [case_if; auto using keeps_tap, keeps_ret|].
  apply keeps_get. intros k Hk. cbv zeta.
  assert (Hd := down_ok k code Hk). assert (Hs' := shuffled_ok _ Hs).
  set (s := match down_keysym (_keyDownList k) code with Some s => s | None => _ end).
  assert (Hok : keysym_ok s) by (unfold s; now destruct (down_keysym (_keyDownList k) code)). clearbody s.
  repeat (case_if; [first [apply keeps_tap; auto; now vm_compute | exact Hk]|]). now apply keeps_send.
Qed.

Lemma keeps_release_shift code : keeps (release_shift code).
Proof. apply keeps_get. intros k Hk. case_if; auto. apply keeps_send; auto using recorded_ok. Qed.

Lemma keeps_keys_up codes : keeps (keys_up codes).
Proof.
  induction codes as [|code codes IH]; [exact keeps_ret|]. cbn [keys_up]. apply keeps_get. intros k Hk.
  apply (keeps_bind _ (fun _ => keys_up codes)); auto using keeps_send, recorded_ok.
Qed.

Lemma ctrl_ok : keysym_ok (Some XK_Control_L).
Proof. now vm_compute. Qed.

Lemma keeps_key_down e : event_ok e -> keeps (_handleKeyDown os toUpperCase e).
Proof.
  intros He. assert (Hs := getKeysym_ok e He). unfold _handleKeyDown. cbv zeta. apply keeps_get. intros k.
  case_if; [|now apply keeps_pressed]. intros Hk. refine (keeps_bind _ _ (keeps_armed _ _) _ k Hk). intros _.
  case_if; [apply keeps_pressed; now vm_compute|].
  apply keeps_bind; [apply keeps_send, ctrl_ok|]. intros _. now apply keeps_pressed.
Qed.

Lemma keeps_key_up e : keeps (_handleKeyUp os toUpperCase e).
Proof.
  unfold _handleKeyUp. cbv zeta. apply keeps_get. intros k.
  assert (Ht : forall b : bool, keeps (if b then
      modify (set_armed false false) ;;
      _sendKeyEvent (Some XK_Control_L) "ControlLeft" true LockNull LockNull
    else ret tt)).
  { intros []; [|exact keeps_ret]. apply keeps_bind; [exact (keeps_armed _ _) | intros _; apply keeps_send, ctrl_ok]. }
  intros Hk0. refine (keeps_bind _ _ (Ht _) _ k Hk0). clear Hk0 k. intros _. case_if; [apply keeps_tap; now vm_compute|].
  apply keeps_get. clear. intros k Hk.
  refine (keeps_bind _ _ (keeps_send _ _ false LockNull LockNull (recorded_ok k _ Hk)) _ k Hk). intros _.
  case_if; [|exact keeps_ret]. apply keeps_bind; auto using keeps_release_shift.
Qed.

Lemma keeps_handle h k : key_possible k h -> list_ok k -> list_ok (snd (key_handle h k)).
Proof.
  intros Hp Hk. destruct h as [e|e| |]; cbn [key_handle key_possible] in *.
  - now apply keeps_key_down.
  - now apply keeps_key_up.
  - exact (keeps_bind _ _ (keeps_armed _ _) (fun _ => keeps_send _ _ _ _ _ ctrl_ok) k Hk).
  - revert Hk. apply keeps_get. clear. intros k. apply keeps_keys_up.
Qed.

(** C32.  Every keysym the client is told fits the 32 bits of a key message and is
    not 0, which would be no key: those of the tables, of the characters of all
    scripts and of the platform rules alike; a key without a keysym is told as
    such. *)
Theorem keysyms_fit k : key_reached k ->
  Forall (fun o => match o_keysym o with Some s => 0 < s < 4294967296 | None => True end) (told k).
Proof.
  intros Hr. assert (H : list_ok k).
  { induction Hr as [|k h k' Hr IH Hp E]; [split; constructor|].
    assert (Hk := keeps_handle h k Hp IH). now rewrite E in Hk. }
  exact (proj2 H).
Qed.

(** Windows reports AltGr as a fake left Ctrl followed by the right Alt: when
    they come less than 50 ms apart the client is told one press, AltGr, and the
    Ctrl is dropped; otherwise it is told the Ctrl first and then the Alt as it
    is. *)
Theorem altgr_merged ctrl alt k : isWindows os = true -> apple os = false ->
  _altGrArmed k = false -> is_down k "ControlLeft" = false -> is_down k "AltRight" = false ->
  _getKeyCode os toUpperCase ctrl = "ControlLeft"%string -> _getKeyCode os toUpperCase alt = "AltRight"%string ->
  getKeysym os ctrl = Some XK_Control_L ->
  (match getKeysym os alt with Some s => existsb (Z.eqb s) jpBadKeys | None => false end) = false ->
  let n := Lock (e_numlock alt) in
  let c := Lock (e_capslock alt) in
  exists k', (_handleKeyDown os toUpperCase ctrl ;; _handleKeyDown os toUpperCase alt) k = (Ret tt, k') /\
    told k' = told k ++
      if e_timeStamp alt - e_timeStamp ctrl <? 50
      then [KeyOut (Some XK_ISO_Level3_Shift) "AltRight" true n c]
      else [KeyOut (Some XK_Control_L) "ControlLeft" true n c; KeyOut (getKeysym os alt) "AltRight" true n c].
Proof.
  intros Hw Ha Hk Hc Hr E1 E2 E3 Hj n c.
  assert (F1 : _handleKeyDown os toUpperCase ctrl k = (Ret tt, set_ctrlTime (e_timeStamp ctrl) (set_armed true true k))).
  { unfold _handleKeyDown, bind at 1, get at 1. cbv zeta beta iota. rewrite Hk, E1, E3.
    unfold key_pressed. change (String.eqb "ControlLeft" "Unidentified") with false.
    unfold bind at 1, get at 1, shuffled. cbv zeta beta iota. rewrite Ha, Hw.
    assert (Hd : down_keysym (_keyDownList k) "ControlLeft" = None)
      by (unfold is_down in Hc; destruct (down_keysym _ _); [discriminate|auto]).
    rewrite Hd, Hc. reflexivity. }
  rewrite (bind_run _ _ _ _ _ F1). set (k1 := set_ctrlTime _ _).
  unfold _handleKeyDown, bind at 1, get at 1. cbv zeta beta iota. cbn [_altGrArmed k1 set_ctrlTime set_armed].
  unfold bind at 1, modify at 1. cbn beta iota. rewrite E2, Ha.
  assert (Hp : forall keysym k2, down_keysym (_keyDownList k2) "AltRight" = None ->
    (match keysym with Some s => existsb (Z.eqb s) jpBadKeys | None => false end) = false ->
    key_pressed os alt "AltRight" keysym n c k2 = (Ret tt, pressed keysym "AltRight" n c k2)).
  { intros keysym k2 Hd Hb. unfold key_pressed. change (String.eqb "AltRight" "Unidentified") with false.
    unfold bind at 1, get at 1, shuffled. cbv zeta beta iota. rewrite Ha, Hw, Hd.
    destruct keysym as [s|]; cbn [andb String.eqb]; [rewrite Hb|]; apply send_down. }
  assert (Hd : down_keysym (_keyDownList k) "AltRight" = None)
    by (unfold is_down in Hr; destruct (down_keysym _ _); [discriminate|auto]).
  cbn [String.eqb Ascii.eqb Bool.eqb andb]. change (_altGrCtrlTime k1) with (e_timeStamp ctrl).
  destruct (e_timeStamp alt - e_timeStamp ctrl <? 50).
  - rewrite Hp by (exact Hd || reflexivity). eexists. split; reflexivity.
  - rewrite (bind_run _ _ _ _ _ (send_down _ _ _ _ _)). rewrite Hp; [|  |exact Hj].
    + eexists. split; [reflexivity|]. cbn [told pressed add_told set_down]. now rewrite <- app_assoc.
    + rewrite pressed_down; [exact Hd|]. unfold fits. cbn [_keyDownList set_armed].
      change (_keyDownList k1) with (_keyDownList k). unfold is_down in Hc. now destruct (down_keysym _ _).
Qed.
End Keys.

(** * Concrete runs *)

Definition windows : platform := Platform false true false.
Definition same_case (u : Z) : Z := u.

(** An event of a key with a code and a value. *)
Definition typed (code : string) (key : list Z) (t : Z) : key_event :=
  KeyEvent code None (Some key) 0 (Some 0) "" false false false t.

Definition ctrl_left (t : Z) : key_event := KeyEvent "ControlLeft" None (Some (units "Control")) 0 (Some 1) "" false false false t.
Definition alt_right (t : Z) : key_event := KeyEvent "AltRight" None (Some (units "Alt")) 0 (Some 2) "" false false false t.

Definition key_a (t : Z) : key_event := typed "KeyA" [97] t.
Definition after_a : keyboard := snd (_handleKeyDown windows same_case (key_a 0) constructor).

Lemma a_pressed : key_reached windows same_case after_a.
Proof.
  refine (key_next windows same_case constructor (KeyDown (key_a 0)) _ (key_first _ _) _ _).
  - repeat constructor; lia.
  - reflexivity.
Defined.

Lemma a_lived : lived windows same_case ["KeyA"%string] (Account [("KeyA"%string, Some 97)] None) after_a.
Proof.
  refine (lived_next windows same_case [] (Account [] None) constructor (KeyDown (key_a 0)) after_a (lived_first _ _) _ _).
  - repeat constructor; lia.
  - reflexivity.
Defined.

Lemma keys_consistent_witness :
  exists k', key_handle windows same_case (KeyUp (typed "KeyA" [65] 9)) after_a = (Ret tt, k') /\ hear_all [] (told k') = Some [].
Proof.
  destruct (keys_consistent windows same_case _ _ _ (KeyUp (typed "KeyA" [65] 9)) a_lived) as (k' & E & F & _).
  - repeat constructor; lia.
  - exists k'. split; [exact E|exact F].
Defined.

Lemma blur_releases_all_witness :
  exists k', _allKeysUp after_a = (Ret tt, k') /\
    told k' = [KeyOut (Some 97) "KeyA" true (Lock false) (Lock false); KeyOut (Some 97) "KeyA" false LockNull LockNull].
Proof.
  destruct (blur_releases_all windows same_case _ a_pressed) as (k' & E & F & _). exists k'. split; [exact E|]. rewrite F. reflexivity.
Defined.

Lemma keysyms_fit_witness :
  Forall (fun o => match o_keysym o with Some s => 0 < s < 4294967296 | None => True end)
    (told after_a).
Proof. exact (keysyms_fit windows same_case _ a_pressed). Defined.

Lemma altgr_merged_witness :
  exists k', (_handleKeyDown windows same_case (ctrl_left 100) ;; _handleKeyDown windows same_case (alt_right 103)) constructor
    = (Ret tt, k') /\ told k' = [KeyOut (Some XK_ISO_Level3_Shift) "AltRight" true (Lock false) (Lock false)].
Proof. exact (altgr_merged windows same_case (ctrl_left 100) (alt_right 103) constructor eq_refl eq_refl eq_refl eq_refl eq_refl eq_refl eq_refl eq_refl eq_refl). Defined.

(** The detection of AltGr is not stopped when the window loses focus: a left
    Ctrl pressed just before is told to the client after everything was
    released, and no release will follow. *)
Lemma ctrl_left_behind :
  let k := snd ((_handleKeyDown windows same_case (ctrl_left 100) ;; _allKeysUp ;; _handleAltGrTimeout) constructor) in
  told k = [KeyOut (Some XK_Control_L) "ControlLeft" true LockNull LockNull].
Proof. reflexivity. Qed.
