(* ===== verification/Ui.v ===== *)
(** The page of the client, app/ui.js: its elements and timers, the status
    line, the control bar and its panels, the settings, connecting and
    reconnecting, the on-screen keyboard.

    The elements of app/vnc.html are looked up by name; of an element the model
    has what the code reads and writes.  [Client] is what the page uses of an
    [RFB] object; every call of it is an [order].  The texts are those before
    translation, [tr] is the translation.  The model leaves out the console, the
    styles of transitions, the address bar on touch devices and
    [l10n.translateDOM]. *)

From Stdlib Require Import ZArith List Lia Bool String QArith.
From S2P Require Import Prelude Utf8 Webutil Keytables.
Import ListNotations JS JSFacts WebUtil.
Open Scope Z_scope.
Open Scope code_scope.

Module UI.

(** ** The page *)

(** How an element keeps a value: a box to tick, a list to choose from, or
    a field of text, which the browser may clean up. *)
Inductive control_kind :=
| Plain
| Checkbox
| Select (options : list (list Z))
| Field (sanitize : list Z -> list Z).

Record elem := mkElem {
  classes : list string;
  control : control_kind;
  value_of : list Z;
  checked : bool;
  disabled : bool;
  selectedIndex : Z;
  textContent : list Z;
  label : option string
}.
Definition set_classes v r := mkElem v (control r) (value_of r) (checked r) (disabled r) (selectedIndex r) (textContent r) (label r).
Definition set_control v r := mkElem (classes r) v (value_of r) (checked r) (disabled r) (selectedIndex r) (textContent r) (label r).
Definition set_value_of v r := mkElem (classes r) (control r) v (checked r) (disabled r) (selectedIndex r) (textContent r) (label r).
Definition set_checked v r := mkElem (classes r) (control r) (value_of r) v (disabled r) (selectedIndex r) (textContent r) (label r).
Definition set_disabled v r := mkElem (classes r) (control r) (value_of r) (checked r) v (selectedIndex r) (textContent r) (label r).
Definition set_selectedIndex v r := mkElem (classes r) (control r) (value_of r) (checked r) (disabled r) v (textContent r) (label r).
Definition set_textContent v r := mkElem (classes r) (control r) (value_of r) (checked r) (disabled r) (selectedIndex r) v (label r).
Definition set_label v r := mkElem (classes r) (control r) (value_of r) (checked r) (disabled r) (selectedIndex r) (textContent r) v.

(** What a timer runs. *)
Inductive callback := HideStatus | IdleControlbar | CloseControlbar | Reconnect | FocusElement (id : string).

Record timer := Timer { t_id : Z; t_callback : callback; t_delay : option Z }.

(** What is asked of the browser. *)
Inductive request := RequestFullscreen | ExitFullscreen | PlayBell | SetSelection (l : Z).

(** An event of the browser; [e_target] is the element it happened on and
    [e_type_of] its input type, when it belongs to a form. *)
Record event := Event { e_type : string; e_button : Z; e_clientX : Q; e_clientY : Q; e_target : string; e_type_of : option string }.

(** The browser and the address of the page; [clean] is what the browser makes
    of a text given to an element. *)
Record env := Env {
  href : list Z;
  hash : list Z;
  hostname : list Z;
  location_port : list Z;
  protocol : list Z;
  isSecureContext : bool;
  isTouchDevice : bool;
  isSafari : bool;
  fullscreen_supported : bool;
  hasScrollbarGutter : bool;
  overlay_platform : bool;
  dragThreshold : Q;
  innerWidth : Q;
  handle_top : Q;
  handle_height : Q;
  bar_top : Q;
  bar_height : Q;
  in_control_bar : string -> bool;
  hasFocus : bool;
  clean : string -> list Z -> list Z;
  tr : list Z -> list Z
}.

(** The labels of vnc.html, with their [for] and their children that belong to
    a form. *)
Definition labels : list (string * string * list string) :=
  map (fun n => (n ++ ".label", "", ["noVNC_setting_" ++ n]))%string ["shared"; "view_only"; "view_clip"]%string ++
  map (fun n => (n ++ ".label", "noVNC_setting_" ++ n, []))%string ["resize"; "quality"; "compression"; "repeaterID"]%string ++
  [("encrypt.label", "", ["noVNC_setting_encrypt"])]%string ++
  map (fun n => (n ++ ".label", "noVNC_setting_" ++ n, []))%string ["host"; "port"; "path"]%string ++
  [("reconnect.label", "", ["noVNC_setting_reconnect"]); ("reconnect_delay.label", "noVNC_setting_reconnect_delay", []);
   ("show_dot.label", "", ["noVNC_setting_show_dot"]); ("logging.label", "", ["noVNC_setting_logging"]);
   ("username.label", "noVNC_username_input", []); ("password.label", "noVNC_password_input", [])]%string.

(** The two elements of the class [noVNC_expander]. *)
Definition expanders : list string := ["expander.advanced"; "expander.websocket"]%string.

Definition member (s : string) (l : list string) : bool := existsb (String.eqb s) l.

(** The elements of vnc.html: the ones that keep a value, and the classes that
    the code reads or changes. *)
Definition vnc_html (E : env) (id : string) : elem :=
  let kind :=
    if member id (map (append "noVNC_setting_") ["shared"; "view_only"; "view_clip"; "encrypt"; "reconnect"; "show_dot"])%string then Checkbox
    else if String.eqb id "noVNC_setting_resize" then Select (map units ["off"; "scale"; "remote"]%string)
    else if String.eqb id "noVNC_setting_logging" then Select []
    else if member id (app ["noVNC_clipboard_text"; "noVNC_username_input"; "noVNC_password_input"; "noVNC_keyboardinput"]
                       (map (append "noVNC_setting_") ["quality"; "compression"; "repeaterID"; "host"; "port"; "path"; "reconnect_delay"]))%string
    then Field (clean E id)
    else Plain in
  let classes :=
    if String.eqb id "html" then ["noVNC_loading"]%string
    else if member id ["noVNC_view_drag_button"; "noVNC_fullscreen_button"]%string then ["noVNC_hidden"]%string
    else if member id expanders then ["noVNC_expander"]%string
    else [] in
  mkElem classes kind [] false false (if String.eqb id "noVNC_setting_logging" then -1 else 0) [] None.

(** ** The client *)

(** [UI.rfb.sendKey(keysym, code, down)]: an empty [code] is [undefined]. *)
Inductive order :=
| SetClipViewport (v : value)
| SetScaleViewport (on : bool)
| SetResizeSession (on : bool)
| SetQualityLevel (n : option Z)
| SetCompressionLevel (n : option Z)
| SetShowDotCursor (v : value)
| SetViewOnly (v : value)
| SetDragViewport (on : bool)
| SetFocusOnClick (on : bool)
| Disconnect
| SendKey (keysym : Z) (code : string) (down : option bool)
| SendCtrlAltDel
| ClipboardPasteFrom (text : list Z)
| ApproveServer
| SendCredentials (username password : list Z)
| MachineShutdown
| MachineReboot
| MachineReset
| Focus.

(** [shared], [repeaterID] and the password given to the constructor. *)
Record rfb_options := RfbOptions { o_shared : value; o_repeaterID : value; o_password : value }.

(** What the page uses of the class: [new_rfb] makes a client or throws, [ask] gives an order and tells how often
    it dispatched [clippingviewport] meanwhile. *)
Class Client (R : Type) := {
  new_rfb : list Z -> rfb_options -> string + R;
  ask : order -> R -> outcome unit * R * nat;
  clipViewport : R -> bool;
  clippingViewport : R -> bool;
  dragViewport : R -> bool;
  viewOnly : R -> bool;
  power : R -> bool
}.

Record ui (R : Type) := mkUi {
  dom : string -> elem;
  connected : bool;
  desktopName : list Z;
  statusTimeout : option Z;
  idleControlbarTimeout : option Z;
  closeControlbarTimeout : option Z;
  controlbarGrabbed : bool;
  controlbarDrag : bool;
  controlbarMouseDownClientY : Q;
  controlbarMouseDownOffsetY : Q;
  lastKeyboardinput : option (list Z);
  inhibitReconnect : bool;
  reconnectCallback : option Z;
  reconnectPassword : value;
  rfb : option R;
  timers : list timer;
  nextTimer : Z;
  stored : store;
  title : list Z;
  activeElement : string;
  fullscreenElement : bool;
  requests : list request;
  verifying : list (list Z);
  handleY : option Q;
  version : option (option (list Z));
  stopped : bool;
  prevented : bool
}.
Arguments mkUi {R}.
Arguments dom {R} u.
Arguments connected {R} u.
Arguments desktopName {R} u.
Arguments statusTimeout {R} u.
Arguments idleControlbarTimeout {R} u.
Arguments closeControlbarTimeout {R} u.
Arguments controlbarGrabbed {R} u.
Arguments controlbarDrag {R} u.
Arguments controlbarMouseDownClientY {R} u.
Arguments controlbarMouseDownOffsetY {R} u.
Arguments lastKeyboardinput {R} u.
Arguments inhibitReconnect {R} u.
Arguments reconnectCallback {R} u.
Arguments reconnectPassword {R} u.
Arguments rfb {R} u.
Arguments timers {R} u.
Arguments nextTimer {R} u.
Arguments stored {R} u.
Arguments title {R} u.
Arguments activeElement {R} u.
Arguments fullscreenElement {R} u.
Arguments requests {R} u.
Arguments verifying {R} u.
Arguments handleY {R} u.
Arguments version {R} u.
Arguments stopped {R} u.
Arguments prevented {R} u.
Definition set_dom {R} v (r : ui R) : ui R := mkUi v (connected r) (desktopName r) (statusTimeout r) (idleControlbarTimeout r) (closeControlbarTimeout r) (controlbarGrabbed r) (controlbarDrag r) (controlbarMouseDownClientY r) (controlbarMouseDownOffsetY r) (lastKeyboardinput r) (inhibitReconnect r) (reconnectCallback r) (reconnectPassword r) (rfb r) (timers r) (nextTimer r) (stored r) (title r) (activeElement r) (fullscreenElement r) (requests r) (verifying r) (handleY r) (version r) (stopped r) (prevented r).
Definition set_connected {R} v (r : ui R) : ui R := mkUi (dom r) v (desktopName r) (statusTimeout r) (idleControlbarTimeout r) (closeControlbarTimeout r) (controlbarGrabbed r) (controlbarDrag r) (controlbarMouseDownClientY r) (controlbarMouseDownOffsetY r) (lastKeyboardinput r) (inhibitReconnect r) (reconnectCallback r) (reconnectPassword r) (rfb r) (timers r) (nextTimer r) (stored r) (title r) (activeElement r) (fullscreenElement r) (requests r) (verifying r) (handleY r) (version r) (stopped r) (prevented r).
Definition set_desktopName {R} v (r : ui R) : ui R := mkUi (dom r) (connected r) v (statusTimeout r) (idleControlbarTimeout r) (closeControlbarTimeout r) (controlbarGrabbed r) (controlbarDrag r) (controlbarMouseDownClientY r) (controlbarMouseDownOffsetY r) (lastKeyboardinput r) (inhibitReconnect r) (reconnectCallback r) (reconnectPassword r) (rfb r) (timers r) (nextTimer r) (stored r) (title r) (activeElement r) (fullscreenElement r) (requests r) (verifying r) (handleY r) (version r) (stopped r) (prevented r).
Definition set_statusTimeout {R} v (r : ui R) : ui R := mkUi (dom r) (connected r) (desktopName r) v (idleControlbarTimeout r) (closeControlbarTimeout r) (controlbarGrabbed r) (controlbarDrag r) (controlbarMouseDownClientY r) (controlbarMouseDownOffsetY r) (lastKeyboardinput r) (inhibitReconnect r) (reconnectCallback r) (reconnectPassword r) (rfb r) (timers r) (nextTimer r) (stored r) (title r) (activeElement r) (fullscreenElement r) (requests r) (verifying r) (handleY r) (version r) (stopped r) (prevented r).
Definition set_idleControlbarTimeout {R} v (r : ui R) : ui R := mkUi (dom r) (connected r) (desktopName r) (statusTimeout r) v (closeControlbarTimeout r) (controlbarGrabbed r) (controlbarDrag r) (controlbarMouseDownClientY r) (controlbarMouseDownOffsetY r) (lastKeyboardinput r) (inhibitReconnect r) (reconnectCallback r) (reconnectPassword r) (rfb r) (timers r) (nextTimer r) (stored r) (title r) (activeElement r) (fullscreenElement r) (requests r) (verifying r) (handleY r) (version r) (stopped r) (prevented r).
Definition set_closeControlbarTimeout {R} v (r : ui R) : ui R := mkUi (dom r) (connected r) (desktopName r) (statusTimeout r) (idleControlbarTimeout r) v (controlbarGrabbed r) (controlbarDrag r) (controlbarMouseDownClientY r) (controlbarMouseDownOffsetY r) (lastKeyboardinput r) (inhibitReconnect r) (reconnectCallback r) (reconnectPassword r) (rfb r) (timers r) (nextTimer r) (stored r) (title r) (activeElement r) (fullscreenElement r) (requests r) (verifying r) (handleY r) (version r) (stopped r) (prevented r).
Definition set_controlbarGrabbed {R} v (r : ui R) : ui R := mkUi (dom r) (connected r) (desktopName r) (statusTimeout r) (idleControlbarTimeout r) (closeControlbarTimeout r) v (controlbarDrag r) (controlbarMouseDownClientY r) (controlbarMouseDownOffsetY r) (lastKeyboardinput r) (inhibitReconnect r) (reconnectCallback r) (reconnectPassword r) (rfb r) (timers r) (nextTimer r) (stored r) (title r) (activeElement r) (fullscreenElement r) (requests r) (verifying r) (handleY r) (version r) (stopped r) (prevented r).
Definition set_controlbarDrag {R} v (r : ui R) : ui R := mkUi (dom r) (connected r) (desktopName r) (statusTimeout r) (idleControlbarTimeout r) (closeControlbarTimeout r) (controlbarGrabbed r) v (controlbarMouseDownClientY r) (controlbarMouseDownOffsetY r) (lastKeyboardinput r) (inhibitReconnect r) (reconnectCallback r) (reconnectPassword r) (rfb r) (timers r) (nextTimer r) (stored r) (title r) (activeElement r) (fullscreenElement r) (requests r) (verifying r) (handleY r) (version r) (stopped r) (prevented r).
Definition set_controlbarMouseDownClientY {R} v (r : ui R) : ui R := mkUi (dom r) (connected r) (desktopName r) (statusTimeout r) (idleControlbarTimeout r) (closeControlbarTimeout r) (controlbarGrabbed r) (controlbarDrag r) v (controlbarMouseDownOffsetY r) (lastKeyboardinput r) (inhibitReconnect r) (reconnectCallback r) (reconnectPassword r) (rfb r) (timers r) (nextTimer r) (stored r) (title r) (activeElement r) (fullscreenElement r) (requests r) (verifying r) (handleY r) (version r) (stopped r) (prevented r).
Definition set_controlbarMouseDownOffsetY {R} v (r : ui R) : ui R := mkUi (dom r) (connected r) (desktopName r) (statusTimeout r) (idleControlbarTimeout r) (closeControlbarTimeout r) (controlbarGrabbed r) (controlbarDrag r) (controlbarMouseDownClientY r) v (lastKeyboardinput r) (inhibitReconnect r) (reconnectCallback r) (reconnectPassword r) (rfb r) (timers r) (nextTimer r) (stored r) (title r) (activeElement r) (fullscreenElement r) (requests r) (verifying r) (handleY r) (version r) (stopped r) (prevented r).
Definition set_lastKeyboardinput {R} v (r : ui R) : ui R := mkUi (dom r) (connected r) (desktopName r) (statusTimeout r) (idleControlbarTimeout r) (closeControlbarTimeout r) (controlbarGrabbed r) (controlbarDrag r) (controlbarMouseDownClientY r) (controlbarMouseDownOffsetY r) v (inhibitReconnect r) (reconnectCallback r) (reconnectPassword r) (rfb r) (timers r) (nextTimer r) (stored r) (title r) (activeElement r) (fullscreenElement r) (requests r) (verifying r) (handleY r) (version r) (stopped r) (prevented r).
Definition set_inhibitReconnect {R} v (r : ui R) : ui R := mkUi (dom r) (connected r) (desktopName r) (statusTimeout r) (idleControlbarTimeout r) (closeControlbarTimeout r) (controlbarGrabbed r) (controlbarDrag r) (controlbarMouseDownClientY r) (controlbarMouseDownOffsetY r) (lastKeyboardinput r) v (reconnectCallback r) (reconnectPassword r) (rfb r) (timers r) (nextTimer r) (stored r) (title r) (activeElement r) (fullscreenElement r) (requests r) (verifying r) (handleY r) (version r) (stopped r) (prevented r).
Definition set_reconnectCallback {R} v (r : ui R) : ui R := mkUi (dom r) (connected r) (desktopName r) (statusTimeout r) (idleControlbarTimeout r) (closeControlbarTimeout r) (controlbarGrabbed r) (controlbarDrag r) (controlbarMouseDownClientY r) (controlbarMouseDownOffsetY r) (lastKeyboardinput r) (inhibitReconnect r) v (reconnectPassword r) (rfb r) (timers r) (nextTimer r) (stored r) (title r) (activeElement r) (fullscreenElement r) (requests r) (verifying r) (handleY r) (version r) (stopped r) (prevented r).
Definition set_reconnectPassword {R} v (r : ui R) : ui R := mkUi (dom r) (connected r) (desktopName r) (statusTimeout r) (idleControlbarTimeout r) (closeControlbarTimeout r) (controlbarGrabbed r) (controlbarDrag r) (controlbarMouseDownClientY r) (controlbarMouseDownOffsetY r) (lastKeyboardinput r) (inhibitReconnect r) (reconnectCallback r) v (rfb r) (timers r) (nextTimer r) (stored r) (title r) (activeElement r) (fullscreenElement r) (requests r) (verifying r) (handleY r) (version r) (stopped r) (prevented r).
Definition set_rfb {R} v (r : ui R) : ui R := mkUi (dom r) (connected r) (desktopName r) (statusTimeout r) (idleControlbarTimeout r) (closeControlbarTimeout r) (controlbarGrabbed r) (controlbarDrag r) (controlbarMouseDownClientY r) (controlbarMouseDownOffsetY r) (lastKeyboardinput r) (inhibitReconnect r) (reconnectCallback r) (reconnectPassword r) v (timers r) (nextTimer r) (stored r) (title r) (activeElement r) (fullscreenElement r) (requests r) (verifying r) (handleY r) (version r) (stopped r) (prevented r).
Definition set_timers {R} v (r : ui R) : ui R := mkUi (dom r) (connected r) (desktopName r) (statusTimeout r) (idleControlbarTimeout r) (closeControlbarTimeout r) (controlbarGrabbed r) (controlbarDrag r) (controlbarMouseDownClientY r) (controlbarMouseDownOffsetY r) (lastKeyboardinput r) (inhibitReconnect r) (reconnectCallback r) (reconnectPassword r) (rfb r) v (nextTimer r) (stored r) (title r) (activeElement r) (fullscreenElement r) (requests r) (verifying r) (handleY r) (version r) (stopped r) (prevented r).
Definition set_nextTimer {R} v (r : ui R) : ui R := mkUi (dom r) (connected r) (desktopName r) (statusTimeout r) (idleControlbarTimeout r) (closeControlbarTimeout r) (controlbarGrabbed r) (controlbarDrag r) (controlbarMouseDownClientY r) (controlbarMouseDownOffsetY r) (lastKeyboardinput r) (inhibitReconnect r) (reconnectCallback r) (reconnectPassword r) (rfb r) (timers r) v (stored r) (title r) (activeElement r) (fullscreenElement r) (requests r) (verifying r) (handleY r) (version r) (stopped r) (prevented r).
Definition set_stored {R} v (r : ui R) : ui R := mkUi (dom r) (connected r) (desktopName r) (statusTimeout r) (idleControlbarTimeout r) (closeControlbarTimeout r) (controlbarGrabbed r) (controlbarDrag r) (controlbarMouseDownClientY r) (controlbarMouseDownOffsetY r) (lastKeyboardinput r) (inhibitReconnect r) (reconnectCallback r) (reconnectPassword r) (rfb r) (timers r) (nextTimer r) v (title r) (activeElement r) (fullscreenElement r) (requests r) (verifying r) (handleY r) (version r) (stopped r) (prevented r).
Definition set_title {R} v (r : ui R) : ui R := mkUi (dom r) (connected r) (desktopName r) (statusTimeout r) (idleControlbarTimeout r) (closeControlbarTimeout r) (controlbarGrabbed r) (controlbarDrag r) (controlbarMouseDownClientY r) (controlbarMouseDownOffsetY r) (lastKeyboardinput r) (inhibitReconnect r) (reconnectCallback r) (reconnectPassword r) (rfb r) (timers r) (nextTimer r) (stored r) v (activeElement r) (fullscreenElement r) (requests r) (verifying r) (handleY r) (version r) (stopped r) (prevented r).
Definition set_activeElement {R} v (r : ui R) : ui R := mkUi (dom r) (connected r) (desktopName r) (statusTimeout r) (idleControlbarTimeout r) (closeControlbarTimeout r) (controlbarGrabbed r) (controlbarDrag r) (controlbarMouseDownClientY r) (controlbarMouseDownOffsetY r) (lastKeyboardinput r) (inhibitReconnect r) (reconnectCallback r) (reconnectPassword r) (rfb r) (timers r) (nextTimer r) (stored r) (title r) v (fullscreenElement r) (requests r) (verifying r) (handleY r) (version r) (stopped r) (prevented r).
Definition set_fullscreenElement {R} v (r : ui R) : ui R := mkUi (dom r) (connected r) (desktopName r) (statusTimeout r) (idleControlbarTimeout r) (closeControlbarTimeout r) (controlbarGrabbed r) (controlbarDrag r) (controlbarMouseDownClientY r) (controlbarMouseDownOffsetY r) (lastKeyboardinput r) (inhibitReconnect r) (reconnectCallback r) (reconnectPassword r) (rfb r) (timers r) (nextTimer r) (stored r) (title r) (activeElement r) v (requests r) (verifying r) (handleY r) (version r) (stopped r) (prevented r).
Definition set_requests {R} v (r : ui R) : ui R := mkUi (dom r) (connected r) (desktopName r) (statusTimeout r) (idleControlbarTimeout r) (closeControlbarTimeout r) (controlbarGrabbed r) (controlbarDrag r) (controlbarMouseDownClientY r) (controlbarMouseDownOffsetY r) (lastKeyboardinput r) (inhibitReconnect r) (reconnectCallback r) (reconnectPassword r) (rfb r) (timers r) (nextTimer r) (stored r) (title r) (activeElement r) (fullscreenElement r) v (verifying r) (handleY r) (version r) (stopped r) (prevented r).
Definition set_verifying {R} v (r : ui R) : ui R := mkUi (dom r) (connected r) (desktopName r) (statusTimeout r) (idleControlbarTimeout r) (closeControlbarTimeout r) (controlbarGrabbed r) (controlbarDrag r) (controlbarMouseDownClientY r) (controlbarMouseDownOffsetY r) (lastKeyboardinput r) (inhibitReconnect r) (reconnectCallback r) (reconnectPassword r) (rfb r) (timers r) (nextTimer r) (stored r) (title r) (activeElement r) (fullscreenElement r) (requests r) v (handleY r) (version r) (stopped r) (prevented r).
Definition set_handleY {R} v (r : ui R) : ui R := mkUi (dom r) (connected r) (desktopName r) (statusTimeout r) (idleControlbarTimeout r) (closeControlbarTimeout r) (controlbarGrabbed r) (controlbarDrag r) (controlbarMouseDownClientY r) (controlbarMouseDownOffsetY r) (lastKeyboardinput r) (inhibitReconnect r) (reconnectCallback r) (reconnectPassword r) (rfb r) (timers r) (nextTimer r) (stored r) (title r) (activeElement r) (fullscreenElement r) (requests r) (verifying r) v (version r) (stopped r) (prevented r).
Definition set_version {R} v (r : ui R) : ui R := mkUi (dom r) (connected r) (desktopName r) (statusTimeout r) (idleControlbarTimeout r) (closeControlbarTimeout r) (controlbarGrabbed r) (controlbarDrag r) (controlbarMouseDownClientY r) (controlbarMouseDownOffsetY r) (lastKeyboardinput r) (inhibitReconnect r) (reconnectCallback r) (reconnectPassword r) (rfb r) (timers r) (nextTimer r) (stored r) (title r) (activeElement r) (fullscreenElement r) (requests r) (verifying r) (handleY r) v (stopped r) (prevented r).
Definition set_stopped {R} v (r : ui R) : ui R := mkUi (dom r) (connected r) (desktopName r) (statusTimeout r) (idleControlbarTimeout r) (closeControlbarTimeout r) (controlbarGrabbed r) (controlbarDrag r) (controlbarMouseDownClientY r) (controlbarMouseDownOffsetY r) (lastKeyboardinput r) (inhibitReconnect r) (reconnectCallback r) (reconnectPassword r) (rfb r) (timers r) (nextTimer r) (stored r) (title r) (activeElement r) (fullscreenElement r) (requests r) (verifying r) (handleY r) (version r) v (prevented r).
Definition set_prevented {R} v (r : ui R) : ui R := mkUi (dom r) (connected r) (desktopName r) (statusTimeout r) (idleControlbarTimeout r) (closeControlbarTimeout r) (controlbarGrabbed r) (controlbarDrag r) (controlbarMouseDownClientY r) (controlbarMouseDownOffsetY r) (lastKeyboardinput r) (inhibitReconnect r) (reconnectCallback r) (reconnectPassword r) (rfb r) (timers r) (nextTimer r) (stored r) (title r) (activeElement r) (fullscreenElement r) (requests r) (verifying r) (handleY r) (version r) (stopped r) v.

Section Ui.
Context {R : Type} `{Client R} (E : env).
Abbreviation U := (M (ui R)).

Definition onStore {A} (m : M store A) : U A := lift stored set_stored m.
Definition attempt {A} (o : outcome A) : U A := fun u => (o, u).

(** ** Elements and timers *)

Definition upd (id : string) (f : elem -> elem) (d : string -> elem) : string -> elem :=
  fun i => if String.eqb i id then f (d i) else d i.
Definition onElem (id : string) (f : elem -> elem) : U unit := modify (fun u => set_dom (upd id f (dom u)) u).
Definition getElement (id : string) : U elem := gets (fun u => dom u id).

Definition has_class (c : string) (e : elem) : bool := existsb (String.eqb c) (classes e).
Definition add_class (c : string) (e : elem) : elem := if has_class c e then e else set_classes (classes e ++ [c]) e.
Definition remove_class (c : string) (e : elem) : elem := set_classes (filter (fun x => negb (String.eqb c x)) (classes e)) e.

Definition add (id c : string) : U unit := onElem id (add_class c).
Definition remove (id c : string) : U unit := onElem id (remove_class c).
Definition contains (id c : string) : U bool := gets (fun u => has_class c (dom u id)).

(** [document.documentElement] *)
Definition root : string := "html".

Definition setTimeout (c : callback) (delay : option Z) : U Z :=
  u <- get ;;
  modify (fun u => set_nextTimer (nextTimer u + 1) (set_timers (timers u ++ [Timer (nextTimer u) c delay]) u)) ;;
  ret (nextTimer u).

Definition clearTimeout (id : option Z) : U unit :=
  match id with
  | Some i => modify (fun u => set_timers (filter (fun t => negb (t_id t =? i)) (timers u)) u)
  | None => ret tt
  end.

Definition browser (r : request) : U unit := modify (fun u => set_requests (requests u ++ [r]) u).
Definition preventDefault : U unit := modify (set_prevented true).
Definition stopPropagation : U unit := modify (set_stopped true).
(** The browser tells of it with an event of its own. *)
Definition focus_on (id : string) : U unit := modify (set_activeElement id).

Definition text (s : string) : list Z := tr E (units s).

(** ** Settings *)

(** [if (v)] *)
Definition truthy_value (v : value) : bool :=
  match v with
  | Undefined | Null => false
  | Bool b => b
  | Num n => truthy n
  | Str s => negb (str_eqb s [])
  end.

(** [parseInt] of the language on a value's text. *)
Definition is_space (c : Z) : bool := existsb (Z.eqb c) [9; 10; 11; 12; 13; 32; 160; 5760; 8232; 8233; 8239; 8287; 12288; 65279] || ((8192 <=? c) && (c <=? 8202)).
Fixpoint skip_space (s : list Z) : list Z :=
  match s with
  | c :: s' => if is_space c then skip_space s' else s
  | [] => []
  end.
Definition digit_in (radix c : Z) : option Z :=
  match hex_digit c with Some d => if d <? radix then Some d else None | None => None end.
Fixpoint number_in (radix acc : Z) (s : list Z) : Z :=
  match s with
  | c :: s => match digit_in radix c with Some d => number_in radix (radix * acc + d) s | None => acc end
  | [] => acc
  end.
Definition number_from (radix : Z) (s : list Z) : option Z :=
  match s with
  | c :: _ => match digit_in radix c with Some _ => Some (number_in radix 0 s) | None => None end
  | [] => None
  end.
Definition parseInt (v : value) : option Z :=
  let s := skip_space (toString v) in
  let '(sign, s) := match s with 45 :: s => (-1, s) | 43 :: s => (1, s) | _ => (1, s) end in
  option_map (Z.mul sign)
    (match s with
     | 48 :: x :: s' => if (x =? 120) || (x =? 88) then number_from 16 s' else number_from 10 s
     | _ => number_from 10 s
     end).

Definition setting (name : string) : string := "noVNC_setting_" ++ name.

(** [toLowerCase] as far as it matters for the comparison below. *)
Definition lower (c : Z) : Z := if (65 <=? c) && (c <=? 90) then c + 32 else c.

(** The names an object with the keys 0, no and false answers to; two of them
    it has from birth. *)
Definition falsy_names : list (list Z) := map units ["0"; "no"; "false"; "constructor"; "__proto__"]%string.

Definition getSetting (name : string) : U value :=
  ctrl <- getElement (setting name) ;;
  val <- onStore (readSetting (units name) Undefined) ;;
  match val, control ctrl with
  | (Undefined | Null), _ => ret val
  | _, Checkbox => ret (Bool (negb (existsb (str_eqb (map lower (toString val))) falsy_names)))
  | _, _ => ret val
  end.

Fixpoint index_of (v : value) (options : list (list Z)) (i : Z) : option Z :=
  match options with
  | [] => None
  | o :: options => if value_eqb (Str o) v then Some i else index_of v options (i + 1)
  end.

(** The text a field is given: [null] is no text. *)
Definition field_text (v : value) : list Z := match v with Null => [] | _ => toString v end.

(** [e.value = t] *)
Definition assign_value (t : list Z) (e : elem) : elem :=
  match control e with Field sanitize => set_value_of (sanitize t) e | _ => set_value_of t e end.

Definition updateSetting (name : string) : U unit :=
  value <- getSetting name ;;
  onElem (setting name) (fun ctrl =>
    match control ctrl with
    | Checkbox => set_checked (truthy_value value) ctrl
    | Select options => match index_of value options 0 with Some i => set_selectedIndex i ctrl | None => ctrl end
    | _ => assign_value (field_text value) ctrl
    end).

Definition saveSetting (name : string) : U value :=
  ctrl <- getElement (setting name) ;;
  val <- (match control ctrl with
          | Checkbox => ret (Bool (checked ctrl))
          | Select options => match zget options (selectedIndex ctrl) with Some o => ret (Str o) | None => throw "TypeError" end
          | _ => ret (Str (value_of ctrl))
          end) ;;
  onStore (writeSetting (units name) val) ;;
  ret val.

Definition initSetting (name : string) (defVal : value) : U value :=
  val <- attempt (getConfigVar (href E) (hash E) (units name) Undefined) ;;
  val <- (match val with Null => onStore (readSetting (units name) defVal) | _ => ret val end) ;;
  onStore (setSetting (units name) val) ;;
  updateSetting name ;;
  ret val.

Definition label_class (name : string) (f : string -> elem -> elem) : U unit :=
  ctrl <- getElement (setting name) ;;
  match label ctrl with
  | Some l => onElem l (f "noVNC_disabled"%string)
  | None => throw "TypeError"
  end.

Definition disableSetting (name : string) : U unit :=
  onElem (setting name) (set_disabled true) ;; label_class name add_class.
Definition enableSetting (name : string) : U unit :=
  onElem (setting name) (set_disabled false) ;; label_class name remove_class.

Definition forceSetting (name : string) (val : value) : U unit :=
  onStore (setSetting (units name) val) ;;
  updateSetting name ;;
  disableSetting name.

Definition addOption (id : string) (v : list Z) : U unit :=
  onElem id (fun e =>
    match control e with
    | Select options => set_selectedIndex (if selectedIndex e <? 0 then 0 else selectedIndex e) (set_control (Select (options ++ [v])) e)
    | _ => e
    end).

(** A label with its [for], or the first of its children that belongs to a
    form. *)
Definition setup_label (l : string * string * list string) : U unit :=
  let '(name, htmlFor, children) := l in
  if negb (String.eqb htmlFor "") then onElem htmlFor (set_label (Some name))
  else match children with
       | child :: _ => onElem child (set_label (Some name))
       | [] => ret tt
       end.

Fixpoint each {A} (f : A -> U unit) (l : list A) : U unit :=
  match l with
  | [] => ret tt
  | a :: l => f a ;; each f l
  end.

Definition setupSettingLabels : U unit := each setup_label labels.

(** The port, which the address leaves out when it is the usual one. *)
Definition default_port : value :=
  if negb (str_eqb (location_port E) []) then Str (location_port E)
  else if str_eqb (firstn 5 (protocol E)) (units "https") then Num 443
  else if str_eqb (firstn 4 (protocol E)) (units "http") then Num 80
  else Str [].

Definition initSettings : U unit :=
  each (fun l => addOption (setting "logging") (units l)) ["error"; "warn"; "info"; "debug"]%string ;;
  initSetting "logging" (Str (units "warn")) ;;
  getSetting "logging" ;;
  each (fun s => initSetting (fst s) (snd s) ;; ret tt)
    [("host", Str (hostname E)); ("port", default_port);
     ("encrypt", Bool (str_eqb (protocol E) (units "https:")));
     ("view_clip", Bool false); ("resize", Str (units "off")); ("quality", Num 6); ("compression", Num 2);
     ("shared", Bool true); ("view_only", Bool false); ("show_dot", Bool false);
     ("path", Str (units "websockify")); ("repeaterID", Str []); ("reconnect", Bool false);
     ("reconnect_delay", Num 5000)]%string ;;
  setupSettingLabels.

(** ** Status *)

Definition hideStatus : U unit :=
  u <- get ;;
  clearTimeout (statusTimeout u) ;;
  remove "noVNC_status" "noVNC_open".

(** The classes of the three kinds, the one shown last. *)
Definition status_classes (statusType : string) : list string :=
  if String.eqb statusType "error" then ["noVNC_status_warn"; "noVNC_status_normal"; "noVNC_status_error"]%string
  else if String.eqb statusType "warning" || String.eqb statusType "warn" then ["noVNC_status_error"; "noVNC_status_normal"; "noVNC_status_warn"]%string
  else ["noVNC_status_error"; "noVNC_status_warn"; "noVNC_status_normal"]%string.

Definition show_text (t : list Z) (statusType : string) : U unit :=
  (match status_classes statusType with
   | [a; b; c] => remove "noVNC_status" a ;; remove "noVNC_status" b ;; add "noVNC_status" c
   | _ => stuck
   end) ;;
  onElem "noVNC_status" (set_textContent t) ;;
  add "noVNC_status" "noVNC_open".

(** [statusType] is [normal] when it is not given. *)
Definition showStatus (t : list Z) (statusType : string) : U unit :=
  u <- get ;;
  let statusElem := dom u "noVNC_status"%string in
  if has_class "noVNC_open" statusElem &&
     (has_class "noVNC_status_error" statusElem ||
      (has_class "noVNC_status_warn" statusElem && String.eqb statusType "normal")) then ret tt
  else
    clearTimeout (statusTimeout u) ;;
    show_text t statusType ;;
    if negb (String.eqb statusType "error") then
      id <- setTimeout HideStatus (Some 1500) ;; modify (set_statusTimeout (Some id))
    else ret tt.

(** ** The control bar *)

Definition activateControlbar : U unit :=
  u <- get ;;
  clearTimeout (idleControlbarTimeout u) ;;
  remove "noVNC_control_bar_anchor" "noVNC_idle" ;;
  id <- setTimeout IdleControlbar (Some 2000) ;;
  modify (set_idleControlbarTimeout (Some id)).

Definition idleControlbar : U unit :=
  u <- get ;;
  if in_control_bar E (activeElement u) && hasFocus E then activateControlbar
  else add "noVNC_control_bar_anchor" "noVNC_idle".

Definition keepControlbar : U unit := u <- get ;; clearTimeout (closeControlbarTimeout u).
Definition openControlbar : U unit := add "noVNC_control_bar" "noVNC_open".

(** A panel and its button. *)
Definition open_panel (panel button : string) : U unit := add panel "noVNC_open" ;; add button "noVNC_selected".
Definition close_panel (panel button : string) : U unit := remove panel "noVNC_open" ;; remove button "noVNC_selected".

Definition closeSettingsPanel : U unit := close_panel "noVNC_settings" "noVNC_settings_button".
Definition closePowerPanel : U unit := close_panel "noVNC_power" "noVNC_power_button".
Definition closeClipboardPanel : U unit := close_panel "noVNC_clipboard" "noVNC_clipboard_button".
Definition closeExtraKeys : U unit := close_panel "noVNC_modifiers" "noVNC_toggle_extra_keys_button".

Definition closeAllPanels : U unit :=
  closeSettingsPanel ;; closePowerPanel ;; closeClipboardPanel ;; closeExtraKeys.

Definition toggle (panel : string) (close open : U unit) : U unit :=
  o <- contains panel "noVNC_open" ;; if o then close else open.

Definition openSettingsPanel : U unit :=
  closeAllPanels ;; openControlbar ;;
  each updateSetting
    ["encrypt"; "view_clip"; "resize"; "quality"; "compression"; "shared"; "view_only"; "path"; "repeaterID"; "logging";
     "reconnect"; "reconnect_delay"]%string ;;
  open_panel "noVNC_settings" "noVNC_settings_button".
Definition openPowerPanel : U unit := closeAllPanels ;; openControlbar ;; open_panel "noVNC_power" "noVNC_power_button".
Definition openClipboardPanel : U unit := closeAllPanels ;; openControlbar ;; open_panel "noVNC_clipboard" "noVNC_clipboard_button".
Definition openExtraKeys : U unit := closeAllPanels ;; openControlbar ;; open_panel "noVNC_modifiers" "noVNC_toggle_extra_keys_button".

Definition toggleSettingsPanel : U unit := toggle "noVNC_settings" closeSettingsPanel openSettingsPanel.
Definition togglePowerPanel : U unit := toggle "noVNC_power" closePowerPanel openPowerPanel.
Definition toggleClipboardPanel : U unit := toggle "noVNC_clipboard" closeClipboardPanel openClipboardPanel.
Definition toggleExtraKeys : U unit := toggle "noVNC_modifiers" closeExtraKeys openExtraKeys.

(** ** Orders to the client *)

(** The members of [UI.rfb]; without a client the access throws. *)
Definition theRfb : U R := u <- get ;; match rfb u with Some r => ret r | None => throw "TypeError" end.

(** An order, with how it ends and the number of [clippingviewport] events. *)
Definition ask_rfb (o : order) : U (outcome unit * nat) :=
  r <- theRfb ;;
  let '(res, r, clips) := ask o r in
  modify (set_rfb (Some r)) ;;
  ret (res, clips).

Definition updateViewDrag : U unit :=
  u <- get ;;
  if negb (connected u) then ret tt
  else
    r <- theRfb ;;
    (if (negb (clipViewport r) || negb (clippingViewport r)) && dragViewport r then
       p <- ask_rfb (SetDragViewport false) ;; attempt (fst p)
     else ret tt) ;;
    r <- theRfb ;;
    (if dragViewport r then add "noVNC_view_drag_button" "noVNC_selected"
     else remove "noVNC_view_drag_button" "noVNC_selected") ;;
    (if clipViewport r then remove "noVNC_view_drag_button" "noVNC_hidden"
     else add "noVNC_view_drag_button" "noVNC_hidden") ;;
    onElem "noVNC_view_drag_button" (set_disabled (negb (clippingViewport r))).

Fixpoint repeatedly (n : nat) (m : U unit) : U unit :=
  match n with
  | O => ret tt
  | S n => m ;; repeatedly n m
  end.

(** An order, and the listener of [clippingviewport] for the events dispatched
    under way; what follows them in the client does not depend on it. *)
Definition order_rfb (o : order) : U unit :=
  p <- ask_rfb o ;;
  repeatedly (snd p) updateViewDrag ;;
  attempt (fst p).

(** The client's canvas takes the focus. *)
Definition focus_rfb : U unit := order_rfb Focus ;; focus_on "canvas".

(** [if (!UI.rfb) return;] *)
Definition with_rfb (m : U unit) : U unit := u <- get ;; match rfb u with Some _ => m | None => ret tt end.

Definition is_setting (name v : string) : U bool := s <- getSetting name ;; ret (value_eqb s (Str (units v))).

Definition setScaling : U unit :=
  b <- is_setting "resize" "scale" ;; order_rfb (SetScaleViewport b) ;;
  b <- is_setting "resize" "remote" ;; order_rfb (SetResizeSession b).
Definition applyResizeMode : U unit := with_rfb setScaling.

Definition setQuality : U unit := s <- getSetting "quality" ;; order_rfb (SetQualityLevel (parseInt s)).
Definition setCompression : U unit := s <- getSetting "compression" ;; order_rfb (SetCompressionLevel (parseInt s)).
Definition updateQuality : U unit := with_rfb setQuality.
Definition updateCompression : U unit := with_rfb setCompression.

Definition brokenScrollbars : bool := negb (hasScrollbarGutter E) && overlay_platform E.

Definition updateViewClip : U unit := with_rfb (
  scaling <- is_setting "resize" "scale" ;;
  (if scaling then
     forceSetting "view_clip" (Bool false) ;; order_rfb (SetClipViewport (Bool false))
   else if brokenScrollbars then
     forceSetting "view_clip" (Bool true) ;; order_rfb (SetClipViewport (Bool true))
   else
     enableSetting "view_clip" ;; s <- getSetting "view_clip" ;; order_rfb (SetClipViewport s)) ;;
  updateViewDrag).

Definition toggleViewDrag : U unit := with_rfb (
  r <- theRfb ;; order_rfb (SetDragViewport (negb (dragViewport r))) ;; updateViewDrag).

Definition input_buttons : list string := ["noVNC_keyboard_button"; "noVNC_toggle_extra_keys_button"; "noVNC_clipboard_button"]%string.

Definition updateViewOnly : U unit := with_rfb (
  s <- getSetting "view_only" ;;
  order_rfb (SetViewOnly s) ;;
  r <- theRfb ;;
  if viewOnly r then each (fun b => add b "noVNC_hidden") input_buttons
  else each (fun b => remove b "noVNC_hidden") input_buttons).

Definition setShowDot : U unit := s <- getSetting "show_dot" ;; order_rfb (SetShowDotCursor s).
Definition updateShowDotCursor : U unit := with_rfb setShowDot.

Definition updatePowerButton : U unit :=
  u <- get ;;
  b <- (if connected u then r <- theRfb ;; ret (power r && negb (viewOnly r)) else ret false) ;;
  if b then remove "noVNC_power_button" "noVNC_hidden"
  else add "noVNC_power_button" "noVNC_hidden" ;; closePowerPanel.

Definition closeControlbar : U unit :=
  closeAllPanels ;;
  remove "noVNC_control_bar" "noVNC_open" ;;
  focus_rfb.

Definition toggleControlbar : U unit := toggle "noVNC_control_bar" closeControlbar openControlbar.

(** ** The state shown *)

Inductive visual := Init | Connecting | Connected | Disconnecting | Disconnected | Reconnecting.

Definition state_classes : list string := ["noVNC_connecting"; "noVNC_connected"; "noVNC_disconnecting"; "noVNC_reconnecting"]%string.
Definition connection_settings : list string := ["encrypt"; "shared"; "host"; "port"; "path"; "repeaterID"]%string.

(** The states of the code; it never gives another. *)
Definition show_state (state : visual) : U unit :=
  let transition s := onElem "noVNC_transition_text" (set_textContent (text s)) in
  match state with
  | Init | Disconnected => ret tt
  | Connecting => transition "Connecting..."%string ;; add root "noVNC_connecting"
  | Connected => add root "noVNC_connected"
  | Disconnecting => transition "Disconnecting..."%string ;; add root "noVNC_disconnecting"
  | Reconnecting => transition "Reconnecting..."%string ;; add root "noVNC_reconnecting"
  end.

Definition updateVisualState (state : visual) : U unit :=
  each (remove root) state_classes ;;
  show_state state ;;
  u <- get ;;
  (if connected u then
     updateViewClip ;;
     each disableSetting connection_settings ;;
     id <- setTimeout CloseControlbar (Some 2000) ;;
     modify (set_closeControlbarTimeout (Some id))
   else
     each enableSetting connection_settings ;;
     updatePowerButton ;;
     keepControlbar) ;;
  closeAllPanels ;;
  remove "noVNC_verify_server_dlg" "noVNC_open" ;;
  remove "noVNC_credentials_dlg" "noVNC_open".

(** ** The handle of the control bar *)

Definition showControlbarHint (show animate : bool) : U unit :=
  (if animate then remove "noVNC_control_bar_hint" "noVNC_notransition" else add "noVNC_control_bar_hint" "noVNC_notransition") ;;
  (if show then add "noVNC_control_bar_hint" "noVNC_active" else remove "noVNC_control_bar_hint" "noVNC_active").

Definition toggleControlbarSide : U unit :=
  right <- contains "noVNC_control_bar_anchor" "noVNC_right" ;;
  (if right then
     onStore (writeSetting (units "controlbar_pos") (Str (units "left"))) ;; remove "noVNC_control_bar_anchor" "noVNC_right"
   else
     onStore (writeSetting (units "controlbar_pos") (Str (units "right"))) ;; add "noVNC_control_bar_anchor" "noVNC_right") ;;
  modify (set_controlbarDrag true) ;;
  showControlbarHint false false.

Definition Qlt_bool (a b : Q) : bool := negb (Qle_bool b a).

(** Where the handle comes to lie in the control bar; [None] when one of them
    is not shown. *)
Definition handle_position (viewportRelativeY : Q) : option Q :=
  let margin := 10%Q in
  if Qeq_bool (handle_height E) 0 || Qeq_bool (bar_height E) 0 then None
  else
    let lowest := (bar_top E + bar_height E - handle_height E - margin)%Q in
    let newY := if Qlt_bool viewportRelativeY (bar_top E + margin) then (bar_top E + margin)%Q
                else if Qlt_bool lowest viewportRelativeY then lowest else viewportRelativeY in
    let newY := if Qlt_bool (bar_height E) (handle_height E + margin * 2)
                then (bar_top E + (bar_height E - handle_height E) / 2)%Q else newY in
    Some (newY - bar_top E)%Q.

Definition moveControlbarHandle (viewportRelativeY : Q) : U unit :=
  match handle_position viewportRelativeY with
  | Some y => modify (set_handleY (Some y))
  | None => ret tt
  end.

Definition updateControlbarHandle : U unit := moveControlbarHandle (handle_top E).

Definition touched : U unit := preventDefault ;; stopPropagation ;; keepControlbar ;; activateControlbar.

Definition absQ (q : Q) : Q := if Qlt_bool q 0 then (- q)%Q else q.

Definition dragControlbarHandle (e : event) : U unit :=
  u <- get ;;
  if negb (controlbarGrabbed u) then ret tt
  else
    right <- contains "noVNC_control_bar_anchor" "noVNC_right" ;;
    (if Qlt_bool (e_clientX e) (innerWidth E * (1 # 10)) then if right then toggleControlbarSide else ret tt
     else if Qlt_bool (innerWidth E * (9 # 10)) (e_clientX e) then if right then ret tt else toggleControlbarSide
     else ret tt) ;;
    u <- get ;;
    if negb (controlbarDrag u) && Qlt_bool (absQ (e_clientY e - controlbarMouseDownClientY u)) (dragThreshold E) then ret tt
    else
      modify (set_controlbarDrag true) ;;
      moveControlbarHandle (e_clientY e - controlbarMouseDownOffsetY u) ;;
      touched.

Definition controlbarHandleMouseUp (e : event) : U unit :=
  if String.eqb (e_type e) "mouseup" && negb (e_button e =? 0) then ret tt
  else
    u <- get ;;
    (if controlbarGrabbed u && negb (controlbarDrag u) then toggleControlbar ;; touched else ret tt) ;;
    modify (set_controlbarGrabbed false) ;;
    showControlbarHint false true.

(** The browser also sends the mouse to the handle until the button is
    released. *)
Definition controlbarHandleMouseDown (e : event) : U unit :=
  if String.eqb (e_type e) "mousedown" && negb (e_button e =? 0) then ret tt
  else
    modify (set_controlbarGrabbed true) ;;
    modify (set_controlbarDrag false) ;;
    showControlbarHint true true ;;
    modify (set_controlbarMouseDownClientY (e_clientY e)) ;;
    modify (set_controlbarMouseDownOffsetY (e_clientY e - handle_top E)) ;;
    touched.

Definition toggleExpander (this : string) : U unit :=
  o <- contains this "noVNC_open" ;; if o then remove this "noVNC_open" else add this "noVNC_open".

(** ** Connecting *)

Definition openConnectPanel : U unit := add "noVNC_connect_dlg" "noVNC_open".
Definition closeConnectPanel : U unit := remove "noVNC_connect_dlg" "noVNC_open".

(** The address of the server. *)
Definition server_url (encrypt host port path : value) : list Z :=
  units (if truthy_value encrypt then "wss" else "ws") ++ units "://" ++ toString host ++
  (if truthy_value port then [58] ++ toString port else []) ++ [47] ++ toString path.

(** What is set on a new client, the listeners being in place. *)
Definition configure : U unit :=
  s <- getSetting "view_clip" ;; order_rfb (SetClipViewport s) ;;
  setScaling ;;
  setQuality ;;
  setCompression ;;
  setShowDot ;;
  updateViewOnly.

(** The password of the address, when none is given. *)
Definition ask_password (password : value) : U value :=
  match password with
  | Undefined =>
      p <- attempt (getConfigVar (href E) (hash E) (units "password") Undefined) ;;
      modify (set_reconnectPassword p) ;; ret p
  | _ => ret password
  end.

(** Making the client, which may throw. *)
Definition connect_to (host port path password : value) : U unit :=
  closeConnectPanel ;;
  updateVisualState Connecting ;;
  encrypt <- getSetting "encrypt" ;;
  shared <- getSetting "shared" ;;
  repeaterID <- getSetting "repeaterID" ;;
  match new_rfb (server_url encrypt host port path) (RfbOptions shared repeaterID password) with
  | inr r => modify (set_rfb (Some r)) ;; configure
  | inl exc =>
      updateVisualState Disconnected ;;
      showStatus (text "Failed to connect to server: " ++ units exc) "error"
  end.

(** [password] is [undefined] when it is not given. *)
Definition connect (password : value) : U unit :=
  u <- get ;;
  match rfb u with
  | Some _ => ret tt
  | None =>
      host <- getSetting "host" ;;
      port <- getSetting "port" ;;
      path <- getSetting "path" ;;
      password <- ask_password password ;;
      let password := match password with Null => Undefined | _ => password end in
      hideStatus ;;
      if negb (truthy_value host) then showStatus (text "Must set host") "error"
      else connect_to host port path password
  end.

Definition disconnect : U unit :=
  order_rfb Disconnect ;;
  modify (set_connected false) ;;
  modify (set_inhibitReconnect true) ;;
  updateVisualState Disconnecting.

Definition reconnect : U unit :=
  modify (set_reconnectCallback None) ;;
  u <- get ;;
  if inhibitReconnect u then ret tt else connect (reconnectPassword u).

Definition cancelReconnect : U unit :=
  u <- get ;;
  (match reconnectCallback u with
   | Some id => clearTimeout (Some id) ;; modify (set_reconnectCallback None)
   | None => ret tt
   end) ;;
  updateVisualState Disconnected ;;
  openControlbar ;;
  openConnectPanel.

Definition connectFinished : U unit :=
  modify (set_connected true) ;;
  modify (set_inhibitReconnect false) ;;
  encrypt <- getSetting "encrypt" ;;
  u <- get ;;
  showStatus (text (if truthy_value encrypt then "Connected (encrypted) to " else "Connected (unencrypted) to ") ++ desktopName u) "normal" ;;
  updateVisualState Connected ;;
  focus_rfb.

Definition PAGE_TITLE : list Z := units "noVNC".

Definition disconnectFinished (clean : bool) : U unit :=
  u <- get ;;
  let wasConnected := connected u in
  modify (set_connected false) ;;
  modify (set_rfb None) ;;
  (if negb clean then
     updateVisualState Disconnected ;;
     showStatus (text (if wasConnected then "Something went wrong, connection is closed" else "Failed to connect to server")) "error"
   else ret tt) ;;
  again <- getSetting "reconnect" ;;
  u <- get ;;
  if value_eqb again (Bool true) && negb (inhibitReconnect u) then
    updateVisualState Reconnecting ;;
    delay <- getSetting "reconnect_delay" ;;
    id <- setTimeout Reconnect (parseInt delay) ;;
    modify (set_reconnectCallback (Some id))
  else
    updateVisualState Disconnected ;;
    showStatus (text "Disconnected") "normal" ;;
    modify (set_title PAGE_TITLE) ;;
    openControlbar ;;
    openConnectPanel.

Definition securityFailed (reason : option (list Z)) : U unit :=
  showStatus (match reason with
              | Some r => text "New connection has been rejected with reason: " ++ r
              | None => text "New connection has been rejected"
              end) "error".

(** ** Asking the user *)

(** The digest of the key is not ready at once. *)
Definition serverVerify (type publickey : list Z) : U unit :=
  if str_eqb type (units "RSA") then modify (fun u => set_verifying (verifying u ++ [publickey]) u) else ret tt.

(** Two hexadecimal digits, in lower case. *)
Definition hex2 (b : Z) : list Z :=
  let d n := if n <? 10 then 48 + n else 87 + n in [d (b / 16); d (b mod 16)].

Fixpoint join (sep : list Z) (l : list (list Z)) : list Z :=
  match l with
  | [] => []
  | [w] => w
  | w :: l => w ++ sep ++ join sep l
  end.

Definition fingerprint_of (digest : list Z) : list Z := join [45] (map hex2 (firstn 8 digest)).

(** The first digest under way is ready. *)
Definition digest_ready (sha1 : list Z -> list Z) : U unit :=
  u <- get ;;
  match verifying u with
  | [] => ret tt
  | key :: rest =>
      modify (set_verifying rest) ;;
      add "noVNC_verify_server_dlg" "noVNC_open" ;;
      onElem "noVNC_fingerprint" (set_textContent (fingerprint_of (sha1 key)))
  end.

Definition approveServer : U unit :=
  preventDefault ;; remove "noVNC_verify_server_dlg" "noVNC_open" ;; order_rfb ApproveServer.
Definition rejectServer : U unit :=
  preventDefault ;; remove "noVNC_verify_server_dlg" "noVNC_open" ;; disconnect.

Definition credentials (types : list string) : U unit :=
  remove "noVNC_username_block" "noVNC_hidden" ;;
  remove "noVNC_password_block" "noVNC_hidden" ;;
  let wants t := existsb (String.eqb t) types in
  (if wants "username"%string then ret tt else add "noVNC_username_block" "noVNC_hidden") ;;
  (if wants "password"%string then ret tt else add "noVNC_password_block" "noVNC_hidden") ;;
  let inputFocus := if wants "username"%string then "noVNC_username_input"%string
                    else if wants "password"%string then "noVNC_password_input"%string else "none"%string in
  add "noVNC_credentials_dlg" "noVNC_open" ;;
  setTimeout (FocusElement inputFocus) (Some 100) ;;
  showStatus (text "Credentials are required") "warning".

Definition setCredentials : U unit :=
  preventDefault ;;
  user <- getElement "noVNC_username_input" ;;
  pass <- getElement "noVNC_password_input" ;;
  onElem "noVNC_password_input" (assign_value []) ;;
  order_rfb (SendCredentials (value_of user) (value_of pass)) ;;
  modify (set_reconnectPassword (Str (value_of pass))) ;;
  remove "noVNC_credentials_dlg" "noVNC_open".

(** ** Full screen *)

Definition updateFullscreenButton : U unit :=
  u <- get ;;
  if fullscreenElement u then add "noVNC_fullscreen_button" "noVNC_selected" else remove "noVNC_fullscreen_button" "noVNC_selected".

Definition toggleFullscreen : U unit :=
  u <- get ;;
  browser (if fullscreenElement u then ExitFullscreen else RequestFullscreen) ;;
  updateFullscreenButton.

Definition initFullscreen : U unit :=
  if negb (isSafari E) && fullscreen_supported E then remove "noVNC_fullscreen_button" "noVNC_hidden" else ret tt.

(** ** The on-screen keyboard *)

Definition defaultKeyboardinputLen : Z := 100.

Definition keyboardinputReset : U unit :=
  onElem "noVNC_keyboardinput" (assign_value (zrep (defaultKeyboardinputLen - 1) 95)) ;;
  kbi <- getElement "noVNC_keyboardinput" ;;
  modify (set_lastKeyboardinput (Some (value_of kbi))).

Definition showVirtualKeyboard : U unit :=
  u <- get ;;
  if negb (isTouchDevice E) then ret tt
  else if String.eqb (activeElement u) "noVNC_keyboardinput" then ret tt
  else focus_on "noVNC_keyboardinput" ;; browser (SetSelection (zlen (value_of (dom u "noVNC_keyboardinput"%string)))).

Definition hideVirtualKeyboard : U unit :=
  u <- get ;;
  if negb (isTouchDevice E) then ret tt
  else if negb (String.eqb (activeElement u) "noVNC_keyboardinput") then ret tt
  else focus_on "body".

Definition toggleVirtualKeyboard : U unit :=
  s <- contains "noVNC_keyboard_button" "noVNC_selected" ;;
  if s then hideVirtualKeyboard else showVirtualKeyboard.

Definition onfocusVirtualKeyboard : U unit :=
  add "noVNC_keyboard_button" "noVNC_selected" ;; with_rfb (order_rfb (SetFocusOnClick false)).
Definition onblurVirtualKeyboard : U unit :=
  remove "noVNC_keyboard_button" "noVNC_selected" ;; with_rfb (order_rfb (SetFocusOnClick true)).

Definition focusable_types : list string :=
  ["text"; "email"; "search"; "password"; "tel"; "url"; "textarea"; "select-one"; "select-multiple"]%string.

Definition keepVirtualKeyboard (e : event) : U unit :=
  u <- get ;;
  if negb (String.eqb (activeElement u) "noVNC_keyboardinput") then ret tt
  else
    match e_type_of e with
    | Some t => if existsb (String.eqb t) focusable_types then ret tt else preventDefault
    | None => preventDefault
    end.

Definition keyEvent (keysym : Z) (code : string) (down : bool) : U unit := with_rfb (order_rfb (SendKey keysym code (Some down))).

(** The first place below [n] where the texts differ; past its end a text has
    nothing. *)
Fixpoint first_difference (n : nat) (i : Z) (new old : list Z) : option Z :=
  match n with
  | O => None
  | S n =>
      match zget new i, zget old i with
      | Some a, Some b => if a =? b then first_difference n (i + 1) new old else Some i
      | None, None => first_difference n (i + 1) new old
      | _, _ => Some i
      end
  end.

(** How many characters to take back, and how many to type, at the end of a
    text of [newLen] characters. *)
Definition key_difference (newLen : Z) (new old : list Z) : Z * Z :=
  let oldLen := zlen old in
  match first_difference (Z.to_nat (Z.min oldLen newLen)) 0 new old with
  | Some i => (oldLen - i, newLen - i)
  | None => (Z.max 0 (oldLen - newLen), newLen - oldLen)
  end.

(** The keysym of the character at a place; past the end there is no code. *)
Definition keysym_at (new : list Z) (i : Z) : Z :=
  match zget new i with Some c => Keytables.lookup c | None => 16777216 end.

Definition upto (from to : Z) : list Z := map (fun k => from + Z.of_nat k) (seq 0 (Z.to_nat (to - from))).

Definition XK_BackSpace : Z := Eval vm_compute in Keytables.keysym_of "XK_BackSpace".
Definition XK_Escape : Z := Eval vm_compute in Keytables.keysym_of "XK_Escape".
Definition XK_Tab : Z := Eval vm_compute in Keytables.keysym_of "XK_Tab".

(** [selectionStart] is missing in some browsers. *)
Definition keyInput (selectionStart : option Z) : U unit := with_rfb (
  target <- getElement "noVNC_keyboardinput" ;;
  let newValue := value_of target in
  u <- get ;;
  (match lastKeyboardinput u with
   | None | Some [] => keyboardinputReset
   | _ => ret tt
   end) ;;
  u <- get ;;
  let oldValue := match lastKeyboardinput u with Some v => v | None => [] end in
  let newLen := match selectionStart with Some s => Z.max s (zlen newValue) | None => zlen newValue end in
  let '(backspaces, inputs) := key_difference newLen newValue oldValue in
  repeatedly (Z.to_nat backspaces) (order_rfb (SendKey XK_BackSpace "Backspace" None)) ;;
  each (fun i => order_rfb (SendKey (keysym_at newValue i) "" None)) (upto (newLen - inputs) newLen) ;;
  if 2 * defaultKeyboardinputLen <? newLen then keyboardinputReset
  else if newLen <? 1 then
    keyboardinputReset ;; focus_on "body" ;; setTimeout (FocusElement "noVNC_keyboardinput") (Some 0) ;; ret tt
  else modify (set_lastKeyboardinput (Some newValue))).

(** ** Extra keys *)

Definition sendKey (keysym : Z) (code : string) (down : option bool) : U unit :=
  order_rfb (SendKey keysym code down) ;;
  s <- contains "noVNC_keyboard_button" "noVNC_selected" ;;
  (if s then focus_on "noVNC_keyboardinput" else focus_rfb) ;;
  idleControlbar.

Definition sendEsc : U unit := sendKey XK_Escape "Escape" None.
Definition sendTab : U unit := sendKey XK_Tab "Tab" None.

Definition toggle_key (btn : string) (keysym : Z) (code : string) : U unit :=
  s <- contains btn "noVNC_selected" ;;
  if s then sendKey keysym code (Some false) ;; remove btn "noVNC_selected"
  else sendKey keysym code (Some true) ;; add btn "noVNC_selected".

Definition toggleCtrl : U unit := toggle_key "noVNC_toggle_ctrl_button" Keytables.XK_Control_L "ControlLeft".
Definition toggleWindows : U unit := toggle_key "noVNC_toggle_windows_button" Keytables.XK_Super_L "MetaLeft".
Definition toggleAlt : U unit := toggle_key "noVNC_toggle_alt_button" Keytables.XK_Alt_L "AltLeft".

Definition sendCtrlAltDel : U unit := order_rfb SendCtrlAltDel ;; focus_rfb ;; idleControlbar.

(** ** Clipboard, name and bell *)

Definition clipboardReceive (t : list Z) : U unit := onElem "noVNC_clipboard_text" (assign_value t).
Definition clipboardSend : U unit :=
  e <- getElement "noVNC_clipboard_text" ;; order_rfb (ClipboardPasteFrom (value_of e)).

Definition updateDesktopName (name : list Z) : U unit :=
  modify (set_desktopName name) ;; modify (set_title (name ++ units " - " ++ PAGE_TITLE)).

Definition bell : U unit :=
  v <- attempt (getConfigVar (href E) (hash E) (units "bell") (Str (units "on"))) ;;
  if value_eqb v (Str (units "on")) then browser PlayBell else ret tt.

(** ** Listeners *)

Definition quiet {A} (m : U A) : event -> U unit := fun _ => m ;; ret tt.

Definition bar_listeners (types : list string) (f : U unit) : list (string * string * (event -> U unit)) :=
  map (fun t => ("noVNC_control_bar"%string, t, quiet f)) types.

Definition addControlbarHandlers : list (string * string * (event -> U unit)) :=
  bar_listeners ["mousemove"; "mouseup"; "mousedown"; "keydown"]%string activateControlbar ++
  bar_listeners ["mousedown"; "keydown"]%string keepControlbar ++
  [("noVNC_view_drag_button", "click", quiet toggleViewDrag);
   ("noVNC_control_bar_handle", "mousedown", controlbarHandleMouseDown);
   ("noVNC_control_bar_handle", "mouseup", controlbarHandleMouseUp);
   ("noVNC_control_bar_handle", "mousemove", dragControlbarHandle);
   ("window", "resize", quiet updateControlbarHandle)]%string ++
  map (fun x => (x, "click"%string, quiet (toggleExpander x))) expanders.

(** The listener of [input] on the keyboard's field is [keyInput], which comes
    with the place of the caret, and the first listener of [mousedown] is
    [keepVirtualKeyboard]: both are added in [dispatch]. *)
Definition addTouchSpecificHandlers : list (string * string * (event -> U unit)) :=
  [("noVNC_keyboard_button", "click", quiet toggleVirtualKeyboard);
   ("noVNC_keyboardinput", "focus", quiet onfocusVirtualKeyboard);
   ("noVNC_keyboardinput", "blur", quiet onblurVirtualKeyboard)]%string ++
  bar_listeners ["touchstart"; "touchmove"; "touchend"; "input"]%string activateControlbar ++
  bar_listeners ["touchstart"; "input"]%string keepControlbar ++
  [("noVNC_control_bar_handle", "touchstart", controlbarHandleMouseDown);
   ("noVNC_control_bar_handle", "touchend", controlbarHandleMouseUp);
   ("noVNC_control_bar_handle", "touchmove", dragControlbarHandle)]%string.

Definition addExtraKeysHandlers : list (string * string * (event -> U unit)) :=
  [("noVNC_toggle_extra_keys_button", "click", quiet toggleExtraKeys);
   ("noVNC_toggle_ctrl_button", "click", quiet toggleCtrl);
   ("noVNC_toggle_windows_button", "click", quiet toggleWindows);
   ("noVNC_toggle_alt_button", "click", quiet toggleAlt);
   ("noVNC_send_tab_button", "click", quiet sendTab);
   ("noVNC_send_esc_button", "click", quiet sendEsc);
   ("noVNC_send_ctrl_alt_del_button", "click", quiet sendCtrlAltDel)]%string.

Definition addMachineHandlers : list (string * string * (event -> U unit)) :=
  [("noVNC_shutdown_button", "click", quiet (order_rfb MachineShutdown));
   ("noVNC_reboot_button", "click", quiet (order_rfb MachineReboot));
   ("noVNC_reset_button", "click", quiet (order_rfb MachineReset));
   ("noVNC_power_button", "click", quiet togglePowerPanel)]%string.

Definition addConnectionControlHandlers : list (string * string * (event -> U unit)) :=
  [("noVNC_disconnect_button", "click", quiet disconnect);
   ("noVNC_connect_button", "click", quiet (connect Undefined));
   ("noVNC_cancel_reconnect_button", "click", quiet cancelReconnect);
   ("noVNC_approve_server_button", "click", quiet approveServer);
   ("noVNC_reject_server_button", "click", quiet rejectServer);
   ("noVNC_credentials_button", "click", quiet setCredentials)]%string.

Definition addClipboardHandlers : list (string * string * (event -> U unit)) :=
  [("noVNC_clipboard_button", "click", quiet toggleClipboardPanel);
   ("noVNC_clipboard_text", "change", quiet clipboardSend)]%string.

Definition addSettingChangeHandler (name : string) (changeFunc : option (U unit)) : string * string * (event -> U unit) :=
  (setting name, "change"%string, match changeFunc with Some f => quiet f | None => quiet (saveSetting name) end).

(** The level of the console is read only. *)
Definition updateLogging : U unit := getSetting "logging" ;; ret tt.

Definition addSettingsHandlers : list (string * string * (event -> U unit)) :=
  ("noVNC_settings_button"%string, "click"%string, quiet toggleSettingsPanel) ::
  map (fun h => addSettingChangeHandler (fst h) (snd h))
    [("encrypt", None); ("resize", None); ("resize", Some applyResizeMode); ("resize", Some updateViewClip);
     ("quality", None); ("quality", Some updateQuality); ("compression", None); ("compression", Some updateCompression);
     ("view_clip", None); ("view_clip", Some updateViewClip); ("shared", None);
     ("view_only", None); ("view_only", Some updateViewOnly); ("show_dot", None); ("show_dot", Some updateShowDotCursor);
     ("host", None); ("port", None); ("path", None); ("repeaterID", None);
     ("logging", None); ("logging", Some updateLogging); ("reconnect", None); ("reconnect_delay", None)]%string.

Definition addFullscreenHandlers : list (string * string * (event -> U unit)) :=
  if negb (isSafari E) && fullscreen_supported E then
    ("noVNC_fullscreen_button"%string, "click"%string, quiet toggleFullscreen) ::
    map (fun t => ("window"%string, t, quiet updateFullscreenButton))
      ["fullscreenchange"; "mozfullscreenchange"; "webkitfullscreenchange"; "msfullscreenchange"]%string
  else [].

(** In the order in which they are added. *)
Definition listeners : list (string * string * (event -> U unit)) :=
  addFullscreenHandlers ++ addControlbarHandlers ++ addTouchSpecificHandlers ++ addExtraKeysHandlers ++ addMachineHandlers ++
  addConnectionControlHandlers ++ addClipboardHandlers ++ addSettingsHandlers ++
  [("noVNC_status", "click", quiet hideStatus)]%string.

Definition heard_by (id type : string) : list (event -> U unit) :=
  map snd (filter (fun l => String.eqb (fst (fst l)) id && String.eqb (snd (fst l)) type) listeners).

(** A listener that throws does not keep the others from running. *)
Definition run_listener (e : event) (f : event -> U unit) (u : ui R) : ui R := snd (f e u).

(** An event comes to the elements from the one it happened on outwards, until
    it is stopped. *)
Fixpoint propagate (path : list string) (e : event) (u : ui R) : ui R :=
  match path with
  | [] => u
  | id :: path =>
      let u := fold_left (fun u f => run_listener e f u) (heard_by id (e_type e)) u in
      if stopped u then u else propagate path e u
  end.

Definition dispatch (path : list string) (selectionStart : option Z) (e : event) (u : ui R) : ui R :=
  let u := set_prevented false (set_stopped false u) in
  let u := if String.eqb (e_type e) "mousedown" then snd (keepVirtualKeyboard e u) else u in
  let u := if String.eqb (e_type e) "input" && String.eqb (e_target e) "noVNC_keyboardinput" then snd (keyInput selectionStart u) else u in
  propagate path e u.

(** ** Start *)

(** [translateDOM] and the handlers apart. *)
Definition start : U unit :=
  initSettings ;;
  (if isSecureContext E then ret tt
   else showStatus (text "Running without HTTPS is not recommended, crashes or other issues are likely.") "error") ;;
  pos <- onStore (readSetting (units "controlbar_pos") Undefined) ;;
  (if value_eqb pos (Str (units "right")) then toggleControlbarSide else ret tt) ;;
  initFullscreen ;;
  keyboardinputReset ;;
  openControlbar ;;
  updateVisualState Init ;;
  remove root "noVNC_loading" ;;
  autoconnect <- attempt (getConfigVar (href E) (hash E) (units "autoconnect") (Bool false)) ;;
  if value_eqb autoconnect (Str (units "true")) || value_eqb autoconnect (Str (units "1")) then connect Undefined
  else openConnectPanel.

(** The page as it is loaded, with the stores of the browser. *)
Definition page_loaded (s : store) : ui R :=
  mkUi (vnc_html E) false [] None None None false false 0%Q 0%Q None true None Null None [] 0 s [] "body" false [] [] None None false false.

(** The document is there when [start] runs, at once or later. *)
Definition prime : U unit := onStore WebUtil.initSettings ;; start.

(** The answer to the request for package.json. *)
Definition version_fetched (v : option (list Z)) : U unit := modify (set_version (Some v)).

(** ** Events of the client, and timers *)

Inductive client_event :=
| EvConnect
| EvDisconnect (clean : bool)
| EvServerVerification (type publickey : list Z)
| EvCredentialsRequired (types : list string)
| EvSecurityFailure (reason : option (list Z))
| EvClippingViewport
| EvCapabilities
| EvClipboard (t : list Z)
| EvBell
| EvDesktopName (name : list Z).

(** The listeners that [connect] adds to a new client. *)
Definition hear (e : client_event) : U unit :=
  match e with
  | EvConnect => connectFinished
  | EvDisconnect clean => disconnectFinished clean
  | EvServerVerification type key => serverVerify type key
  | EvCredentialsRequired types => credentials types
  | EvSecurityFailure reason => securityFailed reason
  | EvClippingViewport => updateViewDrag
  | EvCapabilities => updatePowerButton
  | EvClipboard t => clipboardReceive t
  | EvBell => bell
  | EvDesktopName name => updateDesktopName name
  end.

(** An element that is not there cannot be focused. *)
Definition focus_element (id : string) : U unit := if String.eqb id "none" then throw "TypeError" else focus_on id.

Definition run_callback (c : callback) : U unit :=
  match c with
  | HideStatus => hideStatus
  | IdleControlbar => idleControlbar
  | CloseControlbar => closeControlbar
  | Reconnect => reconnect
  | FocusElement id => focus_element id
  end.

(** A timer that runs is gone. *)
Definition timer_runs (t : timer) : U unit := clearTimeout (Some (t_id t)) ;; run_callback (t_callback t).
End Ui.
End UI.
