(* ===== verification/UiFacts.v ===== *)
(** Correctness of the page: what it shows, its panels, status line and timers
    over every history of user actions, timers and events of the client. *)

From Stdlib Require Import ZArith List Lia Bool String QArith.
From S2P Require Import Prelude Utf8 Webutil Keytables Lifecycle Ui.
Import ListNotations JS JSFacts WebUtil UI.
Open Scope Z_scope.
Open Scope code_scope.

Module UIFacts.

(** The life of a client: an order changes it only by disconnecting, which
    returns and dispatches nothing before it has (core/rfb.js, as
    [Lifecycle.disconnect] has it). *)
Class ClientOk (R : Type) `{Client R} := {
  c_state : R -> Lifecycle.conn;
  new_connecting url o r : new_rfb url o = inr r -> c_state r = Lifecycle.Connecting;
  ask_state o r : o <> Disconnect -> c_state (snd (fst (ask o r))) = c_state r;
  ask_disconnect r : c_state (snd (fst (ask Disconnect r))) =
    match c_state r with Lifecycle.Connecting | Lifecycle.Connected => Lifecycle.Disconnecting | s => s end;
  ask_leaves r : fst (fst (ask Disconnect r)) = Ret tt /\ snd (ask Disconnect r) = 0%nat
}.

(** ** What is followed *)

(** An element and a class of it. *)
Definition mark : Type := string * string.
Definition root_marks : list mark := map (pair root) state_classes.
Definition panel_marks : list mark :=
  [("noVNC_settings", "noVNC_open"); ("noVNC_settings_button", "noVNC_selected");
   ("noVNC_power", "noVNC_open"); ("noVNC_power_button", "noVNC_selected");
   ("noVNC_clipboard", "noVNC_open"); ("noVNC_clipboard_button", "noVNC_selected");
   ("noVNC_modifiers", "noVNC_open"); ("noVNC_toggle_extra_keys_button", "noVNC_selected")]%string.
Definition status_marks : list mark :=
  map (pair "noVNC_status"%string) ["noVNC_open"; "noVNC_status_error"; "noVNC_status_warn"; "noVNC_status_normal"]%string.
Definition dialog_marks : list mark := [("noVNC_connect_dlg", "noVNC_open")]%string.

Definition mark_eqb (p q : mark) : bool := String.eqb (fst p) (fst q) && String.eqb (snd p) (snd q).
Definition in_marks (p : mark) (l : list mark) : bool := existsb (mark_eqb p) l.
Definition all_marks : list mark := root_marks ++ panel_marks ++ status_marks ++ dialog_marks.

(** The kinds of timer that are remembered. *)
Inductive kind := KStatus | KIdle | KClose | KReconnect.
Definition kind_eqb (a b : kind) : bool :=
  match a, b with KStatus, KStatus | KIdle, KIdle | KClose, KClose | KReconnect, KReconnect => true | _, _ => false end.
Definition kind_of (c : callback) : option kind :=
  match c with
  | HideStatus => Some KStatus
  | IdleControlbar => Some KIdle
  | CloseControlbar => Some KClose
  | Reconnect => Some KReconnect
  | FocusElement _ => None
  end.
Definition is_kind (k : kind) (t : timer) : bool :=
  match kind_of (t_callback t) with Some k' => kind_eqb k k' | None => false end.

(** None of a kind runs, one that is remembered, or anything else. *)
Inductive pending := Idle | Owned | Loose.

Section Page.
Context {R : Type} `{ClientOk R}.
Abbreviation U := (M (ui R)).
Implicit Types u : ui R.

Definition holds (u : ui R) (p : mark) : bool := has_class (snd p) (dom u (fst p)).
Definition cls (l : list mark) (u : ui R) : list bool := map (holds u) l.

Definition field (k : kind) (u : ui R) : option Z :=
  match k with
  | KStatus => statusTimeout u
  | KIdle => idleControlbarTimeout u
  | KClose => closeControlbarTimeout u
  | KReconnect => reconnectCallback u
  end.

Definition pend (k : kind) (u : ui R) : pending :=
  match filter (is_kind k) (timers u) with
  | [] => Idle
  | [t] => match field k u with Some i => if t_id t =? i then Owned else Loose | None => Loose end
  | _ => Loose
  end.

Definition labelled (u : ui R) (n : string) : bool := match label (dom u (setting n)) with Some _ => true | None => false end.

(** Numbers of timers are fresh, and a remembered one is of its kind. *)
Record hygienic (u : ui R) : Prop := {
  distinct_timers : NoDup (map t_id (timers u));
  fresh_timers : forall t, In t (timers u) -> t_id t < nextTimer u;
  fresh_fields : forall k i, field k u = Some i -> i < nextTimer u;
  own_fields : forall t k, In t (timers u) -> field k u = Some (t_id t) -> kind_of (t_callback t) = Some k
}.

(** At most one panel is open, and its button alone is selected. *)
Definition panels_ok (l : list bool) : bool :=
  match l with
  | [a; a'; b; b'; c; c'; d; d'] =>
      Bool.eqb a a' && Bool.eqb b b' && Bool.eqb c c' && Bool.eqb d d' &&
      (Z.b2z a + Z.b2z b + Z.b2z c + Z.b2z d <=? 1)
  | _ => false
  end.

(** What is shown has one severity, and a timer that hides it unless it is an
    error. *)
Definition status_ok (l : list bool) (hide : pending) : bool :=
  match l with
  | [opened; error; warn; normal] =>
      (if opened then Z.b2z error + Z.b2z warn + Z.b2z normal =? 1 else true) &&
      match hide with Owned => opened && negb error | Idle => negb opened || error | Loose => false end
  | _ => false
  end.

Record sound (u : ui R) : Prop := {
  sound_hygienic : hygienic u;
  sound_panels : panels_ok (cls panel_marks u) = true;
  sound_status : status_ok (cls status_marks u) (pend KStatus u) = true;
  sound_close : pend KClose u <> Loose;
  sound_password : reconnectPassword u <> Undefined
}.

(** The connection as the page has it. *)
Record phase := Phase {
  p_connected : bool;
  p_client : option Lifecycle.conn;
  p_inhibit : bool;
  p_labels : bool;
  p_dialog : list bool;
  p_root : list bool;
  p_close : pending;
  p_wait : pending
}.

Definition phase_of (u : ui R) : phase :=
  Phase (connected u) (option_map c_state (rfb u)) (inhibitReconnect u)
    (forallb (labelled u) ("view_clip"%string :: connection_settings))
    (cls dialog_marks u) (cls root_marks u) (pend KClose u) (pend KReconnect u).

(** Nothing of what is followed differs, of the marks those of [l]. *)
Record same_on (l : list mark) (u u' : ui R) : Prop := {
  same_marks : forall p, in_marks p l = true -> holds u' p = holds u p;
  same_labels : forall n, labelled u' n = labelled u n;
  same_timers : timers u' = timers u;
  same_next : nextTimer u' = nextTimer u;
  same_fields : forall k, field k u' = field k u;
  same_connected : connected u' = connected u;
  same_client : option_map c_state (rfb u') = option_map c_state (rfb u);
  same_inhibit : inhibitReconnect u' = inhibitReconnect u;
  same_password : reconnectPassword u <> Undefined -> reconnectPassword u' <> Undefined
}.



Abbreviation same := (same_on all_marks).

(** The same, but that the control bar may be kept open. *)
Definition keep_open (p : phase) : phase :=
  Phase (p_connected p) (p_client p) (p_inhibit p) (p_labels p) (p_dialog p) (p_root p) Idle (p_wait p).
Definition calmer (p' p : phase) : Prop := p' = p \/ p' = keep_open p.

Definition static_on l {A} (m : U A) : Prop := forall u, same_on l u (snd (m u)).

Abbreviation static := (static_on all_marks).
Definition quiet_op {A} (m : U A) : Prop := forall u, sound u -> sound (snd (m u)) /\ calmer (phase_of (snd (m u))) (phase_of u).

Lemma calmer_refl p : calmer p p.
Proof. now left. Qed.

Lemma calmer_trans p q r : calmer p q -> calmer q r -> calmer p r.
Proof. unfold calmer. intros [->| ->] [->| ->]; auto. Qed.

Lemma mark_eqb_spec p q : reflect (p = q) (mark_eqb p q).
Proof.
  unfold mark_eqb. destruct p as [a b], q as [c d]; cbn [fst snd]. destruct (String.eqb_spec a c), (String.eqb_spec b d); constructor; congruence.
Qed.

Lemma same_refl l u : same_on l u u.
Proof. constructor; auto. Qed.

Lemma same_trans l u v w : same_on l u v -> same_on l v w -> same_on l u w.
Proof. intros [] []. constructor; try (intros; etransitivity; eauto; fail). auto. Qed.

Lemma cls_same l' l u u' : same_on l' u u' -> forallb (fun p => in_marks p l') l = true -> cls l u' = cls l u.
Proof.
  intros Hs Hl. apply map_ext_in. intros p Hp. apply (same_marks _ _ _ Hs). rewrite forallb_forall in Hl. now apply Hl.
Qed.

Lemma pend_same l k u u' : same_on l u u' -> pend k u' = pend k u.
Proof. intros Hs. unfold pend. now rewrite (same_timers _ _ _ Hs), (same_fields _ _ _ Hs). Qed.

Lemma phase_same l u u' : same_on l u u' -> forallb (fun p => in_marks p l) (root_marks ++ dialog_marks) = true -> phase_of u' = phase_of u.
Proof.
  rewrite forallb_app, andb_true_iff. intros Hs [Hr Hd]. unfold phase_of.
  rewrite (same_connected _ _ _ Hs), (same_client _ _ _ Hs), (same_inhibit _ _ _ Hs).
  rewrite !(cls_same _ _ _ _ Hs), !(pend_same _ _ _ _ Hs) by assumption. f_equal.
  cbn [forallb connection_settings]. now rewrite !(same_labels _ _ _ Hs).
Qed.

Lemma hygienic_same l u u' : same_on l u u' -> hygienic u -> hygienic u'.
Proof.
  intros Hs [H0' H1 H2 H3]. constructor.
  - now rewrite (same_timers _ _ _ Hs).
  - intros t. rewrite (same_timers _ _ _ Hs), (same_next _ _ _ Hs). apply H1.
  - intros k i. rewrite (same_fields _ _ _ Hs), (same_next _ _ _ Hs). apply H2.
  - intros t k. rewrite (same_timers _ _ _ Hs), (same_fields _ _ _ Hs). apply H3.
Qed.

Lemma sound_same u u' : same u u' -> sound u -> sound u'.
Proof.
  intros Hs [Hy Hp Ht Hc Hw]. constructor.
  - exact (hygienic_same _ _ _ Hs Hy).
  - now rewrite (cls_same _ _ _ _ Hs).
  - now rewrite (cls_same _ _ _ _ Hs), (pend_same _ _ _ _ Hs).
  - now rewrite (pend_same _ _ _ _ Hs).
  - now apply (same_password _ _ _ Hs).
Qed.

(** ** Sequences *)

Lemma static_quiet {A} (m : U A) : static m -> quiet_op m.
Proof. intros Hm u Hu. split; [exact (sound_same _ _ (Hm u) Hu)|left; exact (phase_same _ _ _ (Hm u) eq_refl)]. Qed.

Lemma static_less l l' {A} (m : U A) : forallb (fun p => in_marks p l) l' = true -> static_on l m -> static_on l' m.
Proof.
  intros Hl Hm u. destruct (Hm u) as [H1 H2 H3 H4 H5 H6 H7 H8 H9]. constructor; [|assumption..]. intros p Hp. apply H1.
  rewrite forallb_forall in Hl. apply existsb_exists in Hp as (q & Hq & Hpq). destruct (mark_eqb_spec p q) as [->|]; [now apply Hl|discriminate].
Qed.

Lemma static_bind l {A B} (m : U A) (k : A -> U B) : static_on l m -> (forall a, static_on l (k a)) -> static_on l (bind m k).
Proof.
  intros Hm Hk u. unfold bind. specialize (Hm u). destruct (m u) as [[a|e|] u']; cbn [snd] in *; try exact Hm.
  exact (same_trans _ _ _ _ Hm (Hk a u')).
Qed.

Lemma page_quiet_bind {A B} (m : U A) (k : A -> U B) : quiet_op m -> (forall a, quiet_op (k a)) -> quiet_op (bind m k).
Proof.
  intros Hm Hk u Hu. unfold bind. destruct (Hm u Hu) as [Hs Hp]. destruct (m u) as [[a|e|] u']; cbn [snd] in *; try (split; assumption).
  destruct (Hk a u' Hs) as [Hs' Hp']. split; [exact Hs'|exact (calmer_trans _ _ _ Hp' Hp)].
Qed.

(** The state itself does not matter to an operation that reads it. *)
Lemma page_quiet_get {B} (k : ui R -> U B) : (forall v, quiet_op (k v)) -> quiet_op (bind get k).
Proof. intros Hk u Hu. exact (Hk u u Hu). Qed.

Lemma static_const l {A} (f : ui R -> outcome A) : static_on l (fun u => (f u, u)).
Proof. intros u. apply same_refl. Qed.

Lemma static_each l {A} (f : A -> U unit) xs : (forall a, static_on l (f a)) -> static_on l (each f xs).
Proof. intros Hf. induction xs; cbn [each]; [apply static_const|apply static_bind; auto]. Qed.

Lemma quiet_each {A} (f : A -> U unit) l : (forall a, quiet_op (f a)) -> quiet_op (each f l).
Proof. intros Hf. induction l; cbn [each]; [apply static_quiet, (static_const all_marks)|apply page_quiet_bind; auto]. Qed.

Lemma quiet_repeatedly n (m : U unit) : quiet_op m -> quiet_op (repeatedly n m).
Proof. intros Hm. induction n; cbn [repeatedly]; [apply static_quiet, (static_const all_marks)|apply page_quiet_bind; auto]. Qed.

Lemma static_repeatedly n (m : U unit) : static m -> static (repeatedly n m).
Proof. intros Hm. induction n; cbn [repeatedly]; [apply static_const|apply static_bind; auto]. Qed.

(** ** Elements *)

Lemma in_list_app c l l' : existsb (String.eqb c) (l ++ l') = existsb (String.eqb c) l || existsb (String.eqb c) l'.
Proof. apply existsb_app. Qed.

Lemma has_add c d e : has_class c (add_class d e) = (String.eqb d c || has_class c e).
Proof.
  unfold add_class. destruct (has_class d e) eqn:Ed.
  - destruct (String.eqb_spec d c) as [->|]; [now rewrite Ed|reflexivity].
  - unfold has_class. cbn [classes set_classes]. rewrite in_list_app. cbn [existsb]. rewrite orb_false_r, orb_comm, (String.eqb_sym c d). reflexivity.
Qed.

Lemma has_remove c d e : has_class c (remove_class d e) = negb (String.eqb d c) && has_class c e.
Proof.
  unfold remove_class, has_class. cbn [classes set_classes]. induction (classes e) as [|x l IH]; cbn [filter existsb]; [now rewrite andb_false_r|].
  destruct (String.eqb_spec d x) as [->|Hne]; cbn [negb].
  - rewrite IH. destruct (String.eqb_spec c x) as [->|]; [now rewrite String.eqb_refl|reflexivity].
  - cbn [existsb]. rewrite IH. destruct (String.eqb_spec d c) as [->|]; cbn [negb andb]; [|reflexivity].
    destruct (String.eqb_spec c x); [congruence|reflexivity].
Qed.

Lemma holds_add id c u p : holds (set_dom (upd id (add_class c) (dom u)) u) p = mark_eqb p (id, c) || holds u p.
Proof.
  destruct p as [i d]. unfold holds, mark_eqb, upd. cbn [fst snd dom set_dom]. destruct (String.eqb i id); cbn [andb orb]; [|reflexivity].
  rewrite has_add. now rewrite (String.eqb_sym c d).
Qed.

Lemma holds_remove id c u p : holds (set_dom (upd id (remove_class c) (dom u)) u) p = negb (mark_eqb p (id, c)) && holds u p.
Proof.
  destruct p as [i d]. unfold holds, mark_eqb, upd. cbn [fst snd dom set_dom]. destruct (String.eqb i id); cbn [andb negb]; [|reflexivity].
  rewrite has_remove. now rewrite (String.eqb_sym c d).
Qed.

Lemma label_add c e : label (add_class c e) = label e.
Proof. unfold add_class. now destruct (has_class c e). Qed.

Lemma labelled_upd id f u n : (forall e, label (f e) = label e) -> labelled (set_dom (upd id f (dom u)) u) n = labelled u n.
Proof. intros Hf. unfold labelled, upd. cbn [dom set_dom]. destruct (String.eqb _ _); [now rewrite Hf|reflexivity]. Qed.

Definition untracked (l : list mark) (id c : string) : bool := negb (in_marks (id, c) l).

Lemma untracked_other l id c p : untracked l id c = true -> in_marks p l = true -> mark_eqb p (id, c) = false.
Proof.
  unfold untracked. intros Hu Hp. destruct (mark_eqb_spec p (id, c)) as [->|]; [now rewrite Hp in Hu|reflexivity].
Qed.

Lemma static_add l id c : untracked l id c = true -> static_on l (add id c).
Proof.
  intros Hu u. constructor; try reflexivity; try (intros []; reflexivity); try (intros Hw; exact Hw).
  - intros p Hp. unfold add, onElem, modify. cbn [snd]. rewrite holds_add, (untracked_other l id c p Hu Hp). reflexivity.
  - intros n. apply labelled_upd. intros e. apply label_add.
Qed.

Lemma static_remove l id c : untracked l id c = true -> static_on l (remove id c).
Proof.
  intros Hu u. constructor; try reflexivity; try (intros []; reflexivity); try (intros Hw; exact Hw).
  - intros p Hp. unfold remove, onElem, modify. cbn [snd]. rewrite holds_remove, (untracked_other l id c p Hu Hp). reflexivity.
  - intros n. now apply labelled_upd.
Qed.

(** A change of an element other than of its classes and label. *)
Lemma static_elem l id f : (forall e, classes (f e) = classes e /\ label (f e) = label e) -> static_on l (onElem id f).
Proof.
  intros Hf u. constructor; try reflexivity; try (intros []; reflexivity); try (intros Hw; exact Hw).
  - intros [i c] _. unfold holds, has_class, onElem, modify, upd. cbn [fst snd dom set_dom]. destruct (String.eqb i id); [|reflexivity].
    now rewrite (proj1 (Hf _)).
  - intros n. apply labelled_upd. apply Hf.
Qed.

Lemma static_modify l f : (forall u, same_on l u (f u)) -> static_on l (modify f).
Proof. intros Hf u. apply Hf. Qed.

Lemma static_store l {A} (m : M store A) : static_on l (onStore m).
Proof. intros u. unfold onStore, lift. destruct (m (stored u)) as [o s]. constructor; try reflexivity; try (intros Hw; exact Hw); intros []; reflexivity. Qed.

(** Most classes are followed on no element. *)
Lemma untracked_class l id c : forallb (fun p => negb (String.eqb c (snd p))) l = true -> untracked l id c = true.
Proof.
  unfold untracked, in_marks. induction l as [|p ps IH]; [reflexivity|]. cbn [forallb existsb]. intros Hc.
  apply andb_true_iff in Hc as [Hp Hps]. unfold mark_eqb at 1. cbn [fst snd]. apply negb_true_iff in Hp. rewrite Hp, andb_false_r. now apply IH.
Qed.

Lemma static_attempt l {A} (o : outcome A) : static_on l (attempt o).
Proof. exact (static_const l (fun _ => o)). Qed.

Lemma static_ret l {A} (a : A) : static_on l (ret a).
Proof. exact (static_const l (fun _ => Ret a)). Qed.

Lemma static_throw l {A} e : static_on l (@throw (ui R) A e).
Proof. exact (static_const l (fun _ => Throw e)). Qed.

Lemma static_gets l {A} (f : ui R -> A) : static_on l (gets f).
Proof. exact (static_const l (fun u => Ret (f u))). Qed.

Lemma static_get l : static_on l get.
Proof. exact (static_const l (fun u : ui R => Ret u)). Qed.

End Page.

Abbreviation same := (same_on all_marks).
Abbreviation static := (static_on all_marks).

Ltac leaf :=
  match goal with
  | |- static_on _ (ret _) => apply static_ret
  | |- static_on _ (throw _) => apply static_throw
  | |- static_on _ (attempt _) => apply static_attempt
  | |- static_on _ get => apply static_get
  | |- static_on _ (gets _) => apply static_gets
  | |- static_on _ (onStore _) => apply static_store
  | |- static_on _ (getElement _) => apply static_gets
  | |- static_on _ (contains _ _) => apply static_gets
  | |- static_on _ (add _ _) => apply static_add; first [apply untracked_class; reflexivity | reflexivity]
  | |- static_on _ (remove _ _) => apply static_remove; first [apply untracked_class; reflexivity | reflexivity]
  | |- static_on _ (onElem ?i (add_class ?c)) => apply (static_add _ i c), untracked_class; reflexivity
  | |- static_on _ (onElem ?i (remove_class ?c)) => apply (static_remove _ i c), untracked_class; reflexivity
  | |- static_on _ (onElem _ _) => apply static_elem; intros ?; split; reflexivity
  | |- static_on _ (modify _) => apply static_modify; intros ?; constructor; try reflexivity; try discriminate; try (intros Hw; exact Hw); intros []; reflexivity
  end.

(** Walks through a program, its branches included. *)
Ltac walk :=
  repeat first
    [ leaf | assumption
    | match goal with
      | |- static_on _ (bind _ _) => apply static_bind; [|intros ?]
      | |- static_on _ (if ?b then _ else _) => destruct b
      | |- static_on _ (match ?x with _ => _ end) => destruct x
      end ].

Create HintDb page.

Section Settings.
Context {R : Type} `{ClientOk R}.
Abbreviation U := (M (ui R)).
Implicit Types u : ui R.

(** ** Settings and orders leave what is followed as it was *)

Lemma assign_classes t e : classes (assign_value t e) = classes e /\ label (assign_value t e) = label e.
Proof. unfold assign_value. now destruct (control e). Qed.

Lemma static_getSetting n : static (getSetting n).
Proof. unfold getSetting, getElement. walk. Qed.

Lemma static_updateSetting n : static (updateSetting n).
Proof.
  unfold updateSetting. apply static_bind; [apply static_getSetting|intros v]. apply static_elem. intros e.
  destruct (control e); try apply assign_classes; [split; reflexivity|]. now destruct (index_of v options 0).
Qed.

Lemma static_saveSetting n : static (saveSetting n).
Proof. unfold saveSetting, getElement. walk. Qed.

Lemma static_initSetting (E : env) n v : static (initSetting E n v).
Proof. unfold initSetting. apply static_bind; [leaf|intros o]. apply static_bind; [destruct o; leaf|intros o']. apply static_bind; [leaf|intros _]. apply static_bind; [apply static_updateSetting|intros _; leaf]. Qed.

Lemma static_disableSetting n : static (disableSetting n).
Proof. unfold disableSetting, label_class, getElement. walk. Qed.

Lemma static_enableSetting n : static (enableSetting n).
Proof. unfold enableSetting, label_class, getElement. walk. Qed.

Lemma static_forceSetting n v : static (forceSetting n v).
Proof. unfold forceSetting. apply static_bind; [leaf|intros _]. apply static_bind; [apply static_updateSetting|intros _; apply static_disableSetting]. Qed.

Lemma static_set_rfb r r' u : c_state r' = c_state r -> rfb u = Some r -> same u (set_rfb (Some r') u).
Proof. intros Hc Hr. constructor; try reflexivity; try (intros []; reflexivity); try (intros Hw; exact Hw). cbn [rfb set_rfb]. rewrite Hr. cbn [option_map]. now rewrite Hc. Qed.

Lemma theRfb_run {B} (k : R -> U B) u : bind theRfb k u = match rfb u with Some r => k r u | None => (Throw "TypeError", u) end.
Proof. unfold theRfb, bind, get, ret, throw. now destruct (rfb u). Qed.

Lemma static_ask o : o <> Disconnect -> static (ask_rfb o).
Proof.
  intros Ho u. unfold ask_rfb. rewrite theRfb_run. destruct (rfb u) as [r|] eqn:Er; [|apply same_refl].
  assert (Ha := ask_state o r Ho). destruct (ask o r) as [[res r'] n]. cbn [fst snd] in Ha. exact (static_set_rfb r r' u Ha Er).
Qed.

Lemma static_theRfb : static theRfb.
Proof. intros u. unfold theRfb, bind, get. destruct (rfb u); apply same_refl. Qed.

Lemma static_updateViewDrag : static updateViewDrag.
Proof.
  unfold updateViewDrag. apply static_bind; [leaf|intros u]. destruct (negb (connected u)); [leaf|].
  apply static_bind; [apply static_theRfb|intros r]. apply static_bind; [destruct (_ && _); [apply static_bind; [now apply static_ask|intros p; leaf]|leaf]|intros _].
  apply static_bind; [apply static_theRfb|intros r']. walk.
Qed.

Lemma static_order o : o <> Disconnect -> static (order_rfb o).
Proof.
  intros Ho. unfold order_rfb. apply static_bind; [now apply static_ask|intros p]. apply static_bind; [apply static_repeatedly, static_updateViewDrag|intros _; leaf].
Qed.

Lemma static_with (m : U unit) : static m -> static (with_rfb m).
Proof. intros Hm. unfold with_rfb. apply static_bind; [leaf|intros u]. destruct (rfb u); [exact Hm|leaf]. Qed.

End Settings.

#[export] Hint Resolve static_getSetting static_updateSetting static_saveSetting static_initSetting static_disableSetting static_enableSetting
  static_forceSetting static_theRfb static_updateViewDrag static_ask : page.
#[export] Hint Resolve static_order : page.
#[export] Hint Extern 1 (_ <> Disconnect) => discriminate : page.


(** Walks through a program of the page. *)
Ltac stat :=
  repeat first
    [ leaf | solve [auto 3 with page nocore]
    | match goal with
      | |- static (with_rfb _) => apply static_with
      | |- static (bind _ _) => apply static_bind; [|intros ?]
      | |- static (each _ _) => apply static_each; intros ?
      | |- static (if ?b then _ else _) => destruct b
      | |- static (match ?x with _ => _ end) => destruct x
      end ].

Section Page.
Context {R : Type} `{ClientOk R}.
Abbreviation U := (M (ui R)).
Implicit Types u : ui R.

Lemma static_setScaling : static setScaling.
Proof. unfold setScaling, is_setting. stat. Qed.

Lemma static_configure_options : static setQuality /\ static setCompression /\ static setShowDot /\ static updateViewOnly.
Proof. unfold setQuality, setCompression, setShowDot, updateViewOnly. split; [|split; [|split]]; stat. Qed.

Hint Resolve static_setScaling : page.
Hint Resolve static_quiet : page.

Lemma static_configure : static configure.
Proof.
  destruct static_configure_options as (H1 & H2 & H3 & H4). unfold configure. stat.
Qed.

Lemma static_updateViewClip (E : env) : static (updateViewClip E).
Proof. unfold updateViewClip, is_setting. stat. Qed.

(** ** Timers *)

Lemma clear_in id u t : In t (timers (snd (clearTimeout id u))) -> In t (timers u).
Proof. unfold clearTimeout. destruct id; cbn; [|auto]. rewrite filter_In. tauto. Qed.

Lemma clear_rest id u : exists l, snd (clearTimeout id u) = set_timers l u /\ (forall t, In t l -> In t (timers u)).
Proof.
  destruct id as [i|].
  - eexists. split; [reflexivity|]. intros t. rewrite filter_In. tauto.
  - exists (timers u). split; [now destruct u|auto].
Qed.

Lemma distinct_filter (f : timer -> bool) l : NoDup (map t_id l) -> NoDup (map t_id (filter f l)).
Proof.
  induction l as [|t l IH]; cbn [map filter]; [auto|]. intros Hn. inversion Hn as [|? ? Hi Hn']; subst. destruct (f t); [|auto].
  cbn [map]. constructor; [|auto]. rewrite in_map_iff in *. intros (t' & Et & Ht'). apply filter_In in Ht' as [Ht' _]. eauto.
Qed.

Lemma distinct_clear id u : NoDup (map t_id (timers u)) -> NoDup (map t_id (timers (snd (clearTimeout id u)))).
Proof. destruct id; [apply distinct_filter|auto]. Qed.

Lemma hygienic_clear id u : hygienic u -> hygienic (snd (clearTimeout id u)).
Proof.
  intros [H0' H1 H2 H3]. assert (Hd := distinct_clear id u H0'). destruct (clear_rest id u) as (l & E & Hl). rewrite E in *. constructor; [exact Hd| | |].
  - intros t Ht. now apply H1, Hl.
  - intros k i Hk. apply (H2 k). destruct k; exact Hk.
  - intros t k Ht Hk. apply H3; [now apply Hl|]. destruct k; exact Hk.
Qed.

Lemma kind_eqb_spec a b : reflect (a = b) (kind_eqb a b).
Proof. destruct a, b; constructor; congruence. Qed.

Lemma is_kind_spec k t : is_kind k t = true <-> kind_of (t_callback t) = Some k.
Proof. unfold is_kind. destruct (kind_of _) as [k'|]; [|easy]. destruct (kind_eqb_spec k k'); split; congruence. Qed.

Lemma filter_filter {A} (f g : A -> bool) l : filter f (filter g l) = filter g (filter f l).
Proof.
  induction l as [|a l IH]; [reflexivity|]. cbn [filter]. destruct (g a) eqn:Eg, (f a) eqn:Ef; cbn [filter]; rewrite ?Eg, ?Ef; congruence.
Qed.

Lemma filter_all {A} (f : A -> bool) l : (forall a, In a l -> f a = true) -> filter f l = l.
Proof. induction l as [|a l IH]; intros Hf; [reflexivity|]. cbn [filter]. rewrite (Hf a) by (now left). rewrite IH; [reflexivity|intros b Hb; apply Hf; now right]. Qed.

Lemma timers_clear k u : timers (snd (clearTimeout (field k u) u)) = filter (fun t => negb (match field k u with Some i => t_id t =? i | None => false end)) (timers u).
Proof. destruct (field k u) as [i|]; [reflexivity|]. cbn. symmetry. apply filter_all. reflexivity. Qed.

Lemma field_clear k id u : field k (snd (clearTimeout id u)) = field k u.
Proof. destruct (clear_rest id u) as (l & -> & _). now destruct k. Qed.

(** A remembered timer is stopped, and no other. *)
Lemma pend_clear_same k u : pend k u <> Loose -> pend k (snd (clearTimeout (field k u) u)) = Idle.
Proof.
  intros Hk. unfold pend in *. rewrite timers_clear, field_clear, filter_filter.
  destruct (filter (is_kind k) (timers u)) as [|t [|t' l]]; [reflexivity| |now destruct Hk].
  destruct (field k u) as [i|]; [|now destruct Hk]. destruct (t_id t =? i) eqn:Ei; [|now destruct Hk]. cbn [filter]. now rewrite Ei.
Qed.

Lemma pend_clear_other k k' u : hygienic u -> k <> k' -> pend k (snd (clearTimeout (field k' u) u)) = pend k u.
Proof.
  intros Hy Hne. unfold pend. rewrite timers_clear, field_clear, filter_filter.
  rewrite (filter_all _ (filter (is_kind k) (timers u))); [reflexivity|]. intros t Ht. apply filter_In in Ht as [Ht Hkt].
  apply is_kind_spec in Hkt. destruct (field k' u) as [i|] eqn:Ef; [|reflexivity]. destruct (Z.eqb_spec (t_id t) i) as [<-|]; [|reflexivity].
  assert (Ho := own_fields _ Hy t k' Ht Ef). congruence.
Qed.

(** The state with a timer that is started and remembered. *)
Definition set_field (k : kind) (v : option Z) (u : ui R) : ui R :=
  match k with
  | KStatus => set_statusTimeout v u
  | KIdle => set_idleControlbarTimeout v u
  | KClose => set_closeControlbarTimeout v u
  | KReconnect => set_reconnectCallback v u
  end.
Definition arm (k : kind) (c : callback) (d : option Z) : U unit := id <- setTimeout c d ;; modify (set_field k (Some id)).

Lemma arm_state k c d u : snd (arm k c d u) =
  set_field k (Some (nextTimer u)) (set_nextTimer (nextTimer u + 1) (set_timers (timers u ++ [Timer (nextTimer u) c d]) u)).
Proof. reflexivity. Qed.

Lemma field_set k k' v u : field k (set_field k' v u) = if kind_eqb k k' then v else field k u.
Proof. now destruct k, k'. Qed.

Lemma arm_timers k c d u : timers (snd (arm k c d u)) = timers u ++ [Timer (nextTimer u) c d].
Proof. rewrite arm_state. now destruct k. Qed.

Lemma arm_field k c d k' u : field k' (snd (arm k c d u)) = if kind_eqb k' k then Some (nextTimer u) else field k' u.
Proof. rewrite arm_state, field_set. destruct (kind_eqb k' k); [reflexivity|now destruct k']. Qed.

Lemma distinct_snoc l n t : NoDup (map t_id l) -> (forall t', In t' l -> t_id t' < n) -> t_id t = n -> NoDup (map t_id l ++ [t_id t]).
Proof.
  intros Hn Hl Ht. induction l as [|a l IH]; cbn [map app]; [repeat constructor; auto|]. inversion Hn as [|? ? Hi Hn']; subst. constructor.
  - rewrite in_app_iff. intros [Hin|[Heq|[]]]; [auto|]. assert (Ha := Hl a (or_introl eq_refl)). lia.
  - apply IH; [exact Hn'|]. intros t' Hin. apply Hl. now right.
Qed.

Lemma hygienic_arm k c d u : kind_of c = Some k -> hygienic u -> hygienic (snd (arm k c d u)).
Proof.
  intros Hc [H0' H1 H2 H3]. assert (En : nextTimer (snd (arm k c d u)) = nextTimer u + 1) by (rewrite arm_state; now destruct k). constructor.
  - rewrite arm_timers, map_app. cbn [map t_id]. exact (distinct_snoc _ _ (Timer (nextTimer u) c d) H0' H1 eq_refl).
  - intros t. rewrite arm_timers, En, in_app_iff. intros [Ht|[<-|[]]]; [apply H1 in Ht; lia|cbn; lia].
  - intros k' i. rewrite arm_field, En. destruct (kind_eqb k' k); [intros [= <-]; lia|intros Hi; apply H2 in Hi; lia].
  - intros t k'. rewrite arm_timers, arm_field, in_app_iff. destruct (kind_eqb_spec k' k) as [->|Hne].
    + intros [Ht|[<-|[]]] Hi; [apply H1 in Ht; injection Hi; lia|exact Hc].
    + intros [Ht|[<-|[]]] Hf; [now apply H3|]. cbn [t_id] in Hf. apply H2 in Hf. lia.
Qed.

Lemma filter_last {A} (f : A -> bool) l a : filter f (l ++ [a]) = filter f l ++ if f a then [a] else [].
Proof. rewrite filter_app. cbn [filter]. now destruct (f a). Qed.

Lemma pend_arm_same k c d u : kind_of c = Some k -> pend k u = Idle -> pend k (snd (arm k c d u)) = Owned.
Proof.
  intros Hc Hi. unfold pend in *. rewrite arm_timers, arm_field, filter_last. unfold is_kind at 2. cbn [t_callback]. rewrite Hc.
  destruct (kind_eqb_spec k k); [|congruence].
  destruct (filter (is_kind k) (timers u)) as [|t [|t' l]]; [|destruct (field k u); [destruct (t_id t =? z)|]; discriminate|discriminate].
  cbn [app t_id]. now rewrite Z.eqb_refl.
Qed.

Lemma pend_arm_other k c d k' u : kind_of c = Some k -> k' <> k -> pend k' (snd (arm k c d u)) = pend k' u.
Proof.
  intros Hc Hne. unfold pend in *. rewrite arm_timers, arm_field, filter_last. unfold is_kind at 2. cbn [t_callback]. rewrite Hc.
  destruct (kind_eqb_spec k' k); [congruence|]. now rewrite app_nil_r.
Qed.

(** Starting a timer that is not remembered. *)
Lemma quiet_focus id d : quiet_op (setTimeout (FocusElement id) d).
Proof.
  intros u Hu. set (u' := snd (setTimeout (FocusElement id) d u)).
  assert (Ht : timers u' = timers u ++ [Timer (nextTimer u) (FocusElement id) d]) by reflexivity.
  assert (Hp : forall k, pend k u' = pend k u).
  { intros k. unfold pend. rewrite Ht, filter_last. unfold is_kind at 2. cbn [t_callback kind_of]. rewrite app_nil_r. now destruct k. }
  split.
  - destruct Hu as [[H0' H1 H2 H3] H4 H5 H6 H7]. constructor; [|exact H4|rewrite Hp; exact H5|rewrite Hp; exact H6|exact H7]. constructor.
    + rewrite Ht, map_app. exact (distinct_snoc _ _ (Timer (nextTimer u) (FocusElement id) d) H0' H1 eq_refl).
    + intros t. rewrite Ht, in_app_iff. intros [Hin|[<-|[]]]; cbn; [apply H1 in Hin; lia|lia].
    + intros k i Hi. assert (Hi' : field k u = Some i) by (destruct k; exact Hi). apply H2 in Hi'. cbn. lia.
    + intros t k. rewrite Ht, in_app_iff. intros [Hin|[<-|[]]] Hf.
      * apply H3; [exact Hin|]. destruct k; exact Hf.
      * assert (Hf' : field k u = Some (nextTimer u)) by (destruct k; exact Hf). apply H2 in Hf'. lia.
  - left. unfold phase_of. rewrite !Hp. reflexivity.
Qed.

(** ** Panels *)

Definition other_marks : list mark := root_marks ++ status_marks ++ dialog_marks.

(** Only panels and their buttons change. *)
Lemma panels_quiet {A} (m : U A) u : static_on other_marks m -> sound u ->
  panels_ok (cls panel_marks (snd (m u))) = true -> sound (snd (m u)) /\ phase_of (snd (m u)) = phase_of u.
Proof.
  intros Hm [Hy Hp Ht Hc Hw] Hok. specialize (Hm u). split; [|exact (phase_same _ _ _ Hm eq_refl)]. constructor.
  - exact (hygienic_same _ _ _ Hm Hy).
  - exact Hok.
  - now rewrite (cls_same _ _ _ _ Hm), (pend_same _ _ _ _ Hm).
  - now rewrite (pend_same _ _ _ _ Hm).
  - now apply (same_password _ _ _ Hm).
Qed.

(** An operation that ends normally and leaves the phase as it is. *)
Lemma quiet_equal {A} (m : U A) : (forall u, sound u -> sound (snd (m u)) /\ phase_of (snd (m u)) = phase_of u) -> quiet_op m.
Proof. intros Hm u Hu. destruct (Hm u Hu) as [Hs Hp]. split; [exact Hs|now left]. Qed.

Lemma add_run id c u : add id c u = (Ret tt, set_dom (upd id (add_class c) (dom u)) u).
Proof. reflexivity. Qed.

Lemma remove_run id c u : remove id c u = (Ret tt, set_dom (upd id (remove_class c) (dom u)) u).
Proof. reflexivity. Qed.

Lemma cls_after_add l id c u : cls l (snd (add id c u)) = map (fun p => mark_eqb p (id, c) || holds u p) l.
Proof. rewrite add_run. apply map_ext. intros p. apply holds_add. Qed.

Lemma cls_after_remove l id c u : cls l (snd (remove id c u)) = map (fun p => negb (mark_eqb p (id, c)) && holds u p) l.
Proof. rewrite remove_run. apply map_ext. intros p. apply holds_remove. Qed.

Lemma seq_snd {A} (m : U unit) (k : U A) u u' : m u = (Ret tt, u') -> snd ((m ;; k) u) = snd (k u').
Proof. intros E. now rewrite (bind_run _ _ _ _ _ E). Qed.

Lemma panel_changes panel button : static_on other_marks (add panel "noVNC_open") -> static_on other_marks (add button "noVNC_selected") ->
  static_on other_marks (open_panel panel button).
Proof. intros Hp Hb. unfold open_panel. apply static_bind; auto. Qed.

Lemma panel_closes panel button : static_on other_marks (remove panel "noVNC_open") -> static_on other_marks (remove button "noVNC_selected") ->
  static_on other_marks (close_panel panel button).
Proof. intros Hp Hb. unfold close_panel. apply static_bind; auto. Qed.

(** The four panels with their buttons. *)
Definition panels : list (string * string) :=
  [("noVNC_settings", "noVNC_settings_button"); ("noVNC_power", "noVNC_power_button");
   ("noVNC_clipboard", "noVNC_clipboard_button"); ("noVNC_modifiers", "noVNC_toggle_extra_keys_button")]%string.

Lemma panel_marks_list : panel_marks = flat_map (fun p => [(fst p, "noVNC_open"%string); (snd p, "noVNC_selected"%string)]) panels.
Proof. reflexivity. Qed.

Lemma static_panel p : In p panels ->
  static_on other_marks (open_panel (fst p) (snd p)) /\ static_on other_marks (close_panel (fst p) (snd p)).
Proof.
  intros Hp. repeat destruct Hp as [<-|Hp]; try destruct Hp; split; apply panel_changes || apply panel_closes; leaf.
Qed.

Lemma close_cls panel button u : cls panel_marks (snd (close_panel panel button u)) =
  map (fun p => negb (mark_eqb p (button, "noVNC_selected"%string)) && (negb (mark_eqb p (panel, "noVNC_open"%string)) && holds u p)) panel_marks.
Proof.
  unfold close_panel. rewrite (seq_snd _ _ _ _ (remove_run _ _ _)), cls_after_remove. apply map_ext. intros p. f_equal. apply holds_remove.
Qed.

Lemma open_cls panel button u : cls panel_marks (snd (open_panel panel button u)) =
  map (fun p => mark_eqb p (button, "noVNC_selected"%string) || (mark_eqb p (panel, "noVNC_open"%string) || holds u p)) panel_marks.
Proof.
  unfold open_panel. rewrite (seq_snd _ _ _ _ (add_run _ _ _)), cls_after_add. apply map_ext. intros p. f_equal. apply holds_add.
Qed.

Lemma quiet_close p : In p panels -> quiet_op (close_panel (fst p) (snd p)).
Proof.
  intros Hp. apply quiet_equal. intros u Hu. apply panels_quiet; [now apply static_panel|exact Hu|]. rewrite close_cls.
  assert (Hok := sound_panels _ Hu). unfold cls in Hok. unfold panel_marks in *. cbn [map panels_ok] in *.
  repeat match goal with |- context [holds u ?q] => generalize dependent (holds u q); intros end.
  rewrite !andb_true_iff in Hok. destruct Hok as [[[[E1 E2] E3] E4] Hn].
  apply eqb_prop in E1 as <-, E2 as <-, E3 as <-, E4 as <-.
  repeat destruct Hp as [<-|Hp]; try destruct Hp; cbn [mark_eqb fst snd String.eqb Ascii.eqb Bool.eqb andb negb];
    rewrite ?eqb_reflx; cbn [andb Bool.eqb]; repeat match goal with b : bool |- _ => destruct b end; (reflexivity || discriminate Hn).
Qed.

(** An operation that is sound when no panel is open. *)
Definition opens {A} (m : U A) : Prop := forall u, sound u -> cls panel_marks u = repeat false 8 ->
  sound (snd (m u)) /\ phase_of (snd (m u)) = phase_of u.

Lemma opens_panel p : In p panels -> opens (open_panel (fst p) (snd p)).
Proof.
  intros Hp u Hu Hc. apply panels_quiet; [now apply static_panel|exact Hu|]. rewrite open_cls. unfold cls in Hc. unfold panel_marks in *.
  cbn [map repeat] in *. injection Hc as -> -> -> -> -> -> -> ->. repeat destruct Hp as [<-|Hp]; try destruct Hp; reflexivity.
Qed.

Lemma opens_bind {A B} (m : U A) (k : A -> U B) : static m -> (forall a, opens (k a)) -> opens (bind m k).
Proof.
  intros Hm Hk u Hu Hc. unfold bind. specialize (Hm u). assert (Hs := sound_same _ _ Hm Hu). assert (Hp := phase_same _ _ _ Hm eq_refl).
  destruct (m u) as [[a|e|] u']; cbn [snd] in *; try (split; assumption).
  rewrite <- Hp. apply Hk; [exact Hs|]. rewrite <- Hc. exact (cls_same all_marks panel_marks u u' Hm eq_refl).
Qed.

(** [m] always ends normally. *)
Definition returns {A} (m : U A) : Prop := forall u, exists a u', m u = (Ret a, u').

Lemma returns_bind {A B} (m : U A) (k : A -> U B) : returns m -> (forall a, returns (k a)) -> returns (bind m k).
Proof. intros Hm Hk u. destruct (Hm u) as (a & u' & E). rewrite (bind_run _ _ _ _ _ E). apply Hk. Qed.

Lemma close_run panel button u : exists u', close_panel panel button u = (Ret tt, u') /\
  forall p, holds u' p = negb (mark_eqb p (button, "noVNC_selected"%string)) && (negb (mark_eqb p (panel, "noVNC_open"%string)) && holds u p).
Proof. eexists. split; [reflexivity|]. intros p. rewrite holds_remove. f_equal. apply holds_remove. Qed.

Lemma closeAll_run u : exists u', closeAllPanels u = (Ret tt, u') /\ cls panel_marks u' = repeat false 8.
Proof.
  unfold closeAllPanels, closeSettingsPanel, closePowerPanel, closeClipboardPanel, closeExtraKeys.
  destruct (close_run "noVNC_settings" "noVNC_settings_button" u) as (u1 & E1 & H1). rewrite (bind_run _ _ _ _ _ E1).
  destruct (close_run "noVNC_power" "noVNC_power_button" u1) as (u2 & E2 & H2). rewrite (bind_run _ _ _ _ _ E2).
  destruct (close_run "noVNC_clipboard" "noVNC_clipboard_button" u2) as (u3 & E3 & H3). rewrite (bind_run _ _ _ _ _ E3).
  destruct (close_run "noVNC_modifiers" "noVNC_toggle_extra_keys_button" u3) as (u4 & E4 & H4). rewrite E4.
  exists u4. split; [reflexivity|]. unfold cls, panel_marks. cbn [map repeat]. rewrite !H4, !H3, !H2, !H1. reflexivity.
Qed.

Lemma quiet_closePower : quiet_op closePowerPanel.
Proof. apply (quiet_close ("noVNC_power", "noVNC_power_button")%string). cbn. auto. Qed.

Lemma quiet_closeAll : quiet_op closeAllPanels.
Proof.
  unfold closeAllPanels. apply page_quiet_bind; [|intros _; apply page_quiet_bind; [apply quiet_closePower|intros _; apply page_quiet_bind; [|intros _]]].
  - apply (quiet_close ("noVNC_settings", "noVNC_settings_button")%string). cbn; auto.
  - apply (quiet_close ("noVNC_clipboard", "noVNC_clipboard_button")%string). cbn; auto.
  - apply (quiet_close ("noVNC_modifiers", "noVNC_toggle_extra_keys_button")%string). cbn; auto 6.
Qed.

Lemma quiet_open (m : U unit) : opens m -> quiet_op (closeAllPanels ;; m).
Proof.
  intros Hm u Hu. destruct (quiet_closeAll u Hu) as [Hs Hp]. destruct (closeAll_run u) as (u' & E & Hc).
  rewrite (seq_snd _ _ _ _ E). rewrite E in Hs, Hp. cbn [snd] in Hs, Hp. destruct (Hm u' Hs Hc) as [Hs' Hp'].
  split; [exact Hs'|]. now rewrite Hp'.
Qed.

Lemma quiet_toggle panel (close open : U unit) : quiet_op close -> quiet_op open -> quiet_op (toggle panel close open).
Proof. intros Hc Ho u Hu. unfold toggle, bind, contains, gets. destruct (has_class _ _); auto. Qed.

Lemma quiet_panels : quiet_op toggleSettingsPanel /\ quiet_op togglePowerPanel /\ quiet_op toggleClipboardPanel /\ quiet_op toggleExtraKeys.
Proof.
  assert (Hb : forall p, In p panels -> opens (openControlbar ;; open_panel (fst p) (snd p))).
  { intros p Hp. apply opens_bind; [unfold openControlbar; leaf|intros _; now apply opens_panel]. }
  split; [|split; [|split]]; apply quiet_toggle.
  - apply (quiet_close ("noVNC_settings", "noVNC_settings_button")%string). cbn; auto.
  - apply quiet_open. apply opens_bind; [unfold openControlbar; leaf|intros _]. apply opens_bind; [stat|intros _].
    apply (opens_panel ("noVNC_settings", "noVNC_settings_button")%string). cbn; auto.
  - apply quiet_closePower.
  - apply quiet_open, (Hb ("noVNC_power", "noVNC_power_button")%string). cbn; auto.
  - apply (quiet_close ("noVNC_clipboard", "noVNC_clipboard_button")%string). cbn; auto.
  - apply quiet_open, (Hb ("noVNC_clipboard", "noVNC_clipboard_button")%string). cbn; auto.
  - apply (quiet_close ("noVNC_modifiers", "noVNC_toggle_extra_keys_button")%string). cbn; auto.
  - apply quiet_open, (Hb ("noVNC_modifiers", "noVNC_toggle_extra_keys_button")%string). cbn; auto 6.
Qed.

(** ** The status line *)

Definition but_status : list mark := root_marks ++ panel_marks ++ dialog_marks.

Lemma status_sound u u' : same_on but_status u u' -> sound u -> status_ok (cls status_marks u') (pend KStatus u') = true ->
  sound u' /\ phase_of u' = phase_of u.
Proof.
  intros Hs [Hy Hp _ Hc Hw] Hok. split; [|exact (phase_same _ _ _ Hs eq_refl)].
  constructor; [exact (hygienic_same _ _ _ Hs Hy)|now rewrite (cls_same _ _ _ _ Hs)|exact Hok|now rewrite (pend_same _ _ _ _ Hs)|].
  now apply (same_password _ _ _ Hs).
Qed.

Lemma clear_same_marks id l u : cls l (snd (clearTimeout id u)) = cls l u.
Proof. destruct (clear_rest id u) as (ts & -> & _). reflexivity. Qed.

Lemma arm_same_marks k c d l u : cls l (snd (arm k c d u)) = cls l u.
Proof. rewrite arm_state. now destruct k. Qed.

(** What a timer does not touch. *)
Definition with_timers (close wait : pending) (p : phase) : phase :=
  Phase (p_connected p) (p_client p) (p_inhibit p) (p_labels p) (p_dialog p) (p_root p) close wait.

Lemma clear_phase id u : phase_of (snd (clearTimeout id u)) =
  with_timers (pend KClose (snd (clearTimeout id u))) (pend KReconnect (snd (clearTimeout id u))) (phase_of u).
Proof. destruct (clear_rest id u) as (ts & -> & _). reflexivity. Qed.

Lemma arm_phase k c d u : phase_of (snd (arm k c d u)) =
  with_timers (pend KClose (snd (arm k c d u))) (pend KReconnect (snd (arm k c d u))) (phase_of u).
Proof. rewrite arm_state. now destruct k. Qed.

Lemma status_not_loose u : sound u -> pend KStatus u <> Loose.
Proof.
  intros [_ _ Hs _ _] E. rewrite E in Hs. destruct (cls status_marks u) as [|? [|? [|? [|? [|]]]]]; try discriminate.
  cbn [status_ok] in Hs. now rewrite andb_false_r in Hs.
Qed.

Lemma sound_clear k u : sound u -> k <> KStatus -> sound (snd (clearTimeout (field k u) u)).
Proof.
  intros [Hy Hp Hs Hc Hw] Hk. constructor; [now apply hygienic_clear|now rewrite clear_same_marks| | |now destruct (clear_rest (field k u) u) as (l & -> & _)].
  - rewrite clear_same_marks, pend_clear_other; auto.
  - destruct (kind_eqb_spec KClose k) as [<-|Hne]; [rewrite pend_clear_same by exact Hc; discriminate|now rewrite pend_clear_other].
Qed.

Lemma sound_arm k c d u : sound u -> k <> KStatus -> (k = KClose -> pend KClose u = Idle) -> kind_of c = Some k -> sound (snd (arm k c d u)).
Proof.
  intros [Hy Hp Hs Hcl Hw] Hk Hi Hc. constructor; [now apply hygienic_arm|now rewrite arm_same_marks| | |rewrite arm_state; now destruct k].
  - rewrite arm_same_marks, pend_arm_other; auto.
  - destruct (kind_eqb_spec KClose k) as [<-|Hne]; [rewrite pend_arm_same by auto; discriminate|now rewrite pend_arm_other by auto].
Qed.

(** ** The control bar *)

Lemma quiet_clear_idle : quiet_op (u <- get ;; clearTimeout (idleControlbarTimeout u)).
Proof.
  intros u Hu. change (snd _) with (snd (clearTimeout (field KIdle u) u)). split; [now apply sound_clear|]. left.
  rewrite clear_phase, !pend_clear_other; [reflexivity|apply Hu|discriminate|apply Hu|discriminate].
Qed.

Lemma quiet_arm_idle d : quiet_op (arm KIdle IdleControlbar d).
Proof. intros u Hu. split; [now apply sound_arm|]. left. rewrite arm_phase, !pend_arm_other by (reflexivity || discriminate). reflexivity. Qed.

Lemma quiet_activate : quiet_op activateControlbar.
Proof.
  assert (E : forall u, activateControlbar u =
    ((u <- get ;; clearTimeout (idleControlbarTimeout u)) ;; remove "noVNC_control_bar_anchor" "noVNC_idle" ;; arm KIdle IdleControlbar (Some 2000)) u).
  { intros u. unfold activateControlbar, arm. now rewrite bind_assoc_run. }
  intros u. rewrite E. revert u. apply page_quiet_bind; [apply quiet_clear_idle|intros _]. apply page_quiet_bind; [apply static_quiet; leaf|intros _; apply quiet_arm_idle].
Qed.

Lemma quiet_idle (E : env) : quiet_op (idleControlbar E).
Proof.
  unfold idleControlbar. apply page_quiet_get. intros u. destruct (_ && _); [apply quiet_activate|apply static_quiet; leaf].
Qed.

Lemma static_focus : static focus_rfb.
Proof. unfold focus_rfb, focus_on. stat. Qed.

Lemma quiet_closeControlbar : quiet_op closeControlbar.
Proof. unfold closeControlbar. apply page_quiet_bind; [apply quiet_closeAll|intros _]. apply static_quiet, static_bind; [leaf|intros _; apply static_focus]. Qed.

Lemma quiet_toggleControlbar : quiet_op toggleControlbar.
Proof. apply quiet_toggle; [apply quiet_closeControlbar|apply static_quiet; unfold openControlbar; leaf]. Qed.

(** ** Showing and hiding a status *)

Lemma quiet_hide : quiet_op hideStatus.
Proof.
  intros u Hu. unfold hideStatus. rewrite (bind_run get _ u u u eq_refl). set (u1 := snd (clearTimeout (field KStatus u) u)).
  assert (E1 : clearTimeout (statusTimeout u) u = (Ret tt, u1)) by (unfold u1; destruct (field KStatus u) eqn:Ef; cbn [field] in Ef; rewrite Ef; reflexivity).
  rewrite (seq_snd _ _ _ _ E1). set (u2 := snd (remove _ _ u1)).
  assert (Hs : same_on but_status u1 u2) by (unfold u2; apply (static_remove but_status "noVNC_status" "noVNC_open"); reflexivity).
  assert (Hp : forall k, pend k u2 = pend k u1) by (intros k; exact (pend_same _ _ _ _ Hs)).
  split.
  - constructor.
    + apply (hygienic_same _ _ _ Hs), hygienic_clear, Hu.
    + rewrite (cls_same but_status panel_marks _ _ Hs eq_refl). unfold u1. rewrite clear_same_marks. apply Hu.
    + rewrite Hp. unfold u1. rewrite pend_clear_same by (now apply status_not_loose). unfold u2. rewrite cls_after_remove. reflexivity.
    + rewrite Hp. unfold u1. rewrite pend_clear_other by (apply Hu || discriminate). apply Hu.
    + apply (same_password _ _ _ Hs). unfold u1. destruct (clear_rest (field KStatus u) u) as (l & -> & _). apply Hu.
  - left. rewrite (phase_same _ _ _ Hs eq_refl). unfold u1. rewrite clear_phase, !pend_clear_other; [reflexivity|apply Hu|discriminate|apply Hu|discriminate].
Qed.

(** The class of a severity, the others off. *)
Definition severity (statusType : string) : bool * bool * bool :=
  if String.eqb statusType "error" then (true, false, false)
  else if String.eqb statusType "warning" || String.eqb statusType "warn" then (false, true, false)
  else (false, false, true).

Lemma holds_elem id f u p : (forall e, classes (f e) = classes e) -> holds (set_dom (upd id f (dom u)) u) p = holds u p.
Proof. intros Hf. unfold holds, has_class, upd. cbn [dom set_dom]. destruct (String.eqb _ _); [now rewrite Hf|reflexivity]. Qed.

Lemma text_run t ty u : exists u', show_text t ty u = (Ret tt, u') /\ same_on but_status u u' /\
  cls status_marks u' = (let '(e, w, n) := severity ty in [true; e; w; n]) /\ textContent (dom u' "noVNC_status"%string) = t.
Proof.
  assert (Hs : same_on but_status u (snd (show_text t ty u))).
  { apply (static_bind but_status); [|intros _; apply static_bind; [leaf|intros _; leaf]].
    unfold status_classes. destruct (String.eqb ty "error"); [|destruct (_ || _)]; (apply static_bind; [leaf|intros _; apply static_bind; [leaf|intros _; leaf]]). }
  unfold show_text, status_classes, severity in *.
  destruct (String.eqb ty "error"); [|destruct (_ || _)]; (eexists; split; [reflexivity|split; [exact Hs|]]);
    (split; [|cbn [dom set_dom]; unfold upd; cbn [String.eqb Ascii.eqb Bool.eqb textContent set_textContent]; unfold add_class; now destruct (has_class _ _)]);
    unfold cls, status_marks; cbn [map]; rewrite !holds_add, !(holds_elem _ (set_textContent t)), !holds_add, !holds_remove by reflexivity; reflexivity.
Qed.

(** A status that is more severe is shown. *)
Definition keeps_status (ty : string) u : bool :=
  holds u ("noVNC_status", "noVNC_open")%string &&
  (holds u ("noVNC_status", "noVNC_status_error")%string || (holds u ("noVNC_status", "noVNC_status_warn")%string && String.eqb ty "normal")).

Lemma clear_ret id u : clearTimeout id u = (Ret tt, snd (clearTimeout id u)).
Proof. now destruct id. Qed.

Lemma arm_ret k c d u : arm k c d u = (Ret tt, snd (arm k c d u)).
Proof. reflexivity. Qed.

Lemma status_run t ty u : keeps_status ty u = false -> exists u2,
  show_text t ty (snd (clearTimeout (field KStatus u) u)) = (Ret tt, u2) /\
  showStatus t ty u = if negb (String.eqb ty "error") then arm KStatus HideStatus (Some 1500) u2 else (Ret tt, u2).
Proof.
  intros Hk. destruct (text_run t ty (snd (clearTimeout (field KStatus u) u))) as (u2 & E2 & _). exists u2. split; [exact E2|].
  unfold showStatus. rewrite (bind_run get _ u u u eq_refl). unfold keeps_status, holds in Hk. cbn [fst snd] in Hk. cbv zeta. rewrite Hk.
  rewrite (bind_run _ _ _ _ _ (clear_ret _ _)). cbn [field] in E2. rewrite (bind_run _ _ _ _ _ E2). now destruct (negb (String.eqb ty "error")).
Qed.

Lemma quiet_status t ty : quiet_op (showStatus t ty).
Proof.
  intros u Hu. destruct (keeps_status ty u) eqn:Ek.
  - replace (showStatus t ty u) with (Ret tt, u); [split; [exact Hu|apply calmer_refl]|]. unfold showStatus. rewrite (bind_run get _ u u u eq_refl).
    unfold keeps_status, holds in Ek. cbn [fst snd] in Ek. cbv zeta. now rewrite Ek.
  - destruct (status_run t ty u Ek) as (u2 & E2 & E). rewrite E.
    assert (Hy : hygienic (snd (clearTimeout (field KStatus u) u))) by apply hygienic_clear, Hu.
    destruct (text_run t ty (snd (clearTimeout (field KStatus u) u))) as (u2' & E2' & Hs & Hc & _). rewrite E2 in E2'. injection E2' as <-.
    assert (Hi : pend KStatus u2 = Idle) by (rewrite (pend_same _ _ _ _ Hs); apply pend_clear_same; now apply status_not_loose).
    assert (Hy2 : hygienic u2) by exact (hygienic_same _ _ _ Hs Hy).
    assert (Hp2 : panels_ok (cls panel_marks u2) = true) by (rewrite (cls_same but_status panel_marks _ _ Hs eq_refl), clear_same_marks; apply Hu).
    assert (Hph : phase_of u2 = phase_of u).
    { rewrite (phase_same _ _ _ Hs eq_refl), clear_phase, !pend_clear_other; [reflexivity|apply Hu|discriminate|apply Hu|discriminate]. }
    assert (Hcl2 : pend KClose u2 <> Loose) by (rewrite (pend_same _ _ _ _ Hs), pend_clear_other by (apply Hu || discriminate); apply Hu).
    assert (Hw2 : reconnectPassword u2 <> Undefined).
    { apply (same_password _ _ _ Hs). destruct (clear_rest (field KStatus u) u) as (l & -> & _). apply Hu. }
    unfold severity in Hc. destruct (String.eqb ty "error") eqn:Ety; cbn [negb snd].
    + split; [|left; exact Hph]. constructor; [exact Hy2|exact Hp2|now rewrite Hc, Hi|exact Hcl2|exact Hw2].
    + split; [|left; rewrite arm_phase, !pend_arm_other by (reflexivity || discriminate); exact Hph].
      constructor; [now apply hygienic_arm|now rewrite arm_same_marks| | |rewrite arm_state; exact Hw2].
      * rewrite arm_same_marks, Hc, pend_arm_same by (reflexivity || exact Hi). now destruct (_ || _).
      * rewrite pend_arm_other by (reflexivity || discriminate). exact Hcl2.
Qed.

(** ** The handle of the control bar *)

Lemma static_side : static toggleControlbarSide.
Proof. unfold toggleControlbarSide, showControlbarHint. stat. Qed.

Lemma static_hint b c : static (showControlbarHint b c).
Proof. unfold showControlbarHint. stat. Qed.

Lemma keep_run u : keepControlbar u = (Ret tt, snd (clearTimeout (field KClose u) u)).
Proof. unfold keepControlbar. rewrite (bind_run get _ u u u eq_refl). apply clear_ret. Qed.

Lemma keep_phase u : sound u -> phase_of (snd (keepControlbar u)) = keep_open (phase_of u).
Proof.
  intros Hu. rewrite keep_run. cbn [snd]. rewrite clear_phase, pend_clear_same by apply Hu. rewrite pend_clear_other by (apply Hu || discriminate). reflexivity.
Qed.

Lemma quiet_keep : quiet_op keepControlbar.
Proof.
  intros u Hu. split; [rewrite keep_run; now apply sound_clear|]. right. now apply keep_phase.
Qed.

(** ** The other handlers leave the connection's phase alone *)

Lemma quiet_if {A} (b : bool) (m k : U A) : quiet_op m -> quiet_op k -> quiet_op (if b then m else k).
Proof. now destruct b. Qed.

Lemma quiet_touched : quiet_op touched.
Proof.
  unfold touched, preventDefault, stopPropagation. apply page_quiet_bind; [apply static_quiet; leaf|intros _]. apply page_quiet_bind; [apply static_quiet; leaf|intros _].
  apply page_quiet_bind; [apply quiet_keep|intros _; apply quiet_activate].
Qed.

Lemma static_move (E : env) y : static (moveControlbarHandle E y).
Proof. unfold moveControlbarHandle. destruct (handle_position E y); leaf. Qed.

Lemma quiet_handle (E : env) e :
  quiet_op (controlbarHandleMouseDown E e) /\ quiet_op (controlbarHandleMouseUp e) /\ quiet_op (dragControlbarHandle E e).
Proof.
  split; [|split].
  - unfold controlbarHandleMouseDown. apply quiet_if; [apply static_quiet; leaf|].
    repeat (apply page_quiet_bind; [apply static_quiet; first [apply static_hint | leaf]|intros _]). apply quiet_touched.
  - unfold controlbarHandleMouseUp. apply quiet_if; [apply static_quiet; leaf|]. apply page_quiet_get. intros u.
    apply page_quiet_bind; [apply quiet_if; [apply page_quiet_bind; [apply quiet_toggleControlbar|intros _; apply quiet_touched]|apply static_quiet; leaf]|intros _].
    apply page_quiet_bind; [apply static_quiet; leaf|intros _; apply static_quiet, static_hint].
  - unfold dragControlbarHandle. apply page_quiet_get. intros u. apply quiet_if; [apply static_quiet; leaf|].
    apply page_quiet_bind; [apply static_quiet; leaf|intros b].
    apply page_quiet_bind; [apply static_quiet; destruct (Qlt_bool _ _); [|destruct (Qlt_bool _ _)]; try destruct b; first [apply static_side | leaf]|intros _].
    apply page_quiet_get. intros v. apply quiet_if; [apply static_quiet; leaf|]. apply page_quiet_bind; [apply static_quiet; leaf|intros _].
    apply page_quiet_bind; [apply static_quiet, static_move|intros _; apply quiet_touched].
Qed.

Lemma page_quiet_sendKey (E : env) k c d : quiet_op (sendKey E k c d).
Proof.
  unfold sendKey. apply page_quiet_bind; [apply static_quiet; stat|intros _]. apply page_quiet_bind; [apply static_quiet; leaf|intros b].
  apply page_quiet_bind; [apply static_quiet; destruct b; [unfold focus_on; leaf|apply static_focus]|intros _; apply quiet_idle].
Qed.

Lemma quiet_toggle_key (E : env) b k c : untracked all_marks b "noVNC_selected" = true -> quiet_op (toggle_key E b k c).
Proof.
  intros Hb. unfold toggle_key. apply page_quiet_bind; [apply static_quiet; leaf|intros s].
  destruct s; (apply page_quiet_bind; [apply page_quiet_sendKey|intros _; apply static_quiet]); [now apply static_remove|now apply static_add].
Qed.

Lemma quiet_keys (E : env) : quiet_op (toggleCtrl E) /\ quiet_op (toggleWindows E) /\ quiet_op (toggleAlt E) /\ quiet_op (sendCtrlAltDel E).
Proof.
  split; [|split; [|split]]; try (apply quiet_toggle_key; reflexivity).
  unfold sendCtrlAltDel. apply page_quiet_bind; [apply static_quiet; stat|intros _]. apply page_quiet_bind; [apply static_quiet, static_focus|intros _; apply quiet_idle].
Qed.

Lemma static_virtual (E : env) : static (toggleVirtualKeyboard E) /\ static onfocusVirtualKeyboard /\ static onblurVirtualKeyboard /\
  forall e, static (keepVirtualKeyboard e).
Proof.
  split; [|split; [|split; [|intros e]]].
  - unfold toggleVirtualKeyboard, hideVirtualKeyboard, showVirtualKeyboard, focus_on, browser. stat.
  - unfold onfocusVirtualKeyboard. stat.
  - unfold onblurVirtualKeyboard. stat.
  - unfold keepVirtualKeyboard, preventDefault. stat.
Qed.

Lemma static_reset : static keyboardinputReset.
Proof.
  unfold keyboardinputReset. apply static_bind; [apply static_elem; intros e; apply assign_classes|intros _]. stat.
Qed.

Lemma static_keyEvent k c d : static (keyEvent k c d).
Proof. unfold keyEvent. stat. Qed.

Lemma quiet_keyInput sel : quiet_op (keyInput sel).
Proof.
  unfold keyInput, with_rfb. apply page_quiet_get. intros u. destruct (rfb u); [|apply static_quiet; leaf].
  apply page_quiet_bind; [apply static_quiet; leaf|intros target]. apply page_quiet_get. intros v.
  apply page_quiet_bind; [apply static_quiet; destruct (lastKeyboardinput v) as [[|]|]; first [apply static_reset | leaf]|intros _]. apply page_quiet_get. intros w.
  destruct (key_difference _ _ _) as [b i]. apply page_quiet_bind; [apply static_quiet, static_repeatedly; stat|intros _].
  apply page_quiet_bind; [apply static_quiet; stat|intros _]. apply quiet_if; [apply static_quiet, static_reset|].
  apply quiet_if; [|apply static_quiet; leaf]. apply page_quiet_bind; [apply static_quiet, static_reset|intros _].
  apply page_quiet_bind; [apply static_quiet; unfold focus_on; leaf|intros _]. apply page_quiet_bind; [apply quiet_focus|intros _; apply static_quiet; leaf].
Qed.

Lemma quiet_credentials (E : env) types : quiet_op (credentials E types).
Proof.
  unfold credentials. cbv zeta. do 5 (apply page_quiet_bind; [apply static_quiet; stat|intros _]).
  apply page_quiet_bind; [apply quiet_focus|intros _; apply quiet_status].
Qed.

Lemma static_asking (E : env) sha1 type key :
  static (serverVerify type key) /\ static (digest_ready sha1) /\ static approveServer /\ static setCredentials.
Proof.
  split; [|split; [|split]].
  - unfold serverVerify. stat.
  - unfold digest_ready. stat.
  - unfold approveServer, preventDefault. stat.
  - unfold setCredentials, preventDefault. apply static_bind; [leaf|intros _]. apply static_bind; [leaf|intros user]. apply static_bind; [leaf|intros pass].
    apply static_bind; [apply static_elem; intros e; apply assign_classes|intros _]. stat.
Qed.

Lemma static_misc (E : env) t : static (clipboardReceive t) /\ static clipboardSend /\ static (updateDesktopName t) /\ static (bell E) /\
  static toggleFullscreen /\ static updateFullscreenButton /\ static toggleViewDrag /\ static applyResizeMode.
Proof.
  repeat match goal with |- _ /\ _ => split end.
  - unfold clipboardReceive. apply static_elem. intros e. apply assign_classes.
  - unfold clipboardSend. stat.
  - unfold updateDesktopName. stat.
  - unfold bell, browser. stat.
  - unfold toggleFullscreen, updateFullscreenButton, browser. stat.
  - unfold updateFullscreenButton. stat.
  - unfold toggleViewDrag. stat.
  - unfold applyResizeMode. stat.
Qed.

Lemma quiet_power : quiet_op updatePowerButton.
Proof.
  unfold updatePowerButton. apply page_quiet_get. intros u. apply page_quiet_bind; [apply static_quiet; stat|intros b].
  apply quiet_if; [apply static_quiet; leaf|]. apply page_quiet_bind; [apply static_quiet; leaf|intros _; apply quiet_closePower].
Qed.

(** ** The state shown *)

Definition visual_root (s : visual) : list bool :=
  match s with
  | Connecting => [true; false; false; false]
  | Connected => [false; true; false; false]
  | Disconnecting => [false; false; true; false]
  | Reconnecting => [false; false; false; true]
  | Init | Disconnected => [false; false; false; false]
  end.

Definition with_root (l : list bool) (p : phase) : phase :=
  Phase (p_connected p) (p_client p) (p_inhibit p) (p_labels p) (p_dialog p) l (p_close p) (p_wait p).

Definition but_root : list mark := panel_marks ++ status_marks ++ dialog_marks.

Lemma root_run (E : env) s u : exists u', (each (remove root) state_classes ;; show_state E s) u = (Ret tt, u') /\
  same_on but_root u u' /\ cls root_marks u' = visual_root s.
Proof.
  assert (Hs : same_on but_root u (snd ((each (remove root) state_classes ;; show_state E s) u))).
  { apply (static_bind but_root).
    - unfold state_classes. cbn [each]. repeat (apply static_bind; [leaf|intros _]). leaf.
    - intros _. unfold show_state. destruct s; try leaf; apply static_bind; try leaf; intros _; leaf. }
  unfold show_state in *. destruct s; (eexists; split; [reflexivity|split; [exact Hs|]]);
    unfold cls, root_marks, state_classes; cbn [map];
    rewrite ?holds_add, ?(holds_elem "noVNC_transition_text"), ?holds_remove by reflexivity; reflexivity.
Qed.

Lemma root_sound s u u' : same_on but_root u u' -> cls root_marks u' = visual_root s -> sound u ->
  sound u' /\ phase_of u' = with_root (visual_root s) (phase_of u).
Proof.
  intros Hs Hr [Hy Hp Ht Hc Hw]. split.
  - constructor; [exact (hygienic_same _ _ _ Hs Hy)|now rewrite (cls_same _ _ _ _ Hs)|now rewrite (cls_same _ _ _ _ Hs), (pend_same _ _ _ _ Hs)
    |now rewrite (pend_same _ _ _ _ Hs)|now apply (same_password _ _ _ Hs)].
  - unfold phase_of, with_root. cbn [p_connected p_client p_inhibit p_labels p_dialog p_close p_wait].
    rewrite (same_connected _ _ _ Hs), (same_client _ _ _ Hs), (same_inhibit _ _ _ Hs), Hr.
    rewrite (cls_same but_root dialog_marks _ _ Hs eq_refl), !(pend_same _ _ _ _ Hs). f_equal.
    cbn [forallb connection_settings]. now rewrite !(same_labels _ _ _ Hs).
Qed.

Definition all_labelled u : bool := forallb (labelled u) ("view_clip"%string :: connection_settings).

Lemma forallb_same {A} (f g : A -> bool) l : (forall a, f a = g a) -> forallb f l = forallb g l.
Proof. intros Hf. induction l as [|a l IH]; cbn [forallb]; [reflexivity|]. now rewrite Hf, IH. Qed.

Lemma enable_ret n u : labelled u n = true -> exists u', enableSetting n u = (Ret tt, u').
Proof.
  intros Hn. unfold enableSetting, label_class. rewrite (bind_run (onElem _ _) _ u tt _ eq_refl).
  assert (Hl := labelled_upd (setting n) (set_disabled false) u n (fun e => eq_refl)). rewrite Hn in Hl. unfold labelled in Hl.
  rewrite (bind_run (getElement _) _ _ _ _ eq_refl). destruct (label _); [eexists; reflexivity|discriminate].
Qed.

Lemma enable_all ns : forall u, forallb (labelled u) ns = true -> exists u', each enableSetting ns u = (Ret tt, u').
Proof.
  induction ns as [|n ns IH]; intros u Hl; cbn [each]; [eexists; reflexivity|]. cbn [forallb] in Hl. apply andb_true_iff in Hl as [Hn Hns].
  destruct (enable_ret n u Hn) as (u1 & E1). rewrite (bind_run _ _ _ _ _ E1). apply IH. rewrite <- Hns. apply forallb_same.
  intros m. assert (Hs := static_enableSetting n u). rewrite E1 in Hs. apply (same_labels _ _ _ Hs).
Qed.

(** A quiet operation that ends normally. *)
Lemma quiet_ran {A} (m : U A) u a u' : quiet_op m -> m u = (Ret a, u') -> sound u -> sound u' /\ calmer (phase_of u') (phase_of u).
Proof. intros Hm E Hu. specialize (Hm u Hu). now rewrite E in Hm. Qed.

Lemma power_ret u : connected u = false -> exists u', updatePowerButton u = (Ret tt, u').
Proof. intros Hc. unfold updatePowerButton. rewrite (bind_run get _ u u u eq_refl), Hc. eexists. reflexivity. Qed.

Lemma calmer_keep p q : calmer q (keep_open p) -> q = keep_open p.
Proof. intros [->| ->]; reflexivity. Qed.

Lemma calmer_keep_keep p q : calmer q p -> keep_open q = keep_open p.
Proof. intros [->| ->]; reflexivity. Qed.

Lemma calmer_connected u u' : calmer (phase_of u') (phase_of u) -> connected u' = connected u.
Proof. intros [E|E]; apply (f_equal p_connected) in E; exact E. Qed.

(** Closing panels and dialogs, at the end. *)
Definition close_dialogs : U unit :=
  closeAllPanels ;; remove "noVNC_verify_server_dlg" "noVNC_open" ;; remove "noVNC_credentials_dlg" "noVNC_open".

Lemma quiet_dialogs : quiet_op close_dialogs.
Proof. unfold close_dialogs. apply page_quiet_bind; [apply quiet_closeAll|intros _; apply static_quiet; stat]. Qed.

Lemma dialogs_ret u : exists u', close_dialogs u = (Ret tt, u').
Proof. eexists. reflexivity. Qed.

Lemma visual_steps (E : env) s u u1 : (each (remove root) state_classes ;; show_state E s) u = (Ret tt, u1) ->
  updateVisualState E s u =
  ((if connected u1 then updateViewClip E ;; each disableSetting connection_settings ;; arm KClose CloseControlbar (Some 2000)
    else each enableSetting connection_settings ;; updatePowerButton ;; keepControlbar) ;; close_dialogs) u1.
Proof.
  intros E1. unfold updateVisualState. rewrite <- bind_assoc_run, (bind_run _ _ _ _ _ E1), (bind_run get _ u1 u1 u1 eq_refl). reflexivity.
Qed.

(** Without a connection the settings are open and the control bar stays. *)
Lemma visual_down (E : env) s u : sound u -> connected u = false -> p_labels (phase_of u) = true ->
  exists u', updateVisualState E s u = (Ret tt, u') /\ sound u' /\ phase_of u' = with_root (visual_root s) (keep_open (phase_of u)).
Proof.
  intros Hu Hc Hl. destruct (root_run E s u) as (u1 & E1 & Hs & Hr). destruct (root_sound s u u1 Hs Hr Hu) as [H1 P1].
  rewrite (visual_steps E s u u1 E1). assert (Hc1 : connected u1 = false) by (rewrite (same_connected _ _ _ Hs); exact Hc). rewrite Hc1.
  assert (Hl1 : p_labels (phase_of u1) = true) by (rewrite P1; exact Hl).
  destruct (enable_all connection_settings u1) as (u2 & E2); [cbn [phase_of p_labels forallb] in Hl1; now apply andb_true_iff in Hl1 as [_ Hl1]|].
  destruct (quiet_ran _ _ _ _ (static_quiet _ (static_each all_marks _ _ static_enableSetting)) E2 H1) as [H2 P2].
  assert (Hc2 : connected u2 = false) by (rewrite <- Hc1; now apply calmer_connected).
  destruct (power_ret u2 Hc2) as (u3 & E3). destruct (quiet_ran _ _ _ _ quiet_power E3 H2) as [H3 P3].
  assert (E4 := keep_run u3). assert (P4 := keep_phase u3 H3). destruct (quiet_keep u3 H3) as [H4 _]. set (u4 := snd (keepControlbar u3)) in *.
  destruct (dialogs_ret u4) as (u5 & E5). destruct (quiet_ran _ _ _ _ quiet_dialogs E5 H4) as [H5 P5].
  exists u5. split.
  - rewrite bind_assoc_run, (bind_run _ _ _ _ _ E2), bind_assoc_run, (bind_run _ _ _ _ _ E3).
    assert (E4' : keepControlbar u3 = (Ret tt, u4)) by (unfold u4; rewrite E4; reflexivity). now rewrite (bind_run _ _ _ _ _ E4'), E5.
  - split; [exact H5|]. rewrite P4 in P5. apply calmer_keep in P5. rewrite P5.
    rewrite (calmer_keep_keep _ _ P3), (calmer_keep_keep _ _ P2), P1. reflexivity.
Qed.
End Page.
End UIFacts.
