(* ===== verification/UiCorrect.v ===== *)
(** The page over every history of user actions, timers and events of the
    client: what it shows is what the connection is. *)

From Stdlib Require Import ZArith List Lia Bool String QArith.
From S2P Require Import Prelude Utf8 Webutil Keytables Lifecycle Ui UiFacts.
Import ListNotations JS JSFacts WebUtil UI UIFacts.
Open Scope Z_scope.
Open Scope code_scope.

Module UICorrect.

(** ** The phases of a connection *)

Definition nothing : list bool := visual_root Disconnected.

(** What the page shows of a client in each state. *)
Definition shown_of (c : Lifecycle.conn) : visual :=
  match c with Lifecycle.Connecting => Connecting | Lifecycle.Connected => Connected | _ => Disconnecting end.
Definition is_connected (c : Lifecycle.conn) : bool := match c with Lifecycle.Connected => true | _ => false end.

(** Without a client nothing is shown of a connection, or that one will be
    tried again; with one it is being made, is there, or is being closed, as the
    client says.  When [held], no attempt is made by itself. *)
Record phase_ok (held : bool) (p : phase) : Prop := {
  ok_held : held = true -> p_inhibit p = true;
  ok_labels : p_labels p = true;
  ok_close : p_connected p = false -> p_close p = Idle;
  ok_none : p_client p = None -> p_connected p = false /\
    (p_root p = nothing /\ p_wait p = Idle \/
     p_root p = visual_root Reconnecting /\ p_dialog p = [false] /\ p_inhibit p = false /\ p_wait p <> Loose);
  ok_some : forall c, p_client p = Some c -> p_wait p = Idle /\ p_dialog p = [false] /\
    p_connected p = is_connected c /\ p_root p = visual_root (shown_of c)
}.

Section Page.
Context {R : Type} `{ClientOk R}.
Abbreviation U := (M (ui R)).
Implicit Types u : ui R.
Variable held : bool.

Record good u : Prop := { good_sound : sound u; good_phase : phase_ok held (phase_of u) }.

Definition keeps {A} (m : U A) : Prop := forall u, good u -> good (snd (m u)).

Lemma phase_calmer p q : calmer q p -> phase_ok held p -> phase_ok held q.
Proof. intros [->| ->] [H0' H1 H2 H3 H4]; constructor; auto. Qed.

Lemma quiet_keeps {A} (m : U A) : quiet_op m -> keeps m.
Proof. intros Hm u [Hs Hp]. destruct (Hm u Hs) as [Hs' Hc]. constructor; [exact Hs'|exact (phase_calmer _ _ Hc Hp)]. Qed.

Lemma page_keeps_bind {A B} (m : U A) (k : A -> U B) : keeps m -> (forall a, keeps (k a)) -> keeps (bind m k).
Proof. intros Hm Hk u Hu. unfold bind. specialize (Hm u Hu). destruct (m u) as [[a|e|] u']; cbn [snd] in *; auto. now apply Hk. Qed.

(** ** Steps that end normally *)

Lemma read_ret name v s : exists a s', readSetting name v s = (Ret a, s').
Proof.
  unfold readSetting. rewrite (bind_run get _ s s s eq_refl). destruct (_ || _); [unM; eexists; eexists; reflexivity|].
  rewrite !bind_assoc_run. assert (Hg : exists a s', localStorageGet name s = (Ret a, s')).
  { unfold localStorageGet. rewrite (bind_run get _ s s s eq_refl). destruct (refused s); [|unM; eauto].
    destruct (refusal_run (units "getItem(" ++ name ++ units ")' failed: ") s) as [l El]. rewrite (bind_run _ _ _ _ _ El). unM. eauto. }
  destruct Hg as (a & s' & E). rewrite (bind_run _ _ _ _ _ E). unfold setSetting. unM. eexists. eexists. reflexivity.
Qed.

Lemma getSetting_ret n u : exists v u', getSetting n u = (Ret v, u') /\ same u u'.
Proof.
  assert (Hs := static_getSetting n u). unfold getSetting in *. rewrite (bind_run (getElement _) _ u _ u eq_refl) in *.
  destruct (read_ret (units n) Undefined (stored u)) as (a & s' & E).
  assert (E' : onStore (readSetting (units n) Undefined) u = (Ret a, set_stored s' u)) by (unfold onStore, lift; now rewrite E).
  rewrite (bind_run _ _ _ _ _ E') in *.
  destruct a, (control (dom u (setting n))); unM; eexists; eexists; (split; [reflexivity|exact Hs]).
Qed.

Lemma status_ret t ty u : exists u', showStatus t ty u = (Ret tt, u').
Proof.
  destruct (keeps_status ty u) eqn:Ek.
  - exists u. unfold showStatus. rewrite (bind_run get _ u u u eq_refl). unfold keeps_status, holds in Ek. cbn [fst snd] in Ek. cbv zeta. now rewrite Ek.
  - destruct (status_run t ty u Ek) as (u2 & _ & E). rewrite E. destruct (negb _); [rewrite arm_ret|]; eauto.
Qed.

Lemma hide_ret u : exists u', hideStatus u = (Ret tt, u').
Proof. unfold hideStatus. rewrite (bind_run get _ u u u eq_refl), (bind_run _ _ _ _ _ (clear_ret _ _)). eexists. reflexivity. Qed.

(** ** Marks of the connect dialog *)

Definition but_dialog : list mark := root_marks ++ panel_marks ++ status_marks.
Definition with_dialog (l : list bool) (p : phase) : phase :=
  Phase (p_connected p) (p_client p) (p_inhibit p) (p_labels p) l (p_root p) (p_close p) (p_wait p).

Lemma dialog_sound l u u' : same_on but_dialog u u' -> cls dialog_marks u' = l -> sound u -> sound u' /\ phase_of u' = with_dialog l (phase_of u).
Proof.
  intros Hs Hr [Hy Hp Ht Hc Hw]. split.
  - constructor; [exact (hygienic_same _ _ _ Hs Hy)|now rewrite (cls_same _ _ _ _ Hs)|now rewrite (cls_same _ _ _ _ Hs), (pend_same _ _ _ _ Hs)
    |now rewrite (pend_same _ _ _ _ Hs)|now apply (same_password _ _ _ Hs)].
  - unfold phase_of, with_dialog. cbn [p_connected p_client p_inhibit p_labels p_root p_close p_wait].
    rewrite (same_connected _ _ _ Hs), (same_client _ _ _ Hs), (same_inhibit _ _ _ Hs), Hr.
    rewrite (cls_same but_dialog root_marks _ _ Hs eq_refl), !(pend_same _ _ _ _ Hs). f_equal.
    cbn [forallb connection_settings]. now rewrite !(same_labels _ _ _ Hs).
Qed.

Lemma open_dialog u : sound u -> exists u', openConnectPanel u = (Ret tt, u') /\ sound u' /\ phase_of u' = with_dialog [true] (phase_of u).
Proof.
  intros Hu. eexists. split; [reflexivity|]. apply dialog_sound; [|unfold cls, dialog_marks; cbn [map]; now rewrite holds_add|exact Hu].
  apply (static_add but_dialog "noVNC_connect_dlg" "noVNC_open" eq_refl u).
Qed.

Lemma close_dialog u : sound u -> exists u', closeConnectPanel u = (Ret tt, u') /\ sound u' /\ phase_of u' = with_dialog [false] (phase_of u).
Proof.
  intros Hu. eexists. split; [reflexivity|]. apply dialog_sound; [|unfold cls, dialog_marks; cbn [map]; now rewrite holds_remove|exact Hu].
  apply (static_remove but_dialog "noVNC_connect_dlg" "noVNC_open" eq_refl u).
Qed.

(** ** Connecting *)

(** No client, nor a timer that would make one. *)
Record free u : Prop := { free_good : good u; free_client : p_client (phase_of u) = None; free_wait : p_wait (phase_of u) = Idle }.

Lemma free_quiet {A} (m : U A) u : quiet_op m -> free u -> free (snd (m u)).
Proof.
  intros Hm [Hg Hc Hw]. constructor; [now apply quiet_keeps| |].
  - destruct (Hm u (good_sound _ Hg)) as [_ [E|E]]; rewrite E; exact Hc.
  - destruct (Hm u (good_sound _ Hg)) as [_ [E|E]]; rewrite E; exact Hw.
Qed.

Lemma free_bind {A B} (m : U A) (k : A -> U B) u : quiet_op m -> (forall a u', free u' -> good (snd (k a u'))) -> free u -> good (snd (bind m k u)).
Proof.
  intros Hm Hk Hu. assert (Hf := free_quiet m u Hm Hu). unfold bind. destruct (m u) as [[a|e|] u']; cbn [snd] in *; [now apply Hk|apply Hf|apply Hf].
Qed.

Lemma rfb_none u : rfb u = None <-> p_client (phase_of u) = None.
Proof. cbn. destruct (rfb u); cbn; split; congruence. Qed.

(** A client that was just made. *)
Lemma new_client_good u r : sound u -> c_state r = Lifecycle.Connecting -> p_labels (phase_of u) = true -> p_connected (phase_of u) = false ->
  p_close (phase_of u) = Idle -> p_wait (phase_of u) = Idle -> p_dialog (phase_of u) = [false] -> p_root (phase_of u) = visual_root Connecting ->
  (held = true -> p_inhibit (phase_of u) = true) -> good (set_rfb (Some r) u).
Proof.
  intros Hu Hr Hl Hc Hcl Hw Hd Hro Hin. assert (Ek : forall k, pend k (set_rfb (Some r) u) = pend k u) by (intros []; reflexivity).
  constructor.
  - destruct Hu as [[H0' H1 H2 H3] Hp Hs Hclo Hpw]. constructor; try assumption. constructor; assumption.
  - constructor; [exact Hin|exact Hl|intros _; exact Hcl|discriminate|]. intros c [= <-]. split; [exact Hw|]. split; [exact Hd|].
    change (p_connected (phase_of (set_rfb (Some r) u))) with (p_connected (phase_of u)). rewrite Hc, Hr. split; [reflexivity|exact Hro].
Qed.

Lemma same_free u u' : same u u' -> sound u -> sound u' /\ phase_of u' = phase_of u.
Proof. intros Hs Hu. split; [exact (sound_same _ _ Hs Hu)|exact (phase_same _ _ _ Hs eq_refl)]. Qed.

Lemma connect_to_good (E : env) host port path password u : free u -> good (snd (connect_to E host port path password u)).
Proof.
  intros [[Hs Hp] Hc Hw]. destruct (ok_none _ _ Hp Hc) as [Hcon _]. assert (Hl := ok_labels _ _ Hp).
  unfold connect_to. destruct (close_dialog u Hs) as (u1 & E1 & H1 & P1). rewrite (seq_snd _ _ _ _ E1).
  destruct (visual_down E Connecting u1) as (u2 & E2 & H2 & P2); [exact H1|apply (f_equal p_connected) in P1; exact (eq_trans P1 Hcon)|rewrite P1; exact Hl|].
  rewrite (seq_snd _ _ _ _ E2).
  destruct (getSetting_ret "encrypt" u2) as (v1 & u3 & E3 & S3). rewrite (bind_run _ _ _ _ _ E3). destruct (same_free _ _ S3 H2) as [H3 P3].
  destruct (getSetting_ret "shared" u3) as (v2 & u4 & E4 & S4). rewrite (bind_run _ _ _ _ _ E4). destruct (same_free _ _ S4 H3) as [H4 P4].
  destruct (getSetting_ret "repeaterID" u4) as (v3 & u5 & E5 & S5). rewrite (bind_run _ _ _ _ _ E5). destruct (same_free _ _ S5 H4) as [H5 P5].
  assert (P : phase_of u5 = with_root (visual_root Connecting) (keep_open (with_dialog [false] (phase_of u)))) by (rewrite P5, P4, P3, P2, P1; reflexivity).
  destruct (new_rfb _ _) as [exc|r] eqn:En.
  - destruct (visual_down E Disconnected u5) as (u6 & E6 & H6 & P6); [exact H5|apply (f_equal p_connected) in P; exact (eq_trans P Hcon)|rewrite P; exact Hl|].
    rewrite (seq_snd _ _ _ _ E6). apply (quiet_keeps _ (quiet_status _ _)). constructor; [exact H6|]. rewrite P6, P.
    constructor; cbn [with_root keep_open with_dialog p_labels p_connected p_close p_client p_root p_wait p_dialog p_inhibit]; auto.
    + exact (ok_held _ _ Hp).
    + intros c Ec. congruence.
  - rewrite (seq_snd (modify _) _ _ (set_rfb (Some r) u5) eq_refl). apply (quiet_keeps _ (static_quiet _ static_configure)).
    apply new_client_good; [exact H5|exact (new_connecting _ _ _ En)|rewrite P; auto..]. exact (ok_held _ _ Hp).
Qed.

Lemma config_not_undefined href hash name a : getConfigVar href hash name Undefined = Ret a -> a <> Undefined.
Proof.
  unfold getConfigVar, getHashVar, getQueryVar, decoded. intros Hg.
  destruct (last_match is_hash (name ++ [61]) hash) as [r|].
  - destruct (decodeURIComponent _); [|discriminate|discriminate]. injection Hg as <-. discriminate.
  - cbn [null_if_undefined] in Hg. destruct (last_match is_query (name ++ [61]) href) as [r|].
    + destruct (decodeURIComponent _); [|discriminate|discriminate]. injection Hg as <-. discriminate.
    + injection Hg as <-. discriminate.
Qed.

Lemma static_password (E : env) password : static (ask_password E password).
Proof.
  unfold ask_password. destruct password; try apply static_ret. intros u.
  destruct (getConfigVar (href E) (hash E) (units "password") Undefined) as [a|e|] eqn:Eg; try apply same_refl.
  assert (Ha := config_not_undefined _ _ _ _ Eg). constructor; try reflexivity; try (intros []; reflexivity). intros _. exact Ha.
Qed.

Lemma connect_good (E : env) password u : free u -> good (snd (connect E password u)).
Proof.
  intros Hu. unfold connect. rewrite (bind_run get _ u u u eq_refl). assert (Hr := proj2 (rfb_none u) (free_client _ Hu)). rewrite Hr.
  apply free_bind; [apply static_quiet, static_getSetting|intros host u1 H1|exact Hu].
  apply free_bind; [apply static_quiet, static_getSetting|intros port u2 H2|exact H1].
  apply free_bind; [apply static_quiet, static_getSetting|intros path u3 H3|exact H2].
  apply free_bind; [apply static_quiet, (static_password E password)|intros pw u4 H4|exact H3]. cbv zeta.
  apply free_bind; [apply quiet_hide|intros _ u5 H5|exact H4]. destruct (negb (truthy_value host)).
  - apply (quiet_keeps _ (quiet_status _ _)), H5.
  - now apply connect_to_good.
Qed.

Lemma keeps_connect (E : env) password u : good u -> (p_client (phase_of u) = None -> p_wait (phase_of u) = Idle) -> good (snd (connect E password u)).
Proof.
  intros Hu Hw. destruct (rfb u) as [r|] eqn:Er.
  - unfold connect. rewrite (bind_run get _ u u u eq_refl), Er. exact Hu.
  - apply rfb_none in Er. apply connect_good. constructor; auto.
Qed.

(** ** Disconnecting *)

(** A change of fields that no timer, class or label depends on. *)
Lemma sound_fields u u' : dom u' = dom u -> timers u' = timers u -> nextTimer u' = nextTimer u -> (forall k, field k u' = field k u) ->
  (reconnectPassword u <> Undefined -> reconnectPassword u' <> Undefined) -> sound u -> sound u' /\
  phase_of u' = Phase (connected u') (option_map c_state (rfb u')) (inhibitReconnect u') (p_labels (phase_of u)) (p_dialog (phase_of u))
    (p_root (phase_of u)) (p_close (phase_of u)) (p_wait (phase_of u)).
Proof.
  intros Hd Ht Hn Hf Hpw [[H0' H1 H2 H3] Hp Hs Hc Hw]. assert (Hcls : forall l, cls l u' = cls l u) by (intros l; unfold cls, holds; now rewrite Hd).
  assert (Hpend : forall k, pend k u' = pend k u) by (intros k; unfold pend; now rewrite Ht, Hf). split.
  - constructor; rewrite ?Hcls, ?Hpend; auto. constructor; rewrite ?Ht, ?Hn; auto.
    + intros k i. rewrite Hf. apply H2.
    + intros t k. rewrite Hf. apply H3.
  - unfold phase_of at 1. rewrite !Hcls, !Hpend. f_equal. unfold labelled. now rewrite Hd.
Qed.

Lemma ask_disconnects u r : rfb u = Some r -> sound u -> let u' := snd (order_rfb Disconnect u) in
  sound u' /\ phase_of u' = Phase (p_connected (phase_of u)) (Some (c_state (snd (fst (ask Disconnect r))))) (p_inhibit (phase_of u)) (p_labels (phase_of u))
    (p_dialog (phase_of u)) (p_root (phase_of u)) (p_close (phase_of u)) (p_wait (phase_of u)).
Proof.
  intros Hr Hu. cbv zeta. unfold order_rfb, ask_rfb. rewrite bind_assoc_run, theRfb_run, Hr.
  destruct (ask Disconnect r) as [[res r'] n]. cbn [fst snd].
  destruct (sound_fields u (set_rfb (Some r') u)) as [H1 P1]; try reflexivity; try exact Hu; [auto|].
  assert (Hst : static (repeatedly n updateViewDrag ;; attempt res)).
  { apply static_bind; [apply static_repeatedly, static_updateViewDrag|intros _; apply static_attempt]. }
  rewrite bind_assoc_run, (bind_run (modify _) _ u tt (set_rfb (Some r') u) eq_refl). rewrite (bind_run (ret (res, n)) _ _ (res, n) _ eq_refl). cbn [fst snd].
  specialize (Hst (set_rfb (Some r') u)). destruct (same_free _ _ Hst H1) as [H2 P2]. split; [exact H2|]. rewrite P2, P1. reflexivity.
Qed.

Lemma order_leaves u r : rfb u = Some r -> order_rfb Disconnect u = (Ret tt, set_rfb (Some (snd (fst (ask Disconnect r)))) u).
Proof.
  intros Hr. unfold order_rfb, ask_rfb. rewrite bind_assoc_run, theRfb_run, Hr. destruct (ask_leaves r) as [E1 E2].
  destruct (ask Disconnect r) as [[res r'] n]. cbn [fst snd] in *. subst res n. reflexivity.
Qed.

(** It is closing after that. *)
Lemma state_after_disconnect r : is_connected (c_state (snd (fst (ask Disconnect r)))) = false /\
  shown_of (c_state (snd (fst (ask Disconnect r)))) = Disconnecting.
Proof. rewrite ask_disconnect. destruct (c_state r); split; reflexivity. Qed.

Lemma disconnect_keeps (E : env) : keeps (disconnect E).
Proof.
  intros u Hu. destruct (rfb u) as [r|] eqn:Er.
  2: { unfold disconnect, order_rfb, ask_rfb. rewrite !bind_assoc_run, theRfb_run, Er. exact Hu. }
  destruct Hu as [Hs Hp]. assert (Ec : p_client (phase_of u) = Some (c_state r)) by (cbn; now rewrite Er). destruct (ok_some _ _ Hp _ Ec) as (Hw & Hd & Hro).
  destruct (ask_disconnects u r Er Hs) as [H1 P1]. assert (Eo := order_leaves u r Er). unfold disconnect.
  set (u1 := set_rfb (Some (snd (fst (ask Disconnect r)))) u) in *. rewrite Eo in H1, P1. cbn [snd] in H1, P1. rewrite (seq_snd _ _ _ _ Eo). set (u3 := set_inhibitReconnect true (set_connected false u1)).
  rewrite (seq_snd (modify _) _ _ (set_connected false u1) eq_refl), (seq_snd (modify _) _ _ u3 eq_refl).
  destruct (sound_fields u1 u3) as [H3 P3]; try reflexivity; try exact H1; [auto|].
  destruct (visual_down E Disconnecting u3) as (u4 & E4 & H4 & P4); [exact H3|reflexivity|rewrite P3, P1; exact (ok_labels _ _ Hp)|].
  rewrite E4. cbn [snd]. constructor; [exact H4|]. rewrite P4, P3. unfold with_root, keep_open. cbn [p_connected p_client p_inhibit p_labels p_dialog p_root p_close p_wait].
  assert (Ecl : option_map c_state (rfb u3) = p_client (phase_of u1)) by reflexivity. rewrite Ecl, P1.
  cbn [p_connected p_client p_inhibit p_labels p_dialog p_root p_close p_wait].
  constructor; cbn [p_connected p_client p_inhibit p_labels p_dialog p_root p_close p_wait]; [reflexivity|apply (ok_labels _ _ Hp)|auto|discriminate|].
  intros c [= <-]. destruct (state_after_disconnect r) as [-> ->]. auto.
Qed.

(** ** The client is connected *)

Lemma static_then (Q : ui R -> Prop) {A B} (m : U A) (k : A -> U B) u : static m -> (forall u', same u u' -> Q u') ->
  (forall a u', same u u' -> Q (snd (k a u'))) -> Q (snd (bind m k u)).
Proof.
  intros Hm Hq Hk. unfold bind. specialize (Hm u). destruct (m u) as [[a|e|] u']; cbn [snd] in *; auto.
Qed.

Definition with_close (c : pending) (p : phase) : phase :=
  Phase (p_connected p) (p_client p) (p_inhibit p) (p_labels p) (p_dialog p) (p_root p) c (p_wait p).

Lemma visual_up (E : env) s u : sound u -> connected u = true -> p_close (phase_of u) = Idle ->
  let u' := snd (updateVisualState E s u) in
  sound u' /\ exists c, phase_of u' = with_close c (with_root (visual_root s) (phase_of u)).
Proof.
  intros Hu Hc Hi. cbv zeta. destruct (root_run E s u) as (u1 & E1 & Hs & Hr). destruct (root_sound s u u1 Hs Hr Hu) as [H1 P1].
  rewrite (visual_steps E s u u1 E1). assert (Hc1 : connected u1 = true) by (rewrite (same_connected _ _ _ Hs); exact Hc). rewrite Hc1.
  assert (Ha : sound u1 /\ p_close (phase_of u1) = Idle) by (split; [exact H1|rewrite P1; exact Hi]).
  set (Q := fun u' => sound u' /\ exists c, phase_of u' = with_close c (with_root (visual_root s) (phase_of u))).
  assert (Hq : forall u', same u1 u' -> Q u').
  { intros u' Hu'. destruct (same_free _ _ Hu' H1) as [H2 P2]. split; [exact H2|]. exists (p_close (phase_of u)). rewrite P2, P1. reflexivity. }
  rewrite bind_assoc_run. apply (static_then Q); [apply static_updateViewClip|exact Hq|]. intros _ u2 S2. rewrite bind_assoc_run.
  apply (static_then Q); [apply static_each, static_disableSetting|intros u' Hu'; exact (Hq u' (same_trans _ _ _ _ S2 Hu'))|]. intros _ u3 S3.
  assert (S : same u1 u3) by exact (same_trans _ _ _ _ S2 S3). destruct (same_free _ _ S H1) as [H3 P3].
  rewrite (seq_snd _ _ _ _ (arm_ret _ _ _ _)). set (u4 := snd (arm KClose CloseControlbar (Some 2000) u3)).
  assert (H4 : sound u4) by (apply sound_arm; auto; [discriminate|intros _; exact (eq_trans (f_equal p_close P3) (proj2 Ha))]).
  destruct (quiet_dialogs u4 H4) as [H5 P5]. split; [exact H5|].
  assert (P4 : phase_of u4 = with_timers (pend KClose u4) (pend KReconnect u4) (phase_of u3)) by apply arm_phase.
  assert (Er : pend KReconnect u4 = p_wait (phase_of u3)) by (apply pend_arm_other; [reflexivity|discriminate]).
  destruct P5 as [P5|P5]; rewrite P5, P4, Er, P3, P1; eexists; reflexivity.
Qed.

Lemma connected_keeps (E : env) u r : held = false -> sound u -> p_labels (phase_of u) = true -> p_close (phase_of u) = Idle ->
  p_wait (phase_of u) = Idle -> p_dialog (phase_of u) = [false] -> rfb u = Some r -> c_state r = Lifecycle.Connected -> good (snd (connectFinished E u)).
Proof.
  intros Hheld Hs Hl Hclo Hw Hd Er Hst. unfold connectFinished. set (u2 := set_inhibitReconnect false (set_connected true u)).
  rewrite (seq_snd (modify _) _ _ (set_connected true u) eq_refl), (seq_snd (modify _) _ _ u2 eq_refl).
  destruct (sound_fields u u2) as [H2 P2]; try reflexivity; try exact Hs; [auto|].
  destruct (getSetting_ret "encrypt" u2) as (v & u3 & E3 & S3). rewrite (bind_run _ _ _ _ _ E3). destruct (same_free _ _ S3 H2) as [H3 P3].
  rewrite (bind_run get _ u3 u3 u3 eq_refl). destruct (status_ret (text E (if truthy_value v then "Connected (encrypted) to " else "Connected (unencrypted) to ") ++ desktopName u3) "normal" u3) as (u4 & E4).
  rewrite (seq_snd _ _ _ _ E4). destruct (quiet_ran _ _ _ _ (quiet_status _ _) E4 H3) as [H4 P4].
  assert (Hcl : p_close (phase_of u4) = Idle).
  { destruct P4 as [P4|P4]; rewrite P4; [rewrite P3, P2; exact Hclo|reflexivity]. }
  assert (Hc4 : connected u4 = true) by (rewrite (calmer_connected _ _ P4); exact (f_equal p_connected P3)).
  destruct (visual_up E Connected u4 H4 Hc4 Hcl) as (H5 & c & P5).
  assert (Hg : good (snd (updateVisualState E Connected u4))).
  { constructor; [exact H5|]. rewrite P5.
    assert (P : exists cl, phase_of u4 = with_close cl (phase_of u2)) by (destruct P4 as [P4|P4]; rewrite P4, P3; eexists; reflexivity).
    destruct P as (cl & P). rewrite P, P2. cbn [rfb set_inhibitReconnect set_connected u2]. rewrite Er.
    constructor; cbn; [congruence|exact Hl|discriminate|discriminate|]. intros c' [= <-]. rewrite Hst. auto. }
  destruct (updateVisualState E Connected u4) as [[[]|e|] u5] eqn:E5; cbn [snd] in Hg.
  2,3: unfold bind at 1; rewrite E5; exact Hg.
  rewrite (seq_snd _ _ _ _ E5). apply (quiet_keeps _ (static_quiet _ static_focus)), Hg.
Qed.

(** ** The client is gone *)

Lemma openBar_run u : sound u -> exists u', openControlbar u = (Ret tt, u') /\ sound u' /\ phase_of u' = phase_of u.
Proof.
  intros Hu. eexists. split; [reflexivity|]. apply same_free; [|exact Hu]. exact (static_add all_marks "noVNC_control_bar" "noVNC_open" eq_refl u).
Qed.

(** Back to the connect dialog. *)
Lemma to_dialog u : sound u -> p_labels (phase_of u) = true -> p_close (phase_of u) = Idle -> p_client (phase_of u) = None -> p_connected (phase_of u) = false ->
  p_root (phase_of u) = nothing -> p_wait (phase_of u) = Idle -> (held = true -> p_inhibit (phase_of u) = true) -> good (snd ((openControlbar ;; openConnectPanel) u)).
Proof.
  intros Hu Hl Hcl Hc Hco Hr Hw Hin. destruct (openBar_run u Hu) as (u1 & E1 & H1 & P1). rewrite (seq_snd _ _ _ _ E1).
  destruct (open_dialog u1 H1) as (u2 & E2 & H2 & P2). rewrite E2. cbn [snd]. constructor; [exact H2|]. rewrite P2, P1.
  constructor; cbn [with_dialog p_labels p_close p_client p_connected p_root p_wait p_dialog p_inhibit]; auto. intros c Ec. congruence.
Qed.

Lemma disconnected_keeps (E : env) clean u : good u -> rfb u <> None -> good (snd (disconnectFinished E clean u)).
Proof.
  intros [Hs Hp] Hr. destruct (rfb u) as [r|] eqn:Er; [|congruence]. assert (Ec : p_client (phase_of u) = Some (c_state r)) by (cbn; now rewrite Er).
  destruct (ok_some _ _ Hp _ Ec) as (Hw & Hd & _). assert (Hl := ok_labels _ _ Hp). unfold disconnectFinished. rewrite (bind_run get _ u u u eq_refl). cbv zeta.
  set (u2 := set_rfb None (set_connected false u)).
  rewrite (seq_snd (modify _) _ _ (set_connected false u) eq_refl), (seq_snd (modify _) _ _ u2 eq_refl).
  destruct (sound_fields u u2) as [H2 P2]; try reflexivity; try exact Hs; [auto|].
  assert (Hmid : exists u3, (if negb clean then updateVisualState E Disconnected ;;
      showStatus (text E (if connected u then "Something went wrong, connection is closed" else "Failed to connect to server")) "error" else ret tt) u2 = (Ret tt, u3) /\
    sound u3 /\ p_connected (phase_of u3) = false /\ p_client (phase_of u3) = None /\ p_labels (phase_of u3) = true /\
    p_dialog (phase_of u3) = [false] /\ p_wait (phase_of u3) = Idle /\ (held = true -> p_inhibit (phase_of u3) = true)).
  { destruct clean; cbn [negb].
    - exists u2. split; [reflexivity|]. split; [exact H2|]. rewrite P2. assert (Hi := ok_held _ _ Hp). auto 8.
    - destruct (visual_down E Disconnected u2 H2 eq_refl) as (u3 & E3 & H3 & P3); [rewrite P2; exact Hl|].
      rewrite (bind_run _ _ _ _ _ E3). destruct (status_ret (text E (if connected u then "Something went wrong, connection is closed" else "Failed to connect to server")) "error" u3) as (u4 & E4).
      exists u4. split; [exact E4|]. destruct (quiet_ran _ _ _ _ (quiet_status _ _) E4 H3) as [H4 P4]. split; [exact H4|].
      assert (Hi := ok_held _ _ Hp). destruct P4 as [P4|P4]; rewrite P4, P3, P2; cbn; auto 8. }
  destruct Hmid as (u3 & E3 & H3 & Hc3 & Hn3 & Hl3 & Hd3 & Hw3 & Hi3). rewrite (seq_snd _ _ _ _ E3).
  destruct (getSetting_ret "reconnect" u3) as (v & u4 & E4 & S4). rewrite (bind_run _ _ _ _ _ E4). destruct (same_free _ _ S4 H3) as [H4 P4].
  rewrite <- P4 in Hc3, Hn3, Hl3, Hd3, Hw3, Hi3. rewrite (bind_run get _ u4 u4 u4 eq_refl).
  destruct (value_eqb v (Bool true) && negb (inhibitReconnect u4)) eqn:Eb.
  - apply andb_true_iff in Eb as [_ Hinh]. apply negb_true_iff in Hinh.
    destruct (visual_down E Reconnecting u4 H4 Hc3 Hl3) as (u5 & E5 & H5 & P5). rewrite (seq_snd _ _ _ _ E5).
    destruct (getSetting_ret "reconnect_delay" u5) as (d & u6 & E6 & S6). rewrite (bind_run _ _ _ _ _ E6). destruct (same_free _ _ S6 H5) as [H6 P6].
    change (good (snd (arm KReconnect Reconnect (parseInt d) u6))).
    assert (P : phase_of u6 = with_root (visual_root Reconnecting) (keep_open (phase_of u4))) by (rewrite P6, P5; reflexivity).
    assert (Hi6 : pend KReconnect u6 = Idle) by exact (eq_trans (f_equal p_wait P) Hw3).
    constructor; [apply sound_arm; [exact H6|discriminate|discriminate|reflexivity]|].
    rewrite arm_phase, pend_arm_same, pend_arm_other by (reflexivity || exact Hi6 || discriminate).
    assert (Hcl : pend KClose u6 = Idle) by exact (f_equal p_close P). rewrite Hcl, P.
    constructor; cbn [with_timers with_root keep_open p_labels p_close p_client p_connected p_root p_wait p_dialog p_inhibit]; auto.
    + intros _. split; [exact Hc3|]. right. repeat split; auto. discriminate.
    + intros c Hcc. congruence.
  - destruct (visual_down E Disconnected u4 H4 Hc3 Hl3) as (u5 & E5 & H5 & P5). rewrite (seq_snd _ _ _ _ E5).
    destruct (status_ret (text E "Disconnected") "normal" u5) as (u6 & E6). rewrite (seq_snd _ _ _ _ E6).
    destruct (quiet_ran _ _ _ _ (quiet_status _ _) E6 H5) as [H6 P6].
    rewrite (seq_snd (modify _) _ _ (set_title PAGE_TITLE u6) eq_refl).
    destruct (sound_fields u6 (set_title PAGE_TITLE u6)) as [H7 P7]; try reflexivity; try exact H6; [auto|].
    assert (P : phase_of (set_title PAGE_TITLE u6) = with_root nothing (keep_open (phase_of u4))).
    { rewrite P7. change (Phase _ _ _ _ _ _ _ _) with (phase_of u6). rewrite P5 in P6. destruct P6 as [P6|P6]; rewrite P6; reflexivity. }
    apply to_dialog; [exact H7|..]; rewrite P; cbn [with_root keep_open p_labels p_close p_client p_connected p_root p_wait]; auto.
Qed.

(** What the client was does not matter any more. *)
Lemma finished_anyway (E : env) clean r u : disconnectFinished E clean (set_rfb r u) = disconnectFinished E clean u.
Proof.
  unfold disconnectFinished. rewrite !(bind_run get _ _ _ _ eq_refl). cbv zeta. set (k := fun _ : unit => _).
  rewrite (bind_run (modify _) _ _ tt (set_connected false (set_rfb r u)) eq_refl), (bind_run (modify _) _ u tt (set_connected false u) eq_refl).
  subst k. cbv beta. rewrite !(bind_run (modify (set_rfb None)) _ _ _ _ eq_refl). reflexivity.
Qed.

(** The remembered number is dropped when no timer has it. *)
Lemma page_forget_sound u : sound u -> p_wait (phase_of u) = Idle ->
  sound (set_reconnectCallback None u) /\ phase_of (set_reconnectCallback None u) = phase_of u.
Proof.
  intros [[H0' H1 H2 H3] H4 H5 H6 H7] Hw. split.
  - constructor; try assumption. constructor; try assumption.
    + intros k i Hk. destruct k; [apply (H2 KStatus)|apply (H2 KIdle)|apply (H2 KClose)|discriminate]; exact Hk.
    + intros t k Ht Hk. destruct k; [apply (H3 t KStatus Ht)|apply (H3 t KIdle Ht)|apply (H3 t KClose Ht)|discriminate]; exact Hk.
  - assert (Hi : filter (is_kind KReconnect) (timers u) = []).
    { cbn [phase_of p_wait] in Hw. unfold pend in Hw. destruct (filter _ (timers u)) as [|t [|t' l]]; [reflexivity| |discriminate].
      destruct (field KReconnect u) as [i|]; [destruct (t_id t =? i)|]; discriminate. }
    unfold phase_of, pend. cbn [field timers set_reconnectCallback]. now rewrite Hi.
Qed.

(** ** Trying again, and giving up *)

Lemma root_reconnecting u : good u -> holds u (root, "noVNC_reconnecting"%string) = true ->
  p_client (phase_of u) = None /\ p_wait (phase_of u) <> Loose.
Proof.
  intros [_ Hp] Hh. assert (Hl : nth 3 (p_root (phase_of u)) false = true) by exact Hh.
  destruct (p_client (phase_of u)) as [c|] eqn:Ec.
  - destruct (ok_some _ _ Hp _ Ec) as (_ & _ & Hr). destruct Hr as [_ Hr]. rewrite Hr in Hl. destruct c; discriminate Hl.
  - split; [reflexivity|]. destruct (ok_none _ _ Hp Ec) as [_ [[Hr Hw]|(_ & _ & _ & Hw)]]; [rewrite Hw; discriminate|exact Hw].
Qed.

Lemma cancel_keeps (E : env) u : good u -> holds u (root, "noVNC_reconnecting"%string) = true -> good (snd (cancelReconnect E u)).
Proof.
  intros Hg Hh. destruct (root_reconnecting u Hg Hh) as [Hc Hw]. destruct Hg as [Hs Hp]. destruct (ok_none _ _ Hp Hc) as [Hco _].
  unfold cancelReconnect. rewrite (bind_run get _ u u u eq_refl).
  assert (Hmid : exists u1, (match reconnectCallback u with Some id => clearTimeout (Some id) ;; modify (set_reconnectCallback None) | None => ret tt end) u = (Ret tt, u1) /\
    sound u1 /\ phase_of u1 = with_timers (pend KClose u) Idle (phase_of u)).
  { destruct (reconnectCallback u) as [id|] eqn:Ei.
    - set (u1 := snd (clearTimeout (field KReconnect u) u)).
      assert (E1 : clearTimeout (Some id) u = (Ret tt, u1)) by (unfold u1; cbn [field]; now rewrite Ei).
      rewrite (bind_run _ _ _ _ _ E1). assert (H1 : sound u1) by (apply sound_clear; [exact Hs|discriminate]).
      assert (P1 : phase_of u1 = with_timers (pend KClose u) Idle (phase_of u)).
      { unfold u1. rewrite clear_phase, pend_clear_same, pend_clear_other; [reflexivity|apply Hs|discriminate|exact Hw]. }
      eexists. split; [reflexivity|]. destruct (page_forget_sound u1 H1) as [H2 P2]; [rewrite P1; reflexivity|]. split; [exact H2|]. now rewrite P2.
    - exists u. split; [reflexivity|]. split; [exact Hs|]. assert (Hi : pend KReconnect u = Idle).
      { assert (Hw' : pend KReconnect u <> Loose) by exact Hw. unfold pend in *. cbn [field] in *. rewrite Ei in *. destruct (filter _ (timers u)) as [|t [|t' l]]; [reflexivity|now destruct Hw'..]. }
      rewrite <- Hi. reflexivity. }
  destruct Hmid as (u1 & E1 & H1 & P1). rewrite (seq_snd _ _ _ _ E1).
  destruct (visual_down E Disconnected u1) as (u2 & E2 & H2 & P2); [exact H1|exact (eq_trans (f_equal p_connected P1) Hco)|rewrite P1; exact (ok_labels _ _ Hp)|].
  rewrite (seq_snd _ _ _ _ E2). apply to_dialog; [exact H2|..]; rewrite P2, P1; cbn; auto; [apply (ok_labels _ _ Hp)|apply (ok_held _ _ Hp)].
Qed.

(** ** Timers *)

Lemma fire_other k t u : hygienic u -> In t (timers u) -> is_kind k t = false -> pend k (snd (clearTimeout (Some (t_id t)) u)) = pend k u.
Proof.
  intros Hy Ht Hk. unfold pend. cbn [clearTimeout modify snd timers set_timers]. rewrite filter_filter.
  rewrite (filter_all _ (filter (is_kind k) (timers u))); [now destruct k|]. intros t' Ht'. apply filter_In in Ht' as [Ht' Hk'].
  destruct (Z.eqb_spec (t_id t') (t_id t)) as [Ei|]; [|reflexivity]. exfalso.
  assert (E : t' = t); [|congruence]. destruct Hy as [Hd _ _ _]. clear - Hd Ht Ht' Ei. induction (timers u) as [|a l IH]; [destruct Ht|].
  cbn [map] in Hd. inversion Hd as [|? ? Hi Hd']; subst. destruct Ht as [->|Ht], Ht' as [->|Ht']; auto.
  - exfalso. apply Hi. rewrite <- Ei. now apply in_map.
  - exfalso. apply Hi. rewrite Ei. now apply in_map.
Qed.

(** The remembered timer of a kind is the one that fires. *)
Lemma fire_owned k t u : In t (timers u) -> is_kind k t = true -> pend k u <> Loose -> field k u = Some (t_id t).
Proof.
  intros Ht Hk Hl. unfold pend in Hl. assert (Hin : In t (filter (is_kind k) (timers u))) by (now apply filter_In).
  destruct (filter (is_kind k) (timers u)) as [|t' [|t'' l]]; [destruct Hin| |now destruct Hl]. destruct Hin as [->|[]].
  destruct (field k u) as [i|]; [|now destruct Hl]. destruct (Z.eqb_spec (t_id t) i) as [->|]; [reflexivity|now destruct Hl].
Qed.

Lemma quiet_fire t u : sound u -> In t (timers u) -> is_kind KStatus t = false -> is_kind KClose t = false -> is_kind KReconnect t = false ->
  sound (snd (clearTimeout (Some (t_id t)) u)) /\ phase_of (snd (clearTimeout (Some (t_id t)) u)) = phase_of u.
Proof.
  intros [Hy Hp Hs Hc Hw] Ht H1 H2 H3. split.
  - constructor; [now apply hygienic_clear|now rewrite clear_same_marks|rewrite clear_same_marks, fire_other by assumption; exact Hs
    |rewrite fire_other by assumption; exact Hc|exact Hw].
  - rewrite clear_phase, !fire_other by assumption. reflexivity.
Qed.

Lemma hide_twice t u : field KStatus u = Some (t_id t) -> hideStatus (snd (clearTimeout (Some (t_id t)) u)) = hideStatus u.
Proof.
  intros Hf. cbn [field] in Hf. unfold hideStatus. rewrite (bind_run get _ _ _ _ eq_refl), (bind_run get _ u u u eq_refl).
  cbn [clearTimeout modify snd]. cbn [statusTimeout set_timers]. rewrite Hf. cbn [clearTimeout]. unfold bind, modify. cbn [timers set_timers].
  rewrite (filter_all _ (filter (fun t0 => negb (t_id t0 =? t_id t)) (timers u))); [reflexivity|]. intros a Ha. now apply filter_In in Ha.
Qed.

Lemma timer_keeps (E : env) t u : good u -> In t (timers u) -> good (snd (timer_runs E t u)).
Proof.
  intros Hg Ht. assert (Hs := good_sound _ Hg). unfold timer_runs. rewrite (seq_snd _ _ _ _ (clear_ret _ _)). set (u1 := snd (clearTimeout (Some (t_id t)) u)).
  destruct (t_callback t) eqn:Ec; cbn [run_callback].
  - unfold u1. rewrite hide_twice; [now apply (quiet_keeps _ quiet_hide)|]. apply fire_owned; [exact Ht|unfold is_kind; now rewrite Ec|now apply status_not_loose].
  - destruct (quiet_fire t u Hs Ht) as [H1 P1]; try (unfold is_kind; now rewrite Ec). apply (quiet_keeps _ (quiet_idle E)).
    constructor; [exact H1|]. fold u1 in P1. rewrite P1. apply Hg.
  - assert (Hf : field KClose u = Some (t_id t)) by (apply fire_owned; [exact Ht|unfold is_kind; now rewrite Ec|apply Hs]).
    apply (quiet_keeps _ quiet_closeControlbar). unfold u1. rewrite <- Hf. assert (Hk := keep_run u). cbn [snd].
    replace (snd (clearTimeout (field KClose u) u)) with (snd (keepControlbar u)) by (now rewrite Hk). now apply (quiet_keeps _ quiet_keep).
  - assert (Hw : pend KReconnect u <> Loose).
    { destruct (p_client (phase_of u)) as [c|] eqn:Ecl.
      - destruct (ok_some _ _ (good_phase _ Hg) _ Ecl) as (Hw & _). cbn [phase_of p_wait] in Hw. rewrite Hw. discriminate.
      - destruct (ok_none _ _ (good_phase _ Hg) Ecl) as [_ [[_ Hw]|(_ & _ & _ & Hw)]]; [cbn [phase_of p_wait] in Hw; rewrite Hw; discriminate|exact Hw]. }
    assert (Hf : field KReconnect u = Some (t_id t)) by (apply fire_owned; [exact Ht|unfold is_kind; now rewrite Ec|exact Hw]).
    assert (H1 : sound u1) by (unfold u1; rewrite <- Hf; apply sound_clear; [exact Hs|discriminate]).
    assert (P1 : phase_of u1 = with_timers (pend KClose u) Idle (phase_of u)).
    { unfold u1. rewrite <- Hf, clear_phase, pend_clear_same, pend_clear_other; [reflexivity|apply Hs|discriminate|exact Hw]. }
    unfold reconnect. set (u2 := set_reconnectCallback None u1). rewrite (seq_snd (modify _) _ _ u2 eq_refl), (bind_run get _ u2 u2 u2 eq_refl).
    assert (Hg2 : good u2 /\ p_wait (phase_of u2) = Idle).
    { destruct (page_forget_sound u1 H1) as [H2 P2]; [rewrite P1; reflexivity|]. fold u2 in H2, P2.
      split; [|rewrite P2, P1; reflexivity]. constructor; [exact H2|].
      rewrite P2, P1. destruct Hg as [_ [G0 G1 G2 G3 G4]].
      constructor; cbn [with_timers p_labels p_close p_client p_connected p_root p_wait p_dialog p_inhibit]; auto.
      - intros Hn. destruct (G3 Hn) as [Hc [[Hr _]|(Hr & Hd & Hi' & _)]]; split; auto. right. repeat split; auto. discriminate.
      - intros c Hcc. destruct (G4 c Hcc) as (_ & Hd & Hr). auto. }
    destruct Hg2 as [Hg2 Hw2]. destruct (inhibitReconnect u2); [exact Hg2|]. apply keeps_connect; auto.
  - destruct (quiet_fire t u Hs Ht) as [H1 P1]; try (unfold is_kind; now rewrite Ec). fold u1 in H1, P1.
    apply (quiet_keeps (focus_element id)); [apply static_quiet; unfold focus_element, focus_on; stat|]. constructor; [exact H1|]. rewrite P1. apply Hg.
Qed.

(** ** Listeners *)

(** Two buttons are only there in some states: the one of the connect dialog,
    and the one of the screen shown between two attempts (base.css). *)
Definition within_reach (id : string) u : bool :=
  if String.eqb id "noVNC_connect_button" then holds u ("noVNC_connect_dlg", "noVNC_open")%string
  else if String.eqb id "noVNC_cancel_reconnect_button" then holds u (root, "noVNC_reconnecting"%string)
  else true.

Abbreviation listener := (string * string * (event -> U unit))%type.
Definition proper (l : listener) : Prop := forall e u, good u -> within_reach (fst (fst l)) u = true -> good (snd (snd l e u)).

Lemma proper_quiet id ty {A} (m : U A) : quiet_op m -> proper (id, ty, quiet m).
Proof.
  intros Hm e u Hg _. cbn [fst snd]. unfold quiet. apply (quiet_keeps (m ;; ret tt)); [|exact Hg].
  apply page_quiet_bind; [exact Hm|intros _; apply static_quiet, static_ret].
Qed.

Lemma proper_static id ty {A} (m : U A) : static m -> proper (id, ty, quiet m).
Proof. intros Hm. now apply proper_quiet, static_quiet. Qed.

Lemma proper_keeps id ty (m : U unit) : keeps m -> proper (id, ty, quiet m).
Proof. intros Hm e u Hg _. cbn [fst snd]. unfold quiet. apply page_keeps_bind; [exact Hm|intros _; apply quiet_keeps, static_quiet, static_ret|exact Hg]. Qed.

Lemma proper_event id ty f : (forall e, quiet_op (f e)) -> proper (id, ty, f).
Proof. intros Hf e u Hg _. now apply (quiet_keeps _ (Hf e)). Qed.

Lemma proper_bar types m : quiet_op m -> Forall proper (bar_listeners types m).
Proof. intros Hm. unfold bar_listeners. induction types; cbn [map]; constructor; [now apply proper_quiet|assumption]. Qed.

Lemma proper_connect (E : env) : proper ("noVNC_connect_button", "click", quiet (connect E Undefined))%string.
Proof.
  intros e u Hg Hr. cbn [fst snd] in *. unfold quiet. change (good (snd (bind (connect E Undefined) (fun _ => ret tt) u))).
  assert (Hk : good (snd (connect E Undefined u))).
  { apply keeps_connect; [exact Hg|]. intros Hc. destruct (ok_none _ _ (good_phase _ Hg) Hc) as [_ [[_ Hw]|(_ & Hd & _)]]; [exact Hw|].
    assert (Hd' : p_dialog (phase_of u) = [true]) by exact (f_equal (fun b => [b]) Hr). congruence. }
  unfold bind. destruct (connect E Undefined u) as [[[]|x|] u']; exact Hk.
Qed.

Lemma proper_cancel (E : env) : proper ("noVNC_cancel_reconnect_button", "click", quiet (cancelReconnect E))%string.
Proof.
  intros e u Hg Hr. cbn [fst snd] in *. assert (Hk := cancel_keeps E u Hg Hr). unfold quiet, bind.
  destruct (cancelReconnect E u) as [[[]|x|] u']; exact Hk.
Qed.

Lemma reject_keeps (E : env) : keeps (rejectServer E).
Proof.
  unfold rejectServer, preventDefault. apply page_keeps_bind; [apply quiet_keeps, static_quiet; leaf|intros _].
  apply page_keeps_bind; [apply quiet_keeps, static_quiet; leaf|intros _; apply disconnect_keeps].
Qed.

Lemma static_update_options : static updateQuality /\ static updateCompression /\ static updateShowDotCursor /\ static updateViewOnly.
Proof.
  destruct static_configure_options as (H1 & H2 & H3 & H4). unfold updateQuality, updateCompression, updateShowDotCursor.
  split; [|split; [|split]]; try exact H4; now apply static_with.
Qed.

Lemma proper_setting n f : (forall m, f = Some m -> static m) -> proper (addSettingChangeHandler n f).
Proof. intros Hf. unfold addSettingChangeHandler. destruct f as [m|]; [now apply proper_static, Hf|apply proper_static, static_saveSetting]. Qed.

Lemma settings_proper (E : env) : Forall proper (addSettingsHandlers E).
Proof.
  destruct static_update_options as (H1 & H2 & H3 & H4). destruct (static_misc E []) as (_ & _ & _ & _ & _ & _ & _ & H5).
  assert (H6 := static_updateViewClip E). assert (H7 : static updateLogging) by (unfold updateLogging; stat).
  unfold addSettingsHandlers. constructor; [apply proper_quiet, quiet_panels|]. cbn [map fst snd].
  repeat (constructor; [apply proper_setting; intros m [= <-]; assumption|]). constructor.
Qed.

Lemma listeners_proper (E : env) : Forall proper (listeners E).
Proof.
  destruct quiet_panels as (P1 & P2 & P3 & P4). destruct (quiet_keys E) as (K1 & K2 & K3 & K4). destruct (static_virtual E) as (V1 & V2 & V3 & _).
  destruct (static_asking E (fun l => l) [] []) as (_ & _ & A3 & A4). destruct (static_misc E []) as (_ & M2 & _ & _ & M5 & M6 & M7 & _).
  assert (Ho : forall o, o <> Disconnect -> static (order_rfb o)) by exact static_order.
  assert (Hh := quiet_handle E). unfold listeners. rewrite !Forall_app.
  refine (conj _ (conj _ (conj _ (conj _ (conj _ (conj _ (conj _ (conj _ _)))))))).
  - unfold addFullscreenHandlers. destruct (_ && _); [|constructor]. cbn [map]. repeat (constructor; [apply proper_static; assumption|]). constructor.
  - unfold addControlbarHandlers. apply Forall_app. split; [apply proper_bar, quiet_activate|]. apply Forall_app. split; [apply proper_bar, quiet_keep|].
    cbn [map expanders app]. constructor; [apply proper_static; assumption|]. do 3 (constructor; [apply proper_event; intros e; apply Hh|]).
    constructor; [apply proper_static, static_move|]. repeat (constructor; [apply proper_static; unfold toggleExpander; stat|]). constructor.
  - unfold addTouchSpecificHandlers. apply Forall_app. split; [repeat (constructor; [apply proper_static; assumption|]); constructor|].
    apply Forall_app. split; [apply proper_bar, quiet_activate|]. apply Forall_app. split; [apply proper_bar, quiet_keep|].
    do 3 (constructor; [apply proper_event; intros e; apply Hh|]). constructor.
  - unfold addExtraKeysHandlers. constructor; [apply proper_quiet; assumption|]. do 3 (constructor; [apply proper_quiet; assumption|]).
    do 2 (constructor; [apply proper_quiet, page_quiet_sendKey|]). constructor; [apply proper_quiet; assumption|constructor].
  - unfold addMachineHandlers. do 3 (constructor; [apply proper_static, Ho; discriminate|]). constructor; [apply proper_quiet; assumption|constructor].
  - unfold addConnectionControlHandlers. constructor; [apply proper_keeps, disconnect_keeps|]. constructor; [apply proper_connect|].
    constructor; [apply proper_cancel|]. constructor; [apply proper_static; assumption|]. constructor; [apply proper_keeps, reject_keeps|].
    constructor; [apply proper_static; assumption|constructor].
  - unfold addClipboardHandlers. constructor; [apply proper_quiet; assumption|]. constructor; [apply proper_static; assumption|constructor].
  - apply settings_proper.
  - constructor; [apply proper_quiet, quiet_hide|constructor].
Qed.

(** ** Histories *)

(** What a client does, and the event it dispatches: it connects and
    disconnects at most once, as [Lifecycle.connection_lifecycle] shows. *)
Definition client_moves (r : R) (e : client_event) (r' : R) : Prop :=
  match e with
  | EvConnect => c_state r = Lifecycle.Connecting /\ c_state r' = Lifecycle.Connected
  | EvDisconnect _ => c_state r <> Lifecycle.Disconnected /\ c_state r' = Lifecycle.Disconnected
  | _ => c_state r' = c_state r
  end.

(** The user edits fields, moves the focus, leaves full screen; another page
    changes the stores; the flags of an event are reset. *)
Definition edited u u' : Prop := exists d a f st sp pr,
  u' = set_prevented pr (set_stopped sp (set_stored st (set_fullscreenElement f (set_activeElement a (set_dom d u))))) /\
  forall id, classes (d id) = classes (dom u id) /\ label (d id) = label (dom u id) /\ control (d id) = control (dom u id).

(** The steps in which the client dispatches only some events. *)
Inductive step (may : client_event -> Prop) : ui R -> ui R -> Prop :=
| step_listener E l e u : In l (listeners E) -> within_reach (fst (fst l)) u = true -> step may u (snd (snd l e u))
| step_mousedown e u : step may u (snd (keepVirtualKeyboard e u))
| step_input sel u : step may u (snd (keyInput sel u))
| step_key keysym code down u : step may u (snd (keyEvent keysym code down u))
| step_event E e r r' u : may e -> rfb u = Some r -> client_moves r e r' -> step may u (snd (hear E e (set_rfb (Some r') u)))
| step_client r r' u : rfb u = Some r -> c_state r' = c_state r -> step may u (set_rfb (Some r') u)
| step_timer E t u : In t (timers u) -> step may u (snd (timer_runs E t u))
| step_digest sha1 u : step may u (snd (digest_ready sha1 u))
| step_version v u : step may u (snd (version_fetched v u))
| step_page u u' : edited u u' -> step may u u'.

Inductive history (may : client_event -> Prop) (u0 : ui R) : ui R -> Prop :=
| history_here : history may u0 u0
| history_step u u' : history may u0 u -> step may u u' -> history may u0 u'.

Definition any_event (e : client_event) : Prop := True.

Lemma moved_good u r r' : good u -> rfb u = Some r -> c_state r' = c_state r -> good (set_rfb (Some r') u).
Proof.
  intros [Hs Hp] Hr Hc. destruct (sound_fields u (set_rfb (Some r') u)) as [H1 P1]; try reflexivity; try exact Hs; [auto|].
  constructor; [exact H1|]. assert (Ec : p_client (phase_of u) = Some (c_state r)) by (cbn; now rewrite Hr).
  destruct (ok_some _ _ Hp _ Ec) as (Hw & Hd & Hro). rewrite P1.
  constructor; cbn [p_labels p_close p_client p_connected p_root p_wait p_dialog p_inhibit rfb set_rfb option_map connected];
    [apply (ok_held _ _ Hp)|apply (ok_labels _ _ Hp)|apply (ok_close _ _ Hp)|discriminate|].
  intros c [= <-]. rewrite Hc. auto.
Qed.

Lemma event_keeps (E : env) e u r r' : (held = true -> e <> EvConnect) -> good u -> rfb u = Some r -> client_moves r e r' -> good (snd (hear E e (set_rfb (Some r') u))).
Proof.
  intros Hheld Hg Hr Hm. assert (Ec : p_client (phase_of u) = Some (c_state r)) by (cbn; now rewrite Hr).
  destruct (ok_some _ _ (good_phase _ Hg) _ Ec) as (Hw & Hd & Hco & _).
  destruct (sound_fields u (set_rfb (Some r') u)) as [H1 P1]; try reflexivity; [auto|exact (good_sound _ Hg)|].
  assert (Hg' : (c_state r' = c_state r -> good (set_rfb (Some r') u))) by (intros E'; exact (moved_good u r r' Hg Hr E')).
  destruct e; cbn [hear client_moves] in *; try specialize (Hg' Hm).
  - destruct Hm as [Hm1 Hm2]. rewrite Hm1 in Hco. apply (connected_keeps E _ r'); [now destruct held; [destruct (Hheld eq_refl)|]|exact H1|..]; try reflexivity; try exact Hm2;
      rewrite P1; cbn [p_labels p_close p_wait p_dialog]; auto; [exact (ok_labels _ _ (good_phase _ Hg))|exact (ok_close _ _ (good_phase _ Hg) Hco)].
  - rewrite finished_anyway. apply disconnected_keeps; [exact Hg|congruence].
  - apply (quiet_keeps _ (static_quiet _ (proj1 (static_asking E (fun l => l) type publickey)))), Hg'.
  - apply (quiet_keeps _ (quiet_credentials E types)), Hg'.
  - unfold securityFailed. apply (quiet_keeps _ (quiet_status _ _)), Hg'.
  - apply (quiet_keeps _ (static_quiet _ static_updateViewDrag)), Hg'.
  - apply (quiet_keeps _ quiet_power), Hg'.
  - apply (quiet_keeps _ (static_quiet _ (proj1 (static_misc E t)))), Hg'.
  - destruct (static_misc E []) as (_ & _ & _ & M & _). apply (quiet_keeps _ (static_quiet _ M)), Hg'.
  - destruct (static_misc E name) as (_ & _ & M & _). apply (quiet_keeps _ (static_quiet _ M)), Hg'.
Qed.

Lemma edited_same u u' : edited u u' -> same u u'.
Proof.
  intros (d & a & f & st & sp & pr & -> & Hd). constructor; try reflexivity; try (intros []; reflexivity); try (intros Hw; exact Hw).
  - intros [i c] _. unfold holds, has_class. cbn [fst snd dom set_prevented set_stopped set_stored set_fullscreenElement set_activeElement set_dom].
    now rewrite (proj1 (Hd i)).
  - intros n. unfold labelled. cbn [dom set_prevented set_stopped set_stored set_fullscreenElement set_activeElement set_dom].
    now rewrite (proj1 (proj2 (Hd _))).
Qed.

Lemma static_keepVirtual e : static (keepVirtualKeyboard e).
Proof. unfold keepVirtualKeyboard, preventDefault. stat. Qed.

Lemma static_digest sha1 : static (digest_ready sha1).
Proof. unfold digest_ready. stat. Qed.

Lemma step_good may u u' : (held = true -> forall e, may e -> e <> EvConnect) -> step may u u' -> good u -> good u'.
Proof.
  intros Hheld Hs Hg. destruct Hs.
  - assert (Hl := listeners_proper E). rewrite Forall_forall in Hl. now apply Hl.
  - exact (quiet_keeps _ (static_quiet _ (static_keepVirtual e)) u Hg).
  - exact (quiet_keeps _ (quiet_keyInput sel) u Hg).
  - exact (quiet_keeps _ (static_quiet _ (static_keyEvent keysym code down)) u Hg).
  - apply (event_keeps E e u r r'); auto.
  - now apply (moved_good u r).
  - now apply timer_keeps.
  - exact (quiet_keeps _ (static_quiet _ (static_digest sha1)) u Hg).
  - apply (quiet_keeps (version_fetched v)); [apply static_quiet; unfold version_fetched; leaf|exact Hg].
  - destruct Hg as [G1 G2]. destruct (same_free _ _ (edited_same _ _ H1) G1) as [K1 K2]. constructor; [exact K1|]. now rewrite K2.
Qed.

(** ** The page when it starts *)

Lemma loaded_sound (E : env) st : sound (page_loaded (R := R) E st).
Proof.
  constructor; [|reflexivity|reflexivity|discriminate|discriminate]. constructor; [constructor|intros t []|intros []; discriminate|intros t k []].
Qed.

Definition with_labels (b : bool) (p : phase) : phase :=
  Phase (p_connected p) (p_client p) (p_inhibit p) b (p_dialog p) (p_root p) (p_close p) (p_wait p).

(** The element a label is for. *)
Definition target (l : string * string * list string) : option string :=
  let '(_, htmlFor, children) := l in
  if negb (String.eqb htmlFor "") then Some htmlFor else match children with child :: _ => Some child | [] => None end.

Definition is_target (id : string) (l : string * string * list string) : bool :=
  match target l with Some t => String.eqb id t | None => false end.

Lemma setup_run l u : exists d, setup_label l u = (Ret tt, set_dom d u) /\ (forall id, classes (d id) = classes (dom u id)) /\
  (forall id, label (dom u id) <> None \/ is_target id l = true -> label (d id) <> None).
Proof.
  destruct l as [[name htmlFor] children]. unfold setup_label, is_target, target.
  assert (Hone : forall e, let d := upd e (set_label (Some name)) (dom u) in
    (forall id, classes (d id) = classes (dom u id)) /\ (forall id, label (dom u id) <> None \/ String.eqb id e = true -> label (d id) <> None)).
  { intros e. cbv zeta. unfold upd. split; intros id; destruct (String.eqb id e); try reflexivity; cbn; intros [Hl|Hl]; try discriminate; exact Hl. }
  destruct (negb (String.eqb htmlFor "")); [|destruct children as [|child rest]].
  - eexists. split; [reflexivity|]. apply Hone.
  - exists (dom u). split; [now destruct u|]. split; [reflexivity|]. intros id [Hl|Hl]; [exact Hl|discriminate].
  - eexists. split; [reflexivity|]. apply Hone.
Qed.

Lemma setup_all ls : forall u, exists d, each setup_label ls u = (Ret tt, set_dom d u) /\ (forall id, classes (d id) = classes (dom u id)) /\
  (forall id, label (dom u id) <> None \/ existsb (is_target id) ls = true -> label (d id) <> None).
Proof.
  induction ls as [|l ls IH]; intros u; cbn [each existsb].
  - exists (dom u). split; [now destruct u|]. split; [reflexivity|]. intros id [Hl|Hl]; [exact Hl|discriminate].
  - destruct (setup_run l u) as (d1 & E1 & C1 & L1). rewrite (bind_run _ _ _ _ _ E1). destruct (IH (set_dom d1 u)) as (d2 & E2 & C2 & L2).
    exists d2. split; [exact E2|]. split; [intros id; rewrite C2; apply C1|]. intros id Hid. apply L2. cbn [dom set_dom].
    destruct Hid as [Hid|Hid]; [left; apply L1; now left|]. apply orb_true_iff in Hid as [Hid|Hid]; [left; apply L1; now right|now right].
Qed.

Lemma sound_classes u d : (forall id, classes (d id) = classes (dom u id)) -> sound u ->
  sound (set_dom d u) /\ phase_of (set_dom d u) = with_labels (all_labelled (set_dom d u)) (phase_of u).
Proof.
  intros Hd [[H0' H1 H2 H3] Hp Hs Hc Hw].
  assert (Hcls : forall l, cls l (set_dom d u) = cls l u) by (intros l; apply map_ext; intros p; unfold holds, has_class; cbn [dom set_dom]; now rewrite Hd).
  assert (Hpend : forall k, pend k (set_dom d u) = pend k u) by (intros []; reflexivity). split.
  - constructor; rewrite ?Hcls, ?Hpend; auto. constructor; auto.
  - unfold phase_of at 1. rewrite !Hcls, !Hpend. reflexivity.
Qed.

Lemma labels_run u : sound u -> exists u', setupSettingLabels u = (Ret tt, u') /\ sound u' /\ phase_of u' = with_labels true (phase_of u).
Proof.
  intros Hu. destruct (setup_all labels u) as (d & E & C & L). exists (set_dom d u). split; [exact E|].
  destruct (sound_classes u d C Hu) as [H1 P1]. split; [exact H1|]. rewrite P1. f_equal. unfold all_labelled.
  apply forallb_forall. intros n Hn. unfold labelled. cbn [dom set_dom].
  assert (Ht : existsb (is_target (setting n)) labels = true) by (repeat destruct Hn as [<-|Hn]; try destruct Hn; reflexivity).
  specialize (L (setting n) (or_intror Ht)). now destruct (label (d (setting n))).
Qed.

Lemma init_settings (E : env) u u1 : sound u -> UI.initSettings E u = (Ret tt, u1) ->
  sound u1 /\ phase_of u1 = with_labels true (phase_of u).
Proof.
  intros Hu. assert (Hpre : static (each (fun l => addOption (setting "logging") (units l)) ["error"; "warn"; "info"; "debug"]%string)).
  { apply static_each. intros l. unfold addOption. apply static_elem. intros e. now destruct (control e). }
  unfold UI.initSettings, bind at 1. specialize (Hpre u). destruct (each _ _ u) as [[[]|x|] v1]; try discriminate. destruct (same_free _ _ Hpre Hu) as [S1 Q1].
  unfold bind at 1. assert (H2 := static_initSetting E "logging" (Str (units "warn")) v1).
  destruct (initSetting E "logging" (Str (units "warn")) v1) as [[a|x|] v2]; try discriminate. destruct (same_free _ _ H2 S1) as [S2 Q2].
  unfold bind at 1. assert (H3 := static_getSetting "logging" v2). destruct (getSetting "logging" v2) as [[b|x|] v3]; try discriminate.
  destruct (same_free _ _ H3 S2) as [S3 Q3]. unfold bind at 1. set (rest := each _ _).
  assert (H4 : static rest) by (apply static_each; intros [n v]; apply static_bind; [apply static_initSetting|intros _; leaf]). specialize (H4 v3).
  destruct (rest v3) as [[[]|x|] v4]; try discriminate. destruct (same_free _ _ H4 S3) as [S4 Q4].
  destruct (labels_run v4 S4) as (v5 & E5 & S5 & P5). rewrite E5. intros [= <-]. split; [exact S5|]. cbn [snd] in *. rewrite P5, Q4, Q3, Q2, Q1. reflexivity.
Qed.

(** No client, none coming, and nothing shown: the start, too. *)
Record blank u : Prop := { blank_free : free u; blank_root : p_root (phase_of u) = nothing }.

Lemma blank_quiet {A} (m : U A) u : quiet_op m -> blank u -> blank (snd (m u)).
Proof.
  intros Hm [Hf Hr]. constructor; [now apply free_quiet|]. destruct (Hm u (good_sound _ (free_good _ Hf))) as [_ [E|E]]; rewrite E; exact Hr.
Qed.

Lemma blank_bind {A B} (m : U A) (k : A -> U B) u : quiet_op m -> (forall a u', blank u' -> good (snd (k a u'))) -> blank u -> good (snd (bind m k u)).
Proof.
  intros Hm Hk Hu. assert (Hb := blank_quiet m u Hm Hu). unfold bind. destruct (m u) as [[a|e|] u']; cbn [snd] in *; [now apply Hk|apply Hb|apply Hb].
Qed.

Lemma blank_visual (E : env) u : blank u -> exists u', updateVisualState E Init u = (Ret tt, u') /\ blank u'.
Proof.
  intros [[[Hs Hp] Hc Hw] Hr]. destruct (ok_none _ _ Hp Hc) as [Hco _].
  destruct (visual_down E Init u Hs Hco (ok_labels _ _ Hp)) as (u' & E' & H' & P'). exists u'. split; [exact E'|].
  constructor; [constructor; [constructor; [exact H'|]| |]|]; rewrite P'; auto.
  constructor; cbn [with_root keep_open p_labels p_close p_client p_connected p_root p_wait p_dialog p_inhibit]; auto; [apply (ok_held _ _ Hp)|apply (ok_labels _ _ Hp)|].
  intros c Ec. congruence.
Qed.

Lemma started_good (E : env) st u0 : start E (page_loaded E st) = (Ret tt, u0) -> good u0.
Proof.
  intros Hst. unfold start, bind at 1 in Hst. destruct (UI.initSettings E (page_loaded E st)) as [[[]|x|] u1] eqn:E1; try discriminate.
  destruct (init_settings E _ u1 (loaded_sound E st) E1) as [S1 P1].
  assert (F1 : blank u1).
  { constructor; [constructor; [constructor; [exact S1|]| |]|]; rewrite P1; try reflexivity. constructor; try reflexivity; [|intros c [=]].
    intros _. split; [reflexivity|]. left. split; reflexivity. }
  apply (f_equal snd) in Hst. cbn [snd] in Hst. rewrite <- Hst. clear Hst.
  apply blank_bind; [destruct (isSecureContext E); [apply static_quiet; leaf|apply quiet_status]|intros _ u2 F2|exact F1].
  apply blank_bind; [apply static_quiet; leaf|intros pos u3 F3|exact F2].
  apply blank_bind; [destruct (value_eqb pos _); apply static_quiet; [apply static_side|leaf]|intros _ u4 F4|exact F3].
  apply blank_bind; [unfold initFullscreen; destruct (_ && _); apply static_quiet; leaf|intros _ u5 F5|exact F4].
  apply blank_bind; [apply static_quiet, static_reset|intros _ u6 F6|exact F5].
  apply blank_bind; [unfold openControlbar; apply static_quiet; leaf|intros _ u7 F7|exact F6].
  destruct (blank_visual E u7 F7) as (u8 & E8 & F8). rewrite (seq_snd _ _ _ _ E8).
  apply blank_bind; [apply static_quiet; leaf|intros _ u9 F9|exact F8].
  apply blank_bind; [apply static_quiet; leaf|intros auto ua Fa|exact F9]. destruct (_ || _).
  - apply connect_good, Fa.
  - destruct Fa as [[[Hs Hp] Hc Hw] Hr]. destruct (open_dialog ua Hs) as (ub & Eb & Sb & Pb). rewrite Eb. cbn [snd]. constructor; [exact Sb|]. rewrite Pb.
    destruct (ok_none _ _ Hp Hc) as [Hco _].
    constructor; cbn [with_dialog p_labels p_close p_client p_connected p_root p_wait p_dialog p_inhibit];
      [apply (ok_held _ _ Hp)|apply (ok_labels _ _ Hp)|apply (ok_close _ _ Hp)|intros _; split; [exact Hco|left; split; assumption]|intros c Ec; congruence].
Qed.

Lemma history_good may u0 u : (held = true -> forall e, may e -> e <> EvConnect) -> good u0 -> history may u0 u -> good u.
Proof. intros Hheld Hg Hh. induction Hh as [|u u' Hh IH Hs]; [exact Hg|]. now apply (step_good may u). Qed.

(** ** What the user sees *)

Definition opened u (p : string * string) : bool := holds u (fst p, "noVNC_open"%string).
Definition selected u (p : string * string) : bool := holds u (snd p, "noVNC_selected"%string).
Definition shows u (c : string) : bool := holds u (root, c).
Definition status u (c : string) : bool := holds u ("noVNC_status"%string, c).
Definition runs u (c : callback) : Prop := exists t, In t (timers u) /\ t_callback t = c.

(** The class that stands for the state of the client: one while it connects, one
    while it is connected, one while it disconnects, and none without a client. *)
Definition state_shown u (c : string) : bool :=
  match rfb u with
  | Some r => String.eqb c (match c_state r with
      | Lifecycle.Connecting => "noVNC_connecting"
      | Lifecycle.Connected => "noVNC_connected"
      | _ => "noVNC_disconnecting"
      end)
  | None => false
  end.

Record consistent u : Prop := {
  one_panel : forall p q, In p panels -> In q panels -> opened u p = true -> opened u q = true -> p = q;
  panel_button : forall p, In p panels -> selected u p = opened u p;
  status_leaves : status u "noVNC_open" = true -> status u "noVNC_status_error" = false -> runs u HideStatus;
  error_stays : status u "noVNC_open" = true -> status u "noVNC_status_error" = true -> ~ runs u HideStatus;
  shows_connected : shows u "noVNC_connected" = connected u;
  shows_state : forall c, In c state_classes -> c <> "noVNC_reconnecting"%string -> shows u c = state_shown u c;
  shows_again : shows u "noVNC_reconnecting" = true -> rfb u = None /\ connected u = false /\ inhibitReconnect u = false;
  bar_closes : runs u CloseControlbar -> connected u = true;
  client_awaited : runs u Reconnect -> rfb u = None /\ shows u "noVNC_reconnecting" = true /\ inhibitReconnect u = false;
  dialog_free : holds u ("noVNC_connect_dlg", "noVNC_open")%string = true -> rfb u = None
}.

Lemma runs_pend k c u : kind_of c = Some k -> (forall c', kind_of c' = Some k -> c' = c) -> runs u c <-> pend k u <> Idle.
Proof.
  intros Hk Hone. split.
  - intros (t & Ht & Hc) E. assert (Hin : In t (filter (is_kind k) (timers u))).
    { apply filter_In. split; [exact Ht|]. unfold is_kind. rewrite Hc, Hk. now destruct k. }
    unfold pend in E. destruct (filter (is_kind k) (timers u)) as [|a [|b l]]; [destruct Hin| |discriminate].
    destruct (field k u); [destruct (_ =? _)|]; discriminate.
  - intros E. unfold pend in E. destruct (filter (is_kind k) (timers u)) as [|t l] eqn:Ef; [now destruct E|].
    assert (Hin : In t (filter (is_kind k) (timers u))) by (rewrite Ef; now left). apply filter_In in Hin as [Ht Hkt].
    exists t. split; [exact Ht|]. apply Hone. unfold is_kind in Hkt. destruct (kind_of (t_callback t)) as [k'|]; [|discriminate].
    destruct (kind_eqb_spec k k'); [congruence|discriminate].
Qed.

Lemma panels_consistent u : sound u ->
  (forall p q, In p panels -> In q panels -> opened u p = true -> opened u q = true -> p = q) /\ (forall p, In p panels -> selected u p = opened u p).
Proof.
  intros Hs. assert (Hok := sound_panels _ Hs). unfold cls, panel_marks in Hok. cbn [map panels_ok] in Hok. rewrite !andb_true_iff in Hok.
  destruct Hok as [[[[E1 E2] E3] E4] Hn]. apply eqb_prop in E1, E2, E3, E4. split.
  - intros p q Hp Hq Ho Hq'. unfold opened in *.
    repeat destruct Hp as [<-|Hp]; try destruct Hp; repeat destruct Hq as [<-|Hq]; try destruct Hq; try reflexivity; cbn [fst] in *;
      rewrite Ho, Hq' in Hn; exfalso; repeat match type of Hn with context [holds u ?m] => destruct (holds u m) end; discriminate Hn.
  - intros p Hp. unfold selected, opened. repeat destruct Hp as [<-|Hp]; try destruct Hp; cbn [fst snd]; congruence.
Qed.

Lemma status_consistent u : sound u -> status u "noVNC_open" = true ->
  (status u "noVNC_status_error" = false -> runs u HideStatus) /\ (status u "noVNC_status_error" = true -> ~ runs u HideStatus).
Proof.
  intros Hs Ho. assert (Hok := sound_status _ Hs). unfold status in *. unfold cls, status_marks in Hok. cbn [map status_ok] in Hok. rewrite Ho in Hok.
  apply andb_true_iff in Hok as [_ Hok]. assert (Hrun := runs_pend KStatus HideStatus u eq_refl (fun c => ltac:(destruct c; (discriminate || reflexivity)))).
  split; intros He; rewrite He in Hok; rewrite Hrun; destruct (pend KStatus u); (discriminate || congruence).
Qed.

Lemma root_shows u : p_root (phase_of u) = [shows u "noVNC_connecting"; shows u "noVNC_connected"; shows u "noVNC_disconnecting"; shows u "noVNC_reconnecting"]%string.
Proof. reflexivity. Qed.

Lemma dialog_shows u : p_dialog (phase_of u) = [holds u ("noVNC_connect_dlg", "noVNC_open")%string].
Proof. reflexivity. Qed.

(** The states of the page, as the phase has them. *)
Lemma root_cases u : phase_ok held (phase_of u) ->
  (exists r, rfb u = Some r /\ connected u = is_connected (c_state r) /\ p_root (phase_of u) = visual_root (shown_of (c_state r)) /\ pend KReconnect u = Idle) \/
  rfb u = None /\ connected u = false /\
    (p_root (phase_of u) = nothing /\ pend KReconnect u = Idle \/ p_root (phase_of u) = visual_root Reconnecting /\ inhibitReconnect u = false).
Proof.
  intros Hp. destruct (rfb u) as [r|] eqn:Er.
  - assert (Ec : p_client (phase_of u) = Some (c_state r)) by (cbn; now rewrite Er). destruct (ok_some _ _ Hp _ Ec) as (Hw & _ & Hc & Hr).
    left. exists r. auto.
  - assert (Ec : p_client (phase_of u) = None) by (cbn; now rewrite Er). destruct (ok_none _ _ Hp Ec) as [Hc [[Hr Hw]|(Hr & _ & Hi & _)]]; auto 8.
Qed.

Lemma root_classes u l : p_root (phase_of u) = l -> forall c, In c state_classes ->
  shows u c = match l with
    | [a; b; d; r] => if String.eqb c "noVNC_connecting" then a else if String.eqb c "noVNC_connected" then b
                      else if String.eqb c "noVNC_disconnecting" then d else r
    | _ => false
    end.
Proof. intros <- c Hc. rewrite root_shows. repeat destruct Hc as [<-|Hc]; try destruct Hc; reflexivity. Qed.

Lemma good_consistent u : good u -> consistent u.
Proof.
  intros [Hs Hp]. destruct (panels_consistent u Hs) as [C1 C2].
  assert (Hcl := fun l (E : p_root (phase_of u) = l) => root_classes u l E).
  assert (Hrun := runs_pend KReconnect Reconnect u eq_refl (fun c => ltac:(destruct c; (discriminate || reflexivity)))).
  assert (Hclose := runs_pend KClose CloseControlbar u eq_refl (fun c => ltac:(destruct c; (discriminate || reflexivity)))).
  assert (Hcases := root_cases u Hp). constructor; auto.
  - intros Ho. now apply status_consistent.
  - intros Ho. now apply status_consistent.
  - destruct Hcases as [(r & _ & -> & Hr & _)|(_ & -> & [[Hr _]|[Hr _]])]; rewrite (Hcl _ Hr) by (cbn; auto); [now destruct (c_state r)|reflexivity..].
  - intros c Hc Hne. unfold state_shown. destruct Hcases as [(r & -> & _ & Hr & _)|(-> & _ & [[Hr _]|[Hr _]])]; rewrite (Hcl _ Hr) by exact Hc.
    + destruct (c_state r); repeat destruct Hc as [<-|Hc]; try destruct Hc; reflexivity || now destruct Hne.
    + repeat destruct Hc as [<-|Hc]; try destruct Hc; reflexivity.
    + repeat destruct Hc as [<-|Hc]; try destruct Hc; reflexivity || now destruct Hne.
  - destruct Hcases as [(r & _ & _ & Hr & _)|(En & Ec & [[Hr _]|[Hr Hi]])]; rewrite (Hcl _ Hr) by (cbn; auto); [destruct (c_state r); discriminate|discriminate|auto].
  - rewrite Hclose. intros Hx. destruct (connected u) eqn:Ec; [reflexivity|]. now destruct (Hx (ok_close _ _ Hp Ec)).
  - rewrite Hrun. intros Hx. destruct Hcases as [(r & _ & _ & _ & Hw)|(En & Ec & [[_ Hw]|[Hr Hi]])]; [now destruct Hx|now destruct Hx|].
    split; [exact En|]. split; [|exact Hi]. now rewrite (Hcl _ Hr) by (cbn; auto).
  - intros Hd. destruct (rfb u) as [r|] eqn:Er; [|reflexivity]. assert (Ec : p_client (phase_of u) = Some (c_state r)) by (cbn; now rewrite Er).
    destruct (ok_some _ _ Hp _ Ec) as (_ & Hdl & _). rewrite dialog_shows, Hd in Hdl. discriminate.
Qed.

End Page.

Section Results.
Context {R : Type} `{ClientOk R}.
Implicit Types u : ui R.

(** C33.  Once the page has started, whatever the user, the timers and the client do
    and in whatever order, exceptions included: at most one panel is open and
    its button alone is selected; a status other than an error has a timer that
    takes it away, an error has none; exactly the state of the client is shown,
    connecting, connected or disconnecting as the client is, and none of the
    three without a client; that a connection is tried again is only shown and
    only awaited without a client; and the control bar closes by itself only
    while connected. *)
Theorem page_consistent (E : env) st u0 u :
  start E (page_loaded E st) = (Ret tt, u0) -> history any_event u0 u -> consistent u.
Proof.
  intros Hst Hh. apply (good_consistent false), (history_good false any_event u0); [discriminate|exact (started_good false E st u0 Hst)|exact Hh].
Qed.

(** Every event but that of a new connection. *)
Definition not_connected (e : client_event) : Prop := e <> EvConnect.

Lemma disconnect_inhibits (E : env) u u1 : disconnect E u = (Ret tt, u1) -> good false u -> inhibitReconnect u1 = true.
Proof.
  intros Hd [Hs Hp]. destruct (rfb u) as [r|] eqn:Er.
  2: { unfold disconnect, order_rfb, ask_rfb in Hd. rewrite !bind_assoc_run, theRfb_run, Er in Hd. discriminate. }
  destruct (ask_disconnects u r Er Hs) as [H1 P1]. unfold disconnect in Hd. destruct (order_rfb Disconnect u) as [[[]|e|] u2] eqn:Eo;
    cbn [snd] in H1, P1; [|unfold bind at 1 in Hd; rewrite Eo in Hd; discriminate..].
  rewrite (bind_run _ _ _ _ _ Eo) in Hd. set (u3 := set_inhibitReconnect true (set_connected false u2)) in *.
  rewrite (bind_run (modify _) _ _ tt (set_connected false u2) eq_refl), (bind_run (modify _) _ _ tt u3 eq_refl) in Hd.
  destruct (sound_fields u2 u3) as [H3 P3]; try reflexivity; try exact H1; [auto|].
  destruct (visual_down E Disconnecting u3) as (u4 & E4 & H4 & P4); [exact H3|reflexivity|rewrite P3, P1; exact (ok_labels _ _ Hp)|].
  rewrite E4 in Hd. injection Hd as <-. exact (eq_trans (f_equal p_inhibit P4) (f_equal p_inhibit P3)).
Qed.

(** C34.  After the user has disconnected the page does not connect by itself,
    whatever comes, until a connection that the user asks for is there. *)
Theorem disconnect_is_final (E E' : env) st u0 u u1 u2 :
  start E (page_loaded E st) = (Ret tt, u0) -> history any_event u0 u -> disconnect E' u = (Ret tt, u1) -> history not_connected u1 u2 ->
  inhibitReconnect u2 = true /\ ~ runs u2 Reconnect /\ shows u2 "noVNC_reconnecting" = false.
Proof.
  intros Hst Hh Hd Hh'. assert (Hg : good false u) by (apply (history_good false any_event u0); [discriminate|exact (started_good false E st u0 Hst)|exact Hh]).
  assert (Hi := disconnect_inhibits E' u u1 Hd Hg). assert (Hg1 : good false u1) by (assert (Hk := disconnect_keeps false E' u Hg); now rewrite Hd in Hk).
  assert (Ht : good true u1) by (destruct Hg1 as [Hs [_ G1 G2 G3 G4]]; constructor; [exact Hs|constructor; auto]).
  assert (Hg2 : good true u2) by (apply (history_good true not_connected u1); [intros _ e He; exact He|exact Ht|exact Hh']).
  assert (Hi2 : inhibitReconnect u2 = true) by exact (ok_held _ _ (good_phase _ _ Hg2) eq_refl).
  assert (Hc := good_consistent true u2 Hg2). split; [exact Hi2|]. split.
  - intros Hr. destruct (client_awaited _ Hc Hr) as (_ & _ & Hx). congruence.
  - destruct (shows u2 "noVNC_reconnecting") eqn:Er; [|reflexivity]. destruct (shows_again _ Hc Er) as (_ & _ & Hx). congruence.
Qed.
End Results.
End UICorrect.
