(* ===== verification/UiTyping.v ===== *)
(** The on-screen keyboard of the page: what is typed, corrected and erased in
    its field reaches the server as keys. *)

From Stdlib Require Import ZArith List Lia Bool String QArith.
From S2P Require Import Prelude Utf8 Webutil Keytables Lifecycle Ui UiFacts UiCorrect.
Import ListNotations JS JSFacts WebUtil UI UIFacts UICorrect.
Open Scope Z_scope.
Open Scope code_scope.

Module UITyping.

(** A client whose orders are kept, in the order they came, and none refused. *)
Class Recorded (R : Type) `{Client R} := {
  sent : R -> list order;
  ask_done o r : fst (fst (ask o r)) = Ret tt;
  ask_sent o r : sent (snd (fst (ask o r))) = sent r ++ [o]
}.

(** What an order does to the line of keysyms that the server has. *)
Definition hit (line : list Z) (o : order) : list Z :=
  match o with
  | SendKey k _ None => if k =? XK_BackSpace then removelast line else line ++ [k]
  | _ => line
  end.

Definition keys (t : list Z) : list Z := map Keytables.lookup t.

(** The characters at the start of both texts. *)
Fixpoint common (old new : list Z) : nat :=
  match old, new with
  | a :: old, b :: new => if a =? b then S (common old new) else O
  | _, _ => O
  end.

(** The end of the old text taken back, that of the new one typed. *)
Definition retype (old new line : list Z) : list Z :=
  firstn (List.length line - (List.length old - common old new)) line ++ keys (skipn (common old new) new).

(** ** Texts *)

Lemma common_le old : forall new, (common old new <= List.length old)%nat /\ (common old new <= List.length new)%nat.
Proof.
  induction old as [|a old IH]; intros [|b new]; cbn; [lia..|]. destruct (a =? b); [|lia]. cbn. destruct (IH new). lia.
Qed.

Lemma common_first old : forall new, firstn (common old new) old = firstn (common old new) new.
Proof.
  induction old as [|a old IH]; intros [|b new]; try reflexivity. cbn [common]. destruct (Z.eqb_spec a b) as [->|]; [|reflexivity].
  cbn [firstn]. f_equal. apply IH.
Qed.

Lemma retype_end pre old new : retype old new (pre ++ keys old) = pre ++ keys new.
Proof.
  unfold retype, keys. destruct (common_le old new) as [H1 H2]. rewrite length_app, length_map.
  replace (_ - _)%nat with (List.length pre + common old new)%nat by lia. rewrite firstn_app_2, firstn_map, common_first, <- app_assoc, <- map_app.
  now rewrite firstn_skipn.
Qed.

Lemma last_cons_default {A} (a b : A) l d e : List.last (a :: b :: l) d = List.last (b :: l) e.
Proof. revert a b. induction l as [|c l IH]; intros a b; [reflexivity|]. exact (IH b c). Qed.

Lemma zget_skip (l : list Z) i : zget l (Z.of_nat i) = nth_error l i.
Proof. unfold zget. destruct (Z.ltb_spec (Z.of_nat i) 0); [lia|]. now rewrite Nat2Z.id. Qed.

Lemma nth_skip {A} (l : list A) : forall i, match nth_error l i with Some a => skipn i l = a :: skipn (S i) l | None => skipn i l = [] end.
Proof. induction l as [|a l IH]; intros [|i]; cbn; auto. apply IH. Qed.

Lemma first_difference_common n : forall i old new, first_difference n (Z.of_nat i) new old =
  let c := common (skipn i old) (skipn i new) in
  if Nat.leb n c || (Nat.eqb (List.length (skipn i old)) c && Nat.eqb (List.length (skipn i new)) c) then None else Some (Z.of_nat (i + c)).
Proof.
  induction n as [|n IH]; intros i old new; [reflexivity|]. cbn [first_difference]. rewrite !zget_skip.
  assert (Ho := nth_skip old i). assert (Hn := nth_skip new i). replace (Z.of_nat i + 1) with (Z.of_nat (S i)) by lia.
  destruct (nth_error new i) as [b|], (nth_error old i) as [a|]; rewrite ?Ho, ?Hn; cbn [common List.length].
  - destruct (Z.eqb_spec b a) as [->|Hne].
    + rewrite Z.eqb_refl, IH. cbv zeta. change (Nat.leb (S n) (S ?c)) with (Nat.leb n c). rewrite Nat.add_succ_r. reflexivity.
    + destruct (Z.eqb_spec a b); [congruence|]. cbn. now rewrite Nat.add_0_r.
  - cbn. now rewrite Nat.add_0_r.
  - cbn. now rewrite Nat.add_0_r.
  - rewrite IH. assert (Hz : forall l : list Z, skipn i l = [] -> skipn (S i) l = []).
    { intros l Hl. apply skipn_all2. assert (Hx := length_skipn i l). rewrite Hl in Hx. cbn in Hx. lia. }
    rewrite (Hz _ Ho), (Hz _ Hn). cbn. now rewrite orb_true_r.
Qed.

(** What is taken back, and what is typed. *)
Lemma key_difference_common old new : let c := common old new in exists i, key_difference (zlen new) new old = (Z.of_nat (List.length old - c), i) /\
  Z.max 0 i = Z.of_nat (List.length new - c) /\ (i < 0 -> c = List.length new).
Proof.
  cbv zeta. destruct (common_le old new) as [H1 H2]. unfold key_difference, zlen.
  assert (E := first_difference_common (Z.to_nat (Z.min (Z.of_nat (List.length old)) (Z.of_nat (List.length new)))) 0 old new).
  cbn [Z.of_nat skipn] in E. rewrite E. cbv zeta.
  destruct (_ || _) eqn:Ec.
  - assert (common old new = Nat.min (List.length old) (List.length new)).
    { apply orb_true_iff in Ec as [Ec|Ec]; [apply Nat.leb_le in Ec; lia|]. apply andb_true_iff in Ec as [Ea Eb]. apply Nat.eqb_eq in Ea, Eb. lia. }
    eexists. split; [f_equal; lia|lia].
  - eexists. rewrite Nat.add_0_l. split; [f_equal; lia|lia].
Qed.

(** The orders that a correction gives. *)
Lemma hit_back n : forall line, fold_left hit (List.repeat (SendKey XK_BackSpace "Backspace" None) n) line = firstn (List.length line - n) line.
Proof.
  induction n as [|n IH]; intros line; [now rewrite Nat.sub_0_r, firstn_all|]. cbn [List.repeat fold_left hit]. rewrite Z.eqb_refl, IH.
  rewrite removelast_firstn_len, firstn_firstn, length_firstn. f_equal. lia.
Qed.

Lemma lookup_no_backspace c : (Keytables.lookup c =? XK_BackSpace) = false.
Proof.
  apply Z.eqb_neq. unfold Keytables.lookup. destruct (_ && _) eqn:Er; [apply andb_true_iff in Er as [_ Er]; apply Z.leb_le in Er; unfold XK_BackSpace; lia|].
  assert (Hall : forallb (fun p => negb (Z.eqb (snd p) XK_BackSpace)) Keytables.codepoints = true) by (vm_compute; reflexivity).
  destruct (Keytables.lookup_by Z.eqb Keytables.codepoints c) as [k|] eqn:El.
  - rewrite forallb_forall in Hall. unfold Keytables.lookup_by in El. destruct (find _ _) as [p|] eqn:Ef; [|discriminate]. injection El as <-.
    apply find_some in Ef as [Hin _]. apply Hall in Hin. now apply negb_true_iff, Z.eqb_neq in Hin.
  - unfold bor. intros Hx. assert (Hb : Z.testbit (Z.lor (toInt32 0x01000000) (toInt32 c)) 24 = Z.testbit XK_BackSpace 24) by now rewrite Hx.
    rewrite Z.lor_spec in Hb. discriminate.
Qed.

Lemma hit_keys t : forall line, fold_left hit (map (fun c => SendKey (Keytables.lookup c) "" None) t) line = line ++ keys t.
Proof.
  induction t as [|c t IH]; intros line; [now rewrite app_nil_r|]. cbn [map fold_left hit keys]. rewrite lookup_no_backspace, IH, <- app_assoc. reflexivity.
Qed.

Lemma typed_codes new c i : Z.max 0 i = Z.of_nat (List.length new - c) -> (c <= List.length new)%nat ->
  map (fun j => SendKey (keysym_at new j) "" None) (upto (zlen new - i) (zlen new)) = map (fun c => SendKey (Keytables.lookup c) "" None) (skipn c new).
Proof.
  intros Hi Hc. unfold upto, zlen. rewrite map_map. replace (Z.to_nat _) with (List.length new - c)%nat by lia.
  destruct (Z.ltb_spec i 0) as [Hneg|Hpos].
  - replace (List.length new - c)%nat with O by lia. rewrite skipn_all2 by lia. reflexivity.
  - replace (Z.of_nat (List.length new) - i) with (Z.of_nat c) by lia. clear Hi Hpos. revert c Hc. 
    intros c Hc. remember (List.length new - c)%nat as n eqn:En. revert c Hc En. induction n as [|n IH]; intros c Hc En.
    + rewrite skipn_all2 by lia. reflexivity.
    + assert (Hn := nth_skip new c). destruct (nth_error new c) as [a|] eqn:Ea; [|apply nth_error_None in Ea; lia].
      rewrite Hn. cbn [seq map]. f_equal.
      * unfold keysym_at. rewrite Z.add_0_r, zget_skip, Ea. reflexivity.
      * rewrite <- IH by lia. rewrite <- seq_shift, map_map. apply map_ext. intros k. do 2 f_equal. lia.
Qed.

(** ** Orders *)

Section Typing.
Context {R : Type} `{Recorded R}.
Abbreviation U := (M (ui R)).
Implicit Types u : ui R.
Definition board : string := "noVNC_keyboardinput".

(** The client is given orders that do [f] to the line; the field and what is
    remembered of it stay. *)
Record wrote (f : list Z -> list Z) u u' : Prop := {
  wrote_orders : exists r r' os, rfb u = Some r /\ rfb u' = Some r' /\ sent r' = sent r ++ os /\ forall line, fold_left hit os line = f line;
  wrote_memory : lastKeyboardinput u' = lastKeyboardinput u;
  wrote_field : dom u' board = dom u board
}.
Definition writes (f : list Z -> list Z) (m : U unit) : Prop := forall u, rfb u <> None -> exists u', m u = (Ret tt, u') /\ wrote f u u'.

Lemma wrote_client f u u' : wrote f u u' -> rfb u' <> None.
Proof. intros [(r & r' & os & _ & -> & _) _ _]. discriminate. Qed.

Lemma wrote_trans f g u u1 u2 : wrote f u u1 -> wrote g u1 u2 -> wrote (fun l => g (f l)) u u2.
Proof.
  intros [(r & r1 & os & E1 & E2 & E3 & E4) M1 F1] [(r1' & r2 & os' & E1' & E2' & E3' & E4') M2 F2].
  rewrite E2 in E1'. injection E1' as <-. constructor; [|congruence|congruence].
  exists r, r2, (os ++ os'). split; [exact E1|]. split; [exact E2'|]. split; [now rewrite E3', E3, app_assoc|].
  intros line. now rewrite fold_left_app, E4, E4'.
Qed.

Lemma wrote_same u u' r : rfb u = Some r -> rfb u' = rfb u -> lastKeyboardinput u' = lastKeyboardinput u -> dom u' board = dom u board -> wrote (fun l => l) u u'.
Proof. intros Er Er' Hl Hd. constructor; auto. exists r, r, []. rewrite Er', app_nil_r. auto. Qed.

Lemma writes_seq f g (m : U unit) (k : U unit) : writes f m -> writes g k -> writes (fun l => g (f l)) (m ;; k).
Proof.
  intros Hm Hk u Hu. destruct (Hm u Hu) as (u1 & E1 & W1). destruct (Hk u1 (wrote_client _ _ _ W1)) as (u2 & E2 & W2).
  exists u2. rewrite (bind_run _ _ _ _ _ E1). split; [exact E2|]. now apply (wrote_trans f g u u1).
Qed.

Lemma writes_ext f g (m : U unit) : (forall l, f l = g l) -> writes f m -> writes g m.
Proof.
  intros Hfg Hm u Hu. destruct (Hm u Hu) as (u' & Eu & [(r & r' & os & E1 & E2 & E3 & E4) M1 F1]). exists u'. split; [exact Eu|].
  constructor; auto. exists r, r', os. repeat split; auto. intros line. now rewrite E4.
Qed.

Lemma writes_nothing : writes (fun l => l) (ret tt).
Proof. intros u Hu. exists u. split; [reflexivity|]. destruct (rfb u) as [r|] eqn:Er; [|congruence]. now apply (wrote_same u u r). Qed.

Lemma writes_elem id f : id <> board -> writes (fun l => l) (onElem id f).
Proof.
  intros Hid u Hu. eexists. split; [reflexivity|]. destruct (rfb u) as [r|] eqn:Er; [|congruence]. apply (wrote_same u _ r); auto.
  cbn [dom set_dom]. unfold upd. destruct (String.eqb_spec board id); [congruence|reflexivity].
Qed.

Lemma asked o u : rfb u <> None -> exists n u', ask_rfb o u = (Ret (Ret tt, n), u') /\ wrote (fun l => hit l o) u u'.
Proof.
  intros Hu. unfold ask_rfb. rewrite theRfb_run. destruct (rfb u) as [r|] eqn:Er; [|congruence].
  assert (H1 := ask_done o r). assert (H2 := ask_sent o r). destruct (ask o r) as [[res r'] n]. cbn [fst snd] in H1, H2. subst res.
  exists n, (set_rfb (Some r') u). split; [reflexivity|]. constructor; [|reflexivity|reflexivity]. exists r, r', [o]. repeat split; auto.
Qed.

Lemma writes_with {A} f (m : U A) (k : A -> U unit) : (forall u, exists a, m u = (Ret a, u)) -> (forall a, writes f (k a)) -> writes f (bind m k).
Proof. intros Hm Hk u Hu. destruct (Hm u) as (a & Ea). rewrite (bind_run _ _ _ _ _ Ea). now apply Hk. Qed.

Lemma writes_theRfb f (k : R -> U unit) : (forall r, writes f (k r)) -> writes f (bind theRfb k).
Proof. intros Hk u Hu. rewrite theRfb_run. destruct (rfb u) as [r|] eqn:Er; [|congruence]. apply Hk. congruence. Qed.

Lemma writes_viewdrag : writes (fun l => l) updateViewDrag.
Proof.
  unfold updateViewDrag. apply writes_with; [intros u; now exists u|intros u]. destruct (negb (connected u)); [apply writes_nothing|].
  apply writes_theRfb. intros r. apply (writes_seq (fun l => l) (fun l => l)).
  - destruct (_ && _); [|apply writes_nothing]. intros u1 H1. destruct (asked (SetDragViewport false) u1 H1) as (n & u2 & E2 & W2).
    exists u2. now rewrite (bind_run _ _ _ _ _ E2).
  - apply writes_theRfb. intros r'. apply (writes_seq (fun l => l) (fun l => l)); [destruct (dragViewport r'); now apply writes_elem|].
    apply (writes_seq (fun l => l) (fun l => l)); [destruct (clipViewport r')|]; now apply writes_elem.
Qed.

Lemma writes_viewdrags n : writes (fun l => l) (repeatedly n updateViewDrag).
Proof. induction n as [|n IH]; cbn [repeatedly]; [apply writes_nothing|]. apply (writes_seq (fun l => l) (fun l => l)); [apply writes_viewdrag|apply IH]. Qed.

Lemma writes_order o : writes (fun l => hit l o) (order_rfb o).
Proof.
  intros u Hu. unfold order_rfb. destruct (asked o u Hu) as (n & u1 & E1 & W1). rewrite (bind_run _ _ _ _ _ E1). cbn [fst snd].
  destruct (writes_viewdrags n u1 (wrote_client _ _ _ W1)) as (u2 & E2 & W2). exists u2. rewrite (bind_run _ _ _ _ _ E2). split; [reflexivity|].
  now apply (wrote_trans (fun l => hit l o) (fun l => l) u u1 u2).
Qed.

Lemma writes_repeatedly o n : writes (fun l => fold_left hit (List.repeat o n) l) (repeatedly n (order_rfb o)).
Proof. induction n as [|n IH]; cbn [repeatedly List.repeat fold_left]; [apply writes_nothing|]. apply (writes_seq (fun l => hit l o) _); [apply writes_order|exact IH]. Qed.

Lemma writes_each {A} (o : A -> order) l : writes (fun line => fold_left hit (map o l) line) (each (fun a => order_rfb (o a)) l).
Proof. induction l as [|a l IH]; cbn [each map fold_left]; [apply writes_nothing|]. apply (writes_seq (fun l => hit l (o a)) _); [apply writes_order|exact IH]. Qed.

(** What the browser makes of the text that is always there. *)
Definition filler u : list Z := value_of (assign_value (zrep (defaultKeyboardinputLen - 1) 95) (dom u board)).

(** What the page remembers after a text: the text, unless it put a new one
    into the field. *)
Definition remembered u (t : list Z) : list Z := if (2 * defaultKeyboardinputLen <? zlen t) || (zlen t <? 1) then filler u else t.

Lemma field_reset_run u : exists u', keyboardinputReset u = (Ret tt, u') /\ lastKeyboardinput u' = Some (filler u) /\ rfb u' = rfb u /\
  dom u' board = assign_value (zrep (defaultKeyboardinputLen - 1) 95) (dom u board).
Proof.
  eexists. split; [reflexivity|]. cbn [lastKeyboardinput set_lastKeyboardinput rfb dom set_dom]. unfold upd. rewrite String.eqb_refl.
  repeat split.
Qed.

Lemma input_step sel u old : rfb u <> None -> lastKeyboardinput u = Some old -> old <> [] ->
  let t := value_of (dom u board) in match sel with Some s => s <= zlen t | None => True end ->
  exists u', keyInput sel u = (Ret tt, u') /\ lastKeyboardinput u' = Some (remembered u t) /\ value_of (dom u' board) = remembered u t /\
    control (dom u' board) = control (dom u board) /\
    exists r r' os, rfb u = Some r /\ rfb u' = Some r' /\ sent r' = sent r ++ os /\ forall line, fold_left hit os line = retype old t line.
Proof.
  intros Hu Hl Ho t Hsel. unfold keyInput, with_rfb. rewrite (bind_run get _ u u u eq_refl). destruct (rfb u) as [r0|] eqn:Er0; [|congruence].
  rewrite (bind_run (getElement _) _ u _ u eq_refl), (bind_run get _ u u u eq_refl), Hl. fold board.
  rewrite (bind_run _ _ u tt u) by (destruct old; [congruence|reflexivity]). rewrite (bind_run get _ u u u eq_refl), Hl. fold t.
  replace (match sel with Some s => Z.max s (zlen t) | None => zlen t end) with (zlen t) by (destruct sel; lia).
  destruct (key_difference_common old t) as (i & -> & Hi & _). rewrite Nat2Z.id.
  assert (W := writes_seq _ _ _ _ (writes_repeatedly (SendKey XK_BackSpace "Backspace" None) (List.length old - common old t))
    (writes_each (fun j => SendKey (keysym_at t j) "" None) (upto (zlen t - i) (zlen t)))).
  cbv beta in W. rewrite (typed_codes t (common old t) i Hi) in W by apply common_le.
  destruct (W u) as (u1 & E1 & [(r & r' & os & F1 & F2 & F3 & F4) M1 D1]); [congruence|].
  rewrite <- bind_assoc_run, (bind_run _ _ _ _ _ E1). assert (Ef : filler u1 = filler u) by (unfold filler; now rewrite D1).
  assert (Hos : forall line, fold_left hit os line = retype old t line) by (intros line; now rewrite F4, hit_back, hit_keys).
  unfold remembered. rewrite <- Ef. destruct (field_reset_run u1) as (u2 & E2 & L2 & R2 & D2).
  assert (Hk : control (dom u2 board) = control (dom u board)).
  { rewrite D2, D1. unfold assign_value. destruct (control (dom u board)) eqn:Ek; exact Ek. }
  destruct (2 * defaultKeyboardinputLen <? zlen t); [|destruct (zlen t <? 1)]; cbn [orb].
  - exists u2. split; [exact E2|]. split; [exact L2|]. split; [rewrite D2; reflexivity|]. split; [exact Hk|]. exists r, r', os. rewrite R2, <- Er0; auto.
  - rewrite (bind_run _ _ _ _ _ E2). eexists. split; [reflexivity|]. split; [exact L2|]. split; [cbn [dom set_nextTimer set_timers set_activeElement]; rewrite D2; reflexivity|].
    split; [exact Hk|]. exists r, r', os. cbn [rfb set_nextTimer set_timers set_activeElement]. rewrite R2, <- Er0; auto.
  - eexists. split; [reflexivity|]. split; [reflexivity|]. split; [cbn [dom set_lastKeyboardinput]; now rewrite D1|]. split; [cbn [dom set_lastKeyboardinput]; now rewrite D1|]. exists r, r', os. rewrite <- Er0; auto.
Qed.

(** The user, or the input method, puts a text into the field, with the caret at
    some place of it; some browsers do not tell where. *)
Definition input : Type := option Z * list Z.
Definition type_in (i : input) : U unit := onElem board (set_value_of (snd i)) ;; keyInput (fst i).
Definition caret_inside (i : input) : Prop := match fst i with Some s => s <= zlen (snd i) | None => True end.

(** What the field holds after a text: an empty one and a very long one are
    replaced with underscores, for the next key to erase or to follow. *)
Definition underscores : list Z := zrep (defaultKeyboardinputLen - 1) 95.
Definition kept (t : list Z) : Prop := 1 <= zlen t <= 2 * defaultKeyboardinputLen.
Definition in_field (t : list Z) : list Z := if (2 * defaultKeyboardinputLen <? zlen t) || (zlen t <? 1) then underscores else t.

(** The field and the line of the server, text after text. *)
Fixpoint field_after (old : list Z) (texts : list (list Z)) : list Z :=
  match texts with [] => old | t :: texts => field_after (in_field t) texts end.
Fixpoint line_after (old : list Z) (texts : list (list Z)) (line : list Z) : list Z :=
  match texts with [] => line | t :: texts => line_after (in_field t) texts (retype old t line) end.

Lemma in_field_kept t : kept t -> in_field t = t.
Proof.
  unfold kept, in_field. intros Ht. destruct (Z.ltb_spec (2 * defaultKeyboardinputLen) (zlen t)); [lia|]. now destruct (Z.ltb_spec (zlen t) 1); [lia|].
Qed.

Lemma in_field_some t : in_field t <> [].
Proof.
  unfold in_field. destruct (_ <? zlen t); [discriminate|]. destruct (Z.ltb_spec (zlen t) 1); cbn [orb]; [discriminate|]. intros ->. cbn in *. lia.
Qed.

Lemma field_after_kept texts : forall old, Forall kept texts -> field_after old texts = List.last texts old.
Proof.
  induction texts as [|t texts IH]; intros old Hk; [reflexivity|]. inversion Hk; subst. cbn [field_after]. rewrite in_field_kept, IH by assumption.
  destruct texts as [|t' texts]; [reflexivity|]. now rewrite (last_cons_default t t' texts old t).
Qed.

Lemma line_after_kept texts : forall old line, Forall kept texts ->
  line_after old texts (line ++ keys old) = line ++ keys (List.last texts old).
Proof.
  induction texts as [|t texts IH]; intros old line Hk; [reflexivity|]. inversion Hk; subst. cbn [line_after].
  rewrite in_field_kept, retype_end, IH by assumption. destruct texts as [|t' texts]; [reflexivity|]. now rewrite (last_cons_default t t' texts old t).
Qed.

Lemma filler_control u u' : control (dom u' board) = control (dom u board) -> filler u' = filler u.
Proof. intros Hc. unfold filler, assign_value. rewrite Hc. now destruct (control (dom u board)). Qed.

(** C35.  Whatever texts of any length follow each other in the field, typed on,
    corrected, emptied or pasted, with the caret anywhere in them: each makes the
    client take back as many keys as the field had characters after the common
    start of both texts and type the rest of the new one, the page remembers
    what the field holds, and an empty or very long text leaves underscores in
    it.  So as long as the texts are neither, a line of the server that ends in
    the keys of the first text ends in the keys of the last. *)
Theorem typing_followed inputs u r old : rfb u = Some r -> lastKeyboardinput u = Some old -> old <> [] ->
  filler u = underscores -> Forall caret_inside inputs ->
  exists u' r' os, each type_in inputs u = (Ret tt, u') /\ rfb u' = Some r' /\ sent r' = sent r ++ os /\
    lastKeyboardinput u' = Some (field_after old (map snd inputs)) /\
    (inputs <> [] -> value_of (dom u' board) = field_after old (map snd inputs)) /\
    (forall line, fold_left hit os line = line_after old (map snd inputs) line) /\
    (Forall kept (map snd inputs) -> forall line, fold_left hit os (line ++ keys old) = line ++ keys (List.last (map snd inputs) old)).
Proof.
  intros Hr Hl Ho Hf Hin. enough (Hex : exists u' r' os, each type_in inputs u = (Ret tt, u') /\ rfb u' = Some r' /\ sent r' = sent r ++ os /\
    lastKeyboardinput u' = Some (field_after old (map snd inputs)) /\ (inputs <> [] -> value_of (dom u' board) = field_after old (map snd inputs)) /\
    forall line, fold_left hit os line = line_after old (map snd inputs) line).
  { destruct Hex as (u' & r' & os & H1 & H2 & H3 & H4 & H5 & H6). exists u', r', os. do 6 (split; [assumption|]).
    intros Hk line. rewrite H6. now apply line_after_kept. }
  revert u r old Hr Hl Ho Hf. induction Hin as [|[sel t] inputs Ht Hin IH]; intros u r old Hr Hl Ho Hf.
  - exists u, r, []. cbn [each map field_after line_after fold_left]. rewrite app_nil_r. repeat (split; [now auto|]). now split.
  - set (u0 := set_dom (upd board (set_value_of t) (dom u)) u). assert (Hv : dom u0 board = set_value_of t (dom u board)) by (cbn [dom set_dom u0]; unfold upd; now rewrite String.eqb_refl).
    assert (Hf0 : filler u0 = underscores) by (rewrite <- Hf; apply filler_control; now rewrite Hv).
    destruct (input_step sel u0 old) as (u1 & E1 & L1 & V1 & K1 & (r0 & r1 & os & F1 & F2 & F3 & F4)); [cbn; congruence|exact Hl|exact Ho|rewrite Hv; exact Ht|].
    rewrite Hv in L1, V1, F4. cbn [value_of set_value_of] in L1, V1, F4. assert (Er : r0 = r) by (cbn in F1; congruence). subst r0.
    assert (Hm : remembered u0 t = in_field t) by (unfold remembered, in_field; now rewrite Hf0). rewrite Hm in L1, V1.
    destruct (IH u1 r1 (in_field t) F2 L1 (in_field_some t)) as (u2 & r2 & os2 & E2 & G1 & G2 & G3 & G4 & G5); [now rewrite (filler_control u0 u1 K1)|].
    assert (E0 : type_in (sel, t) u = (Ret tt, u1)) by exact E1.
    exists u2, r2, (os ++ os2). cbn [each map snd field_after line_after]. rewrite (bind_run _ _ _ _ _ E0). split; [exact E2|]. split; [exact G1|].
    split; [now rewrite G2, F3, app_assoc|]. split; [exact G3|]. split.
    + intros _. destruct inputs as [|i inputs]; [|apply G4; discriminate]. injection E2 as <-. exact V1.
    + intros line. now rewrite fold_left_app, F4, G5.
Qed.
End Typing.
End UITyping.
