(* ===== verification/UiBehaviour.v ===== *)
(** What the page does, piece by piece: the status line, a setting over a
    reload of the page, the keys of the on-screen keyboard, the handle of the
    control bar. *)

From Stdlib Require Import ZArith List Lia Bool String QArith Lqa.
From S2P Require Import Prelude Utf8 Webutil Keytables Lifecycle Ui UiFacts UiCorrect.
Import ListNotations JS JSFacts WebUtil UI UIFacts UICorrect.
Open Scope Z_scope.
Open Scope code_scope.

Module UIBehaviour.

(** ** The status line *)

(** What is shown after a message comes: nothing replaces an error, and nothing
    but a warning or an error a warning. *)
Definition status_after (shown : option (list Z * string)) (m : list Z * string) : option (list Z * string) :=
  match shown with
  | Some (t, ty) =>
      if String.eqb ty "error" then shown
      else if (String.eqb ty "warning" || String.eqb ty "warn") && String.eqb (snd m) "normal" then shown else Some m
  | None => Some m
  end.

Section Status.
Context {R : Type} `{ClientOk R} (E : env).
Implicit Types u : ui R.

(** The line shows that. *)
Definition line_shows (shown : option (list Z * string)) u : Prop :=
  match shown with
  | Some (t, ty) => cls status_marks u = (let '(e, w, n) := severity ty in [true; e; w; n]) /\ textContent (dom u "noVNC_status"%string) = t
  | None => status u "noVNC_open" = false
  end.

Lemma clear_dom id u : dom (snd (clearTimeout id u)) = dom u.
Proof. now destruct id. Qed.

Lemma arm_dom k c d u : dom (snd (arm k c d u)) = dom u.
Proof. rewrite arm_state. now destruct k. Qed.

Lemma show_replaces t ty u : keeps_status ty u = false -> line_shows (Some (t, ty)) (snd (showStatus t ty u)).
Proof.
  intros Hk. destruct (status_run t ty u Hk) as (u2 & E2 & Es). rewrite Es.
  destruct (text_run t ty (snd (clearTimeout (field KStatus u) u))) as (u2' & E2' & _ & Hc & Ht). rewrite E2 in E2'. injection E2' as <-.
  unfold line_shows. destruct (negb (String.eqb ty "error")); cbn [snd]; [rewrite arm_same_marks, arm_dom|]; auto.
Qed.

Lemma show_keeps t ty u : keeps_status ty u = true -> snd (showStatus t ty u) = u.
Proof.
  intros Ek. unfold showStatus. rewrite (bind_run get _ u u u eq_refl). unfold keeps_status, holds in Ek. cbn [fst snd] in Ek. cbv zeta. now rewrite Ek.
Qed.

Lemma show_one shown t ty u : line_shows shown u -> line_shows (status_after shown (t, ty)) (snd (showStatus t ty u)).
Proof.
  intros Hs. unfold status_after. destruct shown as [[t0 ty0]|]; cbn [snd].
  - destruct Hs as [Hc Ht]. assert (Ek : keeps_status ty u = String.eqb ty0 "error" || ((String.eqb ty0 "warning" || String.eqb ty0 "warn") && String.eqb ty "normal")).
    { unfold keeps_status. unfold cls, status_marks in Hc. cbn [map] in Hc. unfold severity in Hc.
      destruct (String.eqb ty0 "error"); [|destruct (_ || _)]; injection Hc as -> -> -> _; reflexivity. }
    destruct (String.eqb ty0 "error"); cbn [orb] in Ek; [rewrite show_keeps by exact Ek; split; assumption|].
    destruct (_ && String.eqb ty "normal"); [rewrite show_keeps by exact Ek; split; assumption|now apply show_replaces].
  - apply show_replaces. unfold keeps_status. unfold line_shows, status in Hs. now rewrite Hs.
Qed.

(** Messages that come one after the other, none hidden meanwhile: the line
    shows the first error, and before any error the last message that is not
    below a warning shown. *)
Theorem status_by_severity ms u : status u "noVNC_open" = false ->
  line_shows (fold_left status_after ms None) (snd (each (fun m => showStatus (fst m) (snd m)) ms u)).
Proof.
  change (status u "noVNC_open" = false) with (line_shows None u). generalize (@None (list Z * string)). revert u.
  induction ms as [|[t ty] ms IH]; intros u shown Hs; [exact Hs|]. cbn [each fold_left fst snd].
  destruct (status_ret t ty u) as (u1 & E1). rewrite (seq_snd _ _ _ _ E1). apply IH.
  assert (Hone := show_one shown t ty u Hs). now rewrite E1 in Hone.
Qed.
End Status.

(** ** The handle of the control bar *)

(** The handle stays inside the bar, ten pixels from its ends, and in its
    middle when the bar is too small for that. *)
Theorem handle_inside (E : env) y p : (0 < handle_height E)%Q -> (handle_height E <= bar_height E)%Q -> handle_position E y = Some p ->
  (0 <= p /\ p + handle_height E <= bar_height E)%Q /\
  (handle_height E + 20 <= bar_height E -> 10 <= p /\ p + handle_height E + 10 <= bar_height E)%Q.
Proof.
  intros Hh Hb. unfold handle_position. destruct (_ || _); [discriminate|]. intros [= <-].
  assert (Hlt : forall a b, Qlt_bool a b = true <-> (a < b)%Q).
  { intros a b. unfold Qlt_bool. rewrite negb_true_iff. destruct (Qle_bool b a) eqn:Eb.
    - apply Qle_bool_iff in Eb. split; [discriminate|lra].
    - split; [intros _|reflexivity]. apply Qnot_le_lt. intros Hx. apply Qle_bool_iff in Hx. congruence. }
  assert (Hlf : forall a b, Qlt_bool a b = false -> (b <= a)%Q).
  { intros a b Hx. apply Qnot_lt_le. intros Hy. apply Hlt in Hy. congruence. }
  assert (Hhalf : (2 * ((bar_height E - handle_height E) / 2) == bar_height E - handle_height E)%Q) by field.
  set (half := ((bar_height E - handle_height E) / 2)%Q) in *.
  destruct (Qlt_bool (bar_height E) (handle_height E + 10 * 2)) eqn:Es.
  - apply Hlt in Es. split; [split; lra|lra].
  - apply Hlf in Es. destruct (Qlt_bool y (bar_top E + 10)) eqn:E1; [split; [split; lra|lra]|]. apply Hlf in E1.
    destruct (Qlt_bool (bar_top E + bar_height E - handle_height E - 10) y) eqn:E2; [apply Hlt in E2|apply Hlf in E2]; split; try split; lra.
Qed.

(** ** A setting over a reload of the page *)

Section Settings.
Context {R : Type} `{Client R}.
Implicit Types u : ui R.

(** What a control holds, as the user sees it. *)
Definition control_value (e : elem) : value :=
  match control e with
  | Checkbox => Bool (checked e)
  | Select options => match zget options (selectedIndex e) with Some o => Str o | None => Undefined end
  | _ => Str (value_of e)
  end.

(** A control as the browser keeps it: an option is chosen, a text is clean. *)
Definition control_ok (e : elem) : Prop :=
  match control e with
  | Select options => NoDup options /\ 0 <= selectedIndex e < zlen options
  | Field sanitize => sanitize (value_of e) = value_of e
  | _ => True
  end.

Lemma index_of_option options : forall i k o, NoDup options -> zget options i = Some o -> index_of (Str o) options k = Some (k + i).
Proof.
  induction options as [|a options IH]; intros i k o Hn Hg; unfold zget in Hg.
  - destruct (i <? 0); [discriminate|]. now destruct (Z.to_nat i).
  - destruct (Z.ltb_spec i 0); [discriminate|]. inversion Hn as [|? ? Ha Hn']; subst. cbn [index_of value_eqb].
    destruct (Z.eq_dec i 0) as [->|Hne].
    + injection Hg as ->. destruct (str_eqb_spec o o); [f_equal; lia|congruence].
    + assert (E : Z.to_nat i = S (Z.to_nat (i - 1))) by lia. rewrite E in Hg. cbn [nth_error] in Hg.
      destruct (str_eqb_spec a o) as [->|]; [exfalso; apply Ha; apply nth_error_In in Hg; exact Hg|].
      rewrite (IH (i - 1) (k + 1) o Hn'); [f_equal; lia|]. unfold zget. destruct (Z.ltb_spec (i - 1) 0); [lia|exact Hg].
Qed.

Lemma save_run name u : control_ok (dom u (setting name)) -> exists v, control_value (dom u (setting name)) = v /\ v <> Undefined /\ v <> Null /\
  saveSetting name u = (onStore (writeSetting (units name) v) ;; ret v) u.
Proof.
  intros Hok. unfold control_value, control_ok, saveSetting in *. rewrite (bind_run (getElement _) _ u _ u eq_refl).
  destruct (control (dom u (setting name))) as [| |options|san] eqn:Ek; try (eexists; split; [reflexivity|]; split; [discriminate|]; split; [discriminate|reflexivity]).
  destruct Hok as [_ Hi]. unfold zget, zlen in *. destruct (Z.ltb_spec (selectedIndex (dom u (setting name))) 0); [lia|].
  destruct (nth_error options _) as [o|] eqn:Eo; [|apply nth_error_None in Eo; lia].
  exists (Str o). split; [reflexivity|]. split; [discriminate|]. split; [discriminate|]. reflexivity.
Qed.

(** Reading a setting that is cached. *)
Lemma get_cached name t u : settings (stored u) (units name) = Some (Str t) -> getSetting name u =
  (Ret (match control (dom u (setting name)) with Checkbox => Bool (negb (existsb (str_eqb (map lower t)) falsy_names)) | _ => Str t end), u).
Proof.
  intros Hc. unfold getSetting. rewrite (bind_run (getElement _) _ u _ u eq_refl).
  assert (E : onStore (readSetting (units name) Undefined) u = (Ret (Str t), u)).
  { unfold onStore, lift. rewrite (read_cached (units name) (Str t)) by (exact Hc || discriminate). now destruct u. }
  rewrite (bind_run _ _ _ _ _ E). now destruct (control (dom u (setting name))).
Qed.

Definition same_control (e e' : elem) : Prop :=
  match control e with
  | Checkbox => checked e' = checked e
  | Select _ => selectedIndex e' = selectedIndex e
  | _ => value_of e' = value_of e
  end.

(** C36.  What the user set a control to is what the control shows when the page is
    loaded again: ticked or not, the same choice, the same text. *)
Theorem setting_reloaded (E : env) name def u u2 :
  let e := dom u (setting name) in
  control_ok e -> chrome (stored u) = false -> refused (stored u) = false ->
  value_eqb (cached (units name) (stored u)) (control_value e) = false ->
  control (dom u2 (setting name)) = control e -> stored u2 = snd (WebUtil.initSettings (stored (snd (saveSetting name u)))) ->
  getConfigVar (href E) (hash E) (units name) Undefined = Ret Null ->
  exists v, fst (saveSetting name u) = Ret v /\ fst (initSetting E name def u2) = Ret (Str (toString v)) /\
    same_control e (dom (snd (initSetting E name def u2)) (setting name)).
Proof.
  intros e Hok Hch Hre Hcache Hk Hst Hq. destruct (save_run name u Hok) as (v & Ev & Hu & Hn & Es). fold e in Ev.
  rewrite Ev in Hcache. destruct (setting_survives (units name) v def (stored u) Hn Hu Hcache) as (s1 & E1 & _ & _ & s2 & E2 & E3).
  rewrite Hch, Hre in E3. assert (Esave : saveSetting name u = (Ret v, set_stored s1 u)) by (rewrite Es; unfold onStore, lift, bind; now rewrite E1).
  rewrite Esave in *. exists v. split; [reflexivity|]. cbn [snd stored set_stored] in Hst. rewrite E2 in Hst. cbn [snd] in Hst.
  unfold initSetting. rewrite (bind_run (attempt _) _ u2 Null u2) by (unfold attempt; now rewrite Hq).
  destruct (readSetting (units name) def s2) as [o s3] eqn:E4. cbn [fst] in E3. subst o.
  assert (E5 : onStore (readSetting (units name) def) u2 = (Ret (Str (toString v)), set_stored s3 u2)).
  { unfold onStore, lift. now rewrite Hst, E4. }
  rewrite (bind_run _ _ _ _ _ E5). set (s4 := set_settings (put (units name) (Some (Str (toString v))) (settings s3)) s3). set (u4 := set_stored s4 u2).
  assert (E6 : onStore (setSetting (units name) (Str (toString v))) (set_stored s3 u2) = (Ret tt, u4)) by reflexivity.
  rewrite (bind_run _ _ _ _ _ E6). unfold updateSetting. rewrite bind_assoc_run.
  assert (E7 := get_cached name (toString v) u4 (entry_same _ _ _)). rewrite (bind_run _ _ _ _ _ E7).
  change (dom u4) with (dom u2). rewrite Hk. rewrite (bind_run (onElem _ _) _ u4 tt _ eq_refl). split; [reflexivity|].
  cbn [snd ret]. unfold ret. cbn [snd dom set_dom]. unfold upd. rewrite String.eqb_refl. change (dom u4) with (dom u2). rewrite Hk.
  unfold same_control, control_ok, control_value in *. destruct (control e) as [| |options|san] eqn:Ek.
  - unfold assign_value. rewrite Hk. cbn [value_of set_value_of field_text toString]. now rewrite <- Ev.
  - cbn [checked set_checked truthy_value]. rewrite <- Ev. now destruct (checked e).
  - destruct Hok as [Hnd Hi]. unfold zget in Ev. destruct (Z.ltb_spec (selectedIndex e) 0); [lia|].
    destruct (nth_error options (Z.to_nat (selectedIndex e))) as [o|] eqn:Eo; [|now subst v].
    rewrite <- Ev. cbn [toString]. rewrite (index_of_option options (selectedIndex e) 0 o Hnd); [reflexivity|].
    unfold zget. destruct (Z.ltb_spec (selectedIndex e) 0); [lia|exact Eo].
  - unfold assign_value. rewrite Hk. cbn [value_of set_value_of field_text toString]. rewrite <- Ev. cbn [toString]. exact Hok.
Qed.
End Settings.
End UIBehaviour.
