(* ===== verification/UiRun.v ===== *)
(** The page run: [Recorder] is a client that keeps its orders and a
    connection, for the theorems on the page at work. *)

From Stdlib Require Import ZArith List Lia Bool String QArith.
From S2P Require Import Prelude Utf8 Webutil Keytables Lifecycle Ui UiFacts UiCorrect UiTyping UiBehaviour.
Import ListNotations JS JSFacts WebUtil UI UIFacts UICorrect UITyping UIBehaviour.
Open Scope Z_scope.
Open Scope code_scope.

Module UIRun.

Record recorder := Recorder { state_of : Lifecycle.conn; orders : list order; address : list Z }.

Definition left (c : Lifecycle.conn) : Lifecycle.conn :=
  match c with Lifecycle.Connecting | Lifecycle.Connected => Lifecycle.Disconnecting | c => c end.

(** An address with a space is refused, as a browser refuses it. *)
#[export] Instance recorder_client : Client recorder := {
  new_rfb url _ := if existsb (Z.eqb 32) url then inl "SyntaxError"%string else inr (Recorder Lifecycle.Connecting [] url);
  ask o r := (Ret tt, Recorder (match o with Disconnect => left (state_of r) | _ => state_of r end) (orders r ++ [o]) (address r), match o with Disconnect => 0 | _ => 1 end%nat);
  clipViewport _ := true;
  clippingViewport _ := false;
  dragViewport _ := false;
  viewOnly _ := false;
  power _ := true
}.

#[export, refine] Instance recorder_ok : ClientOk recorder := { c_state := state_of }.
Proof.
  - intros url o r. cbn. destruct (existsb _ _); [discriminate|]. now intros [= <-].
  - intros [] r Ho; now cbn.
  - intros r. cbn. now destruct (state_of r).
  - intros r. now cbn.
Defined.

#[export, refine] Instance recorder_recorded : Recorded recorder := { sent := orders }.
Proof. all: reflexivity. Defined.

(** A desktop browser with a page served over TLS. *)
Definition here : env :=
  Env (units "https://h:443/vnc.html") [] (units "h") [] (units "https:") true false false true true false 10%Q 1000%Q 5%Q 20%Q 5%Q 300%Q
    (fun _ => false) true (fun _ t => t) (fun t => t).
Definition nothing_stored : store := mkStore no_entry false no_entry no_entry false [].
Definition loaded : ui recorder := page_loaded here nothing_stored.
Definition started : ui recorder := snd (start here loaded).

(** A click on the button that connects. *)
Definition a_click : event := Event "click" 0 0 0 "noVNC_connect_button" None.
Definition connect_button : string * string * (event -> M (ui recorder) unit) := ("noVNC_connect_button"%string, "click"%string, quiet (connect here Undefined)).
Definition connecting_page : ui recorder := snd (snd connect_button a_click started).

Example started_well : start here loaded = (Ret tt, started).
Proof.
  assert (E : fst (start here loaded) = Ret tt) by (vm_compute; reflexivity).
  unfold started. destruct (start here loaded) as [o u]. cbn [fst] in E. cbn [snd]. now rewrite E.
Qed.

Definition moved_to (c : Lifecycle.conn) (u : ui recorder) : ui recorder :=
  match rfb u with Some r => set_rfb (Some (Recorder c (orders r) (address r))) u | None => u end.
Definition connected_page : ui recorder := snd (hear here EvConnect (moved_to Lifecycle.Connected connecting_page)).
(** The client of that page. *)
Definition its_client : recorder := match rfb connected_page with Some r => r | None => Recorder Lifecycle.CNone [] [] end.

Example connected_now : option_map state_of (rfb connecting_page) = Some Lifecycle.Connecting /\ connected connected_page = true /\
  address its_client = units "wss://h:443/websockify" /\ hd_error (orders its_client) = Some (SetClipViewport (Bool false)) /\ List.last (orders its_client) Disconnect = Focus.
Proof. vm_compute. repeat split; reflexivity. Qed.

(** The user disconnects, and the client ends. *)
Definition left_page : ui recorder := snd (disconnect here connected_page).
Definition gone_page : ui recorder := snd (hear here (EvDisconnect true) (moved_to Lifecycle.Disconnected left_page)).

(** The page when the address cannot be opened: no client, no dialog to try
    again with, and nothing awaited. *)
Definition spaced : ui recorder :=
  snd (connect here Undefined (set_dom (upd "noVNC_setting_host" (set_value_of (units "a b")) (dom started)) (set_stored (snd (WebUtil.setSetting (units "host") (Str (units "a b")) (stored started))) started))).
Example failed_open_strands : rfb spaced = None /\ holds spaced ("noVNC_connect_dlg", "noVNC_open")%string = false /\ timers spaced = [] /\
  holds started ("noVNC_connect_dlg", "noVNC_open")%string = true /\ status spaced "noVNC_status_error" = true.
Proof. vm_compute. repeat split; reflexivity. Qed.

(** *** Witnesses *)

Lemma at_event may (e : client_event) c r u : may e -> rfb u = Some r -> client_moves r e (Recorder c (orders r) (address r)) ->
  step may u (snd (hear here e (moved_to c u))).
Proof. intros Hm Hr Hc. unfold moved_to. rewrite Hr. now apply (step_event may here e r). Qed.

Lemma has_client u c : option_map state_of (rfb u) = Some c -> exists r, rfb u = Some r /\ state_of r = c.
Proof. destruct (rfb u) as [r|]; [|discriminate]. intros [= <-]. now exists r. Qed.

Lemma connect_reached : history any_event started connected_page.
Proof.
  apply (history_step any_event started connecting_page).
  - apply (history_step any_event started started); [constructor|]. apply (step_listener any_event here connect_button).
    + apply (nth_error_In (listeners here) 42). reflexivity.
    + vm_compute. reflexivity.
  - destruct (has_client connecting_page Lifecycle.Connecting) as (r & Er & Es); [vm_compute; reflexivity|].
    apply (at_event any_event EvConnect Lifecycle.Connected r); [exact I|exact Er|]. split; [exact Es|reflexivity].
Qed.

Lemma page_consistent_witness : rfb connected_page <> None /\ consistent connected_page.
Proof.
  split; [vm_compute; discriminate|]. exact (page_consistent here nothing_stored started connected_page started_well connect_reached).
Defined.

Lemma disconnects_well : disconnect here connected_page = (Ret tt, left_page).
Proof.
  assert (E : fst (disconnect here connected_page) = Ret tt) by (vm_compute; reflexivity).
  unfold left_page. destruct (disconnect here connected_page) as [o u]. cbn [fst] in E. cbn [snd]. now rewrite E.
Qed.

Lemma then_gone : history not_connected left_page gone_page.
Proof.
  apply (history_step not_connected left_page left_page); [constructor|].
  destruct (has_client left_page Lifecycle.Disconnecting) as (r & Er & Es); [vm_compute; reflexivity|].
  apply (at_event not_connected (EvDisconnect true) Lifecycle.Disconnected r); [discriminate|exact Er|]. split; [cbn; congruence|reflexivity].
Qed.

Lemma disconnect_is_final_witness : rfb gone_page = None /\ ~ runs gone_page Reconnect.
Proof.
  split; [vm_compute; reflexivity|].
  exact (proj1 (proj2 (disconnect_is_final here here nothing_stored started connected_page left_page gone_page started_well connect_reached disconnects_well then_gone))).
Defined.

(** A word, a word corrected by the input method with the caret in it, and a
    character erased; then everything is erased, and one more key. *)
Definition typed_inputs : list input := [(Some 4, units "_teh"); (Some 2, units "_the "); (None, units "_the")]%string.
Definition erased_inputs : list input := [(Some 4, units "_the"); (Some 0, []); (Some 98, zrep 98 95)]%string.
Definition before_typing : ui recorder := set_lastKeyboardinput (Some (units "_")) connected_page.

Lemma typing_followed_witness : exists u' os,
  option_map orders (rfb u') = Some (orders its_client ++ os) /\ fold_left hit os [97; 95] = [97; 95; 116; 104; 101].
Proof.
  destruct (typing_followed typed_inputs before_typing its_client (units "_")) as (u' & r' & os & _ & Hr & Ho & _ & _ & _ & Hl).
  - vm_compute. reflexivity.
  - reflexivity.
  - discriminate.
  - vm_compute. reflexivity.
  - repeat constructor; vm_compute; discriminate.
  - exists u', os. split; [rewrite Hr; exact (f_equal Some Ho)|]. apply (Hl ltac:(repeat constructor; vm_compute; discriminate) [97]).
Defined.

(** The field is never empty: erasing goes on. *)
Example erased_on : line_after (units "_") (map snd erased_inputs) [97; 98; 95] = [97].
Proof. vm_compute. reflexivity. Qed.

(** A message, a warning, another message, an error and a warning. *)
Definition messages : list (list Z * string) :=
  [(units "Connected", "normal"); (units "careful", "warn"); (units "Disconnected", "normal"); (units "failed", "error"); (units "late", "warn")]%string.
Lemma status_by_severity_witness : line_shows (Some (units "failed", "error"%string)) (snd (each (fun m => showStatus (fst m) (snd m)) messages started)).
Proof. exact (status_by_severity messages started ltac:(vm_compute; reflexivity)). Defined.

Lemma handle_inside_witness : handle_position here 1000 = Some 270%Q /\ (10 <= 270 /\ 270 + handle_height here + 10 <= bar_height here)%Q.
Proof.
  split; [vm_compute; reflexivity|].
  destruct (handle_inside here 1000 270) as [_ Hin]; [reflexivity|vm_compute; discriminate|vm_compute; reflexivity|apply Hin; vm_compute; discriminate].
Defined.

(** The host is changed in its field, and the page loaded again. *)
Definition other_host : ui recorder := set_dom (upd "noVNC_setting_host" (set_value_of (units "new")) (dom started)) started.
Definition loaded_again : ui recorder := page_loaded here (snd (WebUtil.initSettings (stored (snd (saveSetting "host" other_host))))).

Lemma stored_loaded s : stored (page_loaded (R := recorder) here s) = s.
Proof. reflexivity. Qed.

Lemma setting_reloaded_witness : fst (initSetting here "host" (Str []) loaded_again) = Ret (Str (units "new")).
Proof.
  destruct (setting_reloaded here "host" (Str []) other_host loaded_again) as (v & Hv & Hi & _);
    [vm_compute; reflexivity|vm_compute; reflexivity|vm_compute; reflexivity|vm_compute; reflexivity|
     vm_compute; reflexivity|exact (stored_loaded _)|vm_compute; reflexivity|].
  rewrite Hi. assert (E : fst (saveSetting "host" other_host) = Ret (Str (units "new"))) by (vm_compute; reflexivity). rewrite Hv in E. now injection E as ->.
Defined.
End UIRun.
