(* ===== verification/Deflator.v ===== *)
(** The wrapper around the compressor, core/deflator.js: the data of a message
    is compressed with a full flush, in pieces of a fixed size.

    The compressor itself (pako) is third-party code: [Compressor] is its
    interface, [CompressorOk] what zlib documents of it.  A result of one piece
    is a view on the buffer that every call writes again. *)

From Stdlib Require Import ZArith List Lia Bool String.
From S2P Require Import Prelude.
Import ListNotations.
Open Scope Z_scope.
Open Scope code_scope.

(** [deflate(strm, Z_FULL_FLUSH)]: from a state, the input still to read and
    the room in the output, its return code, the bytes it wrote, the new state
    and the input it left. *)
Class Compressor := {
  cstream : Type;
  deflateInit : cstream;
  zdeflate : cstream -> list Z -> Z -> Z * list Z * cstream * list Z
}.

Module Deflator.

Section Deflator.
Context `{Compressor}.

(** [strm]: the state of the compressor and the input from [next_in] on. *)
Record deflator := mkDeflator { strm : cstream; input : list Z; outputBuffer : list Z }.
Definition chunkSize : Z := 1024 * 10 * 10.
Definition constructor : deflator := mkDeflator deflateInit [] (zrep chunkSize 0).

(** A view of the first bytes of the buffer, or an array of its own. *)
Inductive result := View (n : Z) | Own (data : list Z).
Definition deref (r : result) (d : deflator) : list Z := match r with View n => ztake n (outputBuffer d) | Own l => l end.

(** One call of the compressor, with room for a chunk. *)
Definition one_chunk : M deflator (list Z) :=
  d <- get ;;
  let '(lastRet, out, st, rest) := zdeflate (strm d) (input d) chunkSize in
  modify (fun d => mkDeflator st rest (outputBuffer d)) ;;
  if lastRet <? 0 then throw "zlib deflate failed" else ret out.

(** [do ... while (this.strm.avail_in > 0)]; [n] bounds the passes. *)
Fixpoint chunks_loop (n : nat) : M deflator (list (list Z)) :=
  match n with
  | O => stuck
  | S n =>
      out <- one_chunk ;;
      d <- get ;;
      if 0 <? zlen (input d) then rest <- chunks_loop n ;; ret (out :: rest) else ret [out]
  end.

Fixpoint combine (chunks : list (list Z)) (offset : Z) (newData : list Z) : list Z :=
  match chunks with
  | [] => newData
  | c :: chunks => combine chunks (offset + zlen c) (zblit newData offset c)
  end.

Definition deflate (n : nat) (inData : list Z) : M deflator result :=
  modify (fun d => mkDeflator (strm d) inData (outputBuffer d)) ;;
  d <- get ;;
  let '(lastRet, out, st, rest) := zdeflate (strm d) (input d) chunkSize in
  modify (fun d => mkDeflator st rest (zblit (outputBuffer d) 0 out)) ;;
  if lastRet <? 0 then throw "zlib deflate failed"
  else
    d <- get ;;
    r <- (if 0 <? zlen (input d) then
            more <- chunks_loop n ;;
            let chunks := out :: more in
            ret (Own (combine chunks 0 (zrep (fold_left (fun t c => t + zlen c) chunks 0) 0)))
          else ret (View (zlen out))) ;;
    modify (fun d => mkDeflator (strm d) [] (outputBuffer d)) ;;
    ret r.

(** [deflate] with its bytes read at once. *)
Definition deflate_now (n : nat) (inData : list Z) : M deflator (list Z) :=
  r <- deflate n inData ;; gets (deref r).
End Deflator.

(** ** What the compressor does *)

(** What zlib documents of [deflate] with [Z_FULL_FLUSH].  [run st read written]:
    the state after this input was read and this output written in all;
    [flushed st]: the last flush is complete; [carries read written]: from this
    output all of this input can be had back.

    A call with input, or with a flush to complete, returns [Z_OK] and goes on:
    when it leaves room in the output, all input is read, the flush is complete
    and the output carries all that was read.  A call without anything to do
    returns [Z_BUF_ERROR].  Of a given input only so much output can come while
    some of it is still to be read. *)
Class CompressorOk `{Compressor} := {
  run : cstream -> list Z -> list Z -> Prop;
  flushed : cstream -> Prop;
  carries : list Z -> list Z -> Prop;
  output_bound : cstream -> list Z -> Z;
  run_init : run deflateInit [] [];
  bound_nonneg st input : 0 <= output_bound st input;
  zdeflate_goes_on st read written input n : run st read written -> 0 < n -> input <> [] \/ ~ flushed st ->
    exists out st' taken rest, zdeflate st input n = (0, out, st', rest) /\ input = taken ++ rest /\ zlen out <= n /\
      run st' (read ++ taken) (written ++ out) /\
      (zlen out < n -> rest = [] /\ flushed st' /\ carries (read ++ taken) (written ++ out)) /\
      (rest <> [] -> zlen out + output_bound st' rest <= output_bound st input);
  zdeflate_idle st n : flushed st -> 0 < n -> exists st', zdeflate st [] n = (-5, [], st', [])
}.

Section DeflatorOk.
Context `{CompressorOk}.

Definition wf (d : deflator) : Prop := zlen (outputBuffer d) = chunkSize.

(** A whole message was written: full pieces, and a last one with room left. *)
Definition whole (data : list Z) : Prop := zlen data mod chunkSize <> 0.

Lemma combine_concat chunks : forall done rest, zlen (List.concat chunks) <= zlen rest ->
  combine chunks (zlen done) (done ++ rest) = done ++ List.concat chunks ++ zdrop (zlen (List.concat chunks)) rest.
Proof.
  induction chunks as [|c chunks IH]; intros done rest Hl; [now rewrite zdrop_nonpos by (unfold zlen; cbn; lia)|].
  cbn [combine List.concat] in *. rewrite zlen_app in *. assert (Hc := zlen_nonneg c). assert (Hk := zlen_nonneg (List.concat chunks)).
  assert (E : zblit (done ++ rest) (zlen done) c = (done ++ c) ++ zdrop (zlen c) rest).
  { rewrite <- (ztake_zdrop (zlen c) rest) at 1. rewrite (zblit_app done (ztake (zlen c) rest)), <- app_assoc; [reflexivity|reflexivity|].
    rewrite zlen_ztake. lia. }
  rewrite E. replace (zlen done + zlen c) with (zlen (done ++ c)) by apply zlen_app. rewrite IH by (rewrite zlen_zdrop; lia).
  rewrite zdrop_zdrop by lia. rewrite <- !app_assoc. do 3 f_equal. f_equal. lia.
Qed.

Lemma total_concat chunks : forall t, fold_left (fun t c => t + zlen c) chunks t = t + zlen (@List.concat Z chunks).
Proof. induction chunks as [|c chunks IH]; intros t; cbn [fold_left List.concat]; [unfold zlen; cbn; lia|]. rewrite IH, zlen_app. lia. Qed.

(** The loop ends: every pass but the last fills its chunk. *)
Lemma chunks_run n : forall d read written, run (strm d) read written -> input d <> [] -> output_bound (strm d) (input d) < Z.of_nat n * chunkSize ->
  exists d' chunks, chunks_loop n d = (Ret chunks, d') /\ input d' = [] /\ run (strm d') (read ++ input d) (written ++ List.concat chunks) /\
    outputBuffer d' = outputBuffer d /\
    (whole (List.concat chunks) -> flushed (strm d') /\ carries (read ++ input d) (written ++ List.concat chunks)).
Proof.
  assert (Hpos : 0 < chunkSize) by reflexivity.
  induction n as [|n IH]; intros d read written Hr Hi Hn; [assert (Hz := bound_nonneg (strm d) (input d)); lia|].
  destruct (zdeflate_goes_on _ _ _ (input d) chunkSize Hr Hpos (or_introl Hi)) as (out & st & taken & rest & Ez & Et & Ho & Hr' & Hall & Hb). cbn [chunks_loop].
  set (d1 := mkDeflator st rest (outputBuffer d)).
  assert (E1 : one_chunk d = (Ret out, d1)) by (unfold one_chunk, bind, get, modify; rewrite Ez; reflexivity).
  rewrite (bind_run _ _ _ _ _ E1), (bind_run get _ d1 d1 d1 eq_refl). destruct (Z.ltb_spec 0 (zlen (input d1))) as [Hl|Hl].
  - assert (Hne : rest <> []) by (intros ->; discriminate Hl).
    assert (Hc : zlen out = chunkSize).
    { destruct (Z.lt_ge_cases (zlen out) chunkSize) as [Hlt|Hge]; [|lia]. now destruct (Hall Hlt). }
    specialize (Hb Hne). destruct (IH d1 _ _ Hr' Hne) as (d' & chunks & E2 & Hi' & Hrun & Eb & Hw); [cbn [strm input d1]; lia|].
    exists d', (out :: chunks). rewrite (bind_run _ _ _ _ _ E2). split; [reflexivity|]. split; [exact Hi'|].
    cbn [input d1 List.concat] in *. rewrite Et, !app_assoc. split; [exact Hrun|]. split; [exact Eb|].
    unfold whole in *. rewrite zlen_app, Hc, <- (Z.mul_1_l chunkSize) at 1. rewrite Z.add_comm, Z.mod_add by lia. exact Hw.
  - assert (Er : rest = []) by (cbn [input d1] in Hl; destruct rest; [reflexivity|]; rewrite zlen_cons in Hl; assert (Hz := zlen_nonneg rest); lia).
    exists d1, [out]. split; [reflexivity|]. split; [exact Er|]. cbn [strm d1 List.concat]. rewrite app_nil_r. subst rest. rewrite app_nil_r in Et. rewrite Et.
    split; [exact Hr'|]. split; [reflexivity|]. intros Hw. assert (Hlt : zlen out < chunkSize).
    { destruct (Z.eq_dec (zlen out) chunkSize) as [E|]; [|lia]. exfalso. apply Hw. rewrite E. reflexivity. }
    now destruct (Hall Hlt) as (_ & H1 & H2).
Qed.

(** A message that one call takes. *)
Lemma one_piece d n inData out st : zdeflate (strm d) inData chunkSize = (0, out, st, []) ->
  deflate_now n inData d = (Ret out, mkDeflator st [] (zblit (outputBuffer d) 0 out)).
Proof.
  intros Ez. unfold deflate_now, deflate, bind, get, modify, gets, ret. cbn [strm input]. rewrite Ez. cbn -[ztake zdrop zlen zblit].
  change (0 <? zlen (@nil Z)) with false. cbn -[ztake zdrop zlen zblit]. do 2 f_equal. unfold zblit. rewrite (ztake_nonpos 0) by lia. cbn [app]. now rewrite ztake_app_exact.
Qed.

(** C40.  Compressing the data of a message, with something to compress, returns:
    the message is read whole, what is returned is all that the compressor wrote
    of it, in order, and when that is not a whole number of buffers, the server
    can have back from all messages so far all data so far.  Without data and
    with nothing held back, it throws. *)
Theorem deflated_whole d read written inData n : wf d -> run (strm d) read written -> output_bound (strm d) inData < Z.of_nat n * chunkSize ->
  (inData <> [] \/ ~ flushed (strm d) ->
   exists d' data, deflate_now n inData d = (Ret data, d') /\ wf d' /\ run (strm d') (read ++ inData) (written ++ data) /\
     (whole data -> flushed (strm d') /\ carries (read ++ inData) (written ++ data))) /\
  (flushed (strm d) -> fst (deflate_now n [] d) = Throw "zlib deflate failed").
Proof.
  intros Hw Hr Hn. assert (Hpos : 0 < chunkSize) by reflexivity. split.
  2: { intros Hf. destruct (zdeflate_idle _ chunkSize Hf Hpos) as (st' & Ez).
    unfold deflate_now, deflate, bind, get, modify, gets, ret. cbn [strm input]. rewrite Ez. reflexivity. }
  intros Hdo. destruct (zdeflate_goes_on _ _ _ inData chunkSize Hr Hpos Hdo) as (out & st & taken & rest & Ez & Et & Ho & Hr' & Hall & Hb).
  set (d1 := mkDeflator st rest (zblit (outputBuffer d) 0 out)).
  assert (W1 : wf d1). { unfold wf in *. cbn [outputBuffer d1]. assert (Hz := zlen_nonneg out). rewrite zlen_zblit; lia. }
  unfold deflate_now, deflate. rewrite bind_assoc_run, after_modify.
  rewrite bind_assoc_run, (bind_run get _ _ _ _ eq_refl). cbn [strm input]. rewrite Ez. rewrite bind_assoc_run, after_modify. cbn [strm input outputBuffer]. fold d1.
  cbn [Z.ltb Z.compare]. rewrite bind_assoc_run, (bind_run get _ d1 d1 d1 eq_refl), bind_assoc_run.
  destruct (Z.ltb_spec 0 (zlen (input d1))) as [Hl|Hl].
  - assert (Hne : rest <> []) by (intros ->; discriminate Hl).
    assert (Hc : zlen out = chunkSize).
    { destruct (Z.lt_ge_cases (zlen out) chunkSize) as [Hlt|Hge]; [|lia]. now destruct (Hall Hlt). }
    specialize (Hb Hne). destruct (chunks_run n d1 _ _ Hr' Hne) as (d' & chunks & E2 & Hi' & Hrun & Eb & Hwh); [cbn [strm input d1]; lia|].
    rewrite bind_assoc_run, (bind_run _ _ _ _ _ E2). cbv zeta. rewrite total_concat.
    eexists _, (List.concat (out :: chunks)). split.
    { cbn [deref]. set (m := 0 + zlen (List.concat (out :: chunks))). assert (Hz := zlen_nonneg (List.concat (out :: chunks))).
      assert (E3 := combine_concat (out :: chunks) [] (zrep m 0)). change (zlen (@nil Z)) with 0 in E3. cbn [app] in E3.
      assert (Hm : zlen (zrep m 0) = zlen (List.concat (out :: chunks))) by (unfold m; rewrite zlen_zrep; lia).
      rewrite E3 by lia. rewrite zdrop_all, app_nil_r by lia. reflexivity. }
    split; [unfold wf; cbn [outputBuffer]; rewrite Eb; exact W1|]. cbn [strm input d1 List.concat] in *. rewrite Et, !app_assoc. split; [exact Hrun|].
    unfold whole in *. rewrite zlen_app, Hc, <- (Z.mul_1_l chunkSize) at 1. rewrite Z.add_comm, Z.mod_add by lia. exact Hwh.
  - assert (Er : rest = []) by (cbn [input d1] in Hl; destruct rest; [reflexivity|]; rewrite zlen_cons in Hl; assert (Hz := zlen_nonneg rest); lia).
    eexists _, _. split; [reflexivity|]. split; [exact W1|]. cbn [deref strm outputBuffer d1].
    change (zblit (outputBuffer d) 0 out) with (out ++ zdrop (0 + zlen out) (outputBuffer d)). rewrite ztake_app_exact. subst rest. rewrite app_nil_r in Et. rewrite Et. split; [exact Hr'|]. intros Hwh.
    assert (Hlt : zlen out < chunkSize).
    { destruct (Z.eq_dec (zlen out) chunkSize) as [E|]; [|lia]. exfalso. apply Hwh. rewrite E. reflexivity. }
    now destruct (Hall Hlt) as (_ & H1 & H2).
Qed.
End DeflatorOk.

(** ** A compressor that stores *)

(** Each byte behind a 1, and a 0 at the end of a flush. *)
Fixpoint stored (input : list Z) : list Z := match input with [] => [] | b :: input => 1 :: b :: stored input end.
Fixpoint unstored (out : list Z) : option (list Z) :=
  match out with
  | [] => Some []
  | 0 :: out => unstored out
  | 1 :: b :: out => option_map (cons b) (unstored out)
  | _ => None
  end.

(** It reads everything; what does not fit into the output waits, and a flush
    is complete when there was room left. *)
Definition storing : Compressor := {|
  cstream := list Z * bool; deflateInit := ([], false);
  zdeflate := fun st input n =>
    if (match input with [] => true | _ => false end) && snd st then (-5, [], st, [])
    else let all := fst st ++ stored input ++ [0] in (0, ztake n all, (zdrop n all, zlen all <? n), [])
|}.

Lemma unstored_app b : forall a r, unstored a = Some r -> unstored (a ++ b) = option_map (app r) (unstored b).
Proof.
  assert (Hlen : forall k a r, (List.length a <= k)%nat -> unstored a = Some r -> unstored (a ++ b) = option_map (app r) (unstored b)).
  { induction k as [|k IH]; intros a r Hk E.
    - destruct a; [|cbn in Hk; lia]. injection E as <-. cbn. now destruct (unstored b).
    - destruct a as [|x a]; [injection E as <-; cbn; now destruct (unstored b)|]. cbn [List.length] in Hk.
      destruct (Z.eq_dec x 0) as [->|H0]; [exact (IH a r ltac:(lia) E)|]. destruct (Z.eq_dec x 1) as [->|H1].
      + destruct a as [|y a]; [discriminate|]. cbn [unstored app List.length] in *. destruct (unstored a) as [r'|] eqn:Ea; [|discriminate]. injection E as <-.
        rewrite (IH a r' ltac:(lia) Ea). now destruct (unstored b).
      + exfalso. destruct x as [|[x|x|]|x]; try congruence; destruct a; discriminate. }
  intros a r. exact (Hlen (List.length a) a r (le_n _)).
Qed.

Lemma unstored_stored l : unstored (stored l ++ [0]) = Some l.
Proof. induction l as [|b l IH]; [reflexivity|]. cbn [stored app unstored]. now rewrite IH. Qed.

Definition storing_ok : @CompressorOk storing.
Proof.
  refine {| run := fun (st : @cstream storing) read written => unstored (written ++ fst st) = Some read /\ (snd st = true -> fst st = []);
    flushed := fun st : @cstream storing => snd st = true; carries := fun read written => unstored written = Some read;
    output_bound := fun _ _ => 0 |}.
  - now split.
  - intros _ _. lia.
  - intros [pending f] read written input n [Hr Hf] Hn Hdo. cbn [fst snd] in *. cbn [zdeflate storing fst snd].
    assert (E : (match input with [] => true | _ => false end) && f = false) by (destruct input, f; try reflexivity; destruct Hdo; congruence). rewrite E.
    set (all := pending ++ stored input ++ [0]). exists (ztake n all), (zdrop n all, zlen all <? n), input, []. cbn [fst snd].
    split; [reflexivity|]. split; [now rewrite app_nil_r|]. split; [rewrite zlen_ztake; lia|].
    assert (Eall : unstored (written ++ all) = Some (read ++ input)).
    { unfold all. rewrite app_assoc, (unstored_app _ _ _ Hr), unstored_stored. reflexivity. }
    assert (Hfull : zlen all < n -> ztake n all = all /\ zdrop n all = []) by (intros Hlt; split; [apply ztake_all|apply zdrop_all]; lia).
    split; [split; [now rewrite <- app_assoc, ztake_zdrop|intros Hlt; now apply Hfull, Z.ltb_lt]|]. split; [|now intros Hx].
    rewrite zlen_ztake. intros Hlt. assert (Hz := zlen_nonneg all). assert (Hlt' : zlen all < n) by lia. destruct (Hfull Hlt') as [-> _].
    split; [reflexivity|]. split; [now apply Z.ltb_lt|exact Eall].
  - intros [pending f] n Hf Hn. cbn in Hf. subst f. eexists. reflexivity.
Defined.

Lemma deflated_whole_witness : exists d' data, @deflate_now storing 1 [1; 2; 3] (@constructor storing) = (Ret data, d') /\
  unstored data = Some [1; 2; 3] /\ fst (@deflate_now storing 1 [] d') = Throw "zlib deflate failed".
Proof.
  assert (H0 : @wf storing (@constructor storing)) by (vm_compute; reflexivity).
  assert (Hb : forall st l, @output_bound storing storing_ok st l < Z.of_nat 1 * chunkSize) by (intros st l; reflexivity).
  assert (Hne : [1; 2; 3] <> []) by discriminate.
  destruct (proj1 (@deflated_whole storing storing_ok (@constructor storing) [] [] [1; 2; 3] 1 H0 (@run_init storing storing_ok) (Hb _ _)) (or_introl Hne))
    as (d' & data & E & Hw & Hr & Hwh).
  assert (Ed : data = [1; 1; 1; 2; 1; 3; 0]) by (apply (f_equal fst) in E; vm_compute in E; congruence).
  destruct Hwh as [Hf Hc]; [rewrite Ed; vm_compute; discriminate|]. exists d', data. split; [exact E|]. split; [exact Hc|].
  exact (proj2 (@deflated_whole storing storing_ok d' _ _ [] 1 Hw Hr (Hb _ _)) Hf).
Defined.

Lemma stored_app a b : stored (a ++ b) = stored a ++ stored b.
Proof. induction a as [|x a IH]; cbn [stored app]; congruence. Qed.

Lemma zlen_stored l : zlen (stored l) = 2 * zlen l.
Proof. induction l as [|x l IH]; cbn [stored]; [reflexivity|]. rewrite !zlen_cons, IH. lia. Qed.

Lemma storing_run st f input n : 0 < n -> input <> [] ->
  @zdeflate storing (st, f) input n = (let all := st ++ stored input ++ [0] in (0, ztake n all, (zdrop n all, zlen all <? n), [])).
Proof. intros Hn Hi. destruct input; [congruence|reflexivity]. Qed.

(** A message whose data fills the buffer is cut: the rest of it comes with the
    next message. *)
Lemma tail_left_behind (l : list Z) : 2 * zlen l = chunkSize ->
  exists d1 d2, @deflate_now storing 1 (l ++ l) (@constructor storing) = (Ret (stored l), d1) /\
    @deflate_now storing 1 [7] d1 = (Ret (stored l), d2) /\ unstored (stored l) = Some l.
Proof.
  intros Hl. assert (Hs : zlen (stored l) = chunkSize) by (rewrite zlen_stored; exact Hl). assert (Hpos : 0 < chunkSize) by reflexivity.
  assert (Hne : l ++ l <> []) by (intros E; apply app_eq_nil in E as [-> _]; discriminate Hl).
  assert (Hcut : forall x y, ztake chunkSize (stored l ++ x ++ y) = stored l /\ zdrop chunkSize (stored l ++ x ++ y) = x ++ y)
    by (intros x y; rewrite <- Hs; split; [apply ztake_app_exact|apply zdrop_app_exact]).
  assert (E1 : @zdeflate storing ([], false) (l ++ l) chunkSize = (0, stored l, (stored l ++ [0], false), [])).
  { rewrite (storing_run [] false (l ++ l) chunkSize Hpos Hne). cbv zeta. cbn [app]. rewrite stored_app, <- app_assoc. destruct (Hcut (stored l) [0]) as [-> ->].
    repeat f_equal. apply Z.ltb_ge. rewrite zlen_app, Hs. assert (Hz := zlen_nonneg (stored l ++ [0])). lia. }
  assert (E2 : @zdeflate storing (stored l ++ [0], false) [7] chunkSize = (0, stored l, ([0; 1; 7; 0], false), [])).
  { rewrite (storing_run _ false [7] chunkSize Hpos ltac:(discriminate)). cbv zeta. rewrite <- app_assoc. destruct (Hcut [0] (stored [7] ++ [0])) as [-> ->].
    repeat f_equal. apply Z.ltb_ge. rewrite zlen_app, Hs. cbn. lia. }
  eexists _, _. split; [exact (one_piece (H := storing) (@constructor storing) 1 (l ++ l) (stored l) _ E1)|].
  split; [exact (one_piece (H := storing) (mkDeflator (H := storing) (stored l ++ [0], false) [] _) 1 [7] (stored l) _ E2)|].
  assert (H := unstored_stored l). assert (Ha := unstored_app [0] (stored l)). destruct (unstored (stored l)) as [r|] eqn:E.
  - rewrite (Ha r eq_refl) in H. cbn in H. rewrite app_nil_r in H. exact H.
  - exfalso. clear - E. induction l as [|x l IH]; [discriminate|]. cbn [stored unstored] in E. destruct (unstored (stored l)); [discriminate|auto].
Qed.
End Deflator.
