(* ===== verification/Metrics.v ===== *)
(** The page of sensor history, js/metrics.js: the picker of sensors with its
    chips and filter, the request for samples, the chart and its colours.

    The elements of metrics.html that a page has or not are options; a sensor's
    box is its value and whether it is ticked.  The chart library and the
    browser's clock, styles and case mapping are arguments.  Of the answers of
    the server the model has the fields that the code reads. *)

From Stdlib Require Import ZArith List Lia Bool String QArith.
From S2P Require Import Prelude Utf8 Webutil Ui.
Import ListNotations JS JSFacts WebUtil.
Open Scope Z_scope.
Open Scope code_scope.

Module Metrics.

Abbreviation text := (list Z).

(** ** Strings of the language *)

Fixpoint skip_back (s : text) : text :=
  match s with
  | [] => []
  | c :: s => match skip_back s with [] => if UI.is_space c then [] else [c] | t => c :: t end
  end.
Definition trim (s : text) : text := skip_back (UI.skip_space s).

(** [s.indexOf(q) !== -1] *)
Fixpoint occurs (q s : text) : bool :=
  match after q s with
  | Some _ => true
  | None => match s with [] => false | _ :: s => occurs q s end
  end.

(** ** Samples *)

Record point := Point { ts : Z; pvalue : Q }.
Record series := Series { sensor : text; unit_of : option text; points : option (list point) }.
Record payload := Payload { series_of : option (list series); warm : bool }.

(** ** Colours *)

Definition SERIES_PALETTE : list text :=
  map units ["#3dba9c"; "#5b8def"; "#e6a23c"; "#c45d8c"; "#7bc96f"; "#9b7bde"; "#e07050"; "#4db6c8"; "#d4a017"; "#6fbf73"]%string.

(** [parseInt(h, 16)], as text. *)
Definition hex_text (h : text) : text :=
  let s := UI.skip_space h in
  let '(sign, s) := match s with 45 :: s => (-1, s) | 43 :: s => (1, s) | _ => (1, s) end in
  let s := match s with 48 :: x :: s' => if (x =? 120) || (x =? 88) then s' else s | _ => s end in
  match UI.number_from 16 s with Some n => toString (Num (sign * n)) | None => units "NaN" end.

(** [replace] takes the first one away. *)
Definition hexAlpha (hex : text) (alpha : text) : text :=
  let h := until (Z.eqb 35) hex ++ tl (skipn (List.length (until (Z.eqb 35) hex)) hex) in
  let h := match h with [a; b; c] => [a; a; b; b; c; c] | _ => h end in
  if negb (zlen h =? 6) then hex
  else
    let r := hex_text (ztake 2 h) in
    let g := hex_text (ztake 2 (zdrop 2 h)) in
    let b := hex_text (zdrop 4 h) in
    units "rgba(" ++ r ++ units "," ++ g ++ units "," ++ b ++ units "," ++ alpha ++ units ")".

Record colors := Colors { c_text : text; c_muted : text; c_border : text; c_surface : text; c_bg : text }.

(** ** Dates *)

(** The local time of a moment. *)
Record datetime := Datetime { getFullYear : Z; getMonth : Z; getDate : Z; getHours : Z; getMinutes : Z; getSeconds : Z }.

Definition pad2 (n : Z) : text := if n <? 10 then units "0" ++ decimal n else decimal n.
Definition months : list text := map units ["Jan"; "Feb"; "Mar"; "Apr"; "May"; "Jun"; "Jul"; "Aug"; "Sep"; "Oct"; "Nov"; "Dec"]%string.

(** ** The chart *)

Record dataset := Dataset {
  ds_label : text;
  ds_data : list (Z * Q);
  borderColor : text;
  backgroundColor : text;
  borderWidth : Z;
  tension : Q;
  spanGaps : bool;
  pointRadius : Z;
  pointHoverRadius : Z;
  pointHitRadius : Z;
  fill : bool
}.

(** The options given to the library: a tree of objects. *)
Inductive opt :=
| OBool (b : bool)
| ONum (n : Z)
| OStr (s : text)
| TickOf (spanMs : Z)
| TooltipTitle
| Obj (fields : list (string * opt)).

Record chart_config := ChartConfig { kind : text; datasets : list dataset; options : opt }.

(** ** The page *)

Record config := Config { range : option text; sensors : option (list text) }.

(** The address: what is in front of the path, the path, the pairs of the
    query and the fragment. *)
Record url := Url { origin : text; pathname : text; params : list (text * text); hash : text }.

Inductive chips := NoneSelected | Chips (names : list text).
Inductive node := CanvasNode | OtherNode.

Record page := mkPage {
  boxes : list (text * bool);
  rangeEl : option text;
  bootstrapEl : option (option config);
  chipsEl : option chips;
  countEl : option text;
  filterEl : option text;
  items : list (option text * bool);
  filterEmpty : option bool;
  sensorList : bool;
  host : option (list node);
  statusEl : option text;
  chart : option Z;
  charts : list (Z * chart_config);
  nextChart : Z;
  lastPayload : option payload;
  location : url;
  requests : list (Z * text);
  nextRequest : Z
}.
Definition set_boxes v r := mkPage v (rangeEl r) (bootstrapEl r) (chipsEl r) (countEl r) (filterEl r) (items r) (filterEmpty r) (sensorList r) (host r) (statusEl r) (chart r) (charts r) (nextChart r) (lastPayload r) (location r) (requests r) (nextRequest r).
Definition set_rangeEl v r := mkPage (boxes r) v (bootstrapEl r) (chipsEl r) (countEl r) (filterEl r) (items r) (filterEmpty r) (sensorList r) (host r) (statusEl r) (chart r) (charts r) (nextChart r) (lastPayload r) (location r) (requests r) (nextRequest r).
Definition set_bootstrapEl v r := mkPage (boxes r) (rangeEl r) v (chipsEl r) (countEl r) (filterEl r) (items r) (filterEmpty r) (sensorList r) (host r) (statusEl r) (chart r) (charts r) (nextChart r) (lastPayload r) (location r) (requests r) (nextRequest r).
Definition set_chipsEl v r := mkPage (boxes r) (rangeEl r) (bootstrapEl r) v (countEl r) (filterEl r) (items r) (filterEmpty r) (sensorList r) (host r) (statusEl r) (chart r) (charts r) (nextChart r) (lastPayload r) (location r) (requests r) (nextRequest r).
Definition set_countEl v r := mkPage (boxes r) (rangeEl r) (bootstrapEl r) (chipsEl r) v (filterEl r) (items r) (filterEmpty r) (sensorList r) (host r) (statusEl r) (chart r) (charts r) (nextChart r) (lastPayload r) (location r) (requests r) (nextRequest r).
Definition set_filterEl v r := mkPage (boxes r) (rangeEl r) (bootstrapEl r) (chipsEl r) (countEl r) v (items r) (filterEmpty r) (sensorList r) (host r) (statusEl r) (chart r) (charts r) (nextChart r) (lastPayload r) (location r) (requests r) (nextRequest r).
Definition set_items v r := mkPage (boxes r) (rangeEl r) (bootstrapEl r) (chipsEl r) (countEl r) (filterEl r) v (filterEmpty r) (sensorList r) (host r) (statusEl r) (chart r) (charts r) (nextChart r) (lastPayload r) (location r) (requests r) (nextRequest r).
Definition set_filterEmpty v r := mkPage (boxes r) (rangeEl r) (bootstrapEl r) (chipsEl r) (countEl r) (filterEl r) (items r) v (sensorList r) (host r) (statusEl r) (chart r) (charts r) (nextChart r) (lastPayload r) (location r) (requests r) (nextRequest r).
Definition set_sensorList v r := mkPage (boxes r) (rangeEl r) (bootstrapEl r) (chipsEl r) (countEl r) (filterEl r) (items r) (filterEmpty r) v (host r) (statusEl r) (chart r) (charts r) (nextChart r) (lastPayload r) (location r) (requests r) (nextRequest r).
Definition set_host v r := mkPage (boxes r) (rangeEl r) (bootstrapEl r) (chipsEl r) (countEl r) (filterEl r) (items r) (filterEmpty r) (sensorList r) v (statusEl r) (chart r) (charts r) (nextChart r) (lastPayload r) (location r) (requests r) (nextRequest r).
Definition set_statusEl v r := mkPage (boxes r) (rangeEl r) (bootstrapEl r) (chipsEl r) (countEl r) (filterEl r) (items r) (filterEmpty r) (sensorList r) (host r) v (chart r) (charts r) (nextChart r) (lastPayload r) (location r) (requests r) (nextRequest r).
Definition set_chart v r := mkPage (boxes r) (rangeEl r) (bootstrapEl r) (chipsEl r) (countEl r) (filterEl r) (items r) (filterEmpty r) (sensorList r) (host r) (statusEl r) v (charts r) (nextChart r) (lastPayload r) (location r) (requests r) (nextRequest r).
Definition set_charts v r := mkPage (boxes r) (rangeEl r) (bootstrapEl r) (chipsEl r) (countEl r) (filterEl r) (items r) (filterEmpty r) (sensorList r) (host r) (statusEl r) (chart r) v (nextChart r) (lastPayload r) (location r) (requests r) (nextRequest r).
Definition set_nextChart v r := mkPage (boxes r) (rangeEl r) (bootstrapEl r) (chipsEl r) (countEl r) (filterEl r) (items r) (filterEmpty r) (sensorList r) (host r) (statusEl r) (chart r) (charts r) v (lastPayload r) (location r) (requests r) (nextRequest r).
Definition set_lastPayload v r := mkPage (boxes r) (rangeEl r) (bootstrapEl r) (chipsEl r) (countEl r) (filterEl r) (items r) (filterEmpty r) (sensorList r) (host r) (statusEl r) (chart r) (charts r) (nextChart r) v (location r) (requests r) (nextRequest r).
Definition set_location v r := mkPage (boxes r) (rangeEl r) (bootstrapEl r) (chipsEl r) (countEl r) (filterEl r) (items r) (filterEmpty r) (sensorList r) (host r) (statusEl r) (chart r) (charts r) (nextChart r) (lastPayload r) v (requests r) (nextRequest r).
Definition set_requests v r := mkPage (boxes r) (rangeEl r) (bootstrapEl r) (chipsEl r) (countEl r) (filterEl r) (items r) (filterEmpty r) (sensorList r) (host r) (statusEl r) (chart r) (charts r) (nextChart r) (lastPayload r) (location r) v (nextRequest r).
Definition set_nextRequest v r := mkPage (boxes r) (rangeEl r) (bootstrapEl r) (chipsEl r) (countEl r) (filterEl r) (items r) (filterEmpty r) (sensorList r) (host r) (statusEl r) (chart r) (charts r) (nextChart r) (lastPayload r) (location r) (requests r) v.

Section Page.
Variable local : Z -> datetime.
Variable getPropertyValue : string -> text.
Variable toLowerCase : text -> text.
(** [typeof Chart !== "undefined"], and what the constructor throws. *)
Variable has_Chart : bool.
Variable new_Chart : chart_config -> option string.

Definition cssVar (name fallback : string) : text :=
  match trim (getPropertyValue name) with [] => units fallback | v => v end.

Definition themeColors : colors :=
  Colors (cssVar "--text" "#e6ebf2") (cssVar "--muted" "#8b97a8") (cssVar "--border" "#2a3340")
    (cssVar "--surface" "#161b22") (cssVar "--bg" "#0e1116").

Definition formatTick (ms spanMs : Z) : text :=
  let d := local ms in
  if 36 * 3600 * 1000 <? spanMs then nth (Z.to_nat (getMonth d)) months (units "undefined") ++ units " " ++ decimal (getDate d)
  else pad2 (getHours d) ++ units ":" ++ pad2 (getMinutes d).

Definition formatTooltipTime (ms : Z) : text :=
  let d := local ms in
  decimal (getFullYear d) ++ units "-" ++ pad2 (getMonth d + 1) ++ units "-" ++ pad2 (getDate d) ++ units " " ++
  pad2 (getHours d) ++ units ":" ++ pad2 (getMinutes d) ++ units ":" ++ pad2 (getSeconds d).

(** The functions among the options: the text of a tick, and the title over
    the points below the mouse. *)
Definition tick_text (o : opt) (value : Z) : text := match o with TickOf spanMs => formatTick value spanMs | _ => [] end.
Definition tooltip_title (o : opt) (xs : list Z) : text :=
  match o, xs with TooltipTitle, x :: _ => formatTooltipTime x | _, _ => [] end.

Definition dataset_of (i : Z) (s : series) : dataset :=
  let color := nth (Z.to_nat (i mod zlen SERIES_PALETTE)) SERIES_PALETTE [] in
  Dataset (sensor s ++ match unit_of s with Some ((_ :: _) as u) => units " (" ++ u ++ units ")" | _ => [] end)
    (map (fun p => (ts p * 1000, pvalue p)) (match points s with Some l => l | None => [] end))
    color (hexAlpha color (units "0.12")) 2 (1 # 4) true 0 4 8 false.

Fixpoint seriesToDatasets_from (i : Z) (l : list series) : list dataset :=
  match l with
  | [] => []
  | s :: l => dataset_of i s :: seriesToDatasets_from (i + 1) l
  end.
Definition seriesToDatasets (l : list series) : list dataset := seriesToDatasets_from 0 l.

Definition chartOptions (spanMs : Z) : opt :=
  let t := themeColors in
  let str s := OStr (units s) in
  (let axis_grid := Obj [("color", OStr (c_border t)); ("drawBorder", OBool false)] in
   Obj [("responsive", OBool true); ("maintainAspectRatio", OBool false); ("animation", OBool false);
     ("interaction", Obj [("mode", str "nearest"); ("axis", str "x"); ("intersect", OBool false)]);
     ("plugins", Obj [
       ("legend", Obj [("position", str "bottom");
         ("labels", Obj [("color", OStr (c_muted t)); ("boxWidth", ONum 12); ("boxHeight", ONum 12); ("padding", ONum 16);
            ("usePointStyle", OBool true); ("pointStyle", str "line")])]);
       ("tooltip", Obj [("backgroundColor", OStr (c_surface t)); ("titleColor", OStr (c_text t)); ("bodyColor", OStr (c_text t));
          ("borderColor", OStr (c_border t)); ("borderWidth", ONum 1); ("displayColors", OBool true);
          ("callbacks", Obj [("title", TooltipTitle)])])]);
     ("scales", Obj [
       ("x", Obj [("type", str "linear"); ("bounds", str "data");
          ("ticks", Obj [("color", OStr (c_muted t)); ("maxRotation", ONum 0); ("autoSkip", OBool true); ("maxTicksLimit", ONum 8);
             ("callback", TickOf spanMs)]);
          ("grid", axis_grid); ("border", Obj [("display", OBool false)])]);
       ("y", Obj [("ticks", Obj [("color", OStr (c_muted t))]); ("grid", axis_grid); ("border", Obj [("display", OBool false)])])])])%string.

(** The times of all points, in milliseconds. *)
Definition times (l : list series) : list Z :=
  flat_map (fun s => map (fun p => ts p * 1000) (match points s with Some ps => ps | None => [] end)) l.

(** The least and the greatest, [None] when there are no points. *)
Definition widen (m : option (Z * Z)) (ms : Z) : option (Z * Z) :=
  match m with
  | None => Some (ms, ms)
  | Some (least, most) => Some (if ms <? least then ms else least, if most <? ms then ms else most)
  end.

Definition dataSpanMs (l : list series) : Z :=
  match fold_left widen (times l) None with
  | Some (least, most) => if most <=? least then 3600 * 1000 else most - least
  | None => 3600 * 1000
  end.

(** ** Addresses *)

(** The serializer of [URLSearchParams]; a lone surrogate becomes U+FFFD. *)
Fixpoint usv (s : text) : text :=
  match s with
  | [] => []
  | u :: s' =>
      if Utf8.is_high u then
        match s' with
        | v :: s'' => if Utf8.is_low v then u :: v :: usv s'' else 65533 :: usv s'
        | [] => [65533]
        end
      else if Utf8.is_low u then 65533 :: usv s' else u :: usv s'
  end.
Definition form_byte (b : Z) : text :=
  if b =? 32 then [43]
  else if ((48 <=? b) && (b <=? 57)) || ((65 <=? b) && (b <=? 90)) || ((97 <=? b) && (b <=? 122)) || existsb (Z.eqb b) [42; 45; 46; 95]
  then [b] else escape_byte b.
Definition form_text (s : text) : text :=
  match Utf8.encode_units (usv s) with Some bs => flat_map form_byte bs | None => [] end.
Fixpoint serialize (ps : list (text * text)) : text :=
  match ps with
  | [] => []
  | [(n, v)] => form_text n ++ [61] ++ form_text v
  | (n, v) :: ps => form_text n ++ [61] ++ form_text v ++ [38] ++ serialize ps
  end.

Definition search (u : url) : text := match params u with [] => [] | ps => [63] ++ serialize ps end.
Definition url_text (u : url) : text := origin u ++ pathname u ++ search u ++ hash u.

Definition params_delete (n : text) (ps : list (text * text)) : list (text * text) := filter (fun p => negb (str_eqb (fst p) n)) ps.
Definition params_append (n v : text) (ps : list (text * text)) : list (text * text) := ps ++ [(n, v)].
(** The first of the name is set and the others go, or one is added. *)
Fixpoint params_set (n v : text) (ps : list (text * text)) : list (text * text) :=
  match ps with
  | [] => [(n, v)]
  | p :: ps => if str_eqb (fst p) n then (n, v) :: params_delete n ps else p :: params_set n v ps
  end.

(** The path up to its last slash. *)
Fixpoint directory (p : text) : text :=
  match p with
  | [] => []
  | c :: p => match directory p with [] => if c =? 47 then [c] else [] | d => c :: d end
  end.
Definition resolve (path : text) (base : url) : url := Url (origin base) (directory (pathname base) ++ path) [] [].

Definition range_or_default (cfg : config) : text := match range cfg with Some ((_ :: _) as r) => r | _ => units "1h" end.
Definition sensors_or_none (cfg : config) : list text := match sensors cfg with Some l => l | None => [] end.
Definition with_params (ps : list (text * text)) (u : url) : url := Url (origin u) (pathname u) ps (hash u).
Definition with_sensors (cfg : config) (u : url) : url :=
  fold_left (fun u s => with_params (params_append (units "sensor") s (params u)) u) (sensors_or_none cfg) u.

Definition buildURL (href : url) (cfg : config) : text :=
  let u := resolve (units "api/metrics") href in
  let u := with_params (params_set (units "range") (range_or_default cfg) (params u)) u in
  url_text (with_sensors cfg u).

Definition synced (cfg : config) (u : url) : url :=
  let u := with_params (params_delete (units "sensor") (params u)) u in
  let u := with_params (params_delete (units "range") (params u)) u in
  let u := with_params (params_set (units "range") (range_or_default cfg) (params u)) u in
  let u := with_sensors cfg u in
  Url (origin u) (pathname u) (params u) [].
Definition syncURL (cfg : config) : M page unit := modify (fun g => set_location (synced cfg (location g)) g).

(** ** The picker *)

Definition bootstrap (g : page) : config :=
  match bootstrapEl g with
  | Some (Some cfg) => cfg
  | _ => Config (Some (units "1h")) (Some [])
  end.

Definition selectedSensors (g : page) : list text := map fst (filter snd (boxes g)).

Definition syncPickerUI : M page unit :=
  g <- get ;;
  let selected := selectedSensors g in
  modify (fun g => set_countEl (option_map (fun _ => decimal (zlen selected)) (countEl g)) g) ;;
  modify (fun g => set_chipsEl (option_map (fun _ => match selected with [] => NoneSelected | _ => Chips selected end) (chipsEl g)) g).

(** The first box of the name is unticked. *)
Fixpoint untick (name : text) (l : list (text * bool)) : option (list (text * bool)) :=
  match l with
  | [] => None
  | (n, b) :: l => if str_eqb n name then Some ((n, false) :: l) else option_map (cons (n, b)) (untick name l)
  end.

(** The button of a chip. *)
Definition remove_chip (name : text) : M page unit :=
  g <- get ;;
  match untick name (boxes g) with
  | Some l => modify (set_boxes l) ;; syncPickerUI
  | None => ret tt
  end.

Definition clear : M page unit :=
  modify (fun g => set_boxes (map (fun p => (fst p, false)) (boxes g)) g) ;; syncPickerUI.

Definition shown_for (q : text) (name : option text) : bool :=
  match q with [] => true | _ => occurs q (toLowerCase (match name with Some n => n | None => [] end)) end.

Definition applyFilter : M page unit :=
  g <- get ;;
  let q := toLowerCase (trim (match filterEl g with Some v => v | None => [] end)) in
  let l := map (fun it => (fst it, negb (shown_for q (fst it)))) (items g) in
  let visible := zlen (filter (fun it => negb (snd it)) l) in
  modify (set_items l) ;;
  modify (fun g => set_filterEmpty (option_map (fun _ => (0 <? visible) || negb (sensorList g)) (filterEmpty g)) g).

(** ** Drawing *)

Definition destroyChart : M page unit :=
  g <- get ;;
  match chart g with
  | Some id => modify (fun g => set_chart None (set_charts (filter (fun c => negb (fst c =? id)) (charts g)) g))
  | None => ret tt
  end.

Definition innerHTML_empty : M page unit := modify (fun g => set_host (option_map (fun _ => []) (host g)) g).

Definition ensureCanvas : M page unit :=
  modify (fun g => set_host (option_map (fun l => if existsb (fun n => match n with CanvasNode => true | OtherNode => false end) l then l else [CanvasNode]) (host g)) g).

Definition total_of (l : list series) : Z :=
  fold_left (fun n s => n + match points s with Some ps => zlen ps | None => 0 end) l 0.

Definition status_text (p : payload) (l : list series) : text :=
  let total := total_of l in
  if negb (total =? 0) then decimal total ++ units " samples " ++ [183] ++ units " " ++ decimal (zlen l) ++ units " series"
  else if warm p then units "No samples in this window yet." else units "Collector warming" ++ [8230].

Definition setStatus (t : text) : M page unit := modify (fun g => set_statusEl (option_map (fun _ => t) (statusEl g)) g).

Definition make_chart (cfg : chart_config) : M page unit :=
  match new_Chart cfg with
  | Some e => throw e
  | None =>
      g <- get ;;
      modify (fun g => set_chart (Some (nextChart g)) (set_charts (charts g ++ [(nextChart g, cfg)]) (set_nextChart (nextChart g + 1) g)))
  end.

Definition render (p : payload) : M page unit :=
  g <- get ;;
  match host g with
  | None => ret tt
  | Some _ =>
      if negb has_Chart then ret tt
      else
        modify (set_lastPayload (Some p)) ;;
        let l := match series_of p with Some l => l | None => [] end in
        setStatus (status_text p l) ;;
        if total_of l =? 0 then destroyChart ;; innerHTML_empty
        else
          destroyChart ;;
          innerHTML_empty ;;
          ensureCanvas ;;
          make_chart (ChartConfig (units "line") (seriesToDatasets l) (chartOptions (dataSpanMs l)))
  end.

Definition applyThemeToChart : M page unit :=
  g <- get ;;
  match lastPayload g with
  | None => ret tt
  | Some p => destroyChart ;; innerHTML_empty ;; render p
  end.

(** ** Loading *)

Definition currentConfig (g : page) : config :=
  let cfg := bootstrap g in
  Config (match rangeEl g with Some r => Some r | None => range cfg end) (Some (selectedSensors g)).

(** The request goes out; its answer comes with [answered]. *)
Definition load : M page unit :=
  g <- get ;;
  let address := buildURL (location g) (currentConfig g) in
  modify (fun g => set_requests (requests g ++ [(nextRequest g, address)]) (set_nextRequest (nextRequest g + 1) g)).

(** How a request ends: the data, another status, or an error of its own. *)
Inductive answer := Data (p : payload) | HttpStatus (n : Z) | Failed (message : text).

Definition failed_to_load (message : text) : M page unit := setStatus (units "Failed to load metrics: " ++ message).

Definition answered (id : Z) (a : answer) : M page unit :=
  modify (fun g => set_requests (filter (fun r => negb (fst r =? id)) (requests g)) g) ;;
  match a with
  | Data p => fun g =>
      match render p g with
      | (Throw e, g') => failed_to_load (units e) g'
      | r => r
      end
  | HttpStatus n => failed_to_load (units "HTTP " ++ decimal n)
  | Failed m => failed_to_load m
  end.

(** ** Events *)

Definition onReady : M page unit := syncPickerUI ;; applyFilter ;; load.

Definition submit : M page unit := g <- get ;; syncURL (currentConfig g) ;; load.

(** [change] in the form, on a box of a sensor, on the range or elsewhere. *)
Inductive changed := SensorBox | RangeList | OtherField.
Definition change (t : changed) : M page unit :=
  match t with
  | SensorBox => syncPickerUI
  | RangeList => load
  | OtherField => ret tt
  end.

(** What happens on the page. *)
Inductive event :=
| Tick (i : nat) (on : bool)
| ChooseRange (r : text)
| Typed (q : text)
| Submit
| RemoveChip (name : text)
| Clear
| ThemeChanged
| EveryQuarterMinute
| Answered (id : Z) (a : answer).

Definition set_box (i : nat) (on : bool) (l : list (text * bool)) : list (text * bool) :=
  firstn i l ++ match skipn i l with (n, _) :: l => (n, on) :: l | [] => [] end.

Definition happens (e : event) : M page unit :=
  match e with
  | Tick i on => modify (fun g => set_boxes (set_box i on (boxes g)) g) ;; change SensorBox
  | ChooseRange r => modify (fun g => set_rangeEl (option_map (fun _ => r) (rangeEl g)) g) ;; change RangeList
  | Typed q => modify (fun g => set_filterEl (option_map (fun _ => q) (filterEl g)) g) ;; applyFilter
  | Submit => submit
  | RemoveChip name => remove_chip name
  | Clear => clear
  | ThemeChanged => applyThemeToChart
  | EveryQuarterMinute => load
  | Answered id a => answered id a
  end.
End Page.
End Metrics.
