(* ===== verification/MetricsCorrect.v ===== *)
(** The page of sensor history: picker, filter and chart stay in step over
    everything that happens on the page, the time span covers the samples, and
    the server reads from an address what was chosen. *)

From Stdlib Require Import ZArith List Lia Bool String QArith.
From S2P Require Import Prelude Utf8 Webutil Ui Metrics.
Import ListNotations JS JSFacts WebUtil Metrics.
Open Scope Z_scope.
Open Scope code_scope.

Module MetricsCorrect.

(** * The filter *)

Lemma after_spec q : forall s r, after q s = Some r <-> s = q ++ r.
Proof.
  induction q as [|a q IH]; intros s r; cbn [after app]; [split; congruence|].
  destruct s as [|b s]; [split; discriminate|]. destruct (Z.eqb_spec a b) as [->|Hne].
  - rewrite IH. split; congruence.
  - split; [discriminate|congruence].
Qed.

Lemma occurs_spec q s : occurs q s = true <-> exists a b, s = a ++ q ++ b.
Proof.
  induction s as [|c s IH]; cbn [occurs].
  - destruct (after q []) as [r|] eqn:E.
    + apply after_spec in E. split; [intros _; exists [], r; exact E|reflexivity].
    + split; [discriminate|]. intros (a & b & Hs). destruct a; [|discriminate]. apply (after_spec q [] b) in Hs. congruence.
  - destruct (after q (c :: s)) as [r|] eqn:E.
    + apply after_spec in E. split; [intros _; exists [], r; exact E|reflexivity].
    + rewrite IH. split; intros (a & b & Hs).
      * exists (c :: a), b. cbn. now rewrite Hs.
      * destruct a as [|d a]; [apply (after_spec q (c :: s) b) in Hs; congruence|]. injection Hs as _ Hs. now exists a, b.
Qed.

(** * The span of the samples *)

Definition bounds_of (m : option (Z * Z)) (l : list Z) : Prop :=
  match m with
  | None => l = []
  | Some (a, b) => In a l /\ In b l /\ forall x, In x l -> a <= x <= b
  end.

Lemma widen_bounds m l x : bounds_of m l -> bounds_of (widen m x) (l ++ [x]).
Proof.
  destruct m as [[a b]|]; cbn [bounds_of widen].
  - intros (Ha & Hb & Hl). destruct (Z.ltb_spec x a), (Z.ltb_spec b x);
      (split; [|split]; [apply in_or_app; cbn; auto..|]; intros y Hy; apply in_app_or in Hy as [Hy|[<-|[]]]; [specialize (Hl y Hy)|specialize (Hl a Ha)]; lia).
  - intros ->. repeat split; try (now left); destruct H as [<-|[]]; lia.
Qed.

Lemma fold_bounds l : forall m done, bounds_of m done -> bounds_of (fold_left widen l m) (done ++ l).
Proof.
  induction l as [|x l IH]; intros m done Hm; [now rewrite app_nil_r|]. cbn [fold_left].
  replace (done ++ x :: l) with ((done ++ [x]) ++ l) by now rewrite <- app_assoc. apply IH, widen_bounds, Hm.
Qed.

(** The axis spans the time between the first and the last sample, and an hour
    when all are of one moment or there are none. *)
Theorem span_of_samples l :
  0 < dataSpanMs l /\
  (forall x y, In x (times l) -> In y (times l) -> y - x <= dataSpanMs l) /\
  ((exists x y, In x (times l) /\ In y (times l) /\ x <> y) -> exists x y, In x (times l) /\ In y (times l) /\ dataSpanMs l = y - x).
Proof.
  unfold dataSpanMs. assert (H := fold_bounds (times l) None [] eq_refl). cbn [app] in H.
  destruct (fold_left widen (times l) None) as [[a b]|]; cbn [bounds_of] in H.
  - destruct H as (Ha & Hb & Hl). destruct (Z.leb_spec b a).
    + split; [lia|]. split; [intros x y Hx Hy; specialize (Hl x Hx) as H1; specialize (Hl y Hy); lia|].
      intros (x & y & Hx & Hy & Hne). specialize (Hl x Hx) as H1. specialize (Hl y Hy). lia.
    + split; [lia|]. split; [intros x y Hx Hy; specialize (Hl x Hx) as H1; specialize (Hl y Hy); lia|]. intros _. now exists a, b.
  - rewrite H. repeat split; [intros x y []|intros (x & y & [] & _)].
Qed.

(** * Addresses *)

(** What a server reads from a query: pairs between [&], a name before the
    first [=], [+] a blank, escaped bytes, UTF-8. *)
Fixpoint form_bytes (s : text) : option (list Z) :=
  match s with
  | [] => Some []
  | c :: s =>
      if c =? 37 then
        match s with
        | a :: b :: s =>
            match hex_digit a, hex_digit b with
            | Some x, Some y => option_map (cons (16 * x + y)) (form_bytes s)
            | _, _ => None
            end
        | _ => None
        end
      else option_map (cons (if c =? 43 then 32 else c)) (form_bytes s)
  end.
Definition form_read (s : text) : option text :=
  match form_bytes s with
  | Some bs => Utf8.decode_units (List.length bs) bs
  | None => None
  end.
Definition pair_read (s : text) : option (text * text) :=
  let n := until (Z.eqb 61) s in
  match form_read n, form_read (tl (skipn (List.length n) s)) with
  | Some n, Some v => Some (n, v)
  | _, _ => None
  end.
Fixpoint query_read (ps : list text) : option (list (text * text)) :=
  match ps with
  | [] => Some []
  | p :: ps => match pair_read p, query_read ps with Some p, Some ps => Some (p :: ps) | _, _ => None end
  end.

(** A character of a serialized text: neither [&] nor [=]. *)
Definition inner (c : Z) : Prop := c <> 38 /\ c <> 61.

Lemma form_byte_inner b : 0 <= b < 256 -> Forall inner (form_byte b).
Proof.
  intros Hb. unfold form_byte. destruct (b =? 32); [repeat constructor; discriminate|].
  destruct (_ || _) eqn:E.
  - constructor; [|constructor]. cbn [existsb] in E. split; intros ->; discriminate E.
  - unfold escape_byte. assert (Hh : forall d, 0 <= d < 16 -> inner (to_hex d)) by (intros d Hd; unfold to_hex, inner; destruct (Z.ltb_spec d 10); lia).
    assert (H1 : 0 <= b / 16 < 16) by (split; [apply Z.div_pos|apply Z.div_lt_upper_bound]; lia). assert (H2 := Z.mod_pos_bound b 16 ltac:(lia)).
    constructor; [split; discriminate|]. constructor; [apply Hh; lia|]. constructor; [apply Hh; lia|constructor].
Qed.

Lemma form_byte_read b s : 0 <= b < 256 -> form_bytes (form_byte b ++ s) = option_map (cons b) (form_bytes s).
Proof.
  intros Hb. unfold form_byte. destruct (Z.eqb_spec b 32) as [->|H32]; [reflexivity|].
  destruct (_ || _) eqn:E.
  - cbn [app form_bytes]. destruct (Z.eqb_spec b 37) as [->|]; [discriminate E|]. destruct (Z.eqb_spec b 43) as [->|]; [discriminate E|]. reflexivity.
  - assert (H1 : 0 <= b / 16 < 16) by (split; [apply Z.div_pos|apply Z.div_lt_upper_bound]; lia). assert (H2 := Z.mod_pos_bound b 16 ltac:(lia)).
    cbn [escape_byte app form_bytes Z.eqb Pos.eqb]. rewrite !hex_back by lia. now rewrite <- Z.div_mod by lia.
Qed.

Lemma form_bytes_read bs s : bytes bs -> form_bytes (flat_map form_byte bs ++ s) = option_map (app bs) (form_bytes s).
Proof.
  induction 1 as [|b bs Hb Hbs IH]; [cbn; now destruct (form_bytes s)|]. cbn [flat_map]. rewrite <- app_assoc, form_byte_read, IH by exact Hb.
  now destruct (form_bytes s).
Qed.

Lemma usv_well_formed s : Utf8.well_formed s -> usv s = s.
Proof. induction 1 as [|u s Hu Hh Hl _ IH|u v s Hh Hl _ IH]; cbn [usv]; [reflexivity|rewrite Hh, Hl; congruence|rewrite Hh, Hl; congruence]. Qed.

(** A text is read back, and none of its characters separates. *)
Lemma form_text_read s : Utf8.well_formed s -> form_read (form_text s) = Some s /\ Forall inner (form_text s).
Proof.
  intros Hs. unfold form_text. rewrite usv_well_formed by exact Hs. destruct (Utf8.encode_roundtrip s Hs) as (bs & E & Hd).
  rewrite E. assert (Hb := Utf8.encode_units_bytes s Hs bs E). split.
  - unfold form_read. assert (Ef := form_bytes_read bs [] Hb). rewrite app_nil_r in Ef. rewrite Ef. cbn [form_bytes option_map]. rewrite app_nil_r. destruct (Nat.le_ge_cases (List.length s) (List.length bs)) as [Hle|Hge]; [exact (Utf8.decode_units_le bs _ _ s Hle Hd)|].
    rewrite <- Hd. symmetry. now apply Utf8.decode_units_enough.
  - clear E Hd. induction Hb as [|b bs Hb _ IH]; [constructor|]. cbn [flat_map]. apply Forall_app. split; [now apply form_byte_inner|exact IH].
Qed.

Definition plain_pair (p : text * text) : Prop := Utf8.well_formed (fst p) /\ Utf8.well_formed (snd p).

Lemma until_inner c n rest : c = 38 \/ c = 61 -> Forall inner n -> until (Z.eqb c) (n ++ c :: rest) = n.
Proof.
  intros Hc Hn. apply until_app; [|apply Z.eqb_refl]. apply (Forall_impl _ (P := inner)); [|exact Hn]. intros x [H1 H2]. apply Z.eqb_neq. lia.
Qed.

Lemma pair_read_back n v : plain_pair (n, v) -> pair_read (form_text n ++ [61] ++ form_text v) = Some (n, v).
Proof.
  intros [Hn Hv]. cbn [fst snd] in *. destruct (form_text_read n Hn) as [En In], (form_text_read v Hv) as [Ev _].
  unfold pair_read. cbn [app]. rewrite until_inner by auto. rewrite En, skipn_app, skipn_all, Nat.sub_diag. cbn [skipn app tl]. now rewrite Ev.
Qed.

Lemma split_pair n v rest : plain_pair (n, v) -> split 38 ((form_text n ++ [61] ++ form_text v) ++ 38 :: rest) = (form_text n ++ [61] ++ form_text v) :: split 38 rest.
Proof.
  intros [Hn Hv]. apply split_at. destruct (form_text_read n Hn) as [_ In], (form_text_read v Hv) as [_ Iv].
  assert (Hi : forall l, Forall inner l -> Forall (fun c => c <> 38) l) by (intros l; apply Forall_impl; intros x [H _]; exact H).
  repeat (apply Forall_app; split); auto. repeat constructor. discriminate.
Qed.

Lemma one_pair n v : plain_pair (n, v) -> split 38 (form_text n ++ [61] ++ form_text v) = [form_text n ++ [61] ++ form_text v].
Proof.
  intros [Hn Hv]. apply split_none. destruct (form_text_read n Hn) as [_ In], (form_text_read v Hv) as [_ Iv].
  assert (Hi : forall l, Forall inner l -> Forall (fun c => c <> 38) l) by (intros l; apply Forall_impl; intros x [H _]; exact H).
  repeat (apply Forall_app; split); auto. repeat constructor. discriminate.
Qed.

Lemma query_read_back ps : Forall plain_pair ps -> ps <> [] -> query_read (split 38 (serialize ps)) = Some ps.
Proof.
  intros H. induction H as [|[n v] ps Hp Hps IH]; [congruence|]. intros _. destruct ps as [|p ps].
  - cbn [serialize]. rewrite one_pair by exact Hp. cbn [query_read]. now rewrite pair_read_back.
  - assert (E : serialize ((n, v) :: p :: ps) = (form_text n ++ [61] ++ form_text v) ++ 38 :: serialize (p :: ps)) by (cbn [serialize]; now rewrite <- !app_assoc).
    rewrite E, split_pair by exact Hp. cbn [query_read]. rewrite pair_read_back by exact Hp. now rewrite IH.
Qed.

(** ** The requests *)

Definition chosen (cfg : config) : list (text * text) := (units "range", range_or_default cfg) :: map (pair (units "sensor")) (sensors_or_none cfg).

Lemma with_sensors_spec cfg u : with_sensors cfg u = with_params (params u ++ map (pair (units "sensor")) (sensors_or_none cfg)) u.
Proof.
  unfold with_sensors. generalize (sensors_or_none cfg) as l. intros l. revert u. induction l as [|s l IH]; intros u; cbn [fold_left map].
  - rewrite app_nil_r. now destruct u.
  - rewrite IH. cbn [with_params params origin pathname hash]. unfold params_append. now rewrite <- app_assoc.
Qed.

Lemma set_absent n v ps : Forall (fun p => str_eqb (fst p) n = false) ps -> params_set n v ps = ps ++ [(n, v)].
Proof. induction 1 as [|p ps Hp _ IH]; cbn [params_set app]; [reflexivity|]. now rewrite Hp, IH. Qed.

Lemma deleted n ps : Forall (fun p => str_eqb (fst p) n = false) (params_delete n ps).
Proof. apply Forall_forall. intros p Hp. apply filter_In in Hp as [_ Hp]. now apply negb_true_iff. Qed.

Definition well_chosen (cfg : config) : Prop := Utf8.well_formed (range_or_default cfg) /\ Forall Utf8.well_formed (sensors_or_none cfg).

Lemma ascii_well_formed s : Forall (fun c => 0 <= c < 128) s -> Utf8.well_formed s.
Proof.
  induction 1 as [|c s Hc _ IH]; constructor; auto; [lia|unfold Utf8.is_high|unfold Utf8.is_low]; apply andb_false_intro1, Z.leb_gt; lia.
Qed.

Lemma ascii_check s : forallb (fun c => (0 <=? c) && (c <? 128)) s = true -> Utf8.well_formed s.
Proof.
  intros H. apply ascii_well_formed, Forall_forall. intros c Hc. rewrite forallb_forall in H. specialize (H c Hc). apply andb_true_iff in H as [H1 H2].
  apply Z.leb_le in H1. apply Z.ltb_lt in H2. lia.
Qed.

Lemma chosen_plain cfg : well_chosen cfg -> Forall plain_pair (chosen cfg).
Proof.
  intros [Hr Hs]. assert (Ha : Utf8.well_formed (units "range") /\ Utf8.well_formed (units "sensor")) by (split; now apply ascii_check).
  constructor; [split; [apply Ha|exact Hr]|]. apply Forall_map. apply (Forall_impl _ (P := Utf8.well_formed)); [|exact Hs]. intros s H. split; [apply Ha|exact H].
Qed.

(** The pairs of the address that are not the page's own. *)
Definition others (u : url) : list (text * text) := params_delete (units "range") (params_delete (units "sensor") (params u)).

Lemma synced_params cfg u : params (synced cfg u) = others u ++ chosen cfg /\ pathname (synced cfg u) = pathname u /\ origin (synced cfg u) = origin u.
Proof.
  unfold synced. rewrite with_sensors_spec. cbn [with_params params pathname origin]. rewrite set_absent by apply deleted.
  split; [|split; reflexivity]. rewrite <- app_assoc. reflexivity.
Qed.

Lemma filter_twice {A} (f : A -> bool) l : filter f (filter f l) = filter f l.
Proof. induction l as [|a l IH]; [reflexivity|]. cbn [filter]. destruct (f a) eqn:Ef; cbn [filter]; [rewrite Ef; now f_equal|exact IH]. Qed.

Lemma filter_comm {A} (f h : A -> bool) l : filter f (filter h l) = filter h (filter f l).
Proof. induction l as [|a l IH]; [reflexivity|]. cbn [filter]. destruct (h a) eqn:Eh, (f a) eqn:Ef; cbn [filter]; rewrite ?Eh, ?Ef; congruence. Qed.

Lemma others_synced cfg u : others (synced cfg u) = others u.
Proof.
  unfold others. destruct (synced_params cfg u) as [-> _]. unfold params_delete. rewrite !filter_app.
  assert (En : params_delete (units "range") (params_delete (units "sensor") (chosen cfg)) = []).
  { unfold chosen, params_delete. cbn [filter fst]. change (negb (str_eqb (units "range") (units "sensor"))) with true.
    cbn [filter fst]. change (negb (str_eqb (units "range") (units "range"))) with false. cbn iota.
    induction (sensors_or_none cfg) as [|s l IH]; [reflexivity|]. cbn [map filter fst]. change (negb (str_eqb (units "sensor") (units "sensor"))) with false. exact IH. }
  fold (params_delete (units "sensor") (chosen cfg)). fold (params_delete (units "range") (params_delete (units "sensor") (chosen cfg))).
  rewrite En, app_nil_r. unfold others, params_delete. 
  rewrite (filter_comm (fun p => negb (str_eqb (fst p) (units "sensor"))) (fun p => negb (str_eqb (fst p) (units "range")))). now rewrite !filter_twice.
Qed.

(** C39.  From the address of a request, and from that the page takes when a choice
    is applied, the server reads the range and the sensors chosen, in order;
    the latter keeps the other pairs it had, and applying again changes
    nothing. *)
Theorem choice_read_back cfg href : well_chosen cfg -> Forall plain_pair (params href) ->
  (exists q, buildURL href cfg = origin href ++ directory (pathname href) ++ units "api/metrics" ++ [63] ++ q /\
     query_read (split 38 q) = Some (chosen cfg)) /\
  (exists q, search (synced cfg href) = [63] ++ q /\ query_read (split 38 q) = Some (others href ++ chosen cfg)) /\
  params (synced cfg (synced cfg href)) = params (synced cfg href).
Proof.
  intros Hc Hp. assert (Hch := chosen_plain cfg Hc). split; [|split].
  - exists (serialize (chosen cfg)). split; [|apply query_read_back; [exact Hch|discriminate]].
    unfold buildURL. rewrite with_sensors_spec. unfold url_text, search, resolve, with_params. cbn [params_set params origin pathname hash app].
    rewrite app_nil_r, <- app_assoc. reflexivity.
  - destruct (synced_params cfg href) as [E _]. exists (serialize (others href ++ chosen cfg)). unfold search. rewrite E. split.
    + destruct (others href ++ chosen cfg) eqn:Ea; [|reflexivity]. apply app_eq_nil in Ea as [_ Ea]. discriminate Ea.
    + apply query_read_back; [|intros Ea; apply app_eq_nil in Ea as [_ Ea]; discriminate Ea]. apply Forall_app. split; [|exact Hch].
      unfold others, params_delete. apply Forall_forall. intros p Hin. apply filter_In in Hin as [Hin _]. apply filter_In in Hin as [Hin _].
      rewrite Forall_forall in Hp. now apply Hp.
  - destruct (synced_params cfg href) as [E _], (synced_params cfg (synced cfg href)) as [E2 _]. now rewrite E2, E, others_synced.
Qed.

(** * The page *)

Section Page.
Variable local : Z -> datetime.
Variable getPropertyValue : string -> text.
Variable toLowerCase : text -> text.
Variable has_Chart : bool.
Variable new_Chart : chart_config -> option string.
Implicit Types g : page.
Abbreviation happens := (Metrics.happens getPropertyValue toLowerCase has_Chart new_Chart).
Abbreviation render := (Metrics.render getPropertyValue has_Chart new_Chart).
Abbreviation applyFilter := (Metrics.applyFilter toLowerCase).

Definition query_of g : text := toLowerCase (trim (match filterEl g with Some v => v | None => [] end)).
Definition item_shown g (it : option text * bool) : bool := shown_for toLowerCase (query_of g) (fst it).

(** The count and the chips are of the boxes ticked, in their order. *)
Record picker_ok g : Prop := {
  chips_right c : chipsEl g = Some c -> c = match selectedSensors g with [] => NoneSelected | l => Chips l end;
  count_right t : countEl g = Some t -> t = decimal (zlen (selectedSensors g))
}.

(** An item is hidden when the filter does not find it; the note that none is
    found is there when there is a list and all are hidden. *)
Record filter_ok g : Prop := {
  item_right it : In it (items g) -> snd it = negb (item_shown g it);
  note_right b : filterEmpty g = Some b -> b = existsb (item_shown g) (items g) || negb (sensorList g)
}.

(** One chart lives at most: that of the last answer, on a canvas that is all
    the page shows in its place. *)
Record chart_ok g : Prop := {
  fresh_chart c : In c (charts g) -> fst c < nextChart g;
  one_chart : match chart g with
    | None => charts g = []
    | Some id => exists cfg p l, charts g = [(id, cfg)] /\ lastPayload g = Some p /\ series_of p = Some l /\ total_of l <> 0 /\
        datasets cfg = seriesToDatasets l /\ options cfg = chartOptions getPropertyValue (dataSpanMs l) /\ host g = Some [CanvasNode]
    end
}.

Record page_ok g : Prop := { ok_picker : picker_ok g; ok_filter : filter_ok g; ok_chart : chart_ok g }.

(** Runs keep a property, however they end. *)
Definition preserves {A} (I : page -> Prop) (m : M page A) : Prop := forall g, I g -> I (snd (m g)).

Lemma preserves_bind {A B} I (m : M page A) (k : A -> M page B) : preserves I m -> (forall a, preserves I (k a)) -> preserves I (bind m k).
Proof. intros Hm Hk g Hg. unfold bind. specialize (Hm g Hg). destruct (m g) as [[a|e|] g1]; cbn [snd] in *; auto. now apply Hk. Qed.

Lemma preserves_modify I f : (forall g, I g -> I (f g)) -> preserves I (modify f).
Proof. intros Hf g Hg. now apply Hf. Qed.

Lemma preserves_get {B} I (k : page -> M page B) : (forall g, preserves I (k g)) -> preserves I (bind get k).
Proof. intros Hk g Hg. now apply Hk. Qed.

Lemma picker_synced g : picker_ok (snd (syncPickerUI g)).
Proof. constructor; intros x; cbn; [destruct (chipsEl g)|destruct (countEl g)]; cbn; try discriminate; intros [= <-]; unfold selectedSensors; cbn; try reflexivity. now destruct (map fst _). Qed.

Lemma filter_applied g : filter_ok (snd (applyFilter g)).
Proof.
  constructor.
  - intros it. cbn. intros Hin. apply in_map_iff in Hin as (it0 & <- & _). reflexivity.
  - intros b. cbn. destruct (filterEmpty g) as [b0|]; cbn; [|discriminate]. intros [= <-]. f_equal. unfold item_shown. cbn.
    fold (query_of g). change (query_of (set_filterEmpty _ _)) with (query_of g).
    induction (items g) as [|it l IH]; [reflexivity|]. cbn [map existsb filter snd fst]. rewrite negb_involutive.
    destruct (shown_for toLowerCase (query_of g) (fst it)); cbn [orb]; [|exact IH]. rewrite zlen_cons. apply Z.ltb_lt.
    match goal with |- 0 < 1 + zlen ?l => assert (H := zlen_nonneg l); lia end.
Qed.

(** What the picker and the filter use. *)
Definition beside g := (boxes g, chipsEl g, countEl g, filterEl g, items g, filterEmpty g, sensorList g).

Lemma beside_ok g g' : beside g' = beside g -> picker_ok g /\ filter_ok g -> picker_ok g' /\ filter_ok g'.
Proof.
  unfold beside. intros [= E1 E2 E3 E4 E5 E6 E7] [[P1 P2] [F1 F2]]. split; constructor.
  - intros c. unfold selectedSensors. rewrite E1, E2. apply P1.
  - intros t. unfold selectedSensors. rewrite E1, E3. apply P2.
  - intros it. unfold item_shown, query_of. rewrite E4, E5. apply F1.
  - intros b. unfold item_shown, query_of. rewrite E4, E5, E6, E7. apply F2.
Qed.

(** What the chart uses. *)
Lemma chart_beside g g' : (charts g', nextChart g', chart g', lastPayload g', host g') = (charts g, nextChart g, chart g, lastPayload g, host g) -> chart_ok g -> chart_ok g'.
Proof. intros [= E1 E2 E3 E4 E5] [C1 C2]. constructor; rewrite E1, ?E2, ?E3, ?E4, ?E5; assumption. Qed.

(** At most one chart lives, whatever is known of it. *)
Record chart_known g : Prop := {
  known_fresh c : In c (charts g) -> fst c < nextChart g;
  known_one : match chart g with None => charts g = [] | Some id => exists cfg, charts g = [(id, cfg)] end
}.

Lemma ok_known g : chart_ok g -> chart_known g.
Proof. intros [C1 C2]. constructor; [exact C1|]. destruct (chart g); [destruct C2 as (cfg & _ & _ & E & _); now exists cfg|exact C2]. Qed.

Lemma destroy_run g : chart_known g -> destroyChart g = (Ret tt, set_chart None (set_charts [] g)).
Proof.
  intros [_ H]. unfold destroyChart, bind, get. destruct (chart g) as [id|] eqn:E.
  - destruct H as [cfg H]. unfold modify. rewrite H. cbn [filter fst]. now rewrite Z.eqb_refl.
  - unfold ret. destruct g. cbn in *. now subst.
Qed.

Lemma render_run p g : chart_known g -> host g <> None -> has_Chart = true ->
  chart_ok (snd (render p g)) /\ beside (snd (render p g)) = beside g.
Proof.
  intros Hk Hh Hc. unfold Metrics.render. rewrite Hc. cbn [negb]. rewrite (bind_run get _ g g g eq_refl). destruct (host g) as [h|] eqn:Eh; [|congruence].
  set (l := match series_of p with Some l => l | None => [] end). set (g1 := snd ((modify (set_lastPayload (Some p)) ;; setStatus (status_text p l)) g)).
  assert (Hk1 : chart_known g1) by (destruct Hk as [K1 K2]; constructor; [exact K1|exact K2]).
  assert (E1 : forall B (k : M page B), (modify (set_lastPayload (Some p)) ;; setStatus (status_text p l) ;; k) g = k g1) by reflexivity.
  rewrite E1. destruct (Z.eqb_spec (total_of l) 0) as [Ht|Ht].
  - rewrite (bind_run _ _ _ _ _ (destroy_run g1 Hk1)). split; [constructor; [intros c []|reflexivity]|reflexivity].
  - rewrite (bind_run _ _ _ _ _ (destroy_run g1 Hk1)). unfold make_chart. set (cfg := ChartConfig _ _ _).
    destruct (new_Chart cfg) as [e|]; cbn -[total_of chartOptions seriesToDatasets dataSpanMs g1 cfg].
    + split; [constructor; [intros c []|reflexivity]|reflexivity].
    + split; [|reflexivity]. constructor; cbn -[total_of chartOptions seriesToDatasets dataSpanMs cfg].
      * intros c [<-|[]]. cbn. lia.
      * exists cfg, p, l. unfold cfg. cbn [datasets options]. rewrite Eh. cbn [option_map existsb].
        assert (Es : series_of p = Some l) by (unfold l in *; destruct (series_of p); [reflexivity|now destruct Ht]). repeat split; auto.
Qed.

Lemma render_ok p g : chart_ok g -> chart_ok (snd (render p g)) /\ beside (snd (render p g)) = beside g.
Proof.
  intros Hok. destruct (host g) as [h|] eqn:Eh; [destruct has_Chart eqn:Ec|].
  - rewrite <- Ec. apply render_run; [now apply ok_known|congruence|exact Ec].
  - unfold Metrics.render, bind, get. now rewrite Eh.
  - unfold Metrics.render, bind, get. now rewrite Eh.
Qed.

Lemma theme_ok g : chart_ok g -> chart_ok (snd (applyThemeToChart getPropertyValue has_Chart new_Chart g)) /\
  beside (snd (applyThemeToChart getPropertyValue has_Chart new_Chart g)) = beside g.
Proof.
  intros Hok. unfold applyThemeToChart. rewrite (bind_run get _ g g g eq_refl). destruct (lastPayload g) as [p|] eqn:Ep; [|split; [exact Hok|reflexivity]].
  rewrite (bind_run _ _ _ _ _ (destroy_run g (ok_known g Hok))). rewrite (bind_run innerHTML_empty _ _ tt _ eq_refl).
  match goal with |- chart_ok (snd (render p ?g2)) /\ _ => destruct (render_ok p g2) as [C B]; [constructor; [intros c []|reflexivity]|] end.
  split; [exact C|]. now rewrite B.
Qed.

Lemma answered_ok id a g : chart_ok g -> chart_ok (snd (answered getPropertyValue has_Chart new_Chart id a g)) /\
  beside (snd (answered getPropertyValue has_Chart new_Chart id a g)) = beside g.
Proof.
  intros Hok. unfold answered. set (g1 := set_requests (filter (fun r => negb (fst r =? id)) (requests g)) g).
  assert (H1 : chart_ok g1) by (apply (chart_beside g); [reflexivity|exact Hok]).
  rewrite after_modify. fold g1. destruct a as [p|n|m]; [|split; [now apply (chart_beside g)|reflexivity]..].
  destruct (render_ok p g1 H1) as [C B]. destruct (render p g1) as [[u|e|] g2]; cbn [snd] in C, B; [split; assumption| |split; assumption].
  split; [now apply (chart_beside g2)|exact B].
Qed.

Lemma chart_only g g' : chart_ok g' /\ beside g' = beside g -> page_ok g -> page_ok g'.
Proof. intros [C B] [P F _]. destruct (beside_ok g g' B (conj P F)) as [P' F']. now constructor. Qed.

(** What only ticks boxes, followed by the chips. *)
Lemma ticked_ok l g : page_ok g -> page_ok (snd (syncPickerUI (set_boxes l g))).
Proof.
  intros [_ [F1 F2] C]. constructor; [apply picker_synced|constructor; [exact F1|exact F2]|]. now apply (chart_beside g).
Qed.

Lemma happens_ok e g : page_ok g -> page_ok (snd (happens e g)).
Proof.
  intros Hok. destruct e as [i on|r|q| |name| | | |id a]; cbn [Metrics.happens].
  - rewrite after_modify. now apply ticked_ok.
  - apply (chart_only g); [split; [now apply (chart_beside g), ok_chart|reflexivity]|exact Hok].
  - rewrite after_modify. destruct Hok as [[P1 P2] _ C]. constructor; [constructor; [exact P1|exact P2]|apply filter_applied|now apply (chart_beside g)].
  - apply (chart_only g); [split; [now apply (chart_beside g), ok_chart|reflexivity]|exact Hok].
  - unfold remove_chip. rewrite (bind_run get _ g g g eq_refl). destruct (untick name (boxes g)) as [l|]; [|exact Hok].
    rewrite after_modify. now apply ticked_ok.
  - unfold clear. rewrite after_modify. now apply ticked_ok.
  - apply (chart_only g); [now apply theme_ok, ok_chart|exact Hok].
  - apply (chart_only g); [split; [now apply (chart_beside g), ok_chart|reflexivity]|exact Hok].
  - apply (chart_only g); [now apply answered_ok, ok_chart|exact Hok].
Qed.

(** C37.  Whatever happens on the page and in whatever order the answers come: the
    chips and the count are of the boxes ticked, the items shown are those the
    filter finds, and one chart lives at most, which draws the last answer
    alone on its canvas, also when the library throws. *)
Theorem picker_filter_chart es g0 : chart g0 = None -> charts g0 = [] ->
  page_ok (fold_left (fun g e => snd (happens e g)) es (snd (onReady toLowerCase g0))).
Proof.
  intros Hc Hs. assert (H0 : page_ok (snd (onReady toLowerCase g0))).
  { assert (Hp := picker_synced g0). set (g1 := snd (syncPickerUI g0)) in *. assert (Hf := filter_applied g1). set (g2 := snd (applyFilter g1)) in *.
    constructor; [destruct Hp as [P1 P2]; constructor; [exact P1|exact P2]|destruct Hf as [F1 F2]; constructor; [exact F1|exact F2]|].
    apply (chart_beside g0); [reflexivity|]. constructor; [intros c; rewrite Hs; intros []|now rewrite Hc]. }
  revert H0. generalize (snd (onReady toLowerCase g0)). induction es as [|e es IH]; intros g Hg; [exact Hg|]. cbn [fold_left]. now apply IH, happens_ok.
Qed.
End Page.

(** * At work *)

Definition utc (ms : Z) : datetime := Datetime 1970 0 (1 + ms / 86400000) (ms / 3600000 mod 24) (ms / 60000 mod 60) (ms / 1000 mod 60).
Definition no_style (name : string) : text := [].
Definition same_case (s : text) : text := s.
Definition never_throws (c : chart_config) : option string := None.
Definition here : url := Url (units "https://bmc") (units "/h/one/metrics") [(units "debug", units "1"); (units "range", units "6h")] [].
Definition loaded : page :=
  mkPage [(units "CPU Temp", true); (units "Fan 1", false)] (Some (units "1h")) None (Some NoneSelected) (Some (units "0")) (Some [])
    [(Some (units "CPU Temp"), false); (Some (units "Fan 1"), false)] (Some true) true (Some []) (Some []) None [] 0 None here [] 0.
Definition samples (t : Z) : payload := Payload (Some [Series (units "CPU Temp") (Some (units "C")) (Some [Point t 40%Q; Point (t + 60) (81 # 2)%Q])]) true.

Definition some_events : list event :=
  [Answered 0 (Data (samples 1000)); Tick 1 true; Typed (units " Fan "); ThemeChanged; EveryQuarterMinute; RemoveChip (units "CPU Temp"); Submit].
Definition after_events : page :=
  fold_left (fun g e => snd (Metrics.happens no_style same_case true never_throws e g)) some_events (snd (onReady same_case loaded)).

Lemma picker_filter_chart_witness : chipsEl after_events = Some (Chips [units "Fan 1"]) /\ page_ok no_style same_case after_events.
Proof.
  split; [vm_compute; reflexivity|]. exact (picker_filter_chart no_style same_case true never_throws some_events loaded eq_refl eq_refl).
Defined.

Definition some_choice : config := Config (Some (units "1h")) (Some (map units ["CPU Temp"; "Fan & Co"]%string)).
Lemma choice_read_back_witness : exists q, search (synced some_choice here) = [63] ++ q /\
  query_read (split 38 q) = Some [(units "debug", units "1"); (units "range", units "1h"); (units "sensor", units "CPU Temp"); (units "sensor", units "Fan & Co")].
Proof.
  assert (Hc : well_chosen some_choice).
  { split; [now apply ascii_check|]. constructor; [now apply ascii_check|]. constructor; [now apply ascii_check|constructor]. }
  assert (Hp : Forall plain_pair (params here)) by (constructor; [split; now apply ascii_check|constructor; [split; now apply ascii_check|constructor]]).
  destruct (choice_read_back some_choice here Hc Hp) as (_ & Hs & _).
  assert (E : others here ++ chosen some_choice = [(units "debug", units "1"); (units "range", units "1h"); (units "sensor", units "CPU Temp"); (units "sensor", units "Fan & Co")]) by (vm_compute; reflexivity).
  rewrite E in Hs. exact Hs.
Defined.

(** Two requests are on their way and the later one, for another range, is
    answered first: the page ends up with the data of the earlier. *)
Definition overtaken : page :=
  fold_left (fun g e => snd (Metrics.happens no_style same_case true never_throws e g))
    [ChooseRange (units "15m"); Answered 1 (Data (samples 5000)); Answered 0 (Data (samples 1000))] (snd (onReady same_case loaded)).
Lemma stale_answer_wins : lastPayload overtaken = Some (samples 1000) /\ rangeEl overtaken = Some (units "15m") /\ requests overtaken = [].
Proof. vm_compute. repeat split. Qed.
End MetricsCorrect.
