(* ===== verification/Cursor.v ===== *)
(** Pointer capture and the cursor drawn by the page, core/util/events.js and
    core/util/cursor.js.

    A node of the document is a number.  The tree, the styles, what is below a
    point and what the listeners of an element do are arguments; the listeners
    may do anything to the capture. *)

From Stdlib Require Import ZArith List Lia Bool String QArith.
From S2P Require Import Prelude Webutil.
Import ListNotations WebUtil.
Open Scope Z_scope.
Open Scope code_scope.

Abbreviation node := nat.

(** * Capture *)

Module Capture.

(** The element [noVNC_mouse_capture_elem]: whether it is displayed, and its
    cursor. *)
Record proxy := Proxy { displayed : bool; proxy_cursor : string }.

Record capture := mkCapture {
  captureRecursion : bool;
  elementForUnflushedEvents : option node;
  captureElement : option node;
  observed : option node;
  proxyElem : option proxy;
  windowListens : bool;
  delivered : list (node * string)
}.
Definition set_captureRecursion v r := mkCapture v (elementForUnflushedEvents r) (captureElement r) (observed r) (proxyElem r) (windowListens r) (delivered r).
Definition set_elementForUnflushedEvents v r := mkCapture (captureRecursion r) v (captureElement r) (observed r) (proxyElem r) (windowListens r) (delivered r).
Definition set_captureElement v r := mkCapture (captureRecursion r) (elementForUnflushedEvents r) v (observed r) (proxyElem r) (windowListens r) (delivered r).
Definition set_observed v r := mkCapture (captureRecursion r) (elementForUnflushedEvents r) (captureElement r) v (proxyElem r) (windowListens r) (delivered r).
Definition set_proxyElem v r := mkCapture (captureRecursion r) (elementForUnflushedEvents r) (captureElement r) (observed r) v (windowListens r) (delivered r).
Definition set_windowListens v r := mkCapture (captureRecursion r) (elementForUnflushedEvents r) (captureElement r) (observed r) (proxyElem r) v (delivered r).
Definition set_delivered v r := mkCapture (captureRecursion r) (elementForUnflushedEvents r) (captureElement r) (observed r) (proxyElem r) (windowListens r) v.

Definition no_capture : capture := mkCapture false None None None None false [].

(** A mouse event as the proxy sees it: its type, and what becomes of it. *)
Record mouse := Mouse { m_type : string; stopped : bool; prevented : bool }.

(** The functions that other components call. *)
Inductive call := SetCapture (e : node) | ReleaseCapture.

Section Capture.
(** Elements with a [setCapture] of their own, and whether the document has
    [releaseCapture]. *)
Variable has_setCapture : node -> bool.
Variable has_releaseCapture : bool.
Variable computedCursor : node -> string.
(** The listeners of an element, when an event of a type is dispatched on it:
    whom they call, and whether they prevent the default action. *)
Variable reacts : node -> string -> capture -> list call * bool.

Definition releaseCapture : M capture unit :=
  if has_releaseCapture then modify (set_captureElement None)
  else
    c <- get ;;
    match captureElement c with
    | None => ret tt
    | Some e =>
        modify (set_elementForUnflushedEvents (Some e)) ;;
        modify (set_captureElement None) ;;
        modify (set_observed None) ;;
        (c <- get ;;
         match proxyElem c with
         | None => throw "TypeError"
         | Some p => modify (set_proxyElem (Some (Proxy false (proxy_cursor p))))
         end) ;;
        modify (set_windowListens false)
    end.

Definition _capturedElemChanged : M capture unit :=
  c <- get ;;
  match proxyElem c, captureElement c with
  | Some p, Some e => modify (set_proxyElem (Some (Proxy (displayed p) (computedCursor e))))
  | _, _ => throw "TypeError"
  end.

Definition setCapture (target : node) : M capture unit :=
  if has_setCapture target then modify (set_captureElement (Some target))
  else
    releaseCapture ;;
    (c <- get ;;
     match proxyElem c with
     | None => modify (set_proxyElem (Some (Proxy false "")))
     | Some _ => ret tt
     end) ;;
    modify (set_captureElement (Some target)) ;;
    modify (set_observed (Some target)) ;;
    _capturedElemChanged ;;
    modify (fun c => set_proxyElem (option_map (fun p => Proxy true (proxy_cursor p)) (proxyElem c)) c) ;;
    modify (set_windowListens true).

Fixpoint calls (l : list call) : M capture unit :=
  match l with
  | [] => ret tt
  | SetCapture e :: l => setCapture e ;; calls l
  | ReleaseCapture :: l => releaseCapture ;; calls l
  end.

(** [dispatchEvent] of a clone on an element; the proxy, which hears it again
    on the window, leaves it alone. *)
Definition dispatch_on (e : option node) (type : string) : M capture bool :=
  match e with
  | None => throw "TypeError"
  | Some n =>
      modify (fun c => set_delivered (delivered c ++ [(n, type)]) c) ;;
      c <- get ;;
      calls (fst (reacts n type c)) ;;
      ret (snd (reacts n type c))
  end.

(** The event as it goes on, when it was not the proxy's own. *)
Definition _captureProxy (e : mouse) : M capture mouse :=
  c <- get ;;
  if captureRecursion c then ret e
  else
    modify (set_captureRecursion true) ;;
    p <- (match captureElement c with
          | Some n => dispatch_on (Some n) (m_type e)
          | None => dispatch_on (elementForUnflushedEvents c) (m_type e)
          end) ;;
    modify (set_captureRecursion false) ;;
    let e := Mouse (m_type e) true (prevented e || p) in
    (if String.eqb (m_type e) "mouseup" then releaseCapture else ret tt) ;;
    ret e.
End Capture.
End Capture.

(** * The cursor *)

Module Cursor.

Record point := Pt { px : Q; py : Q }.
Definition plus (a b : point) : point := Pt (px a + px b) (py a + py b).
Definition minus (a b : point) : point := Pt (px a - px b) (py a - py b).

Record canvas := mkCanvas { width : Z; height : Z; image : list Z; visible : bool; place : point; in_body : bool }.

Record cursor := mkCursor {
  _target : option node;
  _canvas : canvas;
  _position : point;
  _hotSpot : point;
  listening : option node;
  target_cursor : list Z;
  checks : list point
}.
Definition set__target v r := mkCursor v (_canvas r) (_position r) (_hotSpot r) (listening r) (target_cursor r) (checks r).
Definition set__canvas v r := mkCursor (_target r) v (_position r) (_hotSpot r) (listening r) (target_cursor r) (checks r).
Definition set__position v r := mkCursor (_target r) (_canvas r) v (_hotSpot r) (listening r) (target_cursor r) (checks r).
Definition set__hotSpot v r := mkCursor (_target r) (_canvas r) (_position r) v (listening r) (target_cursor r) (checks r).
Definition set_listening v r := mkCursor (_target r) (_canvas r) (_position r) (_hotSpot r) v (target_cursor r) (checks r).
Definition set_target_cursor v r := mkCursor (_target r) (_canvas r) (_position r) (_hotSpot r) (listening r) v (checks r).
Definition set_checks v r := mkCursor (_target r) (_canvas r) (_position r) (_hotSpot r) (listening r) (target_cursor r) v.
(** The size of a canvas erases it. *)
Definition set_width v r := mkCanvas v (height r) [] (visible r) (place r) (in_body r).
Definition set_height v r := mkCanvas (width r) v [] (visible r) (place r) (in_body r).
Definition set_image v r := mkCanvas (width r) (height r) v (visible r) (place r) (in_body r).
Definition set_visible v r := mkCanvas (width r) (height r) (image r) v (place r) (in_body r).
Definition set_place v r := mkCanvas (width r) (height r) (image r) (visible r) v (in_body r).
Definition set_in_body v r := mkCanvas (width r) (height r) (image r) (visible r) (place r) v.

(** A mouse event: where, on which element, and the one it goes to. *)
Record mouse_event := MouseEvent { client : point; target : option node; relatedTarget : option node }.

Section Cursor.
Variable useFallback : bool.
(** [document.captureElement], when it is in the document. *)
Variable capturing : option node.
(** [a.contains(b)], which includes [a] itself. *)
Variable contains : node -> node -> bool.
Variable computedCursor : node -> string.
Variable elementFromPoint : point -> option node.
(** The offset of the visual viewport, where there is one. *)
Variable visualViewport : option point.
Variable toDataURL : Z -> Z -> list Z -> list Z.

Definition constructor : cursor :=
  mkCursor None (mkCanvas 300 150 [] (negb useFallback) (Pt 0 0) false) (Pt 0 0) (Pt 0 0) None [] [].

Definition onCanvas (f : canvas -> canvas) : M cursor unit := modify (fun c => set__canvas (f (_canvas c)) c).

(** [this._target.style.cursor = s] *)
Definition style_target (s : list Z) : M cursor unit :=
  c <- get ;;
  match _target c with Some _ => modify (set_target_cursor s) | None => throw "TypeError" end.

Definition clear : M cursor unit :=
  style_target (units "none") ;;
  onCanvas (set_width 0) ;;
  onCanvas (set_height 0) ;;
  modify (fun c => set__position (plus (_position c) (_hotSpot c)) c) ;;
  modify (set__hotSpot (Pt 0 0)).

Definition _updatePosition : M cursor unit := modify (fun c => set__canvas (set_place (_position c) (_canvas c)) c).

Definition detach : M cursor unit :=
  c <- get ;;
  match _target c with
  | None => ret tt
  | Some _ =>
      (if useFallback then modify (set_listening None) ;; onCanvas (set_in_body false) else ret tt) ;;
      modify (set__target None)
  end.

Definition attach (t : node) : M cursor unit :=
  c <- get ;;
  (match _target c with Some _ => detach | None => ret tt end) ;;
  modify (set__target (Some t)) ;;
  (if useFallback then onCanvas (set_in_body true) ;; modify (set_listening (Some t)) else ret tt) ;;
  clear.

Definition change (rgba : list Z) (hotx hoty w h : Z) : M cursor unit :=
  if (w =? 0) || (h =? 0) then clear
  else
    modify (fun c => set__position (minus (plus (_position c) (_hotSpot c)) (Pt (inject_Z hotx) (inject_Z hoty))) c) ;;
    modify (set__hotSpot (Pt (inject_Z hotx) (inject_Z hoty))) ;;
    onCanvas (set_width w) ;;
    onCanvas (set_height h) ;;
    (if zlen rgba =? 4 * w * h then onCanvas (set_image rgba) else throw "InvalidStateError") ;;
    if useFallback then _updatePosition
    else
      c <- get ;;
      style_target (units "url(" ++ toDataURL w h (image (_canvas c)) ++ units ")" ++ decimal hotx ++ units " " ++ decimal hoty ++ units ", default").

Definition _showCursor : M cursor unit := onCanvas (fun v => if visible v then v else set_visible true v).
Definition _hideCursor : M cursor unit := onCanvas (fun v => if visible v then set_visible false v else v).

Definition _shouldShowCursor (e : option node) (c : cursor) : outcome bool :=
  match e with
  | None => Ret false
  | Some n =>
      match _target c with
      | None => Throw "TypeError"
      | Some t => Ret ((n =? t)%nat || (contains t n && String.eqb (computedCursor n) "none"))
      end
  end.

Definition _updateVisibility (e : option node) : M cursor unit :=
  let e := match capturing with Some k => Some k | None => e end in
  c <- get ;;
  b <- (fun c => (_shouldShowCursor e c, c)) ;;
  if b then _showCursor else _hideCursor.

Definition move (at_ : point) : M cursor unit :=
  if negb useFallback then ret tt
  else
    modify (set__position (match visualViewport with Some o => plus at_ o | None => at_ end)) ;;
    _updatePosition ;;
    _updateVisibility (elementFromPoint at_).

Definition _handleMouseMove (e : mouse_event) : M cursor unit :=
  _updateVisibility (target e) ;;
  modify (fun c => set__position (minus (client e) (_hotSpot c)) c) ;;
  _updatePosition.

Definition _handleMouseOver (e : mouse_event) : M cursor unit := _handleMouseMove e.
Definition _handleMouseLeave (e : mouse_event) : M cursor unit := _updateVisibility (relatedTarget e).

Definition _handleMouseUp (e : mouse_event) : M cursor unit :=
  _updateVisibility (elementFromPoint (client e)) ;;
  match capturing with
  | Some _ => modify (fun c => set_checks (checks c ++ [client e]) c)
  | None => ret tt
  end.

(** The timer of [_handleMouseUp]. *)
Definition check_again (at_ : point) : M cursor unit :=
  c <- get ;;
  match _target c with
  | None => ret tt
  | Some _ => _updateVisibility (elementFromPoint at_)
  end.
End Cursor.
End Cursor.
