(* ===== verification/CursorCorrect.v ===== *)
(** Capture and cursor over everything that happens: the emulated capture
    fits together and ends with the button, and the cursor's hot spot stays
    where the mouse is. *)

From Stdlib Require Import ZArith List Lia Bool String QArith Lqa.
From S2P Require Import Prelude Webutil Cursor.
Import ListNotations.
Open Scope Z_scope.
Open Scope code_scope.

Module CursorCorrect.

(** * Capture *)

Section Capture.
Import Capture.
Variable computedCursor : node -> string.
Variable reacts : node -> string -> capture -> list call * bool.
Implicit Types c : capture.
Abbreviation grab := (setCapture (fun _ => false) false computedCursor).
Abbreviation let_go := (releaseCapture false).
Abbreviation do_calls := (calls (fun _ => false) false computedCursor).
Abbreviation proxied := (_captureProxy (fun _ => false) false computedCursor reacts).

(** The proxy is displayed, the window listened to and the element observed
    while there is a capture, and once there was one somebody gets the
    events. *)
Record capture_ok c : Prop := {
  window_while : windowListens c = match captureElement c with Some _ => true | None => false end;
  shown_while : match proxyElem c with
                | Some p => displayed p = windowListens c
                | None => captureElement c = None
                end;
  observed_while : observed c = captureElement c;
  somebody : proxyElem c <> None -> captureElement c <> None \/ elementForUnflushedEvents c <> None
}.

Lemma released_run c : capture_ok c -> exists c', let_go c = (Ret tt, c') /\ capture_ok c' /\ captureElement c' = None /\
  captureRecursion c' = captureRecursion c /\ delivered c' = delivered c /\ (proxyElem c' = None <-> proxyElem c = None).
Proof.
  intros Hok. assert (Hok' := Hok). destruct Hok as [W S O B]. unfold releaseCapture. rewrite (bind_run get _ c c c eq_refl). destruct (captureElement c) as [e|] eqn:Ee.
  - destruct (proxyElem c) as [p|] eqn:Ep; [|congruence]. rewrite !after_modify. rewrite bind_assoc_run, (bind_run get _ _ _ _ eq_refl). cbn [proxyElem set_observed set_captureElement set_elementForUnflushedEvents].
    rewrite Ep, after_modify. eexists. split; [reflexivity|]. split; [constructor; cbn; auto; right; discriminate|]. cbn. repeat split; discriminate.
  - exists c. split; [reflexivity|]. split; [exact Hok'|]. repeat split; auto.
Qed.

Lemma capture_run e c : capture_ok c -> exists c', grab e c = (Ret tt, c') /\ capture_ok c' /\ captureElement c' = Some e /\
  captureRecursion c' = captureRecursion c /\ delivered c' = delivered c /\ proxyElem c' <> None.
Proof.
  intros Hok. destruct (released_run c Hok) as (c1 & E1 & [W S O B] & N1 & R1 & D1 & P1). unfold setCapture. rewrite (bind_run _ _ _ _ _ E1).
  rewrite bind_assoc_run, (bind_run get _ c1 c1 c1 eq_refl).
  destruct (proxyElem c1) as [p|] eqn:Ep; rewrite ?bind_ret_l, ?after_modify.
  all: unfold _capturedElemChanged, bind, get, modify, ret; cbn; rewrite ?Ep; cbn.
  all: eexists; split; [reflexivity|]; split; [constructor; cbn; auto; left; discriminate|]; cbn; repeat split; auto; discriminate.
Qed.

Lemma calls_run l : forall c, capture_ok c -> exists c', do_calls l c = (Ret tt, c') /\ capture_ok c' /\ captureRecursion c' = captureRecursion c /\
  delivered c' = delivered c /\ (proxyElem c <> None -> proxyElem c' <> None).
Proof.
  induction l as [|[e|] l IH]; intros c Hok; cbn [calls].
  - exists c. split; [reflexivity|]. split; [exact Hok|]. repeat split; auto.
  - destruct (capture_run e c Hok) as (c1 & E1 & H1 & _ & R1 & D1 & P1). destruct (IH c1 H1) as (c2 & E2 & H2 & R2 & D2 & P2).
    exists c2. rewrite (bind_run _ _ _ _ _ E1). split; [exact E2|]. split; [exact H2|]. split; [congruence|]. split; [congruence|]. auto.
  - destruct (released_run c Hok) as (c1 & E1 & H1 & _ & R1 & D1 & P1). destruct (IH c1 H1) as (c2 & E2 & H2 & R2 & D2 & P2).
    exists c2. rewrite (bind_run _ _ _ _ _ E1). split; [exact E2|]. split; [exact H2|]. split; [congruence|]. split; [congruence|].
    intros Hp. apply P2. intros Hn. now apply Hp, P1.
Qed.

(** Who gets an event. *)
Definition receiver c : option node := match captureElement c with Some n => Some n | None => elementForUnflushedEvents c end.

Lemma proxied_run e c : capture_ok c -> captureRecursion c = false -> proxyElem c <> None -> exists n e' c',
  proxied e c = (Ret e', c') /\ capture_ok c' /\ captureRecursion c' = false /\ proxyElem c' <> None /\
  receiver c = Some n /\ delivered c' = delivered c ++ [(n, m_type e)] /\ stopped e' = true /\ m_type e' = m_type e /\
  (m_type e = "mouseup"%string -> captureElement c' = None).
Proof.
  intros Hok Hr Hp. unfold _captureProxy. rewrite (bind_run get _ c c c eq_refl), Hr, after_modify.
  assert (Hn : exists n, receiver c = Some n /\
    match captureElement c with Some n => dispatch_on (fun _ => false) false computedCursor reacts (Some n) (m_type e)
                              | None => dispatch_on (fun _ => false) false computedCursor reacts (elementForUnflushedEvents c) (m_type e) end =
    dispatch_on (fun _ => false) false computedCursor reacts (Some n) (m_type e)).
  { unfold receiver. destruct (somebody c Hok Hp) as [H|H]; destruct (captureElement c) as [n|]; try congruence; try (exists n; split; reflexivity).
    destruct (elementForUnflushedEvents c) as [n|]; [exists n; split; reflexivity|congruence]. }
  destruct Hn as (n & En & ->). exists n. set (c1 := set_delivered (delivered c ++ [(n, m_type e)]) (set_captureRecursion true c)).
  assert (H1 : capture_ok c1) by (destruct Hok; constructor; assumption).
  destruct (calls_run (fst (reacts n (m_type e) c1)) c1 H1) as (c2 & E2 & H2 & R2 & D2 & P2).
  assert (Ed : dispatch_on (fun _ => false) false computedCursor reacts (Some n) (m_type e) (set_captureRecursion true c) = (Ret (snd (reacts n (m_type e) c1)), c2)).
  { unfold dispatch_on. rewrite after_modify. fold c1. rewrite (bind_run get _ c1 c1 c1 eq_refl), (bind_run _ _ _ _ _ E2). reflexivity. }
  rewrite (bind_run _ _ _ _ _ Ed), after_modify. set (c3 := set_captureRecursion false c2).
  assert (H3 : capture_ok c3) by (destruct H2; constructor; assumption). specialize (P2 Hp). cbv zeta.
  destruct (String.eqb_spec (m_type (Mouse (m_type e) true (prevented e || snd (reacts n (m_type e) c1)))) "mouseup") as [Hu|Hu]; cbn [m_type] in Hu.
  - destruct (released_run c3 H3) as (c4 & E4 & H4 & N4 & R4 & D4 & P4). rewrite (bind_run _ _ _ _ _ E4). eexists _, c4. split; [reflexivity|].
    split; [exact H4|]. split; [now rewrite R4|]. split; [intros Hx; apply P4 in Hx; now apply P2|]. split; [exact En|]. split; [now rewrite D4|]. repeat split; auto.
  - eexists _, c3. split; [reflexivity|]. split; [exact H3|]. split; [reflexivity|]. split; [exact P2|]. split; [exact En|]. split; [exact D2|]. repeat split; auto. contradiction.
Qed.

(** What other components and the mouse do; the proxy hears an event once
    there was a capture. *)
Inductive happening := Calls (l : list call) | MouseEvent (e : mouse).
Definition happens (h : happening) c : outcome unit * capture :=
  match h with
  | Calls l => do_calls l c
  | MouseEvent e => match proxyElem c with Some _ => let '(o, c') := proxied e c in (match o with Ret _ => Ret tt | Throw x => Throw x | Stuck => Stuck end, c') | None => (Ret tt, c) end
  end.
Fixpoint all_happen (l : list happening) c : outcome unit * capture :=
  match l with
  | [] => (Ret tt, c)
  | h :: l => match happens h c with (Ret _, c') => all_happen l c' | r => r end
  end.

(** Whatever components and the mouse do, and whatever the listeners call
    meanwhile, nothing throws and the capture fits together; an event of the
    mouse goes once to the element that has the capture, or had it last, and
    when the button goes up there is no capture. *)
Theorem capture_fits l : exists c, all_happen l no_capture = (Ret tt, c) /\ capture_ok c /\
  forall e, proxyElem c <> None -> let c' := snd (proxied e c) in
    (exists n, receiver c = Some n /\ delivered c' = delivered c ++ [(n, m_type e)]) /\
    (m_type e = "mouseup"%string -> captureElement c' = None).
Proof.
  assert (H : forall l c, capture_ok c -> captureRecursion c = false -> exists c', all_happen l c = (Ret tt, c') /\ capture_ok c' /\ captureRecursion c' = false).
  { clear l. induction l as [|h l IH]; intros c Hok Hr; [exists c; auto|]. cbn [all_happen]. destruct h as [cs|e]; cbn [happens].
    - destruct (calls_run cs c Hok) as (c1 & -> & H1 & R1 & _). apply IH; congruence.
    - destruct (proxyElem c) as [p|] eqn:Ep; [|now apply IH].
      destruct (proxied_run e c Hok Hr) as (n & e' & c1 & -> & H1 & R1 & _); [congruence|]. now apply IH. }
  destruct (H l no_capture) as (c & E & Hok & Hr); [constructor; cbn; auto; congruence|reflexivity|].
  exists c. split; [exact E|]. split; [exact Hok|]. intros e Hp. destruct (proxied_run e c Hok Hr Hp) as (n & e' & c1 & -> & _ & _ & _ & En & Ed & _ & _ & Hn).
  cbn [snd]. split; [now exists n|exact Hn].
Qed.
End Capture.

(** * The cursor *)

Section Cursor.
Import Cursor.
Variable capturing : option node.
Variable contains : node -> node -> bool.
Variable computedCursor : node -> string.
Variable elementFromPoint : point -> option node.
Variable visualViewport : option point.
Variable toDataURL : Z -> Z -> list Z -> list Z.
Implicit Types c : cursor.

(** Where the hot spot is. *)
Definition tip c : point := plus (_position c) (_hotSpot c).
Definition same_point (a b : point) : Prop := (px a == px b /\ py a == py b)%Q.
(** The image of a cursor that has one is drawn where it should be. *)
Definition drawn c : Prop := image (_canvas c) <> [] -> place (_canvas c) = _position c.
(** In the page, and heard, while it belongs to an element. *)
Record attached_ok c : Prop := {
  heard_while : listening c = _target c;
  in_page_while : in_body (_canvas c) = match _target c with Some _ => true | None => false end
}.

Inductive act :=
| Attach (t : node) | Detach
| Change (rgba : list Z) (hotx hoty w h : Z) | Clear
| MouseOver (e : mouse_event) | MouseMove (e : mouse_event) | MouseLeave (e : mouse_event) | MouseUp (e : mouse_event)
| CheckAgain (p : point).

Abbreviation visibility := (_updateVisibility capturing contains computedCursor).

(** Mouse events come while the cursor listens. *)
Definition acts (a : act) : M cursor unit :=
  let heard (m : M cursor unit) : M cursor unit := c <- get ;; match listening c with Some _ => m | None => ret tt end in
  match a with
  | Attach t => attach true t
  | Detach => detach true
  | Change rgba hotx hoty w h => change true toDataURL rgba hotx hoty w h
  | Clear => clear
  | MouseOver e => heard (_handleMouseOver capturing contains computedCursor e)
  | MouseMove e => heard (_handleMouseMove capturing contains computedCursor e)
  | MouseLeave e => heard (_handleMouseLeave capturing contains computedCursor e)
  | MouseUp e => heard (_handleMouseUp capturing contains computedCursor elementFromPoint e)
  | CheckAgain p => check_again capturing contains computedCursor elementFromPoint p
  end.
Definition after_acts (l : list act) : cursor := fold_left (fun c a => snd (acts a c)) l (constructor true).

(** Where the mouse was last, as far as the cursor heard. *)
Definition seen c (p : point) (a : act) : point :=
  match a, listening c with
  | (MouseOver e | MouseMove e), Some _ => client e
  | _, _ => p
  end.
Fixpoint last_seen c (p : point) (l : list act) : point :=
  match l with
  | [] => p
  | a :: l => last_seen (snd (acts a c)) (seen c p a) l
  end.

Record cursor_ok c : Prop := { ok_drawn : drawn c; ok_attached : attached_ok c }.

Lemma same_point_refl p : same_point p p.
Proof. split; reflexivity. Qed.

(** Showing and hiding change nothing else. *)
Lemma visibility_run e c : _target c <> None -> exists b, visibility e c = (Ret tt, set__canvas (set_visible b (_canvas c)) c).
Proof.
  intros Ht. unfold _updateVisibility. rewrite (bind_run get _ c c c eq_refl).
  assert (E : exists b, _shouldShowCursor contains computedCursor (match capturing with Some k => Some k | None => e end) c = Ret b).
  { unfold _shouldShowCursor. destruct (match capturing with Some k => Some k | None => e end); [|now exists false]. destruct (_target c) as [t|] eqn:Et; [now eexists|congruence]. }
  destruct E as [b Eb]. rewrite (bind_run _ _ c b c) by (now rewrite Eb). exists b.
  unfold _showCursor, _hideCursor, onCanvas, modify. destruct c as [t [w h i v p n] po ho l s k]. cbn. destruct b, v; reflexivity.
Qed.

Lemma visible_ok b c : cursor_ok c -> cursor_ok (set__canvas (set_visible b (_canvas c)) c) /\ same_point (tip (set__canvas (set_visible b (_canvas c)) c)) (tip c).
Proof. intros [D [H1 H2]]. split; [constructor; [exact D|constructor; assumption]|apply same_point_refl]. Qed.

Lemma heard_target c t : cursor_ok c -> listening c = Some t -> _target c <> None.
Proof. intros [_ [H _]] E. congruence. Qed.

(** The hot spot of the cursor stays, whatever becomes of its image. *)
Lemma clear_ok c : cursor_ok c -> cursor_ok (snd (clear c)) /\ same_point (tip (snd (clear c))) (tip c).
Proof.
  intros [D [H1 H2]]. unfold clear, style_target. rewrite bind_assoc_run, (bind_run get _ c c c eq_refl). destruct (_target c) as [t|] eqn:Et.
  - rewrite !after_modify || (rewrite after_modify; unfold onCanvas; rewrite !after_modify). cbn.
    split; [constructor; [intros Hi; now destruct Hi|constructor; cbn; rewrite ?Et; congruence]|].
    unfold tip, same_point, plus. cbn. split; ring.
  - split; [constructor; [exact D|constructor; cbn; rewrite ?Et; congruence]|apply same_point_refl].
Qed.

Lemma change_ok rgba hotx hoty w h c : cursor_ok c ->
  cursor_ok (snd (change true toDataURL rgba hotx hoty w h c)) /\ same_point (tip (snd (change true toDataURL rgba hotx hoty w h c))) (tip c).
Proof.
  intros Hok. unfold change. destruct (_ || _); [now apply clear_ok|]. destruct Hok as [D [H1 H2]].
  unfold onCanvas. rewrite !after_modify. destruct (zlen rgba =? 4 * w * h).
  - rewrite after_modify. unfold _updatePosition, modify. cbn. split; [constructor; [intros _; reflexivity|constructor; cbn; rewrite ?Et; congruence]|].
    unfold tip, same_point, plus, minus. cbn. split; ring.
  - cbn. split; [constructor; [intros Hi; now destruct Hi|constructor; cbn; rewrite ?Et; congruence]|]. unfold tip, same_point, plus, minus. cbn. split; ring.
Qed.

Lemma detach_ok c : cursor_ok c -> cursor_ok (snd (detach true c)) /\ same_point (tip (snd (detach true c))) (tip c) /\ fst (detach true c) = Ret tt /\ _target (snd (detach true c)) = None.
Proof.
  intros [D [H1 H2]]. unfold detach. rewrite (bind_run get _ c c c eq_refl). destruct (_target c) as [t|] eqn:Et.
  - cbn. split; [constructor; [exact D|constructor; reflexivity]|]. split; [apply same_point_refl|split; reflexivity].
  - cbn. rewrite Et. split; [constructor; [exact D|constructor; cbn; rewrite ?Et; congruence]|]. split; [apply same_point_refl|split; reflexivity].
Qed.

Lemma attach_ok t c : cursor_ok c -> cursor_ok (snd (attach true t c)) /\ same_point (tip (snd (attach true t c))) (tip c).
Proof.
  intros Hok. unfold attach. rewrite (bind_run get _ c c c eq_refl).
  assert (E : exists c1, (match _target c with Some _ => detach true | None => ret tt end) c = (Ret tt, c1) /\ cursor_ok c1 /\ same_point (tip c1) (tip c)).
  { destruct (_target c) as [t0|]; [|exists c; repeat split; try apply same_point_refl; apply Hok].
    destruct (detach_ok c Hok) as (H1 & H2 & H3 & _). destruct (detach true c) as [o c1]. cbn [fst snd] in *. subst o. now exists c1. }
  destruct E as (c1 & E1 & H1 & T1). rewrite (bind_run _ _ _ _ _ E1), after_modify.
  set (c2 := set_listening (Some t) (set__canvas (set_in_body true (_canvas c1)) (set__target (Some t) c1))).
  match goal with |- cursor_ok (snd (?m ?s)) /\ _ => assert (E2 : m s = clear c2) by reflexivity; rewrite E2 end.
  assert (H2 : cursor_ok c2) by (destruct H1 as [D _]; constructor; [exact D|constructor; reflexivity]).
  destruct (clear_ok c2 H2) as [H3 T3]. split; [exact H3|]. destruct T1 as [X1 Y1], T3 as [X3 Y3]. cbn in *. split; etransitivity; eassumption.
Qed.

Lemma moved_ok e c t : cursor_ok c -> listening c = Some t -> exists c',
  _handleMouseMove capturing contains computedCursor e c = (Ret tt, c') /\ cursor_ok c' /\ same_point (tip c') (client e).
Proof.
  intros Hok Hl. destruct (visibility_run (target e) c (heard_target c t Hok Hl)) as (b & E). unfold _handleMouseMove.
  rewrite (bind_run _ _ _ _ _ E), after_modify. eexists. split; [reflexivity|]. destruct Hok as [D [H1 H2]]. split.
  - constructor; [intros _; reflexivity|constructor; assumption].
  - unfold tip, same_point, plus, minus. cbn. split; ring.
Qed.

Lemma looks_ok e c : cursor_ok c -> cursor_ok (snd (visibility e c)) /\ same_point (tip (snd (visibility e c))) (tip c).
Proof.
  intros Hok. destruct (_target c) as [t|] eqn:Et.
  - destruct (visibility_run e c) as (b & ->); [congruence|]. now apply visible_ok.
  - unfold _updateVisibility. rewrite (bind_run get _ c c c eq_refl). unfold _shouldShowCursor, bind.
    destruct (match capturing with Some k => Some k | None => e end); [rewrite Et; split; [exact Hok|apply same_point_refl]|].
    unfold _hideCursor, onCanvas, modify. cbn [snd]. destruct (visible (_canvas c)); [now apply visible_ok|].
    destruct c as [? [? ? ? ? ? ?] ? ? ? ? ?]. split; [exact Hok|apply same_point_refl].
Qed.

Lemma acts_ok a c p : cursor_ok c -> same_point (tip c) p -> cursor_ok (snd (acts a c)) /\ same_point (tip (snd (acts a c))) (seen c p a).
Proof.
  intros Hok Hp. assert (Hstay : forall q, same_point q (tip c) -> same_point q p).
  { intros q [X Y]. destruct Hp as [X' Y']. split; etransitivity; eassumption. }
  destruct a as [t| |rgba hx hy w h| |e|e|e|e|q]; cbn [acts seen].
  - destruct (attach_ok t c Hok). auto.
  - destruct (detach_ok c Hok) as (H1 & H2 & _). auto.
  - destruct (change_ok rgba hx hy w h c Hok). auto.
  - destruct (clear_ok c Hok). auto.
  - rewrite (bind_run get _ c c c eq_refl). destruct (listening c) as [t|] eqn:El; [|split; assumption].
    destruct (moved_ok e c t Hok El) as (c' & E & H). unfold _handleMouseOver. rewrite E. exact H.
  - rewrite (bind_run get _ c c c eq_refl). destruct (listening c) as [t|] eqn:El; [|split; assumption].
    destruct (moved_ok e c t Hok El) as (c' & E & H). rewrite E. exact H.
  - rewrite (bind_run get _ c c c eq_refl). destruct (listening c) as [t|] eqn:El; [|split; assumption].
    destruct (looks_ok (relatedTarget e) c Hok). auto.
  - rewrite (bind_run get _ c c c eq_refl). destruct (listening c) as [t|] eqn:El; [|split; assumption].
    destruct (visibility_run (elementFromPoint (client e)) c (heard_target c t Hok El)) as (b & E). unfold _handleMouseUp. rewrite (bind_run _ _ _ _ _ E).
    destruct (visible_ok b c Hok) as [[D [H1 H2]] T]. destruct capturing; (split; [constructor; [exact D|constructor; assumption]|apply Hstay; exact T]).
  - unfold check_again. rewrite (bind_run get _ c c c eq_refl). destruct (_target c) as [t|] eqn:Et; [|split; assumption].
    destruct (looks_ok (elementFromPoint q) c Hok). auto.
Qed.

(** Whatever the server sets as the cursor and the page does with it, the hot
    spot is where the mouse was last, the image is drawn around it, and the
    canvas is in the page and hears the mouse while the cursor belongs to an
    element. *)
Theorem hot_spot_on_mouse l : let c := after_acts l in same_point (tip c) (last_seen (constructor true) (Pt 0 0) l) /\ cursor_ok c.
Proof.
  cbv zeta. unfold after_acts. assert (H0 : cursor_ok (constructor true)) by (constructor; [intros H; now destruct H|constructor; reflexivity]).
  assert (T0 : same_point (tip (constructor true)) (Pt 0 0)) by (split; reflexivity).
  revert H0 T0. generalize (constructor true) (Pt 0 0). induction l as [|a l IH]; intros c p Hok Hp; [split; assumption|].
  cbn [fold_left last_seen]. destruct (acts_ok a c p Hok Hp). now apply IH.
Qed.

(** A place told by [move], that of a touch, becomes the corner of the image
    and not its hot spot. *)
Lemma move_misses_hot_spot p c : _target c <> None -> visualViewport = None ->
  same_point (tip (snd (move true capturing contains computedCursor elementFromPoint visualViewport p c))) (plus p (_hotSpot c)).
Proof.
  intros Ht ->. unfold move. cbn [negb]. rewrite after_modify. unfold _updatePosition. rewrite after_modify.
  match goal with |- context [_updateVisibility _ _ _ ?e ?s] => destruct (visibility_run e s Ht) as (b & ->) end. split; reflexivity.
Qed.
End Cursor.
End CursorCorrect.
