(* ===== verification/Theme.v ===== *)
(** What every page of the console shares, js/theme.js: the theme, kept in the
    browser's storage and followed by the other tabs, the drawer of the
    navigation and the choice of a host.

    A tab has what the script reads and writes of its page.  The storage is
    common to the tabs; a change of it is told to the others by an event that
    waits in their queues. *)

From Stdlib Require Import ZArith List Lia Bool String.
From S2P Require Import Prelude Utf8 Webutil.
Import ListNotations WebUtil.
Open Scope Z_scope.
Open Scope code_scope.

Module Theme.

Definition theme : Type := string.
Definition is_theme (t : string) : bool := String.eqb t "light" || String.eqb t "dark".

(** A button: its [aria] attributes and its title. *)
Record toggle := Toggle { pressed : bool; aria_label : string; b_title : string }.

Record page := mkPage {
  data_theme : option string;
  toggles : list toggle;
  drawer_open : bool;
  drawer_toggles : list (bool * string);
  told : list string;
  storage_ : option string;
  changes : list string;
  href : list Z
}.
Definition set_data_theme v r := mkPage v (toggles r) (drawer_open r) (drawer_toggles r) (told r) (storage_ r) (changes r) (href r).
Definition set_toggles v r := mkPage (data_theme r) v (drawer_open r) (drawer_toggles r) (told r) (storage_ r) (changes r) (href r).
Definition set_drawer_open v r := mkPage (data_theme r) (toggles r) v (drawer_toggles r) (told r) (storage_ r) (changes r) (href r).
Definition set_drawer_toggles v r := mkPage (data_theme r) (toggles r) (drawer_open r) v (told r) (storage_ r) (changes r) (href r).
Definition set_told v r := mkPage (data_theme r) (toggles r) (drawer_open r) (drawer_toggles r) v (storage_ r) (changes r) (href r).
Definition set_storage_ v r := mkPage (data_theme r) (toggles r) (drawer_open r) (drawer_toggles r) (told r) v (changes r) (href r).
Definition set_changes v r := mkPage (data_theme r) (toggles r) (drawer_open r) (drawer_toggles r) (told r) (storage_ r) v (href r).
Definition set_href v r := mkPage (data_theme r) (toggles r) (drawer_open r) (drawer_toggles r) (told r) (storage_ r) (changes r) v.

(** The path, query and fragment of the address. *)
Record location := Location { pathname : list Z; search : list Z; hash : list Z }.

Section Page.
(** [matchMedia("(prefers-color-scheme: light)").matches], or it throws. *)
Variable prefers_light : option bool.
(** The storage refuses reads and writes. *)
Variable refused : bool.

Definition systemTheme : string := match prefers_light with Some true => "light" | _ => "dark" end.

Definition readTheme (p : page) : string :=
  match (if refused then None else storage_ p) with
  | Some t => if is_theme t then t else systemTheme
  | None => systemTheme
  end.

Definition other (t : string) : string := if String.eqb t "light" then "dark" else "light".

Definition syncToggles (t : string) : M page unit :=
  let next := other t in
  let label := ("Switch to " ++ next ++ " theme")%string in
  modify (fun p => set_toggles (map (fun _ => Toggle (String.eqb t "dark") label label) (toggles p)) p).

(** [localStorage.setItem]: the other tabs are told of a change. *)
Definition setItem (t : string) : M page unit :=
  if refused then ret tt
  else
    p <- get ;;
    match storage_ p with
    | Some v => if String.eqb v t then ret tt else modify (set_storage_ (Some t)) ;; modify (fun p => set_changes (changes p ++ [t]) p)
    | None => modify (set_storage_ (Some t)) ;; modify (fun p => set_changes (changes p ++ [t]) p)
    end.

Definition applyTheme (t : string) : M page unit :=
  let t := if is_theme t then t else "dark"%string in
  modify (set_data_theme (Some t)) ;;
  setItem t ;;
  syncToggles t ;;
  modify (fun p => set_told (told p ++ [t]) p).

Definition toggleTheme : M page unit :=
  p <- get ;;
  let cur := match data_theme p with Some ((String _ _) as t) => t | _ => readTheme p end in
  applyTheme (other cur).

Definition setDrawer (open : bool) : M page unit :=
  modify (set_drawer_open open) ;;
  modify (fun p => set_drawer_toggles (map (fun _ => (open, if open then "Close navigation" else "Open navigation")%string) (drawer_toggles p)) p).

(** The pattern takes [/h/], a host without a slash, and what follows from a
    slash on; its dot matches no line break. *)
Definition line_break (c : Z) : bool := existsb (Z.eqb c) [10; 13; 8232; 8233].
Definition host_suffix (path : list Z) : option (list Z) :=
  match after (units "/h/") path with
  | Some rest =>
      let id := until (Z.eqb 47) rest in
      let tail := skipn (List.length id) rest in
      match id with
      | [] => None
      | _ => if existsb line_break tail then None else Some tail
      end
  | None => None
  end.

Definition switchHost (l : location) (id : list Z) : M page unit :=
  match id with
  | [] => ret tt
  | _ =>
      let suffix := match host_suffix (pathname l) with Some (c :: s) => c :: s | _ => [47] end in
      modify (set_href (units "/h/" ++ encodeURIComponent id ++ suffix ++ search l ++ hash l))
  end.

(** Where a click lands: in a button of the theme, of the drawer, one that
    closes it, in a link of the navigation. *)
Record click := Click { on_theme : bool; on_toggle : bool; on_close : bool; on_link : bool }.

Definition clicked (c : click) : M page unit :=
  if on_theme c then toggleTheme
  else if on_toggle c then p <- get ;; setDrawer (negb (drawer_open p))
  else if on_close c then setDrawer false
  else
    p <- get ;;
    if drawer_open p && on_link c then setDrawer false else ret tt.

(** The value chosen in a list of hosts, when the change was in one. *)
Definition changed (l : location) (host : option (list Z)) : M page unit :=
  match host with Some id => switchHost l id | None => ret tt end.

Definition keydown (key : string) : M page unit := if String.eqb key "Escape" then setDrawer false else ret tt.

Definition STORAGE_KEY : string := "outband-theme".
Definition storage_event (key : string) (newValue : option string) : M page unit :=
  match newValue with
  | Some t => if String.eqb key STORAGE_KEY && is_theme t then applyTheme t else ret tt
  | None => ret tt
  end.

Definition onReady : M page unit := p <- get ;; applyTheme (readTheme p).
End Page.

(** * Tabs *)

(** Each tab with the changes that wait for it. *)
Record tabs := Tabs { shared : option string; open_tabs : list (page * list string) }.

(** A method runs in tab [i]; the changes it makes wait for the others. *)
Definition give (i : nat) (new : list string) (j : nat) (t : page * list string) : page * list string :=
  (fst t, if (j =? i)%nat then snd t else snd t ++ new).
Fixpoint give_all (i : nat) (new : list string) (j : nat) (l : list (page * list string)) : list (page * list string) :=
  match l with
  | [] => []
  | t :: l => give i new j t :: give_all i new (S j) l
  end.
Fixpoint put_page (i : nat) (t : page * list string) (l : list (page * list string)) : list (page * list string) :=
  match l, i with
  | [], _ => []
  | _ :: l, O => t :: l
  | x :: l, S i => x :: put_page i t l
  end.

Definition in_tab (i : nat) (m : M page unit) (rest : list string) (ts : tabs) : tabs :=
  match nth_error (open_tabs ts) i with
  | None => ts
  | Some (p, _) =>
      let p' := snd (m (set_changes [] (set_storage_ (shared ts) p))) in
      Tabs (storage_ p') (give_all i (changes p') 0 (put_page i (set_changes [] p', rest) (open_tabs ts)))
  end.

(** A new page starts, its user clicks or types in it, a waiting change reaches
    it, or it is closed.  What a new page has is arbitrary: a script at its top
    (layout.html, login.html) has set [data-theme] before this one runs. *)
Inductive tab_step (light : option bool) (refused : bool) : tabs -> tabs -> Prop :=
| tab_opens p ts :
    tab_step light refused ts (in_tab (List.length (open_tabs ts)) (onReady light refused) [] (Tabs (shared ts) (open_tabs ts ++ [(p, [])])))
| tab_clicked i c p q ts : nth_error (open_tabs ts) i = Some (p, q) -> tab_step light refused ts (in_tab i (clicked light refused c) q ts)
| tab_key i k p q ts : nth_error (open_tabs ts) i = Some (p, q) -> tab_step light refused ts (in_tab i (keydown k) q ts)
| tab_told i p t q ts : nth_error (open_tabs ts) i = Some (p, t :: q) -> tab_step light refused ts (in_tab i (storage_event refused STORAGE_KEY (Some t)) q ts)
| tab_closes l1 t l2 ts : open_tabs ts = l1 ++ t :: l2 -> tab_step light refused ts (Tabs (shared ts) (l1 ++ l2)).
End Theme.
