(* ===== verification/ThemeCorrect.v ===== *)
(** The theme over several tabs, and the choice of another host. *)

From Stdlib Require Import ZArith List Lia Bool String.
From S2P Require Import Prelude Utf8 Webutil Theme.
Import ListNotations WebUtil Theme.
Open Scope Z_scope.
Open Scope code_scope.

Module ThemeCorrect.

(** A page shows a theme, and its buttons offer the other. *)
Definition offers (t : string) (b : toggle) : Prop :=
  pressed b = String.eqb t "dark" /\ aria_label b = ("Switch to " ++ other t ++ " theme")%string /\ b_title b = aria_label b.
Definition shows (t : string) (p : page) : Prop := data_theme p = Some t /\ is_theme t = true /\ Forall (offers t) (toggles p).

Lemma is_theme_cases t : is_theme t = true -> t = "light"%string \/ t = "dark"%string.
Proof. unfold is_theme. intros H. apply orb_true_iff in H as [H|H]; apply String.eqb_eq in H; auto. Qed.

Lemma other_theme t : is_theme (other t) = true.
Proof. unfold other. now destruct (String.eqb t "light"). Qed.

Section Tab.
Variable light : option bool.

(** What applying a theme does when the storage takes it. *)
Lemma apply_run t p : is_theme t = true -> exists p', applyTheme false t p = (Ret tt, p') /\ shows t p' /\ storage_ p' = Some t /\
  changes p' = changes p ++ (if match storage_ p with Some v => String.eqb v t | None => false end then [] else [t]).
Proof.
  intros Ht. unfold applyTheme. rewrite Ht. cbv zeta. rewrite after_modify. unfold setItem. rewrite bind_assoc_run, (bind_run get _ _ _ _ eq_refl).
  cbn [storage_ set_data_theme]. assert (Ho : Forall (offers t) (map (fun _ => Toggle (String.eqb t "dark") ("Switch to " ++ other t ++ " theme") ("Switch to " ++ other t ++ " theme")) (toggles p))).
  { apply Forall_map, Forall_forall. intros b _. repeat split. }
  destruct (storage_ p) as [v|] eqn:Es; [destruct (String.eqb_spec v t) as [->|Hne]|];
    (eexists; split; [reflexivity|]; cbn; rewrite ?app_nil_r; repeat split; auto).
Qed.

Lemma theme_read p : is_theme (readTheme light false p) = true.
Proof.
  unfold readTheme, systemTheme. destruct (storage_ p) as [t|]; [destruct (is_theme t) eqn:E; [exact E|]|]; destruct light as [[|]|]; reflexivity.
Qed.

(** A method that leaves the theme alone, or applies one. *)
Inductive does (m : M page unit) (p : page) : Prop :=
| does_nothing : storage_ (snd (m p)) = storage_ p -> changes (snd (m p)) = changes p -> data_theme (snd (m p)) = data_theme p ->
    toggles (snd (m p)) = toggles p -> does m p
| does_apply t : is_theme t = true -> m p = applyTheme false t p -> does m p.

Lemma does_same m m' p : m p = m' p -> does m' p -> does m p.
Proof. intros E [E1 E2 E3 E4|t Ht Ea]; [apply does_nothing; now rewrite E|apply (does_apply m p t Ht); congruence]. Qed.

Lemma drawer_does b p : does (setDrawer b) p.
Proof. now apply does_nothing. Qed.

Lemma toggle_does p : does (toggleTheme light false) p.
Proof. unfold toggleTheme. eapply does_apply; [apply other_theme|reflexivity]. Qed.

Lemma clicked_does c p : does (clicked light false c) p.
Proof.
  unfold clicked. destruct (on_theme c); [apply toggle_does|]. destruct (on_toggle c); [apply (does_same _ (setDrawer (negb (drawer_open p)))); [reflexivity|apply drawer_does]|]. destruct (on_close c); [apply drawer_does|].
  destruct (drawer_open p && on_link c) eqn:E.
  - apply (does_same _ (setDrawer false)); [unfold bind, get; now rewrite E|apply drawer_does].
  - apply (does_same _ (ret tt)); [unfold bind, get; now rewrite E|now apply does_nothing].
Qed.

Lemma key_does k p : does (keydown k) p.
Proof. unfold keydown. destruct (String.eqb k "Escape"); [apply drawer_does|now apply does_nothing]. Qed.

Lemma told_does t p : is_theme t = true -> does (storage_event false STORAGE_KEY (Some t)) p.
Proof. intros Ht. eapply does_apply; [exact Ht|]. unfold storage_event. rewrite Ht, String.eqb_refl. reflexivity. Qed.

(** ** Tabs *)

(** What a tab shows, and what waits for it. *)
Record tab_ok (sh : option string) (t : page * list string) : Prop := {
  tab_shows : exists x, shows x (fst t);
  tab_queue : Forall (fun x => is_theme x = true) (snd t);
  tab_settled : snd t = [] -> data_theme (fst t) = sh
}.
Definition tabs_ok (ts : tabs) : Prop := Forall (tab_ok (shared ts)) (open_tabs ts).

Lemma shows_same p p' : data_theme p' = data_theme p -> toggles p' = toggles p -> (exists x, shows x p) -> exists x, shows x p'.
Proof. intros E1 E2 (x & H1 & H2 & H3). exists x. unfold shows. now rewrite E1, E2. Qed.

Lemma give_nothing i l : forall j, give_all i [] j l = l.
Proof.
  induction l as [|[p q] l IH]; intros j; cbn [give_all]; [reflexivity|]. rewrite IH. unfold give. cbn [fst snd]. rewrite app_nil_r. now destruct (j =? i)%nat.
Qed.

Lemma put_tab_ok sh t l : forall i, Forall (tab_ok sh) l -> tab_ok sh t -> Forall (tab_ok sh) (put_page i t l).
Proof. induction l as [|x l IH]; intros i Hl Ht; [destruct i; constructor|]. inversion Hl; subst. destruct i; cbn [put_page]; constructor; auto. Qed.

(** The others are told of a theme; the tab itself shows it. *)
Lemma give_ok sh i new t0 x l : is_theme x = true -> new = [] /\ sh = Some x \/ new = [x] -> (exists y, shows y (fst t0)) -> data_theme (fst t0) = Some x ->
  Forall (fun y => is_theme y = true) (snd t0) ->
  forall j, Forall (tab_ok sh) l -> Forall (tab_ok (Some x)) (give_all (i + j) new j (put_page i t0 l)).
Proof.
  intros Hx Hnew Hs Hd Hq. revert i. induction l as [|t l IH]; intros i j Hl; [destruct i; constructor|]. inversion Hl as [|? ? Ht Hl']; subst.
  assert (Hother : forall k t, k <> j -> tab_ok sh t -> tab_ok (Some x) (give k new j t)).
  { intros k t1 Hk [T1 T2 T3]. unfold give. destruct (Nat.eqb_spec j k); [congruence|]. constructor; cbn [fst snd].
    - exact T1.
    - apply Forall_app. split; [exact T2|]. destruct Hnew as [[-> _]| ->]; repeat constructor. exact Hx.
    - intros E. apply app_eq_nil in E as [E1 E2]. destruct Hnew as [[_ ->]| ->]; [now apply T3|discriminate]. }
  destruct i as [|i]; cbn [put_page give_all].
  - constructor.
    + unfold give. rewrite Nat.eqb_refl. constructor; cbn [fst snd]; auto.
    + clear IH Hl Ht t. assert (Hrest : forall l k, (j < k)%nat -> Forall (tab_ok sh) l -> Forall (tab_ok (Some x)) (give_all (0 + j) new k l)).
      { intros l0. induction l0 as [|t l0 IH0]; intros k Hk Hl0; cbn [give_all]; [constructor|]. inversion Hl0 as [|? ? [T1 T2 T3] Hl1]; subst. constructor; [|now apply IH0; [lia|]].
        unfold give. destruct (Nat.eqb_spec k (0 + j)); [lia|]. constructor; cbn [fst snd]; [exact T1| |].
        - apply Forall_app. split; [exact T2|]. destruct Hnew as [[-> _]| ->]; repeat constructor. exact Hx.
        - intros E. apply app_eq_nil in E as [E1 E2]. destruct Hnew as [[_ ->]| ->]; [now apply T3|discriminate]. }
      apply Hrest; [lia|exact Hl'].
  - constructor; [apply Hother; [lia|exact Ht]|]. replace (S i + j)%nat with (i + S j)%nat by lia. now apply IH.
Qed.

Lemma in_tab_ok i m p0 q0 rest ts : (forall p, does m p) -> nth_error (open_tabs ts) i = Some (p0, q0) -> (exists t, rest = q0 \/ q0 = t :: rest) ->
  (q0 <> rest -> exists t, is_theme t = true /\ forall p, m p = applyTheme false t p) -> tabs_ok ts -> tabs_ok (in_tab i m rest ts).
Proof.
  intros Hm Hn Hrest Hall Hok. unfold in_tab. rewrite Hn. set (p := set_changes [] (set_storage_ (shared ts) p0)).
  assert (Ht : tab_ok (shared ts) (p0, q0)) by (unfold tabs_ok in Hok; rewrite Forall_forall in Hok; apply Hok; eapply nth_error_In; exact Hn).
  destruct Ht as [[x0 Hx0] Hq0 Hset]. cbn [fst snd] in *.
  assert (Hqr : Forall (fun y => is_theme y = true) rest) by (destruct Hrest as (t & [-> | ->]); [exact Hq0|now inversion Hq0]).
  assert (Hcase : (exists t, is_theme t = true /\ m p = applyTheme false t p) \/
    (rest = q0 /\ storage_ (snd (m p)) = storage_ p /\ changes (snd (m p)) = changes p /\ data_theme (snd (m p)) = data_theme p /\ toggles (snd (m p)) = toggles p)).
  { destruct (list_eq_dec string_dec q0 rest) as [E|E].
    - destruct (Hm p) as [E1 E2 E3 E4|t Ht Ea]; [right; auto|left; eauto].
    - destruct (Hall E) as (t & Ht & Ea). left. eauto. }
  destruct Hcase as [(t & Ht & ->)|(-> & E1 & E2 & E3 & E4)].
  - destruct (apply_run t p Ht) as (p' & -> & Hs & Est & Ech). cbn [snd]. unfold tabs_ok. cbn [shared open_tabs]. rewrite Est, Ech. cbn [changes p set_changes app].
    rewrite <- (Nat.add_0_r i) at 1. apply (give_ok (shared ts)); auto.
    + cbn [storage_ p set_changes set_storage_]. destruct (shared ts) as [v|]; [destruct (String.eqb_spec v t) as [Ev|Ev]; [left; rewrite Ev; auto|right; auto]|right; auto].
    + exists t. exact Hs.
    + exact (proj1 Hs).
  - cbn [p set_changes set_storage_ storage_ changes data_theme toggles] in E1, E2, E3, E4. unfold tabs_ok. cbn [shared open_tabs]. rewrite E1, E2, give_nothing.
    apply put_tab_ok; [exact Hok|]. constructor; cbn [fst snd].
    + apply (shows_same p0); [cbn; exact E3|cbn; exact E4|now exists x0].
    + exact Hq0.
    + intros E. cbn. rewrite E3. now apply Hset.
Qed.

Lemma put_last t a b l : put_page (List.length l) t (l ++ [a]) = put_page (List.length l) t (l ++ [b]).
Proof. induction l as [|x l IH]; [reflexivity|]. cbn [List.length app put_page]. now rewrite IH. Qed.

Lemma opened_ok p ts : tabs_ok ts -> tabs_ok (in_tab (List.length (open_tabs ts)) (onReady light false) [] (Tabs (shared ts) (open_tabs ts ++ [(p, [])]))).
Proof.
  intros Hok. unfold in_tab. cbn [open_tabs shared]. rewrite nth_error_app2, Nat.sub_diag by lia. cbn [nth_error].
  set (p1 := set_changes [] (set_storage_ (shared ts) p)). set (t := readTheme light false p1). assert (Ht : is_theme t = true) by apply theme_read.
  assert (Ea : onReady light false p1 = applyTheme false t p1) by reflexivity. rewrite Ea.
  destruct (apply_run t p1 Ht) as (p' & -> & Hs & Est & Ech). cbn [snd]. unfold tabs_ok. cbn [shared open_tabs]. rewrite Est, Ech. cbn [changes p1 set_changes app].
  rewrite (put_last _ (p, []) (p', [t])). rewrite <- (Nat.add_0_r (List.length (open_tabs ts))) at 1. apply (give_ok (shared ts)); auto.
  - cbn [storage_ p1 set_changes set_storage_]. destruct (shared ts) as [v|]; [destruct (String.eqb_spec v t) as [Ev|Ev]; [left; rewrite Ev; auto|right; auto]|right; auto].
  - exists t. exact Hs.
  - exact (proj1 Hs).
  - apply Forall_app. split; [exact Hok|]. constructor; [|constructor]. constructor; cbn [fst snd]; [exists t; exact Hs|constructor; [exact Ht|constructor]|discriminate].
Qed.

Lemma step_ok ts ts' : tab_step light false ts ts' -> tabs_ok ts -> tabs_ok ts'.
Proof.
  intros Hs Hok. destruct Hs as [p ts|i c p q ts Hn|i k p q ts Hn|i p t q ts Hn|l1 t l2 ts Hn].
  - now apply opened_ok.
  - apply (in_tab_ok i _ p q); auto; [intros; apply clicked_does|exists ""%string; auto|congruence].
  - apply (in_tab_ok i _ p q); auto; [intros; apply key_does|exists ""%string; auto|congruence].
  - assert (Ht : is_theme t = true).
    { unfold tabs_ok in Hok. rewrite Forall_forall in Hok. destruct (Hok _ (nth_error_In _ _ Hn)) as [_ Hq _]. now inversion Hq. }
    apply (in_tab_ok i _ p (t :: q)); auto; [intros; now apply told_does|exists t; auto|].
    intros _. exists t. split; [exact Ht|]. intros p0. unfold storage_event. now rewrite Ht, String.eqb_refl.
  - unfold tabs_ok in *. rewrite Hn in Hok. apply Forall_app in Hok as [H1 H2]. apply Forall_app. split; [exact H1|now inversion H2].
Qed.

(** ** Without a storage *)

Definition themed (p : page) : Prop := exists x, shows x p.

Lemma apply_themed refused t p : themed (snd (applyTheme refused t p)).
Proof.
  destruct refused.
  - unfold applyTheme. set (x := if is_theme t then t else "dark"%string). exists x.
    assert (Hx : is_theme x = true) by (unfold x; destruct (is_theme t) eqn:E; [exact E|reflexivity]).
    split; [reflexivity|]. split; [exact Hx|]. cbn. apply Forall_map, Forall_forall. intros b _. repeat split.
  - set (x := if is_theme t then t else "dark"%string). assert (Hx : is_theme x = true) by (unfold x; destruct (is_theme t) eqn:E; [exact E|reflexivity]).
    assert (E : applyTheme false t p = applyTheme false x p) by (unfold applyTheme; rewrite Hx; reflexivity).
    rewrite E. destruct (apply_run x p Hx) as (p' & -> & Hs & _). now exists x.
Qed.

Lemma drawer_themed b p : themed p -> themed (snd (setDrawer b p)).
Proof. intros H. exact H. Qed.

Lemma clicked_themed refused c p : themed p -> themed (snd (clicked light refused c p)).
Proof.
  intros Hp. unfold clicked. destruct (on_theme c); [apply apply_themed|]. destruct (on_toggle c); [exact Hp|]. destruct (on_close c); [exact Hp|].
  unfold bind, get. destruct (drawer_open p && on_link c); exact Hp.
Qed.

Lemma key_themed k p : themed p -> themed (snd (keydown k p)).
Proof. intros Hp. unfold keydown. destruct (String.eqb k "Escape"); exact Hp. Qed.

Lemma told_themed refused t p : themed p -> themed (snd (storage_event refused STORAGE_KEY (Some t) p)).
Proof. intros Hp. unfold storage_event. destruct (_ && _); [apply apply_themed|exact Hp]. Qed.

Lemma give_themed i new l : forall j, Forall (fun t => themed (fst t)) l -> Forall (fun t => themed (fst t)) (give_all i new j l).
Proof. induction l as [|t l IH]; intros j Hl; cbn [give_all]; [constructor|]. inversion Hl; subst. constructor; auto. Qed.

Lemma put_themed t l : forall i, Forall (fun t => themed (fst t)) l -> themed (fst t) -> Forall (fun t => themed (fst t)) (put_page i t l).
Proof. induction l as [|x l IH]; intros i Hl Ht; [destruct i; constructor|]. inversion Hl; subst. destruct i; cbn [put_page]; constructor; auto. Qed.

Lemma in_tab_themed i m p q rest ts : nth_error (open_tabs ts) i = Some (p, q) -> (forall p, themed p -> themed (snd (m p))) ->
  Forall (fun t => themed (fst t)) (open_tabs ts) -> Forall (fun t => themed (fst t)) (open_tabs (in_tab i m rest ts)).
Proof.
  intros Hn Hm Hl. unfold in_tab. rewrite Hn. cbn [open_tabs]. apply give_themed, put_themed; [exact Hl|]. apply Hm.
  rewrite Forall_forall in Hl. exact (Hl _ (nth_error_In _ _ Hn)).
Qed.

Lemma step_themed refused ts ts' : tab_step light refused ts ts' -> Forall (fun t => themed (fst t)) (open_tabs ts) -> Forall (fun t => themed (fst t)) (open_tabs ts').
Proof.
  intros Hs Hl. destruct Hs as [p ts|i c p q ts Hn|i k p q ts Hn|i p t q ts Hn|l1 t l2 ts Hn].
  - unfold in_tab. cbn [open_tabs shared]. rewrite nth_error_app2, Nat.sub_diag by lia. cbn [nth_error open_tabs]. apply give_themed.
    set (p' := snd (onReady light refused _)). assert (Hp : themed p') by apply apply_themed.
    rewrite (put_last _ (p, []) (p', [])). apply put_themed; [|exact Hp]. apply Forall_app. split; [exact Hl|]. now repeat constructor.
  - apply (in_tab_themed i _ p q); auto. intros p0. apply clicked_themed.
  - apply (in_tab_themed i _ p q); auto. intros p0. apply key_themed.
  - apply (in_tab_themed i _ p (t :: q)); auto. intros p0. apply told_themed.
  - rewrite Hn in Hl. apply Forall_app in Hl as [H1 H2]. apply Forall_app. split; [exact H1|now inversion H2].
Qed.

Inductive tab_steps (refused : bool) : tabs -> tabs -> Prop :=
| tabs_here ts : tab_steps refused ts ts
| tabs_then ts ts1 ts2 : tab_steps refused ts ts1 -> tab_step light refused ts1 ts2 -> tab_steps refused ts ts2.

(** C38.  However tabs are opened and closed and their users click and type, whatever
    theme a page has when its script starts: every tab shows light or dark, with
    its buttons offering the other, whether or not the browser lets the storage
    be used.  When it does, once no change waits for any tab they all show the
    theme that is stored, with which the next page starts. *)
Theorem settled_tabs_agree refused sh ts : tab_steps refused (Tabs sh []) ts ->
  Forall (fun t => exists x, shows x (fst t)) (open_tabs ts) /\
  (refused = false -> Forall (fun t => snd t = []) (open_tabs ts) -> Forall (fun t => data_theme (fst t) = shared ts) (open_tabs ts)).
Proof.
  intros Hs. remember (Tabs sh []) as t0 eqn:E0. split.
  - induction Hs as [ts|ts ts1 ts2 Hs IH Hst]; [subst; constructor|]. apply (step_themed refused ts1); auto.
  - intros -> He. assert (Hok : tabs_ok ts) by (clear He; induction Hs as [ts|ts ts1 ts2 Hs IH Hst]; [subst; constructor|]; apply (step_ok ts1); auto).
    unfold tabs_ok in Hok. rewrite Forall_forall in *. intros t Hin. exact (tab_settled _ _ (Hok t Hin) (He t Hin)).
Qed.
End Tab.

(** * Two tabs *)

(** As the script at the top of the page leaves it. *)
Definition fresh : page := mkPage (Some "dark"%string) [Toggle true "" ""] false [] [] None [] [].
Definition theme_click : click := Click true false false false.
(** Two tabs; in the first the theme is changed twice before the second hears
    of it. *)
Definition two_tabs : tabs :=
  let ts := in_tab 0 (onReady None false) [] (Tabs None [(fresh, [])]) in
  let ts := in_tab 1 (onReady None false) [] (Tabs (shared ts) (open_tabs ts ++ [(fresh, [])])) in
  let ts := in_tab 0 (clicked None false theme_click) [] ts in
  in_tab 0 (clicked None false theme_click) [] ts.
Definition tell (i : nat) (ts : tabs) : tabs :=
  match nth_error (open_tabs ts) i with
  | Some (_, t :: q) => in_tab i (storage_event false STORAGE_KEY (Some t)) q ts
  | _ => ts
  end.
(** What there is to see: what is stored, what is shown, what waits. *)
Definition view (ts : tabs) : option string * list (option string * list string) :=
  (shared ts, map (fun t => (data_theme (fst t), snd t)) (open_tabs ts)).

(** Every change that a tab is told of it stores again, which the other is
    told of: four steps later all is as it was, and the two tabs go on
    changing their theme by themselves. *)
Lemma tabs_never_settle : view (tell 0 (tell 0 (tell 1 (tell 1 two_tabs)))) = view two_tabs /\
  view two_tabs = (Some "dark", [(Some "dark", []); (Some "dark", ["light"; "dark"])])%string /\
  map fst (snd (view (tell 1 two_tabs))) = [Some "dark"; Some "light"]%string.
Proof. vm_compute. repeat split. Qed.

Lemma settled_tabs_agree_witness : exists ts, tab_steps None false (Tabs None []) ts /\ shared ts = Some "light"%string /\ Forall (fun t => data_theme (fst t) = Some "light"%string) (open_tabs ts).
Proof.
  set (t1 := in_tab 0 (onReady None false) [] (Tabs None [(fresh, [])])).
  set (t2 := in_tab 1 (onReady None false) [] (Tabs (shared t1) (open_tabs t1 ++ [(fresh, [])]))).
  set (t3 := in_tab 0 (clicked None false theme_click) [] t2). set (t4 := in_tab 1 (storage_event false STORAGE_KEY (Some "light"%string)) [] t3).
  assert (Hs : tab_steps None false (Tabs None []) t4).
  { apply (tabs_then None false _ t3); [apply (tabs_then None false _ t2); [apply (tabs_then None false _ t1); [apply (tabs_then None false _ (Tabs None [])); [constructor|]|]|]|].
    - exact (tab_opens None false fresh (Tabs None [])).
    - exact (tab_opens None false fresh t1).
    - eapply (tab_clicked None false 0). vm_compute. reflexivity.
    - eapply (tab_told None false 1). vm_compute. reflexivity. }
  exists t4. split; [exact Hs|]. split; [vm_compute; reflexivity|].
  assert (Hd := proj2 (settled_tabs_agree None false None t4 Hs)). apply (Hd eq_refl). vm_compute. repeat constructor.
Defined.

(** * Another host *)

Lemma escaped_chars s : Utf8.well_formed s -> Forall (fun c => unreserved c = true \/ c = 37) (encodeURIComponent s).
Proof.
  assert (Hb : forall bs, bytes bs -> Forall (fun c => unreserved c = true \/ c = 37) (flat_map escape_byte bs)).
  { intros bs Hbs. induction Hbs as [|b bs Hb Hbs IH]; cbn [flat_map]; [constructor|]. apply Forall_app. split; [|exact IH].
    assert (Hd : forall d, 0 <= d < 16 -> unreserved (to_hex d) = true).
    { intros d Hd. unfold unreserved, to_hex. destruct (Z.ltb_spec d 10).
      - rewrite (proj2 (Z.leb_le 48 (48 + d))), (proj2 (Z.leb_le (48 + d) 57)) by lia. reflexivity.
      - rewrite (proj2 (Z.leb_le 65 (55 + d))), (proj2 (Z.leb_le (55 + d) 90)) by lia. cbn [andb orb]. now rewrite orb_true_r. }
    unfold is_byte in Hb. assert (H1 := Hd (b / 16) ltac:(euclid)). assert (H2 := Hd (b mod 16) ltac:(euclid)).
    constructor; [now right|constructor; [now left|constructor; [now left|constructor]]]. }
  assert (Hc : forall c, 0 <= c < 1114112 -> Forall (fun c => unreserved c = true \/ c = 37) (escape_char c)).
  { intros c Hc. unfold escape_char. destruct (unreserved c) eqn:Eu; [constructor; [now left|constructor]|apply Hb, Utf8.utf8_char_bytes; exact Hc]. }
  induction 1 as [|u s Hu Hh Hl Hw IH|u v s Hh Hl Hw IH]; cbn [encodeURIComponent]; [constructor| |]; rewrite Hh;
    apply Forall_app; split; try exact IH; apply Hc; [lia|now apply pair_char].
Qed.

Lemma until_slash id tail : Forall (fun c => c <> 47) id -> (tail = [] \/ exists t, tail = 47 :: t) -> until (Z.eqb 47) (id ++ tail) = id.
Proof.
  intros Hi Ht. apply until_app; [apply (Forall_impl _ (P := fun c => c <> 47)); [intros c Hc; apply Z.eqb_neq; congruence|exact Hi]|].
  destruct Ht as [-> |(t & ->)]; [exact I|apply Z.eqb_refl].
Qed.

Lemma suffix_of id tail : id <> [] -> Forall (fun c => c <> 47) id -> (tail = [] \/ exists t, tail = 47 :: t) -> existsb line_break tail = false ->
  host_suffix (units "/h/" ++ id ++ tail) = Some tail.
Proof.
  intros Hne Hi Ht Hl. unfold host_suffix. rewrite after_app, until_slash by assumption. rewrite skipn_app, skipn_all, Nat.sub_diag. cbn [skipn app]. rewrite Hl. now destruct id.
Qed.

(** Choosing another host leads to the same page of that host, with the same
    query and fragment, and the address names the host that was chosen. *)
Theorem same_page_of_host old id tail q f p : old <> [] -> Forall (fun c => c <> 47) old -> (exists t, tail = 47 :: t) -> existsb line_break tail = false ->
  id <> [] -> Utf8.well_formed id ->
  let p' := snd (switchHost (Location (units "/h/" ++ old ++ tail) q f) id p) in
  href p' = (units "/h/" ++ encodeURIComponent id ++ tail) ++ q ++ f /\
  host_suffix (units "/h/" ++ encodeURIComponent id ++ tail) = Some tail /\
  until (Z.eqb 47) (encodeURIComponent id ++ tail) = encodeURIComponent id /\ decodeURIComponent (encodeURIComponent id) = Ret id.
Proof.
  intros Hold Hslash Htail Hl Hid Hw p'. assert (Ht : tail = [] \/ exists t, tail = 47 :: t) by auto.
  assert (He : Forall (fun c => c <> 47) (encodeURIComponent id)).
  { apply (Forall_impl _ (P := fun c => unreserved c = true \/ c = 37)); [|now apply escaped_chars]. intros c [Hc| ->]; [intros ->; discriminate Hc|discriminate]. }
  assert (Hdec : decodeURIComponent (encodeURIComponent id) = Ret id) by now apply decodeURIComponent_encode.
  assert (Hne : encodeURIComponent id <> []) by (intros E; rewrite E in Hdec; vm_compute in Hdec; congruence).
  split; [|split; [now apply suffix_of|split; [now apply until_slash|exact Hdec]]].
  unfold p', switchHost. destruct id as [|a id]; [congruence|]. cbn [pathname search hash]. rewrite suffix_of by assumption.
  destruct Htail as (t & ->). cbn [snd modify href set_href]. unfold modify. cbn [snd href set_href]. now rewrite <- !app_assoc.
Qed.

Lemma same_page_of_host_witness :
  href (snd (switchHost (Location (units "/h/rack1/metrics") (units "?range=6h") []) (units "rack 2") fresh)) = units "/h/rack%202/metrics?range=6h".
Proof.
  destruct (same_page_of_host (units "rack1") (units "rack 2") (units "/metrics") (units "?range=6h") [] fresh) as [E _];
    [discriminate|repeat constructor; discriminate|eexists; vm_compute; reflexivity|reflexivity|discriminate| |exact E].
  repeat (apply Utf8.wf_unit; [cbn; lia|reflexivity|reflexivity|]). constructor.
Defined.
End ThemeCorrect.
