(* ===== verification/Localization.v ===== *)
(** Languages and translation, app/localization.js: the language is chosen
    from those of the user, its dictionary fetched, and the texts of the
    document translated.

    A dictionary maps texts; the case mapping of the browser is an argument.  Of
    an element of the document the model has its name, attributes and
    children. *)

From Stdlib Require Import ZArith List Lia Bool String.
From S2P Require Import Prelude Utf8 Webutil Ui Metrics.
Import ListNotations WebUtil.
Open Scope Z_scope.
Open Scope code_scope.

Module Localization.

Abbreviation text := (list Z).

Record localizer := mkLocalizer { language : text; _dictionary : option (text -> option text) }.
Definition set_language v r := mkLocalizer v (_dictionary r).
Definition set__dictionary v r := mkLocalizer (language r) v.

Definition constructor : localizer := mkLocalizer (units "en") None.

Section Language.
Variable toLowerCase : text -> text.

(** [s.replace("_", "-")]: the first one. *)
Fixpoint replace_first (s : text) : text :=
  match s with
  | [] => []
  | c :: s => if c =? 95 then 45 :: s else c :: replace_first s
  end.

(** [s.toLowerCase().replace("_", "-").split("-")] *)
Definition pieces (s : text) : list text := split 45 (replace_first (toLowerCase s)).

Definition same_at (i : nat) (a b : list text) : bool :=
  match nth_error a i, nth_error b i with
  | Some x, Some y => str_eqb x y
  | None, None => true
  | _, _ => false
  end.

(** [navigator.languages], when the browser has it, or its one language. *)
Definition userLanguages (languages : option (list text)) (one : text) : list text :=
  match languages with Some l => l | None => [one] end.

Definition perfect (u : list text) (sup : text) : bool := same_at 0 u (pieces sup) && same_at 1 u (pieces sup).
Definition fallback (u : list text) (sup : text) : bool :=
  same_at 0 u (pieces sup) && match nth_error (pieces sup) 1 with None => true | Some _ => false end.

(** Where a language of the user ends the search, and with which language: with
    none for English, the texts being English. *)
Definition decides (supported : list text) (user : text) : option (option text) :=
  let u := pieces user in
  match find (perfect u) supported with
  | Some s => Some (Some s)
  | None =>
      if match u with x :: _ => str_eqb x (units "en") | [] => false end then Some None
      else option_map Some (find (fallback u) supported)
  end.

Fixpoint choose (supported users : list text) : option text :=
  match users with
  | [] => None
  | u :: users => match decides supported u with Some l => l | None => choose supported users end
  end.

Definition _setupLanguage (users supported : list text) : M localizer unit :=
  match choose supported users with
  | Some l => modify (set_language l)
  | None => ret tt
  end.

(** The address that is fetched, if any. *)
Definition _setupDictionary (baseURL : text) : M localizer (option text) :=
  let baseURL := match baseURL with [] => [] | _ => if last baseURL 0 =? 47 then baseURL else baseURL ++ [47] end in
  l <- get ;;
  if str_eqb (language l) (units "en") then ret None
  else ret (Some (baseURL ++ language l ++ units ".json")).

(** The answer: a dictionary, or a status that is not one of success. *)
Definition dictionary_fetched (answer : (text -> option text) + (Z * string)) : M localizer unit :=
  match answer with
  | inl d => modify (set__dictionary (Some d))
  | inr _ => throw "Error"
  end.

Definition setup (users supported : list text) (baseURL : text) : M localizer (option text) :=
  modify (set_language (units "en")) ;;
  modify (set__dictionary None) ;;
  _setupLanguage users supported ;;
  _setupDictionary baseURL.
End Language.

Definition get_text (l : localizer) (id : text) : text :=
  match _dictionary l with
  | Some d => match d id with Some ((_ :: _) as t) => t | _ => id end
  | None => id
  end.

(** ** The document *)

Inductive dom :=
| Elem (tagName : string) (attributes : list (string * text)) (childNodes : list dom)
| TextNode (data : text)
| OtherNode.

Definition getAttribute (a : string) (attrs : list (string * text)) : option text :=
  option_map snd (find (fun p => String.eqb (fst p) a) attrs).
Definition hasAttribute (a : string) (attrs : list (string * text)) : bool :=
  match getAttribute a attrs with Some _ => true | None => false end.
Fixpoint setAttribute (a : string) (v : text) (attrs : list (string * text)) : list (string * text) :=
  match attrs with
  | [] => [(a, v)]
  | p :: attrs => if String.eqb (fst p) a then (a, v) :: attrs else p :: setAttribute a v attrs
  end.
Definition isAnyOf (x : string) (items : list string) : bool := existsb (String.eqb x) items.
Definition text_any_of (x : option text) (items : list text) : bool :=
  match x with Some x => existsb (str_eqb x) items | None => false end.

Fixpoint join_blank (l : list text) : text :=
  match l with
  | [] => []
  | [s] => s
  | s :: l => s ++ [32] ++ join_blank l
  end.

(** Blanks around the text and around its line breaks are of the source. *)
Definition normal (s : text) : text := Metrics.trim (join_blank (map Metrics.trim (split 10 s))).

Section Translate.
Variable get_ : text -> text.

Definition translateString (s : text) : text := get_ (normal s).

Definition translateAttribute (a : string) (attrs : list (string * text)) : list (string * text) :=
  match getAttribute a attrs with Some v => setAttribute a (translateString v) attrs | None => attrs end.

Definition when_any (b : bool) (a : string) (attrs : list (string * text)) : list (string * text) :=
  if hasAttribute a attrs && b then translateAttribute a attrs else attrs.

Definition translate_attributes (tag : string) (attrs : list (string * text)) : list (string * text) :=
  let attrs := when_any (String.eqb tag "TH") "abbr" attrs in
  let attrs := when_any (isAnyOf tag ["AREA"; "IMG"; "INPUT"]%string) "alt" attrs in
  let attrs := when_any (isAnyOf tag ["A"; "AREA"]%string) "download" attrs in
  let attrs := when_any (isAnyOf tag ["MENUITEM"; "MENU"; "OPTGROUP"; "OPTION"; "TRACK"]%string) "label" attrs in
  let attrs := when_any (isAnyOf tag ["INPUT"; "TEXTAREA"]%string) "placeholder" attrs in
  let attrs := when_any true "title" attrs in
  when_any (String.eqb tag "INPUT" && text_any_of (getAttribute "type" attrs) (map units ["reset"; "button"; "submit"]%string)) "value" attrs.

(** The attribute [translate] turns it on and off. *)
Definition enabled_in (attrs : list (string * text)) (enabled : bool) : bool :=
  if text_any_of (getAttribute "translate" attrs) (map units [""; "yes"]%string) then true
  else if text_any_of (getAttribute "translate" attrs) [units "no"] then false
  else enabled.

Fixpoint process (enabled : bool) (n : dom) : dom :=
  match n with
  | Elem tag attrs children =>
      let enabled := enabled_in attrs enabled in
      Elem tag (if enabled then translate_attributes tag attrs else attrs) (map (process enabled) children)
  | TextNode data => if enabled then TextNode (translateString data) else n
  | OtherNode => OtherNode
  end.
End Translate.

(** [document.body] is translated. *)
Definition translateDOM (l : localizer) (body : dom) : dom := process (get_text l) true body.

(** * The language chosen *)

Section Negotiation.
Variable toLowerCase : text -> text.
Abbreviation pieces := (pieces toLowerCase).
Abbreviation decides := (decides toLowerCase).
Abbreviation choose := (choose toLowerCase).

Lemma same_at_spec i a b : same_at i a b = true <-> nth_error a i = nth_error b i.
Proof.
  unfold same_at. destruct (nth_error a i) as [x|], (nth_error b i) as [y|]; try (split; [discriminate|congruence]); [|now split].
  destruct (str_eqb_spec x y); split; congruence.
Qed.

(** What a user can be shown for a language: it in the variant wanted, the
    language in no particular variant, or the English of the program itself. *)
Definition suits (user l : text) : Prop :=
  nth_error (pieces l) 0 = nth_error (pieces user) 0 /\
  (nth_error (pieces l) 1 = nth_error (pieces user) 1 \/ nth_error (pieces l) 1 = None).
Definition english (user : text) : Prop := nth_error (pieces user) 0 = Some (units "en").

Lemma fallback_spec supported u l : find (fallback toLowerCase (pieces u)) supported = Some l -> In l supported /\ suits u l.
Proof.
  intros Hf. apply find_some in Hf as [Hin Hp]. split; [exact Hin|]. unfold fallback in Hp. apply andb_true_iff in Hp as [H0 H1].
  apply same_at_spec in H0. split; [auto|right]. now destruct (nth_error (pieces l) 1).
Qed.

Lemma decides_spec supported u l : decides supported u = Some l ->
  match l with Some l => In l supported /\ suits u l | None => english u end.
Proof.
  unfold Localization.decides. destruct (find (perfect toLowerCase (pieces u)) supported) as [s|] eqn:Ef.
  - intros [= <-]. apply find_some in Ef as [Hin Hp]. split; [exact Hin|]. unfold perfect in Hp. apply andb_true_iff in Hp as [H0 H1].
    apply same_at_spec in H0, H1. split; [auto|left; auto].
  - destruct (match pieces u with x :: _ => str_eqb x (units "en") | [] => false end) eqn:Ee.
    + intros [= <-]. unfold english. destruct (pieces u) as [|x r]; [discriminate|]. now destruct (str_eqb_spec x (units "en")) as [->|].
    + intros Hf. destruct (find (fallback toLowerCase (pieces u)) supported) as [s|] eqn:Es; [|discriminate]. injection Hf as <-. now apply fallback_spec.
Qed.

Lemma undecided_spec supported u : decides supported u = None -> forall l, In l supported -> ~ suits u l.
Proof.
  unfold Localization.decides. destruct (find (perfect toLowerCase (pieces u)) supported) as [s|] eqn:Ef; [discriminate|]. intros Hd l Hin [H0 [H1|H1]].
  - assert (Hn := find_none _ _ Ef l Hin). unfold perfect in Hn. apply andb_false_iff in Hn as [Hn|Hn]; rewrite (proj2 (same_at_spec _ _ _)) in Hn by congruence; discriminate.
  - destruct (match pieces u with x :: _ => str_eqb x (units "en") | [] => false end); [discriminate|].
    destruct (find (fallback toLowerCase (pieces u)) supported) eqn:Es; [discriminate|].
    assert (Hn := find_none _ _ Es l Hin). unfold fallback in Hn. rewrite H1, andb_true_r, (proj2 (same_at_spec _ _ _)) in Hn by congruence. discriminate.
Qed.

(** The language suits the first language of the user that any suits, in its
    very variant when there is one; without one it is English, the texts as
    they are.  A language the user put behind one that is served, or in a
    variant the user did not ask for, is never chosen. *)
Theorem language_negotiated supported users l0 :
  let l := language (snd (_setupLanguage toLowerCase users supported (set_language (units "en") l0))) in
  (exists before u after, users = before ++ u :: after /\
     (forall v, In v before -> ~ english v /\ forall s, In s supported -> ~ suits v s) /\
     (In l supported /\ suits u l \/ l = units "en" /\ english u) /\
     (forall s, In s supported -> nth_error (pieces s) 0 = nth_error (pieces u) 0 -> nth_error (pieces s) 1 = nth_error (pieces u) 1 ->
        In l supported /\ nth_error (pieces l) 0 = nth_error (pieces u) 0 /\ nth_error (pieces l) 1 = nth_error (pieces u) 1)) \/
  (l = units "en" /\ forall v, In v users -> ~ english v /\ forall s, In s supported -> ~ suits v s).
Proof.
  assert (Hnone : forall v, decides supported v = None -> ~ english v /\ forall s, In s supported -> ~ suits v s).
  { intros v Hv. split; [|now apply undecided_spec]. intros He. unfold english in He. unfold Localization.decides in Hv.
    destruct (find _ supported); [discriminate|]. destruct (pieces v) as [|x r]; [discriminate He|]. injection He as ->. discriminate Hv. }
  assert (Hc : forall users, (exists before u after l, users = before ++ u :: after /\ (forall v, In v before -> decides supported v = None) /\ decides supported u = Some l /\ choose supported users = l) \/
    (choose supported users = None /\ forall v, In v users -> decides supported v = None)).
  { clear users. induction users as [|u users IH]; [right; split; [reflexivity|intros v []]|]. cbn [Localization.choose]. destruct (decides supported u) as [l|] eqn:Ed.
    - left. exists [], u, users, l. repeat split; auto. intros v [].
    - destruct IH as [(before & u' & after & l & -> & Hb & Hu & Hl)|[Hl Hb]].
      + left. exists (u :: before), u', after, l. repeat split; auto. intros v [<-|Hv]; auto.
      + right. split; [exact Hl|]. intros v [<-|Hv]; auto. }
  unfold _setupLanguage. destruct (Hc users) as [(before & u & after & l & -> & Hb & Hu & ->)|[-> Hb]].
  - left. exists before, u, after. split; [reflexivity|]. split; [intros v Hv; apply Hnone, Hb, Hv|]. assert (Hspec := decides_spec _ _ _ Hu).
    split; [destruct l; [left; exact Hspec|right; split; [reflexivity|exact Hspec]]|]. intros s Hs H0 H1. unfold Localization.decides in Hu. assert (Hp : perfect toLowerCase (pieces u) s = true).
    { unfold perfect. apply andb_true_iff. split; apply same_at_spec; congruence. }
    destruct (find (perfect toLowerCase (pieces u)) supported) as [s'|] eqn:Ef.
    + injection Hu as <-. cbn [snd modify language set_language]. apply find_some in Ef as [Hin Hp']. unfold perfect in Hp'. apply andb_true_iff in Hp' as [E0 E1]. apply same_at_spec in E0, E1. auto.
    + rewrite (find_none _ _ Ef s Hs) in Hp. discriminate.
  - right. split; [reflexivity|]. intros v Hv. apply Hnone, Hb, Hv.
Qed.
End Negotiation.

(** * The document translated *)

Section Document.
Variable get_ : text -> text.

(** Induction on a document with its lists of children. *)
Lemma dom_induction (P : dom -> Prop) :
  (forall tag attrs children, Forall P children -> P (Elem tag attrs children)) -> (forall t, P (TextNode t)) -> P OtherNode -> forall n, P n.
Proof.
  intros He Ht Ho. fix IH 1. intros [tag attrs children|t|]; [|apply Ht|exact Ho]. apply He. induction children as [|n l IHl]; constructor; [apply IH|exact IHl].
Qed.

(** The document without its texts. *)
Fixpoint shape (n : dom) : dom :=
  match n with
  | Elem tag attrs children => Elem tag (map (fun p => (fst p, [])) attrs) (map shape children)
  | TextNode _ => TextNode []
  | OtherNode => OtherNode
  end.

(** The texts of the document in their order, each with whether it is to be
    translated. *)
Fixpoint texts (enabled : bool) (n : dom) : list (bool * text) :=
  match n with
  | Elem _ attrs children => flat_map (texts (enabled_in attrs enabled)) children
  | TextNode t => [(enabled, t)]
  | OtherNode => []
  end.

(** No part of it asks to be translated. *)
Fixpoint silent (n : dom) : bool :=
  match n with
  | Elem _ attrs children => negb (text_any_of (getAttribute "translate" attrs) (map units [""; "yes"]%string)) && forallb silent children
  | _ => true
  end.

Lemma set_names a v attrs : hasAttribute a attrs = true -> map fst (setAttribute a v attrs) = map fst attrs.
Proof.
  unfold hasAttribute, getAttribute. induction attrs as [|p attrs IH]; [discriminate|]. cbn [find setAttribute map].
  destruct (String.eqb_spec (fst p) a) as [<-|]; [reflexivity|]. intros H. cbn [map]. now rewrite IH.
Qed.

Lemma when_names b a attrs : map fst (when_any get_ b a attrs) = map fst attrs.
Proof.
  unfold when_any, translateAttribute. destruct (hasAttribute a attrs) eqn:E; [|reflexivity]. destruct b; [|reflexivity]. cbn [andb].
  destruct (getAttribute a attrs); [now apply set_names|reflexivity].
Qed.

Lemma set_other a a' v attrs : a' <> a -> getAttribute a' (setAttribute a v attrs) = getAttribute a' attrs.
Proof.
  intros Hne. unfold getAttribute. induction attrs as [|p attrs IH]; cbn [setAttribute find fst].
  - destruct (String.eqb_spec a a'); [congruence|reflexivity].
  - destruct (String.eqb_spec (fst p) a) as [E|]; cbn [find fst].
    + destruct (String.eqb_spec a a'); [congruence|]. destruct (String.eqb_spec (fst p) a'); [congruence|reflexivity].
    + destruct (String.eqb (fst p) a'); [reflexivity|exact IH].
Qed.

Lemma when_other b a a' attrs : a' <> a -> getAttribute a' (when_any get_ b a attrs) = getAttribute a' attrs.
Proof.
  intros Hne. unfold when_any, translateAttribute. destruct (_ && b); [|reflexivity]. destruct (getAttribute a attrs); [now apply set_other|reflexivity].
Qed.

Lemma names_shape (a b : list (string * text)) : map fst a = map fst b -> map (fun p => (fst p, @nil Z)) a = map (fun p => (fst p, [])) b.
Proof. intros H. rewrite <- (map_map (@fst string text) (fun n => (n, @nil Z)) a), H, map_map. reflexivity. Qed.

Lemma attributes_kept tag attrs : map fst (translate_attributes get_ tag attrs) = map fst attrs /\
  forall a, ~ In a ["abbr"; "alt"; "download"; "label"; "placeholder"; "title"; "value"]%string ->
    getAttribute a (translate_attributes get_ tag attrs) = getAttribute a attrs.
Proof.
  unfold translate_attributes. cbv zeta. split; [now rewrite !when_names|]. intros a Ha. cbn [In] in Ha.
  rewrite !when_other; [reflexivity|..]; intros ->; apply Ha; tauto.
Qed.

Lemma silent_kept n : silent n = true -> process get_ false n = n.
Proof.
  induction n as [tag attrs children IH|t|] using dom_induction; cbn [silent process]; try reflexivity. intros H. apply andb_true_iff in H as [Ha Hc].
  unfold enabled_in. rewrite (proj1 (negb_true_iff _) Ha). assert (E : forall b : bool, (if b then false else false) = false) by now intros [].
  rewrite E. f_equal. rewrite forallb_forall in Hc. rewrite Forall_forall in IH. transitivity (map (fun n => n) children); [|apply map_id].
  apply map_ext_in. intros n Hn. apply IH; auto.
Qed.

(** Translating changes texts only: the document keeps its shape, every text is
    replaced where translation is on and kept where it is off, and a part that
    is marked [translate="no"], and has nothing inside marked otherwise, stays
    as it is with all its attributes. *)
Theorem translation_confined on n :
  shape (process get_ on n) = shape n /\
  texts on (process get_ on n) = map (fun p : bool * text => (fst p, if fst p then translateString get_ (snd p) else snd p)) (texts on n) /\
  (forall tag attrs children, n = Elem tag attrs children -> getAttribute "translate" attrs = Some (units "no") -> forallb silent children = true ->
     process get_ on n = n).
Proof.
  split; [|split].
  - revert on. induction n as [tag attrs children IH|t|] using dom_induction; intros on; cbn [process shape]; try (now destruct on). f_equal.
    + apply names_shape. destruct (enabled_in attrs on); [apply attributes_kept|reflexivity].
    + rewrite map_map. apply map_ext_in. intros n Hn. rewrite Forall_forall in IH. now apply IH.
  - revert on. induction n as [tag attrs children IH|t|] using dom_induction; intros on; cbn [process texts]; try (now destruct on).
    set (attrs' := if enabled_in attrs on then translate_attributes get_ tag attrs else attrs).
    assert (E : enabled_in attrs' on = enabled_in attrs on).
    { unfold attrs', enabled_in. assert (Et : forall b : bool, getAttribute "translate" (if b then translate_attributes get_ tag attrs else attrs) = getAttribute "translate" attrs).
      { intros []; [|reflexivity]. apply attributes_kept. cbn [In]. intuition discriminate. }
      now rewrite Et. }
    rewrite E. rewrite Forall_forall in IH. clear E. induction children as [|c children IHc]; [reflexivity|]. cbn [map flat_map]. rewrite map_app.
    f_equal; [apply IH; now left|apply IHc; intros n Hn; apply IH; now right].
  - intros tag attrs children -> Ht Hc. cbn [process]. unfold enabled_in. rewrite Ht. change (text_any_of (Some (units "no")) (map units [""; "yes"]%string)) with false.
    change (text_any_of (Some (units "no")) [units "no"]) with true. cbn iota. f_equal. rewrite forallb_forall in Hc. transitivity (map (fun n => n) children); [|apply map_id].
    apply map_ext_in. intros n Hn. apply silent_kept. now apply Hc.
Qed.
End Document.

(** * At work *)

Definition ascii_lower (s : text) : text := map (fun c => if (65 <=? c) && (c <=? 90) then c + 32 else c) s.
Definition some_languages : list text := map units ["cs"; "de"; "pt_BR"; "zh_CN"; "zh_TW"]%string.
Example negotiated : map (fun users => language (snd (setup ascii_lower (map units users) some_languages (units "app/locale/") constructor)))
  [["zh-TW"; "de"]; ["de-AT"; "cs"]; ["fr"; "en-GB"; "de"]; ["pt"; "cs"]]%string = map units ["zh_TW"; "de"; "en"; "cs"]%string.
Proof. vm_compute. reflexivity. Qed.

Definition some_dictionary : localizer := mkLocalizer (units "de") (Some (fun t => if str_eqb t (units "Connect now") then Some (units "Jetzt verbinden") else None)).
Example document_translated : translateDOM some_dictionary
  (Elem "BODY" [] [Elem "INPUT" [("title", units "Connect now"); ("value", units "Connect now")] []; TextNode ([10; 32] ++ units "Connect" ++ [10; 32; 32] ++ units "now ");
     Elem "P" [("translate", units "no")] [TextNode (units "Connect now")]])%string =
  (Elem "BODY" [] [Elem "INPUT" [("title", units "Jetzt verbinden"); ("value", units "Connect now")] []; TextNode (units "Jetzt verbinden");
     Elem "P" [("translate", units "no")] [TextNode (units "Connect now")]])%string.
Proof. vm_compute. reflexivity. Qed.
End Localization.
