(* ===== verification/EventTarget.v ===== *)
(** Listeners of an object, core/util/eventtarget.js.

    A Set of the language is walked by [forEach] in the order of insertion; what
    is deleted before its turn is passed over, what is added meanwhile comes at
    the end.  A deleted entry keeps its place as a hole.  A listener is a name;
    what it does, which may be to add or remove listeners or to throw, is an
    argument. *)

From Stdlib Require Import ZArith List Lia Bool String.
From S2P Require Import Prelude.
Import ListNotations.
Open Scope Z_scope.
Open Scope code_scope.

Module EventTarget.

Section EventTarget.
(** The rest of what listeners see and change. *)
Context {W : Type}.

Abbreviation callback := nat (only parsing).

Record target := mkTarget { _listeners : list (string * list (option callback)); defaultPrevented : bool; world : W }.
Definition set__listeners v r := mkTarget v (defaultPrevented r) (world r).
Definition set_defaultPrevented v r := mkTarget (_listeners r) v (world r).
Definition set_world v r := mkTarget (_listeners r) (defaultPrevented r) v.

Definition live (c : callback) (x : option callback) : bool := match x with Some d => Nat.eqb c d | None => false end.

(** [Set.add], [Set.delete] *)
Definition set_add (c : callback) (s : list (option callback)) : list (option callback) := if existsb (live c) s then s else s ++ [Some c].
Definition set_delete (c : callback) (s : list (option callback)) : list (option callback) := map (fun x => if live c x then None else x) s.

Fixpoint get_set (type : string) (m : list (string * list (option callback))) : option (list (option callback)) :=
  match m with
  | [] => None
  | (t, s) :: m => if String.eqb t type then Some s else get_set type m
  end.
Fixpoint put_set (type : string) (s : list (option callback)) (m : list (string * list (option callback))) : list (string * list (option callback)) :=
  match m with
  | [] => [(type, s)]
  | (t, s') :: m => if String.eqb t type then (t, s) :: m else (t, s') :: put_set type s m
  end.

Definition addEventListener (type : string) (c : callback) : M target unit :=
  t <- get ;;
  (match get_set type (_listeners t) with None => modify (fun t => set__listeners (put_set type [] (_listeners t)) t) | Some _ => ret tt end) ;;
  modify (fun t => set__listeners (put_set type (set_add c (match get_set type (_listeners t) with Some s => s | None => [] end)) (_listeners t)) t).

Definition removeEventListener (type : string) (c : callback) : M target unit :=
  t <- get ;;
  match get_set type (_listeners t) with
  | Some s => modify (set__listeners (put_set type (set_delete c s) (_listeners t)))
  | None => ret tt
  end.

Variable calls : callback -> string -> M target unit.

(** [forEach] from entry [i] on; [fuel] bounds the entries. *)
Fixpoint forEach (fuel : nat) (i : nat) (type : string) : M target unit :=
  match fuel with
  | O => stuck
  | S fuel =>
      t <- get ;;
      match nth_error (match get_set type (_listeners t) with Some s => s | None => [] end) i with
      | None => ret tt
      | Some None => forEach fuel (S i) type
      | Some (Some c) => calls c type ;; forEach fuel (S i) type
      end
  end.

Definition dispatchEvent (fuel : nat) (type : string) : M target bool :=
  t <- get ;;
  match get_set type (_listeners t) with
  | None => ret true
  | Some _ => forEach fuel 0 type ;; t <- get ;; ret (negb (defaultPrevented t))
  end.

(** * What is called *)

(** The listeners of a type, in their order. *)
Definition listeners_of (type : string) (t : target) : list callback :=
  flat_map (fun x => match x with Some c => [c] | None => [] end) (match get_set type (_listeners t) with Some s => s | None => [] end).

Definition well_formed (t : target) : Prop := forall type, NoDup (listeners_of type t).

Lemma get_put type type' s m : get_set type' (put_set type s m) = if String.eqb type type' then Some s else get_set type' m.
Proof.
  induction m as [|[t s'] m IH]; cbn [put_set get_set]; [reflexivity|].
  destruct (String.eqb_spec t type) as [->|Hne]; cbn [get_set].
  - now destruct (String.eqb type type').
  - rewrite IH. destruct (String.eqb_spec t type'), (String.eqb_spec type type'); congruence.
Qed.

Definition names (s : list (option callback)) : list callback := flat_map (fun x => match x with Some c => [c] | None => [] end) s.

Lemma live_in c s : existsb (live c) s = true <-> In c (names s).
Proof.
  rewrite existsb_exists. unfold names. rewrite in_flat_map. split.
  - intros ([d|] & Hin & Hl); [|discriminate]. cbn in Hl. apply Nat.eqb_eq in Hl as <-. exists (Some c). split; [exact Hin|now left].
  - intros ([d|] & Hin & Hd); [|destruct Hd]. destruct Hd as [->|[]]. exists (Some c). split; [exact Hin|]. cbn. apply Nat.eqb_refl.
Qed.

Lemma names_add c s : names (set_add c s) = if existsb (Nat.eqb c) (names s) then names s else names s ++ [c].
Proof.
  unfold set_add. destruct (existsb (live c) s) eqn:E.
  - apply live_in in E. assert (E' : existsb (Nat.eqb c) (names s) = true) by (apply existsb_exists; exists c; split; [exact E|apply Nat.eqb_refl]). now rewrite E'.
  - destruct (existsb (Nat.eqb c) (names s)) eqn:E'.
    + apply existsb_exists in E' as (d & Hd & Hc). apply Nat.eqb_eq in Hc as <-. apply live_in in Hd. congruence.
    + unfold names. now rewrite flat_map_app.
Qed.

Lemma names_delete c s : names (set_delete c s) = filter (fun d => negb (Nat.eqb c d)) (names s).
Proof.
  induction s as [|[d|] s IH]; [reflexivity| |exact IH]. cbn [set_delete map names flat_map app filter live].
  destruct (Nat.eqb c d); cbn [negb app]; [exact IH|]. cbn [flat_map app]. f_equal. exact IH.
Qed.

(** Adding and removing do to the list of listeners what their names say: a
    listener is called once however often it was added, in the order of the
    first time, and not at all once it is removed. *)
Theorem listeners_kept type type' c t :
  listeners_of type' (snd (addEventListener type c t)) =
    (if String.eqb type type' then
       if existsb (Nat.eqb c) (listeners_of type t) then listeners_of type t else listeners_of type t ++ [c]
     else listeners_of type' t) /\
  listeners_of type' (snd (removeEventListener type c t)) =
    (if String.eqb type type' then filter (fun d => negb (Nat.eqb c d)) (listeners_of type t) else listeners_of type' t).
Proof.
  unfold listeners_of. split.
  - unfold addEventListener. rewrite (bind_run get _ t t t eq_refl). destruct (get_set type (_listeners t)) as [s|] eqn:Es.
    + cbn. rewrite Es, get_put. destruct (String.eqb_spec type type') as [<-|]; [|reflexivity]. exact (names_add c s).
    + cbn. rewrite !get_put, ?String.eqb_refl. destruct (String.eqb_spec type type') as [<-|]; rewrite ?String.eqb_refl; reflexivity.
  - unfold removeEventListener. rewrite (bind_run get _ t t t eq_refl). destruct (get_set type (_listeners t)) as [s|] eqn:Es; cbn.
    + rewrite get_put. destruct (String.eqb_spec type type') as [<-|]; [|reflexivity]. exact (names_delete c s).
    + destruct (String.eqb_spec type type') as [<-|]; [|reflexivity]. now rewrite Es.
Qed.

(** ** Dispatching *)

Fixpoint in_turn (l : list callback) (type : string) : M target unit :=
  match l with
  | [] => ret tt
  | c :: l => calls c type ;; in_turn l type
  end.

(** Listeners that leave the listeners of the type alone. *)
Definition settled (type : string) : Prop := forall c t, get_set type (_listeners (snd (calls c type t))) = get_set type (_listeners t).

Lemma forEach_turn type s : settled type -> forall fuel i t, get_set type (_listeners t) = Some s -> (List.length s < fuel + i)%nat -> (i <= List.length s)%nat ->
  forEach fuel i type t = in_turn (names (skipn i s)) type t.
Proof.
  intros Hc. induction fuel as [|fuel IH]; intros i t Hs Hf Hi; [lia|]. cbn [forEach]. rewrite (bind_run get _ t t t eq_refl), Hs.
  destruct (nth_error s i) as [x|] eqn:Ex.
  - assert (Hlt : (i < List.length s)%nat) by (apply nth_error_Some; congruence).
    assert (E : skipn i s = x :: skipn (S i) s).
    { clear - Ex. revert i Ex. induction s as [|a s IH]; intros [|i] Ex; try discriminate; [now injection Ex as ->|]. exact (IH i Ex). }
    rewrite E. destruct x as [c|]; [|change (names (None :: skipn (S i) s)) with (names (skipn (S i) s)); apply IH; auto; lia].
    change (names (Some c :: skipn (S i) s)) with (c :: names (skipn (S i) s)). cbn [in_turn]. unfold bind. assert (Hk := Hc c t).
    destruct (calls c type t) as [[[]|e|] t']; [|reflexivity..]. cbn [snd] in Hk. apply IH; [congruence|lia|lia].
  - apply nth_error_None in Ex. rewrite skipn_all2 by exact Ex. reflexivity.
Qed.

(** An event calls each listener of its type once, in order, the others not;
    the answer is whether none of them prevented the default. *)
Theorem event_dispatched type fuel t : settled type ->
  (List.length (match get_set type (_listeners t) with Some s => s | None => [] end) < fuel)%nat -> defaultPrevented t = false ->
  dispatchEvent fuel type t = (in_turn (listeners_of type t) type ;; t <- get ;; ret (negb (defaultPrevented t))) t.
Proof.
  intros Hc Hf Hd. unfold dispatchEvent, listeners_of. rewrite (bind_run get _ t t t eq_refl). destruct (get_set type (_listeners t)) as [s|] eqn:Es.
  - assert (E := forEach_turn type s Hc fuel 0 t Es ltac:(lia) ltac:(lia)). cbn [skipn] in E. unfold bind at 1 3. unfold names in E. now rewrite E.
  - cbn. unfold bind, get, ret. now rewrite Hd.
Qed.
End EventTarget.

(** * At work *)

(** Listener 1 writes down that it was called; 2 removes 3; 3 is removed before
    its turn; 4 adds 5, which is called in the same round. *)
Definition notes (c : nat) (type : string) : M (@target (list nat)) unit :=
  modify (fun t => set_world (world t ++ [c]) t) ;;
  if Nat.eqb c 2 then removeEventListener type 3
  else if Nat.eqb c 4 then addEventListener type 5 else ret tt.
Definition some_target : @target (list nat) := mkTarget [("bell", [Some 1; Some 2; None; Some 3; Some 4]%nat)]%string false [].
Example called_in_order : (let '(r, t) := dispatchEvent notes 10 "bell" some_target in (r, world t)) = (Ret true, [1; 2; 4; 5]%nat).
Proof. reflexivity. Qed.

Definition quiet_notes (c : nat) (type : string) : M (@target (list nat)) unit := modify (fun t => set_world (world t ++ [c]) t).
Lemma event_dispatched_witness : world (snd (dispatchEvent quiet_notes 10 "bell" some_target)) = [1; 2; 3; 4]%nat.
Proof.
  rewrite (event_dispatched quiet_notes "bell" 10 some_target); [reflexivity|intros c t; reflexivity|cbn; lia|reflexivity].
Defined.
End EventTarget.
