(* ===== verification/LegacyCrypto.v ===== *)
(** The one interface to the algorithms that the browser lacks,
    core/crypto/crypto.js: keys are made under the name of an algorithm and
    serve under that name alone. *)

From Stdlib Require Import ZArith List Lia Bool String.
From S2P Require Import Prelude Des Bigint Md5 Aes Rsa.
Import ListNotations.
Open Scope Z_scope.

Module LegacyCrypto.

(** The classes, and the one function, of the table. *)
Inductive entry := AESECBCipher | AESEAXCipher | DESECBCipher | DESCBCCipher | RSACipher | DHCipher | MD5.
Definition _algorithms : list (string * entry) :=
  [("AES-ECB", AESECBCipher); ("AES-EAX", AESEAXCipher); ("DES-ECB", DESECBCipher); ("DES-CBC", DESCBCCipher);
   ("RSA-PKCS1-v1_5", RSACipher); ("DH", DHCipher); ("MD5", MD5)]%string.
Fixpoint find_algorithm (n : string) (l : list (string * entry)) : option entry :=
  match l with
  | [] => None
  | (s, e) :: l => if String.eqb s n then Some e else find_algorithm n l
  end.
Definition algorithm_named (n : string) : option entry := find_algorithm n _algorithms.

(** The objects that [importKey] and [generateKey] give. *)
Inductive key :=
| AESECBKey (k : option (list Z))
| AESEAXKey (c : AESEAX.cipher)
| DESECBKey (keys : list Z)
| DESCBCKey (keys : list Z)
| RSAKey (r : Rsa.rsa)
| DHKey (d : Bigint.dh)
| DHPublicKey (k : list Z).

(** [key.algorithm.name] *)
Definition algorithm_of (k : key) : string :=
  match k with
  | AESECBKey _ => "AES-ECB"
  | AESEAXKey _ => "AES-EAX"
  | DESECBKey _ => "DES-ECB"
  | DESCBCKey _ => "DES-CBC"
  | RSAKey _ => "RSA-PKCS1-v1_5"
  | DHKey _ | DHPublicKey _ => "DH"
  end.

(** The parameters of an algorithm, of which each one uses its own. *)
Record algorithm := Algorithm { name : string; iv : list Z; additionalData : list Z; public : list Z; g : list Z; p : list Z; modulusLength : Z }.

(** The data of a key: bytes, or the numbers of an RSA key. *)
Inductive key_data := Raw (bytes : list Z) | Numbers (n e : list Z).

Inductive exported := Bytes (k : list Z) | Parts (n e d : option (list Z)).

Definition obind {A B} := @Bigint.obind A B.

Section LegacyCrypto.
Context `{WebCrypto}.

(** [random] are the bytes that an encryption draws. *)
Definition encrypt (alg : algorithm) (k : key) (random data : list Z) : outcome (option (list Z)) :=
  if negb (String.eqb (algorithm_of k) (name alg)) then Throw "algorithm does not match"
  else
    match k with
    | AESECBKey k => Ret (AESECB.encrypt k data)
    | AESEAXKey c => Ret (AESEAX.encrypt c (additionalData alg) (iv alg) data)
    | DESECBKey keys => Ret (Des.ecb_encrypt keys data)
    | DESCBCKey keys => Ret (Des.cbc_encrypt keys (iv alg) data)
    | RSAKey r => Rsa.encrypt r random data
    | DHKey _ | DHPublicKey _ => Throw "key does not support encryption"
    end.

Definition decrypt (alg : algorithm) (k : key) (data : list Z) : outcome (option (list Z)) :=
  if negb (String.eqb (algorithm_of k) (name alg)) then Throw "algorithm does not match"
  else
    match k with
    | AESEAXKey c => Ret (AESEAX.decrypt c (additionalData alg) (iv alg) data)
    | RSAKey r => Rsa.decrypt r data
    | _ => Throw "key does not support encryption"
    end.

(** [imported] is what the browser makes of the bytes of an AES key. *)
Definition importKey (format : string) (d : key_data) (alg : algorithm) (extractable : bool) (keyUsages : list string) (imported : list Z -> outcome (list Z)) : outcome key :=
  if negb (String.eqb format "raw") then Throw "key format is not supported"
  else
    match algorithm_named (name alg), d with
    | Some AESECBCipher, Raw k => obind (imported k) (fun k => Ret (AESECBKey (Some k)))
    | Some AESEAXCipher, Raw k => obind (imported k) (fun k => Ret (AESEAXKey (AESEAX._importKey k)))
    | Some DESECBCipher, Raw k => Ret (DESECBKey (Des.DES k))
    | Some DESCBCCipher, Raw k => Ret (DESCBCKey (Des.DES k))
    | Some RSACipher, Numbers n e =>
        match keyUsages with
        | [u] => if String.eqb u "encrypt" then obind (Rsa._importKey n e extractable) (fun r => Ret (RSAKey r))
                 else Throw "only support importing RSA public key"
        | _ => Throw "only support importing RSA public key"
        end
    | Some (DHCipher | MD5), _ | None, _ => Throw "algorithm is not supported"
    | Some _, _ => Throw "TypeError"
    end.

(** One key, or a pair of a private and a public one; the browser gives the RSA
    key and the random bytes. *)
Inductive generated := One (k : key) | Pair (privateKey publicKey : key).
Definition generateKey (alg : algorithm) (extractable : bool) (rsa_key : Rsa.jwk) (random : list Z) : outcome generated :=
  match algorithm_named (name alg) with
  | Some RSACipher => obind (Rsa._generateKey (modulusLength alg) extractable rsa_key) (fun r => Ret (One (RSAKey r)))
  | Some DHCipher => obind (Bigint.generateKey (g alg) (p alg) random) (fun d => Ret (Pair (DHKey d) (DHPublicKey (Bigint._publicKey d))))
  | _ => Throw "algorithm is not supported"
  end.

Definition exportKey (format : string) (k : key) : outcome exported :=
  if negb (String.eqb format "raw") then Throw "key format is not supported"
  else
    match k with
    | RSAKey r => obind (Rsa.exportKey r) (fun x => let '(n, e, d) := x in Ret (Parts n e d))
    | DHPublicKey k => Ret (Bytes k)
    | _ => Throw "key does not support exportKey"
    end.

(** Only MD5 is a function; the other names are of classes, which cannot be
    called without [new]. *)
Definition digest (alg : string) (data : list Z) : outcome (list Z) :=
  match algorithm_named alg with
  | Some MD5 => Ret (Md5.MD5 data)
  | Some _ => Throw "TypeError"
  | None => Throw "algorithm is not supported"
  end.

Definition deriveBits (alg : algorithm) (k : key) (length : Z) : outcome (list Z) :=
  if negb (String.eqb (algorithm_of k) (name alg)) then Throw "algorithm does not match"
  else
    match k with
    | DHKey d => Bigint.deriveBits d (public alg) length
    | _ => Throw "key does not support deriveBits"
    end.

(** * What a key is good for *)

(** The keys made under the name of an algorithm. *)
Inductive made (n : string) : key -> Prop :=
| made_imported format d alg extractable usages imported k : name alg = n -> importKey format d alg extractable usages imported = Ret k -> made n k
| made_one alg extractable j random k : name alg = n -> generateKey alg extractable j random = Ret (One k) -> made n k
| made_private alg extractable j random k k' : name alg = n -> generateKey alg extractable j random = Ret (Pair k k') -> made n k
| made_public alg extractable j random k k' : name alg = n -> generateKey alg extractable j random = Ret (Pair k k') -> made n k'.

Lemma obind_ret {A B} (o : outcome A) (f : A -> outcome B) b : obind o f = Ret b -> exists a, o = Ret a /\ f a = Ret b.
Proof. destruct o as [a|e|]; cbn; [intros Hf; now exists a|discriminate..]. Qed.

Lemma named n e : algorithm_named n = Some e ->
  n = match e with AESECBCipher => "AES-ECB" | AESEAXCipher => "AES-EAX" | DESECBCipher => "DES-ECB" | DESCBCCipher => "DES-CBC"
      | RSACipher => "RSA-PKCS1-v1_5" | DHCipher => "DH" | MD5 => "MD5" end%string.
Proof.
  unfold algorithm_named, _algorithms. cbn [find_algorithm].
  repeat match goal with |- context [String.eqb ?s n] => destruct (String.eqb_spec s n) as [<-|_]; [intros [= <-]; reflexivity|] end. discriminate.
Qed.

Lemma made_name n k : made n k -> algorithm_of k = n.
Proof.
  intros [format d alg ext us imp k0 <- Hi|alg ext j r k0 <- Hg|alg ext j r k0 k' <- Hg|alg ext j r k0 k' <- Hg].
  - unfold importKey in Hi. destruct (negb (String.eqb format "raw")); [discriminate|]. destruct (algorithm_named (name alg)) as [e|] eqn:Ee; [|discriminate].
    rewrite (named _ _ Ee). destruct e; destruct d as [b|n e]; try discriminate; try (apply obind_ret in Hi as (a & _ & [= <-]); reflexivity); try (injection Hi as <-; reflexivity).
    destruct us as [|u [|u' us]]; try discriminate. destruct (String.eqb u "encrypt"); [|discriminate]. apply obind_ret in Hi as (a & _ & [= <-]). reflexivity.
  - unfold generateKey in Hg. destruct (algorithm_named (name alg)) as [[]|] eqn:Ee; try discriminate; apply obind_ret in Hg as (a & _ & Hg); [|discriminate].
    injection Hg as <-. now rewrite (named _ _ Ee).
  - unfold generateKey in Hg. destruct (algorithm_named (name alg)) as [[]|] eqn:Ee; try discriminate; apply obind_ret in Hg as (a & _ & Hg); [discriminate|].
    injection Hg as <- _. now rewrite (named _ _ Ee).
  - unfold generateKey in Hg. destruct (algorithm_named (name alg)) as [[]|] eqn:Ee; try discriminate; apply obind_ret in Hg as (a & _ & Hg); [discriminate|].
    injection Hg as _ <-. now rewrite (named _ _ Ee).
Qed.

(** A key serves under the name it was made under and no other: anything asked
    of it under another name is refused before the key or the data is looked
    at, and nothing it is asked under its own is refused for that. *)
Theorem serves_its_name n k alg random data length : made n k ->
  (name alg <> n -> encrypt alg k random data = Throw "algorithm does not match" /\ decrypt alg k data = Throw "algorithm does not match" /\
     deriveBits alg k length = Throw "algorithm does not match") /\
  (name alg = n -> encrypt alg k random data =
     match k with
     | AESECBKey k => Ret (AESECB.encrypt k data)
     | AESEAXKey c => Ret (AESEAX.encrypt c (additionalData alg) (iv alg) data)
     | DESECBKey keys => Ret (Des.ecb_encrypt keys data)
     | DESCBCKey keys => Ret (Des.cbc_encrypt keys (iv alg) data)
     | RSAKey r => Rsa.encrypt r random data
     | DHKey _ | DHPublicKey _ => Throw "key does not support encryption"
     end).
Proof.
  intros Hm. apply made_name in Hm as <-. unfold encrypt, decrypt, deriveBits. split; intros Hn.
  - destruct (String.eqb_spec (algorithm_of k) (name alg)); [congruence|]. repeat split.
  - rewrite Hn, String.eqb_refl. reflexivity.
Qed.

(** The answer to a VNC challenge, as the handshake asks for it. *)
Lemma challenge_in_des password challenge imported : exists k, importKey "raw" (Raw password) (Algorithm "DES-ECB" [] [] [] [] [] 0) false ["encrypt"%string] imported = Ret k /\
  encrypt (Algorithm "DES-ECB" [] [] [] [] [] 0) k [] challenge = Ret (Des.genDES password challenge).
Proof. eexists. split; reflexivity. Qed.

Lemma serves_its_name_witness : encrypt (Algorithm "AES-ECB" [] [] [] [] [] 0) (DESECBKey (Des.DES [1; 2; 3; 4; 5; 6; 7; 8])) [] [] = Throw "algorithm does not match".
Proof.
  apply (serves_its_name "DES-ECB" (DESECBKey (Des.DES [1; 2; 3; 4; 5; 6; 7; 8])) (Algorithm "AES-ECB" [] [] [] [] [] 0) [] [] 0); [|discriminate].
  exact (made_imported "DES-ECB" "raw" (Raw [1; 2; 3; 4; 5; 6; 7; 8]) (Algorithm "DES-ECB" [] [] [] [] [] 0) false ["encrypt"%string] (fun k => Ret k) _ eq_refl eq_refl).
Defined.
End LegacyCrypto.
End LegacyCrypto.
