(* ===== verification/Browser.v ===== *)
(** What the client asks of the browser it runs in: which browser it is
    (core/util/browser.js), the levels of its log (core/util/logging.js), the
    last resort for errors (app/error-handler.js) and the terminal of the
    serial console (js/console.js). *)

From Stdlib Require Import ZArith List Lia Bool Ascii String QArith.
From S2P Require Import Prelude Webutil.
Import ListNotations WebUtil.
Open Scope Z_scope.
Open Scope code_scope.

Module Browser.

Record navigator := Navigator { platform : list Z; userAgent : list Z; maxTouchPoints : Z; msMaxTouchPoints : Z }.

(** ** Features *)

(** [ontouchstart] in the document, and it being defined. *)
Definition isTouchDevice (n : navigator) (has_ontouchstart ontouchstart_defined : bool) : bool :=
  has_ontouchstart || ontouchstart_defined || (0 <? maxTouchPoints n) || (0 <? msMaxTouchPoints n).
(** The first touch shows that it is one. *)
Definition onFirstTouch (touch : bool) : bool := true.

Definition dragThreshold (devicePixelRatio : option Q) : Q :=
  match devicePixelRatio with Some r => if Qeq_bool r 0 then 10 else 10 * r | None => 10 end.

(** The style of the cursor that the browser took, when it did not throw. *)
Definition supportsCursorURIs (style : option (list Z)) : bool :=
  match style with Some s => match after (units "url") s with Some _ => true | None => false end | None => false end.

(** The widths of a box with scrollbars and of its child. *)
Definition hasScrollbarGutter (widths : option (Z * Z)) : bool :=
  match widths with Some (outer, inner) => negb (outer - inner =? 0) | None => true end.

(** ** Names *)

(** A pattern of characters and dots, a dot for any but a line break. *)
Inductive pat := Char (c : Z) | Dot.
Definition pattern (s : string) : list pat := map (fun c => if c =? 46 then Dot else Char c) (units s).
Definition line_break (c : Z) : bool := existsb (Z.eqb c) [10; 13; 8232; 8233].
Definition lower (c : Z) : Z := if (65 <=? c) && (c <=? 90) then c + 32 else c.
Definition takes (fold : bool) (x : pat) (c : Z) : bool :=
  match x with Char d => if fold then lower d =? lower c else d =? c | Dot => negb (line_break c) end.
Fixpoint starts (fold : bool) (p : list pat) (s : list Z) : bool :=
  match p, s with
  | [], _ => true
  | x :: p, c :: s => takes fold x c && starts fold p s
  | _ :: _, [] => false
  end.
Fixpoint found (fold : bool) (p : list pat) (s : list Z) : bool :=
  starts fold p s || match s with [] => false | _ :: s => found fold p s end.

Section Names.
Variable n : navigator.
Definition platform_has (s : string) : bool := found true (pattern s) (platform n).
Definition agent_has (s : string) : bool := found false (pattern s) (userAgent n).

Definition isMac : bool := platform_has "mac".
Definition isWindows : bool := platform_has "win".
Definition isIOS : bool := platform_has "ipad" || platform_has "iphone" || platform_has "ipod".
Definition isAndroid : bool := agent_has "Android ".
Definition isChromeOS : bool := agent_has " CrOS ".
Definition isSafari : bool :=
  agent_has "Safari/..." && negb (agent_has "Chrome/...") && negb (agent_has "Chromium/...") && negb (agent_has "Epiphany/...").
Definition isFirefox : bool := agent_has "Firefox/..." && negb (agent_has "Seamonkey/...").
Definition isChrome : bool :=
  agent_has "Chrome/..." && negb (agent_has "Chromium/...") && negb (agent_has "Edg/...") && negb (agent_has "OPR/...").
Definition isChromium : bool := agent_has "Chromium/...".
Definition isOpera : bool := agent_has "OPR/...".
Definition isEdge : bool := agent_has "Edg/...".
Definition isGecko : bool := agent_has "Gecko/...".
Definition isWebKit : bool := agent_has "AppleWebKit/..." && negb (agent_has "Chrome/...").
Definition isBlink : bool := agent_has "Chrome/...".

(** Chrome is none of the browsers built from it and runs on its engine; Safari
    is not Chrome, nor on its engine; no engine is two. *)
Theorem browsers_apart :
  (isChrome = true -> isBlink = true /\ isChromium = false /\ isEdge = false /\ isOpera = false /\ isSafari = false) /\
  (isSafari = true -> isChrome = false /\ isChromium = false /\ isBlink = false) /\ isWebKit && isBlink = false.
Proof.
  unfold isChrome, isSafari, isBlink, isChromium, isEdge, isOpera, isWebKit.
  destruct (agent_has "Chrome/..."), (agent_has "Chromium/..."), (agent_has "Edg/..."), (agent_has "OPR/..."), (agent_has "Safari/..."), (agent_has "Epiphany/..."), (agent_has "AppleWebKit/...");
    cbn; repeat split; intros; try discriminate; reflexivity.
Qed.
End Names.

Definition a_chrome : navigator :=
  Navigator (units "Linux x86_64") (units "Mozilla/5.0 (X11; Linux x86_64) AppleWebKit/537.36 (KHTML, like Gecko) Chrome/126.0.0.0 Safari/537.36") 0 0.
Definition an_edge : navigator :=
  Navigator (units "Win32") (units "Mozilla/5.0 (Windows NT 10.0) AppleWebKit/537.36 (KHTML, like Gecko) Chrome/126.0.0.0 Safari/537.36 Edg/126.0.0.0") 0 0.
Definition a_phone : navigator :=
  Navigator (units "iPhone") (units "Mozilla/5.0 (iPhone; CPU iPhone OS 17_5) AppleWebKit/605.1.15 (KHTML, like Gecko) Version/17.5 Mobile/15E148 Safari/604.1") 5 0.
Example recognised : map (fun n => (isChrome n, isEdge n, isSafari n, isIOS n, isWebKit n, isGecko n)) [a_chrome; an_edge; a_phone] =
  [(true, false, false, false, false, false); (false, true, false, false, false, false); (false, false, true, true, true, false)].
Proof. vm_compute. reflexivity. Qed.
End Browser.

(** * The log *)

Module Logging.

Inductive level := LDebug | LInfo | LWarn | LError | LNone.
Definition level_of (s : string) : option level :=
  if String.eqb s "debug" then Some LDebug else if String.eqb s "info" then Some LInfo else if String.eqb s "warn" then Some LWarn
  else if String.eqb s "error" then Some LError else if String.eqb s "none" then Some LNone else None.

(** The level, and which functions write to the console. *)
Record log := mkLog { _logLevel : string; Debug : bool; Info : bool; Warn : bool; Error : bool }.

Definition loaded : log := mkLog "warn" false false false false.

(** The cases fall through to those below them. *)
Definition from (l : level) (g : log) : log :=
  match l with
  | LDebug => mkLog (_logLevel g) true true true true
  | LInfo => mkLog (_logLevel g) (Debug g) true true true
  | LWarn => mkLog (_logLevel g) (Debug g) (Info g) true true
  | LError => mkLog (_logLevel g) (Debug g) (Info g) (Warn g) true
  | LNone => g
  end.

Definition initLogging (has_console : bool) (l : option string) : M log unit :=
  g <- get ;;
  let l := match l with Some l => l | None => _logLevel g end in
  modify (fun _ => mkLog l false false false false) ;;
  if has_console then
    match level_of l with
    | Some l => modify (from l)
    | None => throw ("invalid logging type '" ++ l ++ "'")
    end
  else ret tt.

Definition getLogging : M log string := gets _logLevel.

Definition severity (l : level) : Z := match l with LDebug => 0 | LInfo => 1 | LWarn => 2 | LError => 3 | LNone => 4 end.
Definition writes (l : level) (g : log) : bool :=
  match l with LDebug => Debug g | LInfo => Info g | LWarn => Warn g | LError => Error g | LNone => false end.

(** Whatever was logged before, a level lets through what is at least as
    severe, and one that does not exist is refused and leaves the log silent. *)
Theorem levels_filter l g : let g' := snd (initLogging true (Some l) g) in
  match level_of l with
  | Some v => fst (initLogging true (Some l) g) = Ret tt /\ forall w, w <> LNone -> writes w g' = (severity v <=? severity w)
  | None => fst (initLogging true (Some l) g) = Throw ("invalid logging type '" ++ l ++ "'") /\ forall w, writes w g' = false
  end.
Proof.
  cbv zeta. unfold initLogging. rewrite (bind_run get _ g g g eq_refl), after_modify. destruct (level_of l) as [v|].
  - split; [reflexivity|]. intros w Hw. destruct v, w; try reflexivity; congruence.
  - split; [reflexivity|]. now intros [].
Qed.

(** ** The level in the address, app/webutil.js *)

Definition of_level (c : ascii) : bool :=
  let n := Z.of_nat (nat_of_ascii c) in
  ((65 <=? n) && (n <=? 90)) || ((97 <=? n) && (n <=? 122)) || ((48 <=? n) && (n <=? 57)) || existsb (Z.eqb n) [46; 95; 45].
Fixpoint level_text (s : string) : string :=
  match s with
  | String c s => if of_level c then String c (level_text s) else EmptyString
  | EmptyString => EmptyString
  end.
(** The first [logging=] of the address and what follows it. *)
Fixpoint logging_param (href : string) : option string :=
  if prefix "logging=" href then Some (level_text (substring 8 (length href) href))
  else match href with String _ s => logging_param s | EmptyString => None end.

(** What a match gives is an array, of the whole match and its group, and not
    the text of the group; its own text has a comma between them. *)
Definition initLogging_of_page (has_console : bool) (href : string) (l : option string) : M log unit :=
  match l with
  | Some l => initLogging has_console (Some l)
  | None => initLogging has_console (option_map (fun v => "logging=" ++ v ++ "," ++ v)%string (logging_param href))
  end.

(** So a level asked for in the address is refused, whatever it is. *)
Lemma address_level_refused href v g : logging_param href = Some v ->
  fst (initLogging_of_page true href None g) = Throw ("invalid logging type '" ++ ("logging=" ++ v ++ "," ++ v) ++ "'").
Proof.
  intros Hv. unfold initLogging_of_page, initLogging. rewrite Hv, (bind_run get _ g g g eq_refl), after_modify. reflexivity.
Qed.

Example address_level : logging_param "https://bmc/vnc.html?autoconnect=1&logging=debug#x" = Some "debug"%string.
Proof. reflexivity. Qed.
End Logging.

(** * Errors nobody caught *)

Module ErrorHandler.

(** What is told: a message, where it was, and the stack of the error. *)
Record error_event := ErrorEvent { message : string; filename : option string; lineno : option Z; colno : option Z; stack : option string }.

Record screen := mkScreen { messages : list (string * list Z); dialog_open : bool; focused : bool; focusable : bool }.

Definition location (e : error_event) (file : string) : list Z :=
  units file ++
  match lineno e with
  | Some l => units ":" ++ decimal l ++ match colno e with Some c => units ":" ++ decimal c | None => [] end
  | None => []
  end.

Definition resize_loop : string := "ResizeObserver loop completed with undelivered notifications.".

Definition truthy (s : option string) : option string := match s with Some ""%string | None => None | Some s => Some s end.

Definition handleError (e : error_event) : M screen unit :=
  s <- get ;;
  if String.eqb (message e) resize_loop then ret tt
  else match messages s with
  | _ :: _ => ret tt
  | [] =>
      modify (fun s => mkScreen
        ([("noVNC_message"%string, units (message e))] ++
         match truthy (filename e) with Some f => [("noVNC_location"%string, location e f)] | None => [] end ++
         match truthy (stack e) with Some t => [("noVNC_stack"%string, units t)] | None => [] end)
        true false false)
  end.

(** However many errors come, the screen shows the first of them that is not of
    the harmless kind, and the page takes no keys from then on. *)
Theorem first_error_stays es :
  let s := fold_left (fun s e => snd (handleError e s)) es (mkScreen [] false true true) in
  match find (fun e => negb (String.eqb (message e) resize_loop)) es with
  | Some e => hd_error (messages s) = Some ("noVNC_message"%string, units (message e)) /\ dialog_open s = true /\ focused s = false /\ focusable s = false
  | None => s = mkScreen [] false true true
  end.
Proof.
  cbv zeta. assert (Hstay : forall es m ms, fold_left (fun s e => snd (handleError e s)) es (mkScreen (m :: ms) true false false) = mkScreen (m :: ms) true false false).
  { clear es. induction es as [|e es IH]; intros m ms; [reflexivity|]. cbn [fold_left]. unfold handleError, bind, get. destruct (String.eqb (message e) resize_loop); apply IH. }
  induction es as [|e es IH]; [reflexivity|]. cbn [fold_left find]. destruct (String.eqb (message e) resize_loop) eqn:Em; cbn [negb].
  - assert (E : snd (handleError e (mkScreen [] false true true)) = mkScreen [] false true true) by (unfold handleError, bind, get; now rewrite Em).
    rewrite E. exact IH.
  - assert (E : exists ms, snd (handleError e (mkScreen [] false true true)) = mkScreen (("noVNC_message"%string, units (message e)) :: ms) true false false).
    { unfold handleError, bind, get. rewrite Em. cbn [messages modify snd]. eexists. reflexivity. }
    destruct E as (ms & ->). rewrite Hstay. repeat split.
Qed.
End ErrorHandler.

(** * The serial console *)

Module Console.

(** The banner, when the page has one, the bytes written to the terminal and
    what was sent. *)
Record console := mkConsole { banner : option (string * string); is_open : bool; written : list (list Z); sent : list (list Z) }.
Definition set_banner v r := mkConsole v (is_open r) (written r) (sent r).
Definition set_is_open v r := mkConsole (banner r) v (written r) (sent r).
Definition set_written v r := mkConsole (banner r) (is_open r) v (sent r).
Definition set_sent v r := mkConsole (banner r) (is_open r) (written r) v.

Definition setBanner (text cls : string) : M console unit :=
  modify (fun c => set_banner (option_map (fun _ => (text, ("sol-banner" ++ match cls with EmptyString => "" | _ => " " ++ cls end)%string)) (banner c)) c).

(** The address of the socket; the page may name a path. *)
Definition socket_url (protocol host : list Z) (data_ws_url : option (list Z)) : list Z :=
  let proto := if str_eqb protocol (units "https:") then units "wss:" else units "ws:" in
  proto ++ units "//" ++ host ++ match data_ws_url with Some ((_ :: _) as p) => p | _ => units "/ws/sol" end.

(** The events of the socket, and data typed into the terminal. *)
Inductive event := Opened | Closed | Failed | Message (data : list Z) | Typed (data : list Z).

Definition happens (e : event) : M console unit :=
  match e with
  | Opened => modify (set_is_open true) ;; setBanner "Connected — serial console active" "ok"
  | Closed => modify (set_is_open false) ;; setBanner "Disconnected — refresh to reconnect (single SOL session)" "warn"
  | Failed => setBanner "WebSocket error" "err"
  | Message data => modify (fun c => set_written (written c ++ [data]) c)
  | Typed data => c <- get ;; if is_open c then modify (set_sent (sent c ++ [data])) else ret tt
  end.

(** What is typed while the socket is open. *)
Fixpoint typed_open (open : bool) (es : list event) : list (list Z) :=
  match es with
  | [] => []
  | Opened :: es => typed_open true es
  | Closed :: es => typed_open false es
  | Typed d :: es => if open then d :: typed_open open es else typed_open open es
  | _ :: es => typed_open open es
  end.

(** The terminal shows every message in order and the socket is sent what is
    typed while it is open, in order and nothing else. *)
Theorem console_relays es b : let c := fold_left (fun c e => snd (happens e c)) es (mkConsole b false [] []) in
  written c = flat_map (fun e => match e with Message d => [d] | _ => [] end) es /\ sent c = typed_open false es.
Proof.
  cbv zeta. assert (H : forall es c, let c' := fold_left (fun c e => snd (happens e c)) es c in
    written c' = written c ++ flat_map (fun e => match e with Message d => [d] | _ => [] end) es /\ sent c' = sent c ++ typed_open (is_open c) es).
  { clear es b. induction es as [|e es IH]; intros c; cbv zeta; [cbn; now rewrite !app_nil_r|]. cbn [fold_left flat_map typed_open].
    destruct (IH (snd (happens e c))) as [H1 H2]. rewrite H1, H2. destruct e as [| | |d|d]; try (split; reflexivity).
    - cbn. rewrite <- app_assoc. split; reflexivity.
    - cbn. unfold bind, get. destruct (is_open c) eqn:Eo; cbn [modify snd ret]; [unfold modify|unfold ret]; cbn; rewrite ?Eo, <- ?app_assoc; split; reflexivity. }
  destruct (H es (mkConsole b false [] [])) as [H1 H2]. split; [exact H1|exact H2].
Qed.
End Console.
